(* ===== verification/_CoqProject ===== *)
-Q . S2P
Prelude.v
Serialization.v
PointerList.v
Vectors.v
SerializationLists.v
StripePattern.v
BitStore.v
RBTree.v
TargetMapper.v
TargetStateStore.v
MirrorBuddyGroup.v
MirrorBuddyGroupMapper.v
StripeIO.v
EntryInfo.v
NetMessage.v
Messages.v
MessageFormat.v
Responses.v
CommKit.v
CommKitInv.v
CommKitLive.v
CommKitOps.v
CommKitFile.v
CommKitError.v
NodeConnPool.v
NodeConnPoolInv.v
MessagingTk.v
MessagingTkInv.v
MessagingTkProps.v
StorageErrors.v
Remoting.v
RemotingInv.v
RemotingProps.v
FhgfsOpsHelper.v
FileCache.v
FileCacheInv.v
FileCacheProps.v
DirListing.v
StateMonad.v
FhgfsInode.v
FhgfsInodeInv.v
HashTk.v
PointerTree.v
BufferStores.v
InodeRefStore.v
NodeStore.v
NodeStoreInv.v
NodeStoreProps.v
AckStore.v
AckManager.v
InternodeSyncer.v
DatagramListener.v
DatagramListenerProps.v
