(* ===== verification/Prelude.v ===== *)
(** * The ConGFS client module: a verification development

    The client module [src/client_module/source] is the kernel part of the file
    system: it turns file operations into requests to metadata and storage servers.
    This library models, in Rocq, the parts of it that carry its own logic -- what goes
    over the wire, where the bytes of a file live, which servers are in charge, and how
    reads and writes are split and put together again -- and proves what makes them
    correct.  All paths below are relative to [src/client_module/source].

    ** How the parts work together

    The management server sends mapping lists ([common/Types.c]), which the
    serialization layer reads into lists.  They fill three stores: target to node
    ([TargetMapper]), target to state ([TargetStateStore]), group to pair of targets
    ([MirrorBuddyGroupMapper], whose groups number the requests to a mirrored target).
    Metadata servers send the stripe pattern of a file.  A read or write asks the
    pattern for chunk boundaries and targets, computes the position on each server,
    sends one request per chunk, and combines the results; a bit store remembers the
    targets that were written.  The requests of one round are handed to the state
    machine of [FhgfsOpsCommKit.c], which serves all targets at once: for each it
    finds the node (buddy groups, target states), takes a connection, sends the request
    as a message, transfers the data and decodes the answer, and it retries failed ones.

    ** The files

    - [Prelude]: machine integers as [Z] with their wrap-around, the [outcome] type
      ([Fault] is undefined behaviour: access outside owned memory, uninitialised
      memory, division by zero), byte memory, little-endian encoding, error codes.
    - [Serialization]: [common/toolkit/Serialization.h/.c], [SerializationTypes.h]:
      scalars, strings, char arrays, aligned strings, nested fields, as state monads
      over the message memory and the context; round trips, and safety on any bytes.
    - [PointerList]: [common/toolkit/list/PointerList.h], the doubly linked list all
      typed lists derive from, on a heap of cells; refinement of abstract lists.
    - [Vectors]: [common/toolkit/vector/UInt16Vec.h], [UInt8Vec.h], the copy of
      [ListTk.c]: arrays that double, with uninitialised cells.
    - [SerializationLists]: the list part of [Serialization.c] and the macro family of
      [Serialization.h] with its instances in [common/Types.c].
    - [StripePattern]: [common/storage/striping/*], [common/toolkit/MathTk.h]: the four
      patterns, chunk boundaries, target selection, construction from a message.  The
      class [Striped] states what a pattern promises; RAID 0, RAID 10 and buddy mirror
      patterns are instances, and [StripeIO] relies on the class only.
    - [BitStore]: [toolkit/BitStore.h/.c], for machines with 4- and 8-byte blocks.
    - [RBTree]: the tree functions generated by [CONGFS_RBTREE_FUNCTIONS] of
      [common/Common.h].  The kernel's rebalancing is the class [KernelRBTree] with its
      documented laws (insertion and erasure keep the order of the other elements), and
      a concrete instance shows that the laws can hold.
    - [TargetMapper], [TargetStateStore]: [common/nodes/TargetMapper.c] and
      [TargetStateStore.c], each proved to be a finite map.
    - [MirrorBuddyGroup]: [common/nodes/MirrorBuddyGroup.c]: sequence numbers in a heap
      with handles into it, a ring buffer of finished numbers, slots and references.
    - [MirrorBuddyGroupMapper]: [common/nodes/MirrorBuddyGroupMapper.c]: the groups as
      shared objects on a heap, looked up by id; syncing and adding groups.
    - [StripeIO]: [net/filesystem/FhgfsOpsRemoting.c]: striped read and write.
    - [EntryInfo]: [common/storage/EntryInfo.h/.c], [PathInfo], [StatData], [FileEvent]:
      the records messages carry.
    - [NetMessage]: [common/net/message/NetMessage.h/.c] and the simple messages: the
      header, writing and receiving; [PayloadWrites] and [PayloadReads] are what a
      message type promises.
    - [Messages]: the payloads of the 32 requests in [common/net/message/*], and the
      flags their constructors set; [Request] is the sum of the message structs.
    - [MessageFormat]: the fields of each request as the servers read them
      ([src/common/source/common/net/message/*]), and that the client writes just these.
    - [Responses]: the payloads the client receives, and the switch of
      [net/message/NetMessageFactory.c]; [Received] is the sum of these structs.
    - [CommKit]: the state machine of [net/filesystem/FhgfsOpsCommKit.c] and
      [FhgfsOpsCommKitCommon.h].  What it calls (node store, connection pools, sockets,
      poll, memory pool, signals) is the class [CommEnv], with the laws it relies on in
      [CommEnvLaws]; what it acquires is counted in a ledger.  The table of operations
      of a kind of communication is the record [CommKitContextOps].
    - [CommKitInv]: the invariant of the machine, for every table that keeps the
      promises of the class [KitOps]; [CommKitLive]: reachable machines, the end of the
      loop, and a small world in which runs are evaluated.
    - [CommKitOps]: the four tables (reading, writing, fsync, statfs) and the calls that
      use them; [CommKitFile]: the tables for reading and writing keep the promises, and
      the data they transfer is the data; [CommKitError]: what goes wrong.
    - [NodeConnPool]: [common/nodes/NodeConnPool.h/.c], [PooledSocket.h], [Time.h]: the
      connections to a node, used by any number of threads.  The functions release the
      mutex in between, so a call under way is a value of [Op], each definition runs one
      part of a function, and [step] interleaves the parts.  [NodeConnPoolInv]: the
      invariant of pool and calls, and what follows from it.
    - [MessagingTk]: [common/toolkit/MessagingTk.h/.c], [MessagingTkArgs.h]: requests
      with an answer, over the same surroundings as [CommKit] and those of the class
      [RPCEnv].  A run keeps a trace of what it sends and decodes, and what it holds.
      [MessagingTkInv]: a program logic for these runs ([rwp]), the specification of one
      attempt and the invariant of the retry loops; [MessagingTkProps]: the theorems.
    - [StorageErrors]: [common/storage/StorageErrors.h/.c], the table of error codes.
    - [Remoting]: the calls of [net/filesystem/FhgfsOpsRemoting.c] to metadata servers, on
      top of [MessagingTk]: each builds a request, sends it and takes the answer apart;
      with the structs they use and the calls of [filesystem/FhgfsOpsHelper.h] that leave
      an operation to the syncer.  What they need besides is the class [RemotingEnv].
      [RemotingInv]: the logic of such calls ([call_ok]); [RemotingProps]: the theorems.
    - [FhgfsOpsHelper]: the part of [filesystem/FhgfsOpsHelper.c] that opens, transfers
      and closes in one call, and symbolic links.
    - [FileCache]: buffered access in [filesystem/FhgfsOpsHelper.c]: the cache buffer of an
      inode, flushing, reading, writing and appending through it.  Each definition is what
      runs under one hold of the cache lock; remote IO and user memory are the class
      [CacheEnv].  [FileCacheInv]: its laws for servers that do as they are asked
      ([ReliableFile]), a logic for such runs ([cwp]), the file that the user sees
      ([logical]) and the invariant; [FileCacheProps]: the theorems.
    - [DirListing]: opening, seeking and iterating a directory ([FhgfsOpsFile.c]), with the
      pages that [FhgfsOpsHelper.c] fetches.
    - [StateMonad]: computations with a state that may fault, and their postconditions
      ([swp]), for the components below.
    - [FhgfsInode]: [filesystem/FhgfsInode.h/.c]: the file handles that the users of an
      inode share, entry info, range locks, cache validity, hints for the size; servers
      are the class [InodeEnv].  [FhgfsInodeInv]: the accounts of handles and open files; the
      module [Ledger] is what the client can know of the latter, whatever servers answer.
    - [HashTk]: [common/toolkit/HashTk.h/.c] and the number of an inode
      ([FhgfsInode_generateInodeID]), with reference definitions of the hashes.
    - [PointerTree]: [common/toolkit/tree/PointerRBTree.h/.c], [IntMap.h/.c]: maps with a
      comparator of integers or pointers (the class [KeyComparator]) on the tree of [RBTree],
      and their iterators.
    - [BufferStores]: [toolkit/NoAllocBufferStore.c]: the cache buffers, and the threads that
      take them, wait for them and give them back.
    - [InodeRefStore]: [toolkit/InodeRefStore.h], [components/Flusher.c]: the inodes that have
      a buffer, on [PointerTree], and the thread that writes them out.  What flushing one
      inode and other threads do meanwhile is the class [FlushEnv] with the laws
      [FlushLaws], which say who holds the references.
    - [NodeStore]: [common/nodes/Node.h/.c], [NodeTree.h/.c], [nodes/NodeStoreEx.h/.c]: the
      servers as shared objects, on [RBTree], [NodeConnPool], [TargetMapper] and
      [MirrorBuddyGroupMapper].  [NodeStoreInv]: the invariant [store_ok] and the effect of each
      operation; [NodeStoreProps]: synchronisation, all interleavings, defects.
    - [AckStore]: [common/toolkit/ackstore/*]: threads that wait for acks.
    - [AckManager]: [components/AckManager.h/.c]: the queue of acks that are sent reliably;
      network, nodes and what other threads append are the class [AckEnv].
    - [InternodeSyncer]: [components/InternodeSyncer.h/.c], [common/toolkit/NodesTk.c]: closing
      and unlocking that was put off, target mappings and states, registration, on top of
      [MessagingTk] and [Remoting]; what it needs besides is the class [SyncerEnv].
    - [DatagramListener]: [components/DatagramListener.h/.c] and [processIncoming] of the
      messages that servers push: the record [Client] joins node stores, target mapper, buddy
      groups, ack store, ack manager and syncer.  [DatagramListenerProps]: the invariant
      [client_ok] and the theorems.

    A C function keeps its name.  State that the code mutates is passed explicitly and
    returned; a loop is a [Fixpoint], often named after the function it is part of.
    Fields of records carry the names of the struct's fields, with a prefix where two
    structs share one.

    ** What the theorems show

    - Round trips: what the serializers write is read back, for scalars, strings,
      lists, mapping lists, stripe patterns and bit stores, across block sizes.
    - Safety on received bytes: the deserializers of strings, lists and patterns never
      leave the message, whatever it holds -- with the exceptions that separate
      theorems exhibit.
    - Refinement: linked lists are lists, trees and stores are finite maps, the group
      mapper is a map of groups whose known objects survive a sync, the bit store is a
      vector of bits.
    - Layout: all positions map to the target and place the striping prescribes, and
      place and position determine each other.
    - Striped IO: for any behaviour of the servers, the requests of a read or write
      tile the range, and the return value is what the code documents, or, for short
      writes in later rounds, what the code computes instead.
    - Messages: requests are written in the format that the servers read, with the optional
      parts that their flags ask for and the length they announce; a header is accepted
      exactly when it is one; bytes are decoded without leaving the buffer, except for
      aligned strings and the string length 0xFFFFFFFF, which separate theorems exhibit.
    - Communication: whatever servers, network and other threads do, the machine keeps
      the invariant that its source states, faults in one known case only (a server that
      announces an answer longer than the buffer), and gives back all it acquired when
      the loop ends; with a signal pending the loop does end.
      For reading the known case is excluded.  Data arrives in order and once.
    - Connection pools: in every interleaving the counters, flags and lists agree with
      what the threads hold, a connection has one holder, and no thread sleeps while
      there is something to take.
    - Remote calls: unless the message factory is given a buffer that it cannot decode,
      they give back what they take; they end after the configured number of
      retries unless a peer asks for more, and repeat a request under its number.
    - Metadata calls: an answer is the struct it is cast to; a call sends its own request
      only and returns the answer to it; a lock that is reported is granted, under an
      identifier that no other request has.
    - Buffered access: with cache buffers of at least 64 KiB and reliable servers, any
      sequence of reads, writes, appends and flushes through the cache returns what it
      returns on a plain file, and a flush brings the servers up to date.
    - Directories: every entry is handed out once, in order, also across seeks.
    - Inodes: in every history of openings and releases, whatever servers answer, the
      reference counts are the users, and the files that were opened and that the client has
      not asked to close are the handles of the inode and those that separate theorems
      exhibit; the number of an inode is a function of its entry ID (up to 31 bytes).
    - Stores: in every interleaving of threads (that iterate over nodes only from one that
      is still in the store), no buffer is lost or given twice, nodes
      and inodes have as many references as they have holders, an ack goes to the thread
      that waits for it; no call faults and no thread sleeps in vain.  A pass of the flusher
      ends and visits each inode once; synchronising makes a node store the list of the
      management node.
    - Threads of the client: the listener keeps all stores well formed whatever datagrams
      arrive, but for the messages that separate theorems exhibit, and confirms the grant
      of a lock once; a pass of the ack manager handles every ack once, in order; operations
      that were put off are repeated with the same call until it gets through.
    - Defects: twenty-nine theorems exhibit inputs on which the code does not do what it
      means to; each states the concrete input or call sequence.

    ** Fuel

    Loops whose recursion is not structural take fuel.  Walking a list of [n] cells
    uses [n] steps; moving an entry in the heap of a group uses as many steps as there
    are entries; the outer loops of a read and a write handle at least one byte per
    round and get the number of bytes.  Running out of fuel is a [Fault], and the
    theorems prove that no fault occurs.  The loop of the state machine need not end, so
    it runs for a number of rounds and reports whether it has ended; the theorems hold
    for every number.  So do the retry loops of remote calls, and a theorem gives the
    number that is enough.

    ** What is a parameter, and what is left out

    Allocation results are parameters of the operations that check them.  The kernel's
    tree rebalancing and, in [StripeIO], the results that the communication leaves in
    the request states are parameters; the theorems hold for all of them.  Operations
    run under their lock and are atomic here; where the code releases a lock in between
    (waiting for a sequence number, connection pools), it is split at that point.  Freeing
    memory is modelled where a use after free is possible (linked lists, groups).
    Logging is left out.

    The tables of fsync and statfs are modelled, but the safety theorem is not claimed
    for them: their answers may be generic responses, whose text is decoded with the
    string check that a length word of 0xFFFFFFFF defeats.

    The metadata calls copy strings out of messages; these copies are assumed to be
    allocated.  Of the strings only those are tracked that are freed twice or too early.

    The steps of buffered access hold the cache lock; that a mapping appears or another
    reader comes between the tests of a call and its lock is covered, since the answers to
    these tests are arbitrary.  Pages and mappings themselves are not modelled.

    Not modelled: the page based IO ([FhgfsOpsCommKitVec.c], page vectors, [FhgfsOpsPages.c])
    and the VFS glue ([FhgfsOpsInode.c], [FhgfsOpsFile.c] but for directories), which consist of
    calls into the kernel's page cache and VFS whose behaviour would be a parameter
    throughout; of the syncer, the timers of its main loop, downloading node lists, the first
    contact with the management node, and dropping idle connections; setting up the
    listener's socket; parsing of configuration text and path and string helpers.  Sockets, threads and [procfs] output are IO and kernel calls
    without logic of their own to verify. *)

From stdpp Require Export base numbers list option gmap.
From Stdlib Require Export ZArith Lia.

#[global] Open Scope Z_scope.

(** Lemmas that discharge the routine side conditions of the development. *)
Create HintDb cfs.

(** ** Machine integers

    A C integer of [w] bits is a [Z]; conversions to an unsigned type reduce
    modulo [2^w], conversions to a signed type pick the two's-complement
    representative. *)

Definition wrap (w x : Z) : Z := x mod 2 ^ w.

Definition swrap (w x : Z) : Z :=
  let y := wrap w x in if y <? 2 ^ (w - 1) then y else y - 2 ^ w.

Definition u8 : Z -> Z := wrap 8.
Definition u16 : Z -> Z := wrap 16.
Definition u32 : Z -> Z := wrap 32.
Definition u64 : Z -> Z := wrap 64.
Definition s8 : Z -> Z := swrap 8.
Definition s16 : Z -> Z := swrap 16.
Definition s32 : Z -> Z := swrap 32.
Definition s64 : Z -> Z := swrap 64.

(** [in_u w x] / [in_s w x]: [x] is a value of the unsigned / signed type. *)
Definition in_u (w x : Z) : Prop := 0 <= x < 2 ^ w.
Definition in_s (w x : Z) : Prop := - 2 ^ (w - 1) <= x < 2 ^ (w - 1).

Lemma wrap_id w x : in_u w x -> wrap w x = x.
Proof. unfold wrap, in_u. intros. by apply Z.mod_small. Qed.

Lemma wrap_range w x : 0 <= w -> in_u w (wrap w x).
Proof.
  intros Hw. unfold wrap, in_u. apply Z.mod_pos_bound.
  apply Z.pow_pos_nonneg; lia.
Qed.

Lemma wrap_wrap w x : 0 <= w -> wrap w (wrap w x) = wrap w x.
Proof. intros. apply wrap_id. by apply wrap_range. Qed.

Lemma pow2_double w : 0 < w -> 2 ^ w = 2 * 2 ^ (w - 1).
Proof.
  intros. replace w with (Z.succ (w - 1)) at 1 by lia.
  rewrite Z.pow_succ_r by lia. lia.
Qed.

Lemma swrap_id w x : 0 < w -> in_s w x -> swrap w x = x.
Proof.
  intros Hw Hx. unfold swrap, wrap, in_s in *.
  pose proof (pow2_double w Hw) as Hp.
  assert (0 < 2 ^ (w - 1)) by (apply Z.pow_pos_nonneg; lia).
  destruct (decide (0 <= x)) as [Hge|Hlt].
  - rewrite Z.mod_small by lia. destruct (Z.ltb_spec x (2 ^ (w - 1))); lia.
  - replace (x mod 2 ^ w) with (x + 2 ^ w).
    + destruct (Z.ltb_spec (x + 2 ^ w) (2 ^ (w - 1))); lia.
    + rewrite <- (Z.mod_add x 1) by lia. rewrite Z.mod_small; lia.
Qed.

Lemma swrap_range w x : 0 < w -> in_s w (swrap w x).
Proof.
  intros Hw. unfold swrap, in_s.
  pose proof (wrap_range w x ltac:(lia)) as Hr. unfold in_u in Hr.
  pose proof (pow2_double w Hw).
  destruct (Z.ltb_spec (wrap w x) (2 ^ (w - 1))); lia.
Qed.

Lemma swrap_wrap w x : 0 <= w -> swrap w (wrap w x) = swrap w x.
Proof. intros. unfold swrap. by rewrite wrap_wrap. Qed.

Lemma wrap_swrap w x : 0 < w -> wrap w (swrap w x) = wrap w x.
Proof.
  intros Hw. unfold swrap, wrap.
  destruct (x mod 2 ^ w <? 2 ^ (w - 1)).
  - apply Z.mod_mod. lia.
  - rewrite <- (Z.mod_add _ 1) by lia.
    replace (x mod 2 ^ w - 2 ^ w + 1 * 2 ^ w) with (x mod 2 ^ w) by lia.
    apply Z.mod_mod. lia.
Qed.

(** ** FhgfsOpsErr codes (common/storage/StorageErrors.h) *)

Definition FhgfsOpsErr_SUCCESS : Z := 0.
Definition FhgfsOpsErr_INTERNAL : Z := 1.
Definition FhgfsOpsErr_INTERRUPTED : Z := 2.
Definition FhgfsOpsErr_COMMUNICATION : Z := 3.
Definition FhgfsOpsErr_UNKNOWNNODE : Z := 5.
Definition FhgfsOpsErr_EXISTS : Z := 7.
Definition FhgfsOpsErr_INUSE : Z := 9.
Definition FhgfsOpsErr_UNKNOWNTARGET : Z := 15.
Definition FhgfsOpsErr_WOULDBLOCK : Z := 16.
Definition FhgfsOpsErr_INVAL : Z := 20.
Definition FhgfsOpsErr_ADDRESSFAULT : Z := 21.
Definition FhgfsOpsErr_AGAIN : Z := 22.
Definition FhgfsOpsErr_OUTOFMEM : Z := 26.

(** ** Outcomes

    [Fault] is the outcome of an access outside the memory the code owns, of a
    read of memory that was never written, or of a division by zero: the C
    program has no defined behaviour there. *)

Inductive outcome (A : Type) : Type :=
| Done (a : A)
| Fault.
Arguments Done {A} a.
Arguments Fault {A}.

#[export] Instance outcome_ret : MRet outcome := fun A a => Done a.
#[export] Instance outcome_bind : MBind outcome :=
  fun A B f m => match m with Done a => f a | Fault => Fault end.
#[export] Instance outcome_fmap : FMap outcome :=
  fun A B f m => match m with Done a => Done (f a) | Fault => Fault end.

#[export] Instance outcome_eq_dec `{EqDecision A} : EqDecision (outcome A).
Proof. solve_decision. Defined.

Definition of_option {A} (o : option A) : outcome A :=
  match o with Some a => Done a | None => Fault end.

Lemma outcome_bind_Done {A B} (m : outcome A) (f : A -> outcome B) b :
  m ≫= f = Done b -> exists a, m = Done a /\ f a = Done b.
Proof. destruct m; simpl; [eauto | discriminate]. Qed.

(** ** Byte memory

    A memory block is the list of its bytes; an address is an offset into it. *)

Abbreviation mem := (list Z) (only parsing).

Definition is_byte (b : Z) : Prop := in_u 8 b.
#[export] Instance is_byte_dec b : Decision (is_byte b).
Proof. unfold is_byte, in_u. apply _. Defined.

Definition mlen (m : mem) : Z := Z.of_nat (length m).

(** [slice m p n]: the [n] bytes at address [p]. *)
Definition slice (m : mem) (p n : Z) : mem := take (Z.to_nat n) (drop (Z.to_nat p) m).

Definition in_range (m : mem) (p n : Z) : bool :=
  (0 <=? p) && (0 <=? n) && (p + n <=? mlen m).

(** Reading or writing [n] bytes at [p] is defined only inside the block. *)
Definition read_block (m : mem) (p n : Z) : outcome mem :=
  if in_range m p n then Done (slice m p n) else Fault.

Definition read8 (m : mem) (p : Z) : outcome Z :=
  if 0 <=? p then of_option (m !! Z.to_nat p) else Fault.

Definition put (m : mem) (p : Z) (bs : mem) : mem :=
  take (Z.to_nat p) m ++ bs ++ drop (Z.to_nat p + length bs) m.

Definition write_block (m : mem) (p : Z) (bs : mem) : outcome mem :=
  if in_range m p (mlen bs) then Done (put m p bs) else Fault.

(** The C library's [strlen] on a block: the distance to the first zero byte. *)
Fixpoint strlen_list (m : mem) : option Z :=
  match m with
  | [] => None
  | b :: m' => if b =? 0 then Some 0 else Z.succ <$> strlen_list m'
  end.

Definition strlen (m : mem) (p : Z) : outcome Z :=
  if 0 <=? p then of_option (strlen_list (drop (Z.to_nat p) m)) else Fault.

(** ** Little-endian encoding: the kernel's put/get_unaligned_le16/32/64 *)

Fixpoint le_split (n : nat) (x : Z) : mem :=
  match n with
  | O => []
  | S n' => u8 x :: le_split n' (Z.shiftr x 8)
  end.

Fixpoint le_combine (bs : mem) : Z :=
  match bs with
  | [] => 0
  | b :: bs' => Z.lor b (Z.shiftl (le_combine bs') 8)
  end.

Definition put_unaligned_le16 (v : Z) : mem := le_split 2 v.
Definition put_unaligned_le32 (v : Z) : mem := le_split 4 v.
Definition put_unaligned_le64 (v : Z) : mem := le_split 8 v.

Lemma length_le_split n x : length (le_split n x) = n.
Proof. revert x; induction n; intros; simpl; auto. Qed.

Lemma mlen_le_split n x : mlen (le_split n x) = Z.of_nat n.
Proof. unfold mlen. by rewrite length_le_split. Qed.

Lemma mlen_le2 x : mlen (le_split 2 x) = 2.
Proof. apply mlen_le_split. Qed.
Lemma mlen_le4 x : mlen (le_split 4 x) = 4.
Proof. apply mlen_le_split. Qed.
Lemma mlen_le8 x : mlen (le_split 8 x) = 8.
Proof. apply mlen_le_split. Qed.

Lemma le_split_bytes n x : Forall is_byte (le_split n x).
Proof.
  revert x; induction n; intros; simpl; constructor; [|done].
  apply wrap_range. lia.
Qed.

Lemma byte_testbit_high b i : is_byte b -> 8 <= i -> Z.testbit b i = false.
Proof.
  unfold is_byte, in_u. intros Hb Hi.
  destruct (decide (b = 0)) as [->|]; [apply Z.bits_0|].
  apply Z.bits_above_log2; [lia|]. apply Z.log2_lt_pow2; [lia|].
  apply Z.lt_le_trans with (2 ^ 8); [lia|apply Z.pow_le_mono_r; lia].
Qed.

Lemma lor_shiftl_add b x : is_byte b -> Z.lor b (Z.shiftl x 8) = b + 256 * x.
Proof.
  intros Hb. assert (Hl : Z.land b (Z.shiftl x 8) = 0).
  { apply Z.bits_inj'; intros i Hi. rewrite Z.land_spec, Z.bits_0.
    destruct (decide (i < 8)).
    - rewrite Z.shiftl_spec_low by lia. apply andb_false_r.
    - by rewrite byte_testbit_high by (done || lia). }
  rewrite <- Z.lxor_lor, <- Z.add_nocarry_lxor, Z.shiftl_mul_pow2 by (done || lia).
  lia.
Qed.

Lemma le_combine_split n x : le_combine (le_split n x) = x mod 2 ^ (8 * Z.of_nat n).
Proof.
  revert x; induction n as [|n IH]; intros x.
  - simpl. by rewrite Z.mod_1_r.
  - cbn [le_split le_combine]. rewrite lor_shiftl_add by (apply wrap_range; lia).
    rewrite IH, Z.shiftr_div_pow2 by lia. unfold u8, wrap.
    replace (8 * Z.of_nat (S n)) with (8 + 8 * Z.of_nat n) by lia.
    rewrite Z.pow_add_r, Z.rem_mul_r by lia. change (2 ^ 8) with 256. lia.
Qed.

Lemma le_combine_range bs :
  Forall is_byte bs -> in_u (8 * mlen bs) (le_combine bs).
Proof.
  unfold mlen, in_u. induction 1 as [|b bs Hb Hbs IH]; simpl length.
  - simpl. lia.
  - cbn [le_combine]. rewrite lor_shiftl_add by done.
    replace (8 * Z.of_nat (S (length bs))) with (8 + 8 * Z.of_nat (length bs)) by lia.
    rewrite Z.pow_add_r by lia. unfold is_byte, in_u in Hb.
    change (2 ^ 8) with 256 in *. nia.
Qed.

Lemma le_combine_split_id n x :
  in_u (8 * Z.of_nat n) x -> le_combine (le_split n x) = x.
Proof. intros H. rewrite le_combine_split. by apply Z.mod_small. Qed.

(** ** Lemmas on blocks *)

Lemma mlen_nonneg m : 0 <= mlen m.
Proof. unfold mlen. lia. Qed.

Lemma mlen_app m1 m2 : mlen (m1 ++ m2) = mlen m1 + mlen m2.
Proof. unfold mlen. rewrite length_app. lia. Qed.

Lemma mlen_cons b m : mlen (b :: m) = 1 + mlen m.
Proof. unfold mlen. simpl. lia. Qed.

Lemma mlen_nil : mlen [] = 0.
Proof. done. Qed.

Lemma in_range_true m p n :
  in_range m p n = true <-> 0 <= p /\ 0 <= n /\ p + n <= mlen m.
Proof. unfold in_range. rewrite !andb_true_iff, !Z.leb_le. tauto. Qed.

Lemma mlen_slice m p n : 0 <= p -> 0 <= n -> p + n <= mlen m -> mlen (slice m p n) = n.
Proof.
  unfold mlen, slice. intros. rewrite length_take, length_drop. lia.
Qed.

Lemma slice_bytes m p n : Forall is_byte m -> Forall is_byte (slice m p n).
Proof. intros. unfold slice. by apply Forall_take, Forall_drop. Qed.

Lemma read_block_Done m p n :
  0 <= p -> 0 <= n -> p + n <= mlen m -> read_block m p n = Done (slice m p n).
Proof.
  intros. unfold read_block. by rewrite (proj2 (in_range_true m p n)).
Qed.

Lemma slice_add m p a b :
  0 <= p -> 0 <= a -> 0 <= b -> slice m p (a + b) = slice m p a ++ slice m (p + a) b.
Proof.
  intros. unfold slice. rewrite !Z2Nat.inj_add by lia.
  rewrite <- (drop_drop m). symmetry. by rewrite take_take_drop.
Qed.

(** A block that holds [x ++ y] at [p] holds [x] there and [y] behind it. *)
Lemma slice_app_inv m p x y :
  0 <= p -> slice m p (mlen (x ++ y)) = x ++ y -> p + mlen (x ++ y) <= mlen m ->
  slice m p (mlen x) = x /\ slice m (p + mlen x) (mlen y) = y.
Proof.
  intros Hp Hs Hl. pose proof (mlen_nonneg x). pose proof (mlen_nonneg y).
  rewrite mlen_app in *. rewrite slice_add in Hs by lia.
  apply app_inj_1 in Hs; [done|]. apply Nat2Z.inj.
  change (mlen (slice m p (mlen x)) = mlen x). apply mlen_slice; lia.
Qed.

Lemma slice_nil m p : slice m p 0 = [].
Proof. done. Qed.

Lemma read8_slice m p b y :
  0 <= p -> slice m p (mlen (b :: y)) = b :: y -> read8 m p = Done b.
Proof.
  unfold read8, slice, mlen. intros Hp Hs.
  rewrite (proj2 (Z.leb_le 0 p)) by lia. rewrite Nat2Z.id in Hs.
  assert (Hd : drop (Z.to_nat p) m !! 0%nat = Some b).
  { destruct (drop (Z.to_nat p) m); simpl in *; congruence. }
  rewrite lookup_drop, Nat.add_0_r in Hd. by rewrite Hd.
Qed.

Lemma read8_Done m p : 0 <= p < mlen m -> exists b, read8 m p = Done b /\ b ∈ m.
Proof.
  unfold read8, mlen. intros [Hp Hl]. rewrite (proj2 (Z.leb_le 0 p)) by lia.
  destruct (lookup_lt_is_Some_2 m (Z.to_nat p)) as [b Hb]; [lia|].
  exists b. rewrite Hb. split; [done|]. by eapply list_elem_of_lookup_2.
Qed.

Lemma put_app m p a b :
  0 <= p -> p + mlen (a ++ b) <= mlen m ->
  put (put m p a) (p + mlen a) b = put m p (a ++ b).
Proof.
  unfold put, mlen. rewrite !length_app. intros Hp Hl.
  replace (Z.to_nat (p + Z.of_nat (length a))) with (Z.to_nat p + length a)%nat by lia.
  assert (Ht : length (take (Z.to_nat p) m) = Z.to_nat p) by (rewrite length_take; lia).
  rewrite (app_assoc (take _ m) a).
  rewrite take_app_length' by (rewrite length_app; lia).
  rewrite drop_app_ge by (rewrite length_app; lia).
  rewrite drop_drop, length_app, <- !app_assoc.
  do 4 f_equal. lia.
Qed.

Lemma put_prefix m p a b c :
  0 <= p -> p + mlen (a ++ b) <= mlen m -> mlen c = mlen a ->
  put (put m p (a ++ b)) p c = put m p (c ++ b).
Proof.
  unfold put, mlen. rewrite !length_app. intros Hp Hl Hc.
  assert (length c = length a) by lia.
  assert (Ht : length (take (Z.to_nat p) m) = Z.to_nat p) by (rewrite length_take; lia).
  rewrite take_app_length' by done.
  rewrite drop_app_ge by lia. rewrite Ht.
  replace (Z.to_nat p + length c - Z.to_nat p)%nat with (length a) by lia.
  rewrite <- app_assoc, drop_app_length, <- app_assoc.
  do 4 f_equal. lia.
Qed.

Lemma put_nil m p : put m p [] = m.
Proof. unfold put. simpl. rewrite Nat.add_0_r. apply take_drop. Qed.

Lemma mlen_put m p a : 0 <= p -> p + mlen a <= mlen m -> mlen (put m p a) = mlen m.
Proof.
  unfold put, mlen. intros. rewrite !length_app, length_take, length_drop. lia.
Qed.

Lemma slice_put m p a : 0 <= p -> p + mlen a <= mlen m -> slice (put m p a) p (mlen a) = a.
Proof.
  unfold put, slice, mlen. intros Hp Hl.
  assert (Ht : length (take (Z.to_nat p) m) = Z.to_nat p) by (rewrite length_take; lia).
  rewrite Nat2Z.id, drop_app_length' by done. by rewrite take_app_length.
Qed.

Lemma write_block_Done m p bs :
  0 <= p -> p + mlen bs <= mlen m -> write_block m p bs = Done (put m p bs).
Proof.
  intros. pose proof (mlen_nonneg bs). unfold write_block.
  by rewrite (proj2 (in_range_true m p (mlen bs))).
Qed.

Lemma read_block_all m n : n = mlen m -> read_block m 0 n = Done m.
Proof.
  intros ->. rewrite read_block_Done by (pose proof (mlen_nonneg m); lia).
  unfold slice, mlen. by rewrite Nat2Z.id, drop_0, firstn_all.
Qed.

Lemma read_block_prefix m1 m2 n : n = mlen m1 -> read_block (m1 ++ m2) 0 n = Done m1.
Proof.
  intros ->. pose proof (mlen_nonneg m1). pose proof (mlen_nonneg m2).
  rewrite read_block_Done by (rewrite ?mlen_app; lia).
  unfold slice, mlen. by rewrite Nat2Z.id, drop_0, take_app_length.
Qed.

(** ** strlen *)

Lemma strlen_list_app s m :
  Forall (fun b => b <> 0) s -> strlen_list (s ++ 0 :: m) = Some (mlen s).
Proof.
  induction 1 as [|b s Hb Hs IH]; simpl; [done|].
  destruct (Z.eqb_spec b 0); [done|]. rewrite IH. simpl. f_equal.
  rewrite mlen_cons. lia.
Qed.

Lemma strlen_list_bound m k : m !! k = Some 0 -> exists l, strlen_list m = Some l /\ 0 <= l <= Z.of_nat k.
Proof.
  revert k; induction m as [|b m IH]; intros k Hk; [done|].
  simpl. destruct (Z.eqb_spec b 0) as [->|Hb]; [exists 0; split; [done|lia]|].
  destruct k as [|k]; simpl in Hk; [congruence|].
  destruct (IH k Hk) as (l & -> & Hl). exists (Z.succ l). split; [done|lia].
Qed.
