(* ===== verification/Serialization.v ===== *)
(** * Serialization: contexts, scalars, strings and byte arrays

    Models [common/toolkit/SerializationTypes.h], the scalar (de)serializers of
    [common/toolkit/Serialization.h] and the string/array ones of
    [common/toolkit/Serialization.c].  A serializer writes into a block through
    a context that may carry no buffer (the dry run that computes a length); a
    deserializer reads a received message through a context that holds the read
    pointer and the bytes left. *)

From S2P Require Import Prelude.

(** ** Contexts (SerializationTypes.h) *)

(** [sdata] is the offset of [ctx->data] in the output block, [None] for NULL. *)
Record SerializeCtx := mkSer { sdata : option Z; slength : Z }.

(** [ddata] is the offset of [ctx->data] in the received block. *)
Record DeserializeCtx := mkDes { ddata : Z; dlength : Z }.

Record RawList := mkRaw { rdata : Z; rlength : Z; relemCount : Z }.

#[export] Instance SerializeCtx_eq_dec : EqDecision SerializeCtx.
Proof. solve_decision. Defined.
#[export] Instance DeserializeCtx_eq_dec : EqDecision DeserializeCtx.
Proof. solve_decision. Defined.
#[export] Instance RawList_eq_dec : EqDecision RawList.
Proof. solve_decision. Defined.

(** A serializer threads the output block and the context. *)
Definition Ser : Type := mem -> SerializeCtx -> outcome (mem * SerializeCtx).

(** A deserializer reads the received block and threads its context; [None] is
    the C result [false].  The context keeps what was consumed before the
    failing check, as in the code. *)
Definition Des (A : Type) : Type := mem -> DeserializeCtx -> outcome (option A * DeserializeCtx).

Definition ser_skip : Ser := fun m c => Done (m, c).
Definition ser_seq (s1 s2 : Ser) : Ser := fun m c => '(m', c') ← s1 m c; s2 m' c'.

Declare Scope cfs_scope.
Delimit Scope cfs_scope with cfs.
Notation "s1 ;;; s2" := (ser_seq s1 s2)
  (at level 62, right associativity) : cfs_scope.
#[global] Open Scope cfs_scope.

#[export] Instance Des_ret : MRet Des := fun A a _ c => Done (Some a, c).
#[export] Instance Des_bind : MBind Des := fun A B f d m c =>
  match d m c with
  | Done (Some a, c') => f a m c'
  | Done (None, c') => Done (None, c')
  | Fault => Fault
  end.
Definition des_fail {A} : Des A := fun _ c => Done (None, c).
Definition des_ctx : Des DeserializeCtx := fun _ c => Done (Some c, c).

(** [ctx->data += n; ctx->length -= n] *)
Definition ctx_advance (c : DeserializeCtx) (n : Z) : DeserializeCtx :=
  mkDes (ddata c + n) (u64 (dlength c - n)).
Definition des_advance (n : Z) : Des unit := fun _ c => Done (Some tt, ctx_advance c n).

(** The byte at [ctx->data[i]]. *)
Definition des_peek (i : Z) : Des Z := fun m c =>
  b ← read8 m (ddata c + i); Done (Some b, c).

(** ** Blocks and scalars (Serialization.h) *)

(** [value] is the object [value] points to; [memcpy] reads [length] bytes of it. *)
Definition Serialization_serializeBlock (value : mem) (length : Z) : Ser := fun m c =>
  m' ← match sdata c with
       | Some base => bs ← read_block value 0 length; write_block m (base + slength c) bs
       | None => Done m
       end;
  Done (m', mkSer (sdata c) (u32 (slength c + length))).

(** Storing a scalar of [size] bytes at [ctx->data + ctx->length]. *)
Definition ser_scalar (bytes : mem) (size : Z) : Ser := fun m c =>
  m' ← match sdata c with
       | Some base => write_block m (base + slength c) bytes
       | None => Done m
       end;
  Done (m', mkSer (sdata c) (u32 (slength c + size))).

Definition __Serialization_deserializeRaw (size : Z) (convert : mem -> Z) : Des Z := fun m c =>
  if size <=? dlength c then
    bs ← read_block m (ddata c) size;
    Done (Some (convert bs), ctx_advance c size)
  else Done (None, c).

Definition Serialization_serialLenChar : Z := 1.
Definition Serialization_serializeChar (value : Z) : Ser := ser_scalar [u8 value] 1.
Definition Serialization_deserializeChar : Des Z :=
  __Serialization_deserializeRaw 1 (fun bs => s8 (le_combine bs)).

Definition Serialization_serialLenBool : Z := Serialization_serialLenChar.
Definition Serialization_serializeBool (value : bool) : Ser :=
  Serialization_serializeChar (if value then 1 else 0).
Definition Serialization_deserializeBool : Des bool :=
  charVal ← Serialization_deserializeChar; mret (negb (charVal =? 0)).

Definition Serialization_serialLenUInt8 : Z := Serialization_serialLenChar.
Definition Serialization_serializeUInt8 (value : Z) : Ser :=
  Serialization_serializeChar (s8 value).
Definition Serialization_deserializeUInt8 : Des Z :=
  charVal ← Serialization_deserializeChar; mret (u8 charVal).

Definition Serialization_serialLenUShort : Z := 2.
Definition Serialization_serializeUShort (value : Z) : Ser :=
  ser_scalar (put_unaligned_le16 value) 2.
Definition Serialization_deserializeUShort : Des Z :=
  __Serialization_deserializeRaw 2 le_combine.

Definition Serialization_serialLenShort : Z := Serialization_serialLenUShort.
Definition Serialization_serializeShort (value : Z) : Ser :=
  Serialization_serializeUShort (u16 value).
Definition Serialization_deserializeShort : Des Z :=
  v ← Serialization_deserializeUShort; mret (s16 v).

Definition Serialization_serialLenUInt : Z := 4.
Definition Serialization_serializeUInt (value : Z) : Ser :=
  ser_scalar (put_unaligned_le32 value) 4.
Definition Serialization_deserializeUInt : Des Z :=
  __Serialization_deserializeRaw 4 le_combine.

Definition Serialization_serialLenInt : Z := Serialization_serialLenUInt.
Definition Serialization_serializeInt (value : Z) : Ser :=
  Serialization_serializeUInt (u32 value).
Definition Serialization_deserializeInt : Des Z :=
  v ← Serialization_deserializeUInt; mret (s32 v).

Definition Serialization_serialLenUInt64 : Z := 8.
Definition Serialization_serializeUInt64 (value : Z) : Ser :=
  ser_scalar (put_unaligned_le64 value) 8.
Definition Serialization_deserializeUInt64 : Des Z :=
  __Serialization_deserializeRaw 8 le_combine.

Definition Serialization_serialLenInt64 : Z := Serialization_serialLenUInt64.
Definition Serialization_serializeInt64 (value : Z) : Ser :=
  Serialization_serializeUInt64 (u64 value).
Definition Serialization_deserializeInt64 : Des Z :=
  v ← Serialization_deserializeUInt64; mret (s64 v).

(** ** Nested fields, strings, char arrays (Serialization.c) *)

Definition __Serialization_deserializeNestedField : Des DeserializeCtx :=
  length ← Serialization_deserializeUInt;
  let length := u32 (length - Serialization_serialLenUInt) in
  ctx ← des_ctx;
  if dlength ctx <? length then des_fail
  else
    let outCtx := mkDes (ddata ctx) length in
    _ ← des_advance length;
    mret outCtx.

Definition Serialization_serializeStr (strLen : Z) (strStart : mem) : Ser :=
  Serialization_serializeUInt strLen ;;;
  Serialization_serializeBlock strStart strLen ;;;
  Serialization_serializeChar 0.

(** Result: the string length and the offset its bytes start at. *)
Definition Serialization_deserializeStr : Des (Z * Z) :=
  outStrLen ← Serialization_deserializeUInt;
  ctx ← des_ctx;
  if dlength ctx <? u32 (outStrLen + 1) then des_fail
  else
    last ← des_peek outStrLen;
    if negb (last =? 0) then des_fail
    else
      _ ← des_advance (u32 (outStrLen + 1));
      mret (outStrLen, ddata ctx).

Definition Serialization_serializeCharArray (arrLen : Z) (arrStart : mem) : Ser :=
  Serialization_serializeUInt arrLen ;;;
  Serialization_serializeBlock arrStart arrLen.

Definition Serialization_deserializeCharArray : Des (Z * Z) :=
  outElemNum ← Serialization_deserializeUInt;
  ctx ← des_ctx;
  if dlength ctx <? outElemNum then des_fail
  else
    _ ← des_advance outElemNum;
    mret (outElemNum, ddata ctx).

(** The string literal passed as padding source is four zero bytes long (three
    explicit ones and the terminator). *)
Definition Serialization_serializeStrAlign4 (strLen : Z) (strStart : mem) : Ser :=
  Serialization_serializeUInt strLen ;;;
  Serialization_serializeBlock strStart strLen ;;;
  Serialization_serializeChar 0 ;;;
  if u32 (strLen + 1) mod 4 =? 0 then ser_skip
  else Serialization_serializeBlock [0; 0; 0; 0] (4 - u32 (strLen + 1) mod 4).

Definition Serialization_deserializeStrAlign4 : Des (Z * Z) :=
  ctx0 ← des_ctx;
  let bufAtStart := ddata ctx0 in
  outStrLen ← Serialization_deserializeUInt;
  ctx ← des_ctx;
  if dlength ctx <? u32 (outStrLen + 1) then des_fail
  else
    last ← des_peek outStrLen;
    if negb (last =? 0) then des_fail
    else
      _ ← des_advance (u32 (outStrLen + 1));
      ctx' ← des_ctx;
      let padding := u32 (Z.rem (ddata ctx' - bufAtStart) 4) in
      if negb (padding =? 0) then
        if dlength ctx' <? padding then des_fail
        else _ ← des_advance (4 - padding); mret (outStrLen, ddata ctx)
      else mret (outStrLen, ddata ctx).

#[global] Typeclasses Opaque ser_skip ser_seq ser_scalar Serialization_serializeBlock
  Serialization_serializeChar Serialization_serializeBool Serialization_serializeUInt8
  Serialization_serializeUShort Serialization_serializeShort Serialization_serializeUInt
  Serialization_serializeInt Serialization_serializeUInt64 Serialization_serializeInt64
  Serialization_serializeStr Serialization_serializeCharArray
  Serialization_serializeStrAlign4 __Serialization_deserializeRaw
  Serialization_deserializeChar Serialization_deserializeBool Serialization_deserializeUInt8
  Serialization_deserializeUShort Serialization_deserializeShort
  Serialization_deserializeUInt Serialization_deserializeInt
  Serialization_deserializeUInt64 Serialization_deserializeInt64.
#[global] Arguments u32 : simpl never.
#[global] Arguments u64 : simpl never.
#[global] Arguments le_split : simpl never.

(** ** What a serializer promises: it appends an encoding

    With no buffer only the length advances; with a buffer that has room, the
    encoding is stored behind what was written before. *)

Class Writes (s : Ser) (enc : mem) : Prop := {
  writes_dry : forall m len, in_u 32 len ->
    s m (mkSer None len) = Done (m, mkSer None (u32 (len + mlen enc)));
  writes_buf : forall m b len,
    0 <= b -> 0 <= len -> len + mlen enc < 2 ^ 32 -> b + len + mlen enc <= mlen m ->
    s m (mkSer (Some b) len) = Done (put m (b + len) enc, mkSer (Some b) (len + mlen enc)) }.

(** Reduce the monads and the record projections, and nothing else. *)
Ltac cfs_simpl :=
  cbn [mbind outcome_bind mret outcome_ret Des_ret sdata slength ddata dlength
       rdata rlength relemCount fst snd].

Lemma u32_add_l a b : u32 (u32 a + b) = u32 (a + b).
Proof. unfold u32, wrap. by rewrite Z.add_mod_idemp_l by lia. Qed.

Lemma u32_range x : in_u 32 (u32 x).
Proof. apply wrap_range. lia. Qed.

Lemma u32_id x : 0 <= x < 2 ^ 32 -> u32 x = x.
Proof. apply wrap_id. Qed.

Lemma u64_id x : 0 <= x < 2 ^ 64 -> u64 x = x.
Proof. apply wrap_id. Qed.

#[export] Instance writes_skip : Writes ser_skip [].
Proof.
  split; intros; unfold ser_skip; rewrite mlen_nil, Z.add_0_r in *.
  - by rewrite u32_id.
  - by rewrite put_nil.
Qed.

#[export] Instance writes_seq s1 s2 e1 e2 :
  Writes s1 e1 -> Writes s2 e2 -> Writes (s1 ;;; s2) (e1 ++ e2).
Proof.
  intros H1 H2. pose proof (mlen_nonneg e1). pose proof (mlen_nonneg e2).
  split; intros; unfold ser_seq; rewrite mlen_app in *.
  - rewrite (writes_dry (s := s1)) by done. simpl.
    rewrite (writes_dry (s := s2)) by apply u32_range.
    by rewrite u32_add_l, Z.add_assoc.
  - rewrite (writes_buf (s := s1)) by lia. simpl.
    rewrite (writes_buf (s := s2)) by (rewrite ?mlen_put by lia; lia).
    rewrite Z.add_assoc, put_app by (rewrite ?mlen_app; lia).
    by rewrite Z.add_assoc.
Qed.

Lemma writes_scalar bytes size : size = mlen bytes -> Writes (ser_scalar bytes size) bytes.
Proof.
  intros ->. split; intros; unfold ser_scalar; simpl; [done|].
  rewrite write_block_Done by lia. simpl. by rewrite u32_id by (pose proof (mlen_nonneg bytes); lia).
Qed.

Lemma writes_block value tail len :
  len = mlen value -> Writes (Serialization_serializeBlock (value ++ tail) len) value.
Proof.
  intros ->. split; intros; unfold Serialization_serializeBlock; simpl; [done|].
  rewrite read_block_prefix by done. simpl.
  rewrite write_block_Done by lia. simpl. by rewrite u32_id by (pose proof (mlen_nonneg value); lia).
Qed.

#[export] Instance writes_char v : Writes (Serialization_serializeChar v) [u8 v].
Proof. by apply writes_scalar. Qed.
#[export] Instance writes_bool (v : bool) :
  Writes (Serialization_serializeBool v) [if v then 1 else 0].
Proof. destruct v; [exact (writes_char 1) | exact (writes_char 0)]. Qed.
#[export] Instance writes_uint8 v : Writes (Serialization_serializeUInt8 v) [u8 v].
Proof.
  unfold Serialization_serializeUInt8. replace (u8 v) with (u8 (s8 v)).
  - apply _.
  - apply wrap_swrap. lia.
Qed.
#[export] Instance writes_ushort v : Writes (Serialization_serializeUShort v) (le_split 2 v).
Proof. apply writes_scalar. by rewrite mlen_le_split. Qed.
#[export] Instance writes_uint v : Writes (Serialization_serializeUInt v) (le_split 4 v).
Proof. apply writes_scalar. by rewrite mlen_le_split. Qed.
#[export] Instance writes_uint64 v : Writes (Serialization_serializeUInt64 v) (le_split 8 v).
Proof. apply writes_scalar. by rewrite mlen_le_split. Qed.
#[export] Instance writes_short v : Writes (Serialization_serializeShort v) (le_split 2 (u16 v)).
Proof. apply writes_ushort. Qed.
#[export] Instance writes_int v : Writes (Serialization_serializeInt v) (le_split 4 (u32 v)).
Proof. apply writes_uint. Qed.
#[export] Instance writes_int64 v : Writes (Serialization_serializeInt64 v) (le_split 8 (u64 v)).
Proof. apply writes_uint64. Qed.

(** ** What a deserializer promises on well-formed input

    [Reads d enc res]: on a message that holds [enc] at the read pointer, [d]
    succeeds, consumes exactly [enc] and returns [res] of the pointer. *)

Class Reads {A} (d : Des A) (enc : mem) (res : Z -> A) : Prop := {
  reads : forall m p n,
    0 <= p -> slice m p (mlen enc) = enc -> p + mlen enc <= mlen m ->
    mlen enc <= n < 2 ^ 64 ->
    d m (mkDes p n) = Done (Some (res p), mkDes (p + mlen enc) (n - mlen enc)) }.

Lemma reads_conv {A} (d : Des A) e (r r' : Z -> A) :
  Reads d e r -> (forall p, r p = r' p) -> Reads d e r'.
Proof. intros [H] Hr. split. intros. rewrite <- Hr. by apply H. Qed.

#[export] Instance reads_ret {A} (a : A) : Reads (mret a) [] (fun _ => a).
Proof.
  split. intros m p n ? _ ? ?. rewrite mlen_nil, Z.add_0_r, Z.sub_0_r. done.
Qed.

Lemma reads_bind {A B} (d : Des A) (f : A -> Des B) e1 e2 r1 r2 :
  Reads d e1 r1 -> (forall p, Reads (f (r1 p)) e2 (r2 p)) ->
  Reads (d ≫= f) (e1 ++ e2) (fun p => r2 p (p + mlen e1)).
Proof.
  intros [H1] H2. split. intros m p n Hp Hs Hl Hn.
  destruct (slice_app_inv m p e1 e2) as [S1 S2]; [done..|].
  pose proof (mlen_nonneg e1). pose proof (mlen_nonneg e2).
  rewrite mlen_app in *. unfold mbind, Des_bind.
  rewrite (H1 m p n) by (done || lia). rewrite (reads (Reads := H2 p)) by (done || lia).
  by rewrite Z.add_assoc, Z.sub_add_distr.
Qed.

Lemma reads_bind_as {A B} (d : Des A) (f : A -> Des B) e1 e2 r1 r2 r :
  Reads d e1 r1 -> (forall p, Reads (f (r1 p)) e2 (r2 p)) ->
  (forall p, r2 p (p + mlen e1) = r p) -> Reads (d ≫= f) (e1 ++ e2) r.
Proof. intros H1 H2 Hr. eapply reads_conv; [by eapply reads_bind|done]. Qed.

Lemma reads_bind_const {A B} (d : Des A) (f : A -> Des B) e1 e2 a b :
  Reads d e1 (fun _ => a) -> Reads (f a) e2 (fun _ => b) ->
  Reads (d ≫= f) (e1 ++ e2) (fun _ => b).
Proof. intros H1 H2. by apply (reads_bind d f e1 e2 (fun _ => a) (fun _ _ => b)). Qed.

Lemma reads_bind_ret {A B} (d : Des A) (g : A -> B) e r :
  Reads d e r -> Reads (d ≫= (fun a => mret (g a))) e (fun p => g (r p)).
Proof.
  intros H. rewrite <- (app_nil_r e).
  apply (reads_bind d _ e [] r (fun p _ => g (r p))); [done|]. intros. apply _.
Qed.

(** The context primitives consume nothing, or what they are told to. *)
Lemma reads_peek_bind {A} (f : DeserializeCtx -> Des A) e r :
  (forall p n, mlen e <= n < 2 ^ 64 -> forall m, 0 <= p -> slice m p (mlen e) = e ->
     p + mlen e <= mlen m ->
     f (mkDes p n) m (mkDes p n) = Done (Some (r p), mkDes (p + mlen e) (n - mlen e))) ->
  Reads (des_ctx ≫= f) e r.
Proof. intros H. split. intros m p n ? ? ? ?. unfold mbind, Des_bind, des_ctx. by apply H. Qed.

Lemma ctx_advance_ok p n k :
  0 <= k <= n -> n < 2 ^ 64 -> ctx_advance (mkDes p n) k = mkDes (p + k) (n - k).
Proof. intros. unfold ctx_advance. simpl. by rewrite u64_id by lia. Qed.

Lemma reads_raw size conv bs :
  size = mlen bs -> Reads (__Serialization_deserializeRaw size conv) bs (fun _ => conv bs).
Proof.
  intros ->. split. intros m p n Hp Hs Hl Hn. unfold __Serialization_deserializeRaw. simpl.
  pose proof (mlen_nonneg bs). rewrite (proj2 (Z.leb_le _ _)) by lia.
  rewrite read_block_Done by lia. simpl. rewrite Hs. by rewrite ctx_advance_ok by lia.
Qed.

#[export] Instance reads_char v : Reads Serialization_deserializeChar [u8 v] (fun _ => s8 v).
Proof.
  unfold Serialization_deserializeChar.
  replace (s8 v) with (s8 (le_combine [u8 v])); [by apply reads_raw|].
  cbn [le_combine]. rewrite Z.shiftl_0_l, Z.lor_0_r. apply swrap_wrap. lia.
Qed.

#[export] Instance reads_bool (v : bool) :
  Reads Serialization_deserializeBool [if v then 1 else 0] (fun _ => v).
Proof.
  unfold Serialization_deserializeBool.
  pose proof (reads_bind_ret _ (fun c => negb (c =? 0)) _ _ (reads_char (if v then 1 else 0))) as H.
  destruct v; exact H.
Qed.

#[export] Instance reads_uint8 v : Reads Serialization_deserializeUInt8 [u8 v] (fun _ => u8 v).
Proof.
  unfold Serialization_deserializeUInt8.
  eapply reads_conv; [apply (reads_bind_ret _ u8 _ _ (reads_char v))|].
  intros. apply wrap_swrap. lia.
Qed.

Lemma reads_ushort v : in_u 16 v -> Reads Serialization_deserializeUShort (le_split 2 v) (fun _ => v).
Proof.
  intros H. eapply reads_conv; [apply reads_raw; by rewrite mlen_le_split|].
  intros. by apply le_combine_split_id.
Qed.
Lemma reads_uint v : in_u 32 v -> Reads Serialization_deserializeUInt (le_split 4 v) (fun _ => v).
Proof.
  intros H. eapply reads_conv; [apply reads_raw; by rewrite mlen_le_split|].
  intros. by apply le_combine_split_id.
Qed.
Lemma reads_uint64 v : in_u 64 v -> Reads Serialization_deserializeUInt64 (le_split 8 v) (fun _ => v).
Proof.
  intros H. eapply reads_conv; [apply reads_raw; by rewrite mlen_le_split|].
  intros. by apply le_combine_split_id.
Qed.
Lemma reads_short v : in_s 16 v ->
  Reads Serialization_deserializeShort (le_split 2 (u16 v)) (fun _ => v).
Proof.
  intros H. eapply reads_conv.
  - apply reads_bind_ret, reads_ushort, wrap_range. lia.
  - intros. simpl. unfold s16, u16. rewrite swrap_wrap by lia. by apply swrap_id.
Qed.
Lemma reads_int v : in_s 32 v ->
  Reads Serialization_deserializeInt (le_split 4 (u32 v)) (fun _ => v).
Proof.
  intros H. eapply reads_conv.
  - apply reads_bind_ret, reads_uint, wrap_range. lia.
  - intros. simpl. unfold s32, u32. rewrite swrap_wrap by lia. by apply swrap_id.
Qed.
Lemma reads_int64 v : in_s 64 v ->
  Reads Serialization_deserializeInt64 (le_split 8 (u64 v)) (fun _ => v).
Proof.
  intros H. eapply reads_conv.
  - apply reads_bind_ret, reads_uint64, wrap_range. lia.
  - intros. simpl. unfold s64, u64. rewrite swrap_wrap by lia. by apply swrap_id.
Qed.

#[export] Hint Resolve reads_char reads_bool reads_uint8 reads_short reads_ushort
  reads_int reads_uint reads_int64 reads_uint64 : cfs.

(** ** Encodings of strings, arrays and nested fields *)

Definition enc_str (s : mem) : mem := le_split 4 (mlen s) ++ s ++ [0].
Definition enc_chararray (a : mem) : mem := le_split 4 (mlen a) ++ a.
Definition align_pad (n : Z) : Z := (- n) mod 4.
Definition enc_str_align4 (s : mem) : mem :=
  enc_str s ++ replicate (Z.to_nat (align_pad (mlen s + 1))) 0.
Definition enc_nested (body : mem) : mem := le_split 4 (mlen body + 4) ++ body.

Lemma writes_block_all value len :
  len = mlen value -> Writes (Serialization_serializeBlock value len) value.
Proof. intros. rewrite <- (app_nil_r value) at 1. by apply writes_block. Qed.

#[export] Instance writes_str s : Writes (Serialization_serializeStr (mlen s) s) (enc_str s).
Proof.
  apply writes_seq; [apply _|]. apply writes_seq; [by apply writes_block_all|apply (writes_char 0)].
Qed.

#[export] Instance writes_chararray a :
  Writes (Serialization_serializeCharArray (mlen a) a) (enc_chararray a).
Proof. apply writes_seq; [apply _|]. by apply writes_block_all. Qed.

Lemma writes_str_align4 s :
  mlen s + 1 < 2 ^ 32 ->
  Writes (Serialization_serializeStrAlign4 (mlen s) s) (enc_str_align4 s).
Proof.
  intros Hs. pose proof (mlen_nonneg s). unfold enc_str_align4, enc_str.
  rewrite <- !app_assoc. apply writes_seq; [apply _|].
  apply writes_seq; [by apply writes_block_all|]. apply writes_seq; [apply (writes_char 0)|].
  rewrite u32_id by lia. unfold align_pad.
  pose proof (Z.mod_pos_bound (mlen s + 1) 4 ltac:(lia)).
  destruct (Z.eqb_spec ((mlen s + 1) mod 4) 0) as [E|E].
  - replace ((- (mlen s + 1)) mod 4) with 0; [apply _|].
    symmetry. apply Z.mod_opp_l_z; lia.
  - rewrite Z.mod_opp_l_nz by lia.
    assert ((mlen s + 1) mod 4 = 1 \/ (mlen s + 1) mod 4 = 2 \/ (mlen s + 1) mod 4 = 3)
      as [->|[->| ->]] by lia.
    + exact (writes_block [0; 0; 0] [0] 3 eq_refl).
    + exact (writes_block [0; 0] [0; 0] 2 eq_refl).
    + exact (writes_block [0] [0; 0; 0] 1 eq_refl).
Qed.

Lemma des_peek_read A (f : Z -> Des A) m c i b :
  read8 m (ddata c + i) = Done b -> (des_peek i ≫= f) m c = f b m c.
Proof. intros H. unfold mbind, Des_bind, des_peek. rewrite H. done. Qed.

Lemma reads_nested body :
  mlen body + 4 < 2 ^ 32 ->
  Reads __Serialization_deserializeNestedField (enc_nested body)
        (fun p => mkDes (p + 4) (mlen body)).
Proof.
  intros Hb. pose proof (mlen_nonneg body).
  eapply (reads_bind_as _ _ _ _ _ (fun _ q => mkDes q (mlen body)));
    [apply reads_uint; unfold in_u; lia| |intros; by rewrite mlen_le_split].
  intros p0. cbn beta. apply reads_peek_bind. intros p n Hn m Hp Hs Hl.
  change Serialization_serialLenUInt with 4.
  rewrite u32_id by lia. simpl. replace (mlen body + 4 - 4) with (mlen body) by lia.
  rewrite (proj2 (Z.ltb_ge _ _)) by lia.
  unfold mbind, Des_bind, des_advance, mret, Des_ret. by rewrite ctx_advance_ok by lia.
Qed.

Lemma reads_chararray a :
  mlen a < 2 ^ 32 ->
  Reads Serialization_deserializeCharArray (enc_chararray a) (fun p => (mlen a, p + 4)).
Proof.
  intros Ha. pose proof (mlen_nonneg a).
  eapply (reads_bind_as _ _ _ _ _ (fun _ q => (mlen a, q)));
    [apply reads_uint; unfold in_u; lia| |intros; by rewrite mlen_le_split].
  intros p0. cbn beta. apply reads_peek_bind. intros p n Hn m Hp Hs Hl. simpl.
  rewrite (proj2 (Z.ltb_ge _ _)) by lia.
  unfold mbind, Des_bind, des_advance, mret, Des_ret. by rewrite ctx_advance_ok by lia.
Qed.

(** Reading the string body behind its length field; [k] is what follows. *)
Lemma str_body_step A (k : DeserializeCtx -> Des A) s m p n :
  0 <= p -> slice m p (mlen (s ++ [0])) = s ++ [0] -> p + mlen (s ++ [0]) <= mlen m ->
  mlen (s ++ [0]) <= n < 2 ^ 64 -> mlen s + 1 < 2 ^ 32 ->
  (ctx ← des_ctx;
   if dlength ctx <? u32 (mlen s + 1) then des_fail
   else last ← des_peek (mlen s);
        if negb (last =? 0) then des_fail
        else _ ← des_advance (u32 (mlen s + 1)); k ctx) m (mkDes p n) =
  k (mkDes p n) m (mkDes (p + mlen (s ++ [0])) (n - mlen (s ++ [0]))).
Proof.
  intros Hp Hs Hl Hn Hb. pose proof (mlen_nonneg s).
  destruct (slice_app_inv m p s [0]) as [_ Hz]; [done..|].
  assert (Hm : mlen (s ++ [0]) = mlen s + 1) by (rewrite mlen_app; done).
  rewrite Hm in *. unfold mbind at 1, Des_bind at 1, des_ctx. simpl.
  rewrite u32_id by lia. rewrite (proj2 (Z.ltb_ge _ _)) by lia.
  rewrite (des_peek_read _ _ _ _ _ 0) by (apply read8_slice with []; [simpl; lia|done]).
  simpl. unfold mbind, Des_bind, des_advance. by rewrite ctx_advance_ok by lia.
Qed.

Lemma reads_str s :
  mlen s + 1 < 2 ^ 32 ->
  Reads Serialization_deserializeStr (enc_str s) (fun p => (mlen s, p + 4)).
Proof.
  intros Hb. pose proof (mlen_nonneg s).
  eapply (reads_bind_as _ _ _ _ _ (fun _ q => (mlen s, q)));
    [apply reads_uint; unfold in_u; lia| |intros; by rewrite mlen_le_split].
  intros p0. cbn beta. split. intros m p n Hp Hs Hl Hn.
  by rewrite (str_body_step _ (fun ctx => mret (mlen s, ddata ctx))).
Qed.

Lemma mlen_replicate n x : mlen (replicate n x) = Z.of_nat n.
Proof. unfold mlen. by rewrite length_replicate. Qed.

Lemma align_pad_range n : 0 <= align_pad n < 4.
Proof. unfold align_pad. apply Z.mod_pos_bound. lia. Qed.

Lemma align_pad_spec n : 0 <= n ->
  align_pad n = if n mod 4 =? 0 then 0 else 4 - n mod 4.
Proof.
  intros. unfold align_pad. pose proof (Z.mod_pos_bound n 4 ltac:(lia)).
  destruct (Z.eqb_spec (n mod 4) 0).
  - apply Z.mod_opp_l_z; lia.
  - apply Z.mod_opp_l_nz; lia.
Qed.

Lemma mlen_enc_str s : mlen (enc_str s) = mlen s + 5.
Proof. unfold enc_str. rewrite !mlen_app, mlen_le_split, mlen_cons, mlen_nil. lia. Qed.

Lemma mlen_enc_str_align4 s :
  mlen (enc_str_align4 s) = mlen s + 5 + align_pad (mlen s + 1).
Proof.
  unfold enc_str_align4. rewrite mlen_app, mlen_enc_str, mlen_replicate.
  pose proof (align_pad_range (mlen s + 1)). lia.
Qed.

(** Up to the padding check, reading an aligned string is reading a string. *)
Lemma str_align4_step s m p n :
  0 <= p -> slice m p (mlen (enc_str s)) = enc_str s -> p + mlen (enc_str s) <= mlen m ->
  mlen (enc_str s) <= n < 2 ^ 64 -> mlen s + 1 < 2 ^ 32 ->
  Serialization_deserializeStrAlign4 m (mkDes p n) =
  let c := mkDes (p + mlen (enc_str s)) (n - mlen (enc_str s)) in
  if (mlen s + 1) mod 4 =? 0 then Done (Some (mlen s, p + 4), c)
  else if dlength c <? (mlen s + 1) mod 4 then Done (None, c)
  else Done (Some (mlen s, p + 4), ctx_advance c (align_pad (mlen s + 1))).
Proof.
  intros Hp Hs Hl Hn Hb. pose proof (mlen_nonneg s).
  destruct (slice_app_inv m p (le_split 4 (mlen s)) (s ++ [0])) as [S1 S2]; [done..|].
  rewrite !mlen_le4 in *.
  assert (Hm : mlen (s ++ [0]) = mlen s + 1) by (rewrite mlen_app; done).
  rewrite Hm in S2. rewrite mlen_enc_str in *. unfold Serialization_deserializeStrAlign4.
  unfold mbind at 1, Des_bind at 1, des_ctx at 1. cbv beta iota zeta.
  unfold mbind at 1, Des_bind at 1.
  rewrite (reads (Reads := reads_uint (mlen s) ltac:(unfold in_u; lia)))
    by (rewrite ?mlen_le4; done || lia).
  rewrite (str_body_step _ _ s) by (rewrite ?Hm, ?mlen_le4; done || lia).
  rewrite Hm, mlen_le4. unfold mbind at 1, Des_bind at 1, des_ctx at 1. cbn [ddata dlength].
  replace (p + 4 + (mlen s + 1) - p) with (4 + (mlen s + 1)) by lia.
  rewrite Z.rem_mod_nonneg by lia.
  replace (4 + (mlen s + 1)) with (mlen s + 1 + 1 * 4) by lia.
  rewrite Z.mod_add by lia.
  pose proof (Z.mod_pos_bound (mlen s + 1) 4 ltac:(lia)).
  rewrite u32_id by lia. rewrite align_pad_spec by lia.
  replace (p + 4 + (mlen s + 1)) with (p + (mlen s + 5)) by lia.
  replace (n - 4 - (mlen s + 1)) with (n - (mlen s + 5)) by lia.
  destruct (Z.eqb_spec ((mlen s + 1) mod 4) 0); simpl; [done|].
  by destruct (_ <? _).
Qed.

(** ** What a deserializer promises on any input: it stays inside the message

    [wp d m c Q]: run on any received block, [d] never faults, never reads or
    advances past the end of its context, and a result satisfies [Q]. *)

Definition ctx_wf (m : mem) (c : DeserializeCtx) : Prop :=
  0 <= ddata c /\ 0 <= dlength c /\ ddata c + dlength c <= mlen m.

(** The context only moves forward and keeps its end. *)
Definition ctx_le (c c' : DeserializeCtx) : Prop :=
  ddata c <= ddata c' /\ 0 <= dlength c' /\ ddata c' + dlength c' = ddata c + dlength c.

#[export] Instance ctx_le_trans : Transitive ctx_le.
Proof. intros c1 c2 c3. unfold ctx_le. lia. Qed.

Lemma ctx_le_wf m c c' : ctx_wf m c -> ctx_le c c' -> ctx_wf m c'.
Proof. unfold ctx_wf, ctx_le. lia. Qed.

Definition msg_wf (m : mem) : Prop := Forall is_byte m /\ mlen m < 2 ^ 64.

Definition wp {A} (d : Des A) (m : mem) (c : DeserializeCtx)
    (Q : A -> DeserializeCtx -> Prop) : Prop :=
  exists r c', d m c = Done (r, c') /\ ctx_le c c' /\ forall a, r = Some a -> Q a c'.

Lemma wp_mono {A} (d : Des A) m c (Q Q' : A -> DeserializeCtx -> Prop) :
  (forall a c', Q a c' -> Q' a c') -> wp d m c Q -> wp d m c Q'.
Proof. intros H (r & c' & E & L & HQ). exists r, c'. eauto. Qed.

Lemma wp_ret {A} (a : A) m c (Q : A -> DeserializeCtx -> Prop) :
  0 <= dlength c -> Q a c -> wp (mret a) m c Q.
Proof.
  intros. exists (Some a), c. split_and!; [done|unfold ctx_le; lia|].
  intros ? [= <-]. done.
Qed.

Lemma wp_fail {A} m c (Q : A -> DeserializeCtx -> Prop) : 0 <= dlength c -> wp des_fail m c Q.
Proof. intros. exists None, c. split_and!; [done|unfold ctx_le; lia|done]. Qed.

Lemma wp_bind {A B} (d : Des A) (f : A -> Des B) m c Q :
  wp d m c (fun a c1 => ctx_le c c1 -> wp (f a) m c1 Q) -> wp (d ≫= f) m c Q.
Proof.
  intros (r & c1 & E & L & H). unfold wp, mbind, Des_bind. rewrite E.
  destruct r as [a|].
  - destruct (H a eq_refl L) as (r & c2 & E2 & L2 & HQ).
    exists r, c2. split_and!; [done|by etrans|done].
  - exists None, c1. done.
Qed.

Lemma wp_ctx m c Q : 0 <= dlength c -> Q c c -> wp des_ctx m c Q.
Proof.
  intros. exists (Some c), c. split_and!; [done|unfold ctx_le; lia|].
  intros ? [= <-]. done.
Qed.

Lemma wp_advance m c n Q :
  0 <= n <= dlength c -> dlength c < 2 ^ 64 ->
  Q tt (mkDes (ddata c + n) (dlength c - n)) -> wp (des_advance n) m c Q.
Proof.
  intros Hn Hc HQ. destruct c as [p k]. simpl in *.
  exists (Some tt), (mkDes (p + n) (k - n)).
  unfold des_advance. rewrite ctx_advance_ok by lia.
  split_and!; [done|unfold ctx_le; simpl; lia|]. by intros [] _.
Qed.

Lemma wp_peek m c i (Q : Z -> DeserializeCtx -> Prop) :
  msg_wf m -> ctx_wf m c -> 0 <= ddata c + i < mlen m ->
  (forall b, is_byte b -> read8 m (ddata c + i) = Done b -> Q b c) -> wp (des_peek i) m c Q.
Proof.
  intros [Hm _] Hc Hi HQ. destruct (read8_Done m (ddata c + i)) as (b & E & Hb); [done|].
  exists (Some b), c. unfold des_peek. rewrite E. unfold ctx_wf in Hc.
  split_and!; [done|unfold ctx_le; lia|].
  intros ? [= <-]. apply HQ; [|done]. rewrite Forall_forall in Hm. by apply Hm.
Qed.

Lemma wp_raw size conv m c (Q : Z -> DeserializeCtx -> Prop) :
  msg_wf m -> ctx_wf m c -> 0 <= size ->
  (size <= dlength c ->
   Q (conv (slice m (ddata c) size)) (mkDes (ddata c + size) (dlength c - size))) ->
  wp (__Serialization_deserializeRaw size conv) m c Q.
Proof.
  intros [Hm Hl] (Hd & Hn & He) Hs HQ. unfold wp, __Serialization_deserializeRaw.
  destruct (Z.leb_spec size (dlength c)).
  - rewrite read_block_Done by lia. simpl. destruct c as [p n]; simpl in *.
    rewrite ctx_advance_ok by lia.
    eexists _, _. split; [done|]. split; [unfold ctx_le; simpl; lia|].
    intros ? [= <-]. auto.
  - exists None, c. split_and!; [done|unfold ctx_le; lia|done].
Qed.

(** A scalar read yields a value of its width and consumes its size. *)
Lemma wp_scalar size m c (Q : Z -> DeserializeCtx -> Prop) :
  msg_wf m -> ctx_wf m c -> 0 <= size ->
  (forall v, size <= dlength c -> in_u (8 * size) v ->
     Q v (mkDes (ddata c + size) (dlength c - size))) ->
  wp (__Serialization_deserializeRaw size le_combine) m c Q.
Proof.
  intros Hm Hc Hs HQ. apply wp_raw; [done..|]. intros Hd. apply HQ; [done|].
  unfold ctx_wf in Hc. pose proof (mlen_slice m (ddata c) size).
  replace size with (mlen (slice m (ddata c) size)) at 1 by lia.
  apply le_combine_range, slice_bytes, Hm.
Qed.

Lemma wp_uint m c (Q : Z -> DeserializeCtx -> Prop) :
  msg_wf m -> ctx_wf m c ->
  (forall v, 4 <= dlength c -> in_u 32 v -> Q v (mkDes (ddata c + 4) (dlength c - 4))) ->
  wp Serialization_deserializeUInt m c Q.
Proof. intros. apply wp_scalar; auto; lia. Qed.

Lemma wp_ushort m c (Q : Z -> DeserializeCtx -> Prop) :
  msg_wf m -> ctx_wf m c ->
  (forall v, 2 <= dlength c -> in_u 16 v -> Q v (mkDes (ddata c + 2) (dlength c - 2))) ->
  wp Serialization_deserializeUShort m c Q.
Proof. intros. apply wp_scalar; auto; lia. Qed.

Lemma wp_uint64 m c (Q : Z -> DeserializeCtx -> Prop) :
  msg_wf m -> ctx_wf m c ->
  (forall v, 8 <= dlength c -> in_u 64 v -> Q v (mkDes (ddata c + 8) (dlength c - 8))) ->
  wp Serialization_deserializeUInt64 m c Q.
Proof. intros. apply wp_scalar; auto; lia. Qed.

Lemma wp_char m c (Q : Z -> DeserializeCtx -> Prop) :
  msg_wf m -> ctx_wf m c ->
  (forall v, 1 <= dlength c -> in_s 8 v -> Q v (mkDes (ddata c + 1) (dlength c - 1))) ->
  wp Serialization_deserializeChar m c Q.
Proof.
  intros ? ? HQ. apply wp_raw; [done|done|lia|].
  intros. apply HQ; [done|]. apply swrap_range. lia.
Qed.

Ltac ctx_lia :=
  match goal with
  | Hm : msg_wf _ |- _ =>
      pose proof (proj2 Hm); unfold ctx_wf, ctx_le, in_u, in_s in *; simpl in *; lia
  | _ => unfold ctx_wf, ctx_le, in_u, in_s in *; simpl in *; lia
  end.

(** The nested-field check is sound: also when the length field is below four
    and the subtraction wraps, since no message is that long. *)
Lemma wp_nested m c (Q : DeserializeCtx -> DeserializeCtx -> Prop) :
  msg_wf m -> ctx_wf m c ->
  (forall o c', ctx_wf m o -> ddata o + dlength o = ddata c' -> ddata c + 4 = ddata o ->
     in_u 32 (dlength o) -> ctx_wf m c' -> Q o c') ->
  wp __Serialization_deserializeNestedField m c Q.
Proof.
  intros Hm Hc HQ. apply wp_bind, wp_uint; [done..|]. intros v Hv Hr _.
  apply wp_bind, wp_ctx; [ctx_lia|]. intros _. simpl.
  pose proof (u32_range (v - Serialization_serialLenUInt)) as Hu.
  destruct (Z.ltb_spec (dlength c - 4) (u32 (v - Serialization_serialLenUInt)));
    [apply wp_fail; ctx_lia|].
  apply wp_bind, wp_advance; [ctx_lia..|]. intros _. apply wp_ret; [ctx_lia|].
  apply HQ; ctx_lia.
Qed.

(** [in_msg m p n]: the [n] bytes at [p] are bytes of the message. *)
Definition in_msg (m : mem) (p n : Z) : Prop := 0 <= p /\ 0 <= n /\ p + n <= mlen m.

Lemma wp_chararray m c (Q : Z * Z -> DeserializeCtx -> Prop) :
  msg_wf m -> ctx_wf m c ->
  (forall l p c', in_msg m p l -> ctx_wf m c' -> Q (l, p) c') ->
  wp Serialization_deserializeCharArray m c Q.
Proof.
  intros Hm Hc HQ. apply wp_bind, wp_uint; [done..|]. intros v Hv Hr _.
  apply wp_bind, wp_ctx; [ctx_lia|]. intros _. simpl.
  destruct (Z.ltb_spec (dlength c - 4) v); [apply wp_fail; ctx_lia|].
  apply wp_bind, wp_advance; [ctx_lia..|]. intros _. apply wp_ret; [ctx_lia|].
  apply HQ; unfold in_msg; ctx_lia.
Qed.

(** The length word of a string field, as the deserializer reads it. *)
Definition str_len_word (m : mem) (c : DeserializeCtx) : Z :=
  le_combine (slice m (ddata c) 4).

Lemma wp_str m c (Q : Z * Z -> DeserializeCtx -> Prop) :
  msg_wf m -> ctx_wf m c -> str_len_word m c <> 2 ^ 32 - 1 ->
  (forall l p c', in_msg m p (l + 1) -> read8 m (p + l) = Done 0 -> 0 <= l ->
     ddata c + 4 = p -> p + l + 1 = ddata c' -> ctx_wf m c' -> Q (l, p) c') ->
  wp Serialization_deserializeStr m c Q.
Proof.
  intros Hm Hc Hw HQ. apply wp_bind.
  apply wp_raw; [done|done|lia|]. intros H4 _.
  set (v := le_combine (slice m (ddata c) 4)).
  assert (Hr : in_u 32 v).
  { unfold v. replace 32 with (8 * mlen (slice m (ddata c) 4))
      by (rewrite mlen_slice; ctx_lia). apply le_combine_range, slice_bytes, Hm. }
  change (v <> 2 ^ 32 - 1) in Hw.
  apply wp_bind, wp_ctx; [ctx_lia|]. intros _. simpl. rewrite u32_id by ctx_lia.
  destruct (Z.ltb_spec (dlength c - 4) (v + 1)); [apply wp_fail; ctx_lia|].
  apply wp_bind, wp_peek; [done|ctx_lia|ctx_lia|]. intros b Hb Eb _. simpl in *.
  destruct (Z.eqb_spec b 0) as [->|]; simpl; [|apply wp_fail; ctx_lia].
  apply wp_bind, wp_advance; [ctx_lia..|]. intros _. apply wp_ret; [ctx_lia|].
  apply HQ; unfold in_msg; try ctx_lia. done.
Qed.

(** ** Properties *)

Lemma writes_reads_roundtrip {A} (s : Ser) (d : Des A) enc r :
  Writes s enc -> Reads d enc r ->
  forall m b len n,
  0 <= b -> 0 <= len -> len + mlen enc < 2 ^ 32 -> b + len + mlen enc <= mlen m ->
  mlen enc <= n < 2 ^ 64 ->
  exists m',
    s m (mkSer (Some b) len) = Done (m', mkSer (Some b) (len + mlen enc)) /\
    slice m' (b + len) (mlen enc) = enc /\ mlen m' = mlen m /\
    d m' (mkDes (b + len) n) =
      Done (Some (r (b + len)), mkDes (b + len + mlen enc) (n - mlen enc)).
Proof.
  intros Hw Hr m b len n Hb Hl Hf Hm Hn. exists (put m (b + len) enc).
  assert (slice (put m (b + len) enc) (b + len) (mlen enc) = enc) by (apply slice_put; lia).
  split_and!; [by apply writes_buf|done|apply mlen_put; lia|].
  apply reads; [lia|done|rewrite mlen_put; lia|done].
Qed.

(** The values of one scalar of every kind the wire format has. *)
Record Scalars := mkScalars {
  scChar : Z; scBool : bool; scUInt8 : Z; scShort : Z; scUShort : Z; scInt : Z; scUInt : Z;
  scInt64 : Z; scUInt64 : Z }.

Definition scalars_wf (v : Scalars) : Prop :=
  in_s 8 (scChar v) /\ in_u 8 (scUInt8 v) /\ in_s 16 (scShort v) /\ in_u 16 (scUShort v) /\
  in_s 32 (scInt v) /\ in_u 32 (scUInt v) /\ in_s 64 (scInt64 v) /\ in_u 64 (scUInt64 v).

Definition serialize_scalars (v : Scalars) : Ser :=
  Serialization_serializeChar (scChar v) ;;; Serialization_serializeBool (scBool v) ;;;
  Serialization_serializeUInt8 (scUInt8 v) ;;; Serialization_serializeShort (scShort v) ;;;
  Serialization_serializeUShort (scUShort v) ;;; Serialization_serializeInt (scInt v) ;;;
  Serialization_serializeUInt (scUInt v) ;;; Serialization_serializeInt64 (scInt64 v) ;;;
  Serialization_serializeUInt64 (scUInt64 v).

Definition deserialize_scalars : Des Scalars :=
  c ← Serialization_deserializeChar; b ← Serialization_deserializeBool;
  u ← Serialization_deserializeUInt8; s ← Serialization_deserializeShort;
  us ← Serialization_deserializeUShort; i ← Serialization_deserializeInt;
  ui ← Serialization_deserializeUInt; l ← Serialization_deserializeInt64;
  ul ← Serialization_deserializeUInt64;
  mret (mkScalars c b u s us i ui l ul).

(** Every scalar survives the wire.  Serializing one value of each scalar
    type into a buffer with room and deserializing at the same place returns the
    same values, signed types included, and both sides advance by 31 bytes; the
    dry run without buffer computes the same length. *)
Theorem scalars_roundtrip (v : Scalars) (m : mem) (b len n : Z) :
  scalars_wf v -> 0 <= b -> 0 <= len -> len + 31 < 2 ^ 32 -> b + len + 31 <= mlen m ->
  31 <= n < 2 ^ 64 ->
  serialize_scalars v m (mkSer None len) = Done (m, mkSer None (len + 31)) /\
  exists m',
    serialize_scalars v m (mkSer (Some b) len) = Done (m', mkSer (Some b) (len + 31)) /\
    deserialize_scalars m' (mkDes (b + len) n) = Done (Some v, mkDes (b + len + 31) (n - 31)).
Proof.
  intros (H1 & H2 & H3 & H4 & H5 & H6 & H7 & H8) Hb Hl Hf Hm Hn.
  set (enc := [u8 (scChar v)] ++ [if scBool v then 1 else 0] ++ [u8 (scUInt8 v)] ++
    le_split 2 (u16 (scShort v)) ++ le_split 2 (scUShort v) ++ le_split 4 (u32 (scInt v)) ++
    le_split 4 (scUInt v) ++ le_split 8 (u64 (scInt64 v)) ++ le_split 8 (scUInt64 v) ++ []).
  assert (Hlen : mlen enc = 31)
    by (unfold enc; rewrite !mlen_app, !mlen_le8, !mlen_le4, !mlen_le2; done).
  assert (Hw : Writes (serialize_scalars v) enc).
  { unfold serialize_scalars, enc. rewrite app_nil_r. apply _. }
  assert (Hr : Reads deserialize_scalars enc (fun _ => v)).
  { unfold deserialize_scalars, enc.
    repeat (eapply reads_bind_const; [eauto with cfs|]).
    eapply reads_conv; [apply reads_ret|].
    intros. destruct v; simpl in *. unfold s8, u8.
    by rewrite swrap_id, wrap_id by (done || lia). }
  destruct (writes_reads_roundtrip _ _ _ _ Hw Hr m b len n) as (m' & E1 & _ & _ & E2);
    [lia..|]. rewrite Hlen in *.
  split; [|eauto]. rewrite (writes_dry (Writes := Hw)) by (unfold in_u; lia).
  by rewrite Hlen, u32_id by lia.
Qed.

Lemma scalars_roundtrip_witness :
  let v := mkScalars (-7) true 200 (-300) 65535 (-5) 4000000000 (-9) (2 ^ 63) in
  exists m', deserialize_scalars m' (mkDes (1 + 2) 31) = Done (Some v, mkDes (1 + 2 + 31) (31 - 31)).
Proof.
  destruct (scalars_roundtrip
    (mkScalars (-7) true 200 (-300) 65535 (-5) 4000000000 (-9) (2 ^ 63))
    (replicate 40 0) 1 2 31
    ltac:(unfold scalars_wf, in_s, in_u; simpl; lia)
    ltac:(lia) ltac:(lia) ltac:(lia) ltac:(by vm_compute) ltac:(lia)) as (_ & m' & _ & E).
  exists m'. exact E.
Defined.

(** Strings and byte arrays survive the wire.  A string of length [l] takes
    [l + 5] bytes and a char array [l + 4]; deserializing returns the length and
    a pointer to the same bytes. *)
Theorem str_roundtrip (s a m : mem) (b len n : Z) :
  let sz := mlen s + mlen a + 9 in
  0 <= b -> 0 <= len -> len + sz < 2 ^ 32 -> b + len + sz <= mlen m -> sz <= n < 2 ^ 64 ->
  exists m',
    (Serialization_serializeStr (mlen s) s ;;; Serialization_serializeCharArray (mlen a) a)
      m (mkSer (Some b) len) = Done (m', mkSer (Some b) (len + sz)) /\
    (x ← Serialization_deserializeStr; y ← Serialization_deserializeCharArray; mret (x, y))
      m' (mkDes (b + len) n) =
      Done (Some ((mlen s, b + len + 4), (mlen a, b + len + mlen s + 9)),
            mkDes (b + len + sz) (n - sz)) /\
    slice m' (b + len + 4) (mlen s) = s /\
    slice m' (b + len + mlen s + 9) (mlen a) = a.
Proof.
  intros sz Hb Hl Hf Hm Hn. subst sz. pose proof (mlen_nonneg s). pose proof (mlen_nonneg a).
  set (enc := enc_str s ++ enc_chararray a).
  assert (Hlen : mlen enc = mlen s + mlen a + 9).
  { unfold enc, enc_chararray. rewrite !mlen_app, mlen_enc_str, mlen_le4. lia. }
  assert (Hr : Reads (x ← Serialization_deserializeStr;
                      y ← Serialization_deserializeCharArray; mret (x, y)) enc
    (fun p => ((mlen s, p + 4), (mlen a, p + (mlen s + 5) + 4)))).
  { eapply (reads_bind_as _ _ _ _ _ (fun p q => ((mlen s, p + 4), (mlen a, q + 4))));
      [apply reads_str; lia| |intros; by rewrite mlen_enc_str].
    intros p. apply (reads_bind_ret _ (fun y => ((mlen s, p + 4), y)) _ (fun q => (mlen a, q + 4))).
    apply reads_chararray. lia. }
  destruct (writes_reads_roundtrip _ _ enc _ (writes_seq _ _ _ _ (writes_str s) (writes_chararray a))
    Hr m b len n) as (m' & E1 & Es & Em & E2); [lia..|].
  exists m'. rewrite Hlen in *.
  replace (b + len + mlen s + 9) with (b + len + (mlen s + 5) + 4) by lia.
  split_and!; [done|done|..];
  (destruct (slice_app_inv m' (b + len) (enc_str s) (enc_chararray a)) as [S1 S2];
   [lia|fold enc; by rewrite Hlen|fold enc; rewrite Hlen; lia|]).
  - destruct (slice_app_inv m' (b + len) (le_split 4 (mlen s)) (s ++ [0])) as [_ T];
      [lia|done|change (le_split 4 (mlen s) ++ s ++ [0]) with (enc_str s); rewrite mlen_enc_str; lia|].
    rewrite mlen_le4 in T. apply slice_app_inv in T; [apply T|lia|rewrite mlen_app, mlen_cons, mlen_nil; lia].
  - rewrite mlen_enc_str in S2.
    destruct (slice_app_inv m' (b + len + (mlen s + 5)) (le_split 4 (mlen a)) a) as [_ T];
      [lia|done|rewrite mlen_app, mlen_le4; lia|]. by rewrite mlen_le4 in T.
Qed.

Lemma str_roundtrip_witness : exists m',
  slice m' 4 3 = [104; 105; 33] /\ slice m' 12 2 = [0; 255].
Proof.
  destruct (str_roundtrip [104; 105; 33] [0; 255] (replicate 20 7) 0 0 20
    ltac:(lia) ltac:(lia) ltac:(vm_compute; reflexivity) ltac:(by vm_compute)
    ltac:(by vm_compute)) as (m' & _ & _ & E1 & E2).
  exists m'. split; [exact E1|exact E2].
Defined.

(** Reading a string, a char array or a nested field never leaves the
    message.  On any received bytes the three deserializers do not fault, keep
    the end of the context, and what they return lies inside the message (the
    string with its terminating zero) -- for strings unless the length word is
    0xFFFFFFFF, which the next property treats. *)
Theorem str_fields_safe (m : mem) (c : DeserializeCtx) :
  msg_wf m -> ctx_wf m c -> str_len_word m c <> 2 ^ 32 - 1 ->
  wp Serialization_deserializeStr m c
     (fun '(l, p) c' => in_msg m p (l + 1) /\ read8 m (p + l) = Done 0 /\ ctx_wf m c') /\
  wp Serialization_deserializeCharArray m c (fun '(l, p) c' => in_msg m p l /\ ctx_wf m c') /\
  wp __Serialization_deserializeNestedField m c
     (fun o c' => ctx_wf m o /\ ddata o + dlength o = ddata c' /\ ctx_wf m c').
Proof.
  intros. split_and!; [apply wp_str|apply wp_chararray|apply wp_nested]; naive_solver.
Qed.

Lemma str_fields_safe_witness :
  wp Serialization_deserializeStr [1; 0; 0; 0; 65; 0] (mkDes 0 6)
     (fun '(l, p) c' => in_msg [1; 0; 0; 0; 65; 0] p (l + 1) /\
        read8 [1; 0; 0; 0; 65; 0] (p + l) = Done 0 /\ ctx_wf [1; 0; 0; 0; 65; 0] c').
Proof.
  apply (str_fields_safe [1; 0; 0; 0; 65; 0] (mkDes 0 6)).
  - split; [|by vm_compute]. by repeat constructor.
  - by vm_compute.
  - by vm_compute.
Defined.

(** The string length check is not overflow safe.  A message whose string
    length word is 0xFFFFFFFF passes the check, because [strLen + 1] wraps to 0,
    and the code then reads the byte 4 GiB behind the read pointer: in every
    message shorter than that, outside of it. *)
Theorem str_length_overflow_faults (m : mem) (c : DeserializeCtx) :
  ctx_wf m c -> 4 <= dlength c < 2 ^ 64 -> str_len_word m c = 2 ^ 32 - 1 ->
  mlen m <= 2 ^ 32 + 2 ->
  Serialization_deserializeStr m c = Fault /\ Serialization_deserializeStrAlign4 m c = Fault.
Proof.
  intros Hc Hd Hw Hm. unfold Serialization_deserializeStr, Serialization_deserializeStrAlign4.
  assert (E : Serialization_deserializeUInt m c =
    Done (Some (2 ^ 32 - 1), mkDes (ddata c + 4) (dlength c - 4))).
  { unfold Serialization_deserializeUInt, __Serialization_deserializeRaw.
    rewrite (proj2 (Z.leb_le _ _)) by lia. unfold ctx_wf in Hc.
    rewrite read_block_Done by lia. simpl. unfold str_len_word in Hw. rewrite Hw.
    destruct c. by rewrite ctx_advance_ok by (simpl in *; lia). }
  assert (R : read8 m (ddata c + 4 + (2 ^ 32 - 1)) = Fault).
  { unfold read8. destruct (0 <=? _); [|done].
    rewrite lookup_ge_None_2; [done|]. unfold ctx_wf, mlen in *. lia. }
  unfold mbind, Des_bind, des_ctx, des_peek. rewrite E. simpl.
  replace (u32 (2 ^ 32 - 1 + 1)) with 0 by done.
  rewrite (proj2 (Z.ltb_ge _ _)) by lia. simpl. rewrite R. done.
Qed.

Lemma str_length_overflow_faults_witness :
  Serialization_deserializeStr [255; 255; 255; 255; 0] (mkDes 0 5) = Fault /\
  Serialization_deserializeStrAlign4 [255; 255; 255; 255; 0] (mkDes 0 5) = Fault.
Proof.
  apply (str_length_overflow_faults [255; 255; 255; 255; 0] (mkDes 0 5)); by vm_compute.
Defined.

(** The outcome of reading back an aligned string that has [n] bytes left. *)
Lemma str_align4_readback s m b len n :
  let sz := mlen s + 5 + align_pad (mlen s + 1) in
  0 <= b -> 0 <= len -> len + sz < 2 ^ 32 -> b + len + sz <= mlen m -> sz <= n < 2 ^ 64 ->
  exists m',
    Serialization_serializeStrAlign4 (mlen s) s m (mkSer (Some b) len) =
      Done (m', mkSer (Some b) (len + sz)) /\
    slice m' (b + len) sz = enc_str_align4 s /\
    Serialization_deserializeStrAlign4 m' (mkDes (b + len) n) =
      if ((mlen s + 1) mod 4 =? 3) && (n <? sz + 2)
      then Done (None, mkDes (b + len + (mlen s + 5)) (n - (mlen s + 5)))
      else Done (Some (mlen s, b + len + 4), mkDes (b + len + sz) (n - sz)).
Proof.
  intros sz Hb Hl Hf Hm Hn. pose proof (mlen_nonneg s).
  pose proof (align_pad_range (mlen s + 1)) as Hp.
  assert (Hsz : mlen (enc_str_align4 s) = sz) by apply mlen_enc_str_align4.
  pose proof (writes_str_align4 s ltac:(lia)) as Hw.
  exists (put m (b + len) (enc_str_align4 s)).
  assert (Hs : slice (put m (b + len) (enc_str_align4 s)) (b + len) sz = enc_str_align4 s)
    by (rewrite <- Hsz; apply slice_put; lia).
  split_and!; [rewrite <- Hsz; apply writes_buf; lia|done|].
  destruct (slice_app_inv (put m (b + len) (enc_str_align4 s)) (b + len) (enc_str s)
    (replicate (Z.to_nat (align_pad (mlen s + 1))) 0)) as [S1 _];
    [lia|fold (enc_str_align4 s); by rewrite Hsz
    |fold (enc_str_align4 s); rewrite Hsz, mlen_put; lia|].
  rewrite (str_align4_step s) by (first [exact S1 | rewrite ?mlen_enc_str, ?mlen_put; lia]).
  rewrite mlen_enc_str. cbn [dlength]. cbv zeta.
  pose proof (align_pad_spec (mlen s + 1) ltac:(lia)) as Ha.
  pose proof (Z.mod_pos_bound (mlen s + 1) 4 ltac:(lia)).
  subst sz. destruct (Z.eqb_spec ((mlen s + 1) mod 4) 0) as [E|E].
  - rewrite E, Ha. simpl. by rewrite !Z.add_0_r.
  - destruct (Z.eqb_spec ((mlen s + 1) mod 4) 3) as [E3|E3];
    destruct (Z.ltb_spec (n - (mlen s + 5)) ((mlen s + 1) mod 4));
    destruct (Z.ltb_spec n (mlen s + 5 + align_pad (mlen s + 1) + 2)); simpl; try lia; try done;
    rewrite ctx_advance_ok by lia; do 3 f_equal; lia.
Qed.

(** Aligned strings survive the wire when enough of the message follows.
    [Serialization_serializeStrAlign4] writes a multiple of four bytes, and the
    deserializer returns the same string and skips the same padding, provided
    two more bytes of the message follow. *)
Theorem str_align4_roundtrip (s m : mem) (b len n : Z) :
  let sz := mlen s + 5 + align_pad (mlen s + 1) in
  0 <= b -> 0 <= len -> len + sz < 2 ^ 32 -> b + len + sz <= mlen m -> sz + 2 <= n < 2 ^ 64 ->
  sz mod 4 = 0 /\
  exists m',
    Serialization_serializeStrAlign4 (mlen s) s m (mkSer (Some b) len) =
      Done (m', mkSer (Some b) (len + sz)) /\
    slice m' (b + len) sz = enc_str_align4 s /\
    Serialization_deserializeStrAlign4 m' (mkDes (b + len) n) =
      Done (Some (mlen s, b + len + 4), mkDes (b + len + sz) (n - sz)).
Proof.
  intros sz Hb Hl Hf Hm Hn. split.
  - subst sz. unfold align_pad.
    replace (mlen s + 5 + - (mlen s + 1) mod 4) with (- (mlen s + 1) mod 4 + (mlen s + 1) + 1 * 4)
      by lia.
    rewrite Z.mod_add, Z.add_mod_idemp_l by lia. by rewrite Z.add_opp_diag_l.
  - destruct (str_align4_readback s m b len n) as (m' & E1 & E2 & E3); [lia..|].
    fold sz in E1, E2, E3. exists m'. split_and!; [done..|]. rewrite E3.
    destruct (Z.ltb_spec n (sz + 2)); [lia|]. by rewrite andb_false_r.
Qed.

Lemma str_align4_roundtrip_witness : exists m',
  Serialization_deserializeStrAlign4 m' (mkDes 0 10) = Done (Some (2, 4), mkDes 8 2).
Proof.
  destruct (str_align4_roundtrip [104; 105] (replicate 20 7) 0 0 10
    ltac:(lia) ltac:(lia) ltac:(vm_compute; reflexivity) ltac:(by vm_compute)
    ltac:(by vm_compute)) as (_ & m' & _ & _ & E).
  exists m'. exact E.
Defined.

(** The padding check of [Serialization_deserializeStrAlign4] tests the wrong
    quantity.  (1) A correctly serialized string that ends its message and needs
    one padding byte is rejected.  (2) With one byte left where three padding
    bytes are due, the check passes and the remaining length wraps to almost
    2^64, so the context no longer ends at the end of the message. *)
Theorem str_align4_padding_check_wrong :
  (forall (s m : mem) (b len : Z),
     let sz := mlen s + 5 + align_pad (mlen s + 1) in
     0 <= b -> 0 <= len -> len + sz < 2 ^ 32 -> b + len + sz <= mlen m ->
     (mlen s + 1) mod 4 = 3 ->
     exists m' c',
       Serialization_serializeStrAlign4 (mlen s) s m (mkSer (Some b) len) =
         Done (m', mkSer (Some b) (len + sz)) /\
       Serialization_deserializeStrAlign4 m' (mkDes (b + len) sz) = Done (None, c')) /\
  Serialization_deserializeStrAlign4 [0; 0; 0; 0; 0; 9] (mkDes 0 6) =
    Done (Some (0, 4), mkDes 8 (2 ^ 64 - 2)).
Proof.
  split; [|by vm_compute].
  intros s m b len sz Hb Hl Hf Hm H3. pose proof (mlen_nonneg s).
  pose proof (align_pad_range (mlen s + 1)).
  destruct (str_align4_readback s m b len sz) as (m' & E1 & _ & E3); [lia..|].
  fold sz in E1, E3. eexists m', _. split; [done|]. rewrite E3, H3.
  destruct (Z.ltb_spec sz (sz + 2)); [done|lia].
Qed.

Lemma str_align4_padding_check_wrong_witness : exists m' c',
  Serialization_deserializeStrAlign4 m' (mkDes 0 8) = Done (None, c').
Proof.
  destruct (proj1 str_align4_padding_check_wrong [104; 105] (replicate 8 7) 0 0
    ltac:(lia) ltac:(lia) ltac:(vm_compute; reflexivity) ltac:(by vm_compute)
    ltac:(by vm_compute)) as (m' & c' & _ & E).
  exists m', c'. exact E.
Defined.
