(* ===== verification/PointerList.v ===== *)
(** * PointerList: the doubly linked list all client containers are built on

    Models [common/toolkit/list/PointerList.h].  List elements live in a heap of
    kmalloc'ed cells, so the head/tail pointers and the prev/next links are
    modelled as they are; dereferencing NULL or a freed cell is a [Fault].  The
    address of a newly allocated cell is an argument: any address that is not in
    use.  The refinement theorem relates every operation to one on lists. *)

From S2P Require Import Prelude.

#[local] Arguments Z.of_nat : simpl never.
#[local] Arguments Z.eqb : simpl never.

Section PointerList.
Context {V : Type}.

Abbreviation loc := positive (only parsing).

Record PointerListElem := mkElem {
  valuePointer : V; prev : option loc; next : option loc }.

Record PointerList := mkPL { head : option loc; tail : option loc; length_ : Z }.

Abbreviation heap := (gmap loc PointerListElem) (only parsing).

(** [*p], a dereference. *)
Definition load (h : heap) (p : option loc) : outcome (loc * PointerListElem) :=
  match p with
  | Some a => match h !! a with Some e => Done (a, e) | None => Fault end
  | None => Fault
  end.

Definition set_prev (e : PointerListElem) (p : option loc) := mkElem (valuePointer e) p (next e).
Definition set_next (e : PointerListElem) (p : option loc) := mkElem (valuePointer e) (prev e) p.

Definition PointerList_init : PointerList := mkPL None None 0.

Definition PointerList_addHead (h : heap) (this : PointerList) (elem : loc) (v : V)
    : outcome (heap * PointerList) :=
  if negb (length_ this =? 0) then
    '(a, e) ← load h (head this);
    Done (<[elem := mkElem v None (head this)]> (<[a := set_prev e (Some elem)]> h),
          mkPL (Some elem) (tail this) (u64 (length_ this + 1)))
  else
    Done (<[elem := mkElem v None None]> h,
          mkPL (Some elem) (Some elem) (u64 (length_ this + 1))).

Definition PointerList_addTail (h : heap) (this : PointerList) (elem : loc) (v : V)
    : outcome (heap * PointerList) :=
  if negb (length_ this =? 0) then
    '(a, e) ← load h (tail this);
    Done (<[elem := mkElem v (tail this) None]> (<[a := set_next e (Some elem)]> h),
          mkPL (head this) (Some elem) (u64 (length_ this + 1)))
  else
    Done (<[elem := mkElem v None None]> h,
          mkPL (Some elem) (Some elem) (u64 (length_ this + 1))).

Definition PointerList_append := PointerList_addTail.

(** [kfree]: freeing NULL is a no-op. *)
Definition kfree (h : heap) (p : option loc) : heap :=
  match p with Some a => delete a h | None => h end.

Definition PointerList_removeHead (h : heap) (this : PointerList) : outcome (heap * PointerList) :=
  if length_ this =? 1 then Done (kfree h (head this), mkPL None None 0)
  else
    '(a, e) ← load h (head this);
    let newHead := next e in
    let h1 := kfree h (head this) in
    '(b, e') ← load h1 newHead;
    Done (<[b := set_prev e' None]> h1, mkPL newHead (tail this) (u64 (length_ this - 1))).

Definition PointerList_removeTail (h : heap) (this : PointerList) : outcome (heap * PointerList) :=
  if length_ this =? 1 then Done (kfree h (tail this), mkPL None None 0)
  else
    '(a, e) ← load h (tail this);
    let newTail := prev e in
    let h1 := kfree h (tail this) in
    '(b, e') ← load h1 newTail;
    Done (<[b := set_next e' None]> h1, mkPL (head this) newTail (u64 (length_ this - 1))).

Definition PointerList_removeElem (h : heap) (this : PointerList) (elem : loc)
    : outcome (heap * PointerList) :=
  if decide (Some elem = head this) then PointerList_removeHead h this
  else if decide (Some elem = tail this) then PointerList_removeTail h this
  else
    '(_, e) ← load h (Some elem);
    '(p, ep) ← load h (prev e);
    let h1 := <[p := set_next ep (next e)]> h in
    '(n, en) ← load h1 (next e);
    let h2 := <[n := set_prev en (prev e)]> h1 in
    Done (kfree h2 (Some elem), mkPL (head this) (tail this) (u64 (length_ this - 1))).

Definition PointerList_length (this : PointerList) : Z := length_ this.

(** The loop of [PointerList_clear]; [fuel] bounds the number of elements. *)
Fixpoint clear_loop (fuel : nat) (h : heap) (elem : option loc) : outcome heap :=
  match elem with
  | None => Done h
  | Some _ =>
      match fuel with
      | O => Fault
      | S fuel' => '(a, e) ← load h elem; clear_loop fuel' (kfree h elem) (next e)
      end
  end.

Definition PointerList_clear (fuel : nat) (h : heap) (this : PointerList)
    : outcome (heap * PointerList) :=
  h' ← clear_loop fuel h (head this); Done (h', mkPL None None 0).

Definition PointerList_uninit := PointerList_clear.

Definition PointerList_getTail (this : PointerList) : option loc := tail this.

(** ** Representation: the cells [ns] in list order *)

Definition hd_loc (ns : list (loc * V)) (n : option loc) : option loc :=
  match ns with [] => n | (a, _) :: _ => Some a end.

Fixpoint last_loc (ns : list (loc * V)) (p : option loc) : option loc :=
  match ns with [] => p | (a, _) :: ns' => last_loc ns' (Some a) end.

(** The chain of cells [ns] between the outer links [p] and [n]. *)
Fixpoint seg (h : heap) (p : option loc) (ns : list (loc * V)) (n : option loc) : Prop :=
  match ns with
  | [] => True
  | (a, v) :: ns' => h !! a = Some (mkElem v p (hd_loc ns' n)) /\ seg h (Some a) ns' n
  end.

Definition rep (h : heap) (pl : PointerList) (ns : list (loc * V)) : Prop :=
  NoDup (ns.*1) /\ head pl = hd_loc ns None /\ tail pl = last_loc ns None /\
  length_ pl = Z.of_nat (length ns) /\ Z.of_nat (length ns) < 2 ^ 64 - 1 /\
  seg h None ns None.

(** Cells outside the list are untouched. *)
Definition frame (h h' : heap) (ls : list loc) : Prop :=
  forall a, a ∉ ls -> h' !! a = h !! a.

Lemma seg_app h p l1 l2 n :
  seg h p (l1 ++ l2) n <-> seg h p l1 (hd_loc l2 n) /\ seg h (last_loc l1 p) l2 n.
Proof.
  revert p; induction l1 as [|[a v] l1 IH]; intros p; simpl; [tauto|].
  rewrite IH. destruct l1 as [|[b w] l1]; simpl; tauto.
Qed.

Lemma seg_frame h h' p ns n :
  (forall a, a ∈ ns.*1 -> h' !! a = h !! a) -> seg h p ns n -> seg h' p ns n.
Proof.
  revert p; induction ns as [|[a v] ns IH]; intros p Hf; simpl; [done|].
  intros [H1 H2]. rewrite Hf by (simpl; left). split; [done|].
  apply IH; [|done]. intros. apply Hf. simpl. by right.
Qed.

Lemma seg_insert h p ns n a e : a ∉ ns.*1 -> seg h p ns n -> seg (<[a := e]> h) p ns n.
Proof.
  intros Ha. apply seg_frame. intros b Hb. apply lookup_insert_ne. congruence.
Qed.

Lemma seg_delete h p ns n a : a ∉ ns.*1 -> seg h p ns n -> seg (delete a h) p ns n.
Proof.
  intros Ha. apply seg_frame. intros b Hb. apply lookup_delete_ne. congruence.
Qed.

Lemma last_loc_app l1 l2 p : last_loc (l1 ++ l2) p = last_loc l2 (last_loc l1 p).
Proof. revert p; induction l1 as [|[a v] l1 IH]; intros; simpl; auto. Qed.

Lemma hd_loc_app l1 l2 n : hd_loc (l1 ++ l2) n = hd_loc l1 (hd_loc l2 n).
Proof. by destruct l1 as [|[]]. Qed.

Lemma last_loc_snoc l a v p : last_loc (l ++ [(a, v)]) p = Some a.
Proof. by rewrite last_loc_app. Qed.

Lemma load_Done h a e : h !! a = Some e -> load h (Some a) = Done (a, e).
Proof. intros H. simpl. by rewrite H. Qed.

Lemma rep_init h : rep h PointerList_init [].
Proof. unfold rep. simpl. split_and!; auto; constructor. Qed.

Lemma addHead_refines h pl ns a v :
  rep h pl ns -> a ∉ ns.*1 -> Z.of_nat (length ns) + 1 < 2 ^ 64 - 1 ->
  exists h' pl', PointerList_addHead h pl a v = Done (h', pl') /\
    rep h' pl' ((a, v) :: ns) /\ frame h h' (a :: ns.*1).
Proof.
  intros (Hnd & Hh & Ht & Hl & Hb & Hs) Ha Hb'. unfold PointerList_addHead.
  rewrite Hl, Hh, Ht. destruct ns as [|[b w] ns]; simpl in *.
  - eexists _, _. split; [done|]. split.
    + unfold rep. simpl. split_and!; auto; try done.
      * apply NoDup_singleton.
      * by rewrite lookup_insert_eq.
    + intros c Hc. apply lookup_insert_ne. set_solver.
  - destruct Hs as [Hb1 Hs]. apply NoDup_cons in Hnd as [Hnb Hnd].
    apply not_elem_of_cons in Ha as [Hab Ha].
    rewrite Hb1. simpl. eexists _, _. split; [done|]. split.
    + unfold rep. simpl. split_and!; auto.
      * constructor; [set_solver|by constructor].
      * unfold u64. rewrite wrap_id by (unfold in_u; lia). lia.
      * lia.
      * by rewrite lookup_insert_eq.
      * rewrite lookup_insert_ne, lookup_insert_eq by congruence. done.
      * do 2 (apply seg_insert; [done|]). done.
    + intros c Hc. rewrite !lookup_insert_ne by set_solver. done.
Qed.

Lemma addTail_refines h pl ns a v :
  rep h pl ns -> a ∉ ns.*1 -> Z.of_nat (length ns) + 1 < 2 ^ 64 - 1 ->
  exists h' pl', PointerList_addTail h pl a v = Done (h', pl') /\
    rep h' pl' (ns ++ [(a, v)]) /\ frame h h' (a :: ns.*1).
Proof.
  intros (Hnd & Hh & Ht & Hl & Hb & Hs) Ha Hb'. unfold PointerList_addTail.
  rewrite Hl, Hh, Ht. destruct ns as [|[b w] ns _] using rev_ind.
  - eexists _, _. split; [done|]. split.
    + unfold rep. simpl. split_and!; auto; try done.
      * apply NoDup_singleton.
      * by rewrite lookup_insert_eq.
    + intros c Hc. apply lookup_insert_ne. set_solver.
  - rewrite length_app in *. simpl in *.
    rewrite last_loc_snoc. apply seg_app in Hs as [Hs Hb1]. simpl in Hb1. destruct Hb1 as [Hb1 _].
    rewrite fmap_app in *. simpl in *. apply not_elem_of_app in Ha as [Ha Hab].
    apply NoDup_app in Hnd as (Hnd & Hnb & _).
    assert (b ∉ ns.*1) by (intros Hin; apply (Hnb b Hin); by left).
    assert (a <> b) by set_solver.
    destruct (Z.eqb_spec (Z.of_nat (length ns + 1)) 0); [lia|].
    rewrite Hb1. simpl. eexists _, _. split; [done|]. split.
    + unfold rep. simpl. rewrite <- app_assoc. simpl. split_and!.
      * rewrite fmap_app. simpl. apply NoDup_app. split_and!; [done| |].
        -- set_solver.
        -- constructor; [set_solver|apply NoDup_singleton].
      * by rewrite !hd_loc_app.
      * by rewrite last_loc_app.
      * rewrite length_app. simpl. unfold u64. rewrite wrap_id by (unfold in_u; lia). lia.
      * rewrite length_app. simpl. lia.
      * apply seg_app. simpl. split_and!; [|..|done].
        -- by do 2 (apply seg_insert; [done|]).
        -- rewrite lookup_insert_ne, lookup_insert_eq by congruence. done.
        -- by rewrite lookup_insert_eq.
    + intros c Hc. rewrite !lookup_insert_ne by set_solver. done.
Qed.

Lemma removeHead_refines h pl a v ns :
  rep h pl ((a, v) :: ns) ->
  exists h' pl', PointerList_removeHead h pl = Done (h', pl') /\
    rep h' pl' ns /\ h' !! a = None /\ frame h h' (a :: ns.*1).
Proof.
  intros (Hnd & Hh & Ht & Hl & Hb & Hs). unfold PointerList_removeHead. simpl in *.
  rewrite Hl, Hh. destruct Hs as [Ha Hs]. apply NoDup_cons in Hnd as [Hna Hnd].
  destruct ns as [|[b w] ns]; simpl in *.
  - eexists _, _. split; [done|]. split_and!.
    + unfold rep. simpl. split_and!; auto; try done; lia.
    + apply lookup_delete_eq.
    + intros c Hc. apply lookup_delete_ne. set_solver.
  - destruct (Z.eqb_spec (Z.of_nat (S (S (length ns)))) 1); [lia|].
    destruct Hs as [Hb1 Hs]. apply not_elem_of_cons in Hna as [Hab Hna].
    apply NoDup_cons in Hnd as [Hnb Hnd].
    rewrite Ha. simpl. rewrite lookup_delete_ne, Hb1 by done. simpl.
    eexists _, _. split; [done|]. split_and!.
    + unfold rep. simpl. split_and!; auto.
      * by constructor.
      * unfold u64. rewrite wrap_id by (unfold in_u; lia). lia.
      * lia.
      * by rewrite lookup_insert_eq.
      * apply seg_insert; [done|]. by apply seg_delete.
    + by rewrite lookup_insert_ne, lookup_delete_eq by done.
    + intros c Hc. rewrite lookup_insert_ne, lookup_delete_ne by set_solver. done.
Qed.

Lemma removeTail_refines h pl a v ns :
  rep h pl (ns ++ [(a, v)]) ->
  exists h' pl', PointerList_removeTail h pl = Done (h', pl') /\
    rep h' pl' ns /\ h' !! a = None /\ frame h h' (a :: ns.*1).
Proof.
  intros (Hnd & Hh & Ht & Hl & Hb & Hs). unfold PointerList_removeTail.
  rewrite last_loc_snoc in Ht. rewrite Hl, Ht, Hh. rewrite length_app in *. simpl in *.
  apply seg_app in Hs as [Hs [Ha _]]. rewrite fmap_app in Hnd. simpl in *.
  apply NoDup_app in Hnd as (Hnd & Hna & _).
  assert (Han : a ∉ ns.*1) by (intros Hin; apply (Hna a Hin); by left). clear Hna.
  destruct ns as [|[b w] ns _] using rev_ind; simpl in *.
  - eexists _, _. split; [done|]. split_and!.
    + unfold rep. simpl. split_and!; auto; try done; lia.
    + apply lookup_delete_eq.
    + intros c Hc. apply lookup_delete_ne. set_solver.
  - rewrite length_app in *. simpl in *.
    destruct (Z.eqb_spec (Z.of_nat (length ns + 1 + 1)) 1); [lia|].
    rewrite last_loc_snoc in Ha. rewrite Ha. simpl.
    apply seg_app in Hs as [Hs [Hb1 _]]. rewrite fmap_app in *. simpl in *.
    apply not_elem_of_app in Han as [Han Hab]. apply not_elem_of_cons in Hab as [Hab _].
    apply NoDup_app in Hnd as (Hnd & Hnb & _).
    assert (b ∉ ns.*1) by (intros Hin; apply (Hnb b Hin); by left).
    rewrite lookup_delete_ne, Hb1 by done. simpl.
    eexists _, _. split; [done|]. split_and!.
    + unfold rep. simpl. split_and!.
      * rewrite fmap_app. simpl. apply NoDup_app. split_and!; [done|set_solver|apply NoDup_singleton].
      * by rewrite !hd_loc_app.
      * by rewrite last_loc_snoc.
      * rewrite length_app. simpl. unfold u64. rewrite wrap_id by (unfold in_u; lia). lia.
      * rewrite length_app. simpl. lia.
      * apply seg_app. simpl. split_and!; [|by rewrite lookup_insert_eq|done].
        apply seg_insert; [done|]. by apply seg_delete.
    + by rewrite lookup_insert_ne, lookup_delete_eq by done.
    + intros c Hc. rewrite lookup_insert_ne, lookup_delete_ne by set_solver. done.
Qed.

(** Unlinking a cell that has a neighbour on both sides. *)
Lemma removeMiddle_refines h pl l1 p wp a v n wn l2 :
  rep h pl (l1 ++ (p, wp) :: (a, v) :: (n, wn) :: l2) ->
  exists h' pl', PointerList_removeElem h pl a = Done (h', pl') /\
    rep h' pl' (l1 ++ (p, wp) :: (n, wn) :: l2) /\ h' !! a = None /\
    frame h h' (p :: a :: n :: nil).
Proof.
  intros (Hnd & Hh & Ht & Hl & Hb & Hs). unfold PointerList_removeElem.
  apply seg_app in Hs as [Hs1 Hs]. simpl in Hs1, Hs. destruct Hs as (Hp & Ha & Hn & Hs2).
  rewrite fmap_app in Hnd. simpl in Hnd.
  apply NoDup_app in Hnd as (Hnd1 & Hdj & Hnd2).
  apply NoDup_cons in Hnd2 as [Hpn Hnd2]. apply NoDup_cons in Hnd2 as [Han Hnd2].
  pose proof Hnd2 as Hnd3. apply NoDup_cons in Hnd3 as [Hnn Hnd3].
  assert (forall x, x ∈ l1.*1 -> x <> p /\ x <> a /\ x <> n).
  { intros x Hx. specialize (Hdj x Hx). set_solver. }
  assert (p <> a /\ p <> n /\ a <> n) as (Hpa & Hpn' & Han') by set_solver.
  assert (p ∉ l1.*1 /\ a ∉ l1.*1 /\ n ∉ l1.*1) as (Q1 & Q2 & Q3) by naive_solver.
  assert (p ∉ l2.*1 /\ a ∉ l2.*1 /\ n ∉ l2.*1) as (R1 & R2 & R3) by set_solver.
  rewrite Hh, Ht, last_loc_app, hd_loc_app. simpl.
  assert (Hhd : Some a <> hd_loc l1 (Some p)).
  { destruct l1 as [|[x ?] ?]; simpl in *; [congruence|]. intros [= ->]. set_solver. }
  rewrite (decide_False _ _ Hhd).
  assert (Htl : Some a <> last_loc l2 (Some n)).
  { destruct l2 as [|[x w] l2 _] using rev_ind; simpl; [congruence|].
    rewrite last_loc_snoc. rewrite fmap_app in R2. simpl in R2. set_solver. }
  rewrite (decide_False _ _ Htl). rewrite Ha. simpl. rewrite Hp. simpl.
  rewrite lookup_insert_ne, Hn by done. simpl.
  eexists _, _. split; [done|]. split_and!.
  - unfold rep. simpl. rewrite length_app in *. simpl in *. split_and!.
    + rewrite fmap_app. simpl. apply NoDup_app. split_and!; [done|set_solver|].
      constructor; [set_solver|done].
    + by rewrite hd_loc_app.
    + by rewrite last_loc_app.
    + rewrite Hl. unfold u64. rewrite wrap_id by (unfold in_u; lia). lia.
    + lia.
    + apply seg_app. simpl. split_and!.
      * by apply seg_delete, seg_insert, seg_insert.
      * rewrite lookup_delete_ne, lookup_insert_ne, lookup_insert_eq by done. done.
      * rewrite lookup_delete_ne, lookup_insert_eq by done. done.
      * by apply seg_delete, seg_insert, seg_insert.
  - apply lookup_delete_eq.
  - intros c Hc. rewrite lookup_delete_ne, !lookup_insert_ne by set_solver. done.
Qed.

Lemma clear_loop_refines fuel h p ns :
  NoDup (ns.*1) -> seg h p ns None -> (length ns <= fuel)%nat ->
  exists h', clear_loop fuel h (hd_loc ns None) = Done h' /\
    (forall a, a ∈ ns.*1 -> h' !! a = None) /\ frame h h' (ns.*1).
Proof.
  revert fuel h p. induction ns as [|[a v] ns IH]; intros fuel h p Hnd Hs Hf.
  - exists h. simpl. destruct fuel; (split_and!; [done|set_solver|done]).
  - destruct fuel as [|fuel]; simpl in *; [lia|]. destruct Hs as [Ha Hs].
    apply NoDup_cons in Hnd as [Hna Hnd]. rewrite Ha. simpl.
    destruct (IH fuel (delete a h) (Some a)) as (h' & E & Hd & Hfr);
      [done|by apply seg_delete|lia|].
    exists h'. split_and!; [done| |].
    + intros b Hb. apply elem_of_cons in Hb as [->|Hb]; [|auto].
      rewrite Hfr by done. apply lookup_delete_eq.
    + intros b Hb. apply not_elem_of_cons in Hb as [Hba Hb].
      rewrite Hfr by done. by apply lookup_delete_ne.
Qed.

Lemma filter_ne_id (a : loc) (l : list (loc * V)) :
  a ∉ l.*1 -> filter (fun x => x.1 <> a) l = l.
Proof.
  induction l as [|[b w] l IH]; simpl; intros Ha; [done|].
  apply not_elem_of_cons in Ha as [Hb Ha].
  rewrite filter_cons_True by (simpl; congruence). by rewrite IH.
Qed.

Lemma filter_ne_middle (a : loc) v (l1 l2 : list (loc * V)) :
  a ∉ l1.*1 -> a ∉ l2.*1 ->
  filter (fun x => x.1 <> a) (l1 ++ (a, v) :: l2) = l1 ++ l2.
Proof.
  intros H1 H2. rewrite filter_app, filter_cons_False by (simpl; tauto).
  by rewrite !filter_ne_id.
Qed.

Lemma frame_mono (h h' : heap) l l' : l ⊆ l' -> frame h h' l -> frame h h' l'.
Proof. intros Hl Hf a Ha. apply Hf. set_solver. Qed.

Lemma removeElem_refines h pl ns a :
  rep h pl ns -> a ∈ ns.*1 ->
  exists h' pl', PointerList_removeElem h pl a = Done (h', pl') /\
    rep h' pl' (filter (fun x => x.1 <> a) ns) /\ h' !! a = None /\ frame h h' (ns.*1).
Proof.
  intros Hr Ha. pose proof Hr as (Hnd & Hh & Ht & _).
  apply list_elem_of_fmap in Ha as ([a' v] & -> & Hin). simpl.
  apply list_elem_of_split in Hin as (l1 & l2 & ->).
  assert (Hn : a' ∉ l1.*1 /\ a' ∉ l2.*1).
  { rewrite fmap_app in Hnd. simpl in Hnd. apply NoDup_app in Hnd as (_ & Hd & Hn2).
    apply NoDup_cons in Hn2 as [Hn2 _]. split; [|done]. intros Hi. apply (Hd _ Hi). by left. }
  destruct Hn as [N1 N2]. rewrite filter_ne_middle by done.
  assert (Hhd : l1 <> [] -> Some a' <> head pl).
  { intros Hl. rewrite Hh, hd_loc_app. destruct l1 as [|[x w] l1]; [done|]. simpl.
    intros [= ->]. simpl in N1. set_solver. }
  destruct l1 as [|[p wp] l1 _] using rev_ind.
  - destruct (removeHead_refines h pl a' v l2) as (h' & pl' & E & R & D & F); [done|].
    exists h', pl'. unfold PointerList_removeElem. rewrite decide_True by (rewrite Hh; done).
    done.
  - destruct l2 as [|[n wn] l2].
    + destruct (removeTail_refines h pl a' v (l1 ++ [(p, wp)])) as (h' & pl' & E & R & D & F);
        [done|].
      exists h', pl'. unfold PointerList_removeElem.
      rewrite decide_False by (apply Hhd; by destruct l1).
      rewrite decide_True by (by rewrite Ht, last_loc_snoc). rewrite app_nil_r.
      split_and!; try done. eapply frame_mono; [|done]. rewrite !fmap_app. simpl. set_solver.
    + rewrite <- app_assoc in Hr. simpl in Hr.
      destruct (removeMiddle_refines h pl l1 p wp a' v n wn l2) as (h' & pl' & E & R & D & F);
        [done|].
      exists h', pl'. rewrite <- app_assoc. simpl.
      split_and!; try done. eapply frame_mono; [|done]. rewrite !fmap_app. simpl. set_solver.
Qed.

Lemma clear_refines h pl ns :
  rep h pl ns ->
  exists h', PointerList_clear (Z.to_nat (length_ pl)) h pl = Done (h', PointerList_init) /\
    rep h' PointerList_init [] /\ (forall a, a ∈ ns.*1 -> h' !! a = None) /\ frame h h' (ns.*1).
Proof.
  intros (Hnd & Hh & Ht & Hl & Hb & Hs). unfold PointerList_clear. rewrite Hh, Hl.
  destruct (clear_loop_refines (Z.to_nat (Z.of_nat (length ns))) h None ns) as (h' & -> & Hd & Hf);
    [done..|lia|].
  exists h'. split_and!; [done|apply rep_init|done..].
Qed.

(** ** Refinement: the linked list implements a list *)

Inductive PLOp : Type :=
| OpAddHead (elem : loc) (v : V)
| OpAddTail (elem : loc) (v : V)
| OpRemoveHead
| OpRemoveTail
| OpRemoveElem (elem : loc)
| OpClear.

Definition run_op (op : PLOp) (h : heap) (pl : PointerList) : outcome (heap * PointerList) :=
  match op with
  | OpAddHead a v => PointerList_addHead h pl a v
  | OpAddTail a v => PointerList_addTail h pl a v
  | OpRemoveHead => PointerList_removeHead h pl
  | OpRemoveTail => PointerList_removeTail h pl
  | OpRemoveElem a => PointerList_removeElem h pl a
  | OpClear => PointerList_clear (Z.to_nat (length_ pl)) h pl
  end.

Definition spec_op (op : PLOp) (ns : list (loc * V)) : list (loc * V) :=
  match op with
  | OpAddHead a v => (a, v) :: ns
  | OpAddTail a v => ns ++ [(a, v)]
  | OpRemoveHead => drop 1 ns
  | OpRemoveTail => take (length ns - 1) ns
  | OpRemoveElem a => filter (fun x => x.1 <> a) ns
  | OpClear => []
  end.

(** What the callers guarantee: a fresh cell, a non-empty list, a member. *)
Definition op_ok (op : PLOp) (ns : list (loc * V)) : Prop :=
  match op with
  | OpAddHead a _ | OpAddTail a _ => a ∉ ns.*1 /\ Z.of_nat (length ns) + 1 < 2 ^ 64 - 1
  | OpRemoveHead | OpRemoveTail => ns <> []
  | OpRemoveElem a => a ∈ ns.*1
  | OpClear => True
  end.

Fixpoint run_ops (ops : list PLOp) (h : heap) (pl : PointerList) : outcome (heap * PointerList) :=
  match ops with
  | [] => Done (h, pl)
  | op :: ops' => '(h', pl') ← run_op op h pl; run_ops ops' h' pl'
  end.

Fixpoint spec_ops (ops : list PLOp) (ns : list (loc * V)) : list (loc * V) :=
  match ops with
  | [] => ns
  | op :: ops' => spec_ops ops' (spec_op op ns)
  end.

Fixpoint ops_ok (ops : list PLOp) (ns : list (loc * V)) : Prop :=
  match ops with
  | [] => True
  | op :: ops' => op_ok op ns /\ ops_ok ops' (spec_op op ns)
  end.

Lemma run_op_refines op h pl ns :
  rep h pl ns -> op_ok op ns ->
  exists h' pl', run_op op h pl = Done (h', pl') /\ rep h' pl' (spec_op op ns).
Proof.
  intros Hr Ho. destruct op; simpl in *.
  - destruct Ho. destruct (addHead_refines h pl ns elem v) as (? & ? & ? & ? & ?); eauto.
  - destruct Ho. destruct (addTail_refines h pl ns elem v) as (? & ? & ? & ? & ?); eauto.
  - destruct ns as [|[a v] ns]; [done|].
    destruct (removeHead_refines h pl a v ns) as (? & ? & ? & ? & ? & ?); [done|].
    simpl. rewrite drop_0. eauto.
  - destruct ns as [|[a v] ns _] using rev_ind; [done|].
    destruct (removeTail_refines h pl a v ns) as (? & ? & ? & ? & ? & ?); [done|].
    rewrite length_app, take_app_length' by (simpl; lia). eauto.
  - destruct (removeElem_refines h pl ns elem) as (? & ? & ? & ? & ?); eauto.
  - destruct (clear_refines h pl ns) as (? & ? & ? & ?); eauto.
Qed.

(** The values a traversal along the next pointers visits. *)
Fixpoint traverse (fuel : nat) (h : heap) (p : option loc) : outcome (list V) :=
  match p, fuel with
  | None, _ => Done []
  | Some _, O => Fault
  | Some _, S fuel' => '(_, e) ← load h p; vs ← traverse fuel' h (next e); Done (valuePointer e :: vs)
  end.

Lemma traverse_seg fuel h p ns :
  seg h p ns None -> (length ns <= fuel)%nat -> traverse fuel h (hd_loc ns None) = Done (ns.*2).
Proof.
  revert fuel p. induction ns as [|[a v] ns IH]; intros fuel p Hs Hf; simpl in *.
  - by destruct fuel.
  - destruct fuel as [|fuel]; [lia|]. destruct Hs as [Ha Hs]. simpl. rewrite Ha. simpl.
    by rewrite (IH fuel (Some a)) by (done || lia).
Qed.

End PointerList.

Arguments PLOp : clear implicits.
Arguments PointerListElem : clear implicits.

(** The linked list is a list.  Starting from an initialised list, any
    sequence of head/tail insertions, head/tail/element removals and clears whose
    arguments are legal runs without touching a NULL or freed cell, and walking
    the next pointers afterwards visits exactly the values of the abstract list,
    whose length the length field holds. *)
Theorem PointerList_refines_list {V} (ops : list (PLOp V)) (h : gmap positive (PointerListElem V)) :
  ops_ok ops [] ->
  exists h' pl',
    run_ops ops h PointerList_init = Done (h', pl') /\
    PointerList_length pl' = Z.of_nat (length (spec_ops ops [])) /\
    PointerList_getTail pl' = last_loc (spec_ops ops []) None /\
    traverse (length (spec_ops ops [])) h' (head pl') = Done ((spec_ops ops []).*2).
Proof.
  intros Hok. assert (H : exists h' pl', run_ops ops h PointerList_init = Done (h', pl') /\
    rep h' pl' (spec_ops ops [])).
  { generalize (rep_init (V := V) h). generalize (@PointerList_init) as pl.
    revert h Hok. generalize (@nil (positive * V)) as ns.
    induction ops as [|op ops IH]; intros ns h Hok pl Hr; simpl in *; [eauto|].
    destruct Hok as [Ho Hok]. destruct (run_op_refines op h pl ns) as (h1 & pl1 & -> & Hr1);
      [done..|]. simpl. by apply IH. }
  destruct H as (h' & pl' & E & (_ & Hh & Ht & Hl & _ & Hs)).
  exists h', pl'. split_and!; [done..|]. rewrite Hh. by eapply traverse_seg.
Qed.

Lemma PointerList_refines_list_witness :
  exists h' pl',
    run_ops [OpAddTail 1 10; OpAddTail 2 20; OpAddHead 3 30; OpRemoveElem 1; OpRemoveTail]%positive
      (∅ : gmap positive (PointerListElem positive)) PointerList_init = Done (h', pl') /\
    traverse 1 h' (head pl') = Done [30%positive].
Proof.
  destruct (PointerList_refines_list
    [OpAddTail 1 10; OpAddTail 2 20; OpAddHead 3 30; OpRemoveElem 1; OpRemoveTail]%positive ∅)
    as (h' & pl' & E & _ & _ & Ht).
  { simpl. split_and!; try done; try set_solver; apply (bool_decide_unpack _); by vm_compute. }
  exists h', pl'. split; [exact E|exact Ht].
Defined.
