(* ===== verification/Vectors.v ===== *)
(** * Vectors: growable arrays layered on the linked lists

    Models [common/toolkit/vector/UInt16Vec.h], [UInt8Vec.h] and
    [ListTk_copyUInt16ListToVec] of [common/toolkit/ListTk.c].  A vector is a
    list plus an array that doubles when full; cells of a freshly kmalloc'ed
    array are [None] until they are written, and reading one is a [Fault].  The
    list part is the abstract list that the PointerList development proves the
    linked list to implement. *)

From S2P Require Import Prelude.

(** The layout the two vector types share. *)
Record Vec := mkVec { vlist : list Z; vecArray : list (option Z); vecArrayLen : Z }.

(** [os_kmalloc] of an array of [n] elements. *)
Definition kmalloc_array (n : Z) : list (option Z) := replicate (Z.to_nat n) None.

(** [this->vecArray[index] = value] *)
Definition array_store (a : list (option Z)) (i v : Z) : outcome (list (option Z)) :=
  if (0 <=? i) && (i <? Z.of_nat (length a)) then Done (<[Z.to_nat i := Some v]> a) else Fault.

(** Reading [this->vecArray[index]]. *)
Definition array_load (a : list (option Z)) (i : Z) : outcome Z :=
  if 0 <=? i then
    match a !! Z.to_nat i with Some (Some v) => Done v | _ => Fault end
  else Fault.

(** ** UInt16Vec *)

Definition UInt16Vec_init : Vec := mkVec [] (kmalloc_array 4) 4.

Definition UInt16Vec_append (this : Vec) (value : Z) : outcome Vec :=
  let list' := vlist this ++ [value] in
  let newListLen := Z.of_nat (length list') in
  let '(arr, arrLen) :=
    if vecArrayLen this <? newListLen then
      (take (Z.to_nat (vecArrayLen this)) (vecArray this) ++ kmalloc_array (vecArrayLen this),
       u64 (vecArrayLen this * 2))
    else (vecArray this, vecArrayLen this) in
  arr' ← array_store arr (newListLen - 1) value;
  Done (mkVec list' arr' arrLen).

Definition UInt16Vec_length (this : Vec) : Z := Z.of_nat (length (vlist this)).
Definition UInt16Vec_at (this : Vec) (index : Z) : outcome Z := array_load (vecArray this) index.
Definition UInt16Vec_clear (this : Vec) : Vec := mkVec [] (vecArray this) (vecArrayLen this).

Fixpoint ListTk_copyUInt16ListToVec (srcList : list Z) (destVec : Vec) : outcome Vec :=
  match srcList with
  | [] => Done destVec
  | currentElem :: rest =>
      destVec' ← UInt16Vec_append destVec currentElem;
      ListTk_copyUInt16ListToVec rest destVec'
  end.

(** ** UInt8Vec *)

Definition UInt8Vec_init : Vec := mkVec [] (kmalloc_array 4) 4.

Definition UInt8Vec_append (this : Vec) (value : Z) : outcome Vec :=
  let list' := vlist this ++ [value] in
  let newListLen := Z.of_nat (length list') in
  let '(arr, arrLen) :=
    if vecArrayLen this <? newListLen then
      (take (Z.to_nat (vecArrayLen this)) (vecArray this) ++ kmalloc_array (vecArrayLen this),
       u64 (vecArrayLen this * 2))
    else (vecArray this, vecArrayLen this) in
  arr' ← array_store arr (newListLen - 1) value;
  Done (mkVec list' arr' arrLen).

Definition UInt8Vec_length (this : Vec) : Z := Z.of_nat (length (vlist this)).
Definition UInt8Vec_at (this : Vec) (index : Z) : outcome Z := array_load (vecArray this) index.
Definition UInt8Vec_clear (this : Vec) : Vec := mkVec [] (vecArray this) (vecArrayLen this).

(** ** Invariant: the array mirrors the list *)

Definition vec_wf (v : Vec) : Prop :=
  Z.of_nat (length (vecArray v)) = vecArrayLen v /\ 4 <= vecArrayLen v < 2 ^ 63 /\
  Z.of_nat (length (vlist v)) <= vecArrayLen v /\
  take (length (vlist v)) (vecArray v) = Some <$> vlist v.

Lemma vec_wf_init : vec_wf UInt16Vec_init.
Proof. by vm_compute. Qed.

Lemma vec_wf_clear v : vec_wf v -> vec_wf (UInt16Vec_clear v).
Proof. intros (H1 & H2 & H3 & H4). unfold vec_wf. simpl. split_and!; auto; lia. Qed.

Lemma array_store_Done a i v :
  0 <= i < Z.of_nat (length a) -> array_store a i v = Done (<[Z.to_nat i := Some v]> a).
Proof.
  intros. unfold array_store. rewrite (proj2 (Z.leb_le _ _)), (proj2 (Z.ltb_lt _ _)) by lia. done.
Qed.

(** Storing behind a mirrored prefix extends it. *)
Lemma take_snoc_insert (a : list (option Z)) (l : list Z) x :
  take (length l) a = Some <$> l -> (length l < length a)%nat ->
  take (length l + 1) (<[length l := Some x]> a) = Some <$> (l ++ [x]).
Proof.
  intros Ht Hl. rewrite fmap_app, <- Ht. simpl.
  replace (length l + 1)%nat with (S (length l)) by lia.
  rewrite (take_S_r _ _ (Some x)) by (by apply list_lookup_insert_eq).
  by rewrite take_insert_ge by lia.
Qed.

Lemma append_wf v x :
  vec_wf v -> Z.of_nat (length (vlist v)) < 2 ^ 61 ->
  exists v', UInt16Vec_append v x = Done v' /\ vec_wf v' /\ vlist v' = vlist v ++ [x].
Proof.
  intros (Hl & Hb & Hle & Ht) Hn. unfold UInt16Vec_append.
  rewrite length_app. simpl length.
  destruct (Z.ltb_spec (vecArrayLen v) (Z.of_nat (length (vlist v) + 1))).
  - assert (Hfull : length (vlist v) = length (vecArray v)) by lia.
    rewrite <- Hl, Nat2Z.id, firstn_all. unfold kmalloc_array. rewrite Nat2Z.id.
    rewrite array_store_Done by (rewrite length_app, length_replicate; lia). simpl.
    eexists. split; [done|]. split; [|done]. unfold vec_wf. simpl.
    rewrite length_insert, !length_app, length_replicate. simpl.
    unfold u64. rewrite wrap_id by (unfold in_u; lia).
    split_and!; [lia..|].
    replace (Z.to_nat (Z.of_nat (length (vlist v) + 1) - 1)) with (length (vlist v)) by lia.
    apply take_snoc_insert; [|rewrite length_app, length_replicate; lia].
    rewrite take_app_le by lia. done.
  - rewrite array_store_Done by lia. simpl.
    eexists. split; [done|]. split; [|done]. unfold vec_wf. simpl.
    rewrite length_insert, !length_app. simpl. split_and!; [lia..|].
    replace (Z.to_nat (Z.of_nat (length (vlist v) + 1) - 1)) with (length (vlist v)) by lia.
    apply take_snoc_insert; [done|lia].
Qed.

Lemma copy_wf l v :
  vec_wf v -> Z.of_nat (length (vlist v) + length l) <= 2 ^ 61 ->
  exists v', ListTk_copyUInt16ListToVec l v = Done v' /\ vec_wf v' /\ vlist v' = vlist v ++ l.
Proof.
  revert v. induction l as [|x l IH]; intros v Hw Hn; simpl.
  - exists v. by rewrite app_nil_r.
  - simpl in Hn. destruct (append_wf v x) as (v1 & -> & Hw1 & E1); [done|lia|]. simpl.
    destruct (IH v1) as (v2 & -> & Hw2 & E2); [done|rewrite E1, length_app; simpl; lia|].
    exists v2. split_and!; [done..|]. by rewrite E2, E1, <- app_assoc.
Qed.

Lemma at_wf v i :
  vec_wf v -> UInt16Vec_at v (Z.of_nat i) = of_option (vlist v !! i) \/
              (length (vlist v) <= i)%nat.
Proof.
  intros (Hl & Hb & Hle & Ht). destruct (decide (i < length (vlist v))%nat); [left|right; lia].
  unfold UInt16Vec_at, array_load. rewrite (proj2 (Z.leb_le _ _)), Nat2Z.id by lia.
  assert (E : vecArray v !! i = Some <$> (vlist v !! i)).
  { rewrite <- list_lookup_fmap, <- Ht. by rewrite lookup_take_lt. }
  rewrite E. by destruct (vlist v !! i).
Qed.

(** A vector returns what was appended.  Copying any list into a fresh
    vector succeeds across every doubling of the array, keeps the invariant, and
    [UInt16Vec_at] returns the list's elements at every index below the length
    without reading an uninitialised or foreign cell. *)
Theorem UInt16Vec_copy_at (l : list Z) :
  Z.of_nat (length l) <= 2 ^ 61 ->
  exists v, ListTk_copyUInt16ListToVec l UInt16Vec_init = Done v /\ vec_wf v /\
    UInt16Vec_length v = Z.of_nat (length l) /\
    forall i x, l !! i = Some x -> UInt16Vec_at v (Z.of_nat i) = Done x.
Proof.
  intros Hn. destruct (copy_wf l UInt16Vec_init vec_wf_init) as (v & E & Hw & Hl); [simpl; lia|].
  simpl in Hl. exists v. split_and!; [done..|by unfold UInt16Vec_length; rewrite Hl|].
  intros i x Hx. destruct (at_wf v i Hw) as [E'|Hge].
  - by rewrite E', Hl, Hx.
  - rewrite Hl in Hge. apply lookup_lt_Some in Hx. lia.
Qed.

Lemma UInt16Vec_copy_at_witness : exists v,
  ListTk_copyUInt16ListToVec [11; 12; 13; 14; 15; 16] UInt16Vec_init = Done v /\
  UInt16Vec_at v 5 = Done 16.
Proof.
  destruct (UInt16Vec_copy_at [11; 12; 13; 14; 15; 16]) as (v & E & _ & _ & H); [by vm_compute|].
  exists v. split; [exact E|]. exact (H 5%nat 16 eq_refl).
Defined.
