(* ===== verification/SerializationLists.v ===== *)
(** * Serialization of lists

    Models the list part of [common/toolkit/Serialization.c] (NIC lists, node
    lists, string lists, integer lists and vectors), the macro family
    [SERDES_DEFINE_LIST_SERIALIZERS] of [common/toolkit/Serialization.h], and its
    instances in [common/Types.c], [common/nodes/NumNodeID.c] and
    [common/storage/StoragePoolId.c].  Deserialization happens in two steps: the
    preprocess functions check the raw bytes and leave a [RawList], the second
    functions build the list from it. *)

From S2P Require Import Prelude Serialization Vectors.

(** Run a deserializer on another context, e.g. a nested field's. *)
Definition des_on {A} (o : DeserializeCtx) (d : Des A) : Des (A * DeserializeCtx) := fun m c =>
  match d m o with
  | Done (Some a, o') => Done (Some (a, o'), c)
  | Done (None, _) => Done (None, c)
  | Fault => Fault
  end.

(** [startCtx = *ctx; <body>; serializeUInt(&startCtx, ctx->length - startCtx.length)]:
    the total-length field in front of a list is written as 0 and patched. *)
Definition ser_total_length (body : Ser) : Ser := fun m c =>
  let startCtx := c in
  '(m1, c1) ← (Serialization_serializeUInt 0 ;;; body) m c;
  '(m2, _) ← Serialization_serializeUInt (u32 (slength c1 - slength startCtx)) m1 startCtx;
  Done (m2, c1).

(** The first [n] elements an iterator visits, each passed to a serializer. *)
Fixpoint ser_each {A} (s : A -> Ser) (l : list A) : Ser :=
  match l with
  | [] => ser_skip
  | x :: l' => s x ;;; ser_each s l'
  end.

(** [for(i=0; i < elemCount; i++) { if(!deserialize) return false; append }] *)
Fixpoint des_elems {A C} (des : Des A) (append : C -> A -> outcome C)
    (n : nat) (m : mem) (ctx : DeserializeCtx) (out : C) : outcome (bool * C) :=
  match n with
  | O => Done (true, out)
  | S n' =>
      match des m ctx with
      | Done (Some v, ctx') => out' ← append out v; des_elems des append n' m ctx' out'
      | Done (None, _) => Done (false, out)
      | Fault => Fault
      end
  end.

Definition list_append {A} (l : list A) (x : A) : outcome (list A) := Done (l ++ [x]).

(** ** NIC lists *)

Definition IFNAMSIZ : Z := 16.
Definition SERIALIZATION_NICLISTELEM_NAME_SIZE : Z := 16.
Definition SERIALIZATION_NICLISTELEM_SIZE : Z := 8 + SERIALIZATION_NICLISTELEM_NAME_SIZE.

Record NicAddress := mkNic { ipAddr : Z; nicType : Z; nicName : mem }.

Definition serialize_nic (nicAddr : NicAddress) : Ser :=
  let minNameSize := Z.min IFNAMSIZ SERIALIZATION_NICLISTELEM_NAME_SIZE in
  Serialization_serializeBlock (le_split 4 (ipAddr nicAddr)) 4 ;;;
  Serialization_serializeBlock (nicName nicAddr) minNameSize ;;;
  Serialization_serializeBlock (le_split 4 (nicType nicAddr)) 1 ;;;
  Serialization_serializeBlock [0; 0; 0] 3.

Definition Serialization_serializeNicList (nicList : list NicAddress) : Ser :=
  let nicListSize := u32 (Z.of_nat (length nicList)) in
  Serialization_serializeUInt nicListSize ;;;
  ser_each serialize_nic (take (Z.to_nat nicListSize) nicList).

Definition Serialization_deserializeNicListPreprocess : Des RawList :=
  elemCount ← Serialization_deserializeUInt;
  ctx ← des_ctx;
  let data := ddata ctx in
  let length := u32 (elemCount * SERIALIZATION_NICLISTELEM_SIZE) in
  if dlength ctx <? length then des_fail
  else
    _ ← des_advance length;
    mret (mkRaw data length elemCount).

(** One iteration of the loop of [deserializeNicList]: the element at [pos]. *)
Definition deserialize_nic (m : mem) (pos : Z) : outcome NicAddress :=
  let minNameSize := Z.min IFNAMSIZ SERIALIZATION_NICLISTELEM_NAME_SIZE in
  ip ← read_block m pos 4;
  name ← read_block m (pos + 4) minNameSize;
  ty ← read8 m (pos + 4 + SERIALIZATION_NICLISTELEM_NAME_SIZE);
  Done (mkNic (le_combine ip) (s8 ty) (<[Z.to_nat (minNameSize - 1) := 0]> name)).

Fixpoint deserialize_nics (n : nat) (m : mem) (pos : Z) (out : list NicAddress)
    : outcome (list NicAddress) :=
  match n with
  | O => Done out
  | S n' =>
      nicAddr ← deserialize_nic m pos;
      deserialize_nics n' m (pos + SERIALIZATION_NICLISTELEM_SIZE) (out ++ [nicAddr])
  end.

Definition Serialization_deserializeNicList (m : mem) (inList : RawList)
    (outNicList : list NicAddress) : outcome (list NicAddress) :=
  deserialize_nics (Z.to_nat (relemCount inList)) m (rdata inList) outNicList.

(** ** Identifiers (NumNodeID.c, StoragePoolId.c) *)

Definition NumNodeID_serialize (this : Z) : Ser := Serialization_serializeUInt this.
Definition NumNodeID_deserialize : Des Z := Serialization_deserializeUInt.
Definition StoragePoolId_serialize (this : Z) : Ser := Serialization_serializeUShort this.
Definition StoragePoolId_deserialize : Des Z := Serialization_deserializeUShort.

(** ** Node lists *)

(** One element of the preprocessing loop; the values are discarded. *)
Definition preprocess_node : Des unit :=
  _ ← Serialization_deserializeStr;
  _ ← Serialization_deserializeNicListPreprocess;
  _ ← NumNodeID_deserialize;
  _ ← Serialization_deserializeUShort;
  _ ← Serialization_deserializeUShort;
  _ ← Serialization_deserializeChar;
  mret tt.

Fixpoint preprocess_nodes (n : nat) : Des unit :=
  match n with
  | O => mret tt
  | S n' => _ ← preprocess_node; preprocess_nodes n'
  end.

(** The function does not set the length of [outList]. *)
Definition Serialization_deserializeNodeListPreprocess (outList : RawList) : Des RawList :=
  elemCount ← Serialization_deserializeUInt;
  ctx ← des_ctx;
  _ ← preprocess_nodes (Z.to_nat elemCount);
  mret (mkRaw (ddata ctx) (rlength outList) elemCount).

(** What [Node_construct] and [Node_setNodeType] are given. *)
Record NodeInfo := mkNode {
  nId : mem; nNumID : Z; nPortUDP : Z; nPortTCP : Z; nNicList : list NicAddress; nType : Z }.

(** The C string at [p], as [StringTk_strDup] copies it. *)
Definition cstring (m : mem) (p : Z) : outcome mem :=
  len ← strlen m p; read_block m p len.

(** The second pass ignores the results of the deserializers: a failing one
    would leave a variable at the given default. *)
Definition des_ignore {A} (d : Des A) (dflt : A) (m : mem) (c : DeserializeCtx)
    : outcome (A * DeserializeCtx) :=
  match d m c with
  | Done (Some a, c') => Done (a, c')
  | Done (None, c') => Done (dflt, c')
  | Fault => Fault
  end.

(** [nodeID] stays NULL, and the uninitialised [rawNicList] would be used, if its
    deserializer failed: both are a [Fault] here. *)
Definition deserialize_node (m : mem) (c : DeserializeCtx) : outcome (NodeInfo * DeserializeCtx) :=
  '(nodeID, c) ← des_ignore (x ← Serialization_deserializeStr; mret (Some x)) None m c;
  '(rawNicList, c) ←
    des_ignore (x ← Serialization_deserializeNicListPreprocess; mret (Some x)) None m c;
  raw ← of_option rawNicList;
  nicList ← Serialization_deserializeNicList m raw [];
  '(nodeNumID, c) ← des_ignore NumNodeID_deserialize 0 m c;
  '(portUDP, c) ← des_ignore Serialization_deserializeUShort 0 m c;
  '(portTCP, c) ← des_ignore Serialization_deserializeUShort 0 m c;
  '(nodeType, c) ← des_ignore Serialization_deserializeChar 0 m c;
  '(_, idStart) ← of_option nodeID;
  id ← cstring m idStart;
  Done (mkNode id nodeNumID portUDP portTCP nicList nodeType, c).

Fixpoint deserialize_nodes (n : nat) (m : mem) (c : DeserializeCtx) (out : list NodeInfo)
    : outcome (list NodeInfo) :=
  match n with
  | O => Done out
  | S n' => '(node, c') ← deserialize_node m c; deserialize_nodes n' m c' (out ++ [node])
  end.

Definition Serialization_deserializeNodeList (m : mem) (inList : RawList)
    (outNodeList : list NodeInfo) : outcome (list NodeInfo) :=
  deserialize_nodes (Z.to_nat (relemCount inList)) m
    (mkDes (rdata inList) (u64 (-1))) outNodeList.

(** ** String lists and vectors

    An element is the byte string without its terminator; in memory the
    terminating zero follows it. *)

Definition serialize_str_elem (currentElem : mem) : Ser := fun m c =>
  len ← strlen (currentElem ++ [0]) 0;
  let serialElemLen := u32 (len + 1) in
  Serialization_serializeBlock (currentElem ++ [0]) serialElemLen m c.

Definition Serialization_serializeStrCpyList (list : list mem) : Ser :=
  ser_total_length
    (Serialization_serializeUInt (Z.of_nat (length list)) ;;; ser_each serialize_str_elem list).

Definition Serialization_deserializeStrCpyListPreprocess : Des RawList :=
  outCtx ← __Serialization_deserializeNestedField;
  '(elemCount, outCtx) ← des_on outCtx Serialization_deserializeUInt;
  if negb (elemCount =? 0) then
    '(last, _) ← des_on outCtx (des_peek (dlength outCtx - 1));
    if negb (last =? 0) then des_fail
    else mret (mkRaw (ddata outCtx) (u32 (dlength outCtx)) elemCount)
  else mret (mkRaw (ddata outCtx) (u32 (dlength outCtx)) elemCount).

(** The loop of [deserializeStrCpyList]; [n] is [elemCount - i]. *)
Fixpoint strcpy_loop {C} (append : C -> mem -> outcome C) (n : nat) (m : mem)
    (listStart listBufLen : Z) (out : C) : outcome (bool * C) :=
  match n with
  | O => Done (true, out)
  | S n' =>
      if 0 <? listBufLen then
        elemLen ← strlen m listStart;
        elem ← read_block m listStart elemLen;
        out' ← append out elem;
        strcpy_loop append n' m (listStart + (elemLen + 1)) (u32 (listBufLen - (elemLen + 1))) out'
      else Done (false, out)
  end.

Definition Serialization_deserializeStrCpyList (m : mem) (inList : RawList) (outList : list mem)
    : outcome (bool * list mem) :=
  strcpy_loop list_append (Z.to_nat (relemCount inList)) m (rdata inList) (rlength inList) outList.

Definition Serialization_serializeStrCpyVec (vec : list mem) : Ser :=
  Serialization_serializeStrCpyList vec.
Definition Serialization_deserializeStrCpyVecPreprocess : Des RawList :=
  Serialization_deserializeStrCpyListPreprocess.
Definition Serialization_deserializeStrCpyVec (m : mem) (inList : RawList) (outVec : list mem)
    : outcome (bool * list mem) :=
  strcpy_loop list_append (Z.to_nat (relemCount inList)) m (rdata inList) (rlength inList) outVec.

(** ** Integer lists and vectors *)

(** The checks the integer list preprocessors share; [elemLen] is the unsigned
    size of an element, so the product wraps. *)
Definition int_list_preprocess (elemLen : Z) : Des RawList :=
  outCtx ← __Serialization_deserializeNestedField;
  '(elemCount, outCtx) ← des_on outCtx Serialization_deserializeUInt;
  if negb (dlength outCtx =? u32 (elemCount * elemLen)) then des_fail
  else mret (mkRaw (ddata outCtx) (u32 (dlength outCtx)) elemCount).

Definition Serialization_deserializeUInt8ListPreprocess : Des RawList :=
  int_list_preprocess Serialization_serialLenUInt8.
Definition Serialization_deserializeUInt8List (m : mem) (inList : RawList) (outList : list Z)
    : outcome (bool * list Z) :=
  des_elems Serialization_deserializeUInt8 list_append (Z.to_nat (relemCount inList)) m
    (mkDes (rdata inList) (rlength inList)) outList.
Definition Serialization_deserializeUInt8VecPreprocess : Des RawList :=
  Serialization_deserializeUInt8ListPreprocess.
Definition Serialization_deserializeUInt8Vec (m : mem) (inList : RawList) (outVec : Vec)
    : outcome (bool * Vec) :=
  des_elems Serialization_deserializeUInt8 UInt8Vec_append (Z.to_nat (relemCount inList)) m
    (mkDes (rdata inList) (rlength inList)) outVec.

Definition Serialization_serializeUInt16List (list : list Z) : Ser :=
  let listSize := u32 (Z.of_nat (length list)) in
  ser_total_length
    (Serialization_serializeUInt listSize ;;;
     ser_each Serialization_serializeUShort (take (Z.to_nat listSize) list)).
Definition Serialization_deserializeUInt16ListPreprocess : Des RawList :=
  int_list_preprocess Serialization_serialLenUShort.
Definition Serialization_deserializeUInt16List (m : mem) (inList : RawList) (outList : list Z)
    : outcome (bool * list Z) :=
  des_elems Serialization_deserializeUShort list_append (Z.to_nat (relemCount inList)) m
    (mkDes (rdata inList) (rlength inList)) outList.
Definition Serialization_serializeUInt16Vec (vec : Vec) : Ser :=
  Serialization_serializeUInt16List (vlist vec).
Definition Serialization_deserializeUInt16VecPreprocess : Des RawList :=
  Serialization_deserializeUInt16ListPreprocess.
Definition Serialization_deserializeUInt16Vec (m : mem) (inList : RawList) (outVec : Vec)
    : outcome (bool * Vec) :=
  des_elems Serialization_deserializeUShort UInt16Vec_append (Z.to_nat (relemCount inList)) m
    (mkDes (rdata inList) (rlength inList)) outVec.

Definition Serialization_serializeInt64CpyList (list : list Z) : Ser :=
  let listSize := u32 (Z.of_nat (length list)) in
  ser_total_length
    (Serialization_serializeUInt listSize ;;;
     ser_each Serialization_serializeInt64 (take (Z.to_nat listSize) list)).
Definition Serialization_deserializeInt64CpyListPreprocess : Des RawList :=
  int_list_preprocess Serialization_serialLenInt64.
Definition Serialization_deserializeInt64CpyList (m : mem) (inList : RawList) (outList : list Z)
    : outcome (bool * list Z) :=
  des_elems Serialization_deserializeInt64 list_append (Z.to_nat (relemCount inList)) m
    (mkDes (rdata inList) (rlength inList)) outList.
Definition Serialization_serializeInt64CpyVec (vec : list Z) : Ser :=
  Serialization_serializeInt64CpyList vec.
Definition Serialization_deserializeInt64CpyVecPreprocess : Des RawList :=
  Serialization_deserializeInt64CpyListPreprocess.
Definition Serialization_deserializeInt64CpyVec (m : mem) (inList : RawList) (outVec : list Z)
    : outcome (bool * list Z) :=
  des_elems Serialization_deserializeInt64 list_append (Z.to_nat (relemCount inList)) m
    (mkDes (rdata inList) (rlength inList)) outVec.

(** ** SERDES_DEFINE_LIST_SERIALIZERS

    [HasLength] decides whether a total-length field comes first.  [kmalloc_ok i]
    says whether the allocation for the [i]-th element succeeds. *)
Section SERDES_LIST.
Context {Ty : Type} (TypeNS_serialize : Ty -> Ser) (TypeNS_deserialize : Des Ty).
Context (HasLength : bool).

Definition SERDES_list_serialize (list : list Ty) : Ser := fun m c =>
  let ctxAtStart := c in
  '(m, c) ← (if HasLength then Serialization_serializeUInt 0 else ser_skip) m c;
  '(m, c) ← Serialization_serializeUInt 0 m c;
  '(m, c) ← ser_each TypeNS_serialize list m c;
  let items := u32 (Z.of_nat (length list)) in
  '(m, ctxAtStart) ←
    (if HasLength then Serialization_serializeUInt (u32 (slength c - slength ctxAtStart))
     else ser_skip) m ctxAtStart;
  '(m, _) ← Serialization_serializeUInt items m ctxAtStart;
  Done (m, c).

Fixpoint SERDES_list_items (kmalloc_ok : nat -> bool) (i n : nat) : Des (list Ty) :=
  match n with
  | O => mret []
  | S n' =>
      if kmalloc_ok i then
        entry ← TypeNS_deserialize;
        rest ← SERDES_list_items kmalloc_ok (S i) n';
        mret (entry :: rest)
      else des_fail
  end.

Definition SERDES_list_deserialize (kmalloc_ok : nat -> bool) (list0 : list Ty) : Des (list Ty) :=
  if HasLength then
    innerCtx ← __Serialization_deserializeNestedField;
    '(desItems, _) ← des_on innerCtx
       (items ← Serialization_deserializeUInt; SERDES_list_items kmalloc_ok 0 (Z.to_nat items));
    mret (list0 ++ desItems)
  else
    items ← Serialization_deserializeUInt;
    desItems ← SERDES_list_items kmalloc_ok 0 (Z.to_nat items);
    mret (list0 ++ desItems).
End SERDES_LIST.

(** ** Types.h, Types.c: what the management server pushes to the client *)

Record TargetMapping := mkTM { tmTargetID : Z; tmNodeID : Z }.
Record TargetPoolMapping := mkTPM { tpmTargetID : Z; tpmPoolID : Z }.
Record BuddyGroupMapping := mkBGM { groupID : Z; primaryTargetID : Z; secondaryTargetID : Z }.
Record TargetStateMapping := mkTSM {
  tsTargetID : Z; tsReachabilityState : Z; tsConsistencyState : Z }.

#[export] Instance TargetMapping_eq_dec : EqDecision TargetMapping.
Proof. solve_decision. Defined.
#[export] Instance BuddyGroupMapping_eq_dec : EqDecision BuddyGroupMapping.
Proof. solve_decision. Defined.
#[export] Instance TargetStateMapping_eq_dec : EqDecision TargetStateMapping.
Proof. solve_decision. Defined.

(** The two state enums are sent as one byte each. *)
Definition TargetReachabilityState_serialize (value : Z) : Ser :=
  Serialization_serializeUInt8 (u8 value).
Definition TargetReachabilityState_deserialize : Des Z := Serialization_deserializeUInt8.
Definition TargetConsistencyState_serialize (value : Z) : Ser :=
  Serialization_serializeUInt8 (u8 value).
Definition TargetConsistencyState_deserialize : Des Z := Serialization_deserializeUInt8.

Definition TargetMapping_serialize (v : TargetMapping) : Ser :=
  Serialization_serializeUShort (tmTargetID v) ;;; NumNodeID_serialize (tmNodeID v).
Definition TargetMapping_deserialize : Des TargetMapping :=
  t ← Serialization_deserializeUShort; n ← NumNodeID_deserialize; mret (mkTM t n).
Definition TargetMappingList_serialize := SERDES_list_serialize TargetMapping_serialize false.
Definition TargetMappingList_deserialize := SERDES_list_deserialize TargetMapping_deserialize false.

Definition TargetPoolMapping_serialize (v : TargetPoolMapping) : Ser :=
  Serialization_serializeUShort (tpmTargetID v) ;;; StoragePoolId_serialize (tpmPoolID v).
Definition TargetPoolMapping_deserialize : Des TargetPoolMapping :=
  t ← Serialization_deserializeUShort; p ← StoragePoolId_deserialize; mret (mkTPM t p).
Definition TargetPoolMappingList_serialize :=
  SERDES_list_serialize TargetPoolMapping_serialize false.
Definition TargetPoolMappingList_deserialize :=
  SERDES_list_deserialize TargetPoolMapping_deserialize false.

Definition BuddyGroupMapping_serialize (v : BuddyGroupMapping) : Ser :=
  Serialization_serializeUShort (groupID v) ;;;
  Serialization_serializeUShort (primaryTargetID v) ;;;
  Serialization_serializeUShort (secondaryTargetID v).
Definition BuddyGroupMapping_deserialize : Des BuddyGroupMapping :=
  g ← Serialization_deserializeUShort; p ← Serialization_deserializeUShort;
  s ← Serialization_deserializeUShort; mret (mkBGM g p s).
Definition BuddyGroupMappingList_serialize :=
  SERDES_list_serialize BuddyGroupMapping_serialize false.
Definition BuddyGroupMappingList_deserialize :=
  SERDES_list_deserialize BuddyGroupMapping_deserialize false.

Definition TargetStateMapping_serialize (v : TargetStateMapping) : Ser :=
  Serialization_serializeUShort (tsTargetID v) ;;;
  TargetReachabilityState_serialize (tsReachabilityState v) ;;;
  TargetConsistencyState_serialize (tsConsistencyState v).
Definition TargetStateMapping_deserialize : Des TargetStateMapping :=
  t ← Serialization_deserializeUShort; r ← TargetReachabilityState_deserialize;
  c ← TargetConsistencyState_deserialize; mret (mkTSM t r c).
Definition TargetStateMappingList_serialize :=
  SERDES_list_serialize TargetStateMapping_serialize false.
Definition TargetStateMappingList_deserialize :=
  SERDES_list_deserialize TargetStateMapping_deserialize false.

#[global] Typeclasses Opaque ser_total_length ser_each serialize_nic serialize_str_elem
  Serialization_serializeNicList Serialization_serializeStrCpyList
  Serialization_serializeUInt16List Serialization_serializeInt64CpyList
  SERDES_list_serialize NumNodeID_serialize StoragePoolId_serialize
  TargetReachabilityState_serialize TargetConsistencyState_serialize
  TargetMapping_serialize TargetPoolMapping_serialize BuddyGroupMapping_serialize
  TargetStateMapping_serialize.

(** ** Encodings *)

Fixpoint enc_each {A} (e : A -> mem) (l : list A) : mem :=
  match l with [] => [] | x :: l' => e x ++ enc_each e l' end.

Definition enc_list {A} (e : A -> mem) (l : list A) : mem :=
  le_split 4 (Z.of_nat (length l)) ++ enc_each e l.

Lemma mlen_enc_each {A} (e : A -> mem) k (l : list A) :
  (forall x, mlen (e x) = k) -> mlen (enc_each e l) = k * Z.of_nat (length l).
Proof.
  intros H. induction l as [|x l IH]; simpl; [rewrite mlen_nil; lia|].
  rewrite mlen_app, H, IH. lia.
Qed.

Lemma writes_each {A} (s : A -> Ser) (e : A -> mem) (l : list A) :
  (forall x, x ∈ l -> Writes (s x) (e x)) -> Writes (ser_each s l) (enc_each e l).
Proof.
  induction l as [|x l IH]; intros H; simpl; [apply _|].
  apply writes_seq; [apply H; by left|]. apply IH. intros. apply H. by right.
Qed.

Lemma writes_total_length body e :
  Writes body e -> Writes (ser_total_length body) (enc_nested e).
Proof.
  intros Hb. pose proof (writes_seq _ _ _ _ (writes_uint 0) Hb) as Hs.
  pose proof (mlen_nonneg e).
  assert (El : mlen (le_split 4 0 ++ e) = mlen (enc_nested e)).
  { unfold enc_nested. by rewrite !mlen_app, !mlen_le4. }
  split; intros; unfold ser_total_length.
  - rewrite (writes_dry (Writes := Hs)) by done. cfs_simpl.
    rewrite (writes_dry (s := Serialization_serializeUInt _)) by done. cfs_simpl. by rewrite El.
  - rewrite (writes_buf (Writes := Hs)) by (rewrite ?El; lia). cfs_simpl.
    assert (mlen (enc_nested e) = mlen e + 4) as En
      by (unfold enc_nested; rewrite mlen_app, mlen_le4; lia).
    rewrite (writes_buf (s := Serialization_serializeUInt _))
      by (rewrite ?mlen_le4, ?mlen_put by lia; lia). cfs_simpl.
    rewrite put_prefix by (rewrite ?El, ?mlen_le4; lia).
    rewrite El, En. replace (len + (mlen e + 4) - len) with (mlen e + 4) by lia.
    by rewrite u32_id by lia.
Qed.

Lemma writes_int_list (s : Z -> Ser) (e : Z -> mem) l :
  (forall x, Writes (s x) (e x)) -> Z.of_nat (length l) < 2 ^ 32 ->
  Writes (let listSize := u32 (Z.of_nat (length l)) in
          ser_total_length (Serialization_serializeUInt listSize ;;;
                            ser_each s (take (Z.to_nat listSize) l)))
         (enc_nested (enc_list e l)).
Proof.
  intros Hs Hl. cbv zeta. rewrite u32_id, Nat2Z.id, firstn_all by lia.
  apply writes_total_length, writes_seq; [apply _|]. apply writes_each. auto.
Qed.

Definition enc_cstr (s : mem) : mem := s ++ [0].

Definition no_zero (s : mem) : Prop := Forall (fun b => b <> 0) s.

Lemma writes_str_elem s :
  no_zero s -> mlen s + 1 < 2 ^ 32 -> Writes (serialize_str_elem s) (enc_cstr s).
Proof.
  intros Hz Hs. pose proof (mlen_nonneg s).
  assert (E : strlen (s ++ [0]) 0 = Done (mlen s))
    by (unfold strlen; simpl; by rewrite drop_0, strlen_list_app).
  pose proof (writes_block_all (s ++ [0]) (u32 (mlen s + 1))) as [Hd Hb].
  { rewrite mlen_app, mlen_cons, mlen_nil, u32_id by lia. lia. }
  split; intros; unfold serialize_str_elem; rewrite E; simpl; auto.
Qed.

Lemma writes_strcpylist l :
  Forall (fun s => no_zero s /\ mlen s + 1 < 2 ^ 32) l -> Z.of_nat (length l) < 2 ^ 32 ->
  Writes (Serialization_serializeStrCpyList l) (enc_nested (enc_list enc_cstr l)).
Proof.
  intros Hf Hl. apply writes_total_length, writes_seq; [apply _|].
  apply writes_each. intros s Hs. rewrite Forall_forall in Hf.
  destruct (Hf s Hs). by apply writes_str_elem.
Qed.

(** ** Reading lists back *)

Lemma des_on_run {A B} (o : DeserializeCtx) (d : Des A) (f : A * DeserializeCtx -> Des B) m c a o' :
  d m o = Done (Some a, o') -> (des_on o d ≫= f) m c = f (a, o') m c.
Proof. intros H. unfold mbind, Des_bind, des_on. by rewrite H. Qed.

(** [holds m p bs]: the message has [bs] at address [p]. *)
Definition holds (m : mem) (p : Z) (bs : mem) : Prop :=
  0 <= p /\ p + mlen bs <= mlen m /\ slice m p (mlen bs) = bs.

Lemma holds_app m p x y : holds m p (x ++ y) <-> holds m p x /\ holds m (p + mlen x) y.
Proof.
  unfold holds. pose proof (mlen_nonneg x). pose proof (mlen_nonneg y). split.
  - intros (Hp & Hl & Hs). destruct (slice_app_inv m p x y) as [H1 H2]; [done..|].
    rewrite mlen_app in Hl. split_and!; done || lia.
  - intros ((Hp & Hl & Hs) & (Hp' & Hl' & Hs')). rewrite mlen_app. split_and!; [done|lia|].
    rewrite slice_add by lia. by rewrite Hs, Hs'.
Qed.

Lemma holds_reads {A} (d : Des A) e r m p n :
  Reads d e r -> holds m p e -> mlen e <= n < 2 ^ 64 ->
  d m (mkDes p n) = Done (Some (r p), mkDes (p + mlen e) (n - mlen e)).
Proof. intros Hr (Hp & Hl & Hs) Hn. by apply reads. Qed.

(** Reading back [l] element by element into a container: [I out pre] says that
    the container holds [pre]; [full] is the whole list it will hold. *)
Lemma des_elems_roundtrip {A C} (d : Des A) (app : C -> A -> outcome C) (e : A -> mem)
    (I : C -> list A -> Prop) full l out pre m p n :
  (forall x, x ∈ l -> Reads d (e x) (fun _ => x)) ->
  (forall out pre x post, full = pre ++ x :: post -> I out pre ->
     exists out', app out x = Done out' /\ I out' (pre ++ [x])) ->
  full = pre ++ l -> I out pre ->
  holds m p (enc_each e l) -> mlen (enc_each e l) <= n < 2 ^ 64 ->
  exists out', des_elems d app (length l) m (mkDes p n) out = Done (true, out') /\ I out' full.
Proof.
  intros Hr Happ. revert out pre p n Hr.
  induction l as [|x l IH]; intros out pre p n Hr Hfull HI Hh Hn; simpl in *.
  - exists out. by rewrite Hfull, app_nil_r.
  - apply holds_app in Hh as [Hx Hh]. rewrite mlen_app in Hn.
    pose proof (mlen_nonneg (enc_each e l)). pose proof (mlen_nonneg (e x)).
    rewrite (holds_reads d (e x) (fun _ => x)) by (first [apply Hr; by left|done|lia]).
    destruct (Happ out pre x l) as (out' & -> & HI'); [done..|]. cfs_simpl.
    apply (IH out' (pre ++ [x])); [|by rewrite <- app_assoc|done|done|lia].
    intros. apply Hr. by right.
Qed.

(** A preprocessor that opens a nested field and reads its element count. *)
Lemma nested_count_step {B} (f : Z -> DeserializeCtx -> Des B) cnt body m p n :
  in_u 32 cnt -> mlen body + 8 < 2 ^ 32 ->
  holds m p (enc_nested (le_split 4 cnt ++ body)) -> mlen body + 8 <= n < 2 ^ 64 ->
  (outCtx ← __Serialization_deserializeNestedField;
   '(elemCount, outCtx) ← des_on outCtx Serialization_deserializeUInt;
   f elemCount outCtx) m (mkDes p n) =
  f cnt (mkDes (p + 8) (mlen body)) m (mkDes (p + (mlen body + 8)) (n - (mlen body + 8))).
Proof.
  intros Hc Hb Hh Hn. pose proof (mlen_nonneg body).
  assert (E1 : mlen (le_split 4 cnt ++ body) = mlen body + 4) by (rewrite mlen_app, mlen_le4; lia).
  assert (E2 : mlen (enc_nested (le_split 4 cnt ++ body)) = mlen body + 8)
    by (unfold enc_nested; rewrite mlen_app, mlen_le4, E1; lia).
  unfold mbind at 1, Des_bind at 1.
  rewrite (holds_reads _ _ _ _ _ _ (reads_nested (le_split 4 cnt ++ body) ltac:(lia)) Hh)
    by lia.
  unfold enc_nested in Hh. apply holds_app in Hh as [_ Hh]. rewrite mlen_le4 in Hh.
  apply holds_app in Hh as [Hh _].
  erewrite des_on_run by (apply (holds_reads _ _ _ _ _ _ (reads_uint cnt Hc) Hh);
    rewrite mlen_le4, E1; lia).
  rewrite E1, E2, mlen_le4. cbv beta iota.
  by replace (p + 4 + 4) with (p + 8) by lia; replace (mlen body + 4 - 4) with (mlen body) by lia.
Qed.

Lemma reads_int_list_preprocess k cnt body :
  in_u 32 cnt -> mlen body = cnt * k -> mlen body + 8 < 2 ^ 32 ->
  Reads (int_list_preprocess k) (enc_nested (le_split 4 cnt ++ body))
        (fun p => mkRaw (p + 8) (mlen body) cnt).
Proof.
  intros Hc Hk Hb. pose proof (mlen_nonneg body).
  assert (E2 : mlen (enc_nested (le_split 4 cnt ++ body)) = mlen body + 8)
    by (unfold enc_nested; rewrite !mlen_app, !mlen_le4; lia).
  split. intros m p n Hp Hs Hl Hn. rewrite E2 in *.
  unfold int_list_preprocess.
  rewrite (nested_count_step _ cnt body) by (unfold holds; rewrite ?E2; done || lia).
  cbn [dlength ddata]. rewrite <- Hk, !u32_id by lia. rewrite Z.eqb_refl. done.
Qed.

Lemma enc_cstrs_end l : l <> [] -> exists pre, enc_each enc_cstr l = pre ++ [0].
Proof.
  destruct l as [|s l _] using rev_ind; [done|]. intros _.
  induction l as [|t l [pre IH]]; simpl.
  - exists s. unfold enc_cstr. by rewrite app_nil_r.
  - exists (enc_cstr t ++ pre). by rewrite IH, app_assoc.
Qed.

Lemma reads_strcpylist_preprocess l :
  Z.of_nat (length l) < 2 ^ 32 -> mlen (enc_each enc_cstr l) + 8 < 2 ^ 32 ->
  Reads Serialization_deserializeStrCpyListPreprocess (enc_nested (enc_list enc_cstr l))
        (fun p => mkRaw (p + 8) (mlen (enc_each enc_cstr l)) (Z.of_nat (length l))).
Proof.
  intros Hc Hb. unfold enc_list. pose proof (mlen_nonneg (enc_each enc_cstr l)).
  pose proof (enc_cstrs_end l) as Hend. remember (enc_each enc_cstr l) as body eqn:Eb.
  assert (E2 : mlen (enc_nested (le_split 4 (Z.of_nat (length l)) ++ body)) = mlen body + 8)
    by (unfold enc_nested; rewrite !mlen_app, !mlen_le4; lia).
  split. intros m p n Hp Hs Hl Hn.
  assert (Hh : holds m p (enc_nested (le_split 4 (Z.of_nat (length l)) ++ body))) by done.
  rewrite E2 in *. unfold Serialization_deserializeStrCpyListPreprocess.
  rewrite (nested_count_step _ (Z.of_nat (length l)) body) by (unfold in_u; done || lia).
  cbn [dlength ddata]. rewrite !u32_id by lia.
  destruct (Z.eqb_spec (Z.of_nat (length l)) 0) as [|Hne]; [done|]. cbn [negb].
  destruct Hend as [pre Hpre]; [by intros ->|].
  unfold enc_nested in Hh. apply holds_app in Hh as [_ Hh]. apply holds_app in Hh as [_ Hh].
  rewrite !mlen_le4, Hpre in Hh. apply holds_app in Hh as [_ (Hq & Hql & Hz)].
  assert (Hlen : mlen body = mlen pre + 1) by (rewrite Hpre, mlen_app; done).
  erewrite des_on_run.
  2: { unfold des_peek. cbn [ddata]. rewrite Hlen.
       replace (p + 8 + (mlen pre + 1 - 1)) with (p + 4 + 4 + mlen pre) by lia.
       rewrite (read8_slice m _ 0 []) by done. reflexivity. }
  done.
Qed.

Lemma strlen_holds m p s : holds m p (enc_cstr s) -> no_zero s -> strlen m p = Done (mlen s).
Proof.
  intros (Hp & Hl & Hs) Hz. unfold strlen. rewrite (proj2 (Z.leb_le _ _)) by lia.
  assert (E : drop (Z.to_nat p) m = s ++ 0 :: drop (length (enc_cstr s)) (drop (Z.to_nat p) m)).
  { unfold slice, mlen in Hs. rewrite Nat2Z.id in Hs.
    rewrite <- (take_drop (length (enc_cstr s)) (drop (Z.to_nat p) m)) at 1.
    rewrite Hs. unfold enc_cstr. by rewrite <- app_assoc. }
  by rewrite E, strlen_list_app.
Qed.

Lemma strcpy_loop_roundtrip l m p out :
  Forall no_zero l -> holds m p (enc_each enc_cstr l) -> mlen (enc_each enc_cstr l) < 2 ^ 32 ->
  strcpy_loop list_append (length l) m p (mlen (enc_each enc_cstr l)) out = Done (true, out ++ l).
Proof.
  revert p out. induction l as [|s l IH]; intros p out Hz Hh Hb; simpl in *.
  - by rewrite app_nil_r.
  - inversion Hz as [|? ? Hzs Hzl]; subst. apply holds_app in Hh as [Hs Hh].
    rewrite mlen_app in *. pose proof (mlen_nonneg (enc_each enc_cstr l)).
    pose proof (mlen_nonneg s).
    assert (Es : mlen (enc_cstr s) = mlen s + 1) by (unfold enc_cstr; rewrite mlen_app; done).
    rewrite Es in *. destruct (Z.ltb_spec 0 (mlen s + 1 + mlen (enc_each enc_cstr l))); [|lia].
    rewrite (strlen_holds m p s) by done. cfs_simpl.
    unfold enc_cstr in Hs. apply holds_app in Hs as [(Hp & Hl & Hs) _].
    rewrite read_block_Done by lia. cfs_simpl. rewrite Hs. unfold list_append at 1. cfs_simpl.
    replace (mlen s + 1 + mlen (enc_each enc_cstr l) - (mlen s + 1))
      with (mlen (enc_each enc_cstr l)) by lia.
    rewrite u32_id by lia. rewrite IH by (done || lia). by rewrite <- app_assoc.
Qed.


(** Everything an integer list needs for its round trip, for any element type
    and any container [I] describes. *)
Lemma int_list_roundtrip (s : Z -> Ser) (d : Des Z) (e : Z -> mem) k l m b len n :
  (forall x, Writes (s x) (e x)) -> (forall x, x ∈ l -> Reads d (e x) (fun _ => x)) ->
  (forall x, mlen (e x) = k) -> 0 <= k ->
  let listSize := u32 (Z.of_nat (length l)) in
  let ser := ser_total_length (Serialization_serializeUInt listSize ;;;
                               ser_each s (take (Z.to_nat listSize) l)) in
  let sz := k * Z.of_nat (length l) + 8 in
  0 <= b -> 0 <= len -> Z.of_nat (length l) < 2 ^ 32 -> len + sz < 2 ^ 32 ->
  b + len + sz <= mlen m -> sz <= n < 2 ^ 64 ->
  exists m' raw,
    ser m (mkSer (Some b) len) = Done (m', mkSer (Some b) (len + sz)) /\
    int_list_preprocess k m' (mkDes (b + len) n) =
      Done (Some raw, mkDes (b + len + sz) (n - sz)) /\
    forall C (app : C -> Z -> outcome C) (I : C -> list Z -> Prop) out,
      (forall out pre x post, l = pre ++ x :: post -> I out pre ->
         exists out', app out x = Done out' /\ I out' (pre ++ [x])) ->
      I out [] ->
      exists out',
        des_elems d app (Z.to_nat (relemCount raw)) m' (mkDes (rdata raw) (rlength raw)) out =
          Done (true, out') /\ I out' l.
Proof.
  intros Hw Hr Hk Hk0 listSize ser sz Hb Hl Hc Hf Hm Hn.
  pose proof (mlen_enc_each e k l Hk) as He.
  assert (El : mlen (enc_nested (enc_list e l)) = sz)
    by (unfold enc_nested, enc_list; rewrite !mlen_app, !mlen_le4, He; subst sz; lia).
  pose proof (writes_int_list s e l Hw Hc) as HW. fold listSize in HW.
  pose proof (reads_int_list_preprocess k (Z.of_nat (length l)) (enc_each e l)) as HR.
  destruct (writes_reads_roundtrip _ _ _ _ HW (HR ltac:(unfold in_u; lia) ltac:(lia)
     ltac:(subst sz; lia)) m b len n) as (m' & E1 & Es & Em & E2); [lia..|].
  rewrite El in *.
  assert (Hh : holds m' (b + len) (enc_nested (enc_list e l)))
    by (unfold holds; rewrite El; split_and!; [lia|lia|done]).
  unfold enc_nested, enc_list in Hh. apply holds_app in Hh as [_ Hh].
  apply holds_app in Hh as [_ Hh]. rewrite !mlen_le4 in Hh.
  exists m', (mkRaw (b + len + 8) (mlen (enc_each e l)) (Z.of_nat (length l))).
  split_and!; [done..|]. intros C app I out Happ HI. cfs_simpl. rewrite Nat2Z.id.
  replace (b + len + 8) with (b + len + 4 + 4) by lia.
  apply (des_elems_roundtrip d app e I l l out []); [done..|lia].
Qed.

Lemma list_append_holds {A} (l : list A) out (pre : list A) x post :
  l = pre ++ x :: post -> out = pre ->
  exists out', list_append out x = Done out' /\ out' = pre ++ [x].
Proof. intros _ ->. by eexists. Qed.

Lemma vec_append_holds (l : list Z) out pre x post :
  Z.of_nat (length l) < 2 ^ 32 -> l = pre ++ x :: post -> vec_wf out /\ vlist out = pre ->
  exists out', UInt16Vec_append out x = Done out' /\ vec_wf out' /\ vlist out' = pre ++ [x].
Proof.
  intros Hl -> [Hw <-]. rewrite length_app in Hl. apply append_wf; [done|lia].
Qed.

(** Lists of 16-bit ids survive the wire.  What [serializeUInt16List] wrote
    passes the preprocessing and is rebuilt element by element, both as a list
    and as a vector whose array mirrors it. *)
Theorem uint16_list_roundtrip (l m : mem) (b len n : Z) :
  let sz := 2 * Z.of_nat (length l) + 8 in
  Forall (in_u 16) l -> 0 <= b -> 0 <= len -> len + sz < 2 ^ 32 -> b + len + sz <= mlen m ->
  sz <= n < 2 ^ 64 ->
  exists m' raw v,
    Serialization_serializeUInt16List l m (mkSer (Some b) len) =
      Done (m', mkSer (Some b) (len + sz)) /\
    Serialization_deserializeUInt16VecPreprocess m' (mkDes (b + len) n) =
      Done (Some raw, mkDes (b + len + sz) (n - sz)) /\
    Serialization_deserializeUInt16List m' raw [] = Done (true, l) /\
    Serialization_deserializeUInt16Vec m' raw UInt16Vec_init = Done (true, v) /\
    vec_wf v /\ vlist v = l.
Proof.
  intros sz Hl Hb Hlen Hf Hm Hn. rewrite Forall_forall in Hl.
  destruct (int_list_roundtrip _ _ (le_split 2) 2 l m b len n writes_ushort
    (fun x Hx => reads_ushort x (Hl x Hx)) mlen_le2) as (m' & raw & E1 & E2 & E3); [lia..|].
  destruct (E3 _ list_append (fun out pre => out = pre) [] (list_append_holds l) eq_refl)
    as (? & F1 & ->).
  destruct (E3 _ UInt16Vec_append (fun out pre => vec_wf out /\ vlist out = pre) UInt16Vec_init)
    as (v & F2 & Hw & Hv).
  { intros. apply (vec_append_holds l) with post; auto; lia. }
  { split; [apply vec_wf_init|done]. }
  exists m', raw, v. done.
Qed.

Lemma uint16_list_roundtrip_witness : exists m' raw v,
  Serialization_serializeUInt16List [7; 65535; 1] (replicate 20 0) (mkSer (Some 0) 2) =
    Done (m', mkSer (Some 0) 16) /\
  Serialization_deserializeUInt16Vec m' raw UInt16Vec_init = Done (true, v) /\
  vlist v = [7; 65535; 1].
Proof.
  destruct (uint16_list_roundtrip [7; 65535; 1] (replicate 20 0) 0 2 14
    ltac:(by repeat constructor) ltac:(lia) ltac:(lia) ltac:(by vm_compute) ltac:(by vm_compute)
    ltac:(by vm_compute)) as (m' & raw & v & E1 & _ & _ & E2 & _ & E3).
  exists m', raw, v. split_and!; [exact E1|exact E2|exact E3].
Defined.

(** Lists of 64-bit offsets survive the wire, negative offsets included. *)
Theorem int64_list_roundtrip (l m : mem) (b len n : Z) :
  let sz := 8 * Z.of_nat (length l) + 8 in
  Forall (in_s 64) l -> 0 <= b -> 0 <= len -> len + sz < 2 ^ 32 -> b + len + sz <= mlen m ->
  sz <= n < 2 ^ 64 ->
  exists m' raw,
    Serialization_serializeInt64CpyList l m (mkSer (Some b) len) =
      Done (m', mkSer (Some b) (len + sz)) /\
    Serialization_deserializeInt64CpyListPreprocess m' (mkDes (b + len) n) =
      Done (Some raw, mkDes (b + len + sz) (n - sz)) /\
    Serialization_deserializeInt64CpyList m' raw [] = Done (true, l).
Proof.
  intros sz Hl Hb Hlen Hf Hm Hn. rewrite Forall_forall in Hl.
  destruct (int_list_roundtrip _ _ (fun x => le_split 8 (u64 x)) 8 l m b len n writes_int64
    (fun x Hx => reads_int64 x (Hl x Hx)) (fun x => mlen_le8 (u64 x)))
    as (m' & raw & E1 & E2 & E3); [lia..|].
  destruct (E3 _ list_append (fun out pre => out = pre) [] (list_append_holds l) eq_refl)
    as (? & F1 & ->).
  exists m', raw. done.
Qed.

Lemma int64_list_roundtrip_witness : exists m' raw,
  Serialization_deserializeInt64CpyList m' raw [] = Done (true, [-5; 2 ^ 40]).
Proof.
  destruct (int64_list_roundtrip [-5; 2 ^ 40] (replicate 30 0) 0 0 24
    ltac:(by repeat constructor) ltac:(lia) ltac:(lia) ltac:(by vm_compute) ltac:(by vm_compute)
    ltac:(by vm_compute)) as (m' & raw & _ & _ & E).
  exists m', raw. exact E.
Defined.

(** String lists survive the wire.  A list of zero-free strings written by
    [serializeStrCpyList] passes the preprocessing and is rebuilt string by
    string; the dry run computes the length that is written. *)
Theorem strcpy_list_roundtrip (l : list mem) (m : mem) (b len n : Z) :
  let sz := mlen (enc_each enc_cstr l) + 8 in
  Forall no_zero l -> Z.of_nat (length l) < 2 ^ 32 ->
  0 <= b -> 0 <= len -> len + sz < 2 ^ 32 -> b + len + sz <= mlen m -> sz <= n < 2 ^ 64 ->
  Serialization_serializeStrCpyList l m (mkSer None len) = Done (m, mkSer None (len + sz)) /\
  exists m' raw,
    Serialization_serializeStrCpyList l m (mkSer (Some b) len) =
      Done (m', mkSer (Some b) (len + sz)) /\
    Serialization_deserializeStrCpyListPreprocess m' (mkDes (b + len) n) =
      Done (Some raw, mkDes (b + len + sz) (n - sz)) /\
    Serialization_deserializeStrCpyList m' raw [] = Done (true, l).
Proof.
  intros sz Hz Hc Hb Hl Hf Hm Hn. pose proof (mlen_nonneg (enc_each enc_cstr l)).
  assert (El : mlen (enc_nested (enc_list enc_cstr l)) = sz)
    by (unfold enc_nested, enc_list; rewrite !mlen_app, !mlen_le4; subst sz; lia).
  assert (Hs : Forall (fun s => no_zero s /\ mlen s + 1 < 2 ^ 32) l).
  { clear -Hz Hf Hl. subst sz. induction Hz as [|s l Hs Hz IH]; constructor; simpl in *;
      rewrite mlen_app in Hf; unfold enc_cstr in Hf at 1;
      pose proof (mlen_nonneg (enc_each enc_cstr l)).
    - split; [done|]. rewrite mlen_app, mlen_cons, mlen_nil in Hf. lia.
    - apply IH. pose proof (mlen_nonneg (s ++ [0])). lia. }
  pose proof (writes_strcpylist l Hs Hc) as HW.
  destruct (writes_reads_roundtrip _ _ _ _ HW (reads_strcpylist_preprocess l Hc ltac:(lia))
    m b len n) as (m' & E1 & Es & Em & E2); [lia..|]. rewrite El in *.
  assert (Hh : holds m' (b + len) (enc_nested (enc_list enc_cstr l)))
    by (unfold holds; rewrite El; split_and!; [lia|lia|done]).
  unfold enc_nested, enc_list in Hh. apply holds_app in Hh as [_ Hh].
  apply holds_app in Hh as [_ Hh]. rewrite !mlen_le4 in Hh.
  split.
  - rewrite (writes_dry (Writes := HW)) by (unfold in_u; lia). by rewrite El, u32_id by lia.
  - exists m', (mkRaw (b + len + 8) (mlen (enc_each enc_cstr l)) (Z.of_nat (length l))).
    split_and!; [done..|]. unfold Serialization_deserializeStrCpyList. cfs_simpl.
    rewrite Nat2Z.id. replace (b + len + 8) with (b + len + 4 + 4) by lia.
    by rewrite strcpy_loop_roundtrip by (done || lia).
Qed.

Lemma strcpy_list_roundtrip_witness : exists m' raw,
  Serialization_deserializeStrCpyList m' raw [] = Done (true, [[97]; []; [98; 99]]).
Proof.
  destruct (strcpy_list_roundtrip [[97]; []; [98; 99]] (replicate 20 0) 0 0 14
    ltac:(unfold no_zero; repeat constructor; done) ltac:(by vm_compute) ltac:(lia) ltac:(lia)
    ltac:(by vm_compute) ltac:(by vm_compute) ltac:(by vm_compute)) as (_ & m' & raw & _ & _ & E).
  exists m', raw. exact E.
Defined.

(** ** Safety on arbitrary messages *)

(** What a preprocessor guarantees about the raw list it hands on. *)
Definition raw_in (m : mem) (r : RawList) : Prop :=
  in_msg m (rdata r) (rlength r) /\ in_u 32 (rlength r) /\ in_u 32 (relemCount r).

Lemma wp_on {A B} (o : DeserializeCtx) (d : Des A) (f : A * DeserializeCtx -> Des B) m c Q :
  0 <= dlength c ->
  wp d m o (fun a o' => wp (f (a, o')) m c Q) -> wp (des_on o d ≫= f) m c Q.
Proof.
  intros Hc (r & o' & E & L & H). unfold wp, mbind, Des_bind, des_on. rewrite E.
  destruct r as [a|].
  - exact (H a eq_refl).
  - exists None, c. split_and!; [done|unfold ctx_le; lia|done].
Qed.

Lemma wp_int_list_preprocess k m c (Q : RawList -> DeserializeCtx -> Prop) :
  msg_wf m -> ctx_wf m c ->
  (forall r c', raw_in m r -> rlength r = u32 (relemCount r * k) -> ctx_wf m c' -> Q r c') ->
  wp (int_list_preprocess k) m c Q.
Proof.
  intros Hm Hc HQ. apply wp_bind, wp_nested; [done..|].
  intros o c' Ho He Ho4 Hol Hc' _. apply wp_on; [ctx_lia|].
  apply wp_uint; [done..|]. intros cnt H4 Hcnt. cbv beta iota. cfs_simpl.
  destruct (Z.eqb_spec (dlength o - 4) (u32 (cnt * k))) as [E|E]; simpl;
    [|apply wp_fail; ctx_lia].
  apply wp_ret; [ctx_lia|]. apply HQ; [|simpl; rewrite u32_id; ctx_lia|done].
  unfold raw_in, in_msg. simpl. rewrite u32_id by ctx_lia. ctx_lia.
Qed.

Lemma wp_strcpylist_preprocess m c (Q : RawList -> DeserializeCtx -> Prop) :
  msg_wf m -> ctx_wf m c ->
  (forall r c', raw_in m r -> ctx_wf m c' ->
     (relemCount r = 0 \/ rlength r = 0 \/ read8 m (rdata r + rlength r - 1) = Done 0) -> Q r c') ->
  wp Serialization_deserializeStrCpyListPreprocess m c Q.
Proof.
  intros Hm Hc HQ. apply wp_bind, wp_nested; [done..|].
  intros o c' Ho He Ho4 Hol Hc' _. apply wp_on; [ctx_lia|].
  apply wp_uint; [done..|]. intros cnt H4 Hcnt. cbv beta iota. cfs_simpl.
  assert (Hr : raw_in m (mkRaw (ddata o + 4) (u32 (dlength o - 4)) cnt)).
  { unfold raw_in, in_msg. simpl. rewrite u32_id by ctx_lia. ctx_lia. }
  assert (El : u32 (dlength o - 4) = dlength o - 4) by (apply u32_id; ctx_lia).
  destruct (Z.eqb_spec cnt 0) as [->|Hne]; cbn [negb].
  - apply wp_ret; [ctx_lia|]. apply HQ; auto.
  - apply wp_on; [ctx_lia|]. apply wp_peek; [done|ctx_lia|ctx_lia|].
    intros b Hb Eb. cbv beta iota. cfs_simpl.
    destruct (Z.eqb_spec b 0) as [->|]; cbn [negb]; [|apply wp_fail; ctx_lia].
    apply wp_ret; [ctx_lia|]. apply HQ; auto. right. right. simpl. rewrite El. simpl in Eb.
    rewrite <- Eb. f_equal. lia.
Qed.

Lemma read8_lookup m p b : read8 m p = Done b -> 0 <= p /\ m !! Z.to_nat p = Some b.
Proof.
  unfold read8. destruct (Z.leb_spec 0 p); [|done].
  destruct (m !! Z.to_nat p); simpl; [|done]. intros [= ->]. done.
Qed.

Lemma strlen_bound m p k : 0 <= p -> 0 <= k -> read8 m (p + k) = Done 0 ->
  exists l, strlen m p = Done l /\ 0 <= l <= k.
Proof.
  intros Hp Hk Hr. apply read8_lookup in Hr as [_ Hr].
  unfold strlen. rewrite (proj2 (Z.leb_le _ _)) by lia.
  destruct (strlen_list_bound (drop (Z.to_nat p) m) (Z.to_nat k)) as (l & -> & Hl).
  - rewrite lookup_drop. replace (Z.to_nat p + Z.to_nat k)%nat with (Z.to_nat (p + k)) by lia. done.
  - exists l. split; [done|lia].
Qed.

(** The string loop stays inside a region that ends in a zero byte. *)
Lemma strcpy_loop_safe n m p len out :
  in_msg m p len -> len < 2 ^ 32 -> (len = 0 \/ read8 m (p + len - 1) = Done 0) ->
  exists ok out', strcpy_loop list_append n m p len out = Done (ok, out') /\
    (ok = true -> length out' = (length out + n)%nat).
Proof.
  revert p len out. induction n as [|n IH]; intros p len out Hin Hb Hz; simpl.
  - exists true, out. split; [done|lia].
  - destruct (Z.ltb_spec 0 len) as [Hl|Hl]; [|by exists false, out].
    unfold in_msg in Hin. destruct Hz as [->|Hz]; [lia|].
    destruct (strlen_bound m p (len - 1)) as (l & -> & Hle); [lia|lia| |].
    { by replace (p + (len - 1)) with (p + len - 1) by lia. }
    cfs_simpl. rewrite read_block_Done by lia. cfs_simpl. unfold list_append at 1. cfs_simpl.
    rewrite u32_id by lia.
    destruct (IH (p + (l + 1)) (len - (l + 1)) (out ++ [slice m p l])) as (ok & out' & E & Ho).
    + unfold in_msg. lia.
    + lia.
    + destruct (decide (len - (l + 1) = 0)); [by left|right].
      by replace (p + (l + 1) + (len - (l + 1)) - 1) with (p + len - 1) by lia.
    + exists ok, out'. split; [done|]. intros Hok. rewrite Ho by done.
      rewrite length_app. simpl. lia.
Qed.

(** The element loop stays inside the message and appends what it read. *)
Lemma des_elems_safe {A C} (d : Des A) (app : C -> A -> outcome C) (I : C -> nat -> Prop) m n c out k :
  (forall c, ctx_wf m c -> wp d m c (fun _ c' => ctx_wf m c')) ->
  (forall out k' x, (k' < k + n)%nat -> I out k' ->
     exists out', app out x = Done out' /\ I out' (S k')) ->
  ctx_wf m c -> I out k ->
  exists ok out' k', des_elems d app n m c out = Done (ok, out') /\ I out' k' /\
    (k' <= k + n)%nat /\ (ok = true -> k' = (k + n)%nat).
Proof.
  intros Hd. revert c out k. induction n as [|n IH]; intros c out k Happ Hc HI; simpl.
  - exists true, out, k. split_and!; [done|done|lia|lia].
  - destruct (Hd c Hc) as (r & c' & -> & L & Hr). destruct r as [v|].
    + destruct (Happ out k v) as (out' & -> & HI'); [lia|done|]. cfs_simpl.
      destruct (IH c' out' (S k)) as (ok & o & k' & -> & ? & ? & Hk);
        [intros; apply Happ; [lia|done]|by apply (Hr v)|done|].
      exists ok, o, k'. split_and!; [done|done|lia|]. intros. rewrite Hk by done. lia.
    + exists false, out, k. split_and!; [done|done|lia|done].
Qed.

Lemma wp_ushort_wf m c : msg_wf m -> ctx_wf m c ->
  wp Serialization_deserializeUShort m c (fun _ c' => ctx_wf m c').
Proof. intros. apply wp_ushort; [done..|]. intros. ctx_lia. Qed.

Lemma raw_in_ctx m r : raw_in m r -> ctx_wf m (mkDes (rdata r) (rlength r)).
Proof. unfold raw_in, in_msg, ctx_wf. simpl. lia. Qed.

(** Receiving a string list or a vector of ids never leaves the message.
    On any received bytes, the preprocessors of the string list and of the
    16-bit vector neither fault nor move the context out of the message, and
    rebuilding the list from a raw list they accepted does not fault either;
    when rebuilding succeeds it yields exactly the announced number of
    elements, even though the element count itself is not bounded. *)
Theorem received_lists_safe (m : mem) (c : DeserializeCtx) :
  msg_wf m -> ctx_wf m c ->
  wp Serialization_deserializeStrCpyListPreprocess m c (fun raw c' =>
    ctx_wf m c' /\
    exists ok out, Serialization_deserializeStrCpyList m raw [] = Done (ok, out) /\
      (ok = true -> Z.of_nat (length out) = relemCount raw)) /\
  wp Serialization_deserializeUInt16VecPreprocess m c (fun raw c' =>
    ctx_wf m c' /\
    exists ok v, Serialization_deserializeUInt16Vec m raw UInt16Vec_init = Done (ok, v) /\
      vec_wf v /\ (ok = true -> UInt16Vec_length v = relemCount raw)).
Proof.
  intros Hm Hc. split.
  - apply wp_strcpylist_preprocess; [done..|]. intros r c' (Hin & Hl & He) Hc' Hz.
    split; [done|]. unfold Serialization_deserializeStrCpyList. unfold in_u in *.
    destruct Hz as [Hz|Hz].
    + rewrite Hz. by exists true, [].
    + destruct (strcpy_loop_safe (Z.to_nat (relemCount r)) m (rdata r) (rlength r) [])
        as (ok & out & E & Ho); [done|lia|done|].
      exists ok, out. split; [done|]. intros Hok. rewrite Ho by done. simpl. lia.
  - apply wp_int_list_preprocess; [done..|]. intros r c' Hr _ Hc'. split; [done|].
    pose proof Hr as (_ & _ & He). unfold in_u in He.
    destruct (des_elems_safe Serialization_deserializeUShort UInt16Vec_append
      (fun v k => vec_wf v /\ length (vlist v) = k) m (Z.to_nat (relemCount r))
      (mkDes (rdata r) (rlength r)) UInt16Vec_init 0) as (ok & v & k & E & [Hw Hk] & Hle & Hok).
    + intros. by apply wp_ushort_wf.
    + intros out k x Hk [Hw Hlen]. destruct (append_wf out x) as (v' & E & Hw' & Hv); [done|lia|].
      exists v'. split_and!; [done..|]. rewrite Hv, length_app. simpl. lia.
    + by apply raw_in_ctx.
    + split; [apply vec_wf_init|done].
    + exists ok, v. split_and!; [done..|]. intros. unfold UInt16Vec_length. rewrite Hk, Hok by done.
      lia.
Qed.

Lemma received_lists_safe_witness :
  wp Serialization_deserializeStrCpyListPreprocess
     [11; 0; 0; 0; 255; 255; 255; 255; 97; 0; 0; 9] (mkDes 0 12) (fun raw c' =>
    ctx_wf [11; 0; 0; 0; 255; 255; 255; 255; 97; 0; 0; 9] c' /\
    exists ok out, Serialization_deserializeStrCpyList
      [11; 0; 0; 0; 255; 255; 255; 255; 97; 0; 0; 9] raw [] = Done (ok, out) /\
      (ok = true -> Z.of_nat (length out) = relemCount raw)).
Proof.
  apply (received_lists_safe [11; 0; 0; 0; 255; 255; 255; 255; 97; 0; 0; 9] (mkDes 0 12)).
  - split; [|by vm_compute]. by repeat constructor.
  - by vm_compute.
Defined.

(** ** NIC lists *)

Definition enc_nic (a : NicAddress) : mem :=
  le_split 4 (ipAddr a) ++ nicName a ++ [u8 (nicType a)] ++ [0; 0; 0].

(** A NIC address as the client builds it: a terminated name in a 16-byte array. *)
Definition nic_wf (a : NicAddress) : Prop :=
  in_u 32 (ipAddr a) /\ 0 <= nicType a < 128 /\ mlen (nicName a) = 16 /\
  nicName a !! 15%nat = Some 0.

Lemma mlen_enc_nic a : nic_wf a -> mlen (enc_nic a) = 24.
Proof.
  intros (_ & _ & Hn & _). unfold enc_nic. rewrite !mlen_app, mlen_le4, Hn. done.
Qed.

Lemma writes_nic a : nic_wf a -> Writes (serialize_nic a) (enc_nic a).
Proof.
  intros (_ & _ & Hn & _). unfold serialize_nic, enc_nic.
  apply writes_seq; [apply writes_block_all; by rewrite mlen_le4|].
  apply writes_seq; [by apply writes_block_all|].
  apply writes_seq; [|by apply writes_block_all].
  exact (writes_block [u8 (nicType a)] _ 1 eq_refl).
Qed.

Lemma deserialize_nic_holds m p a :
  nic_wf a -> holds m p (enc_nic a) -> deserialize_nic m p = Done a.
Proof.
  intros (Hip & Ht & Hn & Hz) Hh. unfold enc_nic in Hh.
  apply holds_app in Hh as [(Hp & Hl & H1) Hh]. rewrite mlen_le4 in *.
  apply holds_app in Hh as [(Hp2 & Hl2 & H2) Hh]. rewrite Hn in *.
  apply holds_app in Hh as [(Hp3 & Hl3 & H3) _].
  unfold deserialize_nic. change (Z.min IFNAMSIZ SERIALIZATION_NICLISTELEM_NAME_SIZE) with 16.
  rewrite read_block_Done by lia. cfs_simpl. rewrite read_block_Done by lia. cfs_simpl.
  change SERIALIZATION_NICLISTELEM_NAME_SIZE with 16.
  rewrite (read8_slice m _ (u8 (nicType a)) []) by done. cfs_simpl.
  rewrite H1, H2, le_combine_split_id by done.
  unfold s8, u8. rewrite swrap_wrap, swrap_id by (unfold in_s; lia).
  change (Z.to_nat (16 - 1)) with 15%nat. rewrite list_insert_id by done. by destruct a.
Qed.

Lemma deserialize_nics_holds l m p out :
  Forall nic_wf l -> holds m p (enc_each enc_nic l) ->
  deserialize_nics (length l) m p out = Done (out ++ l).
Proof.
  revert p out. induction l as [|a l IH]; intros p out Hf Hh; cbn [enc_each deserialize_nics length] in *.
  - by rewrite app_nil_r.
  - inversion Hf; subst. apply holds_app in Hh as [Ha Hh]. rewrite mlen_enc_nic in Hh by done.
    rewrite deserialize_nic_holds with (a := a) by done. cfs_simpl.
    change SERIALIZATION_NICLISTELEM_SIZE with 24.
    rewrite IH by done. by rewrite <- app_assoc.
Qed.

Lemma mlen_enc_nics l : Forall nic_wf l -> mlen (enc_each enc_nic l) = 24 * Z.of_nat (length l).
Proof.
  induction 1 as [|a l Ha Hl IH]; cbn [enc_each length]; [done|].
  rewrite mlen_app, mlen_enc_nic, IH by done. lia.
Qed.

Lemma reads_niclist_preprocess cnt body :
  in_u 32 cnt -> mlen body = cnt * 24 -> mlen body < 2 ^ 32 ->
  Reads Serialization_deserializeNicListPreprocess (le_split 4 cnt ++ body)
        (fun p => mkRaw (p + 4) (mlen body) cnt).
Proof.
  intros Hc Hb Hl. pose proof (mlen_nonneg body).
  eapply (reads_bind_as _ _ _ _ _ (fun _ q => mkRaw q (mlen body) cnt));
    [by apply reads_uint| |intros; by rewrite mlen_le4].
  intros p0. cbv beta. apply reads_peek_bind. intros p n Hn m Hp Hs Hm. cfs_simpl.
  change SERIALIZATION_NICLISTELEM_SIZE with 24. rewrite <- Hb, u32_id by lia.
  rewrite (proj2 (Z.ltb_ge _ _)) by lia.
  unfold mbind, Des_bind, des_advance, mret, Des_ret. by rewrite ctx_advance_ok by lia.
Qed.

(** NIC lists survive the wire.  The addresses a node announces are written
    in 24-byte elements and rebuilt unchanged. *)
Theorem nic_list_roundtrip (l : list NicAddress) (m : mem) (b len n : Z) :
  let sz := 24 * Z.of_nat (length l) + 4 in
  Forall nic_wf l -> 0 <= b -> 0 <= len -> len + sz < 2 ^ 32 -> b + len + sz <= mlen m ->
  sz <= n < 2 ^ 64 ->
  exists m' raw,
    Serialization_serializeNicList l m (mkSer (Some b) len) =
      Done (m', mkSer (Some b) (len + sz)) /\
    Serialization_deserializeNicListPreprocess m' (mkDes (b + len) n) =
      Done (Some raw, mkDes (b + len + sz) (n - sz)) /\
    Serialization_deserializeNicList m' raw [] = Done l.
Proof.
  intros sz Hl Hb Hlen Hf Hm Hn. pose proof (mlen_enc_nics l Hl) as El.
  assert (HW : Writes (Serialization_serializeNicList l) (enc_list enc_nic l)).
  { unfold Serialization_serializeNicList, enc_list. rewrite u32_id, Nat2Z.id, firstn_all by lia.
    apply writes_seq; [apply _|]. apply writes_each. intros a Ha. apply writes_nic.
    rewrite Forall_forall in Hl. auto. }
  assert (Ee : mlen (enc_list enc_nic l) = sz)
    by (unfold enc_list; rewrite mlen_app, mlen_le4, El; subst sz; lia).
  pose proof (reads_niclist_preprocess (Z.of_nat (length l)) (enc_each enc_nic l)
    ltac:(unfold in_u; lia) ltac:(lia) ltac:(lia)) as HR.
  destruct (writes_reads_roundtrip _ _ _ _ HW HR m b len n) as (m' & E1 & Es & Em & E2); [lia..|].
  rewrite Ee in *.
  assert (Hh : holds m' (b + len) (enc_list enc_nic l))
    by (unfold holds; rewrite Ee; split_and!; [lia|lia|done]).
  apply holds_app in Hh as [_ Hh]. rewrite mlen_le4 in Hh.
  eexists m', _. split_and!; [done|done|].
  unfold Serialization_deserializeNicList. cfs_simpl. rewrite Nat2Z.id.
  by rewrite deserialize_nics_holds.
Qed.

Definition nic_ex : NicAddress :=
  mkNic 16777343 2 [105; 98; 48; 0; 0; 0; 0; 0; 0; 0; 0; 0; 0; 0; 0; 0].

Lemma nic_list_roundtrip_witness : exists m' raw,
  Serialization_deserializeNicList m' raw [] = Done [nic_ex; nic_ex].
Proof.
  destruct (nic_list_roundtrip [nic_ex; nic_ex] (replicate 60 0) 0 0 52
    ltac:(by repeat constructor) ltac:(lia) ltac:(lia) ltac:(by vm_compute) ltac:(by vm_compute)
    ltac:(by vm_compute)) as (m' & raw & _ & _ & E).
  exists m', raw. exact E.
Defined.

Lemma deserialize_nic_safe m p : 0 <= p -> p + 24 <= mlen m -> exists a, deserialize_nic m p = Done a.
Proof.
  intros Hp Hm. unfold deserialize_nic.
  change (Z.min IFNAMSIZ SERIALIZATION_NICLISTELEM_NAME_SIZE) with 16.
  change SERIALIZATION_NICLISTELEM_NAME_SIZE with 16.
  rewrite (read_block_Done m p) by lia. cfs_simpl.
  rewrite (read_block_Done m (p + 4)) by lia. cfs_simpl.
  destruct (read8_Done m (p + 4 + 16)) as (t & -> & _); [lia|]. cfs_simpl. eauto.
Qed.

Lemma deserialize_nics_safe n m p out :
  0 <= p -> p + 24 * Z.of_nat n <= mlen m ->
  exists l, deserialize_nics n m p out = Done (out ++ l) /\ length l = n.
Proof.
  revert p out. induction n as [|n IH]; intros p out Hp Hm; simpl.
  - exists []. by rewrite app_nil_r.
  - destruct (deserialize_nic_safe m p) as [a ->]; [lia..|]. cfs_simpl.
    change SERIALIZATION_NICLISTELEM_SIZE with 24.
    destruct (IH (p + 24) (out ++ [a])) as (l & -> & Hl); [lia..|].
    exists (a :: l). rewrite <- app_assoc. simpl. by rewrite Hl.
Qed.

Lemma wp_niclist_preprocess m c (Q : RawList -> DeserializeCtx -> Prop) :
  msg_wf m -> ctx_wf m c ->
  (forall r c', raw_in m r -> rlength r = u32 (relemCount r * 24) -> ddata c + 4 = rdata r ->
     rdata r + rlength r = ddata c' -> ctx_wf m c' -> Q r c') ->
  wp Serialization_deserializeNicListPreprocess m c Q.
Proof.
  intros Hm Hc HQ. apply wp_bind, wp_uint; [done..|]. intros cnt H4 Hcnt _.
  apply wp_bind, wp_ctx; [ctx_lia|]. intros _. cfs_simpl.
  change SERIALIZATION_NICLISTELEM_SIZE with 24. pose proof (u32_range (cnt * 24)).
  destruct (Z.ltb_spec (dlength c - 4) (u32 (cnt * 24))); [apply wp_fail; ctx_lia|].
  apply wp_bind, wp_advance; [ctx_lia..|]. intros _. apply wp_ret; [ctx_lia|].
  apply HQ; unfold raw_in, in_msg; ctx_lia.
Qed.

Lemma deserialize_nics_fault n m p out :
  0 <= p -> mlen m + 3 < p + 24 * Z.of_nat n -> (0 < n)%nat -> deserialize_nics n m p out = Fault.
Proof.
  revert p out. induction n as [|n IH]; intros p out Hp Hm Hn; [lia|]. cbn [deserialize_nics].
  destruct (decide (p + 24 <= mlen m + 3)) as [Hle|Hgt].
  - destruct (deserialize_nic m p) as [a|]; [|done]. cfs_simpl.
    change SERIALIZATION_NICLISTELEM_SIZE with 24. apply IH; lia.
  - unfold deserialize_nic. change (Z.min IFNAMSIZ SERIALIZATION_NICLISTELEM_NAME_SIZE) with 16.
    change SERIALIZATION_NICLISTELEM_NAME_SIZE with 16.
    destruct (read_block m p 4); [|done]. cfs_simpl. destruct (read_block m (p + 4) 16); [|done].
    cfs_simpl. unfold read8. destruct (0 <=? p + 4 + 16); [|done].
    rewrite lookup_ge_None_2; [done|]. unfold mlen in *. lia.
Qed.

(** C40: what the NIC list preprocessing guarantees, and where it does not.  On
    any message it neither faults nor leaves it; a list it accepts whose byte
    size fits 32 bits is rebuilt without reading outside the message; but an
    element count whose byte size wraps (for instance 2^29, whose size 24 * 2^29
    wraps to 0) is accepted although the elements are not there, and rebuilding
    that list reads outside of the message. *)
Theorem nic_list_preprocess_bounds (m : mem) (c : DeserializeCtx) :
  msg_wf m -> ctx_wf m c ->
  wp Serialization_deserializeNicListPreprocess m c (fun raw c' =>
    ctx_wf m c' /\
    (relemCount raw * 24 < 2 ^ 32 ->
     exists l, Serialization_deserializeNicList m raw [] = Done l /\
               Z.of_nat (length l) = relemCount raw) /\
    (mlen m + 3 < rdata raw + 24 * relemCount raw -> relemCount raw <> 0 ->
     Serialization_deserializeNicList m raw [] = Fault)) /\
  Serialization_deserializeNicListPreprocess [0; 0; 0; 32] (mkDes 0 4) =
    Done (Some (mkRaw 4 0 (2 ^ 29)), mkDes 4 0).
Proof.
  intros Hm Hc. split; [|by vm_compute].
  apply wp_niclist_preprocess; [done..|]. intros r c' (Hin & Hl & He) Hr _ _ Hc'.
  unfold Serialization_deserializeNicList. unfold in_msg, in_u in *. split_and!; [done|..].
  - intros Hf. rewrite u32_id in Hr by lia.
    destruct (deserialize_nics_safe (Z.to_nat (relemCount r)) m (rdata r) []) as (l & -> & Hlen);
      [lia..|]. exists l. split; [done|lia].
  - intros. apply deserialize_nics_fault; lia.
Qed.

Lemma nic_list_preprocess_bounds_witness :
  Serialization_deserializeNicList [0; 0; 0; 32] (mkRaw 4 0 (2 ^ 29)) [] = Fault.
Proof.
  destruct (nic_list_preprocess_bounds [0; 0; 0; 32] (mkDes 0 4)) as [W E].
  - split; [|by vm_compute]. by repeat constructor.
  - by vm_compute.
  - destruct W as (r & c' & E' & _ & H). rewrite E in E'. injection E' as <- <-.
    destruct (H _ eq_refl) as (_ & _ & F). apply F; [by vm_compute|done].
Defined.

(** ** Lists the management server pushes *)

(** A header written as zeros, a body, and the header patched afterwards. *)
Definition ser_patch (s0 body : Ser) (s1 : SerializeCtx -> SerializeCtx -> Ser) : Ser := fun m c =>
  '(m1, c1) ← (s0 ;;; body) m c; '(m2, _) ← s1 c c1 m1 c; Done (m2, c1).

Lemma writes_patch s0 body s1 h0 h e :
  Writes s0 h0 -> Writes body e -> mlen h0 = mlen h ->
  (forall c c1, exists h', Writes (s1 c c1) h' /\ mlen h' = mlen h /\
     (0 <= slength c -> slength c1 = slength c + mlen h + mlen e -> slength c + mlen h + mlen e < 2 ^ 32 -> h' = h)) ->
  Writes (ser_patch s0 body s1) (h ++ e).
Proof.
  intros H0 He Hh H1. pose proof (writes_seq _ _ _ _ H0 He) as Hs.
  pose proof (mlen_nonneg e). pose proof (mlen_nonneg h).
  split; intros; unfold ser_patch; rewrite ?mlen_app in *.
  - rewrite (writes_dry (Writes := Hs)) by done. cfs_simpl.
    destruct (H1 (mkSer None len) (mkSer None (u32 (len + mlen (h0 ++ e))))) as (h' & Hw & _).
    rewrite (writes_dry (Writes := Hw)) by done. cfs_simpl.
    by rewrite mlen_app, Hh.
  - rewrite (writes_buf (Writes := Hs)) by (rewrite ?mlen_app; lia). cfs_simpl.
    destruct (H1 (mkSer (Some b) len) (mkSer (Some b) (len + mlen (h0 ++ e))))
      as (h' & Hw & El & Eh). cbn [slength] in Eh. rewrite mlen_app in Eh.
    rewrite Eh in Hw by lia.
    assert (Hp : mlen (put m (b + len) (h0 ++ e)) = mlen m)
      by (apply mlen_put; rewrite ?mlen_app; lia).
    rewrite (writes_buf (Writes := Hw)) by lia. cfs_simpl. rewrite put_prefix by (rewrite ?mlen_app; lia). by rewrite mlen_app, Hh.
Qed.

Lemma SERDES_list_serialize_patch {Ty} (s : Ty -> Ser) hl l m c :
  SERDES_list_serialize s hl l m c =
  ser_patch ((if hl then Serialization_serializeUInt 0 else ser_skip) ;;;
             Serialization_serializeUInt 0)
    (ser_each s l)
    (fun c c1 => (if hl then Serialization_serializeUInt (u32 (slength c1 - slength c))
                  else ser_skip) ;;; Serialization_serializeUInt (u32 (Z.of_nat (length l)))) m c.
Proof.
  unfold SERDES_list_serialize, ser_patch, ser_seq.
  generalize (if hl then Serialization_serializeUInt 0 else ser_skip). intros s0.
  destruct (s0 m c) as [[m1 c1]|]; cfs_simpl; [|done].
  destruct (Serialization_serializeUInt 0 m1 c1) as [[m2 c2]|]; cfs_simpl; [|done].
  destruct (ser_each s l m2 c2) as [[m3 c3]|]; cfs_simpl; [|done].
  generalize (if hl then Serialization_serializeUInt (u32 (slength c3 - slength c)) else ser_skip).
  intros s1. by destruct (s1 m3 c) as [[m4 c4]|].
Qed.

Lemma writes_ext s s' e : (forall m c, s m c = s' m c) -> Writes s' e -> Writes s e.
Proof. intros H [Hd Hb]. split; intros; rewrite H; auto. Qed.

Lemma writes_serdes {Ty} (s : Ty -> Ser) (e : Ty -> mem) hl l :
  (forall x, x ∈ l -> Writes (s x) (e x)) -> Z.of_nat (length l) < 2 ^ 32 ->
  Writes (SERDES_list_serialize s hl l) (if hl then enc_nested (enc_list e l) else enc_list e l).
Proof.
  intros Hs Hl. pose proof (writes_each s e l Hs) as He.
  eapply writes_ext; [intros; apply SERDES_list_serialize_patch|].
  rewrite u32_id by lia. destruct hl; unfold enc_nested, enc_list; rewrite ?app_assoc.
  - eapply writes_patch; [apply _|done|by rewrite !mlen_app, !mlen_le4|]. intros c c1.
    exists (le_split 4 (u32 (slength c1 - slength c)) ++ le_split 4 (Z.of_nat (length l))).
    rewrite !mlen_app, !mlen_le4. split_and!; [apply _|done|]. intros H0 E Hb.
    do 3 f_equal. rewrite E, u32_id; pose proof (mlen_nonneg (enc_each e l)); rewrite ?mlen_app, ?mlen_le4; lia.
  - eapply writes_patch; [apply _|done|by rewrite !mlen_app, !mlen_le4|]. intros c c1.
    eexists. split; [apply _|]. done.
Qed.

Lemma reads_serdes_items {Ty} (d : Des Ty) (e : Ty -> mem) ok i l :
  (forall x, x ∈ l -> Reads d (e x) (fun _ => x)) -> (forall j, ok j = true) ->
  Reads (SERDES_list_items d ok i (length l)) (enc_each e l) (fun _ => l).
Proof.
  intros Hr Hok. revert i. induction l as [|x l IH]; intros i; cbn [SERDES_list_items enc_each length].
  - apply reads_ret.
  - rewrite Hok. eapply reads_bind_const; [apply Hr; by left|].
    apply (reads_bind_ret _ (cons x) _ (fun _ => l)). apply IH. intros. apply Hr. by right.
Qed.

Lemma reads_serdes {Ty} (d : Des Ty) (e : Ty -> mem) ok list0 l :
  (forall x, x ∈ l -> Reads d (e x) (fun _ => x)) -> (forall j, ok j = true) ->
  Z.of_nat (length l) < 2 ^ 32 ->
  Reads (SERDES_list_deserialize d false ok list0) (enc_list e l) (fun _ => list0 ++ l).
Proof.
  intros Hr Hok Hl. unfold SERDES_list_deserialize, enc_list.
  eapply reads_bind_const; [apply reads_uint; unfold in_u; lia|]. rewrite Nat2Z.id.
  apply (reads_bind_ret _ (app list0) _ (fun _ => l)). by apply reads_serdes_items.
Qed.

Definition enc_tm (v : TargetMapping) : mem := le_split 2 (tmTargetID v) ++ le_split 4 (tmNodeID v).
Definition enc_tpm (v : TargetPoolMapping) : mem :=
  le_split 2 (tpmTargetID v) ++ le_split 2 (tpmPoolID v).
Definition enc_bgm (v : BuddyGroupMapping) : mem :=
  le_split 2 (groupID v) ++ le_split 2 (primaryTargetID v) ++ le_split 2 (secondaryTargetID v).
Definition enc_tsm (v : TargetStateMapping) : mem :=
  le_split 2 (tsTargetID v) ++ [u8 (tsReachabilityState v)] ++ [u8 (tsConsistencyState v)].

(** Field widths: what a value of the C struct can hold; a state is an enum
    whose value fits the byte it is sent in. *)
Definition tm_wf (v : TargetMapping) : Prop := in_u 16 (tmTargetID v) /\ in_u 32 (tmNodeID v).
Definition tpm_wf (v : TargetPoolMapping) : Prop := in_u 16 (tpmTargetID v) /\ in_u 16 (tpmPoolID v).
Definition bgm_wf (v : BuddyGroupMapping) : Prop :=
  in_u 16 (groupID v) /\ in_u 16 (primaryTargetID v) /\ in_u 16 (secondaryTargetID v).
Definition tsm_wf (v : TargetStateMapping) : Prop :=
  in_u 16 (tsTargetID v) /\ in_u 8 (tsReachabilityState v) /\ in_u 8 (tsConsistencyState v).

Lemma writes_tm v : Writes (TargetMapping_serialize v) (enc_tm v).
Proof. apply writes_seq; [apply _|apply writes_uint]. Qed.
Lemma writes_tpm v : Writes (TargetPoolMapping_serialize v) (enc_tpm v).
Proof. apply writes_seq; [apply _|apply writes_ushort]. Qed.
Lemma writes_bgm v : Writes (BuddyGroupMapping_serialize v) (enc_bgm v).
Proof. do 2 (apply writes_seq; [apply _|]). apply _. Qed.
Lemma writes_tsm v : Writes (TargetStateMapping_serialize v) (enc_tsm v).
Proof.
  assert (E : forall x, Writes (Serialization_serializeUInt8 (u8 x)) [u8 x]).
  { intros x. pose proof (writes_uint8 (u8 x)) as H. unfold u8 in H at 2 3.
    by rewrite wrap_wrap in H by lia. }
  apply writes_seq; [apply _|]. apply writes_seq; apply E.
Qed.

Lemma reads_tm v : tm_wf v -> Reads TargetMapping_deserialize (enc_tm v) (fun _ => v).
Proof.
  intros [H1 H2]. eapply reads_bind_const; [by apply reads_ushort|].
  eapply reads_conv; [apply (reads_bind_ret _ (mkTM (tmTargetID v))); by apply reads_uint|].
  by destruct v.
Qed.
Lemma reads_tpm v : tpm_wf v -> Reads TargetPoolMapping_deserialize (enc_tpm v) (fun _ => v).
Proof.
  intros [H1 H2]. eapply reads_bind_const; [by apply reads_ushort|].
  eapply reads_conv; [apply (reads_bind_ret _ (mkTPM (tpmTargetID v))); by apply reads_ushort|].
  by destruct v.
Qed.
Lemma reads_bgm v : bgm_wf v -> Reads BuddyGroupMapping_deserialize (enc_bgm v) (fun _ => v).
Proof.
  intros (H1 & H2 & H3). do 2 (eapply reads_bind_const; [by apply reads_ushort|]).
  eapply reads_conv; [eapply (reads_bind_ret _ (fun s => mkBGM _ _ s)); by apply reads_ushort|].
  by destruct v.
Qed.
Lemma reads_tsm v : tsm_wf v -> Reads TargetStateMapping_deserialize (enc_tsm v) (fun _ => v).
Proof.
  intros (H1 & H2 & H3). eapply reads_bind_const; [by apply reads_ushort|].
  eapply reads_bind_const; [apply reads_uint8|].
  eapply reads_conv; [apply (reads_bind_ret _ (fun s => mkTSM _ _ s)); apply reads_uint8|].
  intros. cbv beta. unfold u8. rewrite !wrap_id by done. by destruct v.
Qed.

(** What the four lists of a management update take on the wire. *)
Definition enc_mgmt (ts : list TargetMapping) (ps : list TargetPoolMapping)
    (gs : list BuddyGroupMapping) (ss : list TargetStateMapping) : mem :=
  enc_list enc_tm ts ++ enc_list enc_tpm ps ++ enc_list enc_bgm gs ++ enc_list enc_tsm ss.

Lemma mlen_enc_list {A} (e : A -> mem) k (l : list A) :
  (forall x, mlen (e x) = k) -> mlen (enc_list e l) = k * Z.of_nat (length l) + 4.
Proof. intros H. unfold enc_list. rewrite mlen_app, mlen_le4, (mlen_enc_each e k) by done. lia. Qed.

Lemma mlen_enc_mgmt ts ps gs ss :
  mlen (enc_mgmt ts ps gs ss) =
  6 * Z.of_nat (length ts) + 4 * Z.of_nat (length ps) + 6 * Z.of_nat (length gs) +
  4 * Z.of_nat (length ss) + 16.
Proof.
  unfold enc_mgmt. rewrite !mlen_app.
  rewrite (mlen_enc_list enc_tm 6) by (intros; unfold enc_tm; by rewrite mlen_app, mlen_le2, mlen_le4).
  rewrite (mlen_enc_list enc_tpm 4) by (intros; unfold enc_tpm; by rewrite mlen_app, !mlen_le2).
  rewrite (mlen_enc_list enc_bgm 6) by (intros; unfold enc_bgm; by rewrite !mlen_app, !mlen_le2).
  rewrite (mlen_enc_list enc_tsm 4) by (intros; unfold enc_tsm; by rewrite !mlen_app, !mlen_le2).
  lia.
Qed.

(** The four lists written, and read, one after the other. *)
Definition serialize_mgmt (ts : list TargetMapping) (ps : list TargetPoolMapping)
    (gs : list BuddyGroupMapping) (ss : list TargetStateMapping) : Ser :=
  TargetMappingList_serialize ts ;;; TargetPoolMappingList_serialize ps ;;;
  BuddyGroupMappingList_serialize gs ;;; TargetStateMappingList_serialize ss.

Definition deserialize_mgmt (ok : nat -> bool) (gs0 : list BuddyGroupMapping)
    : Des (list TargetMapping * list TargetPoolMapping * list BuddyGroupMapping *
           list TargetStateMapping) :=
  t ← TargetMappingList_deserialize ok []; p ← TargetPoolMappingList_deserialize ok [];
  g ← BuddyGroupMappingList_deserialize ok gs0; s ← TargetStateMappingList_deserialize ok [];
  mret (t, p, g, s).

(** The mapping lists of the management server survive the wire.  Target
    mappings, target pool mappings, mirror buddy groups and target states,
    serialized one after the other into a buffer with room, are deserialized to
    the same lists, appended behind whatever the receiving list holds; an element
    takes 6, 4, 6 and 4 bytes. *)
Theorem mgmt_lists_roundtrip (ts : list TargetMapping) (ps : list TargetPoolMapping)
    (gs gs0 : list BuddyGroupMapping) (ss : list TargetStateMapping) (ok : nat -> bool)
    (m : mem) (b len n : Z) :
  let sz := 6 * Z.of_nat (length ts) + 4 * Z.of_nat (length ps) + 6 * Z.of_nat (length gs) +
            4 * Z.of_nat (length ss) + 16 in
  Forall tm_wf ts -> Forall tpm_wf ps -> Forall bgm_wf gs -> Forall tsm_wf ss ->
  (forall i, ok i = true) ->
  0 <= b -> 0 <= len -> len + sz < 2 ^ 32 -> b + len + sz <= mlen m -> sz <= n < 2 ^ 64 ->
  exists m',
    serialize_mgmt ts ps gs ss m (mkSer (Some b) len) = Done (m', mkSer (Some b) (len + sz)) /\
    deserialize_mgmt ok gs0 m' (mkDes (b + len) n) =
      Done (Some (ts, ps, gs0 ++ gs, ss), mkDes (b + len + sz) (n - sz)).
Proof.
  intros sz Ht Hp Hg Hs Hok Hb Hl Hf Hm Hn. rewrite Forall_forall in Ht.
  rewrite Forall_forall in Hp. rewrite Forall_forall in Hg. rewrite Forall_forall in Hs.
  pose proof (mlen_enc_mgmt ts ps gs ss) as Hlen. fold sz in Hlen.
  assert (HW : Writes (serialize_mgmt ts ps gs ss) (enc_mgmt ts ps gs ss)).
  { unfold enc_mgmt. apply writes_seq; [apply (writes_serdes _ _ false); [intros; apply writes_tm|lia]|].
    apply writes_seq; [apply (writes_serdes _ _ false); [intros; apply writes_tpm|lia]|].
    apply writes_seq; [apply (writes_serdes _ _ false); [intros; apply writes_bgm|lia]|].
    apply (writes_serdes _ _ false); [intros; apply writes_tsm|lia]. }
  assert (HR : Reads (deserialize_mgmt ok gs0) (enc_mgmt ts ps gs ss)
    (fun _ => (ts, ps, gs0 ++ gs, ss))).
  { unfold enc_mgmt, deserialize_mgmt.
    eapply reads_bind_const; [apply reads_serdes; auto using reads_tm; lia|].
    eapply reads_bind_const; [apply reads_serdes; auto using reads_tpm; lia|].
    eapply reads_bind_const; [apply reads_serdes; auto using reads_bgm; lia|].
    apply (reads_bind_ret _ (fun s => (ts, ps, gs0 ++ gs, s)) _ (fun _ => ss)).
    apply (reads_serdes _ _ _ []); auto using reads_tsm; lia. }
  destruct (writes_reads_roundtrip _ _ _ _ HW HR m b len n) as (m' & E1 & _ & _ & E2); [lia..|].
  rewrite Hlen in *. eauto.
Qed.

Lemma mgmt_lists_roundtrip_witness : exists m',
  deserialize_mgmt (fun _ => true) [mkBGM 9 8 7] m' (mkDes (0 + 0) 36) =
  Done (Some ([mkTM 1 2], [mkTPM 1 1], [mkBGM 9 8 7] ++ [mkBGM 1 2 3], [mkTSM 1 0 2]),
        mkDes 36 0).
Proof.
  destruct (mgmt_lists_roundtrip [mkTM 1 2] [mkTPM 1 1] [mkBGM 1 2 3] [mkBGM 9 8 7] [mkTSM 1 0 2]
    (fun _ => true) (replicate 36 0) 0 0 36
    ltac:(repeat constructor; by vm_compute) ltac:(repeat constructor; by vm_compute)
    ltac:(repeat constructor; by vm_compute) ltac:(repeat constructor; by vm_compute)
    ltac:(done) ltac:(lia) ltac:(lia) ltac:(by vm_compute) ltac:(by vm_compute)
    ltac:(by vm_compute)) as (m' & _ & E).
  exists m'. exact E.
Defined.

Lemma wp_serdes_items {Ty} (d : Des Ty) ok i n m c :
  (forall c, ctx_wf m c -> wp d m c (fun _ c' => ctx_wf m c')) -> ctx_wf m c ->
  wp (SERDES_list_items d ok i n) m c (fun l c' => ctx_wf m c' /\ length l = n).
Proof.
  intros Hd. revert i c. induction n as [|n IH]; intros i c Hc; cbn [SERDES_list_items].
  - apply wp_ret; [ctx_lia|done].
  - destruct (ok i); [|apply wp_fail; ctx_lia].
    apply wp_bind. eapply wp_mono; [|by apply Hd]. intros x c1 Hc1 _.
    apply wp_bind. eapply wp_mono; [|by apply IH]. intros l c2 [Hc2 Hl] _.
    apply wp_ret; [ctx_lia|]. simpl. by rewrite Hl.
Qed.

Lemma wp_tsm m c : msg_wf m -> ctx_wf m c ->
  wp TargetStateMapping_deserialize m c (fun _ c' => ctx_wf m c').
Proof.
  intros Hm Hc. apply wp_bind, wp_ushort; [done..|]. intros t ? ? _.
  apply wp_bind, wp_bind, wp_char; [done|ctx_lia|]. intros r ? ? _. apply wp_ret; [ctx_lia|]. intros _.
  apply wp_bind, wp_bind, wp_char; [done|ctx_lia|]. intros s ? ? _. apply wp_ret; [ctx_lia|]. intros _.
  apply wp_ret; ctx_lia.
Qed.

Lemma wp_bgm m c : msg_wf m -> ctx_wf m c ->
  wp BuddyGroupMapping_deserialize m c (fun _ c' => ctx_wf m c').
Proof.
  intros Hm Hc. do 3 (apply wp_bind, wp_ushort; [done|ctx_lia|]; intros ? ? ? _).
  apply wp_ret; ctx_lia.
Qed.

(** Receiving a mapping list never leaves the message, and fails without
    effect.  For any bytes, any outcome of the allocations and any previous
    content, the buddy group and target state lists are read without a fault;
    either the result is a failure, or the previous content followed by exactly
    as many elements as the message announces. *)
Theorem mgmt_lists_safe (m : mem) (c : DeserializeCtx) (ok : nat -> bool)
    (gs0 : list BuddyGroupMapping) (ss0 : list TargetStateMapping) :
  msg_wf m -> ctx_wf m c ->
  wp (BuddyGroupMappingList_deserialize ok gs0) m c (fun l c' =>
    ctx_wf m c' /\ exists l', l = gs0 ++ l' /\ Z.of_nat (length l') = str_len_word m c) /\
  wp (TargetStateMappingList_deserialize ok ss0) m c (fun l c' =>
    ctx_wf m c' /\ exists l', l = ss0 ++ l' /\ Z.of_nat (length l') = str_len_word m c).
Proof.
  intros Hm Hc.
  assert (G : forall Ty (d : Des Ty) l0, (forall c, ctx_wf m c -> wp d m c (fun _ c' => ctx_wf m c')) ->
    wp (SERDES_list_deserialize d false ok l0) m c (fun l c' =>
      ctx_wf m c' /\ exists l', l = l0 ++ l' /\ Z.of_nat (length l') = str_len_word m c)).
  { intros Ty d l0 Hd. apply wp_bind, wp_raw; [done|done|lia|]. intros H4 _.
    fold (str_len_word m c).
    assert (Hr : in_u 32 (str_len_word m c)).
    { unfold str_len_word. replace 32 with (8 * mlen (slice m (ddata c) 4))
        by (rewrite mlen_slice; ctx_lia). apply le_combine_range, slice_bytes, Hm. }
    apply wp_bind. eapply wp_mono; [|apply wp_serdes_items; [done|ctx_lia]].
    intros l c' [Hc' Hl] _. apply wp_ret; [ctx_lia|]. split; [done|].
    exists l. rewrite Hl. unfold in_u in Hr. split; [done|lia]. }
  split; apply G; intros; [by apply wp_bgm|by apply wp_tsm].
Qed.

Lemma mgmt_lists_safe_witness :
  wp (BuddyGroupMappingList_deserialize (fun _ => true) []) [255; 0; 0; 0; 1; 0; 2] (mkDes 0 7)
    (fun l c' => ctx_wf [255; 0; 0; 0; 1; 0; 2] c' /\ exists l', l = [] ++ l' /\
       Z.of_nat (length l') = str_len_word [255; 0; 0; 0; 1; 0; 2] (mkDes 0 7)).
Proof.
  apply (mgmt_lists_safe [255; 0; 0; 0; 1; 0; 2] (mkDes 0 7) (fun _ => true) [] []).
  - split; [|by vm_compute]. by repeat constructor.
  - by vm_compute.
Defined.
