(* ===== verification/StripePattern.v ===== *)
(** * Stripe patterns: how a file is spread over storage targets

    Models [common/storage/striping/StripePattern.h/.c], [Raid0Pattern.*],
    [BuddyMirrorPattern.*], [Raid10Pattern.*], [SimplePattern.*] and
    [common/toolkit/MathTk.h].  The table of virtual functions of a pattern is
    the case distinction on its constructor.  File positions are [int64_t],
    indices [size_t] (64 bits), chunk sizes [unsigned] (32 bits). *)

From S2P Require Import Prelude Serialization Vectors SerializationLists.

(** ** MathTk.h *)

(** [__builtin_clz] of 0 is undefined. *)
Definition MathTk_log2Int32 (value : Z) : outcome Z :=
  if value =? 0 then Fault else Done (Z.log2 value).

Definition MathTk_isPowerOfTwo (value : Z) : bool := Z.land value (u32 (value - 1)) =? 0.

(** The kernel's [do_div(n, base)]: quotient and remainder of [(uint64_t)n]. *)
Definition do_div (n base : Z) : outcome (Z * Z) :=
  if base =? 0 then Fault else Done (u64 n / base, u64 n mod base).

(** ** Data *)

Definition STRIPEPATTERN_Invalid : Z := 0.
Definition STRIPEPATTERN_Raid0 : Z := 1.
Definition STRIPEPATTERN_Raid10 : Z := 2.
Definition STRIPEPATTERN_BuddyMirror : Z := 3.
Definition STRIPEPATTERN_HEADER_LENGTH : Z := 12.
Definition HAS_NO_POOL_FLAG : Z := Z.shiftl 1 24.

Record StripePatternBase := mkSP { patternType : Z; chunkSize : Z; serialPatternLength : Z }.

(** One constructor per "class" derived from [StripePattern]. *)
Inductive StripePattern :=
| SimplePattern (base : StripePatternBase)
| Raid0Pattern (base : StripePatternBase) (stripeTargetIDs : Vec) (defaultNumTargets : Z)
| Raid10Pattern (base : StripePatternBase) (stripeTargetIDs mirrorTargetIDs : Vec)
    (stripeSetSize defaultNumTargets : Z)
| BuddyMirrorPattern (base : StripePatternBase) (mirrorBuddyGroupIDs : Vec) (defaultNumTargets : Z).

Definition StripePattern_initFromPatternType (patternType chunkSize : Z) : StripePatternBase :=
  mkSP patternType chunkSize 0.

Definition stripePattern (this : StripePattern) : StripePatternBase :=
  match this with
  | SimplePattern b | Raid0Pattern b _ _ | Raid10Pattern b _ _ _ _ | BuddyMirrorPattern b _ _ => b
  end.

Definition StripePattern_getPatternType (this : StripePattern) : Z :=
  patternType (stripePattern this).
Definition StripePattern_getChunkSize (this : StripePattern) : Z := chunkSize (stripePattern this).

(** ** Chunk boundaries *)

Definition StripePattern_getChunkStart (this : StripePattern) (pos : Z) : Z :=
  let posModChunkSize := u32 (Z.land pos (u32 (StripePattern_getChunkSize this - 1))) in
  s64 (pos - posModChunkSize).

Definition StripePattern_getNextChunkStart (this : StripePattern) (pos : Z) : Z :=
  s64 (StripePattern_getChunkStart this pos + StripePattern_getChunkSize this).

Definition StripePattern_getChunkEnd (this : StripePattern) (pos : Z) : Z :=
  s64 (StripePattern_getNextChunkStart this pos - 1).

(** ** Construction *)

Definition SimplePattern_construct (patternType chunkSize : Z) : StripePattern :=
  SimplePattern (StripePattern_initFromPatternType patternType chunkSize).

Definition Raid0Pattern_construct (chunkSize : Z) (stripeTargetIDs : Vec) (defaultNumTargets : Z)
    : outcome StripePattern :=
  ids ← ListTk_copyUInt16ListToVec (vlist stripeTargetIDs) UInt16Vec_init;
  Done (Raid0Pattern (StripePattern_initFromPatternType STRIPEPATTERN_Raid0 chunkSize) ids
          (if defaultNumTargets =? 0 then 4 else defaultNumTargets)).

Definition BuddyMirrorPattern_construct (chunkSize : Z) (mirrorBuddyGroupIDs : Vec)
    (defaultNumTargets : Z) : outcome StripePattern :=
  ids ← ListTk_copyUInt16ListToVec (vlist mirrorBuddyGroupIDs) UInt16Vec_init;
  Done (BuddyMirrorPattern (StripePattern_initFromPatternType STRIPEPATTERN_BuddyMirror chunkSize)
          ids (if defaultNumTargets =? 0 then 4 else defaultNumTargets)).

(** ** Target selection (virtual getStripeTargetIndex / getStripeTargetID) *)

(** [(pos / chunkSize) % UInt16Vec_length(ids)]: the quotient is an [int64_t]
    rounded towards zero, then converted to [size_t]. *)
Definition Raid0Pattern_getStripeTargetIndex (base : StripePatternBase) (stripeTargetIDs : Vec)
    (pos : Z) : outcome Z :=
  if chunkSize base =? 0 then Fault
  else if UInt16Vec_length stripeTargetIDs =? 0 then Fault
  else Done (u64 (Z.quot pos (chunkSize base)) mod UInt16Vec_length stripeTargetIDs).

Definition Raid0Pattern_getStripeTargetID (base : StripePatternBase) (stripeTargetIDs : Vec)
    (pos : Z) : outcome Z :=
  targetIndex ← Raid0Pattern_getStripeTargetIndex base stripeTargetIDs pos;
  UInt16Vec_at stripeTargetIDs targetIndex.

Definition BuddyMirrorPattern_getStripeTargetIndex (base : StripePatternBase)
    (mirrorBuddyGroupIDs : Vec) (pos : Z) : outcome Z :=
  if chunkSize base =? 0 then Fault
  else if UInt16Vec_length mirrorBuddyGroupIDs =? 0 then Fault
  else Done (u64 (Z.quot pos (chunkSize base)) mod UInt16Vec_length mirrorBuddyGroupIDs).

Definition BuddyMirrorPattern_getStripeTargetID (base : StripePatternBase)
    (mirrorBuddyGroupIDs : Vec) (pos : Z) : outcome Z :=
  targetIndex ← BuddyMirrorPattern_getStripeTargetIndex base mirrorBuddyGroupIDs pos;
  UInt16Vec_at mirrorBuddyGroupIDs targetIndex.

Definition Raid10Pattern_getStripeTargetIndex (base : StripePatternBase) (stripeSetSize : Z)
    (pos : Z) : outcome Z :=
  stripeSetInnerOffset ←
    (if MathTk_isPowerOfTwo stripeSetSize then Done (Z.land pos (u32 (stripeSetSize - 1)))
     else '(_, rem) ← do_div pos stripeSetSize; Done rem);
  log2 ← MathTk_log2Int32 (chunkSize base);
  Done (u64 (Z.shiftr stripeSetInnerOffset log2)).

Definition Raid10Pattern_getStripeTargetID (base : StripePatternBase) (stripeTargetIDs : Vec)
    (stripeSetSize pos : Z) : outcome Z :=
  targetIndex ← Raid10Pattern_getStripeTargetIndex base stripeSetSize pos;
  UInt16Vec_at stripeTargetIDs targetIndex.

Definition SimplePattern_getStripeTargetIndex (pos : Z) : outcome Z := Done 0.
Definition SimplePattern_getStripeTargetID (pos : Z) : outcome Z := Done 0.

Definition getStripeTargetIndex (this : StripePattern) (pos : Z) : outcome Z :=
  match this with
  | SimplePattern _ => SimplePattern_getStripeTargetIndex pos
  | Raid0Pattern b ids _ => Raid0Pattern_getStripeTargetIndex b ids pos
  | Raid10Pattern b _ _ sz _ => Raid10Pattern_getStripeTargetIndex b sz pos
  | BuddyMirrorPattern b ids _ => BuddyMirrorPattern_getStripeTargetIndex b ids pos
  end.

Definition getStripeTargetID (this : StripePattern) (pos : Z) : outcome Z :=
  match this with
  | SimplePattern _ => SimplePattern_getStripeTargetID pos
  | Raid0Pattern b ids _ => Raid0Pattern_getStripeTargetID b ids pos
  | Raid10Pattern b ids _ sz _ => Raid10Pattern_getStripeTargetID b ids sz pos
  | BuddyMirrorPattern b ids _ => BuddyMirrorPattern_getStripeTargetID b ids pos
  end.

(** [None] is the NULL pointer. *)
Definition getStripeTargetIDs (this : StripePattern) : option Vec :=
  match this with
  | SimplePattern _ => None
  | Raid0Pattern _ ids _ | Raid10Pattern _ ids _ _ _ | BuddyMirrorPattern _ ids _ => Some ids
  end.

Definition getMirrorTargetIDs (this : StripePattern) : option Vec :=
  match this with Raid10Pattern _ _ ids _ _ => Some ids | _ => None end.

Definition getStripeTargetIDsCopy (this : StripePattern) (outTargetIDs : Vec) : outcome Vec :=
  match this with
  | SimplePattern _ => Done outTargetIDs
  | Raid0Pattern _ ids _ | Raid10Pattern _ ids _ _ _ | BuddyMirrorPattern _ ids _ =>
      ListTk_copyUInt16ListToVec (vlist ids) outTargetIDs
  end.

Definition getMinNumTargets (this : StripePattern) : Z :=
  match this with
  | SimplePattern _ => 0
  | Raid0Pattern _ _ _ | BuddyMirrorPattern _ _ _ => 1
  | Raid10Pattern _ _ _ _ _ => 2
  end.

Definition getDefaultNumTargets (this : StripePattern) : Z :=
  match this with
  | SimplePattern _ => 0
  | Raid0Pattern _ _ n | Raid10Pattern _ _ _ _ n | BuddyMirrorPattern _ _ n => n
  end.

(** ** Deserialization *)

(** A deserializer on a raw list, called in the middle of a message. *)
Definition des_raw {A} (d : mem -> outcome (bool * A)) : Des A := fun m c =>
  match d m with
  | Done (true, a) => Done (Some a, c)
  | Done (false, _) => Done (None, c)
  | Fault => Fault
  end.

Definition Raid0Pattern_deserializePattern (base : StripePatternBase) : Des StripePattern :=
  defaultNumTargets ← Serialization_deserializeUInt;
  targetIDsList ← Serialization_deserializeUInt16VecPreprocess;
  ids ← des_raw (fun m => Serialization_deserializeUInt16Vec m targetIDsList UInt16Vec_init);
  if UInt16Vec_length ids =? 0 then des_fail
  else mret (Raid0Pattern base ids defaultNumTargets).

Definition BuddyMirrorPattern_deserializePattern (base : StripePatternBase) : Des StripePattern :=
  defaultNumTargets ← Serialization_deserializeUInt;
  mirrorBuddyGroupIDsVec ← Serialization_deserializeUInt16VecPreprocess;
  ids ← des_raw (fun m => Serialization_deserializeUInt16Vec m mirrorBuddyGroupIDsVec UInt16Vec_init);
  if UInt16Vec_length ids =? 0 then des_fail
  else mret (BuddyMirrorPattern base ids defaultNumTargets).

Definition Raid10Pattern_deserializePattern (base : StripePatternBase) : Des StripePattern :=
  defaultNumTargets ← Serialization_deserializeUInt;
  targetIDsList ← Serialization_deserializeUInt16VecPreprocess;
  ids ← des_raw (fun m => Serialization_deserializeUInt16Vec m targetIDsList UInt16Vec_init);
  mirrorTargetIDsList ← Serialization_deserializeUInt16VecPreprocess;
  mids ← des_raw (fun m => Serialization_deserializeUInt16Vec m mirrorTargetIDsList UInt16Vec_init);
  mret (Raid10Pattern base ids mids (u32 (UInt16Vec_length ids * chunkSize base)) defaultNumTargets).

Record StripePatternHeader := mkSPH {
  hPatternLength : Z; hPatternType : Z; hChunkSize : Z; hStoragePoolId : option Z }.

(** The pool id stays uninitialised ([None]) when the flag says there is none. *)
Definition __StripePattern_deserializeHeader : Des StripePatternHeader :=
  patternLength ← Serialization_deserializeUInt;
  patternType ← Serialization_deserializeUInt;
  chunkSize ← Serialization_deserializeUInt;
  storagePoolId ←
    (if Z.land patternType HAS_NO_POOL_FLAG =? 0
     then id ← StoragePoolId_deserialize; mret (Some id)
     else mret None);
  let patternType := Z.land patternType (u32 (Z.lnot HAS_NO_POOL_FLAG)) in
  if patternLength <? STRIPEPATTERN_HEADER_LENGTH then des_fail
  else if chunkSize =? 0 then des_fail
  else mret (mkSPH patternLength patternType chunkSize storagePoolId).

(** Result: start and length of the pattern's bytes. *)
Definition StripePattern_deserializePatternPreprocess : Des (Z * Z) :=
  ctx ← des_ctx;
  '(outPatternLength, _) ← des_on ctx Serialization_deserializeUInt;
  if dlength ctx <? outPatternLength then des_fail
  else _ ← des_advance outPatternLength; mret (ddata ctx, outPatternLength).

Definition StripePattern_createFromBuf (m : mem) (patternStart patternLength : Z)
    : outcome StripePattern :=
  let invalid := SimplePattern_construct STRIPEPATTERN_Invalid 0 in
  '(header, ctx) ← __StripePattern_deserializeHeader m (mkDes patternStart patternLength);
  match header with
  | None => Done invalid
  | Some h =>
      let deserialize (d : Des StripePattern) :=
        '(deserRes, _) ← d m ctx;
        match deserRes with Some pattern => Done pattern | None => Done invalid end in
      if hPatternType h =? STRIPEPATTERN_Raid0 then
        deserialize (Raid0Pattern_deserializePattern
          (StripePattern_initFromPatternType STRIPEPATTERN_Raid0 (hChunkSize h)))
      else if hPatternType h =? STRIPEPATTERN_Raid10 then
        deserialize (Raid10Pattern_deserializePattern
          (StripePattern_initFromPatternType STRIPEPATTERN_Raid10 (hChunkSize h)))
      else if hPatternType h =? STRIPEPATTERN_BuddyMirror then
        deserialize (BuddyMirrorPattern_deserializePattern
          (StripePattern_initFromPatternType STRIPEPATTERN_BuddyMirror (hChunkSize h)))
      else Done invalid
  end.

#[global] Typeclasses Opaque __StripePattern_deserializeHeader.

(** ** What a striped pattern promises

    [Striped p ids k]: chunk [i] of the file, of [2^k] bytes, lives on the target
    [i mod length ids] of [ids].  Patterns discharge it; the code that maps file
    ranges to targets relies on nothing else. *)

Class Striped (p : StripePattern) (ids : list Z) (k : Z) : Prop := {
  striped_k : 0 <= k < 32;
  striped_ids : ids <> [];
  striped_chunk : StripePattern_getChunkSize p = 2 ^ k;
  striped_index : forall pos, 0 <= pos < 2 ^ 63 ->
    getStripeTargetIndex p pos = Done ((pos / 2 ^ k) mod Z.of_nat (length ids));
  striped_id : forall pos, 0 <= pos < 2 ^ 63 ->
    exists id, ids !! Z.to_nat ((pos / 2 ^ k) mod Z.of_nat (length ids)) = Some id /\
               getStripeTargetID p pos = Done id }.

Lemma pow2_range k : 0 <= k < 32 -> 1 <= 2 ^ k < 2 ^ 32.
Proof.
  intros Hk. split.
  - apply (Z.pow_le_mono_r 2 0 k); lia.
  - apply Z.pow_lt_mono_r; lia.
Qed.

Lemma land_pow2_pred pos k : 0 <= k < 32 -> Z.land pos (u32 (2 ^ k - 1)) = pos mod 2 ^ k.
Proof.
  intros Hk. pose proof (pow2_range k Hk). rewrite u32_id by lia.
  rewrite <- Z.land_ones by lia. by rewrite Z.ones_equiv, Z.sub_1_r.
Qed.

Lemma s64_id x : - 2 ^ 63 <= x < 2 ^ 63 -> s64 x = x.
Proof. intros. apply swrap_id; [lia|]. unfold in_s. lia. Qed.

Lemma chunk_start_mod p k pos :
  0 <= k < 32 -> StripePattern_getChunkSize p = 2 ^ k -> 0 <= pos < 2 ^ 63 ->
  StripePattern_getChunkStart p pos = pos - pos mod 2 ^ k.
Proof.
  intros Hk Hc Hp. unfold StripePattern_getChunkStart. rewrite Hc, land_pow2_pred by done.
  pose proof (pow2_range k Hk). pose proof (Z.mod_pos_bound pos (2 ^ k) ltac:(lia)).
  pose proof (Z.mod_le pos (2 ^ k) ltac:(lia) ltac:(lia)).
  rewrite u32_id by lia. apply s64_id. lia.
Qed.

Lemma chunk_next p k pos :
  0 <= k < 32 -> StripePattern_getChunkSize p = 2 ^ k -> 0 <= pos < 2 ^ 63 - 2 ^ k ->
  StripePattern_getNextChunkStart p pos = pos - pos mod 2 ^ k + 2 ^ k /\
  StripePattern_getChunkEnd p pos = pos - pos mod 2 ^ k + 2 ^ k - 1.
Proof.
  intros Hk Hc Hp. pose proof (pow2_range k Hk).
  pose proof (Z.mod_pos_bound pos (2 ^ k) ltac:(lia)).
  pose proof (Z.mod_le pos (2 ^ k) ltac:(lia) ltac:(lia)).
  unfold StripePattern_getChunkEnd, StripePattern_getNextChunkStart.
  rewrite (chunk_start_mod p k) by (done || lia). rewrite Hc.
  assert (E : s64 (pos - pos mod 2 ^ k + 2 ^ k) = pos - pos mod 2 ^ k + 2 ^ k) by (apply s64_id; lia).
  rewrite E. split; [done|]. apply s64_id. lia.
Qed.

(** ** The patterns are striped *)

Lemma vec_at_id v i :
  vec_wf v -> 0 <= i < Z.of_nat (length (vlist v)) ->
  exists id, vlist v !! Z.to_nat i = Some id /\ UInt16Vec_at v i = Done id.
Proof.
  intros Hw Hi. destruct (lookup_lt_is_Some_2 (vlist v) (Z.to_nat i)) as [id Hid]; [lia|].
  exists id. split; [done|]. destruct (at_wf v (Z.to_nat i) Hw) as [E|]; [|lia].
  rewrite Z2Nat.id in E by lia. by rewrite E, Hid.
Qed.

Lemma nonempty_length {A} (l : list A) : l <> [] -> 0 < Z.of_nat (length l).
Proof. destruct l; [done|simpl; lia]. Qed.

Lemma raid0_index b ids pos :
  0 < chunkSize b -> vlist ids <> [] -> 0 <= pos < 2 ^ 63 ->
  Raid0Pattern_getStripeTargetIndex b ids pos =
    Done ((pos / chunkSize b) mod Z.of_nat (length (vlist ids))).
Proof.
  intros Hc Hn Hp. unfold Raid0Pattern_getStripeTargetIndex, UInt16Vec_length.
  pose proof (nonempty_length _ Hn).
  rewrite !(proj2 (Z.eqb_neq _ _)) by lia.
  rewrite Z.quot_div_nonneg by lia.
  pose proof (Z.div_pos pos (chunkSize b) ltac:(lia) ltac:(lia)).
  pose proof (Z.div_le_upper_bound pos (chunkSize b) pos ltac:(lia) ltac:(nia)).
  by rewrite u64_id by lia.
Qed.

Lemma raid0_id b ids pos :
  0 < chunkSize b -> vec_wf ids -> vlist ids <> [] -> 0 <= pos < 2 ^ 63 ->
  exists id,
    vlist ids !! Z.to_nat ((pos / chunkSize b) mod Z.of_nat (length (vlist ids))) = Some id /\
    Raid0Pattern_getStripeTargetID b ids pos = Done id.
Proof.
  intros Hc Hw Hn Hp. unfold Raid0Pattern_getStripeTargetID. rewrite raid0_index by done. simpl.
  apply vec_at_id; [done|]. apply Z.mod_pos_bound. by apply nonempty_length.
Qed.

#[export] Instance raid0_striped b ids d k :
  0 <= k < 32 -> chunkSize b = 2 ^ k -> vec_wf ids -> vlist ids <> [] ->
  Striped (Raid0Pattern b ids d) (vlist ids) k.
Proof.
  intros Hk Hc Hw Hn. pose proof (pow2_range k Hk).
  split; [done..| |]; intros pos Hp; rewrite <- Hc; [apply raid0_index|apply raid0_id]; done || lia.
Qed.

#[export] Instance buddy_striped b ids d k :
  0 <= k < 32 -> chunkSize b = 2 ^ k -> vec_wf ids -> vlist ids <> [] ->
  Striped (BuddyMirrorPattern b ids d) (vlist ids) k.
Proof.
  intros Hk Hc Hw Hn. destruct (raid0_striped b ids d k Hk Hc Hw Hn) as [H1 H2 H3 H4 H5].
  by split.
Qed.

Lemma pow2_of_land s :
  0 < s < 2 ^ 32 -> MathTk_isPowerOfTwo s = true -> s = 2 ^ Z.log2 s.
Proof.
  unfold MathTk_isPowerOfTwo. intros Hs H. apply Z.eqb_eq in H. rewrite u32_id in H by lia.
  pose proof (Z.log2_spec s ltac:(lia)) as Hl. pose proof (Z.log2_nonneg s).
  destruct (decide (s = 2 ^ Z.log2 s)) as [|Hne]; [done|].
  assert (El : Z.log2 (s - 1) = Z.log2 s) by (apply Z.log2_unique; lia).
  assert (Hb : Z.testbit (Z.land s (s - 1)) (Z.log2 s) = true).
  { rewrite Z.land_spec, Z.bit_log2 by lia. rewrite <- El. apply Z.bit_log2. lia. }
  rewrite H, Z.bits_0 in Hb. done.
Qed.

Lemma mod_mul_div pos c n : 0 < c -> 0 < n -> (pos mod (c * n)) / c = (pos / c) mod n.
Proof.
  intros. rewrite Z.rem_mul_r by lia.
  rewrite Z.add_comm, Z.mul_comm, Z.div_add_l by lia.
  rewrite (Z.div_small (pos mod c)); [lia|]. apply Z.mod_pos_bound. lia.
Qed.

Lemma raid10_index b n k pos :
  0 <= k < 32 -> chunkSize b = 2 ^ k -> 0 < n -> n * 2 ^ k < 2 ^ 32 -> 0 <= pos < 2 ^ 63 ->
  Raid10Pattern_getStripeTargetIndex b (n * 2 ^ k) pos = Done ((pos / 2 ^ k) mod n).
Proof.
  intros Hk Hc Hn Hs Hp. pose proof (pow2_range k Hk).
  unfold Raid10Pattern_getStripeTargetIndex, MathTk_log2Int32, do_div. rewrite Hc.
  rewrite !(proj2 (Z.eqb_neq _ _)) by nia. rewrite Z.log2_pow2, (u64_id pos) by lia. cfs_simpl.
  assert (G : u64 (Z.shiftr (pos mod (n * 2 ^ k)) k) = (pos / 2 ^ k) mod n).
  { rewrite Z.shiftr_div_pow2, (Z.mul_comm n), mod_mul_div by lia.
    pose proof (Z.mod_pos_bound (pos / 2 ^ k) n ltac:(lia)). rewrite u64_id; nia. }
  destruct (MathTk_isPowerOfTwo (n * 2 ^ k)) eqn:E; cfs_simpl; [|by rewrite G].
  apply pow2_of_land in E; [|nia].
  assert (Hl : 0 <= Z.log2 (n * 2 ^ k) < 32).
  { split; [apply Z.log2_nonneg|]. apply Z.log2_lt_pow2; lia. }
  rewrite E at 1. rewrite land_pow2_pred by done. rewrite <- E. by rewrite G.
Qed.

#[export] Instance raid10_striped b ids mids d k :
  0 <= k < 32 -> chunkSize b = 2 ^ k -> vec_wf ids -> vlist ids <> [] ->
  Z.of_nat (length (vlist ids)) * 2 ^ k < 2 ^ 32 ->
  Striped (Raid10Pattern b ids mids (Z.of_nat (length (vlist ids)) * 2 ^ k) d) (vlist ids) k.
Proof.
  intros Hk Hc Hw Hn Hs. pose proof (nonempty_length _ Hn).
  split; [done..| |]; intros pos Hp; simpl.
  - by apply raid10_index.
  - unfold Raid10Pattern_getStripeTargetID.
    rewrite (raid10_index b _ k) by done. simpl. apply vec_at_id; [done|].
    by apply Z.mod_pos_bound.
Qed.

(** ** Deserialized patterns *)

Lemma wp_u16vec {A} (f : Vec -> Des A) m c Q :
  msg_wf m -> ctx_wf m c ->
  (forall v c', vec_wf v -> Z.of_nat (length (vlist v)) < 2 ^ 32 -> ctx_wf m c' -> wp (f v) m c' Q) ->
  wp (raw ← Serialization_deserializeUInt16VecPreprocess;
      v ← des_raw (fun m => Serialization_deserializeUInt16Vec m raw UInt16Vec_init); f v) m c Q.
Proof.
  intros Hm Hc HQ. apply wp_bind, wp_int_list_preprocess; [done..|]. intros r c' Hr _ Hc' _.
  pose proof Hr as (_ & _ & He). unfold in_u in He. apply wp_bind.
  destruct (des_elems_safe Serialization_deserializeUShort UInt16Vec_append
    (fun v k => vec_wf v /\ length (vlist v) = k) m (Z.to_nat (relemCount r))
    (mkDes (rdata r) (rlength r)) UInt16Vec_init 0) as (ok & v & k & E & [Hw Hk] & Hle & Hok).
  - intros. by apply wp_ushort_wf.
  - intros out k x Hk [Hw Hlen]. destruct (append_wf out x) as (v' & E & Hw' & Hv); [done|lia|].
    exists v'. split_and!; [done..|]. rewrite Hv, length_app. simpl. lia.
  - by apply raw_in_ctx.
  - split; [apply vec_wf_init|done].
  - exists (if ok then Some v else None), c'. unfold des_raw, Serialization_deserializeUInt16Vec.
    rewrite E. split_and!; [by destruct ok|unfold ctx_le; ctx_lia|].
    intros a Ha _. destruct ok; [|done]. injection Ha as <-. apply HQ; [done|lia|done].
Qed.

(** What a pattern built from a message satisfies. *)
Definition received_wf (p : StripePattern) : Prop :=
  match p with
  | SimplePattern b => b = mkSP STRIPEPATTERN_Invalid 0 0
  | Raid0Pattern b ids _ =>
      patternType b = STRIPEPATTERN_Raid0 /\ 0 < chunkSize b < 2 ^ 32 /\ vec_wf ids /\ vlist ids <> []
  | BuddyMirrorPattern b ids _ =>
      patternType b = STRIPEPATTERN_BuddyMirror /\ 0 < chunkSize b < 2 ^ 32 /\ vec_wf ids /\
      vlist ids <> []
  | Raid10Pattern b ids mids sz _ =>
      patternType b = STRIPEPATTERN_Raid10 /\ 0 < chunkSize b < 2 ^ 32 /\ vec_wf ids /\
      vec_wf mids /\ sz = u32 (UInt16Vec_length ids * chunkSize b)
  end.

Lemma vec_length_nonzero v : (UInt16Vec_length v =? 0) = false -> vlist v <> [].
Proof. intros H E. unfold UInt16Vec_length in H. by rewrite E in H. Qed.

Lemma wp_raid0 b m c :
  msg_wf m -> ctx_wf m c -> patternType b = STRIPEPATTERN_Raid0 -> 0 < chunkSize b < 2 ^ 32 ->
  wp (Raid0Pattern_deserializePattern b) m c (fun p _ => received_wf p).
Proof.
  intros Hm Hc Ht Hs. apply wp_bind, wp_uint; [done..|]. intros d H4 Hd _.
  apply wp_u16vec; [done|ctx_lia|]. intros v c' Hv Hl Hc'.
  destruct (UInt16Vec_length v =? 0) eqn:E; [apply wp_fail; ctx_lia|].
  apply wp_ret; [ctx_lia|]. simpl. eauto using vec_length_nonzero.
Qed.

Lemma wp_buddy b m c :
  msg_wf m -> ctx_wf m c -> patternType b = STRIPEPATTERN_BuddyMirror -> 0 < chunkSize b < 2 ^ 32 ->
  wp (BuddyMirrorPattern_deserializePattern b) m c (fun p _ => received_wf p).
Proof.
  intros Hm Hc Ht Hs. apply wp_bind, wp_uint; [done..|]. intros d H4 Hd _.
  apply wp_u16vec; [done|ctx_lia|]. intros v c' Hv Hl Hc'.
  destruct (UInt16Vec_length v =? 0) eqn:E; [apply wp_fail; ctx_lia|].
  apply wp_ret; [ctx_lia|]. simpl. eauto using vec_length_nonzero.
Qed.

Lemma wp_raid10 b m c :
  msg_wf m -> ctx_wf m c -> patternType b = STRIPEPATTERN_Raid10 -> 0 < chunkSize b < 2 ^ 32 ->
  wp (Raid10Pattern_deserializePattern b) m c (fun p _ => received_wf p).
Proof.
  intros Hm Hc Ht Hs. apply wp_bind, wp_uint; [done..|]. intros d H4 Hd _.
  apply wp_u16vec; [done|ctx_lia|]. intros v c' Hv Hl Hc'.
  apply wp_u16vec; [done|ctx_lia|]. intros v' c'' Hv' Hl' Hc''.
  apply wp_ret; [ctx_lia|]. done.
Qed.

Lemma wp_header m c :
  msg_wf m -> ctx_wf m c ->
  wp __StripePattern_deserializeHeader m c
     (fun h c' => ctx_wf m c' /\ 12 <= hPatternLength h /\ 0 < hChunkSize h < 2 ^ 32).
Proof.
  intros Hm Hc. apply wp_bind, wp_uint; [done|ctx_lia|]. intros len ? ? _.
  apply wp_bind, wp_uint; [done|ctx_lia|]. intros ty ? ? _.
  apply wp_bind, wp_uint; [done|ctx_lia|]. intros ch ? ? _.
  assert (K : forall (c' : DeserializeCtx) (o : option Z), ctx_wf m c' ->
    wp (let patternType := Z.land ty (u32 (Z.lnot HAS_NO_POOL_FLAG)) in
        if len <? STRIPEPATTERN_HEADER_LENGTH then des_fail
        else if ch =? 0 then des_fail else mret (mkSPH len patternType ch o)) m c'
      (fun h c' => ctx_wf m c' /\ 12 <= hPatternLength h /\ 0 < hChunkSize h < 2 ^ 32)).
  { intros c' o Hc'. cbv zeta. change STRIPEPATTERN_HEADER_LENGTH with 12.
    destruct (Z.ltb_spec len 12); [apply wp_fail; ctx_lia|].
    destruct (Z.eqb_spec ch 0); [apply wp_fail; ctx_lia|].
    apply wp_ret; [ctx_lia|]. split; [done|]. ctx_lia. }
  destruct (Z.land ty HAS_NO_POOL_FLAG =? 0).
  - apply wp_bind, wp_bind, wp_ushort; [done|ctx_lia|]. intros id ? ? _.
    apply wp_ret; [ctx_lia|]. intros _. apply K. ctx_lia.
  - apply wp_bind, wp_ret; [ctx_lia|]. intros _. apply K. ctx_lia.
Qed.

Lemma createFromBuf_received m start len :
  msg_wf m -> in_msg m start len ->
  exists p, StripePattern_createFromBuf m start len = Done p /\ received_wf p.
Proof.
  intros Hm Hin. assert (Hc : ctx_wf m (mkDes start len)) by done.
  unfold StripePattern_createFromBuf.
  destruct (wp_header m _ Hm Hc) as (h & c' & -> & _ & Hh). cfs_simpl.
  destruct h as [h|]; [|by eexists]. destruct (Hh h eq_refl) as (Hc' & _ & Hs).
  assert (G : forall d, wp d m c' (fun p _ => received_wf p) -> exists p,
    ('(deserRes, _) ← d m c';
     match deserRes with
     | Some pattern => Done pattern
     | None => Done (SimplePattern_construct STRIPEPATTERN_Invalid 0) end) = Done p /\ received_wf p).
  { intros d (r & c2 & -> & _ & Hr). cfs_simpl. destruct r as [p|]; eexists; split; eauto. done. }
  repeat case_match; [..|by eexists]; apply G;
    [apply wp_raid0|apply wp_raid10|apply wp_buddy]; done.
Qed.

(** ** Properties *)

(** A pattern with the targets [ids] and chunks of [2^k] bytes.  The stripe set of a
    RAID 10 pattern must fit the 32 bits it is stored in. *)
Definition layout_ok (p : StripePattern) (ids : list Z) (k : Z) : Prop :=
  0 <= k < 32 /\ ids <> [] /\
  match p with
  | Raid0Pattern b v _ | BuddyMirrorPattern b v _ => chunkSize b = 2 ^ k /\ vec_wf v /\ vlist v = ids
  | Raid10Pattern b v _ sz _ => chunkSize b = 2 ^ k /\ vec_wf v /\ vlist v = ids /\
      sz = Z.of_nat (length ids) * 2 ^ k /\ sz < 2 ^ 32
  | SimplePattern _ => False
  end.

Lemma pattern_striped p ids k : layout_ok p ids k -> Striped p ids k.
Proof.
  intros (Hk & Hn & H). destruct p as [b|b v d|b v mv sz d|b v d]; [done|..].
  - destruct H as (Hc & Hv & <-). by apply raid0_striped.
  - destruct H as (Hc & Hv & <- & -> & Hs). by apply raid10_striped.
  - destruct H as (Hc & Hv & <-). by apply buddy_striped.
Qed.

(** The chunk of a position, and its first byte. *)
Lemma chunk_of k pos j :
  0 < 2 ^ k -> 0 <= j < 2 ^ k -> (pos / 2 ^ k * 2 ^ k + j) / 2 ^ k = pos / 2 ^ k.
Proof. intros. rewrite Z.div_add_l, (Z.div_small j) by lia. lia. Qed.

Lemma striped_target p ids k pos :
  Striped p ids k -> 0 <= pos < 2 ^ 63 ->
  getStripeTargetID p pos = of_option (ids !! Z.to_nat ((pos / 2 ^ k) mod Z.of_nat (length ids))).
Proof.
  intros HS Hp. destruct (striped_id (Striped := HS) pos Hp) as (id & -> & ->). done.
Qed.

(** C37: chunk boundaries and round robin.  Take a RAID 0, RAID 10 or buddy mirror
    pattern whose chunk size is the power of two [2^k], with the targets [ids], and a
    position whose next chunk still starts below [2^63].  [getChunkStart] is the
    multiple of the chunk size at or below it, [getNextChunkStart] is one chunk
    further and [getChunkEnd] is the byte before.  The target of every position of
    the chunk is number [(pos / 2^k) mod length ids] of the list, that of the next
    chunk the next one in the list, cyclically, by index and by ID, whichever of the
    three ways of computing it the pattern has. *)
Theorem stripe_layout (p : StripePattern) (ids : list Z) (k pos : Z) :
  layout_ok p ids k -> 0 <= pos < 2 ^ 63 - 2 ^ k ->
  let n := Z.of_nat (length ids) in
  let start := pos / 2 ^ k * 2 ^ k in
  let i := (pos / 2 ^ k) mod n in
  StripePattern_getChunkSize p = 2 ^ k /\
  StripePattern_getChunkStart p pos = start /\
  StripePattern_getNextChunkStart p pos = start + 2 ^ k /\
  StripePattern_getChunkEnd p pos = start + 2 ^ k - 1 /\
  start <= pos <= StripePattern_getChunkEnd p pos /\
  0 <= i < n /\
  (forall q, start <= q < start + 2 ^ k ->
     getStripeTargetIndex p q = Done i /\ getStripeTargetID p q = of_option (ids !! Z.to_nat i)) /\
  getStripeTargetIndex p (start + 2 ^ k) = Done ((i + 1) mod n) /\
  getStripeTargetID p (start + 2 ^ k) = of_option (ids !! Z.to_nat ((i + 1) mod n)).
Proof.
  intros HP Hp n start i. pose proof (pattern_striped p ids k HP) as HS. destruct HP as (Hk & Hne & _).
  pose proof (striped_chunk (Striped := HS)) as Hc. pose proof (pow2_range k Hk).
  pose proof (nonempty_length _ Hne) as Hn. fold n in Hn.
  pose proof (Z.mod_pos_bound pos (2 ^ k) ltac:(lia)) as Hm.
  pose proof (Z.div_mod pos (2 ^ k) ltac:(lia)) as Hd.
  pose proof (Z.div_pos pos (2 ^ k) ltac:(lia) ltac:(lia)) as Hq0.
  assert (Es : pos - pos mod 2 ^ k = start) by (unfold start; lia).
  destruct (chunk_next p k pos) as [En Ee]; [done..|]. rewrite Es in En, Ee.
  rewrite (chunk_start_mod p k), Es, En, Ee by (done || lia).
  split_and!; try done; try lia; [by apply Z.mod_pos_bound..| | |].
  - intros q Hq. assert (Eq : q / 2 ^ k = pos / 2 ^ k).
    { rewrite <- (chunk_of k pos (q - start)) by lia. f_equal. unfold start in *. lia. }
    rewrite (striped_index (Striped := HS)), (striped_target _ _ _ _ HS), Eq by lia. done.
  - rewrite (striped_index (Striped := HS)) by lia. unfold i. rewrite Z.add_mod_idemp_l by lia.
    unfold start. by rewrite Z.div_add_l, Z.div_same by lia.
  - rewrite (striped_target _ _ _ _ HS) by lia. unfold i. rewrite Z.add_mod_idemp_l by lia.
    unfold start. by rewrite Z.div_add_l, Z.div_same by lia.
Qed.

Definition vec_ex : Vec := mkVec [7; 8; 9] [Some 7; Some 8; Some 9; None] 4.

Lemma vec_ex_wf : vec_wf vec_ex.
Proof. by vm_compute. Qed.

(** The second chunk of 512 KiB of a file on the targets 7, 8 and 9, with each kind of
    pattern. *)
Lemma stripe_layout_witness :
  let b t := mkSP t 524288 0 in
  Forall (fun p => getStripeTargetIndex p 1000000 = Done 1 /\ getStripeTargetID p 1000000 = Done 8)
    [Raid0Pattern (b 1) vec_ex 4; Raid10Pattern (b 2) vec_ex vec_ex (3 * 524288) 4;
     BuddyMirrorPattern (b 3) vec_ex 4].
Proof.
  assert (Hk : forall P : Prop, P -> 0 <= 19 < 32 /\ [7; 8; 9] <> [] /\ P)
    by (intros P HP; split; [lia|split; [discriminate|exact HP]]).
  apply Forall_cons_2; [|apply Forall_cons_2; [|apply Forall_cons_2; [|exact (Forall_nil_2 _)]]].
  - destruct (stripe_layout (Raid0Pattern (mkSP 1 524288 0) vec_ex 4) [7; 8; 9] 19 1000000
    ltac:(apply Hk; split; [reflexivity|split; [apply vec_ex_wf|reflexivity]]) ltac:(lia))
    as (_ & _ & _ & _ & _ & _ & H & _); apply (H 1000000); vm_compute; split; [discriminate|reflexivity].
  - destruct (stripe_layout (Raid10Pattern (mkSP 2 524288 0) vec_ex vec_ex (3 * 524288) 4) [7; 8; 9]
    19 1000000 ltac:(apply Hk; split; [reflexivity|split; [apply vec_ex_wf|split; [reflexivity|
      split; [reflexivity|lia]]]]) ltac:(lia))
    as (_ & _ & _ & _ & _ & _ & H & _); apply (H 1000000); vm_compute; split; [discriminate|reflexivity].
  - destruct (stripe_layout (BuddyMirrorPattern (mkSP 3 524288 0) vec_ex 4) [7; 8; 9] 19 1000000
    ltac:(apply Hk; split; [reflexivity|split; [apply vec_ex_wf|reflexivity]]) ltac:(lia))
    as (_ & _ & _ & _ & _ & _ & H & _); apply (H 1000000); vm_compute; split; [discriminate|reflexivity].
Defined.

(** The optimised RAID 10 index is the one its comment names.  With a power of
    two as chunk size and a stripe set that fits 32 bits, masking and shifting
    (or [do_div] and shifting) computes
    [(pos % stripeSetSize) / chunkSize], which is also the RAID 0 index. *)
Theorem raid10_index_equiv (ids mids : Vec) (k d d' pos : Z) :
  0 <= k < 32 -> vlist ids <> [] -> UInt16Vec_length ids * 2 ^ k < 2 ^ 32 -> 0 <= pos < 2 ^ 63 ->
  let chunk := 2 ^ k in
  let sz := UInt16Vec_length ids * chunk in
  let p10 := Raid10Pattern (mkSP STRIPEPATTERN_Raid10 chunk 0) ids mids sz d in
  let p0 := Raid0Pattern (mkSP STRIPEPATTERN_Raid0 chunk 0) ids d' in
  getStripeTargetIndex p10 pos = Done ((pos mod sz) / chunk) /\
  getStripeTargetIndex p10 pos = getStripeTargetIndex p0 pos /\
  getStripeTargetID p10 pos = getStripeTargetID p0 pos.
Proof.
  intros Hk Hn Hs Hp chunk sz p10 p0. pose proof (pow2_range k Hk).
  pose proof (nonempty_length _ Hn) as Hl. unfold UInt16Vec_length in *.
  assert (E10 : getStripeTargetIndex p10 pos = Done ((pos / chunk) mod Z.of_nat (length (vlist ids))))
    by (apply raid10_index; done).
  assert (E0 : getStripeTargetIndex p0 pos = Done ((pos / chunk) mod Z.of_nat (length (vlist ids))))
    by (apply raid0_index; simpl; done || lia).
  split_and!.
  - rewrite E10. unfold sz. by rewrite (Z.mul_comm (Z.of_nat _)), mod_mul_div by lia.
  - by rewrite E10, E0.
  - simpl in *. unfold Raid10Pattern_getStripeTargetID, Raid0Pattern_getStripeTargetID.
    by rewrite E10, E0.
Qed.

Lemma raid10_index_equiv_witness :
  getStripeTargetIndex (Raid10Pattern (mkSP 2 (2 ^ 16) 0) vec_ex vec_ex (3 * 2 ^ 16) 0) 327680 =
    Done ((327680 mod (3 * 2 ^ 16)) / 2 ^ 16).
Proof.
  apply (raid10_index_equiv vec_ex vec_ex 16 0 0 327680
    ltac:(lia) ltac:(done) ltac:(by vm_compute) ltac:(lia)).
Defined.

(** A pattern built from a message is usable.  For any bytes,
    [StripePattern_createFromBuf] returns a pattern without leaving the buffer;
    it is the invalid pattern, or it has a non-zero chunk size and, for RAID 0
    and buddy mirror patterns, at least one target, so that every file position
    maps to one of the pattern's targets. *)
Theorem createFromBuf_usable (m : mem) (start len : Z) :
  msg_wf m -> in_msg m start len ->
  exists p, StripePattern_createFromBuf m start len = Done p /\ received_wf p /\
    forall pos b ids d, 0 <= pos < 2 ^ 63 ->
      p = Raid0Pattern b ids d \/ p = BuddyMirrorPattern b ids d ->
      exists id, getStripeTargetID p pos = Done id /\ id ∈ vlist ids.
Proof.
  intros Hm Hin. destruct (createFromBuf_received m start len Hm Hin) as (p & E & Hr).
  exists p. split_and!; [done..|]. intros pos b ids d Hp [-> | ->]; simpl in *;
    destruct Hr as (_ & Hs & Hw & Hn);
    destruct (raid0_id b ids pos ltac:(lia) Hw Hn Hp) as (id & Hid & E');
    exists id; (split; [exact E'|by eapply list_elem_of_lookup_2]).
Qed.

Definition raid0_msg : mem :=
  [32; 0; 0; 0; 1; 0; 0; 0; 0; 0; 8; 0; 1; 0; 4; 0; 0; 0; 14; 0; 0; 0; 3; 0; 0; 0; 7; 0; 8; 0; 9; 0].

Lemma createFromBuf_usable_witness :
  exists p, StripePattern_createFromBuf raid0_msg 0 32 = Done p /\ received_wf p /\
    exists id, getStripeTargetID p 1000000 = Done id /\ id ∈ [7; 8; 9].
Proof.
  destruct (createFromBuf_usable raid0_msg 0 32
    ltac:(split; [by repeat constructor|by vm_compute]) ltac:(by vm_compute))
    as (p & E & Hr & H).
  exists p. split; [exact E|]. split; [exact Hr|].
  vm_compute in E. injection E as <-. exact (H 1000000 _ _ _ ltac:(lia) (or_introl eq_refl)).
Defined.

(** What [createFromBuf] does not check.  A RAID 10 pattern without targets is
    accepted, although mapping a position to a target then reads outside of the
    target array; so is one whose stripe set does not fit 32 bits (four targets
    with chunks of 2 GiB), where the wrapped stripe set size sends the third chunk
    to the first target; and a chunk size that is no power of two is accepted,
    for which the chunk start (of position 200000 with chunks of 3 * 65536 bytes)
    is wrong. *)
Theorem createFromBuf_unchecked :
  (exists p, StripePattern_createFromBuf
     [34; 0; 0; 0; 2; 0; 0; 0; 0; 0; 8; 0; 1; 0; 4; 0; 0; 0; 8; 0; 0; 0; 0; 0; 0; 0;
      8; 0; 0; 0; 0; 0; 0; 0] 0 34 = Done p /\ getStripeTargetID p 2097152 = Fault) /\
  (exists p ids mids sz d, StripePattern_createFromBuf
     [42; 0; 0; 0; 2; 0; 0; 0; 0; 0; 0; 128; 1; 0; 4; 0; 0; 0; 16; 0; 0; 0; 4; 0; 0; 0;
      7; 0; 8; 0; 9; 0; 10; 0; 8; 0; 0; 0; 0; 0; 0; 0] 0 42 = Done p /\
     p = Raid10Pattern (mkSP 2 (2 ^ 31) 0) ids mids sz d /\ vlist ids = [7; 8; 9; 10] /\
     getStripeTargetID p (2 * 2 ^ 31) = Done 7) /\
  (exists p, StripePattern_createFromBuf
     [32; 0; 0; 0; 1; 0; 0; 0; 0; 0; 3; 0; 1; 0; 4; 0; 0; 0; 14; 0; 0; 0; 3; 0; 0; 0;
      7; 0; 8; 0; 9; 0] 0 32 = Done p /\
     StripePattern_getChunkSize p = 3 * 65536 /\
     200000 - 200000 mod (3 * 65536) = 196608 /\
     StripePattern_getChunkStart p 200000 = 65536).
Proof.
  split_and!; repeat eexists; by vm_compute.
Qed.

(** ** Parsing well-formed patterns *)

Lemma copy_snoc l x v v' :
  ListTk_copyUInt16ListToVec l v = Done v' ->
  ListTk_copyUInt16ListToVec (l ++ [x]) v = UInt16Vec_append v' x.
Proof.
  revert v. induction l as [|y l IH]; intros v; cbn [ListTk_copyUInt16ListToVec app].
  - intros [= ->]. by destruct (UInt16Vec_append v' x).
  - destruct (UInt16Vec_append v y) as [v1|]; cfs_simpl; [|done]. apply IH.
Qed.

Lemma reads_u16vec ids v :
  Forall (in_u 16) ids -> 2 * Z.of_nat (length ids) + 8 < 2 ^ 32 ->
  ListTk_copyUInt16ListToVec ids UInt16Vec_init = Done v ->
  Reads (raw ← Serialization_deserializeUInt16VecPreprocess;
         des_raw (fun m => Serialization_deserializeUInt16Vec m raw UInt16Vec_init))
        (enc_nested (enc_list (le_split 2) ids)) (fun _ => v).
Proof.
  intros Hids Hl Hv. rewrite Forall_forall in Hids.
  pose proof (mlen_enc_each (le_split 2) 2 ids mlen_le2) as He.
  assert (El : mlen (enc_nested (enc_list (le_split 2) ids)) = 2 * Z.of_nat (length ids) + 8)
    by (unfold enc_nested, enc_list; rewrite !mlen_app, !mlen_le4, He; lia).
  pose proof (reads_int_list_preprocess 2 (Z.of_nat (length ids)) (enc_each (le_split 2) ids)
    ltac:(unfold in_u; lia) ltac:(lia) ltac:(lia)) as HR.
  split. intros m p n Hp Hs Hm Hn. unfold mbind, Des_bind.
  change Serialization_deserializeUInt16VecPreprocess with (int_list_preprocess 2).
  rewrite (reads (Reads := HR) m p n Hp Hs Hm Hn).
  assert (Hh : holds m p (enc_nested (enc_list (le_split 2) ids))) by done.
  unfold enc_nested, enc_list in Hh. apply holds_app in Hh as [_ Hh].
  apply holds_app in Hh as [_ Hh]. rewrite !mlen_le4 in Hh.
  unfold des_raw, Serialization_deserializeUInt16Vec. cfs_simpl. rewrite Nat2Z.id.
  replace (p + 8) with (p + 4 + 4) by lia.
  destruct (des_elems_roundtrip Serialization_deserializeUShort UInt16Vec_append (le_split 2)
    (fun out pre => ListTk_copyUInt16ListToVec pre UInt16Vec_init = Done out) ids ids
    UInt16Vec_init [] m (p + 4 + 4) (mlen (enc_each (le_split 2) ids))) as (out & -> & Ho);
    [intros; by apply reads_ushort, Hids| |done|done|done|lia|rewrite Hv in Ho; by simplify_eq].
  intros out pre x post E Hpre. destruct (copy_wf (pre ++ [x]) UInt16Vec_init vec_wf_init)
    as (v' & Ev & _); [rewrite E in Hl; rewrite length_app in *; simpl in *; lia|].
  rewrite (copy_snoc _ _ _ _ Hpre) in Ev. exists v'. split; [done|].
  by rewrite (copy_snoc _ _ _ _ Hpre).
Qed.

(** The wire image of a RAID 0 or buddy mirror pattern with a pool id. *)
Definition serialize_pattern (len ty chunk pool d : Z) (ids : list Z) : Ser :=
  Serialization_serializeUInt len ;;; Serialization_serializeUInt ty ;;;
  Serialization_serializeUInt chunk ;;; StoragePoolId_serialize pool ;;;
  Serialization_serializeUInt d ;;; Serialization_serializeUInt16List ids.

Definition enc_header (len ty chunk pool : Z) : mem :=
  le_split 4 len ++ le_split 4 ty ++ le_split 4 chunk ++ le_split 2 pool.
Definition enc_pattern (len ty chunk pool d : Z) (ids : list Z) : mem :=
  enc_header len ty chunk pool ++ le_split 4 d ++ enc_nested (enc_list (le_split 2) ids).

Lemma reads_header len ty chunk pool :
  12 <= len < 2 ^ 32 -> 0 <= ty < 2 ^ 24 -> 0 < chunk < 2 ^ 32 -> in_u 16 pool ->
  Reads __StripePattern_deserializeHeader (enc_header len ty chunk pool)
        (fun _ => mkSPH len ty chunk (Some pool)).
Proof.
  intros Hlen Hty Hc Hp. unfold enc_header.
  assert (Hbit : Z.testbit ty 24 = false).
  { destruct (decide (ty = 0)) as [->|]; [done|].
    apply Z.bits_above_log2; [lia|]. apply Z.log2_lt_pow2; lia. }
  assert (E1 : Z.land ty HAS_NO_POOL_FLAG = 0).
  { apply Z.bits_inj'. intros i Hi. unfold HAS_NO_POOL_FLAG.
    rewrite Z.land_spec, Z.bits_0, Z.shiftl_1_l, Z.pow2_bits_eqb by lia.
    destruct (Z.eqb_spec 24 i) as [<-|]; [by rewrite Hbit|apply andb_false_r]. }
  assert (E2 : Z.land ty (u32 (Z.lnot HAS_NO_POOL_FLAG)) = ty).
  { apply Z.bits_inj'. intros i Hi. rewrite Z.land_spec.
    destruct (decide (24 <= i)) as [Hge|Hlt].
    - rewrite (Z.bits_above_log2 ty i); [done|lia|].
      destruct (decide (ty = 0)) as [->|]; [simpl; lia|].
      apply Z.lt_le_trans with 24; [apply Z.log2_lt_pow2; lia|done].
    - replace (Z.testbit (u32 (Z.lnot HAS_NO_POOL_FLAG)) i) with true; [apply andb_true_r|].
      unfold u32, wrap, HAS_NO_POOL_FLAG.
      rewrite Z.mod_pow2_bits_low, Z.lnot_spec, Z.shiftl_1_l, Z.pow2_bits_eqb by lia.
      destruct (Z.eqb_spec 24 i); [lia|done]. }
  unfold __StripePattern_deserializeHeader.
  eapply reads_bind_const; [apply reads_uint; unfold in_u; lia|].
  eapply reads_bind_const; [apply reads_uint; unfold in_u; lia|].
  eapply reads_bind_const; [apply reads_uint; unfold in_u; lia|].
  rewrite E1. change (0 =? 0) with true. cbv iota.
  rewrite <- (app_nil_r (le_split 2 pool)).
  eapply reads_bind_const; [apply (reads_bind_ret _ Some _ (fun _ => pool)); by apply reads_ushort|].
  rewrite E2. change STRIPEPATTERN_HEADER_LENGTH with 12.
  rewrite (proj2 (Z.ltb_ge _ _)), (proj2 (Z.eqb_neq _ _)) by lia. apply reads_ret.
Qed.

Lemma reads_striped_body (mk : Vec -> Z -> StripePattern) d ids v :
  Forall (in_u 16) ids -> 2 * Z.of_nat (length ids) + 8 < 2 ^ 32 -> ids <> [] -> in_u 32 d ->
  ListTk_copyUInt16ListToVec ids UInt16Vec_init = Done v ->
  Reads (defaultNumTargets ← Serialization_deserializeUInt;
         raw ← Serialization_deserializeUInt16VecPreprocess;
         v ← des_raw (fun m => Serialization_deserializeUInt16Vec m raw UInt16Vec_init);
         if UInt16Vec_length v =? 0 then des_fail else mret (mk v defaultNumTargets))
        (le_split 4 d ++ enc_nested (enc_list (le_split 2) ids)) (fun _ => mk v d).
Proof.
  intros Hids Hl Hn Hd Hv. eapply reads_bind_const; [by apply reads_uint|].
  destruct (copy_wf ids UInt16Vec_init vec_wf_init) as (v' & Ev & Hw & El); [simpl; lia|].
  rewrite Hv in Ev. injection Ev as <-. simpl in El.
  pose proof (reads_u16vec ids v Hids Hl Hv) as HR.
  split. intros m p n Hp Hs Hm Hn'. destruct HR as [HR]. specialize (HR m p n Hp Hs Hm Hn').
  unfold mbind, Des_bind in *. cbn [int_list_preprocess] in *.
  destruct (Serialization_deserializeUInt16VecPreprocess m (mkDes p n)) as [[[raw|] c]|]; try done.
  rewrite HR. unfold UInt16Vec_length. rewrite El.
  pose proof (nonempty_length _ Hn). by rewrite (proj2 (Z.eqb_neq _ _)) by lia.
Qed.

(** Well-formed patterns are understood.  A RAID 0 or buddy mirror pattern
    written with the client's serializers (length, type, chunk size, pool,
    default number of targets, target ids) is skipped as a unit by the
    preprocessing and rebuilt by [createFromBuf] with the same type, chunk size,
    default and targets. *)
Theorem createFromBuf_roundtrip (ids : list Z) (buddy : bool) (chunk pool d : Z) (m : mem)
    (b len n : Z) :
  let sz := 26 + 2 * Z.of_nat (length ids) in
  let ty := if buddy then STRIPEPATTERN_BuddyMirror else STRIPEPATTERN_Raid0 in
  Forall (in_u 16) ids -> ids <> [] -> 0 < chunk < 2 ^ 32 -> in_u 16 pool -> in_u 32 d ->
  0 <= b -> 0 <= len -> len + sz < 2 ^ 32 -> b + len + sz <= mlen m -> sz <= n < 2 ^ 64 ->
  exists m' v,
    serialize_pattern sz ty chunk pool d ids m (mkSer (Some b) len) =
      Done (m', mkSer (Some b) (len + sz)) /\
    StripePattern_deserializePatternPreprocess m' (mkDes (b + len) n) =
      Done (Some (b + len, sz), mkDes (b + len + sz) (n - sz)) /\
    StripePattern_createFromBuf m' (b + len) sz =
      Done ((if buddy then BuddyMirrorPattern else Raid0Pattern) (mkSP ty chunk 0) v d) /\
    vec_wf v /\ vlist v = ids.
Proof.
  intros sz ty Hids Hn Hc Hp Hd Hb Hl Hf Hm Hlen.
  pose proof (mlen_enc_each (le_split 2) 2 ids mlen_le2) as He.
  set (enc := enc_pattern sz ty chunk pool d ids).
  assert (El : mlen (enc_header sz ty chunk pool) = 14)
    by (unfold enc_header; rewrite !mlen_app, !mlen_le4, mlen_le2; done).
  assert (Eb : mlen (le_split 4 d ++ enc_nested (enc_list (le_split 2) ids)) = sz - 14)
    by (unfold enc_nested, enc_list; rewrite !mlen_app, !mlen_le4, He; lia).
  assert (Es : mlen enc = sz) by (unfold enc, enc_pattern; rewrite mlen_app, El, Eb; lia).
  assert (HW : Writes (serialize_pattern sz ty chunk pool d ids) enc).
  { unfold enc, enc_pattern, enc_header, serialize_pattern. rewrite <- !app_assoc.
    do 3 (apply writes_seq; [apply _|]). apply writes_seq; [apply writes_ushort|].
    apply writes_seq; [apply _|]. apply (writes_int_list _ _ ids writes_ushort). lia. }
  destruct (copy_wf ids UInt16Vec_init vec_wf_init) as (v & Ev & Hw & Hv); [simpl; lia|].
  exists (put m (b + len) enc), v.
  assert (Hh : holds (put m (b + len) enc) (b + len) enc)
    by (split_and!; [lia|rewrite mlen_put; lia|apply slice_put; lia]).
  split_and!; [rewrite (writes_buf (Writes := HW)) by lia; by rewrite Es| | |done|done].
  - unfold StripePattern_deserializePatternPreprocess, mbind at 1, Des_bind at 1, des_ctx.
    pose proof Hh as Hh1. unfold enc, enc_pattern, enc_header in Hh1.
    rewrite <- !app_assoc in Hh1. apply holds_app in Hh1 as [Hh1 _].
    erewrite des_on_run by (apply (holds_reads _ _ _ _ _ _ (reads_uint sz ltac:(unfold in_u; lia)));
      [exact Hh1|rewrite mlen_le4; lia]).
    cfs_simpl. rewrite (proj2 (Z.ltb_ge _ _)) by lia.
    unfold mbind, Des_bind, des_advance, mret, Des_ret. by rewrite ctx_advance_ok by lia.
  - unfold enc, enc_pattern in Hh. apply holds_app in Hh as [H1 H2]. rewrite El in H2.
    unfold StripePattern_createFromBuf.
    rewrite (holds_reads _ _ _ _ _ _ (reads_header sz ty chunk pool ltac:(lia)
      ltac:(destruct buddy; by vm_compute) Hc Hp) H1) by lia. cfs_simpl. rewrite El.
    destruct buddy; subst ty; cbn [hPatternType hChunkSize Z.eqb Pos.eqb STRIPEPATTERN_Raid0
      STRIPEPATTERN_Raid10 STRIPEPATTERN_BuddyMirror];
      [unfold BuddyMirrorPattern_deserializePattern|unfold Raid0Pattern_deserializePattern];
      rewrite (holds_reads _ _ _ _ _ _ (reads_striped_body _ d ids v Hids ltac:(lia) Hn Hd Ev) H2)
        by lia; done.
Qed.

Lemma createFromBuf_roundtrip_witness : exists m' v,
  StripePattern_createFromBuf m' 0 32 = Done (BuddyMirrorPattern (mkSP 3 524288 0) v 4) /\
  vlist v = [7; 8; 9].
Proof.
  destruct (createFromBuf_roundtrip [7; 8; 9] true 524288 1 4 (replicate 40 0) 0 0 32
    ltac:(by repeat constructor) ltac:(done) ltac:(lia) ltac:(by vm_compute) ltac:(by vm_compute)
    ltac:(lia) ltac:(lia) ltac:(by vm_compute) ltac:(by vm_compute) ltac:(by vm_compute))
    as (m' & v & _ & _ & E & _ & Hv).
  exists m', v. split; [exact E|exact Hv].
Defined.
