(* ===== verification/BitStore.v ===== *)
(** * BitStore: a vector of bits with a wire format shared by 32- and 64-bit machines

    Models [toolkit/BitStore.h] and [toolkit/BitStore.c].  The first block of bits
    is a field of the struct, the others an array that exists only for larger
    stores.  The size of a block in bytes, [sizeof(long unsigned)], is a parameter:
    8 on 64-bit and 4 on 32-bit machines.  A block that was never written is
    [None], and using it is a [Fault]. *)

From S2P Require Import Prelude Serialization SerializationLists.

Record BitStore := mkBS {
  numBits : Z; lowerBits : option Z; higherBits : option (list (option Z)) }.

#[export] Instance BitStore_eq_dec : EqDecision BitStore.
Proof. solve_decision. Defined.

(** The kernel's bit operations on one word. *)
Definition test_bit (nr w : Z) : bool := Z.testbit w nr.
Definition set_bit (nr w : Z) : Z := Z.lor w (Z.shiftl 1 nr).
Definition clear_bit (nr w : Z) : Z := Z.ldiff w (Z.shiftl 1 nr).

(** [memcpy] and [memset] of [n] blocks from index [i] on. *)
Definition blocks_copy (dst src : list (option Z)) (n : Z) : outcome (list (option Z)) :=
  if (0 <=? n) && (n <=? Z.of_nat (length dst)) && (n <=? Z.of_nat (length src))
  then Done (take (Z.to_nat n) src ++ drop (Z.to_nat n) dst) else Fault.
Definition blocks_zero (dst : list (option Z)) (i n : Z) : outcome (list (option Z)) :=
  if (0 <=? i) && (0 <=? n) && (i + n <=? Z.of_nat (length dst))
  then Done (take (Z.to_nat i) dst ++ replicate (Z.to_nat n) (Some 0) ++ drop (Z.to_nat (i + n)) dst)
  else Fault.

Section BitStore.
Context (BITSTORE_BLOCK_SIZE : Z).

Definition BITSTORE_BLOCK_BIT_COUNT : Z := BITSTORE_BLOCK_SIZE * 8.
Definition BITSTORE_BLOCK_INIT_MASK : Z := 0.

Definition BitStore_getBitBlockIndex (bitIndex : Z) : Z :=
  u32 (bitIndex / BITSTORE_BLOCK_BIT_COUNT).
Definition BitStore_getBitIndexInBitBlock (bitIndex : Z) : Z :=
  u32 (bitIndex mod BITSTORE_BLOCK_BIT_COUNT).

Definition BitStore_calculateBitBlockCount (size : Z) : Z :=
  if size <=? BITSTORE_BLOCK_BIT_COUNT then 1
  else
    let retVal := u32 (size / BITSTORE_BLOCK_BIT_COUNT) in
    if negb (size mod BITSTORE_BLOCK_BIT_COUNT =? 0) then u32 (retVal + 1) else retVal.

(** [uninit] is the struct before the call. *)
Definition BitStore_init (uninit : BitStore) (setZero : bool) : BitStore :=
  mkBS (u32 BITSTORE_BLOCK_BIT_COUNT)
       (if setZero then Some BITSTORE_BLOCK_INIT_MASK else lowerBits uninit) None.

(** [this->higherBits[i]] *)
Definition load_higher (this : BitStore) (i : Z) : outcome Z :=
  match higherBits this with
  | Some a => if 0 <=? i then match a !! Z.to_nat i with Some (Some w) => Done w | _ => Fault end
              else Fault
  | None => Fault
  end.
Definition store_higher (this : BitStore) (i : Z) (w : option Z) : outcome BitStore :=
  match higherBits this with
  | Some a => if (0 <=? i) && (i <? Z.of_nat (length a))
              then Done (mkBS (numBits this) (lowerBits this) (Some (<[Z.to_nat i := w]> a)))
              else Fault
  | None => Fault
  end.

Definition BitStore_getBit (this : BitStore) (bitIndex : Z) : outcome bool :=
  if numBits this <=? bitIndex then Done false
  else
    let index := BitStore_getBitBlockIndex bitIndex in
    let indexInBitBlock := BitStore_getBitIndexInBitBlock bitIndex in
    if index =? 0 then w ← of_option (lowerBits this); Done (test_bit indexInBitBlock w)
    else w ← load_higher this (index - 1); Done (test_bit indexInBitBlock w).

(** An index out of bounds is only logged. *)
Definition BitStore_setBit (this : BitStore) (bitIndex : Z) (isSet : bool) : outcome BitStore :=
  let index := BitStore_getBitBlockIndex bitIndex in
  let indexInBitBlock := BitStore_getBitIndexInBitBlock bitIndex in
  let update w := if isSet then set_bit indexInBitBlock w else clear_bit indexInBitBlock w in
  if numBits this <=? bitIndex then Done this
  else if index =? 0 then
    w ← of_option (lowerBits this);
    Done (mkBS (numBits this) (Some (update w)) (higherBits this))
  else
    w ← load_higher this (index - 1);
    store_higher this (index - 1) (Some (update w)).

Definition BitStore_setSize (this : BitStore) (newSize : Z) : BitStore :=
  let oldBitBlockCount := BitStore_calculateBitBlockCount (numBits this) in
  let newBitBlockCount := BitStore_calculateBitBlockCount newSize in
  if negb (newBitBlockCount =? oldBitBlockCount) then
    mkBS (u32 (newBitBlockCount * BITSTORE_BLOCK_BIT_COUNT)) (lowerBits this)
         (if 1 <? newBitBlockCount
          then Some (replicate (Z.to_nat (newBitBlockCount - 1)) None) else None)
  else this.

Definition BitStore_clearBits (this : BitStore) : outcome BitStore :=
  match higherBits this with
  | Some a =>
      let bitBlockCount := BitStore_calculateBitBlockCount (numBits this) in
      a' ← blocks_zero a 0 (bitBlockCount - 1);
      Done (mkBS (numBits this) (Some BITSTORE_BLOCK_INIT_MASK) (Some a'))
  | None => Done (mkBS (numBits this) (Some BITSTORE_BLOCK_INIT_MASK) None)
  end.

Definition BitStore_initWithSizeAndReset (uninit : BitStore) (size : Z) : outcome BitStore :=
  BitStore_clearBits (BitStore_setSize (BitStore_init uninit false) size).

(** ** Serialization *)

Definition serialize_block (w : outcome Z) : Ser := fun m c =>
  w ← w;
  (if BITSTORE_BLOCK_SIZE =? 8 then Serialization_serializeUInt64 w
   else if BITSTORE_BLOCK_SIZE =? 4 then Serialization_serializeUInt w
   else ser_skip) m c.

(** The loop over [higherBits]; [n] blocks are left from [index] on. *)
Fixpoint serialize_higher (this : BitStore) (index : Z) (n : nat) : Ser :=
  match n with
  | O => ser_skip
  | S n' => serialize_block (load_higher this index) ;;; serialize_higher this (index + 1) n'
  end.

Definition BitStore_serialize (this : BitStore) : Ser :=
  let blockCount := BitStore_calculateBitBlockCount (numBits this) in
  Serialization_serializeUInt (numBits this) ;;;
  Serialization_serializeUInt 0 ;;;
  serialize_block (of_option (lowerBits this)) ;;;
  serialize_higher this 0 (Z.to_nat (blockCount - 1)) ;;;
  if (BITSTORE_BLOCK_SIZE =? 4) && (Z.land blockCount 1 =? 1)
  then Serialization_serializeUInt 0 else ser_skip.

(** Result: the start of the store's bytes. *)
Definition BitStore_deserializePreprocess : Des Z :=
  ctx0 ← des_ctx;
  tmpSize ← Serialization_deserializeUInt;
  _ ← Serialization_deserializeUInt;
  let blockCount := BitStore_calculateBitBlockCount tmpSize in
  blocksLen ←
    (if BITSTORE_BLOCK_SIZE =? 8 then mret (u32 (Serialization_serialLenUInt64 * blockCount))
     else if BITSTORE_BLOCK_SIZE =? 4 then
       let blockCount := if Z.land blockCount 1 =? 1 then u32 (blockCount + 1) else blockCount in
       mret (u32 (Serialization_serialLenUInt * blockCount))
     else des_fail);
  ctx ← des_ctx;
  if dlength ctx <? blocksLen then des_fail
  else _ ← des_advance blocksLen; mret (ddata ctx0).

(** Results of the deserializers are ignored: a failing one leaves the block. *)
Definition deserialize_block (old : option Z) (m : mem) (c : DeserializeCtx)
    : outcome (option Z * DeserializeCtx) :=
  if BITSTORE_BLOCK_SIZE =? 8 then
    des_ignore (w ← Serialization_deserializeUInt64; mret (Some w)) old m c
  else if BITSTORE_BLOCK_SIZE =? 4 then
    des_ignore (w ← Serialization_deserializeUInt; mret (Some w)) old m c
  else Done (old, c).

Fixpoint deserialize_higher (this : BitStore) (index : Z) (n : nat) (m : mem) (c : DeserializeCtx)
    : outcome (BitStore * DeserializeCtx) :=
  match n with
  | O => Done (this, c)
  | S n' =>
      old ← of_option (higherBits this ≫= fun a => a !! Z.to_nat index);
      '(w, c) ← deserialize_block old m c;
      this ← store_higher this index w;
      deserialize_higher this (index + 1) n' m c
  end.

Definition BitStore_deserialize (this : BitStore) (m : mem) (c : DeserializeCtx)
    : outcome (BitStore * DeserializeCtx) :=
  '(bitCount, c) ← des_ignore Serialization_deserializeUInt 0 m c;
  '(_, c) ← des_ignore Serialization_deserializeUInt 0 m c;
  let this := BitStore_setSize this bitCount in
  '(w, c) ← deserialize_block (lowerBits this) m c;
  let this := mkBS (numBits this) w (higherBits this) in
  let blockCount := BitStore_calculateBitBlockCount (numBits this) in
  '(this, c) ← deserialize_higher this 0 (Z.to_nat (blockCount - 1)) m c;
  '(_, c) ← (if (BITSTORE_BLOCK_SIZE =? 4) && (Z.land blockCount 1 =? 1)
             then des_ignore Serialization_deserializeUInt 0 m c else Done (0, c));
  Done (this, c).

(** ** Copies *)

Definition BitStore_copy (this other : BitStore) : outcome BitStore :=
  let this := BitStore_setSize this (numBits other) in
  let this := mkBS (numBits this) (lowerBits other) (higherBits this) in
  match higherBits this with
  | None => Done this
  | Some a =>
      let blockCount := BitStore_calculateBitBlockCount (numBits this) in
      src ← of_option (higherBits other);
      a' ← blocks_copy a src (blockCount - 1);
      Done (mkBS (numBits this) (lowerBits this) (Some a'))
  end.

Definition BitStore_copyThreadSafe (this other : BitStore) : outcome BitStore :=
  match higherBits this with
  | None => Done (mkBS (numBits this) (lowerBits other) None)
  | Some a =>
      let thisBlockCount := BitStore_calculateBitBlockCount (numBits this) in
      let otherBlockCount := BitStore_calculateBitBlockCount (numBits other) in
      a1 ← (if 1 <? otherBlockCount then
              src ← of_option (higherBits other);
              blocks_copy a src (Z.min thisBlockCount otherBlockCount - 1)
            else Done a);
      a2 ← (if otherBlockCount <? thisBlockCount then
              blocks_zero a1 (otherBlockCount - 1) (thisBlockCount - otherBlockCount)
            else Done a1);
      Done (mkBS (numBits this) (lowerBits other) (Some a2))
  end.
End BitStore.

(** ** What a store represents

    A fully initialised store is determined by its blocks; read as one
    little-endian number, bit [i] of the store is bit [i] of that number. *)

Definition of_blocks (bs : Z) (ws : list Z) : BitStore :=
  mkBS (Z.of_nat (length ws) * (bs * 8)) (head ws)
       (match tail ws with [] => None | tl => Some (Some <$> tl) end).

Definition blocks_wf (bs : Z) (ws : list Z) : Prop :=
  ws <> [] /\ Forall (in_u (bs * 8)) ws /\ Z.of_nat (length ws) * (bs * 8) < 2 ^ 32.

Definition payload (bs : Z) (ws : list Z) : mem := enc_each (le_split (Z.to_nat bs)) ws.
Definition bits_val (bs : Z) (ws : list Z) : Z := le_combine (payload bs ws).

(** The shape of a store with [n] blocks, whatever the blocks hold. *)
Definition shape (bs n : Z) (s : BitStore) : Prop :=
  1 <= n /\ n * (bs * 8) < 2 ^ 32 /\ numBits s = n * (bs * 8) /\
  match higherBits s with
  | None => n = 1
  | Some a => 1 < n /\ Z.of_nat (length a) = n - 1
  end.

Lemma le_combine_app a b :
  Forall is_byte a -> le_combine (a ++ b) = le_combine a + 2 ^ (8 * mlen a) * le_combine b.
Proof.
  induction 1 as [|x a Hx Ha IH]; cbn [app le_combine].
  - rewrite mlen_nil. simpl. lia.
  - rewrite !lor_shiftl_add, IH, mlen_cons by done.
    replace (8 * (1 + mlen a)) with (8 + 8 * mlen a) by lia.
    rewrite Z.pow_add_r by (pose proof (mlen_nonneg a); lia).
    change (2 ^ 8) with 256. lia.
Qed.

Lemma testbit_add_mul w x k i :
  0 <= k -> 0 <= w < 2 ^ k -> 0 <= i ->
  Z.testbit (w + 2 ^ k * x) i = if i <? k then Z.testbit w i else Z.testbit x (i - k).
Proof.
  intros Hk Hw Hi. destruct (Z.ltb_spec i k).
  - rewrite <- (Z.mod_pow2_bits_low (w + 2 ^ k * x) k) by lia.
    rewrite Z.mul_comm, Z.mod_add, Z.mod_small by lia. done.
  - replace i with (i - k + k) at 1 by lia. rewrite <- Z.div_pow2_bits by lia.
    rewrite Z.mul_comm, Z.div_add, Z.div_small by lia. done.
Qed.

Section BitStoreProofs.
Context (bs : Z) (Hbs : bs = 4 \/ bs = 8).

Abbreviation BITS := (bs * 8).

Lemma BITS_pos : 32 <= BITS <= 64.
Proof. lia. Qed.

Lemma bits_val_cons w ws :
  in_u BITS w -> bits_val bs (w :: ws) = w + 2 ^ BITS * bits_val bs ws.
Proof.
  intros Hw. unfold bits_val, payload. cbn [enc_each].
  rewrite le_combine_app by apply le_split_bytes. rewrite mlen_le_split, le_combine_split_id.
  - by replace (8 * Z.of_nat (Z.to_nat bs)) with BITS by lia.
  - by replace (8 * Z.of_nat (Z.to_nat bs)) with BITS by lia.
Qed.

Lemma bits_val_testbit ws i :
  Forall (in_u BITS) ws -> 0 <= i ->
  Z.testbit (bits_val bs ws) i =
    match ws !! Z.to_nat (i / BITS) with Some w => Z.testbit w (i mod BITS) | None => false end.
Proof.
  intros Hf. revert i. induction Hf as [|w ws Hw Hf IH]; intros i Hi.
  - rewrite lookup_nil. apply Z.bits_0.
  - rewrite bits_val_cons by done. pose proof BITS_pos.
    rewrite testbit_add_mul by (unfold in_u in *; lia).
    destruct (Z.ltb_spec i BITS).
    + rewrite Z.div_small, Z.mod_small by lia. done.
    + rewrite IH by lia.
      assert (E : i / BITS = (i - BITS) / BITS + 1).
      { replace i with (i - BITS + 1 * BITS) at 1 by lia. by rewrite Z.div_add by lia. }
      assert (E' : i mod BITS = (i - BITS) mod BITS).
      { replace i with (i - BITS + 1 * BITS) at 1 by lia. by rewrite Z.mod_add by lia. }
      pose proof (Z.div_pos (i - BITS) BITS ltac:(lia) ltac:(lia)).
      rewrite E, E'. replace (Z.to_nat ((i - BITS) / BITS + 1)) with (S (Z.to_nat ((i - BITS) / BITS)))
        by lia. done.
Qed.

(** Block counts: [n] blocks hold [n * BITS] bits, and the count of any size is
    rounded up. *)
Lemma block_count_mul n :
  1 <= n -> n * BITS < 2 ^ 32 -> BitStore_calculateBitBlockCount bs (n * BITS) = n.
Proof.
  intros Hn Hb. pose proof BITS_pos. unfold BitStore_calculateBitBlockCount, BITSTORE_BLOCK_BIT_COUNT.
  destruct (Z.leb_spec (n * BITS) BITS); [nia|].
  rewrite Z.div_mul, Z.mod_mul by lia. simpl. apply u32_id. nia.
Qed.

Lemma block_count_spec size :
  0 <= size <= 2 ^ 32 - BITS ->
  let n := BitStore_calculateBitBlockCount bs size in
  1 <= n /\ n * BITS < 2 ^ 32 /\ size <= n * BITS /\ (1 < n -> (n - 1) * BITS < size).
Proof.
  intros Hs. pose proof BITS_pos. unfold BitStore_calculateBitBlockCount, BITSTORE_BLOCK_BIT_COUNT.
  destruct (Z.leb_spec size BITS); [cbv zeta; lia|].
  pose proof (Z.div_mod size BITS ltac:(lia)) as Hd.
  pose proof (Z.mod_pos_bound size BITS ltac:(lia)).
  assert (Hq : 1 <= size / BITS) by (apply Z.div_le_lower_bound; lia).
  set (q := size / BITS) in *. set (r := size mod BITS) in *.
  assert (Hqb : q * BITS <= size) by lia. assert (Hq32 : q < 2 ^ 32) by nia.
  rewrite (u32_id q) by lia.
  destruct (Z.eqb_spec r 0) as [E|E]; cbv zeta iota; cbn [negb].
  - split_and!; [lia|lia|lia|]. intros. lia.
  - assert (Hq1 : (q + 1) * BITS < 2 ^ 32) by lia.
    rewrite u32_id by nia. split_and!; [lia|lia|lia|]. intros. lia.
Qed.

(** ** Shapes *)

Lemma shape_count n s : shape bs n s -> BitStore_calculateBitBlockCount bs (numBits s) = n.
Proof. intros (H1 & H2 & -> & _). by apply block_count_mul. Qed.

Lemma shape_of_blocks ws :
  blocks_wf bs ws -> shape bs (Z.of_nat (length ws)) (of_blocks bs ws).
Proof.
  intros (Hn & _ & Hb). unfold shape, of_blocks. cbn [numBits higherBits].
  destruct ws as [|w [|w' tl]]; [done|simpl in *; lia|].
  cbn [tail]. rewrite length_fmap. simpl in *. lia.
Qed.

Lemma setSize_shape n s size :
  shape bs n s -> 0 <= size <= 2 ^ 32 - BITS ->
  let n' := BitStore_calculateBitBlockCount bs size in
  shape bs n' (BitStore_setSize bs s size) /\
  lowerBits (BitStore_setSize bs s size) = lowerBits s /\
  size <= numBits (BitStore_setSize bs s size).
Proof.
  intros Hs Hsz n'. pose proof BITS_pos. pose proof (block_count_spec size Hsz) as (H1 & H2 & H3 & _).
  fold n' in H1, H2, H3. unfold BitStore_setSize. rewrite (shape_count n s Hs). fold n'.
  destruct (Z.eqb_spec n' n) as [->|Hne]; cbn [negb].
  - destruct Hs as (? & ? & E & ?). split_and!; [done..|]. by rewrite E.
  - unfold shape, BITSTORE_BLOCK_BIT_COUNT. cbn [numBits lowerBits higherBits].
    rewrite u32_id by lia.
    destruct (Z.ltb_spec 1 n'); rewrite ?length_replicate; split_and!; done || lia.
Qed.

Lemma init_shape u : shape bs 1 (BitStore_init bs u false).
Proof.
  unfold shape, BitStore_init, BITSTORE_BLOCK_BIT_COUNT. cbn [numBits higherBits].
  pose proof BITS_pos. rewrite u32_id; lia.
Qed.

Lemma blocks_zero_all a : blocks_zero a 0 (Z.of_nat (length a)) = Done (replicate (length a) (Some 0)).
Proof.
  unfold blocks_zero. rewrite (proj2 (Z.leb_le 0 _)), (proj2 (Z.leb_le _ _)) by lia. simpl.
  rewrite Z.add_0_l, (proj2 (Z.leb_le _ _)), Nat2Z.id by lia.
  rewrite drop_ge, app_nil_r by lia. done.
Qed.

Lemma clearBits_blocks n s :
  shape bs n s -> BitStore_clearBits bs s = Done (of_blocks bs (replicate (Z.to_nat n) 0)).
Proof.
  intros Hs. pose proof (shape_count n s Hs) as Hc. destruct Hs as (H1 & H2 & H3 & H4).
  unfold BitStore_clearBits. destruct s as [nb lo [a|]]; cbn [numBits higherBits] in *.
  - destruct H4 as [H4 H5]. rewrite Hc, <- H5, blocks_zero_all. cfs_simpl.
    unfold of_blocks, BITSTORE_BLOCK_INIT_MASK. rewrite length_replicate, Z2Nat.id by lia.
    replace (Z.to_nat n) with (S (length a)) by lia. cbn [replicate head tail].
    assert (length a <> 0%nat) by lia. destruct (length a) as [|k] eqn:E; [done|].
    cbn [replicate]. by rewrite fmap_cons, fmap_replicate, H3.
  - subst n. by rewrite H3.
Qed.

Lemma zero_blocks_wf n : (0 < n)%nat -> Z.of_nat n * BITS < 2 ^ 32 -> blocks_wf bs (replicate n 0).
Proof.
  intros Hn Hb. split_and!; [destruct n; [lia|done]|apply Forall_replicate; unfold in_u|by rewrite length_replicate].
  pose proof BITS_pos. split; [lia|]. apply Z.pow_pos_nonneg; lia.
Qed.

Lemma bits_val_zero n : bits_val bs (replicate n 0) = 0.
Proof.
  induction n as [|n IH]; [done|]. cbn [replicate].
  rewrite bits_val_cons, IH; [lia|]. pose proof BITS_pos. split; [lia|]. apply Z.pow_pos_nonneg; lia.
Qed.

(** ** Reading and writing bits *)

Lemma block_index_split i n :
  0 <= i < n * BITS -> n * BITS < 2 ^ 32 ->
  BitStore_getBitBlockIndex bs i = i / BITS /\ BitStore_getBitIndexInBitBlock bs i = i mod BITS /\
  0 <= i / BITS < n /\ 0 <= i mod BITS < BITS.
Proof.
  intros Hi Hn. pose proof BITS_pos. pose proof (Z.mod_pos_bound i BITS ltac:(lia)).
  pose proof (Z.div_pos i BITS ltac:(lia) ltac:(lia)).
  assert (i / BITS < n) by (apply Z.div_lt_upper_bound; lia).
  unfold BitStore_getBitBlockIndex, BitStore_getBitIndexInBitBlock, BITSTORE_BLOCK_BIT_COUNT.
  rewrite !u32_id by nia. done.
Qed.

Lemma load_higher_blocks w0 tl i w :
  0 < i -> (w0 :: tl) !! Z.to_nat i = Some w ->
  load_higher (of_blocks bs (w0 :: tl)) (i - 1) = Done w.
Proof.
  intros Hi Hw. replace (Z.to_nat i) with (S (Z.to_nat (i - 1))) in Hw by lia.
  change ((w0 :: tl) !! S (Z.to_nat (i - 1))) with (tl !! Z.to_nat (i - 1)) in Hw.
  unfold load_higher, of_blocks. cbn [higherBits tail].
  destruct tl as [|w1 tl]; [done|]. rewrite (proj2 (Z.leb_le _ _)) by lia.
  by rewrite list_lookup_fmap, Hw.
Qed.

Lemma store_higher_blocks w0 tl i w :
  0 < i -> (Z.to_nat i < length (w0 :: tl))%nat ->
  store_higher (of_blocks bs (w0 :: tl)) (i - 1) (Some w) =
    Done (of_blocks bs (<[Z.to_nat i := w]> (w0 :: tl))).
Proof.
  intros Hi Hl. replace (Z.to_nat i) with (S (Z.to_nat (i - 1))) in * by lia. simpl in Hl.
  unfold store_higher, of_blocks. cbn [higherBits tail].
  destruct tl as [|w1 tl]; [simpl in Hl; lia|].
  rewrite length_fmap. rewrite (proj2 (Z.leb_le _ _)), (proj2 (Z.ltb_lt _ _)) by lia. cbn [andb].
  assert (Ei : <[S (Z.to_nat (i - 1)) := w]> (w0 :: w1 :: tl)
             = w0 :: <[Z.to_nat (i - 1) := w]> (w1 :: tl)) by done.
  rewrite Ei. cbn [numBits lowerBits head tail length]. rewrite <- list_fmap_insert, length_insert.
  destruct (<[Z.to_nat (i - 1) := w]> (w1 :: tl)) eqn:E; [|done].
  apply (f_equal length) in E. rewrite length_insert in E. simpl in E. lia.
Qed.

Lemma getBit_val ws i :
  blocks_wf bs ws -> 0 <= i ->
  BitStore_getBit bs (of_blocks bs ws) i = Done (Z.testbit (bits_val bs ws) i).
Proof.
  intros (Hne & Hf & Hb) Hi. pose proof BITS_pos. rewrite bits_val_testbit by done.
  unfold BitStore_getBit. cbn [numBits of_blocks].
  destruct (Z.leb_spec (Z.of_nat (length ws) * BITS) i) as [Hge|Hlt].
  - rewrite lookup_ge_None_2; [done|]. apply Nat2Z.inj_le. rewrite Z2Nat.id.
    + apply Z.div_le_lower_bound; lia.
    + apply Z.div_pos; lia.
  - destruct (block_index_split i (Z.of_nat (length ws))) as (-> & -> & Hq & Hr); [lia..|].
    destruct (lookup_lt_is_Some_2 ws (Z.to_nat (i / BITS))) as [w Hw]; [lia|].
    rewrite Hw. destruct ws as [|w0 tl]; [done|].
    destruct (Z.eqb_spec (i / BITS) 0) as [E|E].
    + rewrite E in Hw. simpl in Hw. injection Hw as ->. done.
    + by rewrite (load_higher_blocks w0 tl _ w) by (done || lia).
Qed.

Lemma set_clear_spec (b : bool) w r j :
  0 <= r -> 0 <= j ->
  Z.testbit (if b then set_bit r w else clear_bit r w) j =
    if j =? r then b else Z.testbit w j.
Proof.
  intros Hr Hj. unfold set_bit, clear_bit. rewrite Z.shiftl_1_l.
  destruct b; [rewrite Z.lor_spec|rewrite Z.ldiff_spec];
    rewrite Z.pow2_bits_eqb, (Z.eqb_sym r) by lia; destruct (j =? r), (Z.testbit w j); done.
Qed.

Lemma set_clear_range (b : bool) w r :
  in_u BITS w -> 0 <= r < BITS -> in_u BITS (if b then set_bit r w else clear_bit r w).
Proof.
  intros Hw Hr. pose proof BITS_pos. unfold in_u in *.
  assert (Hn : 0 <= (if b then set_bit r w else clear_bit r w)).
  { unfold set_bit, clear_bit. rewrite Z.shiftl_1_l.
    assert (0 <= 2 ^ r) by (apply Z.pow_nonneg; lia).
    destruct b; [apply Z.lor_nonneg|apply Z.ldiff_nonneg]; lia. }
  split; [done|]. set (x := if b then set_bit r w else clear_bit r w) in *.
  assert (E : x mod 2 ^ BITS = x).
  { apply Z.bits_inj'. intros j Hj. destruct (decide (j < BITS)).
    - by rewrite Z.mod_pow2_bits_low.
    - rewrite Z.mod_pow2_bits_high by lia. unfold x. rewrite set_clear_spec by lia.
      destruct (Z.eqb_spec j r); [lia|].
      rewrite <- (Z.mod_small w (2 ^ BITS)) by lia. by rewrite Z.mod_pow2_bits_high by lia. }
  rewrite <- E. apply Z.mod_pos_bound. lia.
Qed.

Lemma setBit_blocks ws i b :
  blocks_wf bs ws -> 0 <= i < Z.of_nat (length ws) * BITS ->
  exists w, ws !! Z.to_nat (i / BITS) = Some w /\
  BitStore_setBit bs (of_blocks bs ws) i b =
    Done (of_blocks bs (<[Z.to_nat (i / BITS) :=
      if b then set_bit (i mod BITS) w else clear_bit (i mod BITS) w]> ws)).
Proof.
  intros (Hne & Hf & Hb) Hi. pose proof BITS_pos.
  destruct (block_index_split i (Z.of_nat (length ws))) as (E1 & E2 & Hq & Hr); [lia..|].
  destruct (lookup_lt_is_Some_2 ws (Z.to_nat (i / BITS))) as [w Hw]; [lia|].
  exists w. split; [done|]. unfold BitStore_setBit. rewrite E1, E2. cbn [numBits of_blocks].
  destruct (Z.leb_spec (Z.of_nat (length ws) * BITS) i); [lia|].
  destruct ws as [|w0 tl]; [done|]. destruct (Z.eqb_spec (i / BITS) 0) as [E|E].
  - rewrite E in *. simpl in Hw. injection Hw as ->. done.
  - rewrite (load_higher_blocks w0 tl _ w) by (done || lia). cfs_simpl.
    apply store_higher_blocks; lia.
Qed.

Lemma setBit_wf ws q r (b : bool) w :
  blocks_wf bs ws -> ws !! q = Some w -> 0 <= r < BITS ->
  blocks_wf bs (<[q := if b then set_bit r w else clear_bit r w]> ws).
Proof.
  intros (Hne & Hf & Hb) Hw Hr. split_and!.
  - destruct ws; [done|]. by destruct q.
  - apply Forall_insert; [done|]. apply set_clear_range; [|done].
    rewrite Forall_lookup in Hf. by eapply Hf.
  - by rewrite length_insert.
Qed.
(** Setting a bit, on the number a store stands for. *)
Lemma setBit_bits ws i (b : bool) :
  blocks_wf bs ws -> 0 <= i ->
  exists ws', BitStore_setBit bs (of_blocks bs ws) i b = Done (of_blocks bs ws') /\
    blocks_wf bs ws' /\ length ws' = length ws /\
    forall j, 0 <= j ->
      Z.testbit (bits_val bs ws') j =
        if (j =? i) && (i <? Z.of_nat (length ws) * BITS) then b else Z.testbit (bits_val bs ws) j.
Proof.
  intros Hw Hi. pose proof BITS_pos.
  destruct (Z.ltb_spec i (Z.of_nat (length ws) * BITS)) as [Hlt|Hge].
  - destruct (setBit_blocks ws i b Hw ltac:(lia)) as (w & Hl & E).
    pose proof (Z.mod_pos_bound i BITS ltac:(lia)) as Hm.
    pose proof (setBit_wf ws (Z.to_nat (i / BITS)) (i mod BITS) b w Hw Hl Hm) as Hw'.
    eexists. split_and!; [done|done|by rewrite length_insert|]. intros j Hj.
    rewrite !bits_val_testbit by (done || apply Hw || apply Hw').
    rewrite andb_true_r. pose proof (Z.div_pos i BITS ltac:(lia) ltac:(lia)).
    pose proof (Z.div_pos j BITS ltac:(lia) ltac:(lia)).
    pose proof (Z.div_mod i BITS ltac:(lia)). pose proof (Z.div_mod j BITS ltac:(lia)).
    pose proof (Z.mod_pos_bound j BITS ltac:(lia)).
    destruct (decide (j / BITS = i / BITS)) as [Eq|Hne].
    + rewrite Eq, list_lookup_insert_eq, Hl by (by eapply lookup_lt_Some).
      rewrite set_clear_spec by lia.
      destruct (Z.eqb_spec (j mod BITS) (i mod BITS)), (Z.eqb_spec j i); (done || nia).
    + rewrite list_lookup_insert_ne by lia. destruct (Z.eqb_spec j i); [congruence|done].
  - exists ws. split_and!; [|done|done|intros; by rewrite andb_false_r].
    unfold BitStore_setBit. cbn [numBits of_blocks]. by rewrite (proj2 (Z.leb_le _ _)) by lia.
Qed.

End BitStoreProofs.

(** ** The wire format *)

Lemma le_split_combine l : Forall is_byte l -> le_split (length l) (le_combine l) = l.
Proof.
  induction 1 as [|b l Hb Hl IH]; [done|]. cbn [length le_combine].
  change (le_split (S (length l)) (Z.lor b (Z.shiftl (le_combine l) 8)))
    with (u8 (Z.lor b (Z.shiftl (le_combine l) 8)) ::
          le_split (length l) (Z.shiftr (Z.lor b (Z.shiftl (le_combine l) 8)) 8)).
  rewrite !lor_shiftl_add by done. unfold is_byte, in_u in Hb. change (2 ^ 8) with 256 in Hb.
  unfold u8, wrap. rewrite Z.shiftr_div_pow2 by lia. change (2 ^ 8) with 256.
  rewrite (Z.mul_comm 256), Z.mod_add, Z.div_add, Z.mod_small, Z.div_small by lia.
  by rewrite Z.add_0_l, IH.
Qed.

Lemma payload_bytes bs ws : Forall is_byte (payload bs ws).
Proof.
  unfold payload. induction ws as [|w ws IH]; cbn [enc_each]; [done|].
  apply Forall_app. split; [apply le_split_bytes|done].
Qed.

Lemma mlen_payload bs ws : 0 <= bs -> mlen (payload bs ws) = bs * Z.of_nat (length ws).
Proof. intros. apply mlen_enc_each. intros. rewrite mlen_le_split. lia. Qed.

(** Any byte string of [c] blocks is the payload of [c] blocks. *)
Lemma payload_of_bytes bs c P :
  0 < bs -> Forall is_byte P -> mlen P = bs * Z.of_nat c ->
  exists ws, length ws = c /\ Forall (in_u (bs * 8)) ws /\ payload bs ws = P.
Proof.
  intros Hbs. revert P. induction c as [|c IH]; intros P HP Hl.
  - exists []. destruct P; [done|]. rewrite mlen_cons in Hl. pose proof (mlen_nonneg P). lia.
  - destruct (IH (drop (Z.to_nat bs) P)) as (ws & Hw & Hf & Hp).
    + by apply Forall_drop.
    + unfold mlen in *. rewrite length_drop. nia.
    + exists (le_combine (take (Z.to_nat bs) P) :: ws).
      assert (Ht : length (take (Z.to_nat bs) P) = Z.to_nat bs)
        by (rewrite length_take; unfold mlen in Hl; nia).
      split_and!; [simpl; lia|constructor; [|done]|].
      * pose proof (le_combine_range (take (Z.to_nat bs) P) ltac:(by apply Forall_take)) as Hr.
        unfold mlen in Hr. rewrite Ht in Hr.
        by replace (8 * Z.of_nat (Z.to_nat bs)) with (bs * 8) in Hr by lia.
      * unfold payload in *. cbn [enc_each]. rewrite Hp, <- Ht at 1.
        rewrite le_split_combine by (by apply Forall_take). apply take_drop.
Qed.

Definition odd_pad (bs c : Z) : bool := (bs =? 4) && (Z.land c 1 =? 1).
(** Bytes of the block area: always whole 64-bit words. *)
Definition wire_len (bs c : Z) : Z := bs * c + (if odd_pad bs c then 4 else 0).
Definition enc_bitstore (bs : Z) (ws : list Z) : mem :=
  le_split 4 (Z.of_nat (length ws) * (bs * 8)) ++ le_split 4 0 ++ payload bs ws ++
  (if odd_pad bs (Z.of_nat (length ws)) then le_split 4 0 else []).

Section BitStoreWire.
Context (bs : Z) (Hbs : bs = 4 \/ bs = 8).
Abbreviation BITS := (bs * 8).

Lemma writes_serialize_block w : Writes (serialize_block bs (Done w)) (le_split (Z.to_nat bs) w).
Proof.
  destruct Hbs as [-> | ->].
  - eapply writes_ext; [|apply (writes_uint w)]. done.
  - eapply writes_ext; [|apply (writes_uint64 w)]. done.
Qed.

Lemma writes_higher s i tl :
  (forall j w, tl !! j = Some w -> load_higher s (i + Z.of_nat j) = Done w) ->
  Writes (serialize_higher bs s i (length tl)) (payload bs tl).
Proof.
  revert i. induction tl as [|w tl IH]; intros i H; cbn [serialize_higher length]; [apply _|].
  unfold payload. cbn [enc_each]. apply writes_seq.
  - pose proof (H 0%nat w eq_refl) as E. change (Z.of_nat 0) with 0 in E.
    rewrite Z.add_0_r in E. rewrite E. apply writes_serialize_block.
  - apply IH. intros j x Hx. rewrite <- (H (S j) x) by done. f_equal. lia.
Qed.

Lemma writes_bitstore ws :
  blocks_wf bs ws -> Writes (BitStore_serialize bs (of_blocks bs ws)) (enc_bitstore bs ws).
Proof.
  intros Hw. pose proof (shape_count bs Hbs _ _ (shape_of_blocks bs ws Hw)) as Hc.
  unfold BitStore_serialize. rewrite Hc. destruct Hw as (Hne & Hf & Hb).
  destruct ws as [|w0 tl]; [done|]. unfold enc_bitstore.
  apply writes_seq; [apply writes_uint|]. apply writes_seq; [apply _|].
  unfold payload. cbn [enc_each]. rewrite <- app_assoc.
  apply writes_seq; [apply writes_serialize_block|].
  apply writes_seq; [|fold (odd_pad bs (Z.of_nat (length (w0 :: tl)))); destruct (odd_pad _ _); apply _].
  replace (Z.to_nat (Z.of_nat (length (w0 :: tl)) - 1)) with (length tl) by (simpl; lia).
  apply writes_higher. intros j w Hj.
  rewrite <- (load_higher_blocks bs w0 tl (Z.of_nat j + 1) w) by
    (try lia; by replace (Z.to_nat (Z.of_nat j + 1)) with (S j) by lia).
  f_equal. lia.
Qed.

Lemma mlen_enc_bitstore ws :
  mlen (enc_bitstore bs ws) = 8 + wire_len bs (Z.of_nat (length ws)).
Proof.
  unfold enc_bitstore, wire_len. rewrite !mlen_app, !mlen_le4, mlen_payload by lia.
  destruct (odd_pad _ _); rewrite ?mlen_le4, ?mlen_nil; lia.
Qed.

Lemma des_ignore_holds {A} (d : Des A) e r dflt m p n :
  Reads d e r -> holds m p e -> mlen e <= n < 2 ^ 64 ->
  des_ignore d dflt m (mkDes p n) = Done (r p, mkDes (p + mlen e) (n - mlen e)).
Proof. intros Hr Hh Hn. unfold des_ignore. by rewrite (holds_reads d e r). Qed.

Lemma deserialize_block_holds old m p n w :
  in_u BITS w -> holds m p (le_split (Z.to_nat bs) w) -> bs <= n < 2 ^ 64 ->
  deserialize_block bs old m (mkDes p n) = Done (Some w, mkDes (p + bs) (n - bs)).
Proof.
  intros Hw Hh Hn. unfold deserialize_block. destruct Hbs as [-> | ->]; cbn [Z.eqb Pos.eqb].
  - rewrite (des_ignore_holds _ _ (fun _ => Some w) old _ _ _
      (reads_bind_ret _ Some _ _ (reads_uint w Hw)) Hh) by (rewrite mlen_le4; lia).
    by rewrite mlen_le4.
  - rewrite (des_ignore_holds _ _ (fun _ => Some w) old _ _ _
      (reads_bind_ret _ Some _ _ (reads_uint64 w Hw)) Hh) by (rewrite mlen_le8; lia).
    by rewrite mlen_le8.
Qed.

Lemma deserialize_higher_holds nb lo pre tl rest m p n :
  length rest = length tl -> Forall (in_u BITS) tl ->
  holds m p (payload bs tl) -> mlen (payload bs tl) <= n < 2 ^ 64 ->
  deserialize_higher bs (mkBS nb lo (Some ((Some <$> pre) ++ rest))) (Z.of_nat (length pre))
    (length tl) m (mkDes p n) =
  Done (mkBS nb lo (Some (Some <$> (pre ++ tl))),
        mkDes (p + mlen (payload bs tl)) (n - mlen (payload bs tl))).
Proof.
  revert pre rest p n. induction tl as [|w tl IH]; intros pre rest p n Hr Hf Hh Hn.
  - destruct rest; [|done]. cbn [deserialize_higher length]. unfold payload. cbn [enc_each].
    by rewrite mlen_nil, Z.add_0_r, Z.sub_0_r, !app_nil_r.
  - destruct rest as [|x rest]; [done|]. inversion Hf as [|? ? Hw Hf']; subst.
    unfold payload in *. cbn [enc_each] in *. apply holds_app in Hh as [H1 H2].
    rewrite mlen_app, mlen_le_split in *. rewrite Z2Nat.id in * by lia.
    pose proof (mlen_nonneg (enc_each (le_split (Z.to_nat bs)) tl)).
    cbn [deserialize_higher length higherBits mbind option_bind].
    rewrite Nat2Z.id. rewrite lookup_app_r by (rewrite length_fmap; lia).
    rewrite length_fmap, Nat.sub_diag. cbn [lookup list_lookup of_option]. cfs_simpl.
    rewrite (deserialize_block_holds x m p n w) by (done || lia). cfs_simpl.
    unfold store_higher. cbn [higherBits numBits lowerBits].
    rewrite length_app, length_fmap. cbn [length].
    rewrite (proj2 (Z.leb_le _ _)), (proj2 (Z.ltb_lt _ _)) by lia. cbn [andb]. cfs_simpl.
    rewrite Nat2Z.id, insert_app_r_alt by (rewrite length_fmap; lia).
    rewrite length_fmap, Nat.sub_diag.
    change (<[0%nat := Some w]> (x :: rest)) with (Some w :: rest).
    replace ((Some <$> pre) ++ Some w :: rest) with ((Some <$> (pre ++ [w])) ++ rest)
      by (rewrite fmap_app, <- app_assoc; done).
    replace (Z.of_nat (length pre) + 1) with (Z.of_nat (length (pre ++ [w])))
      by (rewrite length_app; simpl; lia).
    rewrite IH by (simpl in *; done || lia). rewrite <- app_assoc.
    by rewrite Z.add_assoc, Z.sub_add_distr.
Qed.

Lemma wire_len_range c : 1 <= c -> c * BITS < 2 ^ 32 -> 0 <= wire_len bs c < 2 ^ 30.
Proof. intros. unfold wire_len. destruct (odd_pad bs c); lia. Qed.

Lemma deserialize_higher_shape c nb lo hi w0 tl m p n :
  shape bs c (mkBS nb lo hi) -> Z.of_nat (length (w0 :: tl)) = c -> Forall (in_u BITS) tl ->
  holds m p (payload bs tl) -> mlen (payload bs tl) <= n < 2 ^ 64 ->
  deserialize_higher bs (mkBS nb (Some w0) hi) 0 (Z.to_nat (c - 1)) m (mkDes p n) =
    Done (of_blocks bs (w0 :: tl),
          mkDes (p + mlen (payload bs tl)) (n - mlen (payload bs tl))).
Proof.
  intros (_ & _ & Hnb & Hhi) Hl Hf Hh Hn. cbn [numBits higherBits] in *. cbn [length] in Hl.
  replace (Z.to_nat (c - 1)) with (length tl) by lia.
  destruct hi as [a|].
  - destruct Hhi as [Hgt Hla].
    pose proof (deserialize_higher_holds nb (Some w0) [] tl a m p n ltac:(lia) Hf Hh Hn) as E.
    cbn [fmap list_fmap app length] in E. change (Z.of_nat 0) with 0 in E. rewrite E, Hnb.
    unfold of_blocks. cbn [head tail length]. rewrite Hl.
    destruct tl as [|w1 tl]; [simpl in Hl; lia|done].
  - destruct tl as [|w1 tl]; [|simpl in Hl; lia]. cbn [deserialize_higher length].
    unfold payload. cbn [enc_each]. rewrite mlen_nil, Z.add_0_r, Z.sub_0_r, Hnb, Hhi. done.
Qed.

(** Four more bytes are skipped when the number of 32-bit blocks is odd. *)
Lemma deserialize_pad c bytes m p n :
  mlen bytes = (if odd_pad bs c then 4 else 0) -> holds m p bytes -> mlen bytes <= n < 2 ^ 64 ->
  exists v, (if (bs =? 4) && (Z.land c 1 =? 1)
    then des_ignore Serialization_deserializeUInt 0 m (mkDes p n) else Done (0, mkDes p n)) =
    Done (v, mkDes (p + mlen bytes) (n - mlen bytes)).
Proof.
  intros Hl Hh Hn. fold (odd_pad bs c). destruct (odd_pad bs c).
  - exists (le_combine bytes).
    by apply (des_ignore_holds _ _ _ _ _ _ _ (reads_raw 4 le_combine bytes ltac:(lia)) Hh).
  - exists 0. by rewrite Hl, Z.add_0_r, Z.sub_0_r.
Qed.

Lemma deserialize_wire n0 s0 bits P m p n :
  shape bs n0 s0 -> 0 <= bits <= 2 ^ 32 - BITS ->
  let c := BitStore_calculateBitBlockCount bs bits in
  Forall is_byte P -> mlen P = wire_len bs c ->
  holds m p (le_split 4 bits ++ le_split 4 0 ++ P) -> 8 + mlen P <= n < 2 ^ 64 ->
  exists ws, blocks_wf bs ws /\ Z.of_nat (length ws) = c /\
    payload bs ws = take (Z.to_nat (bs * c)) P /\
    BitStore_deserialize bs s0 m (mkDes p n) =
      Done (of_blocks bs ws, mkDes (p + (8 + mlen P)) (n - (8 + mlen P))).
Proof.
  intros Hs Hbits c HP HL Hh Hn. pose proof (BITS_pos bs Hbs).
  destruct (block_count_spec bs Hbs bits Hbits) as (Hc1 & Hc2 & Hc3 & _). fold c in Hc1, Hc2, Hc3.
  destruct (setSize_shape bs Hbs n0 s0 bits Hs Hbits) as (Hsh & _ & _). fold c in Hsh.
  unfold wire_len in HL.
  set (T := take (Z.to_nat (bs * c)) P). set (D := drop (Z.to_nat (bs * c)) P).
  assert (HT : mlen T = bs * c)
    by (unfold T, mlen in *; rewrite length_take; destruct (odd_pad bs c); nia).
  assert (EP : P = T ++ D) by (symmetry; apply take_drop).
  assert (HD : mlen D = if odd_pad bs c then 4 else 0) by (rewrite EP, mlen_app in HL; lia).
  destruct (payload_of_bytes bs (Z.to_nat c) T) as (ws & Hl & Hf & Hp);
    [lia|by apply Forall_take|lia|].
  exists ws. split_and!; [split_and!; [intros ->; simpl in *; lia|done|lia]|lia|done|].
  apply holds_app in Hh as [Hh1 Hh]. apply holds_app in Hh as [Hh2 Hh]. rewrite !mlen_le4 in *.
  rewrite EP in Hh. apply holds_app in Hh as [Hh3 Hh4]. rewrite HT in Hh4.
  rewrite <- Hp in Hh3. pose proof (mlen_nonneg D).
  destruct ws as [|w0 tl]; [simpl in Hl; lia|]. apply Forall_cons in Hf as [Hw0 Hftl].
  unfold payload in Hh3. cbn [enc_each] in Hh3. apply holds_app in Hh3 as [Hh3 Hh5].
  rewrite mlen_le_split, Z2Nat.id in Hh5 by lia. fold (payload bs tl) in Hh5.
  assert (Hlen : mlen (payload bs tl) = bs * c - bs) by (rewrite mlen_payload; simpl in Hl; nia).
  assert (HPl : mlen P = bs * c + mlen D) by lia. assert (bs <= bs * c) by nia.
  unfold BitStore_deserialize.
  rewrite (des_ignore_holds _ _ _ _ _ _ _ (reads_uint bits ltac:(unfold in_u; lia)) Hh1)
    by (rewrite mlen_le4; lia). cfs_simpl. rewrite mlen_le4.
  rewrite (des_ignore_holds _ _ _ _ _ _ _ (reads_uint 0 ltac:(unfold in_u; lia)) Hh2)
    by (rewrite mlen_le4; lia). cfs_simpl. rewrite mlen_le4.
  rewrite (deserialize_block_holds _ m (p + 4 + 4) (n - 4 - 4) w0) by (done || lia). cfs_simpl.
  cbn [numBits]. rewrite (shape_count bs Hbs c _ Hsh).
  destruct (BitStore_setSize bs s0 bits) as [nb lo hi]. cbn [numBits higherBits lowerBits].
  rewrite (deserialize_higher_shape c nb lo hi w0 tl) by (done || lia). cfs_simpl. rewrite Hlen.
  replace (p + 4 + 4 + bs + (bs * c - bs)) with (p + 4 + 4 + bs * c) by lia.
  replace (n - 4 - 4 - bs - (bs * c - bs)) with (n - 8 - bs * c) by lia.
  destruct (deserialize_pad c D m (p + 4 + 4 + bs * c) (n - 8 - bs * c)) as [v ->]; [done..|lia|].
  cfs_simpl. rewrite HPl. do 3 f_equal; lia.
Qed.
End BitStoreWire.

(** ** Copies *)

Lemma blocks_copy_Done dst src n :
  (n <= length dst)%nat -> (n <= length src)%nat ->
  blocks_copy dst src (Z.of_nat n) = Done (take n src ++ drop n dst).
Proof.
  intros. unfold blocks_copy.
  rewrite (proj2 (Z.leb_le 0 _)), !(proj2 (Z.leb_le (Z.of_nat n) _)) by lia. by rewrite Nat2Z.id.
Qed.

Lemma blocks_zero_tail dst i :
  (i <= length dst)%nat ->
  blocks_zero dst (Z.of_nat i) (Z.of_nat (length dst - i)) =
    Done (take i dst ++ replicate (length dst - i) (Some 0)).
Proof.
  intros. unfold blocks_zero.
  rewrite !(proj2 (Z.leb_le 0 _)), (proj2 (Z.leb_le (_ + _) _)) by lia. cbn [andb].
  rewrite !Nat2Z.id, drop_ge, app_nil_r by lia. done.
Qed.

Section BitStoreCopies.
Context (bs : Z) (Hbs : bs = 4 \/ bs = 8).
Abbreviation BITS := (bs * 8).

Lemma copy_blocks n0 s0 ws :
  shape bs n0 s0 -> blocks_wf bs ws -> Z.of_nat (length ws) * BITS <= 2 ^ 32 - BITS ->
  BitStore_copy bs s0 (of_blocks bs ws) = Done (of_blocks bs ws).
Proof.
  intros Hs Hw Hb. pose proof (BITS_pos bs Hbs). pose proof (shape_of_blocks bs ws Hw) as Hsw.
  destruct (setSize_shape bs Hbs n0 s0 (numBits (of_blocks bs ws)) Hs) as (Hsh & _ & _);
    [cbn [numBits of_blocks]; lia|].
  rewrite (shape_count bs Hbs _ _ Hsw) in Hsh. unfold BitStore_copy.
  destruct (BitStore_setSize bs s0 (numBits (of_blocks bs ws))) as [nb lo hi].
  pose proof (shape_count bs Hbs _ _ Hsh) as Hc. destruct Hsh as (_ & _ & Hnb & Hhi).
  cbn [numBits higherBits lowerBits] in *. destruct Hw as (Hne & _ & _).
  destruct ws as [|w0 tl]; [done|]. cbn [length] in *. destruct hi as [a|].
  - destruct Hhi as [Hgt Hla]. destruct tl as [|w1 tl]; [cbn [length] in *; lia|].
    rewrite Hc. cbn [of_blocks higherBits tail of_option mbind outcome_bind].
    replace (Z.of_nat (S (length (w1 :: tl))) - 1) with (Z.of_nat (length (w1 :: tl))) by lia.
    rewrite blocks_copy_Done by (rewrite ?length_fmap; lia). cfs_simpl.
    rewrite drop_ge, app_nil_r, take_ge by (rewrite ?length_fmap; lia). by rewrite Hnb.
  - destruct tl; [|cbn [length] in *; lia]. by rewrite Hnb.
Qed.

(** The blocks a thread-safe copy leaves in a store of [n] blocks. *)
Definition clipped (n : nat) (ws : list Z) : list Z := take n (ws ++ replicate (n - length ws) 0).

Lemma clipped_length n ws : length (clipped n ws) = n.
Proof. unfold clipped. rewrite length_take, length_app, length_replicate. lia. Qed.

Lemma copyThreadSafe_blocks n s ws :
  shape bs n s -> blocks_wf bs ws ->
  BitStore_copyThreadSafe bs s (of_blocks bs ws) = Done (of_blocks bs (clipped (Z.to_nat n) ws)).
Proof.
  intros Hs Hw. pose proof (shape_count bs Hbs _ _ Hs) as Hc.
  pose proof (shape_count bs Hbs _ _ (shape_of_blocks bs ws Hw)) as Hcw.
  destruct Hs as (H1 & H2 & Hnb & Hhi). destruct Hw as (Hne & _ & _).
  unfold BitStore_copyThreadSafe. rewrite Hc, Hcw. clear Hc Hcw.
  replace (of_blocks bs (clipped (Z.to_nat n) ws)) with
    (mkBS (numBits s) (head (clipped (Z.to_nat n) ws))
       (match tail (clipped (Z.to_nat n) ws) with [] => None | tl => Some (Some <$> tl) end))
    by (unfold of_blocks; by rewrite clipped_length, Z2Nat.id, Hnb by lia). clear Hnb.
  destruct s as [nb lo hi]. cbn [numBits higherBits lowerBits of_blocks] in *.
  destruct ws as [|w0 tl]; [done|]. unfold clipped. cbn [head tail length].
  destruct hi as [a|]; [|by subst n]. destruct Hhi as [Hgt Hla].
  replace (Z.to_nat n) with (S (length a)) by lia. cbn [app take tail head].
  set (t := take (length a) (tl ++ replicate (S (length a) - S (length tl)) 0)).
  assert (Et : match t with [] => None | z :: l => Some (Some <$> z :: l) end = Some (Some <$> t)).
  { destruct t eqn:E; [|done]. apply (f_equal length) in E. unfold t in E.
    rewrite length_take, length_app, length_replicate in E. simpl in E. lia. }
  rewrite Et. unfold t. rewrite fmap_take, fmap_app, fmap_replicate. clear t Et.
  assert (E1 : (if 1 <? Z.of_nat (S (length tl))
     then src ← of_option (match tl with [] => None | z :: l => Some (Some <$> z :: l) end);
          blocks_copy a src (Z.min n (Z.of_nat (S (length tl))) - 1)
     else Done a) =
     Done (take (length a `min` length tl) (Some <$> tl) ++ drop (length a `min` length tl) a)).
  { destruct tl as [|w1 tl]; [by rewrite Nat.min_0_r|].
    destruct (Z.ltb_spec 1 (Z.of_nat (S (length (w1 :: tl))))); [|cbn [length] in *; lia].
    cbn [of_option mbind outcome_bind].
    replace (Z.min n (Z.of_nat (S (length (w1 :: tl)))) - 1)
      with (Z.of_nat (length a `min` length (w1 :: tl))) by lia.
    apply blocks_copy_Done; rewrite ?length_fmap; lia. }
  rewrite E1. cfs_simpl. destruct (Z.ltb_spec (Z.of_nat (S (length tl))) n) as [Hlt|Hge].
  - rewrite Nat.min_r by lia. rewrite (take_ge (Some <$> tl)) by (rewrite length_fmap; lia).
    set (b := (Some <$> tl) ++ drop (length tl) a).
    assert (Hb : length b = length a)
      by (unfold b; rewrite length_app, length_fmap, length_drop; lia).
    replace (Z.of_nat (S (length tl)) - 1) with (Z.of_nat (length tl)) by lia.
    replace (n - Z.of_nat (S (length tl))) with (Z.of_nat (length b - length tl)) by lia.
    rewrite blocks_zero_tail by lia. cfs_simpl. unfold b at 1.
    rewrite take_app_length' by (by rewrite length_fmap). rewrite Hb.
    replace (S (length a) - S (length tl))%nat with (length a - length tl)%nat by lia.
    rewrite take_ge; [done|]. rewrite length_app, length_fmap, length_replicate. lia.
  - rewrite Nat.min_l by lia. rewrite drop_ge, app_nil_r by lia.
    replace (S (length a) - S (length tl))%nat with 0%nat by lia. cbn [replicate]. by rewrite app_nil_r.
Qed.

Lemma clipped_wf n ws :
  (0 < n)%nat -> Z.of_nat n * BITS < 2 ^ 32 -> blocks_wf bs ws -> blocks_wf bs (clipped n ws).
Proof.
  intros Hn Hb (Hne & Hf & _). split_and!.
  - intros E. apply (f_equal length) in E. rewrite clipped_length in E. simpl in E. lia.
  - unfold clipped. apply Forall_take, Forall_app. split; [done|]. apply Forall_replicate.
    pose proof (BITS_pos bs Hbs). split; [lia|]. apply Z.pow_pos_nonneg; lia.
  - by rewrite clipped_length.
Qed.

Lemma clipped_testbit n ws i :
  Z.of_nat n * BITS < 2 ^ 32 -> Forall (in_u BITS) ws -> 0 <= i ->
  Z.testbit (bits_val bs (clipped n ws)) i =
    if i <? Z.of_nat n * BITS then Z.testbit (bits_val bs ws) i else false.
Proof.
  intros Hb Hf Hi. pose proof (BITS_pos bs Hbs).
  assert (Hfc : Forall (in_u BITS) (clipped n ws)).
  { unfold clipped. apply Forall_take, Forall_app. split; [done|]. apply Forall_replicate.
    split; [lia|]. apply Z.pow_pos_nonneg; lia. }
  rewrite !bits_val_testbit by done. pose proof (Z.div_pos i BITS ltac:(lia) ltac:(lia)).
  destruct (Z.ltb_spec i (Z.of_nat n * BITS)) as [Hlt|Hge].
  - assert (i / BITS < Z.of_nat n) by (apply Z.div_lt_upper_bound; lia).
    unfold clipped. rewrite lookup_take_lt by lia.
    destruct (decide (Z.to_nat (i / BITS) < length ws)%nat).
    + by rewrite lookup_app_l.
    + rewrite lookup_app_r, (lookup_ge_None_2 ws) by lia.
      rewrite lookup_replicate_2 by lia. apply Z.bits_0.
  - rewrite lookup_ge_None_2; [done|]. rewrite clipped_length.
    assert (Z.of_nat n <= i / BITS) by (apply Z.div_le_lower_bound; lia). lia.
Qed.
End BitStoreCopies.

(** ** Properties *)

(** A reset store is empty.  From an uninitialised struct,
    [initWithSizeAndReset] yields a store with room for at least [size] bits, all
    of them false, on 32- and 64-bit machines. *)
Theorem bitstore_reset (bs : Z) (uninit : BitStore) (size : Z) :
  bs = 4 \/ bs = 8 -> 0 <= size <= 2 ^ 32 - bs * 8 ->
  exists s ws, BitStore_initWithSizeAndReset bs uninit size = Done s /\
    s = of_blocks bs ws /\ blocks_wf bs ws /\ size <= numBits s /\
    forall i, 0 <= i -> BitStore_getBit bs s i = Done false.
Proof.
  intros Hbs Hs. unfold BitStore_initWithSizeAndReset.
  destruct (setSize_shape bs Hbs 1 _ size (init_shape bs Hbs uninit) Hs) as (Hsh & _ & Hle).
  set (n := BitStore_calculateBitBlockCount bs size) in *. rewrite (clearBits_blocks bs Hbs n) by done.
  destruct Hsh as (H1 & H2 & H3 & _).
  assert (Hw : blocks_wf bs (replicate (Z.to_nat n) 0)) by (apply zero_blocks_wf; [done|lia..]).
  eexists _, _. split_and!; [done..|cbn [of_blocks numBits]; rewrite length_replicate; lia|].
  intros i Hi. rewrite getBit_val by done. by rewrite bits_val_zero, Z.bits_0.
Qed.

Lemma bitstore_reset_witness : exists s ws,
  BitStore_initWithSizeAndReset 8 (mkBS 7 None None) 100 = Done s /\ s = of_blocks 8 ws /\
  100 <= numBits s.
Proof.
  destruct (bitstore_reset 8 (mkBS 7 None None) 100 ltac:(lia) ltac:(lia))
    as (s & ws & E1 & E2 & _ & E3 & _).
  exists s, ws. split; [exact E1|]. split; [exact E2|exact E3].
Defined.

(** Setting a bit changes that bit and no other.  On a well-formed store every
    write succeeds and keeps it well-formed; reading back any index returns the
    written value at the written index and the old bit elsewhere; an index out of
    bounds reads as false and writing it changes nothing. *)
Theorem bitstore_set_get (bs : Z) (ws : list Z) (i : Z) (b : bool) :
  bs = 4 \/ bs = 8 -> blocks_wf bs ws -> 0 <= i ->
  exists ws', BitStore_setBit bs (of_blocks bs ws) i b = Done (of_blocks bs ws') /\
    blocks_wf bs ws' /\ numBits (of_blocks bs ws') = numBits (of_blocks bs ws) /\
    forall j, 0 <= j ->
      BitStore_getBit bs (of_blocks bs ws') j =
        if (j =? i) && (i <? numBits (of_blocks bs ws)) then Done b
        else BitStore_getBit bs (of_blocks bs ws) j.
Proof.
  intros Hbs Hw Hi. destruct (setBit_bits bs Hbs ws i b Hw Hi) as (ws' & E & Hw' & Hl & H).
  exists ws'. split_and!; [done|done|cbn; by rewrite Hl|]. intros j Hj. cbn [numBits of_blocks].
  rewrite !getBit_val, H by done. by destruct (_ && _).
Qed.

Lemma bitstore_set_get_witness : exists ws',
  BitStore_setBit 8 (of_blocks 8 [0; 5]) 70 true = Done (of_blocks 8 ws') /\
  BitStore_getBit 8 (of_blocks 8 ws') 70 = Done true.
Proof.
  destruct (bitstore_set_get 8 [0; 5] 70 true ltac:(lia)
    ltac:(split_and!; [done|by repeat constructor|by vm_compute]) ltac:(lia)) as (ws' & E & _ & _ & H).
  exists ws'. split; [exact E|]. exact (H 70 ltac:(lia)).
Defined.

Lemma odd_pad_4 x : odd_pad 4 x = Z.odd x.
Proof.
  unfold odd_pad. change (4 =? 4) with true. cbn [andb].
  change 1 with (Z.ones 1) at 1. rewrite Z.land_ones by lia. change (2 ^ 1) with 2.
  rewrite Zmod_odd. by destruct (Z.odd x).
Qed.

Lemma wire_len_mod8 bs n : bs = 4 \/ bs = 8 -> wire_len bs n mod 8 = 0.
Proof.
  unfold wire_len. intros [-> | ->].
  - rewrite odd_pad_4. pose proof (Zmod_odd n). pose proof (Z.div_mod n 2 ltac:(lia)).
    apply Z.mod_divide; [lia|]. destruct (Z.odd n); [exists (n / 2 + 1)|exists (n / 2)]; lia.
  - change (odd_pad 8 n) with false. cbv iota. rewrite Z.add_0_r, Z.mul_comm. apply Z.mod_mul. lia.
Qed.

(** The preprocessing skips exactly the store. *)
Lemma preprocess_wire bs bits P m p n :
  bs = 4 \/ bs = 8 -> 0 <= bits <= 2 ^ 32 - bs * 8 ->
  mlen P = wire_len bs (BitStore_calculateBitBlockCount bs bits) ->
  holds m p (le_split 4 bits ++ le_split 4 0 ++ P) -> 8 + mlen P <= n < 2 ^ 64 ->
  BitStore_deserializePreprocess bs m (mkDes p n) =
    Done (Some p, mkDes (p + (8 + mlen P)) (n - (8 + mlen P))).
Proof.
  intros Hbs Hbits HP Hh Hn. pose proof (mlen_nonneg P).
  destruct (block_count_spec bs Hbs bits Hbits) as (H1 & H2 & _ & _).
  set (c := BitStore_calculateBitBlockCount bs bits) in *.
  apply holds_app in Hh as [Hh1 Hh]. apply holds_app in Hh as [Hh2 _]. rewrite mlen_le4 in Hh2.
  unfold BitStore_deserializePreprocess, mbind, Des_bind, des_ctx.
  rewrite (holds_reads _ _ _ _ _ _ (reads_uint bits ltac:(unfold in_u; lia)) Hh1)
    by (rewrite mlen_le4; lia). rewrite mlen_le4.
  rewrite (holds_reads _ _ _ _ _ _ (reads_uint 0 ltac:(unfold in_u; lia)) Hh2)
    by (rewrite mlen_le4; lia). rewrite mlen_le4. fold c. cbv zeta.
  assert (Hlen : (if bs =? 8 then mret (u32 (Serialization_serialLenUInt64 * c))
     else if bs =? 4 then
       mret (u32 (Serialization_serialLenUInt * (if Z.land c 1 =? 1 then u32 (c + 1) else c)))
     else des_fail) = (mret (mlen P) : Des Z)).
  { rewrite HP. unfold wire_len. destruct Hbs as [-> | ->]; cbn [Z.eqb Pos.eqb].
    - unfold odd_pad. cbn [Z.eqb Pos.eqb andb]. change Serialization_serialLenUInt with 4.
      f_equal. destruct (Z.land c 1 =? 1); rewrite ?(u32_id (c + 1)), u32_id by lia; lia.
    - change Serialization_serialLenUInt64 with 8. change (odd_pad 8 c) with false.
      rewrite u32_id by lia. by rewrite Z.add_0_r. }
  rewrite Hlen. unfold mret, Des_ret. cfs_simpl. rewrite (proj2 (Z.ltb_ge _ _)) by lia.
  unfold des_advance. rewrite ctx_advance_ok by lia. do 3 f_equal; lia.
Qed.

(** The block area a writer produces, as any reader sees it. *)
Lemma wire_agree bsW bsR n :
  bsW = 4 \/ bsW = 8 -> bsR = 4 \/ bsR = 8 -> 1 <= n -> n * (bsW * 8) <= 2 ^ 32 - 64 ->
  let c := BitStore_calculateBitBlockCount bsR (n * (bsW * 8)) in
  wire_len bsR c = wire_len bsW n /\ (bsW * n <= bsR * c).
Proof.
  intros HW HR Hn Hb c.
  assert (Hc : 1 <= c /\ c * (bsR * 8) < 2 ^ 32 /\ n * (bsW * 8) <= c * (bsR * 8) /\
               (1 < c -> (c - 1) * (bsR * 8) < n * (bsW * 8))).
  { apply (block_count_spec bsR HR). lia. }
  assert (Ho : forall x, odd_pad 8 x = false) by done.
  unfold wire_len. destruct HW as [-> | ->], HR as [-> | ->]; rewrite ?Ho, ?odd_pad_4;
    repeat match goal with |- context [Z.odd ?x] =>
      pose proof (Zmod_odd x); pose proof (Z.div_mod x 2 ltac:(lia)); destruct (Z.odd x) end; lia.
Qed.

Lemma wire_tail bsW n k :
  bsW = 4 \/ bsW = 8 -> bsW * n <= k ->
  forall ws, Z.of_nat (length ws) = n ->
  le_combine (take (Z.to_nat k) (payload bsW ws ++
    (if odd_pad bsW n then le_split 4 0 else []))) = bits_val bsW ws.
Proof.
  intros HW Hk ws Hl. pose proof (mlen_payload bsW ws ltac:(lia)) as Hm. unfold mlen in Hm.
  rewrite take_app_ge by lia. unfold bits_val.
  assert (G : forall P j, le_combine (P ++ take j (le_split 4 0)) = le_combine P).
  { intros P j. induction P as [|b P IH]; cbn [app le_combine]; [|by rewrite IH].
    change (le_split 4 0) with [0; 0; 0; 0]. destruct j as [|[|[|[|[|j]]]]]; done. }
  destruct (odd_pad bsW n); [apply G|]. by rewrite take_nil, app_nil_r.
Qed.

(** The wire format does not depend on the machine.  Whatever the block sizes
    of the writing and of the reading machine (4 or 8 bytes), a serialized store
    takes a multiple of 8 bytes, the reader's preprocessing skips exactly those,
    and deserializing into a store of any size and content yields a well-formed
    store with the same bits. *)
Theorem bitstore_wire (bsW bsR : Z) (ws : list Z) (s0 : BitStore) (n0 : Z) (m : mem) (b len n : Z) :
  bsW = 4 \/ bsW = 8 -> bsR = 4 \/ bsR = 8 ->
  blocks_wf bsW ws -> numBits (of_blocks bsW ws) <= 2 ^ 32 - 64 -> shape bsR n0 s0 ->
  let sz := 8 + wire_len bsW (Z.of_nat (length ws)) in
  0 <= b -> 0 <= len -> len + sz < 2 ^ 32 -> b + len + sz <= mlen m -> sz <= n < 2 ^ 64 ->
  sz mod 8 = 0 /\
  exists m' ws',
    BitStore_serialize bsW (of_blocks bsW ws) m (mkSer (Some b) len) =
      Done (m', mkSer (Some b) (len + sz)) /\
    BitStore_deserializePreprocess bsR m' (mkDes (b + len) n) =
      Done (Some (b + len), mkDes (b + len + sz) (n - sz)) /\
    BitStore_deserialize bsR s0 m' (mkDes (b + len) n) =
      Done (of_blocks bsR ws', mkDes (b + len + sz) (n - sz)) /\
    blocks_wf bsR ws' /\
    forall i, 0 <= i ->
      BitStore_getBit bsR (of_blocks bsR ws') i = BitStore_getBit bsW (of_blocks bsW ws) i.
Proof.
  intros HW HR Hw Hnb Hs0 sz Hb Hl Hf Hm Hn. cbn [numBits of_blocks] in Hnb.
  assert (Hn1 : 1 <= Z.of_nat (length ws)) by (destruct Hw as (Hne & _); destruct ws; [done|simpl; lia]).
  set (bits := Z.of_nat (length ws) * (bsW * 8)) in *.
  set (P := payload bsW ws ++ (if odd_pad bsW (Z.of_nat (length ws)) then le_split 4 0 else [])).
  destruct (wire_agree bsW bsR (Z.of_nat (length ws))) as [El Hle]; [done..|]. fold bits in El, Hle.
  assert (Es : mlen (enc_bitstore bsW ws) = sz) by (by apply mlen_enc_bitstore).
  assert (Ep : mlen P = wire_len bsR (BitStore_calculateBitBlockCount bsR bits)).
  { rewrite El. unfold P, wire_len. rewrite mlen_app, mlen_payload by lia.
    destruct (odd_pad _ _); rewrite ?mlen_le4, ?mlen_nil; lia. }
  assert (HPb : Forall is_byte P).
  { apply Forall_app. split; [apply payload_bytes|]. destruct (odd_pad _ _); [apply le_split_bytes|done]. }
  pose proof (writes_bitstore bsW HW ws Hw) as HWr.
  set (m' := put m (b + len) (enc_bitstore bsW ws)).
  assert (Hh : holds m' (b + len) (le_split 4 bits ++ le_split 4 0 ++ P)).
  { change (le_split 4 bits ++ le_split 4 0 ++ P) with (enc_bitstore bsW ws).
    unfold holds, m'. rewrite mlen_put by lia. split_and!; [lia|lia|apply slice_put; lia]. }
  assert (Hsz : sz = 8 + mlen P) by (unfold sz; rewrite Ep, El; done).
  destruct (deserialize_wire bsR HR n0 s0 bits P m' (b + len) n) as (ws' & Hw' & Hl' & Hp' & E);
    [done|lia|done|done|done|lia|].
  assert (Hmod : sz mod 8 = 0).
  { unfold sz. rewrite Z.add_comm. replace 8 with (1 * 8) at 1 by lia. rewrite Z.mod_add by lia.
    by apply wire_len_mod8. }
  split; [done|]. exists m', ws'. rewrite Hsz in *. split_and!.
  - rewrite (writes_buf (Writes := HWr)) by lia. by rewrite Es.
  - apply (preprocess_wire bsR bits); [done|lia|done|done|lia].
  - exact E.
  - done.
  - intros i Hi. rewrite !getBit_val by done. do 2 f_equal. unfold bits_val at 1. rewrite Hp'.
    unfold P. apply wire_tail; [done|done|done].
Qed.

Lemma bitstore_wire_witness : exists m' ws',
  BitStore_deserialize 8 (mkBS 64 None None) m' (mkDes 0 24) =
    Done (of_blocks 8 ws', mkDes (0 + 0 + 24) (24 - 24)) /\
  BitStore_getBit 8 (of_blocks 8 ws') 66 = BitStore_getBit 4 (of_blocks 4 [1; 2; 4]) 66.
Proof.
  destruct (bitstore_wire 4 8 [1; 2; 4] (mkBS 64 None None) 1 (replicate 24 7) 0 0 24
    ltac:(lia) ltac:(lia) ltac:(split_and!; [done|by repeat constructor|by vm_compute])
    ltac:(by vm_compute) ltac:(by vm_compute) ltac:(lia) ltac:(lia) ltac:(by vm_compute)
    ltac:(by vm_compute) ltac:(by vm_compute)) as (_ & m' & ws' & _ & _ & E & _ & H).
  exists m', ws'. split; [exact E|]. exact (H 66 ltac:(lia)).
Defined.

(** Copies.  [BitStore_copy] makes any destination equal to the source.
    [BitStore_copyThreadSafe] keeps the size of the destination and, for every
    index below it, makes the bit that of the source (false where the source is
    shorter), as its comment says. *)
Theorem bitstore_copies (bs : Z) (ws : list Z) (s : BitStore) (n : Z) :
  bs = 4 \/ bs = 8 -> blocks_wf bs ws -> numBits (of_blocks bs ws) <= 2 ^ 32 - bs * 8 ->
  shape bs n s ->
  BitStore_copy bs s (of_blocks bs ws) = Done (of_blocks bs ws) /\
  exists s', BitStore_copyThreadSafe bs s (of_blocks bs ws) = Done s' /\ numBits s' = numBits s /\
    forall i, 0 <= i ->
      BitStore_getBit bs s' i =
        if i <? numBits s then BitStore_getBit bs (of_blocks bs ws) i else Done false.
Proof.
  intros Hbs Hw Hb Hs. cbn [numBits of_blocks] in Hb. split; [by eapply copy_blocks|].
  exists (of_blocks bs (clipped (Z.to_nat n) ws)).
  pose proof Hs as (H1 & H2 & H3 & _). pose proof (BITS_pos bs Hbs).
  split_and!; [by apply copyThreadSafe_blocks|cbn [numBits of_blocks]; rewrite clipped_length; lia|].
  intros i Hi. rewrite !getBit_val; try done; [|apply clipped_wf; [done|lia|lia|done]].
  rewrite clipped_testbit by (try lia; apply Hw || done). rewrite Z2Nat.id, H3 by lia.
  by destruct (i <? n * (bs * 8)).
Qed.

Lemma bitstore_copies_witness :
  BitStore_copy 8 (mkBS 64 None None) (of_blocks 8 [1; 2]) = Done (of_blocks 8 [1; 2]).
Proof.
  apply (bitstore_copies 8 [1; 2] (mkBS 64 None None) 1 ltac:(lia)
    ltac:(split_and!; [done|by repeat constructor|by vm_compute]) ltac:(by vm_compute)
    ltac:(by vm_compute)).
Defined.
