(* ===== verification/RBTree.v ===== *)
(** * Red-black trees: the lookup and insertion code generated by CONGFS_RBTREE_FUNCTIONS

    Models the macros [CONGFS_RBTREE_FUNCTIONS], [CONGFS_RB_KEYCMP_LT_INTEGRAL],
    [CONGFS_KFREE_RBTREE_DTOR] and [CONGFS_RBTREE_FOR_EACH_ENTRY] of
    [common/Common.h].  The tree walks are the macros' own code; linking a node,
    rebalancing, erasing and iterating belong to the kernel ([linux/rbtree.h]) and
    are the operations of the class [KernelRBTree] with the laws that header
    documents.  Colours and parent pointers are the kernel's business: a tree is
    its shape and its elements. *)

From stdpp Require Import sorting.
From S2P Require Import Prelude.

Inductive rbtree (E : Type) : Type :=
| Leaf
| Node (rb_left : rbtree E) (elem : E) (rb_right : rbtree E).
Arguments Leaf {E}.
Arguments Node {E} rb_left elem rb_right.

Fixpoint inorder {E} (t : rbtree E) : list E :=
  match t with Leaf => [] | Node l e r => inorder l ++ e :: inorder r end.

(** [CONGFS_RB_KEYCMP_LT_INTEGRAL] *)
Definition rb_keycmp_lt_integral (lhs rhs : Z) : Z :=
  if lhs <? rhs then -1 else if lhs =? rhs then 0 else 1.

(** What [linux/rbtree.h] promises.  A node is identified by its sort key, which
    is unique in a tree. *)
Class KernelRBTree (E : Type) (key : E -> Z) := {
  rb_insert_color : rbtree E -> rbtree E;
  rb_erase : Z -> rbtree E -> rbtree E;
  rb_replace_node : Z -> E -> rbtree E -> rbtree E;
  rb_iter : rbtree E -> list E;         (* rb_first, rb_next, ... *)
  rb_postorder : rbtree E -> list E;    (* rbtree_postorder_for_each_entry_safe *)
  rb_insert_color_inorder : forall t, inorder (rb_insert_color t) = inorder t;
  rb_erase_inorder : forall k t,
    inorder (rb_erase k t) = filter (fun e => key e <> k) (inorder t);
  rb_replace_inorder : forall k e t,
    inorder (rb_replace_node k e t) =
      (fun x => if decide (key x = k) then e else x) <$> inorder t;
  rb_iter_inorder : forall t, rb_iter t = inorder t;
  rb_postorder_elems : forall t, rb_postorder t ≡ₚ inorder t }.

Section RBTREE_FUNCTIONS.
Context {E : Type} (key : E -> Z) `{KernelRBTree E key}.

Fixpoint rb_find (node : rbtree E) (k : Z) : option E :=
  match node with
  | Leaf => None
  | Node l data r =>
      let cmp := rb_keycmp_lt_integral k (key data) in
      if cmp <? 0 then rb_find l k else if 0 <? cmp then rb_find r k else Some data
  end.

(** The descent of [_insert] and [rb_link_node]; [None] if the key exists. *)
Fixpoint rb_link (node : rbtree E) (data : E) : option (rbtree E) :=
  match node with
  | Leaf => Some (Node Leaf data Leaf)
  | Node l cur r =>
      let cmp := rb_keycmp_lt_integral (key data) (key cur) in
      if cmp <? 0 then l' ← rb_link l data; Some (Node l' cur r)
      else if 0 <? cmp then r' ← rb_link r data; Some (Node l cur r')
      else None
  end.

Definition rb_insert (root : rbtree E) (data : E) : bool * rbtree E :=
  match rb_link root data with
  | Some t => (true, rb_insert_color t)
  | None => (false, root)
  end.

(** Result: the replaced element ([None] for NULL) and the tree. *)
Definition rb_insertOrReplace (root : rbtree E) (data : E) : option E * rbtree E :=
  let '(inserted, root') := rb_insert root data in
  if inserted then (None, root')
  else
    let existing := rb_find root' (key data) in
    match existing with
    | Some e => (Some e, rb_replace_node (key e) data root')
    | None => (None, root')      (* unreachable: the key was found above *)
    end.

Definition rb_erase_elem (root : rbtree E) (data : E) : rbtree E := rb_erase (key data) root.

(** ** Search trees and the map they implement *)

Definition lt_key (e1 e2 : E) : Prop := key e1 < key e2.
Definition rb_sorted (t : rbtree E) : Prop := StronglySorted lt_key (inorder t).

Definition elems_map (l : list E) : gmap Z E := list_to_map ((fun e => (key e, e)) <$> l).
Definition rb_map (t : rbtree E) : gmap Z E := elems_map (inorder t).

Lemma keycmp_spec a b :
  (a < b /\ rb_keycmp_lt_integral a b = -1) \/ (a = b /\ rb_keycmp_lt_integral a b = 0) \/
  (b < a /\ rb_keycmp_lt_integral a b = 1).
Proof.
  unfold rb_keycmp_lt_integral. destruct (Z.ltb_spec a b); [lia|].
  destruct (Z.eqb_spec a b); lia.
Qed.

Lemma sorted_app_inv l e r :
  StronglySorted lt_key (l ++ e :: r) ->
  StronglySorted lt_key l /\ StronglySorted lt_key r /\
  (forall x, x ∈ l -> key x < key e) /\ (forall x, x ∈ r -> key e < key x).
Proof.
  induction l as [|y l IH]; simpl; intros Hs.
  - inversion Hs as [|? ? Hr Hf]; subst. rewrite Forall_forall in Hf.
    split_and!; [constructor|done|by intros ? ?%not_elem_of_nil|done].
  - inversion Hs as [|? ? Hr Hf]; subst. destruct (IH Hr) as (H1 & H2 & H3 & H4).
    rewrite Forall_forall in Hf. split_and!; [|done| |done].
    + constructor; [done|]. apply Forall_forall. intros x Hx. apply Hf. set_solver.
    + intros x [->|Hx]%elem_of_cons; [|auto]. apply Hf. set_solver.
Qed.

Lemma sorted_app_intro l e r :
  StronglySorted lt_key l -> StronglySorted lt_key r ->
  (forall x, x ∈ l -> key x < key e) -> (forall x, x ∈ r -> key e < key x) ->
  StronglySorted lt_key (l ++ e :: r).
Proof.
  intros Hl Hr H1 H2. induction Hl as [|y l Hl IH Hf]; simpl.
  - constructor; [done|]. by apply Forall_forall.
  - rewrite Forall_forall in Hf. constructor.
    + apply IH. intros. apply H1. set_solver.
    + apply Forall_forall. intros x [Hx|[->|Hx]%elem_of_cons]%elem_of_app; [auto| |].
      * apply H1. set_solver.
      * specialize (H1 y ltac:(set_solver)). specialize (H2 x Hx). unfold lt_key. lia.
Qed.

(** In a sorted list a key occurs once, so the map is the list. *)
Lemma elems_map_lookup l k e :
  StronglySorted lt_key l -> elems_map l !! k = Some e <-> e ∈ l /\ key e = k.
Proof.
  unfold elems_map. induction 1 as [|y l Hs IH Hf]; simpl.
  - rewrite lookup_empty. set_solver.
  - rewrite Forall_forall in Hf. destruct (decide (key y = k)) as [<-|Hne].
    + rewrite lookup_insert_eq. split.
      * intros [= ->]. set_solver.
      * intros [[->|Hx]%elem_of_cons Hk]; [done|]. specialize (Hf e Hx). unfold lt_key in Hf. lia.
    + rewrite lookup_insert_ne by done. rewrite IH. set_solver.
Qed.

Lemma elems_map_lookup_None l k :
  elems_map l !! k = None <-> forall e, e ∈ l -> key e <> k.
Proof.
  unfold elems_map. induction l as [|y l IH]; simpl; [rewrite lookup_empty; set_solver|].
  destruct (decide (key y = k)) as [<-|Hne].
  - rewrite lookup_insert_eq. split; [done|]. intros Hx. by destruct (Hx y ltac:(set_solver)).
  - rewrite lookup_insert_ne by done. rewrite IH. set_solver.
Qed.

Lemma rb_map_lookup t k e : rb_sorted t -> rb_map t !! k = Some e <-> e ∈ inorder t /\ key e = k.
Proof. apply elems_map_lookup. Qed.

(** Two sorted element lists with the same elements are the same map. *)
Lemma rb_map_ext t m :
  rb_sorted t -> (forall e, e ∈ inorder t <-> m !! key e = Some e) ->
  (forall k e, m !! k = Some e -> key e = k) -> rb_map t = m.
Proof.
  intros Hs Hm Hk. apply map_eq. intros k. apply option_eq. intros e.
  rewrite rb_map_lookup by done. split.
  - intros [He <-]. by apply Hm.
  - intros He. pose proof (Hk k e He) as <-. split; [by apply Hm|done].
Qed.

Lemma rb_find_map t k : rb_sorted t -> rb_find t k = rb_map t !! k.
Proof.
  intros Hs. symmetry. apply option_eq. intros e. rewrite rb_map_lookup by done.
  unfold rb_sorted in Hs. induction t as [|l IHl x r IHr]; cbn [rb_find inorder] in *.
  - split; [intros [He _]; set_solver|done].
  - destruct (sorted_app_inv _ _ _ Hs) as (Hl & Hr & Hlx & Hrx).
    destruct (keycmp_spec k (key x)) as [[Hlt ->]|[[-> ->]|[Hgt ->]]]; simpl.
    + rewrite <- IHl by done. split; [|set_solver]. intros [He Hk]. split; [|done].
      apply elem_of_app in He as [He|[->|He]%elem_of_cons]; [done|lia|].
      specialize (Hrx e He). lia.
    + split.
      * intros [[He|[->|He]%elem_of_cons]%elem_of_app Hk]; [|done|];
          [specialize (Hlx e He)|specialize (Hrx e He)]; lia.
      * intros [= ->]. set_solver.
    + rewrite <- IHr by done. split; [|set_solver]. intros [He Hk]. split; [|done].
      apply elem_of_app in He as [He|[->|He]%elem_of_cons]; [|lia|done].
      specialize (Hlx e He). lia.
Qed.

(** Linking a new element puts it at its place in the order. *)
Lemma rb_link_spec t d :
  rb_sorted t ->
  match rb_link t d with
  | Some t' => rb_sorted t' /\ inorder t' ≡ₚ d :: inorder t /\ forall e, e ∈ inorder t -> key e <> key d
  | None => exists e, e ∈ inorder t /\ key e = key d
  end.
Proof.
  unfold rb_sorted. induction t as [|l IHl x r IHr]; cbn [rb_link inorder]; intros Hs.
  - split_and!; [repeat constructor|done|set_solver].
  - destruct (sorted_app_inv _ _ _ Hs) as (Hl & Hr & Hlx & Hrx).
    destruct (keycmp_spec (key d) (key x)) as [[Hlt ->]|[[Heq ->]|[Hgt ->]]]; simpl.
    + specialize (IHl Hl). destruct (rb_link l d) as [l'|]; simpl.
      * destruct IHl as (Hl' & Hp & Hne). split_and!.
        -- apply sorted_app_intro; [done|done| |done]. intros y. rewrite Hp. set_solver.
        -- by rewrite Hp.
        -- intros e [He|[->|He]%elem_of_cons]%elem_of_app; [by apply Hne|lia|].
           specialize (Hrx e He). lia.
      * destruct IHl as (e & He & Hk). exists e. set_solver.
    + exists x. set_solver.
    + specialize (IHr Hr). destruct (rb_link r d) as [r'|]; simpl.
      * destruct IHr as (Hr' & Hp & Hne). split_and!.
        -- apply sorted_app_intro; [done|done|done|]. intros y. rewrite Hp. set_solver.
        -- rewrite Hp. rewrite (Permutation_swap d x). by rewrite Permutation_middle.
        -- intros e [He|[->|He]%elem_of_cons]%elem_of_app; [|lia|by apply Hne].
           specialize (Hlx e He). lia.
      * destruct IHr as (e & He & Hk). exists e. set_solver.
Qed.

Lemma rb_insert_map t d :
  rb_sorted t ->
  rb_sorted (rb_insert t d).2 /\
  match rb_map t !! key d with
  | Some e => rb_insert t d = (false, t)
  | None => (rb_insert t d).1 = true /\ rb_map (rb_insert t d).2 = <[key d := d]> (rb_map t)
  end.
Proof.
  intros Hs. pose proof (rb_link_spec t d Hs) as HL. unfold rb_insert.
  destruct (rb_link t d) as [t'|]; cbn [fst snd].
  - destruct HL as (Hs' & Hp & Hne).
    assert (Hs2 : rb_sorted (rb_insert_color t')).
    { unfold rb_sorted. by rewrite rb_insert_color_inorder. }
    split; [done|]. destruct (rb_map t !! key d) as [e|] eqn:El.
    { apply rb_map_lookup in El as [He Hk]; [|done]. by destruct (Hne e He). }
    split; [done|]. apply rb_map_ext; [done| |].
    + intros e. rewrite rb_insert_color_inorder, Hp, elem_of_cons. split.
      * intros [->|He]; [by rewrite lookup_insert_eq|].
        rewrite lookup_insert_ne by (intros E'; by apply (Hne e)). by apply rb_map_lookup.
      * rewrite lookup_insert_Some. intros [[_ <-]|[_ He]]; [by left|right].
        by apply rb_map_lookup in He as [? _].
    + intros k e. rewrite lookup_insert_Some. intros [[<- <-]|[_ He]]; [done|].
      by apply rb_map_lookup in He as [_ ?].
  - split; [done|]. destruct HL as (e & He & Hk).
    rewrite (proj2 (rb_map_lookup t (key d) e Hs)) by done. done.
Qed.

Lemma rb_insertOrReplace_map t d :
  rb_sorted t ->
  rb_sorted (rb_insertOrReplace t d).2 /\
  (rb_insertOrReplace t d).1 = rb_map t !! key d /\
  rb_map (rb_insertOrReplace t d).2 = <[key d := d]> (rb_map t).
Proof.
  intros Hs. destruct (rb_insert_map t d Hs) as [Hs1 HI]. unfold rb_insertOrReplace.
  destruct (rb_map t !! key d) as [e|] eqn:El.
  - rewrite HI. rewrite rb_find_map, El by done. cbn [fst snd].
    pose proof El as [He Hk]%rb_map_lookup; [|done].
    assert (Ho : inorder (rb_replace_node (key e) d t) =
      (fun x => if decide (key x = key e) then d else x) <$> inorder t) by apply rb_replace_inorder.
    assert (Hin : forall x, x ∈ inorder (rb_replace_node (key e) d t) <->
      x = d \/ (x ∈ inorder t /\ key x <> key d)).
    { intros x. rewrite Ho, list_elem_of_fmap, <- Hk. split.
      - intros (y & -> & Hy). case_decide; [by left|by right].
      - intros [->|[Hx Hne]]; [exists e|exists x]; case_decide; done. }
    assert (Hs' : rb_sorted (rb_replace_node (key e) d t)).
    { unfold rb_sorted. rewrite Ho. clear -Hs Hk. unfold rb_sorted in Hs.
      induction Hs as [|y l Hs IH Hf]; simpl; constructor; [done|].
      rewrite Forall_forall in *. intros z (w & -> & Hw)%list_elem_of_fmap.
      specialize (Hf w Hw). unfold lt_key in *. repeat case_decide; lia. }
    split_and!; [done|done|]. apply rb_map_ext; [done| |].
    + intros x. rewrite Hin. split.
      * intros [->|[Hx Hne]]; [by rewrite lookup_insert_eq|].
        rewrite lookup_insert_ne by done. by apply rb_map_lookup.
      * rewrite lookup_insert_Some. intros [[_ <-]|[Hne Hx]]; [by left|right].
        apply rb_map_lookup in Hx as [? _]; done.
    + intros k x. rewrite lookup_insert_Some. intros [[<- <-]|[_ Hx]]; [done|].
      by apply rb_map_lookup in Hx as [_ ?].
  - destruct HI as [H1 H2]. destruct (rb_insert t d) as [b t']. cbn [fst snd] in *. by subst b.
Qed.

Lemma rb_erase_map t d :
  rb_sorted t -> rb_sorted (rb_erase_elem t d) /\ rb_map (rb_erase_elem t d) = delete (key d) (rb_map t).
Proof.
  intros Hs. unfold rb_erase_elem.
  assert (Hs' : rb_sorted (rb_erase (key d) t)).
  { unfold rb_sorted. rewrite rb_erase_inorder. clear -Hs. unfold rb_sorted in Hs.
    induction Hs as [|y l Hs IH Hf]; [constructor|]. rewrite filter_cons. case_decide; [|done].
    constructor; [done|]. rewrite Forall_forall in *. intros x [_ Hx]%list_elem_of_filter. auto. }
  split; [done|]. apply rb_map_ext; [done| |].
  - intros e. rewrite rb_erase_inorder, list_elem_of_filter, lookup_delete_Some.
    split; [intros [Hne He]; split; [done|by apply rb_map_lookup]|].
    intros [Hne He]. apply rb_map_lookup in He as [? _]; done.
  - intros k e. rewrite lookup_delete_Some. intros [_ He]. by apply rb_map_lookup in He as [_ ?].
Qed.

(** Iterating visits the map's elements in the order of their keys. *)
Lemma rb_iter_map t :
  rb_sorted t -> StronglySorted lt_key (rb_iter t) /\
  forall e, e ∈ rb_iter t <-> rb_map t !! key e = Some e.
Proof.
  intros Hs. rewrite rb_iter_inorder. split; [done|]. intros e.
  rewrite rb_map_lookup by done. tauto.
Qed.
End RBTREE_FUNCTIONS.

Lemma sorted_keys {E} (key : E -> Z) (l : list E) :
  StronglySorted (lt_key key) l -> StronglySorted Z.lt (key <$> l).
Proof.
  induction 1 as [|x l Hl IH Hf]; simpl; constructor; [done|].
  rewrite Forall_forall in Hf. apply Forall_forall.
  intros y (z & -> & Hz)%list_elem_of_fmap. by apply Hf.
Qed.

Lemma sorted_lt_NoDup (l : list Z) : StronglySorted Z.lt l -> NoDup l.
Proof.
  induction 1 as [|x l Hl IH Hf]; constructor; [|done]. rewrite Forall_forall in Hf.
  intros Hx. specialize (Hf x Hx). lia.
Qed.

(** A kernel that never rebalances satisfies the laws. *)
Fixpoint chain {E} (l : list E) : rbtree E :=
  match l with [] => Leaf | e :: l' => Node Leaf e (chain l') end.
Lemma inorder_chain {E} (l : list E) : inorder (chain l) = l.
Proof. induction l as [|e l IH]; simpl; [done|]. by rewrite IH. Qed.

Definition chain_kernel (E : Type) (key : E -> Z) : KernelRBTree E key := {|
  rb_insert_color t := t;
  rb_erase k t := chain (filter (fun e => key e <> k) (inorder t));
  rb_replace_node k e t := chain ((fun x => if decide (key x = k) then e else x) <$> inorder t);
  rb_iter t := inorder t;
  rb_postorder t := inorder t;
  rb_insert_color_inorder t := eq_refl;
  rb_erase_inorder k t := inorder_chain _;
  rb_replace_inorder k e t := inorder_chain _;
  rb_iter_inorder t := eq_refl;
  rb_postorder_elems t := Permutation_refl _ |}.

(** ** Refinement: the generated functions implement a finite map *)

Inductive RBOp (E : Type) : Type :=
| OpInsert (data : E)
| OpInsertOrReplace (data : E)
| OpErase (data : E)
| OpFind (k : Z).
Arguments OpInsert {E} data.
Arguments OpInsertOrReplace {E} data.
Arguments OpErase {E} data.
Arguments OpFind {E} k.

(** What an operation returns: a bool, an element pointer, or nothing. *)
Definition RBRes (E : Type) : Type := bool + option E + unit.

Section RBRefinement.
Context {E : Type} (key : E -> Z) `{!KernelRBTree E key}.

Definition rb_run (t : rbtree E) (o : RBOp E) : RBRes E * rbtree E :=
  match o with
  | OpInsert d => let '(b, t') := rb_insert key t d in (inl (inl b), t')
  | OpInsertOrReplace d => let '(r, t') := rb_insertOrReplace key t d in (inl (inr r), t')
  | OpErase d => (inr tt, rb_erase_elem key t d)
  | OpFind k => (inl (inr (rb_find key t k)), t)
  end.

Definition map_run (m : gmap Z E) (o : RBOp E) : RBRes E * gmap Z E :=
  match o with
  | OpInsert d => match m !! key d with
                  | Some _ => (inl (inl false), m)
                  | None => (inl (inl true), <[key d := d]> m)
                  end
  | OpInsertOrReplace d => (inl (inr (m !! key d)), <[key d := d]> m)
  | OpErase d => (inr tt, delete (key d) m)
  | OpFind k => (inl (inr (m !! k)), m)
  end.

Fixpoint run_all {S} (step : S -> RBOp E -> RBRes E * S) (s : S) (os : list (RBOp E))
    : list (RBRes E) * S :=
  match os with
  | [] => ([], s)
  | o :: os' => let '(r, s1) := step s o in let '(rs, s2) := run_all step s1 os' in (r :: rs, s2)
  end.

Lemma rb_run_step t o :
  rb_sorted key t ->
  rb_sorted key (rb_run t o).2 /\
  (rb_run t o).1 = (map_run (rb_map key t) o).1 /\
  rb_map key (rb_run t o).2 = (map_run (rb_map key t) o).2.
Proof.
  intros Hs. destruct o as [d|d|d|k]; cbn [rb_run map_run].
  - destruct (rb_insert_map key t d Hs) as [Hs' HI]. destruct (rb_map key t !! key d).
    + rewrite HI. done.
    + destruct (rb_insert key t d) as [b t']. cbn [fst snd] in *. destruct HI as [-> HI]. done.
  - destruct (rb_insertOrReplace_map key t d Hs) as (Hs' & HI & HM).
    destruct (rb_insertOrReplace key t d) as [r t']. cbn [fst snd] in *. by subst.
  - destruct (rb_erase_map key t d Hs). done.
  - cbn [fst snd]. by rewrite rb_find_map.
Qed.

Lemma run_all_refines os t :
  rb_sorted key t ->
  rb_sorted key (run_all rb_run t os).2 /\
  (run_all rb_run t os).1 = (run_all map_run (rb_map key t) os).1 /\
  rb_map key (run_all rb_run t os).2 = (run_all map_run (rb_map key t) os).2.
Proof.
  revert t. induction os as [|o os IH]; intros t Hs; cbn [run_all]; [done|].
  destruct (rb_run_step t o Hs) as (H1 & H2 & H3). specialize (IH _ H1). rewrite H3 in IH.
  destruct (rb_run t o) as [r t1], (map_run (rb_map key t) o) as [r' m1]. cbn [fst snd] in *.
  destruct (run_all rb_run t1 os), (run_all map_run m1 os). cbn [fst snd] in *.
  destruct IH as (? & ? & ?). by subst.
Qed.
End RBRefinement.

(** The generated tree functions implement a finite map.  For any key function,
    any kernel that keeps its documented promises and any sequence of insert,
    insertOrReplace, erase and find calls on an initially empty tree, every call
    returns what a map would return (in particular [_insert] refuses a key that
    exists and [_insertOrReplace] hands back the previous element), the tree
    stays a search tree, and iterating it visits exactly the map's elements in
    increasing key order. *)
Theorem rbtree_refines_map {E : Type} (key : E -> Z) (K : KernelRBTree E key) (os : list (RBOp E)) :
  let '(rs, t) := run_all (rb_run key) Leaf os in
  let '(rs', m) := run_all (map_run key) ∅ os in
  rs = rs' /\ rb_sorted key t /\ StronglySorted (lt_key key) (rb_iter t) /\
  (forall e, e ∈ rb_iter t <-> m !! key e = Some e).
Proof.
  destruct (run_all_refines key os Leaf ltac:(constructor)) as (H1 & H2 & H3).
  change (rb_map key Leaf) with (∅ : gmap Z E) in *.
  destruct (run_all (rb_run key) Leaf os) as [rs t], (run_all (map_run key) ∅ os) as [rs' m].
  cbn [fst snd] in *. destruct (rb_iter_map key t H1) as [H4 H5].
  split_and!; [done|done|done|]. intros e. by rewrite H5, H3.
Qed.

Definition rb_ops_ex : list (RBOp Z) :=
  [OpInsert 5; OpInsert 3; OpInsert 5; OpInsertOrReplace 3; OpErase 5; OpFind 5; OpFind 3].

Lemma rbtree_refines_map_witness :
  (run_all (@rb_run Z id (chain_kernel Z id)) Leaf rb_ops_ex).1 =
    [inl (inl true); inl (inl true); inl (inl false); inl (inr (Some 3)); inr tt;
     inl (inr None); inl (inr (Some 3))] /\
  rb_sorted id (run_all (@rb_run Z id (chain_kernel Z id)) Leaf rb_ops_ex).2.
Proof.
  split; [by vm_compute|].
  exact (proj1 (proj2 (rbtree_refines_map id (chain_kernel Z id) rb_ops_ex))).
Defined.
