(* ===== verification/TargetMapper.v ===== *)
(** * TargetMapper: which node a storage target lives on

    Models [common/nodes/TargetMapper.h] and [TargetMapper.c] on top of the tree
    functions of RBTree.v.  The rwlock makes every operation atomic; [kfree]ing a
    replaced entry has no effect on the mapper. *)

From stdpp Require Import sorting.
From S2P Require Import Prelude Serialization SerializationLists RBTree.

Record TargetMapper := mkMapper { _entries : rbtree TargetMapping }.

Section TargetMapper.
Context `{K : KernelRBTree TargetMapping tmTargetID}.

Definition TargetMapper_init : TargetMapper := mkMapper Leaf.
Definition TargetMapper_construct : TargetMapper := TargetMapper_init.
Definition TargetMapper_uninit (this : TargetMapper) : TargetMapper := mkMapper Leaf.

(** Result: true if the target was not mapped before. *)
Definition TargetMapper_mapTarget (this : TargetMapper) (targetID nodeID : Z) : bool * TargetMapper :=
  let entry := mkTM targetID nodeID in
  let '(replaced, t) := rb_insertOrReplace tmTargetID (_entries this) entry in
  (match replaced with None => true | Some _ => false end, mkMapper t).

Fixpoint sync_loop (t : rbtree TargetMapping) (mappings : list TargetMapping) : rbtree TargetMapping :=
  match mappings with
  | [] => t
  | elem :: rest => sync_loop (rb_insertOrReplace tmTargetID t elem).2 rest
  end.

Definition TargetMapper_syncTargets (this : TargetMapper) (mappings : list TargetMapping)
    : TargetMapper :=
  mkMapper (sync_loop Leaf mappings).

Definition TargetMapper_getTargetIDs (this : TargetMapper) (outTargetIDs : list Z) : list Z :=
  outTargetIDs ++ (tmTargetID <$> rb_iter (_entries this)).

Definition TargetMapper_getNodeID (this : TargetMapper) (targetID : Z) : Z :=
  match rb_find tmTargetID (_entries this) targetID with
  | Some elem => tmNodeID elem
  | None => 0
  end.

(** ** The mapper implements a map from targets to nodes *)

Definition mapper_rep (this : TargetMapper) (M : gmap Z Z) : Prop :=
  rb_sorted tmTargetID (_entries this) /\ tmNodeID <$> rb_map tmTargetID (_entries this) = M.

Lemma insert_rep t e M :
  mapper_rep (mkMapper t) M ->
  mapper_rep (mkMapper (rb_insertOrReplace tmTargetID t e).2) (<[tmTargetID e := tmNodeID e]> M) /\
  (rb_insertOrReplace tmTargetID t e).1 = rb_map tmTargetID t !! tmTargetID e.
Proof.
  intros [Hs HM]. destruct (rb_insertOrReplace_map tmTargetID t e Hs) as (Hs' & Hr & Hm).
  split; [|done]. split; [done|]. cbn [_entries] in *. by rewrite Hm, fmap_insert, HM.
Qed.

Definition map_of_mappings (l : list TargetMapping) (M : gmap Z Z) : gmap Z Z :=
  foldl (fun M e => <[tmTargetID e := tmNodeID e]> M) M l.

Lemma sync_loop_rep l t M :
  mapper_rep (mkMapper t) M -> mapper_rep (mkMapper (sync_loop t l)) (map_of_mappings l M).
Proof.
  revert t M. induction l as [|e l IH]; intros t M HR; cbn [sync_loop]; [done|].
  by apply IH, insert_rep.
Qed.

Lemma empty_rep : mapper_rep (mkMapper Leaf) ∅.
Proof. split; [constructor|]. apply fmap_empty. Qed.

Lemma lookup_rep this M k :
  mapper_rep this M -> tmNodeID <$> rb_find tmTargetID (_entries this) k = M !! k.
Proof. intros [Hs <-]. by rewrite rb_find_map, lookup_fmap. Qed.
End TargetMapper.

(** ** Properties *)

(** The target mapper is a map from target to node.  For any kernel tree that
    keeps its promises: syncing replaces the whole mapping by the received list
    (the last entry of a target wins); mapping one target changes that target
    only and tells whether it was new; looking a target up returns its node and 0
    if it has none; and the target ids are listed without repetition, in
    increasing order, behind what the output list held. *)
Theorem target_mapper_refines (K : KernelRBTree TargetMapping tmTargetID) (this : TargetMapper)
    (M : gmap Z Z) (l : list TargetMapping) (targetID nodeID : Z) (out : list Z) :
  mapper_rep this M ->
  mapper_rep TargetMapper_init ∅ /\
  mapper_rep (TargetMapper_syncTargets this l) (map_of_mappings l ∅) /\
  (TargetMapper_mapTarget this targetID nodeID).1 = bool_decide (M !! targetID = None) /\
  mapper_rep (TargetMapper_mapTarget this targetID nodeID).2 (<[targetID := nodeID]> M) /\
  TargetMapper_getNodeID this targetID = default 0 (M !! targetID) /\
  exists ids, TargetMapper_getTargetIDs this out = out ++ ids /\
    StronglySorted Z.lt ids /\ forall t, t ∈ ids <-> is_Some (M !! t).
Proof.
  intros HR. pose proof HR as [Hs HM]. split_and!.
  - apply empty_rep.
  - apply sync_loop_rep, empty_rep.
  - destruct this as [t]. destruct (insert_rep t (mkTM targetID nodeID) M HR) as [_ Hr].
    unfold TargetMapper_mapTarget. cbn [_entries] in *.
    destruct (rb_insertOrReplace tmTargetID t (mkTM targetID nodeID)) as [r t'].
    cbn [fst snd tmTargetID] in *. rewrite <- HM, lookup_fmap, <- Hr. by destruct r.
  - destruct this as [t]. destruct (insert_rep t (mkTM targetID nodeID) M HR) as [HR' _].
    unfold TargetMapper_mapTarget. cbn [_entries] in *.
    by destruct (rb_insertOrReplace tmTargetID t (mkTM targetID nodeID)) as [r t'].
  - unfold TargetMapper_getNodeID. rewrite <- (lookup_rep this M targetID HR).
    by destruct (rb_find tmTargetID (_entries this) targetID).
  - destruct (rb_iter_map tmTargetID _ Hs) as [Hord Hel]. eexists. split; [done|]. split.
    + by apply sorted_keys.
    + intros t. rewrite list_elem_of_fmap, <- HM, lookup_fmap, fmap_is_Some. split.
      * intros (x & -> & Hx). apply Hel in Hx. eauto.
      * intros [x Hx]. pose proof Hx as [_ <-]%rb_map_lookup; [|done]. exists x.
        split; [done|]. by apply Hel.
Qed.

Lemma target_mapper_refines_witness :
  let K := chain_kernel TargetMapping tmTargetID in
  mapper_rep (TargetMapper_syncTargets TargetMapper_init [mkTM 1 5; mkTM 2 6; mkTM 1 7])
             {[1 := 7; 2 := 6]}.
Proof.
  exact (proj1 (proj2 (target_mapper_refines (chain_kernel TargetMapping tmTargetID)
    TargetMapper_init ∅ [mkTM 1 5; mkTM 2 6; mkTM 1 7] 0 0 [] empty_rep))).
Defined.
