(* ===== verification/TargetStateStore.v ===== *)
(** * TargetStateStore: reachability and consistency of targets

    Models [common/nodes/TargetStateStore.h] and [TargetStateStore.c], and the
    state types of [common/Types.h].  The combined update of states and buddy
    groups is in MirrorBuddyGroupMapper.v, which depends on this file. *)

From stdpp Require Import sorting strings.
From S2P Require Import Prelude Serialization SerializationLists RBTree.

Definition TargetReachabilityState_ONLINE : Z := 0.
Definition TargetReachabilityState_POFFLINE : Z := 1.
Definition TargetReachabilityState_OFFLINE : Z := 2.
Definition TargetConsistencyState_GOOD : Z := 0.
Definition TargetConsistencyState_NEEDS_RESYNC : Z := 1.
Definition TargetConsistencyState_BAD : Z := 2.

Record CombinedTargetState := mkCTS { reachabilityState : Z; consistencyState : Z }.
Record TargetStateInfo := mkTSI { targetID : Z; state : CombinedTargetState }.
Record TargetStateStore := mkStore { states : rbtree TargetStateInfo }.

#[export] Instance CombinedTargetState_eq_dec : EqDecision CombinedTargetState.
Proof. solve_decision. Defined.

(** Updating the elements of a tree in place while iterating over it. *)
Fixpoint rb_update {E} (f : E -> E) (t : rbtree E) : rbtree E :=
  match t with Leaf => Leaf | Node l e r => Node (rb_update f l) (f e) (rb_update f r) end.

Definition TargetStateStore_reachabilityStateToStr (state : Z) : string :=
  if state =? TargetReachabilityState_ONLINE then "Online"
  else if state =? TargetReachabilityState_POFFLINE then "Probably-offline"
  else if state =? TargetReachabilityState_OFFLINE then "Offline"
  else "<invalid_value>".

Definition TargetStateStore_consistencyStateToStr (state : Z) : string :=
  if state =? TargetConsistencyState_GOOD then "Good"
  else if state =? TargetConsistencyState_NEEDS_RESYNC then "Needs-resync"
  else if state =? TargetConsistencyState_BAD then "Bad"
  else "<invalid_value>".

Section TargetStateStore.
Context `{K : KernelRBTree TargetStateInfo targetID}.

Definition TargetStateStore_init : TargetStateStore := mkStore Leaf.
Definition TargetStateStore_uninit (this : TargetStateStore) : TargetStateStore := mkStore Leaf.

Fixpoint sync_states (t : rbtree TargetStateInfo) (l : list TargetStateMapping)
    : rbtree TargetStateInfo :=
  match l with
  | [] => t
  | s :: rest =>
      let stateInfo := mkTSI (tsTargetID s) (mkCTS (tsReachabilityState s) (tsConsistencyState s)) in
      sync_states (rb_insertOrReplace targetID t stateInfo).2 rest
  end.

Definition __TargetStateStore_syncStatesUnlocked (this : TargetStateStore)
    (l : list TargetStateMapping) : TargetStateStore := mkStore (sync_states Leaf l).

(** Each of the three lists is appended to. *)
Definition TargetStateStore_getStatesAsLists (this : TargetStateStore)
    (outTargetIDs outReachabilityStates outConsistencyStates : list Z) : list Z * list Z * list Z :=
  let infos := rb_iter (states this) in
  (outTargetIDs ++ (targetID <$> infos),
   outReachabilityStates ++ ((fun i => u8 (reachabilityState (state i))) <$> infos),
   outConsistencyStates ++ ((fun i => u8 (consistencyState (state i))) <$> infos)).

Definition set_reachability (s : Z) (i : TargetStateInfo) : TargetStateInfo :=
  if negb (reachabilityState (state i) =? s)
  then mkTSI (targetID i) (mkCTS s (consistencyState (state i))) else i.

Definition TargetStateStore_setAllStates (this : TargetStateStore) (s : Z) : bool * TargetStateStore :=
  (existsb (fun i => negb (reachabilityState (state i) =? s)) (rb_iter (states this)),
   mkStore (rb_update (set_reachability s) (states this))).

(** Result: whether the target is known, and its state. *)
Definition TargetStateStore_getState (this : TargetStateStore) (id : Z) : bool * CombinedTargetState :=
  match rb_find targetID (states this) id with
  | Some stateInfo => (true, state stateInfo)
  | None => (false, mkCTS TargetReachabilityState_OFFLINE TargetConsistencyState_GOOD)
  end.

(** ** The store implements a map from targets to states *)

Definition store_rep (this : TargetStateStore) (M : gmap Z CombinedTargetState) : Prop :=
  rb_sorted targetID (states this) /\ state <$> rb_map targetID (states this) = M.

Lemma store_empty : store_rep (mkStore Leaf) ∅.
Proof. split; [constructor|apply fmap_empty]. Qed.

Definition map_of_states (l : list TargetStateMapping) (M : gmap Z CombinedTargetState)
    : gmap Z CombinedTargetState :=
  foldl (fun M s => <[tsTargetID s := mkCTS (tsReachabilityState s) (tsConsistencyState s)]> M) M l.

Lemma sync_states_rep l t M :
  store_rep (mkStore t) M -> store_rep (mkStore (sync_states t l)) (map_of_states l M).
Proof.
  revert t M. induction l as [|e l IH]; intros t M [Hs HM]; cbn [sync_states]; [done|].
  apply IH. cbn [states] in *.
  destruct (rb_insertOrReplace_map targetID t
    (mkTSI (tsTargetID e) (mkCTS (tsReachabilityState e) (tsConsistencyState e))) Hs)
    as (Hs' & _ & Hm). split; [done|]. cbn [states]. by rewrite Hm, fmap_insert, HM.
Qed.

Lemma inorder_update {E} (f : E -> E) t : inorder (rb_update f t) = f <$> inorder t.
Proof. induction t as [|l IHl e r IHr]; simpl; [done|]. by rewrite IHl, IHr, fmap_app. Qed.

Lemma set_reachability_key s i : targetID (set_reachability s i) = targetID i.
Proof. unfold set_reachability. by destruct (negb _). Qed.

Lemma set_reachability_state s i :
  state (set_reachability s i) = mkCTS s (consistencyState (state i)).
Proof.
  unfold set_reachability. destruct (Z.eqb_spec (reachabilityState (state i)) s) as [E|E]; simpl.
  - rewrite <- E. by destruct (state i).
  - done.
Qed.

Lemma update_rep this M s :
  store_rep this M ->
  store_rep (mkStore (rb_update (set_reachability s) (states this)))
            ((fun c => mkCTS s (consistencyState c)) <$> M).
Proof.
  intros [Hs <-]. assert (Hs' : rb_sorted targetID (rb_update (set_reachability s) (states this))).
  { unfold rb_sorted in *. rewrite inorder_update. clear -Hs.
    induction Hs as [|x l Hl IH Hf]; simpl; constructor; [done|].
    rewrite Forall_forall in Hf. apply Forall_forall.
    intros y (z & -> & Hz)%list_elem_of_fmap. unfold lt_key. rewrite !set_reachability_key.
    by apply Hf. }
  split; [done|]. cbn [states]. apply map_eq. intros k. rewrite !lookup_fmap.
  assert (E : rb_map targetID (rb_update (set_reachability s) (states this)) =
              set_reachability s <$> rb_map targetID (states this)).
  { apply rb_map_ext; [done| |].
    - intros e. rewrite inorder_update, list_elem_of_fmap, lookup_fmap_Some. split.
      + intros (x & -> & Hx). exists x. split; [done|]. rewrite set_reachability_key.
        by apply rb_map_lookup.
      + intros (x & <- & Hx). apply rb_map_lookup in Hx as [Hx _]; [|done]. by exists x.
    - intros k' e. rewrite lookup_fmap_Some. intros (x & <- & Hx).
      apply rb_map_lookup in Hx as [_ <-]; [|done]. apply set_reachability_key. }
  rewrite E, lookup_fmap. destruct (rb_map targetID (states this) !! k); simpl; [|done].
  by rewrite set_reachability_state.
Qed.
End TargetStateStore.

(** ** Properties *)

(** The state store is a map from target to state.  For any kernel tree that
    keeps its promises: syncing replaces all states by the received list (the
    last entry of a target wins); [getState] returns the state of a known target,
    and for an unknown one false with the state "offline, good";
    [setAllStates] sets the reachability of every target, keeps the consistency
    states and tells whether any reachability changed. *)
Theorem state_store_refines (K : KernelRBTree TargetStateInfo targetID) (this : TargetStateStore)
    (M : gmap Z CombinedTargetState) (l : list TargetStateMapping) (id s : Z) :
  store_rep this M ->
  store_rep TargetStateStore_init ∅ /\
  store_rep (__TargetStateStore_syncStatesUnlocked this l) (map_of_states l ∅) /\
  TargetStateStore_getState this id =
    match M !! id with
    | Some c => (true, c)
    | None => (false, mkCTS TargetReachabilityState_OFFLINE TargetConsistencyState_GOOD)
    end /\
  store_rep (TargetStateStore_setAllStates this s).2 ((fun c => mkCTS s (consistencyState c)) <$> M) /\
  ((TargetStateStore_setAllStates this s).1 = true <->
     exists t c, M !! t = Some c /\ reachabilityState c <> s).
Proof.
  intros HR. pose proof HR as [Hs HM]. split_and!.
  - apply store_empty.
  - apply sync_states_rep, store_empty.
  - unfold TargetStateStore_getState. rewrite rb_find_map, <- HM, lookup_fmap by done.
    by destruct (rb_map targetID (states this) !! id).
  - by apply update_rep.
  - cbn [TargetStateStore_setAllStates fst]. rewrite existsb_exists.
    destruct (rb_iter_map targetID _ Hs) as [_ Hel]. split.
    + intros (i & Hi & Hne). apply list_elem_of_In, Hel in Hi.
      exists (targetID i), (state i). rewrite <- HM, lookup_fmap, Hi. split; [done|].
      by apply negb_true_iff, Z.eqb_neq in Hne.
    + intros (t & c & Hc & Hne). rewrite <- HM, lookup_fmap, fmap_Some in Hc.
      destruct Hc as (i & Hi & ->). pose proof Hi as [_ <-]%rb_map_lookup; [|done].
      exists i. split; [by apply list_elem_of_In, Hel|]. by apply negb_true_iff, Z.eqb_neq.
Qed.

Lemma state_store_refines_witness :
  let K := chain_kernel TargetStateInfo targetID in
  store_rep (__TargetStateStore_syncStatesUnlocked TargetStateStore_init
               [mkTSM 1 0 0; mkTSM 2 2 1]) {[1 := mkCTS 0 0; 2 := mkCTS 2 1]}.
Proof.
  exact (proj1 (proj2 (state_store_refines (chain_kernel TargetStateInfo targetID)
    TargetStateStore_init ∅ [mkTSM 1 0 0; mkTSM 2 2 1] 0 0 store_empty))).
Defined.
