(* ===== verification/MirrorBuddyGroup.v ===== *)
(** * Mirror buddy groups: sequence numbers for mirrored operations

    Models [common/nodes/MirrorBuddyGroup.h] and [MirrorBuddyGroup.c].  Every
    mirrored operation acquires a sequence number; the numbers in flight are kept
    in an array used as a binary heap whose entries point back to the caller's
    handle variable, the finished ones in a ring buffer from which later
    operations acknowledge.  The caller's handle variables are a memory of their
    own ([handles]): the handle at address [h] holds the array index it points to.
    Array indices and counts are below 2^17 ([doneBufferSize] is a uint16_t), so
    they are naturals here; sequence numbers are 64-bit words. *)

From S2P Require Import Prelude.

Record BuddySequenceNumber := mkBSN { pSelf : Z; value : Z }.

Record MirrorBuddyGroup := mkMBG {
  groupID : Z; firstTargetID : Z; secondTargetID : Z;
  sequence : Z;
  slotsAvail : nat;                                (* the semaphore's count *)
  seqNoInFlight : list (option BuddySequenceNumber);  (* None: never written *)
  inFlightSize : nat; inFlightCapacity : nat;
  finishedSeqNums : list (option Z);
  firstFinishedIndex : nat; finishedCount : nat;
  refs : Z }.

Definition ENOENT : Z := 2.
Definition EINTR : Z := 4.
Definition EAGAIN : Z := 11.

(** Allocation can fail for the struct ([ok1]), the heap or the ring buffer. *)
Definition MirrorBuddyGroup_constructFromTargetIDs (ok1 ok2 ok3 : bool)
    (groupID doneBufferSize firstTargetID secondTargetID : Z) : option MirrorBuddyGroup :=
  if negb ok1 then None
  else if doneBufferSize =? 0 then None
  else if negb ok2 then None
  else if negb ok3 then None
  else
    let n := Z.to_nat doneBufferSize in
    Some (mkMBG groupID firstTargetID secondTargetID 0 n (replicate n None) 0 n
            (replicate n None) 0 0 1).

(** [None]: the last reference is gone and the group is freed. *)
Definition MirrorBuddyGroup_put (this : MirrorBuddyGroup) : option MirrorBuddyGroup :=
  let r := refs this - 1 in
  if r =? 0 then None
  else Some (mkMBG (groupID this) (firstTargetID this) (secondTargetID this) (sequence this)
    (slotsAvail this) (seqNoInFlight this) (inFlightSize this) (inFlightCapacity this)
    (finishedSeqNums this) (firstFinishedIndex this) (finishedCount this) r).

Definition kref_get (this : MirrorBuddyGroup) : MirrorBuddyGroup :=
  mkMBG (groupID this) (firstTargetID this) (secondTargetID this) (sequence this)
    (slotsAvail this) (seqNoInFlight this) (inFlightSize this) (inFlightCapacity this)
    (finishedSeqNums this) (firstFinishedIndex this) (finishedCount this) (refs this + 1).

Definition set_slots (n : nat) (this : MirrorBuddyGroup) : MirrorBuddyGroup :=
  mkMBG (groupID this) (firstTargetID this) (secondTargetID this) (sequence this)
    n (seqNoInFlight this) (inFlightSize this) (inFlightCapacity this)
    (finishedSeqNums this) (firstFinishedIndex this) (finishedCount this) (refs this).

Definition set_sequence (v : Z) (this : MirrorBuddyGroup) : MirrorBuddyGroup :=
  mkMBG (groupID this) (firstTargetID this) (secondTargetID this) v
    (slotsAvail this) (seqNoInFlight this) (inFlightSize this) (inFlightCapacity this)
    (finishedSeqNums this) (firstFinishedIndex this) (finishedCount this) (refs this).

Definition set_heap (arr : list (option BuddySequenceNumber)) (n : nat) (this : MirrorBuddyGroup)
    : MirrorBuddyGroup :=
  mkMBG (groupID this) (firstTargetID this) (secondTargetID this) (sequence this)
    (slotsAvail this) arr n (inFlightCapacity this)
    (finishedSeqNums this) (firstFinishedIndex this) (finishedCount this) (refs this).

Definition set_finished (fin : list (option Z)) (first count : nat) (this : MirrorBuddyGroup)
    : MirrorBuddyGroup :=
  mkMBG (groupID this) (firstTargetID this) (secondTargetID this) (sequence this)
    (slotsAvail this) (seqNoInFlight this) (inFlightSize this) (inFlightCapacity this)
    fin first count (refs this).

Definition MirrorBuddyGroup_setSeqNoBase (this : MirrorBuddyGroup) (seqNoBase : Z)
    : MirrorBuddyGroup :=
  if sequence this <? seqNoBase then set_sequence seqNoBase this else this.

(** ** Array and handle accesses *)

Definition entry (arr : list (option BuddySequenceNumber)) (i : nat) : outcome BuddySequenceNumber :=
  match arr !! i with Some (Some e) => Done e | _ => Fault end.

Definition swap (arr : list (option BuddySequenceNumber)) (i j : nat)
    : outcome (list (option BuddySequenceNumber)) :=
  x ← of_option (arr !! i); y ← of_option (arr !! j); Done (<[j := x]> (<[i := y]> arr)).

(** [*this->seqNoInFlight[i].pSelf = &this->seqNoInFlight[i]]: the handle variable
    must still exist. *)
Definition fix_handle (arr : list (option BuddySequenceNumber)) (i : nat) (handles : gmap Z nat)
    : outcome (gmap Z nat) :=
  e ← entry arr i;
  match handles !! pSelf e with Some _ => Done (<[pSelf e := i]> handles) | None => Fault end.

(** The result of an acquire call: the error code, and for success what was stored
    through the out parameters. *)
Record Acquired := mkAcq { aSeqNo : Z; aAcknowledgeSeq : Z; aIsSelective : bool }.

(** [signal] says whether a fatal signal interrupts the wait.  [None]: the call
    still waits for a slot.  [Some (r, Some a, ..)]: the out parameters were set; with
    ENOENT the sequence number is 0 and the handle becomes NULL. *)
Definition MirrorBuddyGroup_acquireSequenceNumber (this : MirrorBuddyGroup) (handles : gmap Z nat)
    (handle : Z) (allowWait signal : bool)
    : outcome (option (Z * option Acquired * MirrorBuddyGroup * gmap Z nat)) :=
  match slotsAvail this with
  | O =>
      if allowWait then if signal then Done (Some (EINTR, None, this, handles)) else Done None
      else Done (Some (EAGAIN, None, this, handles))
  | S slots =>
      let this := kref_get (set_slots slots this) in
      if sequence this =? 0 then
        this ← of_option (MirrorBuddyGroup_put (set_slots (S (slotsAvail this)) this));
        Done (Some (ENOENT, None, this, delete handle handles))
      else
        let seqNo := u64 (sequence this + 1) in
        let this := set_sequence seqNo this in
        if (inFlightSize this <? length (seqNoInFlight this))%nat then
          let arr := <[inFlightSize this := Some (mkBSN handle seqNo)]> (seqNoInFlight this) in
          let handles := <[handle := inFlightSize this]> handles in
          let this := set_heap arr (S (inFlightSize this)) this in
          if (0 <? finishedCount this)%nat then
            ack ← of_option (finishedSeqNums this !! firstFinishedIndex this);
            ack ← of_option ack;
            let this := set_finished (finishedSeqNums this)
              (S (firstFinishedIndex this) mod inFlightCapacity this) (finishedCount this - 1) this in
            Done (Some (0, Some (mkAcq seqNo ack true), this, handles))
          else
            e ← entry arr 0;
            Done (Some (0, Some (mkAcq seqNo (u64 (value e - 1)) false), this, handles))
        else Fault
  end.

(** The loop that moves the released entry to the root; [fuel] bounds the steps,
    and an index is at least halved by each. *)
Fixpoint sift_up (fuel : nat) (arr : list (option BuddySequenceNumber)) (handles : gmap Z nat)
    (index : nat) : outcome (list (option BuddySequenceNumber) * gmap Z nat) :=
  match index with
  | O => Done (arr, handles)
  | _ =>
      match fuel with
      | O => Fault
      | S fuel' =>
          let parentIndex := (index / 2)%nat in
          arr ← swap arr index parentIndex;
          handles ← fix_handle arr index handles;
          handles ← fix_handle arr parentIndex handles;
          sift_up fuel' arr handles parentIndex
      end
  end.

(** The index of the smaller child, or [i] itself if it is minimal. *)
Definition min_node (arr : list (option BuddySequenceNumber)) (size i : nat) : outcome nat :=
  let leftChild := (2 * i + 1)%nat in
  let rightChild := (2 * i + 2)%nat in
  minNode ←
    (if (leftChild <? size)%nat then
       l ← entry arr leftChild; m ← entry arr i;
       Done (if value l <? value m then leftChild else i)
     else Done i);
  if (rightChild <? size)%nat then
    r ← entry arr rightChild; m ← entry arr minNode;
    Done (if value r <? value m then rightChild else minNode)
  else Done minNode.

(** The loop that moves the new root down; each step increases [i]. *)
Fixpoint sift_down (fuel : nat) (arr : list (option BuddySequenceNumber)) (handles : gmap Z nat)
    (size i : nat) : outcome (list (option BuddySequenceNumber) * gmap Z nat) :=
  match fuel with
  | O => Fault
  | S fuel' =>
      minNode ← min_node arr size i;
      if (minNode =? i)%nat then Done (arr, handles)
      else
        arr ← swap arr i minNode;
        handles ← fix_handle arr i handles;
        handles ← fix_handle arr minNode handles;
        sift_down fuel' arr handles size minNode
  end.

(** Result: the group, [None] once the last reference was dropped. *)
Definition MirrorBuddyGroup_releaseSequenceNumber (this : MirrorBuddyGroup) (handles : gmap Z nat)
    (handle : Z) : outcome (option MirrorBuddyGroup * gmap Z nat) :=
  slot ← of_option (handles !! handle);
  let '(first, count, nextFinishedIndex) :=
    if (finishedCount this <? inFlightCapacity this)%nat then
      (firstFinishedIndex this, S (finishedCount this),
       (firstFinishedIndex this + S (finishedCount this) - 1) mod inFlightCapacity this)%nat
    else
      let f := (S (firstFinishedIndex this) mod inFlightCapacity this)%nat in
      (f, finishedCount this, f) in
  e ← entry (seqNoInFlight this) slot;
  if (nextFinishedIndex <? length (finishedSeqNums this))%nat then
    let this := set_finished (<[nextFinishedIndex := Some (value e)]> (finishedSeqNums this))
      first count this in
    '(arr, handles) ← sift_up slot (seqNoInFlight this) handles slot;
    let size := (inFlightSize this - 1)%nat in
    arr ← swap arr 0 size;
    handles ← fix_handle arr 0 handles;
    handles ← fix_handle arr size handles;
    '(arr, handles) ← sift_down (S size) arr handles size 0;
    let this := set_slots (S (slotsAvail this)) (set_heap arr size this) in
    Done (MirrorBuddyGroup_put this, handles)
  else Fault.

(** ** What the heap array and the ring buffer represent *)

(** [heap_rep arr n H I]: the first [n] cells hold exactly the sequence numbers in
    flight, [I] from handle to number, and every handle points to its cell. *)
Definition heap_rep (arr : list (option BuddySequenceNumber)) (n : nat) (H : gmap Z nat)
    (I : gmap Z Z) : Prop :=
  (n <= length arr)%nat /\ dom H = dom I /\
  (forall h i v, H !! h = Some i -> I !! h = Some v ->
     (i < n)%nat /\ arr !! i = Some (Some (mkBSN h v))) /\
  (forall i, (i < n)%nat -> exists h, H !! h = Some i).

(** [ring_rep fin cap first count Q]: the ring buffer holds the queue [Q]. *)
Definition ring_rep (fin : list (option Z)) (cap first count : nat) (Q : list Z) : Prop :=
  length fin = cap /\ (first < cap)%nat /\ (count <= cap)%nat /\ length Q = count /\
  forall k v, Q !! k = Some v -> fin !! ((first + k) mod cap)%nat = Some (Some v).

Lemma heap_rep_entry arr n H I i :
  heap_rep arr n H I -> (i < n)%nat ->
  exists h v, H !! h = Some i /\ I !! h = Some v /\ arr !! i = Some (Some (mkBSN h v)).
Proof.
  intros (Hl & Hd & Hf & Hs) Hi. destruct (Hs i Hi) as [h Hh].
  assert (is_Some (I !! h)) as [v Hv] by (apply elem_of_dom; rewrite <- Hd; by eapply elem_of_dom_2).
  exists h, v. split_and!; [done..|]. by eapply Hf.
Qed.

(** Exchanging two indices. *)
Definition tr (i j k : nat) : nat :=
  if decide (k = i) then j else if decide (k = j) then i else k.

Lemma tr_invol i j k : tr i j (tr i j k) = k.
Proof. unfold tr. repeat case_decide; congruence. Qed.

Lemma tr_lt i j k n : (i < n)%nat -> (j < n)%nat -> (k < n)%nat -> (tr i j k < n)%nat.
Proof. unfold tr. repeat case_decide; lia. Qed.

Lemma swap_fix arr n H I i j :
  heap_rep arr n H I -> (i < n)%nat -> (j < n)%nat ->
  exists arr' H1,
    swap arr i j = Done arr' /\ fix_handle arr' i H = Done H1 /\
    fix_handle arr' j H1 = Done (tr i j <$> H) /\
    heap_rep arr' n (tr i j <$> H) I /\ length arr' = length arr.
Proof.
  intros HR Hi Hj.
  destruct (heap_rep_entry _ _ _ _ i HR Hi) as (hi & vi & Hhi & Hvi & Ei).
  destruct (heap_rep_entry _ _ _ _ j HR Hj) as (hj & vj & Hhj & Hvj & Ej).
  destruct HR as (Hl & Hd & Hf & Hs).
  set (arr' := <[j := Some (mkBSN hi vi)]> (<[i := Some (mkBSN hj vj)]> arr)).
  assert (Harr : forall k, (k < n)%nat -> arr' !! k = arr !! tr i j k).
  { intros k Hk. unfold arr', tr. case_decide as E1; [subst k|]; [|case_decide as E2; [subst k|]].
    - destruct (decide (i = j)) as [->|Hne].
      + rewrite list_lookup_insert_eq by (rewrite length_insert; lia). congruence.
      + rewrite list_lookup_insert_ne, list_lookup_insert_eq by (done || lia). done.
    - rewrite list_lookup_insert_eq by (rewrite length_insert; lia). done.
    - by rewrite !list_lookup_insert_ne by done. }
  assert (Etr : <[hi := j]> (<[hj := i]> H) = tr i j <$> H).
  { apply map_eq. intros h. rewrite lookup_fmap. destruct (decide (h = hi)) as [->|Hne].
    - rewrite lookup_insert_eq, Hhi. simpl. unfold tr. by case_decide.
    - rewrite lookup_insert_ne by done. destruct (decide (h = hj)) as [->|Hne'].
      + rewrite lookup_insert_eq, Hhj. simpl. unfold tr. repeat case_decide; congruence.
      + rewrite lookup_insert_ne by done. destruct (H !! h) as [k|] eqn:Eh; [|done]. simpl.
        assert (is_Some (I !! h)) as [v Hv]
          by (apply elem_of_dom; rewrite <- Hd; by eapply elem_of_dom_2).
        destruct (Hf h k v Eh Hv) as [_ Ek]. unfold tr. repeat case_decide; congruence. }
  exists arr', (<[hj := i]> H). split_and!.
  - unfold swap. rewrite Ei, Ej. done.
  - unfold fix_handle, entry. rewrite Harr by done. unfold tr. rewrite decide_True by done.
    rewrite Ej. simpl. by rewrite Hhj.
  - unfold fix_handle, entry. rewrite Harr by done.
    replace (tr i j j) with i by (unfold tr; repeat case_decide; congruence).
    rewrite Ei. simpl. rewrite <- Etr.
    destruct (decide (hj = hi)) as [->|Hne];
      [by rewrite lookup_insert_eq|by rewrite lookup_insert_ne, Hhi].
  - split_and!.
    + unfold arr'. by rewrite !length_insert.
    + by rewrite dom_fmap_L.
    + intros h k v Hh Hv. rewrite lookup_fmap in Hh.
      destruct (H !! h) as [k0|] eqn:Eh; [|done]. simpl in Hh. injection Hh as <-.
      destruct (Hf h k0 v Eh Hv) as [Hk0 Ek0]. split; [by apply tr_lt|].
      rewrite Harr by (by apply tr_lt). by rewrite tr_invol.
    + intros k Hk. destruct (Hs (tr i j k)) as [h Hh]; [by apply tr_lt|].
      exists h. rewrite lookup_fmap, Hh. simpl. by rewrite tr_invol.
  - unfold arr'. by rewrite !length_insert.
Qed.

Lemma sift_up_spec fuel arr n H I h i :
  heap_rep arr n H I -> H !! h = Some i -> (i < n)%nat -> (i <= fuel)%nat ->
  exists arr' H', sift_up fuel arr H i = Done (arr', H') /\ heap_rep arr' n H' I /\
    length arr' = length arr /\ H' !! h = Some 0%nat.
Proof.
  revert arr H i. induction fuel as [|fuel IH]; intros arr H i HR Hh Hi Hf;
    (destruct i as [|i]; [by exists arr, H|]); [lia|].
  cbn [sift_up]. pose proof (Nat.div_lt (S i) 2 ltac:(lia) ltac:(lia)) as Hd.
  destruct (swap_fix arr n H I (S i) (S i / 2) HR Hi ltac:(lia))
    as (arr1 & H1 & -> & E1 & E2 & HR1 & Hl1).
  cbn [mbind outcome_bind]. rewrite E1. cbn [mbind outcome_bind]. rewrite E2.
  cbn [mbind outcome_bind].
  destruct (IH arr1 (tr (S i) (S i / 2) <$> H) (S i / 2)%nat) as (arr2 & H2 & E & HR2 & Hl2 & Hh2).
  - done.
  - rewrite lookup_fmap, Hh. unfold tr. simpl fmap. by rewrite decide_True.
  - lia.
  - lia.
  - exists arr2, H2. split_and!; [done|done|congruence|done].
Qed.

Lemma entry_rep arr n H I i :
  heap_rep arr n H I -> (i < n)%nat -> exists e, entry arr i = Done e.
Proof.
  intros HR Hi. destruct (heap_rep_entry _ _ _ _ i HR Hi) as (h & v & _ & _ & E).
  unfold entry. rewrite E. by eexists.
Qed.

Lemma min_node_spec arr n H I size i :
  heap_rep arr n H I -> (size <= n)%nat -> (i < size)%nat \/ size = 0%nat ->
  exists k, min_node arr size i = Done k /\ (k = i \/ (i < k)%nat /\ (k < size)%nat).
Proof.
  intros HR Hs Hi. unfold min_node.
  assert (HL : exists k, (if (2 * i + 1 <? size)%nat then
       l ← entry arr (2 * i + 1)%nat; m ← entry arr i;
       Done (if value l <? value m then (2 * i + 1)%nat else i) else Done i) = Done k /\
     (k = i \/ (i < k)%nat /\ (k < size)%nat)).
  { destruct (Nat.ltb_spec (2 * i + 1) size); [|by eexists; eauto].
    destruct (entry_rep arr n H I (2 * i + 1) HR) as [l ->]; [lia|].
    destruct (entry_rep arr n H I i HR) as [m ->]; [lia|]. cbn [mbind outcome_bind].
    eexists. split; [done|]. destruct (value l <? value m); lia. }
  destruct HL as (k & -> & Hk). cbn [mbind outcome_bind].
  destruct (Nat.ltb_spec (2 * i + 2) size); [|eauto].
  destruct (entry_rep arr n H I (2 * i + 2) HR) as [r ->]; [lia|].
  destruct (entry_rep arr n H I k HR) as [m ->]; [lia|]. cbn [mbind outcome_bind].
  eexists. split; [done|]. destruct (value r <? value m); lia.
Qed.

(** Moving the root down leaves the cell behind the heap alone. *)
Lemma sift_down_spec fuel arr n H I size i h :
  heap_rep arr n H I -> n = S size -> H !! h = Some size ->
  (i < size)%nat \/ size = 0%nat -> (size - i < fuel)%nat ->
  exists arr' H', sift_down fuel arr H size i = Done (arr', H') /\ heap_rep arr' n H' I /\
    length arr' = length arr /\ H' !! h = Some size.
Proof.
  revert arr H i. induction fuel as [|fuel IH]; intros arr H i HR Hn Hh Hi Hf; [lia|].
  cbn [sift_down]. destruct (min_node_spec arr n H I size i HR ltac:(lia) Hi) as (k & -> & Hk).
  cbn [mbind outcome_bind]. destruct (Nat.eqb_spec k i) as [->|Hne]; [by exists arr, H|].
  destruct Hk as [?|[Hik Hks]]; [done|].
  destruct (swap_fix arr n H I i k HR ltac:(lia) ltac:(lia)) as (arr1 & H1 & -> & E1 & E2 & HR1 & Hl1).
  cbn [mbind outcome_bind]. rewrite E1. cbn [mbind outcome_bind]. rewrite E2.
  cbn [mbind outcome_bind].
  destruct (IH arr1 (tr i k <$> H) k) as (arr2 & H2 & E & HR2 & Hl2 & Hh2); [done|done| |lia|lia|].
  - rewrite lookup_fmap, Hh. unfold tr. simpl fmap. rewrite !decide_False by lia. done.
  - exists arr2, H2. split_and!; [done|done|congruence|done].
Qed.

Lemma heap_rep_push arr n H I h v :
  heap_rep arr n H I -> (n < length arr)%nat -> H !! h = None ->
  heap_rep (<[n := Some (mkBSN h v)]> arr) (S n) (<[h := n]> H) (<[h := v]> I).
Proof.
  intros (Hl & Hd & Hf & Hs) Hn Hh. split_and!.
  - rewrite length_insert. lia.
  - by rewrite !dom_insert_L, Hd.
  - intros h' i w. rewrite !lookup_insert_Some.
    intros [[<- <-]|[Hne Hi]] [[? <-]|[? Hw]]; try done.
    + split; [lia|]. by apply list_lookup_insert_eq.
    + destruct (Hf h' i w Hi Hw) as [Hlt E]. split; [lia|]. rewrite list_lookup_insert_ne by lia. done.
  - intros i Hi. destruct (decide (i = n)) as [->|Hne]; [exists h; by rewrite lookup_insert_eq|].
    destruct (Hs i) as [h' Hh']; [lia|]. exists h'.
    rewrite lookup_insert_ne; [done|]. intros ->. congruence.
Qed.

(** Dropping the handle of the last cell. *)
Lemma heap_rep_pop arr n H I h :
  heap_rep arr (S n) H I -> H !! h = Some n -> heap_rep arr n (delete h H) (delete h I).
Proof.
  intros (Hl & Hd & Hf & Hs) Hh. split_and!.
  - lia.
  - by rewrite !dom_delete_L, Hd.
  - intros h' i w. rewrite !lookup_delete_Some. intros [Hne Hi] [_ Hw].
    destruct (Hf h' i w Hi Hw) as [Hlt E]. split; [|done].
    destruct (decide (i = n)) as [->|]; [|lia].
    assert (is_Some (I !! h)) as [v Hv]
      by (apply elem_of_dom; rewrite <- Hd; by eapply elem_of_dom_2).
    destruct (Hf h n v Hh Hv) as [_ E']. congruence.
  - intros i Hi. destruct (Hs i) as [h' Hh']; [lia|]. exists h'.
    rewrite lookup_delete_ne; [done|]. intros ->. rewrite Hh in Hh'. injection Hh'. lia.
Qed.

Lemma mod_wrap x cap :
  (x < 2 * cap)%nat -> (x mod cap = if decide (x < cap) then x else x - cap)%nat.
Proof.
  intros Hx. case_decide; [by apply Nat.mod_small|].
  rewrite <- (Nat.mod_small (x - cap) cap) by lia.
  replace x with (x - cap + 1 * cap)%nat at 1 by lia. apply Nat.Div0.mod_add.
Qed.

Lemma ring_push fin cap first count Q v :
  ring_rep fin cap first count Q -> (count < cap)%nat ->
  ring_rep (<[((first + S count - 1) mod cap)%nat := Some v]> fin) cap first (S count) (Q ++ [v]) /\
  ((first + S count - 1) mod cap < cap)%nat.
Proof.
  intros (Hl & Hf & Hc & HQ & Hk) Hlt. pose proof (Nat.mod_upper_bound (first + S count - 1) cap ltac:(lia)).
  split; [|done]. split_and!; [by rewrite length_insert|done|lia|rewrite length_app; simpl; lia|].
  replace (first + S count - 1)%nat with (first + count)%nat in * by lia.
  intros k w. destruct (decide (k < length Q)%nat) as [Hlk|Hge].
  - rewrite lookup_app_l by done. intros E. rewrite list_lookup_insert_ne; [by apply Hk|].
    intros Em. assert (k <> count) by lia.
    rewrite !mod_wrap in Em by lia. repeat case_decide; lia.
  - rewrite lookup_app_r by lia. intros E.
    assert (k = count) as -> by (apply lookup_lt_Some in E; simpl in E; lia).
    rewrite HQ, Nat.sub_diag in E. injection E as ->. apply list_lookup_insert_eq. lia.
Qed.

Lemma ring_pop fin cap first count v Q :
  ring_rep fin cap first (S count) (v :: Q) ->
  fin !! first = Some (Some v) /\ ring_rep fin cap (S first mod cap)%nat count Q.
Proof.
  intros (Hl & Hf & Hc & HQ & Hk). split.
  - pose proof (Hk 0%nat v eq_refl) as E. rewrite Nat.add_0_r, Nat.mod_small in E by done. done.
  - split_and!; [done|apply Nat.mod_upper_bound; lia|lia|simpl in HQ; lia|].
    intros k w E. pose proof (Hk (S k) w E) as E'.
    rewrite Nat.Div0.add_mod_idemp_l. by replace (S first + k)%nat with (first + S k)%nat by lia.
Qed.

(** ** Groups *)

(** [rep s H I Q r]: group [s] with handle variables [H] has the operations [I] in
    flight, the finished ones [Q] waiting to be acknowledged, and [r] references
    besides those of the operations in flight. *)
Definition rep (s : MirrorBuddyGroup) (H : gmap Z nat) (I : gmap Z Z) (Q : list Z) (r : Z) : Prop :=
  heap_rep (seqNoInFlight s) (inFlightSize s) H I /\
  ring_rep (finishedSeqNums s) (inFlightCapacity s) (firstFinishedIndex s) (finishedCount s) Q /\
  length (seqNoInFlight s) = inFlightCapacity s /\
  (slotsAvail s + inFlightSize s = inFlightCapacity s)%nat /\
  (finishedCount s + inFlightSize s <= inFlightCapacity s)%nat /\
  size I = inFlightSize s /\ refs s = r + Z.of_nat (inFlightSize s) /\ 0 < r /\
  (forall h v, I !! h = Some v -> 0 < v <= sequence s) /\ 0 <= sequence s.

Lemma construct_rep g n t1 t2 s :
  0 <= n -> MirrorBuddyGroup_constructFromTargetIDs true true true g n t1 t2 = Some s ->
  rep s ∅ ∅ [] 1 /\ inFlightCapacity s = Z.to_nat n /\ sequence s = 0.
Proof.
  unfold MirrorBuddyGroup_constructFromTargetIDs. intros Hn. simpl.
  destruct (Z.eqb_spec n 0); [done|]. intros [= <-]. split; [|done].
  unfold rep, heap_rep, ring_rep. simpl. rewrite !length_replicate.
  split_and!; try done; try lia; intros; try lia; set_solver.
Qed.

Lemma rep_handle s H I Q r h : rep s H I Q r -> H !! h = None <-> I !! h = None.
Proof.
  intros ((_ & Hd & _) & _). rewrite <- !not_elem_of_dom. by rewrite Hd.
Qed.

(** Acquiring with a free slot and a known base. *)
Lemma acquire_ok s H I Q r h w sig :
  rep s H I Q r -> I !! h = None -> (size I < inFlightCapacity s)%nat ->
  0 < sequence s < 2 ^ 64 - 1 ->
  exists ack s' H',
    MirrorBuddyGroup_acquireSequenceNumber s H h w sig =
      Done (Some (0, Some (mkAcq (sequence s + 1) ack (bool_decide (Q <> []))), s', H')) /\
    rep s' H' (<[h := sequence s + 1]> I) (tail Q) r /\
    sequence s' = sequence s + 1 /\ inFlightCapacity s' = inFlightCapacity s /\
    match Q with
    | q :: _ => ack = q
    | [] => exists h0 v0, <[h := sequence s + 1]> I !! h0 = Some v0 /\ ack = v0 - 1
    end.
Proof.
  intros HR Hh Hsz Hseq. pose proof (proj2 (rep_handle s H I Q r h HR) Hh) as HHh.
  destruct HR as (Hheap & Hring & Hlen & Hslots & Hcnt & HI & Hrefs & Hr & Hval & _).
  unfold MirrorBuddyGroup_acquireSequenceNumber.
  destruct (slotsAvail s) as [|slots] eqn:Es; [lia|].
  cbn [kref_get set_slots sequence set_sequence inFlightSize seqNoInFlight finishedCount
       set_heap finishedSeqNums firstFinishedIndex inFlightCapacity].
  rewrite (proj2 (Z.eqb_neq _ _)) by lia.
  assert (Eu : u64 (sequence s + 1) = sequence s + 1) by (apply wrap_id; unfold in_u; lia).
  rewrite Eu.
  rewrite (proj2 (Nat.ltb_lt _ _)) by lia.
  pose proof (heap_rep_push _ _ _ _ h (sequence s + 1) Hheap ltac:(lia) HHh) as Hpush.
  assert (HV : forall h' v, <[h := sequence s + 1]> I !! h' = Some v -> 0 < v <= sequence s + 1).
  { intros h' v. rewrite lookup_insert_Some. intros [[_ <-]|[_ E]]; [lia|].
    specialize (Hval h' v E). lia. }
  destruct Q as [|q Q].
  - pose proof Hring as (_ & _ & _ & HQ & _). simpl in HQ. rewrite <- HQ. cbn [Nat.ltb Nat.leb].
    destruct (heap_rep_entry _ _ _ _ 0%nat Hpush ltac:(lia)) as (h0 & v0 & _ & Hv0 & E0).
    unfold entry. rewrite E0. cbn [mbind outcome_bind value].
    eexists _, _, _. split; [rewrite bool_decide_eq_false_2 by (intros Hq; by apply Hq); done|].
    pose proof (HV h0 v0 Hv0). split_and!; [|done|done|].
    + unfold rep. cbn [set_heap set_sequence kref_get set_slots seqNoInFlight inFlightSize
        finishedSeqNums inFlightCapacity firstFinishedIndex finishedCount slotsAvail refs sequence tail].
      split_and!; [done|done|by rewrite length_insert|lia|lia| |lia|done|done|lia].
      rewrite map_size_insert_None by done. by rewrite HI.
    + exists h0, v0. split; [done|]. unfold u64. rewrite wrap_id by (unfold in_u; lia). done.
  - pose proof Hring as (_ & _ & _ & HQ & _). simpl in HQ.
    destruct (finishedCount s) as [|count] eqn:Ec; [done|].
    destruct (ring_pop _ _ _ _ _ _ Hring) as [E1 Hring'].
    cbn [Nat.ltb Nat.leb]. rewrite E1. cbn [of_option mbind outcome_bind].
    eexists _, _, _. split; [rewrite bool_decide_eq_true_2 by done; done|].
    split_and!; [|done|done|done].
    unfold rep. cbn [set_finished set_heap set_sequence kref_get set_slots seqNoInFlight inFlightSize
      finishedSeqNums inFlightCapacity firstFinishedIndex finishedCount slotsAvail refs sequence tail].
    rewrite Nat.sub_succ, Nat.sub_0_r.
    split_and!; [done|done|by rewrite length_insert|lia|lia| |lia|done|done|lia].
    rewrite map_size_insert_None by done. by rewrite HI.
Qed.

Lemma release_ok s H I Q r h v :
  rep s H I Q r -> I !! h = Some v ->
  exists s' H',
    MirrorBuddyGroup_releaseSequenceNumber s H h = Done (Some s', H') /\
    rep s' (delete h H') (delete h I) (Q ++ [v]) r /\
    sequence s' = sequence s /\ inFlightCapacity s' = inFlightCapacity s.
Proof.
  intros (Hheap & Hring & Hlen & Hslots & Hcnt & HI & Hrefs & Hr & Hval & Hs0) Hv.
  assert (is_Some (H !! h)) as [slot Hslot].
  { apply elem_of_dom. destruct Hheap as (_ & -> & _). by eapply elem_of_dom_2. }
  pose proof Hheap as (_ & _ & Hf & _). destruct (Hf h slot v Hslot Hv) as [Hlt Eslot].
  destruct (ring_push _ _ _ _ _ v Hring ltac:(lia)) as [Hring' Hidx].
  pose proof Hring as (Hfl & _).
  unfold MirrorBuddyGroup_releaseSequenceNumber. rewrite Hslot. cbn [of_option mbind outcome_bind].
  rewrite (proj2 (Nat.ltb_lt (finishedCount s) _)) by lia.
  unfold entry at 1. rewrite Eslot. cbn [mbind outcome_bind value].
  rewrite (proj2 (Nat.ltb_lt _ _)) by lia.
  cbn [set_finished seqNoInFlight inFlightSize slotsAvail].
  destruct (sift_up_spec slot _ _ H I h slot Hheap Hslot Hlt ltac:(lia))
    as (arr1 & H1 & -> & HR1 & Hl1 & Hh1). cbn [mbind outcome_bind].
  destruct (inFlightSize s) as [|n] eqn:En; [lia|]. rewrite Nat.sub_succ, Nat.sub_0_r.
  destruct (swap_fix arr1 (S n) H1 I 0 n HR1 ltac:(lia) ltac:(lia))
    as (arr2 & H2 & -> & E1 & E2 & HR2 & Hl2).
  cbn [mbind outcome_bind]. rewrite E1. cbn [mbind outcome_bind]. rewrite E2.
  cbn [mbind outcome_bind].
  destruct (sift_down_spec (S n) arr2 (S n) (tr 0 n <$> H1) I n 0 h HR2)
    as (arr3 & H3 & -> & HR3 & Hl3 & Hh3); [done| |lia|lia|].
  { by rewrite lookup_fmap, Hh1. }
  cbn [mbind outcome_bind]. unfold MirrorBuddyGroup_put.
  cbn [refs set_slots set_heap set_finished]. rewrite (proj2 (Z.eqb_neq _ _)) by lia.
  eexists _, _. split; [done|]. split_and!; [|done|done].
  unfold rep. cbn [set_finished set_heap set_slots seqNoInFlight inFlightSize finishedSeqNums
    inFlightCapacity firstFinishedIndex finishedCount slotsAvail refs sequence groupID
    firstTargetID secondTargetID].
  split_and!; [by apply heap_rep_pop|done|congruence|lia|lia| |lia|done| |done].
  - rewrite map_size_delete_Some by done. lia.
  - intros h' v'. rewrite lookup_delete_Some. intros [_ E]. by apply Hval in E.
Qed.

(** ** Properties *)

(** C31: acquiring a sequence number.  Let a group have the operations [I] in flight
    and the finished numbers [Q] waiting.  With all slots taken the call returns
    EAGAIN, or waits, or returns EINTR, and changes nothing; without a base it
    returns ENOENT and only clears the handle; otherwise the operation gets the next
    number, larger than every number in flight, one slot and one reference are
    taken, and what it acknowledges is the oldest finished number (selectively)
    if there is one, else the predecessor of a number in flight.  No branch
    touches memory outside of the arrays or a dead handle. *)
Theorem acquire_spec (s : MirrorBuddyGroup) (H : gmap Z nat) (I : gmap Z Z) (Q : list Z) (r h : Z)
    (w sig : bool) :
  rep s H I Q r -> I !! h = None -> sequence s < 2 ^ 64 - 1 ->
  let result := MirrorBuddyGroup_acquireSequenceNumber s H h w sig in
  (size I = inFlightCapacity s ->
   result = Done (if w then if sig then Some (EINTR, None, s, H) else None
                  else Some (EAGAIN, None, s, H))) /\
  ((size I < inFlightCapacity s)%nat -> sequence s = 0 ->
   result = Done (Some (ENOENT, None, s, delete h H))) /\
  ((size I < inFlightCapacity s)%nat -> 0 < sequence s ->
   exists ack s' H',
     result = Done (Some (0, Some (mkAcq (sequence s + 1) ack (bool_decide (Q <> []))), s', H')) /\
     rep s' H' (<[h := sequence s + 1]> I) (tail Q) r /\
     (forall h' v, I !! h' = Some v -> v < sequence s + 1) /\
     match Q with
     | q :: _ => ack = q
     | [] => exists h0 v0, <[h := sequence s + 1]> I !! h0 = Some v0 /\ ack = v0 - 1
     end).
Proof.
  intros HR Hh Hseq result. subst result.
  pose proof HR as (_ & _ & _ & Hslots & _ & HI & Hrefs & Hr & Hval & Hs0). split_and!.
  - intros Hsz. unfold MirrorBuddyGroup_acquireSequenceNumber.
    replace (slotsAvail s) with 0%nat by lia. by destruct w, sig.
  - intros Hsz Hz. unfold MirrorBuddyGroup_acquireSequenceNumber.
    destruct (slotsAvail s) as [|slots] eqn:Es; [lia|].
    cbn [kref_get set_slots sequence slotsAvail]. rewrite Hz.
    change (0 =? 0) with true. cbv iota.
    unfold MirrorBuddyGroup_put. cbn [refs set_slots kref_get].
    rewrite (proj2 (Z.eqb_neq (refs s + 1 - 1) 0)) by lia.
    replace (refs s + 1 - 1) with (refs s) by lia.
    cbn [of_option mbind outcome_bind]. destruct s. simpl in *. by subst.
  - intros Hsz Hp. destruct (acquire_ok s H I Q r h w sig HR Hh Hsz ltac:(lia))
      as (ack & s' & H' & E & HR' & _ & _ & HQ).
    exists ack, s', H'. split_and!; [done|done| |done].
    intros h' v Hv. apply Hval in Hv. lia.
Qed.

Definition group_ex (base : Z) : MirrorBuddyGroup :=
  mkMBG 1 10 20 base 2 [None; None] 0 2 [None; None] 0 0 1.

Lemma group_ex_rep base : 0 <= base -> rep (group_ex base) ∅ ∅ [] 1.
Proof.
  intros Hb. unfold rep, heap_rep, ring_rep. simpl.
  split_and!; try done; try lia; intros; try lia; set_solver.
Qed.

Lemma acquire_spec_witness : exists ack s' H',
  MirrorBuddyGroup_acquireSequenceNumber (group_ex 41) ∅ 7 false false =
    Done (Some (0, Some (mkAcq 42 ack false), s', H')) /\ rep s' H' {[7 := 42]} [] 1.
Proof.
  destruct (proj2 (proj2 (acquire_spec (group_ex 41) ∅ ∅ [] 1 7 false false
    (group_ex_rep 41 ltac:(lia)) eq_refl ltac:(by vm_compute)))
    ltac:(vm_compute; lia) ltac:(by vm_compute)) as (ack & s' & H' & E & HR & _).
  exists ack, s', H'. split; [exact E|exact HR].
Defined.

(** C32: releasing a sequence number.  Releasing a handle that is in flight always
    succeeds and drops the reference; exactly its number leaves the set in
    flight and is queued, behind the numbers finished earlier, for
    acknowledgement.  The overwriting branch of the ring buffer is never taken,
    all other handles still point to their entries, and both loops end. *)
Theorem release_spec (s : MirrorBuddyGroup) (H : gmap Z nat) (I : gmap Z Z) (Q : list Z) (r h v : Z) :
  rep s H I Q r -> I !! h = Some v ->
  exists s' H',
    MirrorBuddyGroup_releaseSequenceNumber s H h = Done (Some s', H') /\
    rep s' (delete h H') (delete h I) (Q ++ [v]) r /\
    sequence s' = sequence s /\ inFlightCapacity s' = inFlightCapacity s /\
    (finishedCount s < inFlightCapacity s)%nat.
Proof.
  intros HR Hv. destruct (release_ok s H I Q r h v HR Hv) as (s' & H' & E & HR' & E1 & E2).
  exists s', H'. split_and!; [done..|].
  destruct HR as (_ & _ & _ & _ & Hcnt & HI & _).
  assert (size I <> 0%nat) by (apply map_size_ne_0_lookup; eauto). lia.
Qed.

Definition group_ex1 : MirrorBuddyGroup :=
  mkMBG 1 10 20 42 1 [Some (mkBSN 7 42); None] 1 2 [None; None] 0 0 2.

Lemma group_ex1_rep : rep group_ex1 {[7 := 0%nat]} {[7 := 42]} [] 1.
Proof.
  unfold rep, heap_rep, ring_rep. simpl. split_and!; try done; try lia.
  - intros h i v [<- <-]%lookup_singleton_Some [_ <-]%lookup_singleton_Some. split; [lia|done].
  - intros i Hi. exists 7. replace i with 0%nat by lia. done.
  - intros h v [<- <-]%lookup_singleton_Some. lia.
Qed.

Lemma release_spec_witness : exists s' H',
  MirrorBuddyGroup_releaseSequenceNumber group_ex1 {[7 := 0%nat]} 7 = Done (Some s', H').
Proof.
  destruct (release_spec group_ex1 {[7 := 0%nat]} {[7 := 42]} [] 1 7 42 group_ex1_rep eq_refl)
    as (s' & H' & E & _).
  exists s', H'. exact E.
Defined.

(** ** The parent index *)

(** Operations of clients on one group: acquire without waiting, or release and
    drop the handle variable. *)
Inductive SeqOp : Type := Acq (h : Z) | Rel (h : Z).

(** The out parameters of every successful acquire, and the final state. *)
Fixpoint run_seq (ops : list SeqOp) (s : MirrorBuddyGroup) (H : gmap Z nat)
    : outcome (list Acquired * MirrorBuddyGroup * gmap Z nat) :=
  match ops with
  | [] => Done ([], s, H)
  | Acq h :: ops' =>
      r ← MirrorBuddyGroup_acquireSequenceNumber s H h false false;
      '(_, a, s', H') ← of_option r;
      '(l, s'', H'') ← run_seq ops' s' H';
      Done (match a with Some x => x :: l | None => l end, s'', H'')
  | Rel h :: ops' =>
      '(o, H') ← MirrorBuddyGroup_releaseSequenceNumber s H h;
      s' ← of_option o;
      run_seq ops' s' (delete h H')
  end.

(** The sequence numbers in flight. *)
Definition in_flight (s : MirrorBuddyGroup) : list Z :=
  omap (fun c => value <$> c) (take (inFlightSize s) (seqNoInFlight s)).

Definition ack_trace : list SeqOp :=
  [Acq 2; Acq 3; Acq 4; Acq 5; Acq 6; Acq 7; Acq 8; Rel 2; Acq 9; Rel 7; Acq 10; Rel 3; Acq 11; Acq 12].

(** The heap order is lost, and numbers in flight are acknowledged.
    [releaseSequenceNumber] moves an entry towards the root with the parent index
    [index / 2], while the children of [i] are [2 * i + 1] and [2 * i + 2], so the
    parent is [(index - 1) / 2].  With 8 slots (the default) and base 1, this
    sequence of calls ends with the non-selective acknowledgement of 4, that is
    of everything up to 4, while operation 4 is still in flight. *)
Theorem nonselective_ack_wrong :
  exists g l s H,
    MirrorBuddyGroup_constructFromTargetIDs true true true 1 8 10 20 = Some g /\
    run_seq ack_trace (MirrorBuddyGroup_setSeqNoBase g 1) ∅ = Done (l, s, H) /\
    last l = Some (mkAcq 12 4 false) /\ 4 ∈ in_flight s /\ in_flight s = [5; 6; 4; 8; 9; 10; 11; 12].
Proof.
  eexists _, _, _, _. split; [vm_compute; reflexivity|]. split; [vm_compute; reflexivity|].
  split; [vm_compute; reflexivity|]. split; [|vm_compute; reflexivity].
  apply (list_elem_of_lookup_2 _ 2). vm_compute. reflexivity.
Qed.
