(* ===== verification/MirrorBuddyGroupMapper.v ===== *)
(** * MirrorBuddyGroupMapper: the buddy groups the client knows

    Models [common/nodes/MirrorBuddyGroupMapper.h] and [MirrorBuddyGroupMapper.c],
    and [TargetStateStore_syncStatesAndGroupsFromLists] of [TargetStateStore.c].
    Groups are reference-counted objects shared between the mapper and the
    operations in flight, so they live in a heap; a tree node is the group's id
    (its sort key, never changed) and its address.  The heap keeps, next to a
    group, the callers' handle variables that point into it. *)

From stdpp Require Import sorting.
From S2P Require Import Prelude Serialization SerializationLists RBTree.
From S2P Require Import TargetMapper TargetStateStore MirrorBuddyGroup.

Record GroupNode := mkGN { gnGroupID : Z; gnPtr : Z }.

Abbreviation group_heap := (gmap Z (MirrorBuddyGroup * gmap Z nat)) (only parsing).

Record MapperState := mkMS { mirrorBuddyGroups : rbtree GroupNode; heap : group_heap }.

Definition load (h : group_heap) (p : Z) : outcome (MirrorBuddyGroup * gmap Z nat) :=
  of_option (h !! p).

(** [MirrorBuddyGroup_put] on the object at [p]. *)
Definition put_group (h : group_heap) (p : Z) : outcome group_heap :=
  '(g, H) ← load h p;
  match MirrorBuddyGroup_put g with
  | Some g' => Done (<[p := (g', H)]> h)
  | None => Done (delete p h)
  end.

Fixpoint put_groups (h : group_heap) (nodes : list GroupNode) : outcome group_heap :=
  match nodes with
  | [] => Done h
  | n :: rest => h' ← put_group h (gnPtr n); put_groups h' rest
  end.

Definition set_targets (first second : Z) (g : MirrorBuddyGroup) : MirrorBuddyGroup :=
  mkMBG (groupID g) first second (sequence g) (slotsAvail g) (seqNoInFlight g) (inFlightSize g)
    (inFlightCapacity g) (finishedSeqNums g) (firstFinishedIndex g) (finishedCount g) (refs g).

Section Mapper.
Context `{K : KernelRBTree GroupNode gnGroupID}.

Definition MirrorBuddyGroupMapper_init (h : group_heap) : MapperState := mkMS Leaf h.

Definition _MirrorBuddyGroupMapper_clear (this : MapperState) : outcome MapperState :=
  h ← put_groups (heap this) (rb_postorder (mirrorBuddyGroups this));
  Done (mkMS Leaf h).

Definition MirrorBuddyGroupMapper_uninit (this : MapperState) : outcome MapperState :=
  _MirrorBuddyGroupMapper_clear this.

Definition MirrorBuddyGroupMapper_getPrimaryTargetID (this : MapperState) (id : Z) : outcome Z :=
  match rb_find gnGroupID (mirrorBuddyGroups this) id with
  | Some n => '(g, _) ← load (heap this) (gnPtr n); Done (firstTargetID g)
  | None => Done 0
  end.

Definition MirrorBuddyGroupMapper_getSecondaryTargetID (this : MapperState) (id : Z) : outcome Z :=
  match rb_find gnGroupID (mirrorBuddyGroups this) id with
  | Some n => '(g, _) ← load (heap this) (gnPtr n); Done (secondTargetID g)
  | None => Done 0
  end.

(** The result of the first, non-waiting part of [acquireSequenceNumber]: an
    error code and the out parameters, or the group to wait for, with a
    reference taken. *)
Inductive AcquireResult :=
| AcqReturned (code : Z) (out : option Acquired) (group : option Z)
| AcqMustWait (group : Z).

Definition acquire_nowait (this : MapperState) (id handle : Z)
    : outcome (AcquireResult * MapperState) :=
  match rb_find gnGroupID (mirrorBuddyGroups this) id with
  | None => Done (AcqReturned ENOENT None None, this)
  | Some n =>
      '(g, H) ← load (heap this) (gnPtr n);
      r ← MirrorBuddyGroup_acquireSequenceNumber g H handle false false;
      '(result, out, g', H') ← of_option r;
      let this' := mkMS (mirrorBuddyGroups this) (<[gnPtr n := (g', H')]> (heap this)) in
      if (result =? 0) || (result =? ENOENT) then Done (AcqReturned 0 out (Some (gnPtr n)), this')
      else Done (AcqMustWait (gnPtr n),
             mkMS (mirrorBuddyGroups this) (<[gnPtr n := (kref_get g', H')]> (heap this)))
  end.

(** The second part runs without the mapper's lock; [None]: it still waits. *)
Definition acquire_wait (this : MapperState) (p handle : Z) (signal : bool)
    : outcome (option (Z * option Acquired * MapperState)) :=
  '(g, H) ← load (heap this) p;
  r ← MirrorBuddyGroup_acquireSequenceNumber g H handle true signal;
  match r with
  | None => Done None
  | Some (result, out, g', H') =>
      h ← put_group (<[p := (g', H')]> (heap this)) p;
      Done (Some (if result =? ENOENT then 0 else result, out, mkMS (mirrorBuddyGroups this) h))
  end.

(** [connMaxInternodeNum] is the configured number of connections; [alloc i] says
    whether the two allocations of the [i]-th constructed group succeed. *)
Definition construct_group (connMaxInternodeNum : Z) (alloc : bool * bool) (m : BuddyGroupMapping)
    : option MirrorBuddyGroup :=
  MirrorBuddyGroup_constructFromTargetIDs true alloc.1 alloc.2 (SerializationLists.groupID m)
    (u16 connMaxInternodeNum) (primaryTargetID m) (secondaryTargetID m).

(** The first loop of [syncGroupsUnlocked]; a NULL group is dereferenced. *)
Fixpoint sync_groups_loop (connMaxInternodeNum : Z) (alloc : nat -> bool * bool) (i : nat)
    (t : rbtree GroupNode) (h : group_heap) (newGroups : list GroupNode) (l : list BuddyGroupMapping)
    : outcome (rbtree GroupNode * group_heap * list GroupNode) :=
  match l with
  | [] => Done (t, h, newGroups)
  | m :: rest =>
      match rb_find gnGroupID t (SerializationLists.groupID m) with
      | Some n =>
          '(g, H) ← load h (gnPtr n);
          let h' := <[gnPtr n := (set_targets (primaryTargetID m) (secondaryTargetID m) g, H)]> h in
          sync_groups_loop connMaxInternodeNum alloc i (rb_erase_elem gnGroupID t n) h'
            (newGroups ++ [n]) rest
      | None =>
          g ← of_option (construct_group connMaxInternodeNum (alloc i) m);
          let p := fresh (dom h) in
          sync_groups_loop connMaxInternodeNum alloc (S i) t (<[p := (g, ∅)]> h)
            (newGroups ++ [mkGN (SerializationLists.groupID m) p]) rest
      end
  end.

(** The second loop: insert the collected groups into the emptied tree. *)
Fixpoint insert_new_groups (t : rbtree GroupNode) (h : group_heap) (newGroups : list GroupNode)
    : outcome (rbtree GroupNode * group_heap) :=
  match newGroups with
  | [] => Done (t, h)
  | pos :: rest =>
      let '(replaced, t') := rb_insertOrReplace gnGroupID t pos in
      h' ← match replaced with Some n => put_group h (gnPtr n) | None => Done h end;
      insert_new_groups t' h' rest
  end.

Definition __MirrorBuddyGroupMapper_syncGroupsUnlocked (connMaxInternodeNum : Z)
    (alloc : nat -> bool * bool) (this : MapperState) (groups : list BuddyGroupMapping)
    : outcome MapperState :=
  '(t, h, newGroups) ←
     sync_groups_loop connMaxInternodeNum alloc 0 (mirrorBuddyGroups this) (heap this) [] groups;
  cleared ← _MirrorBuddyGroupMapper_clear (mkMS t h);
  '(t', h') ← insert_new_groups (mirrorBuddyGroups cleared) (heap cleared) newGroups;
  Done (mkMS t' h').

Definition MirrorBuddyGroupMapper_syncGroups := __MirrorBuddyGroupMapper_syncGroupsUnlocked.

(** The first group, in key order, that contains the target; 0 if none. *)
Fixpoint find_group_of (h : group_heap) (nodes : list GroupNode) (targetID : Z) : outcome Z :=
  match nodes with
  | [] => Done 0
  | n :: rest =>
      '(g, _) ← load h (gnPtr n);
      if (firstTargetID g =? targetID) || (secondTargetID g =? targetID) then Done (groupID g)
      else find_group_of h rest targetID
  end.

Definition __MirrorBuddyGroupMapper_getBuddyGroupIDUnlocked (this : MapperState) (targetID : Z)
    : outcome Z := find_group_of (heap this) (rb_iter (mirrorBuddyGroups this)) targetID.

(** [targetMapper] is [None] for NULL.  A group [_insert] refuses stays allocated. *)
Definition MirrorBuddyGroupMapper_addGroup (connMaxInternodeNum : Z) (alloc : bool * bool)
    (targetMapper : option TargetMapper) (this : MapperState)
    (buddyGroupID primaryTargetID secondaryTargetID : Z) (allowUpdate : bool)
    : outcome (Z * MapperState) :=
  if buddyGroupID =? 0 then Done (FhgfsOpsErr_INVAL, this)
  else if negb allowUpdate &&
          match rb_find gnGroupID (mirrorBuddyGroups this) buddyGroupID with
          | Some _ => true | None => false end
  then Done (FhgfsOpsErr_EXISTS, this)
  else if match targetMapper with
          | Some tm => (TargetMapper_getNodeID tm primaryTargetID =? 0) ||
                       (TargetMapper_getNodeID tm secondaryTargetID =? 0)
          | None => false end
  then Done (FhgfsOpsErr_UNKNOWNTARGET, this)
  else
    primaryInGroup ← __MirrorBuddyGroupMapper_getBuddyGroupIDUnlocked this primaryTargetID;
    secondaryInGroup ← __MirrorBuddyGroupMapper_getBuddyGroupIDUnlocked this secondaryTargetID;
    if (negb (primaryInGroup =? 0) && negb (primaryInGroup =? buddyGroupID)) ||
       (negb (secondaryInGroup =? 0) && negb (secondaryInGroup =? buddyGroupID))
    then Done (FhgfsOpsErr_INUSE, this)
    else
      match construct_group connMaxInternodeNum alloc
              (mkBGM buddyGroupID primaryTargetID secondaryTargetID) with
      | None => Done (FhgfsOpsErr_OUTOFMEM, this)
      | Some g =>
          let p := fresh (dom (heap this)) in
          let h := <[p := (g, ∅)]> (heap this) in
          let '(_, t) := rb_insert gnGroupID (mirrorBuddyGroups this) (mkGN buddyGroupID p) in
          Done (FhgfsOpsErr_SUCCESS, mkMS t h)
      end.
End Mapper.

(** Both stores change under both write locks, in one step. *)
Definition TargetStateStore_syncStatesAndGroupsFromLists
    `{KS : KernelRBTree TargetStateInfo targetID} `{KG : KernelRBTree GroupNode gnGroupID}
    (connMaxInternodeNum : Z) (alloc : nat -> bool * bool) (this : TargetStateStore)
    (buddyGroups : MapperState) (l : list TargetStateMapping) (groups : list BuddyGroupMapping)
    : outcome (TargetStateStore * MapperState) :=
  let this' := __TargetStateStore_syncStatesUnlocked this l in
  buddyGroups' ← __MirrorBuddyGroupMapper_syncGroupsUnlocked connMaxInternodeNum alloc buddyGroups groups;
  Done (this', buddyGroups').

(** ** Well-formed mappers *)

(** A tree node's object exists, has the node's id and the mapper's reference. *)
Definition node_ok (h : group_heap) (n : GroupNode) : Prop :=
  exists g H, h !! gnPtr n = Some (g, H) /\ groupID g = gnGroupID n /\ 0 < refs g.

(** Nodes with their objects, none shared. *)
Definition nodes_ok (h : group_heap) (l : list GroupNode) : Prop :=
  Forall (node_ok h) l /\ NoDup (gnPtr <$> l).

Definition mapper_wf (this : MapperState) : Prop :=
  rb_sorted gnGroupID (mirrorBuddyGroups this) /\ nodes_ok (heap this) (inorder (mirrorBuddyGroups this)).

(** The group object the mapper has for an id. *)
Definition group_at (this : MapperState) (id : Z) : option (MirrorBuddyGroup * gmap Z nat) :=
  rb_map gnGroupID (mirrorBuddyGroups this) !! id ≫= fun n => heap this !! gnPtr n.

Lemma listed_snoc {B} (id x : Z) (l : list Z) (a b : B) :
  id <> x -> (if decide (id ∈ l ++ [x]) then a else b) = (if decide (id ∈ l) then a else b).
Proof.
  intros Hne. repeat case_decide; try done; exfalso;
    rewrite elem_of_app, list_elem_of_singleton in *; tauto.
Qed.

Lemma node_ok_ne h n p x : node_ok h n -> gnPtr n <> p -> node_ok (<[p := x]> h) n.
Proof.
  intros (g & H & E & R) Hne. exists g, H. by rewrite lookup_insert_ne.
Qed.

Lemma nodes_ok_perm h l l' : l ≡ₚ l' -> nodes_ok h l -> nodes_ok h l'.
Proof. intros Hp [H1 H2]. unfold nodes_ok. by rewrite <- Hp. Qed.

(** What is left of an object when a reference is given back. *)
Definition after_put (x : MirrorBuddyGroup * gmap Z nat) : option (MirrorBuddyGroup * gmap Z nat) :=
  (fun g => (g, snd x)) <$> MirrorBuddyGroup_put (fst x).

Lemma put_group_spec h p g H :
  h !! p = Some (g, H) -> exists h', put_group h p = Done h' /\
    h' !! p = after_put (g, H) /\ forall q, q <> p -> h' !! q = h !! q.
Proof.
  intros E. unfold put_group, load, after_put. rewrite E. cbn [of_option mbind outcome_bind fst snd].
  destruct (MirrorBuddyGroup_put g); eexists; (split; [done|]).
  - split; [by rewrite lookup_insert_eq|]. intros. by rewrite lookup_insert_ne.
  - split; [by rewrite lookup_delete_eq|]. intros. by rewrite lookup_delete_ne.
Qed.

(** Dropping the mapper's references: one reference of each dropped group, and no
    other object is touched. *)
Lemma put_groups_frame l h :
  nodes_ok h l ->
  exists h', put_groups h l = Done h' /\ (forall q, q ∉ gnPtr <$> l -> h' !! q = h !! q) /\
    (forall n, n ∈ l -> h' !! gnPtr n = h !! gnPtr n ≫= after_put).
Proof.
  revert h. induction l as [|n l IH]; intros h [Hf Hd]; cbn [put_groups].
  { exists h. split_and!; [done|done|]. intros n Hn. by apply not_elem_of_nil in Hn. }
  apply Forall_cons in Hf as [(g & H & E & _) Hf]. cbn [fmap list_fmap] in Hd.
  apply NoDup_cons in Hd as [Hn Hd].
  destruct (put_group_spec h (gnPtr n) g H E) as (h1 & -> & Hp & Hh1). cbn [mbind outcome_bind].
  assert (Hne : forall m, m ∈ l -> gnPtr m <> gnPtr n)
    by (intros m Hm Heq; apply Hn; rewrite <- Heq; by apply list_elem_of_fmap_2).
  destruct (IH h1) as (h2 & -> & Hh2 & Hl2).
  - split; [|done]. rewrite Forall_forall in Hf. apply Forall_forall. intros m Hm.
    destruct (Hf m Hm) as (g' & H' & E' & R). exists g', H'. split; [|done]. rewrite Hh1; auto.
  - exists h2. split_and!; [done|intros q Hq; rewrite Hh2, Hh1; [done|set_solver..]|].
    intros m [->|Hm]%elem_of_cons; [by rewrite Hh2, Hp, E|]. by rewrite Hl2, Hh1 by auto.
Qed.

Section MapperProofs.
Context `{K : KernelRBTree GroupNode gnGroupID}.

(** What the loop of [syncGroups] leaves for a listed group. *)
Definition synced (cfg : Z) (st0 : MapperState) (m : BuddyGroupMapping)
    (x : MirrorBuddyGroup * gmap Z nat) : Prop :=
  match group_at st0 (SerializationLists.groupID m) with
  | Some (g, H) => x = (set_targets (primaryTargetID m) (secondaryTargetID m) g, H)
  | None => exists g, x = (g, ∅) /\ construct_group cfg (true, true) m = Some g
  end.

Lemma construct_some cfg m :
  u16 cfg <> 0 -> exists g, construct_group cfg (true, true) m = Some g /\
    groupID g = SerializationLists.groupID m /\ refs g = 1 /\
    firstTargetID g = primaryTargetID m /\ secondTargetID g = secondaryTargetID m.
Proof.
  intros Hc. unfold construct_group, MirrorBuddyGroup_constructFromTargetIDs. simpl.
  destruct (Z.eqb_spec (u16 cfg) 0); [done|]. by eexists.
Qed.

(** The loop invariant: the tree still has the original objects of the ids not
    yet listed, the collected nodes have the objects of the listed ones. *)
Record loop_inv (cfg : Z) (st0 : MapperState) (ms : list BuddyGroupMapping)
    (t : rbtree GroupNode) (h : group_heap) (new : list GroupNode) : Prop := {
  li_sorted : rb_sorted gnGroupID t;
  li_ok : nodes_ok h (inorder t ++ new);
  li_tree : forall id, rb_map gnGroupID t !! id =
    if decide (id ∈ SerializationLists.groupID <$> ms) then None
    else rb_map gnGroupID (mirrorBuddyGroups st0) !! id;
  li_heap : forall n, n ∈ inorder t -> h !! gnPtr n = heap st0 !! gnPtr n;
  li_new : Forall2 (fun m n => gnGroupID n = SerializationLists.groupID m /\
             exists x, h !! gnPtr n = Some x /\ synced cfg st0 m x) ms new }.

Lemma fresh_not_node h l n : nodes_ok h l -> n ∈ l -> gnPtr n <> fresh (dom h).
Proof.
  intros [Hf _] Hn. rewrite Forall_forall in Hf. destruct (Hf n Hn) as (g & H & E & _).
  intros Heq. apply (is_fresh (dom h)). rewrite <- Heq. by eapply elem_of_dom_2.
Qed.

Lemma Forall2_heap_ne cfg st0 ms new (h : group_heap) p x :
  Forall2 (fun m n => gnGroupID n = SerializationLists.groupID m /\
     exists x, h !! gnPtr n = Some x /\ synced cfg st0 m x) ms new ->
  p ∉ gnPtr <$> new ->
  Forall2 (fun m n => gnGroupID n = SerializationLists.groupID m /\
     exists y, <[p := x]> h !! gnPtr n = Some y /\ synced cfg st0 m y) ms new.
Proof.
  intros HF Hp. induction HF as [|m n ms new (H1 & y & H2 & H3) HF IH]; constructor.
  - split; [done|]. exists y. rewrite lookup_insert_ne; [done|]. set_solver.
  - apply IH. set_solver.
Qed.

(** One listed group that exists: its targets change, it moves over. *)
Lemma loop_step_found cfg st0 ms t h new m n :
  loop_inv cfg st0 ms t h new ->
  SerializationLists.groupID m ∉ SerializationLists.groupID <$> ms ->
  rb_map gnGroupID t !! SerializationLists.groupID m = Some n ->
  exists g H, h !! gnPtr n = Some (g, H) /\
    loop_inv cfg st0 (ms ++ [m]) (rb_erase_elem gnGroupID t n)
      (<[gnPtr n := (set_targets (primaryTargetID m) (secondaryTargetID m) g, H)]> h) (new ++ [n]).
Proof.
  intros [Hs [Hf Hd] Ht Hh Hn] Hid Hfind. pose proof Hfind as [Hin Hkey]%rb_map_lookup; [|done].
  assert (Hok : node_ok h n) by (rewrite Forall_forall in Hf; apply Hf; set_solver).
  destruct Hok as (g & H & E & Hg & Hr). exists g, H. split; [done|].
  destruct (rb_erase_map gnGroupID t n Hs) as [Hs' Hm'].
  assert (Hperm : inorder t ≡ₚ n :: inorder (rb_erase_elem gnGroupID t n)).
  { unfold rb_erase_elem. rewrite rb_erase_inorder. apply NoDup_Permutation.
    - apply (NoDup_fmap_1 gnPtr). rewrite fmap_app in Hd. by apply NoDup_app in Hd as [? _].
    - apply NoDup_cons. split; [rewrite list_elem_of_filter; by intros [? _]|].
      apply NoDup_filter, (NoDup_fmap_1 gnPtr). rewrite fmap_app in Hd. by apply NoDup_app in Hd as [? _].
    - intros x. rewrite elem_of_cons, list_elem_of_filter. split.
      + intros Hx. destruct (decide (gnGroupID x = gnGroupID n)) as [Heq|]; [left|by right].
        assert (rb_map gnGroupID t !! gnGroupID n = Some x) as E1 by (by apply rb_map_lookup).
        rewrite Hkey in E1. congruence.
      + intros [->|[_ ?]]; done. }
  assert (Hd' : NoDup (gnPtr <$> inorder (rb_erase_elem gnGroupID t n) ++ new ++ [n])).
  { assert (Hp : inorder t ++ new ≡ₚ inorder (rb_erase_elem gnGroupID t n) ++ new ++ [n])
      by (rewrite Hperm; simpl; by rewrite app_assoc, <- Permutation_cons_append).
    by rewrite <- Hp. }
  assert (Hnot : forall x, x ∈ inorder (rb_erase_elem gnGroupID t n) ++ new -> gnPtr x <> gnPtr n).
  { intros x Hx Heq. rewrite app_assoc, fmap_app in Hd'. apply NoDup_app in Hd' as (_ & Hdis & _).
    apply (Hdis (gnPtr x)); [by apply list_elem_of_fmap_2|]. rewrite Heq. simpl. set_solver. }
  split.
  - done.
  - split; [|done]. rewrite app_assoc. apply Forall_app. split.
    + rewrite Forall_forall in Hf. apply Forall_forall. intros x Hx.
      apply node_ok_ne; [|by apply Hnot].
      apply Hf. rewrite Hperm. set_solver.
    + constructor; [|constructor]. exists (set_targets (primaryTargetID m) (secondaryTargetID m) g), H.
      by rewrite lookup_insert_eq.
  - intros id. rewrite Hm', fmap_app, Hkey. simpl. destruct (decide (id = SerializationLists.groupID m)) as [->|Hne].
    + rewrite lookup_delete_eq, decide_True; [done|]. apply elem_of_app. right.
      by apply list_elem_of_singleton.
    + by rewrite lookup_delete_ne, listed_snoc, Ht by done.
  - intros x Hx. rewrite lookup_insert_ne by (intros Heq; apply (Hnot x); [set_solver|done]).
    apply Hh. rewrite Hperm. set_solver.
  - apply Forall2_app.
    + apply Forall2_heap_ne; [done|]. intros (x & Heq & Hx)%list_elem_of_fmap.
      apply (Hnot x); [set_solver|done].
    + constructor; [|constructor]. split; [done|]. eexists. rewrite lookup_insert_eq. split; [done|].
      unfold synced, group_at. specialize (Ht (SerializationLists.groupID m)).
      rewrite Hfind, decide_False in Ht by done. rewrite <- Ht. simpl.
      by rewrite <- (Hh n Hin), E.
Qed.

(** One listed group that is new. *)
Lemma loop_step_new cfg st0 ms t h new m g :
  loop_inv cfg st0 ms t h new ->
  SerializationLists.groupID m ∉ SerializationLists.groupID <$> ms ->
  rb_map gnGroupID t !! SerializationLists.groupID m = None ->
  construct_group cfg (true, true) m = Some g -> groupID g = SerializationLists.groupID m -> refs g = 1 ->
  loop_inv cfg st0 (ms ++ [m]) t (<[fresh (dom h) := (g, ∅)]> h)
    (new ++ [mkGN (SerializationLists.groupID m) (fresh (dom h))]).
Proof.
  intros [Hs Hok Ht Hh Hn] Hid Hfind Hg Hgid Hgr. pose proof Hok as [Hf Hd].
  assert (Hfr : forall x, x ∈ inorder t ++ new -> gnPtr x <> fresh (dom h))
    by (intros x; by apply fresh_not_node).
  split.
  - done.
  - split; rewrite app_assoc.
    + apply Forall_app. split.
      * rewrite Forall_forall in Hf. apply Forall_forall. intros x Hx.
        apply node_ok_ne; [by apply Hf|by apply Hfr].
      * constructor; [|constructor]. exists g, ∅. simpl. rewrite lookup_insert_eq. split_and!; [done|done|lia].
    + rewrite fmap_app. apply NoDup_app. split_and!; [done| |apply NoDup_singleton].
      intros p (x & -> & Hx)%list_elem_of_fmap. simpl. intros Heq%list_elem_of_singleton.
      by apply (Hfr x).
  - intros id. rewrite fmap_app. simpl fmap.
    destruct (decide (id = SerializationLists.groupID m)) as [->|Hne].
    + rewrite decide_True; [done|]. apply elem_of_app. right. by apply list_elem_of_singleton.
    + by rewrite listed_snoc, Ht.
  - intros x Hx. rewrite lookup_insert_ne; [by apply Hh|]. intros Heq. apply (Hfr x); [set_solver|done].
  - apply Forall2_app.
    + apply Forall2_heap_ne; [done|]. intros (x & Heq & Hx)%list_elem_of_fmap.
      apply (Hfr x); [set_solver|done].
    + constructor; [|constructor]. split; [done|]. eexists. simpl. rewrite lookup_insert_eq.
      split; [done|]. unfold synced, group_at. specialize (Ht (SerializationLists.groupID m)).
      rewrite Hfind, decide_False in Ht by done. rewrite <- Ht. simpl. eauto.
Qed.

Lemma sync_loop_inv cfg alloc i l st0 ms t h new :
  u16 cfg <> 0 -> (forall j, alloc j = (true, true)) ->
  loop_inv cfg st0 ms t h new -> NoDup (SerializationLists.groupID <$> (ms ++ l)) ->
  exists t' h' new', sync_groups_loop cfg alloc i t h new l = Done (t', h', new') /\
    loop_inv cfg st0 (ms ++ l) t' h' new'.
Proof.
  intros Hc Ha. revert i ms t h new. induction l as [|m l IH]; intros i ms t h new HI Hd;
    cbn [sync_groups_loop].
  - exists t, h, new. by rewrite app_nil_r.
  - assert (Hid : SerializationLists.groupID m ∉ SerializationLists.groupID <$> ms).
    { rewrite fmap_app in Hd. apply NoDup_app in Hd as (_ & Hd & _). intros Hin.
      apply (Hd _ Hin). simpl. set_solver. }
    pose proof (li_sorted _ _ _ _ _ _ HI) as Hs. rewrite rb_find_map by done.
    destruct (rb_map gnGroupID t !! SerializationLists.groupID m) as [n|] eqn:Ef.
    + destruct (loop_step_found _ _ _ _ _ _ _ _ HI Hid Ef) as (g & H & E & HI').
      unfold load. rewrite E. cbn [of_option mbind outcome_bind].
      destruct (IH i _ _ _ _ HI') as (t' & h' & new' & E' & HI2); [by rewrite <- app_assoc|].
      rewrite <- app_assoc in HI2. eauto 10.
    + destruct (construct_some cfg m Hc) as (g & Eg & Hg & Hr & _). rewrite Ha, Eg.
      cbn [of_option mbind outcome_bind].
      pose proof (loop_step_new _ _ _ _ _ _ _ _ HI Hid Ef Eg Hg Hr) as HI'.
      destruct (IH (S i) _ _ _ _ HI') as (t' & h' & new' & E' & HI2); [by rewrite <- app_assoc|].
      rewrite <- app_assoc in HI2. eauto 10.
Qed.

Lemma insert_new_spec new t h :
  rb_sorted gnGroupID t -> NoDup (gnGroupID <$> new) ->
  (forall n, n ∈ new -> rb_map gnGroupID t !! gnGroupID n = None) ->
  exists t', insert_new_groups t h new = Done (t', h) /\ rb_sorted gnGroupID t' /\
    rb_map gnGroupID t' = foldl (fun M n => <[gnGroupID n := n]> M) (rb_map gnGroupID t) new.
Proof.
  revert t. induction new as [|n new IH]; intros t Hs Hd Hno; cbn [insert_new_groups].
  - by exists t.
  - destruct (rb_insertOrReplace_map gnGroupID t n Hs) as (Hs' & Hr & Hm).
    destruct (rb_insertOrReplace gnGroupID t n) as [r t']. cbn [fst snd] in *.
    rewrite Hno in Hr by set_solver. subst r. cbn [mbind outcome_bind].
    cbn [fmap list_fmap] in Hd. apply NoDup_cons in Hd as [Hn Hd].
    destruct (IH t' Hs' Hd) as (t2 & -> & Hs2 & Hm2).
    + intros x Hx. rewrite Hm, lookup_insert_ne; [apply Hno; set_solver|].
      intros Heq. apply Hn. rewrite Heq. by apply list_elem_of_fmap_2.
    + exists t2. by rewrite Hm2, Hm.
Qed.


Lemma foldl_nodes new M :
  NoDup (gnGroupID <$> new) ->
  (forall n, n ∈ new -> foldl (fun M n => <[gnGroupID n := n]> M) M new !! gnGroupID n = Some n) /\
  (forall id, id ∉ gnGroupID <$> new ->
     foldl (fun M n => <[gnGroupID n := n]> M) M new !! id = (M : gmap Z GroupNode) !! id).
Proof.
  revert M. induction new as [|x new IH]; intros M Hd; [split; [set_solver|done]|].
  cbn [fmap list_fmap] in Hd. apply NoDup_cons in Hd as [Hx Hd]. cbn [foldl].
  destruct (IH (<[gnGroupID x := x]> M) Hd) as [H1 H2]. split.
  - intros n [->|Hn]%elem_of_cons; [|by apply H1]. by rewrite H2, lookup_insert_eq.
  - intros id Hid. cbn [fmap list_fmap] in Hid. apply not_elem_of_cons in Hid as [Hne Hid].
    by rewrite H2, lookup_insert_ne.
Qed.

Lemma group_at_wf st id :
  mapper_wf st ->
  match rb_map gnGroupID (mirrorBuddyGroups st) !! id with
  | Some n => exists g H, heap st !! gnPtr n = Some (g, H) /\ group_at st id = Some (g, H) /\
                gnGroupID n = id /\ groupID g = id
  | None => group_at st id = None
  end.
Proof.
  intros [Hs [Hf _]]. unfold group_at.
  destruct (rb_map gnGroupID (mirrorBuddyGroups st) !! id) as [n|] eqn:E; [|done].
  apply rb_map_lookup in E as [Hn Hk]; [|done]. rewrite Forall_forall in Hf.
  destruct (Hf n Hn) as (g & H & Hg & Hid & _). exists g, H. simpl. rewrite Hg. by subst.
Qed.

Lemma getTargets_at st id :
  mapper_wf st ->
  MirrorBuddyGroupMapper_getPrimaryTargetID st id =
    Done (match group_at st id with Some (g, _) => firstTargetID g | None => 0 end) /\
  MirrorBuddyGroupMapper_getSecondaryTargetID st id =
    Done (match group_at st id with Some (g, _) => secondTargetID g | None => 0 end).
Proof.
  intros Hw. pose proof (group_at_wf st id Hw) as HG. pose proof Hw as [Hs _].
  unfold MirrorBuddyGroupMapper_getPrimaryTargetID, MirrorBuddyGroupMapper_getSecondaryTargetID.
  rewrite rb_find_map by done.
  destruct (rb_map gnGroupID (mirrorBuddyGroups st) !! id) as [n|].
  - destruct HG as (g & H & E & -> & _). unfold load. by rewrite E.
  - by rewrite HG.
Qed.

(** The listed groups' nodes, and their objects, survive the clearing. *)
Lemma loop_inv_new_ids cfg st0 ms t h new :
  loop_inv cfg st0 ms t h new -> gnGroupID <$> new = SerializationLists.groupID <$> ms.
Proof.
  intros HI. pose proof (li_new _ _ _ _ _ _ HI) as HF. clear HI.
  induction HF as [|m n ms new (Hid & _) HF IH]; [done|].
  by rewrite !fmap_cons, Hid, IH.
Qed.

Lemma sync_finish cfg st0 l t h new :
  loop_inv cfg st0 l t h new -> NoDup (SerializationLists.groupID <$> l) ->
  exists st', (cleared ← _MirrorBuddyGroupMapper_clear (mkMS t h);
    '(t', h') ← insert_new_groups (mirrorBuddyGroups cleared) (heap cleared) new;
    Done (mkMS t' h')) = Done st' /\ mapper_wf st' /\
    (forall n, rb_map gnGroupID (mirrorBuddyGroups st0) !! gnGroupID n = Some n ->
       gnGroupID n ∉ SerializationLists.groupID <$> l ->
       heap st' !! gnPtr n = heap st0 !! gnPtr n ≫= after_put) /\
    (forall id, id ∉ SerializationLists.groupID <$> l -> group_at st' id = None) /\
    (forall m, m ∈ l -> exists x, group_at st' (SerializationLists.groupID m) = Some x /\
       synced cfg st0 m x).
Proof.
  intros HI Hd. pose proof (loop_inv_new_ids _ _ _ _ _ _ HI) as Hids. rewrite <- Hids in Hd.
  destruct HI as [Hs [Hf Hdp] Ht Hh Hn].
  assert (Hokt : nodes_ok h (rb_postorder t)).
  { eapply nodes_ok_perm; [symmetry; apply rb_postorder_elems|]. split.
    - by apply Forall_app in Hf as [? _].
    - rewrite fmap_app in Hdp. by apply NoDup_app in Hdp as [? _]. }
  destruct (put_groups_frame _ _ Hokt) as (h1 & E1 & Hfr & Hput).
  unfold _MirrorBuddyGroupMapper_clear. cbn [heap mirrorBuddyGroups]. rewrite E1.
  cbn [mbind outcome_bind heap mirrorBuddyGroups].
  assert (Hkeep : forall n, n ∈ new -> h1 !! gnPtr n = h !! gnPtr n).
  { intros n Hin. apply Hfr. intros (x & Heq & Hx)%list_elem_of_fmap.
    rewrite rb_postorder_elems in Hx. rewrite fmap_app in Hdp. apply NoDup_app in Hdp as (_ & Hdis & _).
    apply (Hdis (gnPtr x)); [by apply list_elem_of_fmap_2|]. rewrite <- Heq. by apply list_elem_of_fmap_2. }
  destruct (insert_new_spec new Leaf h1) as (t2 & E2 & Hs2 & Hm2); [constructor|done|done|].
  rewrite E2. cbn [mbind outcome_bind]. change (rb_map gnGroupID Leaf) with (∅ : gmap Z GroupNode) in Hm2.
  destruct (foldl_nodes new ∅ Hd) as [Hin Hout].
  eexists. split; [done|].
  assert (Hel : forall n, n ∈ inorder t2 <-> n ∈ new).
  { intros n. split.
    - intros Hx. assert (rb_map gnGroupID t2 !! gnGroupID n = Some n) as E by (by apply rb_map_lookup).
      rewrite Hm2 in E. destruct (decide (gnGroupID n ∈ gnGroupID <$> new)) as [Hi|Hi].
      + apply list_elem_of_fmap in Hi as (y & Hy & Hyn). rewrite Hy, Hin in E by done.
        by simplify_eq.
      + by rewrite Hout in E.
    - intros Hx. eapply rb_map_lookup; [done|]. rewrite Hm2. by apply Hin. }
  split_and!.
  - split; [done|]. cbn [heap mirrorBuddyGroups].
    apply (nodes_ok_perm _ new).
    { apply NoDup_Permutation; [by apply (NoDup_fmap_1 gnGroupID)| |by intros; rewrite Hel].
      apply (NoDup_fmap_1 gnGroupID). by apply sorted_lt_NoDup, sorted_keys. }
    split.
    + apply Forall_app in Hf as [_ Hf]. rewrite Forall_forall in Hf. apply Forall_forall.
      intros x Hx. destruct (Hf x Hx) as (g & H & Hg & R). exists g, H. by rewrite Hkeep.
    + rewrite fmap_app in Hdp. by apply NoDup_app in Hdp as (_ & _ & ?).
  - intros n En Hid. cbn [heap].
    assert (Hnt : n ∈ inorder t) by (eapply rb_map_lookup; [done|]; by rewrite Ht, decide_False).
    rewrite Hput by (by rewrite rb_postorder_elems). by rewrite Hh.
  - intros id Hid. unfold group_at. cbn [mirrorBuddyGroups heap]. rewrite Hm2, Hout; [done|].
    by rewrite Hids.
  - intros m Hm. apply list_elem_of_lookup in Hm as [i Hi].
    destruct (Forall2_lookup_l _ _ _ _ _ Hn Hi) as (n & Hni & Hid & x & Hx & Hsy).
    exists x. split; [|done]. unfold group_at. cbn [mirrorBuddyGroups heap].
    pose proof (list_elem_of_lookup_2 _ _ _ Hni) as Hnn.
    rewrite <- Hid, Hm2, Hin by done. simpl. by rewrite Hkeep.
Qed.
End MapperProofs.

(** ** Properties *)

(** C33: syncing the buddy groups.  For any kernel tree that keeps its promises, a
    well-formed mapper, a list without repeated ids, successful allocations and a
    [connMaxInternodeNum] that is not 0 modulo 2^16, [syncGroups] succeeds and leaves
    a well-formed mapper with exactly the listed groups: each has the listed primary
    and secondary target; a group that was known keeps its object -- sequence numbers,
    operations in flight, references and handles --, a new one starts fresh; looking
    up any other id returns 0.  The mapper gives back its reference of each group
    that is no longer listed: the object is freed if it was the last one, and else
    stays for its other users with one reference less. *)
Theorem sync_groups_spec (K : KernelRBTree GroupNode gnGroupID) (cfg : Z) (alloc : nat -> bool * bool)
    (st : MapperState) (l : list BuddyGroupMapping) :
  mapper_wf st -> NoDup (SerializationLists.groupID <$> l) -> u16 cfg <> 0 ->
  (forall j, alloc j = (true, true)) ->
  exists st', MirrorBuddyGroupMapper_syncGroups cfg alloc st l = Done st' /\ mapper_wf st' /\
    (forall id, id ∉ SerializationLists.groupID <$> l ->
       MirrorBuddyGroupMapper_getPrimaryTargetID st' id = Done 0) /\
    (forall n g H, n ∈ inorder (mirrorBuddyGroups st) ->
       gnGroupID n ∉ SerializationLists.groupID <$> l -> heap st !! gnPtr n = Some (g, H) ->
       heap st' !! gnPtr n =
         match MirrorBuddyGroup_put g with Some g' => Some (g', H) | None => None end) /\
    (forall m, m ∈ l ->
       MirrorBuddyGroupMapper_getPrimaryTargetID st' (SerializationLists.groupID m) =
         Done (primaryTargetID m) /\
       MirrorBuddyGroupMapper_getSecondaryTargetID st' (SerializationLists.groupID m) =
         Done (secondaryTargetID m) /\
       match group_at st (SerializationLists.groupID m) with
       | Some (g, H) => group_at st' (SerializationLists.groupID m) =
           Some (set_targets (primaryTargetID m) (secondaryTargetID m) g, H)
       | None => exists g, group_at st' (SerializationLists.groupID m) = Some (g, ∅) /\
           construct_group cfg (true, true) m = Some g
       end).
Proof.
  intros Hw Hd Hc Ha. pose proof Hw as [Hs [Hf Hdp]].
  assert (HI : loop_inv cfg st [] (mirrorBuddyGroups st) (heap st) []).
  { split; [done| | |done|constructor].
    - by rewrite app_nil_r.
    - intros id. by rewrite decide_False by (apply not_elem_of_nil). }
  destruct (sync_loop_inv cfg alloc 0 l st [] _ _ _ Hc Ha HI Hd) as (t' & h' & new' & E & HI').
  destruct (sync_finish cfg st l t' h' new' HI' Hd) as (st' & E' & Hw' & Hrem & Hout & Hin).
  exists st'. split_and!; [|done| | |].
  - unfold MirrorBuddyGroupMapper_syncGroups, __MirrorBuddyGroupMapper_syncGroupsUnlocked.
    rewrite E. exact E'.
  - intros id Hid. destruct (getTargets_at st' id Hw') as [-> _]. by rewrite Hout.
  - intros n g H Hn Hid Eg. rewrite Hrem; [|by apply rb_map_lookup|done]. rewrite Eg. cbn.
    unfold after_put. cbn. by destruct (MirrorBuddyGroup_put g).
  - intros m Hm. destruct (Hin m Hm) as (x & Ex & Hx).
    destruct (getTargets_at st' (SerializationLists.groupID m) Hw') as [-> ->]. rewrite Ex.
    unfold synced in Hx. destruct (group_at st (SerializationLists.groupID m)) as [[g H]|].
    + by rewrite Hx.
    + destruct Hx as (g & -> & Eg). destruct (construct_some cfg m Hc) as (g' & Eg' & _ & _ & F1 & F2).
      rewrite Eg in Eg'. injection Eg' as <-. rewrite F1, F2. eauto.
Qed.

Lemma mapper_init_wf h : mapper_wf (MirrorBuddyGroupMapper_init h).
Proof. split; [constructor|]. split; [constructor|apply NoDup_nil_2]. Qed.

(** Two groups, the second with a reference of an operation in flight. *)
Definition sync_ex_group (id refs : Z) : MirrorBuddyGroup := mkMBG id 11 12 0 8 [] 0 8 [] 0 0 refs.
Definition sync_ex : MapperState :=
  mkMS (Node Leaf (mkGN 5 0) (Node Leaf (mkGN 7 1) Leaf))
    {[0 := (sync_ex_group 5 1, ∅); 1 := (sync_ex_group 7 2, ∅)]}.

Lemma sync_ex_wf : mapper_wf sync_ex.
Proof.
  split; [repeat constructor|]. split; [|apply (bool_decide_unpack _); by vm_compute].
  repeat constructor; eexists _, _; split_and!; vm_compute; reflexivity.
Qed.

Lemma sync_groups_spec_witness :
  let K := chain_kernel GroupNode gnGroupID in
  exists st', MirrorBuddyGroupMapper_syncGroups 8 (fun _ => (true, true))
      sync_ex [mkBGM 2 21 22; mkBGM 1 11 12] = Done st' /\
    MirrorBuddyGroupMapper_getPrimaryTargetID st' 5 = Done 0 /\
    heap st' !! 0 = None /\ heap st' !! 1 = Some (sync_ex_group 7 1, ∅).
Proof.
  destruct (sync_groups_spec (chain_kernel GroupNode gnGroupID) 8 (fun _ => (true, true))
    sync_ex [mkBGM 2 21 22; mkBGM 1 11 12] sync_ex_wf
    ltac:(cbv; apply (bool_decide_unpack _); by vm_compute) ltac:(by vm_compute) ltac:(done))
    as (st' & E & _ & H & Hput & _).
  exists st'. split; [exact E|]. split; [|split].
  - apply H. apply (bool_decide_unpack _). by vm_compute.
  - apply (Hput (mkGN 5 0) (sync_ex_group 5 1) ∅); [left|apply (bool_decide_unpack _)|]; by vm_compute.
  - apply (Hput (mkGN 7 1) (sync_ex_group 7 2) ∅); [right; left|apply (bool_decide_unpack _)|];
      by vm_compute.
Defined.

Section AddGroup.
Context `{K : KernelRBTree GroupNode gnGroupID} `{KT : KernelRBTree TargetMapping tmTargetID}.

Lemma find_group_of_spec h l t :
  Forall (node_ok h) l ->
  exists v, find_group_of h l t = Done v /\
    (v = 0 \/ exists n g H, n ∈ l /\ h !! gnPtr n = Some (g, H) /\ gnGroupID n = v /\
                (firstTargetID g = t \/ secondTargetID g = t)).
Proof.
  induction 1 as [|n l (g & H & E & Hid & _) Hf IH]; cbn [find_group_of]; [eauto|].
  unfold load. rewrite E. cbn [of_option mbind outcome_bind].
  destruct ((firstTargetID g =? t) || (secondTargetID g =? t)) eqn:Eb.
  - eexists. split; [done|]. right. exists n, g, H. split_and!; [by left|done|done|].
    apply orb_true_iff in Eb as [Eb|Eb]; apply Z.eqb_eq in Eb; auto.
  - destruct IH as (v & -> & [->|(n' & g' & H' & Hn & R)]); [eauto|].
    eexists. split; [done|]. right. exists n', g', H'. split; [by right|done].
Qed.

(** The group ids a target is reported to be in. *)
Lemma getBuddyGroupID_at st t :
  mapper_wf st ->
  exists v, __MirrorBuddyGroupMapper_getBuddyGroupIDUnlocked st t = Done v /\
    (v = 0 \/ exists g H, group_at st v = Some (g, H) /\
                (firstTargetID g = t \/ secondTargetID g = t)).
Proof.
  intros Hw. pose proof Hw as [Hs [Hf _]].
  unfold __MirrorBuddyGroupMapper_getBuddyGroupIDUnlocked. rewrite rb_iter_inorder.
  destruct (find_group_of_spec (heap st) _ t Hf) as (v & E & [->|(n & g & H & Hn & Hg & <- & Ht)]);
    [eauto|]. eexists. split; [done|]. right. exists g, H. split; [|done]. unfold group_at.
  rewrite (proj2 (rb_map_lookup gnGroupID _ _ _ Hs)) by done. done.
Qed.

(** No group but [id] contains the target. *)
Definition free_for (st : MapperState) (id t : Z) : Prop :=
  forall id' g H, group_at st id' = Some (g, H) ->
    firstTargetID g = t \/ secondTargetID g = t -> id' = id.

Lemma free_for_check st id t :
  mapper_wf st -> free_for st id t ->
  exists v, __MirrorBuddyGroupMapper_getBuddyGroupIDUnlocked st t = Done v /\
    negb (v =? 0) && negb (v =? id) = false.
Proof.
  intros Hw Hfree. destruct (getBuddyGroupID_at st t Hw) as (v & E & Hv). exists v. split; [done|].
  destruct Hv as [->|(g & H & Hg & Ht)]; [done|]. rewrite (Hfree v g H Hg Ht), Z.eqb_refl.
  apply andb_false_r.
Qed.

(** Past all checks, [addGroup] constructs a group and calls [_insert]. *)
Lemma addGroup_insert cfg tm st id p s allowUpdate :
  mapper_wf st -> id <> 0 -> u16 cfg <> 0 ->
  (allowUpdate = true \/ group_at st id = None) ->
  match tm with
  | Some tm => TargetMapper_getNodeID tm p <> 0 /\ TargetMapper_getNodeID tm s <> 0
  | None => True end ->
  free_for st id p -> free_for st id s ->
  exists g, construct_group cfg (true, true) (mkBGM id p s) = Some g /\
    MirrorBuddyGroupMapper_addGroup cfg (true, true) tm st id p s allowUpdate =
      Done (FhgfsOpsErr_SUCCESS,
            mkMS (rb_insert gnGroupID (mirrorBuddyGroups st) (mkGN id (fresh (dom (heap st))))).2
                 (<[fresh (dom (heap st)) := (g, ∅)]> (heap st))).
Proof.
  intros Hw Hid Hc Hup Htm Hp Hs. pose proof Hw as [Hsort _].
  destruct (construct_some cfg (mkBGM id p s) Hc) as (g & Eg & _). exists g. split; [done|].
  unfold MirrorBuddyGroupMapper_addGroup. rewrite (proj2 (Z.eqb_neq _ _)) by done.
  assert (E1 : negb allowUpdate && match rb_find gnGroupID (mirrorBuddyGroups st) id with
    | Some _ => true | None => false end = false).
  { destruct Hup as [->|Hn]; [done|]. rewrite rb_find_map by done.
    pose proof (group_at_wf st id Hw) as HG.
    destruct (rb_map gnGroupID (mirrorBuddyGroups st) !! id); [|apply andb_false_r].
    destruct HG as (? & ? & _ & HG & _). congruence. }
  rewrite E1.
  assert (E2 : match tm with
    | Some tm => (TargetMapper_getNodeID tm p =? 0) || (TargetMapper_getNodeID tm s =? 0)
    | None => false end = false).
  { destruct tm; [|done]. destruct Htm. by rewrite !(proj2 (Z.eqb_neq _ _)). }
  rewrite E2. destruct (free_for_check st id p Hw Hp) as (v1 & -> & Ev1).
  destruct (free_for_check st id s Hw Hs) as (v2 & -> & Ev2). cbn [mbind outcome_bind].
  rewrite Ev1, Ev2. cbn [orb]. rewrite Eg.
  by destruct (rb_insert gnGroupID (mirrorBuddyGroups st) (mkGN id (fresh (dom (heap st))))).
Qed.

(** A new object changes no group the mapper already has. *)
Lemma group_at_fresh st id t' x :
  mapper_wf st -> rb_map gnGroupID t' !! id = rb_map gnGroupID (mirrorBuddyGroups st) !! id ->
  group_at (mkMS t' (<[fresh (dom (heap st)) := x]> (heap st))) id = group_at st id.
Proof.
  intros [Hs Hok] E. unfold group_at. cbn [mirrorBuddyGroups heap]. rewrite E.
  destruct (rb_map gnGroupID (mirrorBuddyGroups st) !! id) as [n|] eqn:En; [|done]. simpl.
  apply rb_map_lookup in En as [Hn _]; [|done]. rewrite lookup_insert_ne; [done|].
  intros Heq. by apply (fresh_not_node _ _ _ Hok Hn).
Qed.
End AddGroup.

(** Adding a buddy group.  With a non-zero id no group has, targets that are
    mapped to nodes and in no other group, [addGroup] succeeds: the id now has a
    fresh group with the two targets and no other group changes.  The checks in
    front of it: id 0 is invalid, an existing id is refused unless updates are
    allowed, an unmapped target is refused; all without changing the mapper. *)
Theorem add_group_spec (K : KernelRBTree GroupNode gnGroupID)
    (KT : KernelRBTree TargetMapping tmTargetID) (cfg : Z) (alloc : bool * bool)
    (tm : TargetMapper) (st : MapperState) (id p s : Z) (allowUpdate : bool) :
  mapper_wf st -> u16 cfg <> 0 ->
  let add := MirrorBuddyGroupMapper_addGroup cfg in
  add alloc (Some tm) st 0 p s allowUpdate = Done (FhgfsOpsErr_INVAL, st) /\
  (id <> 0 -> group_at st id <> None ->
   add alloc (Some tm) st id p s false = Done (FhgfsOpsErr_EXISTS, st)) /\
  (id <> 0 -> group_at st id = None ->
   TargetMapper_getNodeID tm p = 0 \/ TargetMapper_getNodeID tm s = 0 ->
   add alloc (Some tm) st id p s allowUpdate = Done (FhgfsOpsErr_UNKNOWNTARGET, st)) /\
  (id <> 0 -> group_at st id = None ->
   TargetMapper_getNodeID tm p <> 0 -> TargetMapper_getNodeID tm s <> 0 ->
   free_for st id p -> free_for st id s ->
   exists st' g, add (true, true) (Some tm) st id p s allowUpdate = Done (FhgfsOpsErr_SUCCESS, st') /\
     group_at st' id = Some (g, ∅) /\ firstTargetID g = p /\ secondTargetID g = s /\
     forall id', id' <> id -> group_at st' id' = group_at st id').
Proof.
  intros Hw Hc add. pose proof Hw as [Hsort _]. pose proof (group_at_wf st id Hw) as HG.
  subst add. split_and!.
  - done.
  - intros Hid Hex. unfold MirrorBuddyGroupMapper_addGroup.
    rewrite (proj2 (Z.eqb_neq _ _)), rb_find_map by done.
    by destruct (rb_map gnGroupID (mirrorBuddyGroups st) !! id).
  - intros Hid Hn Htm. unfold MirrorBuddyGroupMapper_addGroup.
    rewrite (proj2 (Z.eqb_neq _ _)), rb_find_map by done.
    destruct (rb_map gnGroupID (mirrorBuddyGroups st) !! id).
    { destruct HG as (? & ? & _ & HG & _). congruence. }
    rewrite andb_false_r. destruct Htm as [-> | ->]; [done|]. by rewrite orb_true_r.
  - intros Hid Hn Htp Hts Hp Hs.
    destruct (addGroup_insert cfg (Some tm) st id p s allowUpdate) as (g & Eg & E); auto.
    destruct (construct_some cfg (mkBGM id p s) Hc) as (g' & Eg' & _ & _ & F1 & F2).
    rewrite Eg in Eg'. injection Eg' as <-.
    eexists _, g. split; [exact E|].
    destruct (rb_insert_map gnGroupID (mirrorBuddyGroups st) (mkGN id (fresh (dom (heap st)))) Hsort)
      as [_ HI]. cbn [gnGroupID] in HI.
    destruct (rb_map gnGroupID (mirrorBuddyGroups st) !! id).
    { destruct HG as (? & ? & _ & HG & _). congruence. }
    destruct HI as [_ HI]. split_and!; [|done|done|].
    + unfold group_at. cbn [mirrorBuddyGroups heap]. rewrite HI, lookup_insert_eq. simpl.
      by rewrite lookup_insert_eq.
    + intros id' Hne. apply group_at_fresh; [done|]. by rewrite HI, lookup_insert_ne.
Qed.

Lemma add_group_spec_witness :
  let K := chain_kernel GroupNode gnGroupID in
  let KT := chain_kernel TargetMapping tmTargetID in
  exists st' g, MirrorBuddyGroupMapper_addGroup 8 (true, true)
      (Some (TargetMapper_syncTargets TargetMapper_init [mkTM 11 1; mkTM 12 2]))
      (MirrorBuddyGroupMapper_init ∅) 5 11 12 false = Done (FhgfsOpsErr_SUCCESS, st') /\
    group_at st' 5 = Some (g, ∅) /\ firstTargetID g = 11.
Proof.
  destruct (proj2 (proj2 (proj2 (add_group_spec (chain_kernel GroupNode gnGroupID)
    (chain_kernel TargetMapping tmTargetID) 8 (true, true)
    (@TargetMapper_syncTargets (chain_kernel TargetMapping tmTargetID) TargetMapper_init
       [mkTM 11 1; mkTM 12 2])
    (MirrorBuddyGroupMapper_init ∅) 5 11 12 false (mapper_init_wf ∅) ltac:(by vm_compute))))
    ltac:(done) ltac:(done) ltac:(by vm_compute) ltac:(by vm_compute) ltac:(intros ? ? ?; done)
    ltac:(intros ? ? ?; done)) as (st' & g & E & E1 & E2 & _).
  exists st', g. split; [exact E|]. split; [exact E1|exact E2].
Defined.

(** An allowed update is not done.  When the group exists and [allowUpdate] is
    set, [addGroup] reports success, but the tree's [_insert] refuses the new
    group: every lookup returns what it returned before, and the group that was
    constructed stays allocated without being reachable. *)
Theorem add_group_update_ignored (K : KernelRBTree GroupNode gnGroupID)
    (KT : KernelRBTree TargetMapping tmTargetID) (cfg : Z) (st : MapperState) (id p s : Z) :
  mapper_wf st -> u16 cfg <> 0 -> id <> 0 -> group_at st id <> None ->
  free_for st id p -> free_for st id s ->
  exists st', MirrorBuddyGroupMapper_addGroup cfg (true, true) None st id p s true =
      Done (FhgfsOpsErr_SUCCESS, st') /\
    mirrorBuddyGroups st' = mirrorBuddyGroups st /\
    (forall id', group_at st' id' = group_at st id') /\
    exists ptr g, heap st !! ptr = None /\ heap st' !! ptr = Some (g, ∅) /\
      firstTargetID g = p /\ secondTargetID g = s.
Proof.
  intros Hw Hc Hid Hex Hp Hs. pose proof Hw as [Hsort _]. pose proof (group_at_wf st id Hw) as HG.
  destruct (addGroup_insert cfg None st id p s true) as (g & Eg & E); auto.
  destruct (construct_some cfg (mkBGM id p s) Hc) as (g' & Eg' & _ & _ & F1 & F2).
  rewrite Eg in Eg'. injection Eg' as <-.
  eexists. split; [exact E|].
  destruct (rb_insert_map gnGroupID (mirrorBuddyGroups st) (mkGN id (fresh (dom (heap st)))) Hsort)
    as [_ HI]. cbn [gnGroupID] in HI.
  destruct (rb_map gnGroupID (mirrorBuddyGroups st) !! id); [|congruence].
  rewrite HI. cbn [snd]. split_and!; [done|intros id'; by apply group_at_fresh|].
  exists (fresh (dom (heap st))), g. split_and!; [|by apply lookup_insert_eq|done|done].
  apply not_elem_of_dom, is_fresh.
Qed.

Definition mapper_ex : MapperState :=
  mkMS (Node Leaf (mkGN 5 0) Leaf) {[0 := (mkMBG 5 11 12 0 8 [] 0 8 [] 0 0 1, ∅)]}.

Lemma mapper_ex_wf : mapper_wf mapper_ex.
Proof.
  split; [repeat constructor|]. split; [|repeat constructor; set_solver].
  constructor; [|constructor]. eexists _, _. split_and!; [vm_compute; reflexivity|done|done].
Qed.

Lemma mapper_ex_free t : free_for mapper_ex 5 t.
Proof.
  intros id g H E _. unfold group_at in E. cbn [mapper_ex mirrorBuddyGroups] in E.
  destruct (decide (id = 5)) as [|Hne]; [done|].
  unfold rb_map, elems_map in E. cbn in E. by rewrite lookup_insert_ne in E.
Qed.

Lemma add_group_update_ignored_witness :
  let K := chain_kernel GroupNode gnGroupID in
  let KT := chain_kernel TargetMapping tmTargetID in
  exists st', MirrorBuddyGroupMapper_addGroup 8 (true, true) None mapper_ex 5 21 22 true =
      Done (FhgfsOpsErr_SUCCESS, st') /\ mirrorBuddyGroups st' = mirrorBuddyGroups mapper_ex.
Proof.
  destruct (add_group_update_ignored (chain_kernel GroupNode gnGroupID)
    (chain_kernel TargetMapping tmTargetID) 8 mapper_ex 5 21 22 mapper_ex_wf ltac:(by vm_compute)
    ltac:(done) ltac:(by vm_compute) (mapper_ex_free 21) (mapper_ex_free 22)) as (st' & E & E1 & _).
  exists st'. split; [exact E|exact E1].
Defined.

(** The construction of a group is not checked when syncing.  If a listed
    group is new and cannot be constructed -- because an allocation fails, or
    because the configured number of connections is 0 modulo 2^16 -- [syncGroups]
    links the NULL pointer into its list, where [addGroup] reports "out of
    memory". *)
Theorem sync_groups_unchecked_null (K : KernelRBTree GroupNode gnGroupID)
    (KT : KernelRBTree TargetMapping tmTargetID) (cfg : Z) (alloc : nat -> bool * bool)
    (st : MapperState) (m : BuddyGroupMapping) (rest : list BuddyGroupMapping) :
  mapper_wf st -> group_at st (SerializationLists.groupID m) = None ->
  SerializationLists.groupID m <> 0 ->
  u16 cfg = 0 \/ alloc 0%nat <> (true, true) ->
  free_for st (SerializationLists.groupID m) (primaryTargetID m) ->
  free_for st (SerializationLists.groupID m) (secondaryTargetID m) ->
  MirrorBuddyGroupMapper_syncGroups cfg alloc st (m :: rest) = Fault /\
  MirrorBuddyGroupMapper_addGroup cfg (alloc 0%nat) None st (SerializationLists.groupID m)
    (primaryTargetID m) (secondaryTargetID m) false = Done (FhgfsOpsErr_OUTOFMEM, st).
Proof.
  intros Hw Hn Hid Hc Hp Hs. pose proof Hw as [Hsort _].
  assert (EC : construct_group cfg (alloc 0%nat) m = None).
  { unfold construct_group, MirrorBuddyGroup_constructFromTargetIDs. simpl.
    destruct Hc as [->|Ha]; [done|]. destruct (u16 cfg =? 0); [done|].
    by destruct (alloc 0%nat) as [[] []]. }
  assert (Ef : rb_find gnGroupID (mirrorBuddyGroups st) (SerializationLists.groupID m) = None).
  { rewrite rb_find_map by done. pose proof (group_at_wf st (SerializationLists.groupID m) Hw) as HG.
    destruct (rb_map gnGroupID (mirrorBuddyGroups st) !! SerializationLists.groupID m); [|done].
    destruct HG as (? & ? & _ & HG & _). congruence. }
  split.
  - unfold MirrorBuddyGroupMapper_syncGroups, __MirrorBuddyGroupMapper_syncGroupsUnlocked.
    cbn [sync_groups_loop]. by rewrite Ef, EC.
  - unfold MirrorBuddyGroupMapper_addGroup. rewrite (proj2 (Z.eqb_neq _ _)), Ef by done.
    cbn [negb andb]. destruct (free_for_check st _ _ Hw Hp) as (v1 & -> & Ev1).
    destruct (free_for_check st _ _ Hw Hs) as (v2 & -> & Ev2). cbn [mbind outcome_bind].
    rewrite Ev1, Ev2. cbn [orb]. destruct m. unfold construct_group in *. simpl in *. by rewrite EC.
Qed.

Lemma sync_groups_unchecked_null_witness :
  let K := chain_kernel GroupNode gnGroupID in
  MirrorBuddyGroupMapper_syncGroups 0 (fun _ => (true, true))
    (MirrorBuddyGroupMapper_init ∅) [mkBGM 1 11 12] = Fault.
Proof.
  apply (sync_groups_unchecked_null (chain_kernel GroupNode gnGroupID)
    (chain_kernel TargetMapping tmTargetID) 0 (fun _ => (true, true))
    (MirrorBuddyGroupMapper_init ∅) (mkBGM 1 11 12) [] (mapper_init_wf ∅) ltac:(done)
    ltac:(done) ltac:(left; by vm_compute) ltac:(intros ? ? ?; done) ltac:(intros ? ? ?; done)).
Defined.
