(* ===== verification/StripeIO.v ===== *)
(** * StripeIO: a file range becomes requests to the storage targets

    Models the striped read and write of [net/filesystem/FhgfsOpsRemoting.c]
    ([__FhgfsOpsRemoting_getChunkOffset], [FhgfsOpsRemoting_readfileVec],
    [FhgfsOpsRemoting_writefileVec], [__FhgfsOpsRemoting_writefileVerify]) and the
    request states of [net/filesystem/FhgfsOpsCommKit.h/.c].

    What happens on the wire is a parameter: [netResult round states i] is the
    value that the communication of the given round leaves in [nodeResult] of the
    [i]-th state, so the theorems hold for every behaviour of the servers.
    [alloc round numWorks] says whether the allocation of the next state succeeds.
    The user's buffer is the stream behind an [iov_iter]: the offset reached in it
    and the bytes left. *)

From S2P Require Import Prelude Serialization Vectors SerializationLists StripePattern BitStore.

(** ** iov_iter (the kernel's, and os/iov_iter.h) *)

Record iov_iter := mkIter { iter_pos : Z; iter_count : Z }.

Definition iov_iter_truncate (i : iov_iter) (count : Z) : iov_iter :=
  if count <? iter_count i then mkIter (iter_pos i) count else i.

Definition iov_iter_advance (i : iov_iter) (bytes : Z) : iov_iter :=
  let n := Z.min bytes (iter_count i) in mkIter (iter_pos i + n) (iter_count i - n).

(** ** Request states

    [ReadfileState] and [WritefileState] have the same fields, but for
    [receiveFileData], which only the communication uses. *)

Record CommKitTargetInfo := mkTI {
  ti_targetID : Z; ti_useBuddyMirrorSecond : bool; ti_nodeResult : Z }.

Record FileState := mkFS {
  fs_base : CommKitTargetInfo;
  fs_transmitted : Z; fs_toBeTransmitted : Z; fs_totalSize : Z;
  fs_data : iov_iter; fs_offset : Z;
  fs_firstWriteDoneForTarget : bool; fs_expectedNodeResult : Z }.

Definition commkit_initTargetInfo (targetID : Z) : CommKitTargetInfo :=
  mkTI targetID false (- FhgfsOpsErr_INTERNAL).

Definition FhgfsOpsCommKit_initReadfileState (offset size targetID : Z) : FileState :=
  mkFS (commkit_initTargetInfo targetID) 0 0 size (mkIter 0 0) offset false (s64 size).

Definition FhgfsOpsCommKit_initWritefileState (offset size targetID : Z) : FileState :=
  mkFS (commkit_initTargetInfo targetID) 0 0 size (mkIter 0 0) offset false (s64 size).

(** Assignments to single fields. *)
Definition set_data (st : FileState) (firstWriteDone : bool) (d : iov_iter) : FileState :=
  mkFS (fs_base st) (fs_transmitted st) (fs_toBeTransmitted st) (fs_totalSize st) d (fs_offset st)
    firstWriteDone (fs_expectedNodeResult st).

Definition set_second (st : FileState) (second : bool) : FileState :=
  mkFS (mkTI (ti_targetID (fs_base st)) second (ti_nodeResult (fs_base st)))
    (fs_transmitted st) (fs_toBeTransmitted st) (fs_totalSize st) (fs_data st) (fs_offset st)
    (fs_firstWriteDoneForTarget st) (fs_expectedNodeResult st).

Definition set_nodeResult (st : FileState) (r : Z) : FileState :=
  mkFS (mkTI (ti_targetID (fs_base st)) (ti_useBuddyMirrorSecond (fs_base st)) r)
    (fs_transmitted st) (fs_toBeTransmitted st) (fs_totalSize st) (fs_data st) (fs_offset st)
    (fs_firstWriteDoneForTarget st) (fs_expectedNodeResult st).

Definition nodeResult (st : FileState) : Z := ti_nodeResult (fs_base st).

(** What the functions use of [RemotingIOInfo]; the last two are behind pointers
    into the inode's file handle. *)
Record RemotingIOInfo := mkIO {
  io_pattern : StripePattern; io_maxUsedTargetIndex : Z; io_firstWriteDone : BitStore }.

(** [pattern->getStripeTargetIDs(pattern)], dereferenced. *)
Definition stripe_ids (p : StripePattern) : outcome Vec := of_option (getStripeTargetIDs p).

(** ** The position on the server *)

Definition __FhgfsOpsRemoting_getChunkOffset (pos chunkSize numNodes stripeNodeIndex : Z)
    : outcome Z :=
  let posModChunkSize := s64 (Z.land pos (u32 (chunkSize - 1))) in
  let stripeSetStart := s64 (pos - posModChunkSize - u64 (stripeNodeIndex * chunkSize)) in
  stripeSetStartDivNumNodes ←
    (if MathTk_isPowerOfTwo (u32 numNodes) then
       log2 ← MathTk_log2Int32 (u32 numNodes); Done (Z.shiftr stripeSetStart log2)
     else '(quot, _) ← do_div stripeSetStart (u32 numNodes); Done (s64 quot));
  Done (s64 (stripeSetStartDivNumNodes + posModChunkSize)).

(** The local variables that a stripeset-loop changes. *)
Record LoopState := mkLoop {
  currentOffset : Z; toBeDone : Z; currentTargetIndex : Z; maxUsedTargetIndex : Z;
  iterCopy : iov_iter }.

Section StripeIO.
Context (BITSTORE_BLOCK_SIZE : Z).
Context (alloc : nat -> nat -> bool).
Context (netResult : nat -> list FileState -> nat -> Z).

(** [FhgfsOpsCommKit_readfileV2bCommunicate] and [..writefileV2bCommunicate]. *)
Definition communicate (round : nat) (states : list FileState) : list FileState :=
  imap (fun i st => set_nodeResult st (s64 (netResult round states i))) states.

(** ** FhgfsOpsRemoting_readfileVec *)

(** The stripeset-loop; [n] is [numStripeNodes - numWorks]. *)
Fixpoint readfile_stripeset (round : nat) (ioInfo : RemotingIOInfo) (targetIDs : Vec)
    (secondary : bool) (n numWorks : nat) (l : LoopState) : outcome (LoopState * list FileState) :=
  let pattern := io_pattern ioInfo in
  let numStripeNodes := u32 (UInt16Vec_length targetIDs) in
  match n with
  | O => Done (l, [])
  | S n' =>
      if toBeDone l =? 0 then Done (l, []) else
      let currentChunkSize :=
        u64 (StripePattern_getChunkEnd pattern (currentOffset l) - currentOffset l + 1) in
      let currentReadSize := Z.min currentChunkSize (toBeDone l) in
      currentNodeLocalOffset ← __FhgfsOpsRemoting_getChunkOffset (currentOffset l)
        (StripePattern_getChunkSize pattern) numStripeNodes (currentTargetIndex l);
      if negb (alloc round numWorks) then Done (l, []) else
      let chunkIter := iov_iter_truncate (iterCopy l) currentChunkSize in
      targetID ← UInt16Vec_at targetIDs (currentTargetIndex l);
      firstWriteDone ←
        BitStore_getBit BITSTORE_BLOCK_SIZE (io_firstWriteDone ioInfo) (currentTargetIndex l);
      let state := set_data (FhgfsOpsCommKit_initReadfileState currentNodeLocalOffset
        (iter_count chunkIter) targetID) firstWriteDone chunkIter in
      let state := if StripePattern_getPatternType pattern =? STRIPEPATTERN_BuddyMirror
                   then set_second state secondary else state in
      '(l', states) ← readfile_stripeset round ioInfo targetIDs secondary n' (S numWorks)
        (mkLoop (s64 (currentOffset l + currentReadSize)) (u64 (toBeDone l - currentReadSize))
           (u32 (currentTargetIndex l + 1) mod numStripeNodes)
           (Z.max (maxUsedTargetIndex l) (s32 (currentTargetIndex l)))
           (iov_iter_advance (iterCopy l) (iter_count chunkIter)));
      Done (l', state :: states)
  end.

(** The verification of a round: the new [usableReadSize], and the new [retVal]
    when a result is not as expected. *)
Fixpoint readfile_verify (states : list FileState) (usableReadSize : Z) : Z * option Z :=
  match states with
  | [] => (usableReadSize, None)
  | state :: rest =>
      if nodeResult state =? fs_expectedNodeResult state
      then readfile_verify rest (s64 (usableReadSize + nodeResult state))
      else if 0 <=? nodeResult state
      then (usableReadSize, Some (s64 (usableReadSize + nodeResult state)))
      else (usableReadSize, Some (nodeResult state))
  end.

(** The outer loop.  Every round that allocates a state handles at least one byte,
    so the number of bytes is enough fuel.  Result: the return value, the new
    [maxUsedTargetIndex] of the handle, and the requests of every round. *)
Fixpoint readfile_rounds (fuel round : nat) (ioInfo : RemotingIOInfo) (targetIDs : Vec)
    (secondary : bool) (retVal usableReadSize : Z) (l : LoopState)
    : outcome (Z * Z * list (list FileState)) :=
  if toBeDone l =? 0
  then Done (retVal, Z.max (io_maxUsedTargetIndex ioInfo) (maxUsedTargetIndex l), []) else
  match fuel with
  | O => Fault
  | S fuel' =>
      currentTargetIndex ← getStripeTargetIndex (io_pattern ioInfo) (currentOffset l);
      '(l', states) ← readfile_stripeset round ioInfo targetIDs secondary
        (Z.to_nat (u32 (UInt16Vec_length targetIDs))) 0
        (mkLoop (currentOffset l) (toBeDone l) (u32 currentTargetIndex) (maxUsedTargetIndex l)
           (iterCopy l));
      if bool_decide (states = [])
      then Done (- FhgfsOpsErr_OUTOFMEM, io_maxUsedTargetIndex ioInfo, []) else
      let states := communicate round states in
      let '(usableReadSize, failed) := readfile_verify states usableReadSize in
      let '(retVal, toBeRead) :=
        match failed with Some r => (r, 0) | None => (retVal, toBeDone l') end in
      '(retVal, maxUsed, rest) ← readfile_rounds fuel' (S round) ioInfo targetIDs secondary retVal
        usableReadSize (mkLoop (currentOffset l') toBeRead 0 (maxUsedTargetIndex l') (iterCopy l'));
      Done (retVal, maxUsed, states :: rest)
  end.

Definition FhgfsOpsRemoting_readfileVec (iter : iov_iter) (offset : Z) (ioInfo : RemotingIOInfo)
    (secondary : bool) : outcome (Z * Z * list (list FileState)) :=
  targetIDs ← stripe_ids (io_pattern ioInfo);
  readfile_rounds (Z.to_nat (iter_count iter)) 0 ioInfo targetIDs secondary (s64 (iter_count iter)) 0
    (mkLoop offset (iter_count iter) 0 (io_maxUsedTargetIndex ioInfo) iter).

(** ** FhgfsOpsRemoting_writefileVec *)

(** [__FhgfsOpsRemoting_writefileVerify]: whether all results are as expected, the
    number of bytes written (or the error), and the new [firstWriteDone]. *)
Fixpoint __FhgfsOpsRemoting_writefileVerify (firstTargetIndex numStripeNodes : Z)
    (states : list FileState) (i outWritten : Z) (firstWriteDone : BitStore)
    : outcome (bool * Z * BitStore) :=
  match states with
  | [] => Done (true, outWritten, firstWriteDone)
  | state :: rest =>
      '(outWritten, i, firstWriteDone) ←
        (if nodeResult state <=? fs_expectedNodeResult state then
           let currentTargetIndex := u32 (firstTargetIndex + i) mod numStripeNodes in
           fwd ← BitStore_setBit BITSTORE_BLOCK_SIZE firstWriteDone currentTargetIndex true;
           Done (s64 (outWritten + nodeResult state), u32 (i + 1), fwd)
         else Done (outWritten, i, firstWriteDone));
      if fs_expectedNodeResult state =? nodeResult state
      then __FhgfsOpsRemoting_writefileVerify firstTargetIndex numStripeNodes rest i outWritten
             firstWriteDone
      else if 0 <=? nodeResult state then Done (false, outWritten, firstWriteDone)
      else Done (false, nodeResult state, firstWriteDone)
  end.

(** The stripeset-loop; [n] is [numStripeTargets - numWorks].  The local
    [expectedWritten] of the source is never read. *)
Fixpoint writefile_stripeset (round : nat) (ioInfo : RemotingIOInfo) (targetIDs : Vec)
    (serializeWrites : bool) (n numWorks : nat) (l : LoopState)
    : outcome (LoopState * list FileState) :=
  let pattern := io_pattern ioInfo in
  let numStripeTargets := u32 (UInt16Vec_length targetIDs) in
  match n with
  | O => Done (l, [])
  | S n' =>
      if toBeDone l =? 0 then Done (l, []) else
      let currentChunkSize :=
        u64 (StripePattern_getChunkEnd pattern (currentOffset l) - currentOffset l + 1) in
      currentNodeLocalOffset ← __FhgfsOpsRemoting_getChunkOffset (currentOffset l)
        (StripePattern_getChunkSize pattern) numStripeTargets (currentTargetIndex l);
      if negb (alloc round numWorks) then Done (l, []) else
      let chunkIter := iov_iter_truncate (iterCopy l) currentChunkSize in
      targetID ← UInt16Vec_at targetIDs (currentTargetIndex l);
      firstWriteDone ←
        BitStore_getBit BITSTORE_BLOCK_SIZE (io_firstWriteDone ioInfo) (currentTargetIndex l);
      let state := set_data (FhgfsOpsCommKit_initWritefileState currentNodeLocalOffset
        (iter_count chunkIter) targetID) firstWriteDone chunkIter in
      let l' := mkLoop (s64 (currentOffset l + iter_count chunkIter))
        (u64 (toBeDone l - iter_count chunkIter))
        (u32 (currentTargetIndex l + 1) mod numStripeTargets)
        (Z.max (maxUsedTargetIndex l) (s32 (currentTargetIndex l)))
        (iov_iter_advance (iterCopy l) (iter_count chunkIter)) in
      if serializeWrites then Done (l', [state]) else
      '(l', states) ← writefile_stripeset round ioInfo targetIDs serializeWrites n' (S numWorks) l';
      Done (l', state :: states)
  end.

(** The outer loop.  Result: the return value, the updated [ioInfo], and the requests
    of every round. *)
Fixpoint writefile_rounds (fuel round : nat) (ioInfo : RemotingIOInfo) (targetIDs : Vec)
    (serializeWrites : bool) (retVal : Z) (l : LoopState)
    : outcome (Z * RemotingIOInfo * list (list FileState)) :=
  let finish retVal maxUsed fwd :=
    (retVal, mkIO (io_pattern ioInfo) (Z.max (io_maxUsedTargetIndex ioInfo) maxUsed) fwd) in
  if toBeDone l =? 0
  then Done (finish retVal (maxUsedTargetIndex l) (io_firstWriteDone ioInfo), []) else
  match fuel with
  | O => Fault
  | S fuel' =>
      currentTargetIndex ← getStripeTargetIndex (io_pattern ioInfo) (currentOffset l);
      let firstTargetIndex := u32 currentTargetIndex in
      '(l', states) ← writefile_stripeset round ioInfo targetIDs serializeWrites
        (Z.to_nat (u32 (UInt16Vec_length targetIDs))) 0
        (mkLoop (currentOffset l) (toBeDone l) firstTargetIndex (maxUsedTargetIndex l) (iterCopy l));
      let states := communicate round states in
      '(verifyRes, verifyValue, fwd) ← __FhgfsOpsRemoting_writefileVerify firstTargetIndex
        (u32 (UInt16Vec_length targetIDs)) states 0 0 (io_firstWriteDone ioInfo);
      if negb verifyRes then Done (finish verifyValue (maxUsedTargetIndex l') fwd, [states]) else
      '(res, rest) ← writefile_rounds fuel' (S round)
        (mkIO (io_pattern ioInfo) (io_maxUsedTargetIndex ioInfo) fwd) targetIDs serializeWrites retVal l';
      Done (res, states :: rest)
  end.

Definition FhgfsOpsRemoting_writefileVec (iter : iov_iter) (offset : Z) (ioInfo : RemotingIOInfo)
    (serializeWrites : bool) : outcome (Z * RemotingIOInfo * list (list FileState)) :=
  targetIDs ← stripe_ids (io_pattern ioInfo);
  writefile_rounds (Z.to_nat (iter_count iter)) 0 ioInfo targetIDs serializeWrites
    (s64 (iter_count iter))
    (mkLoop offset (iter_count iter) 0 (io_maxUsedTargetIndex ioInfo) iter).

End StripeIO.

(** ** Chunk offsets *)

(** Where byte [pos] of the file lives in its target's chunk file. *)
Definition local_offset (k n pos : Z) : Z := pos / (2 ^ k * n) * 2 ^ k + pos mod 2 ^ k.

Lemma local_offset_range k n pos :
  0 <= k < 32 -> 0 < n -> 0 <= pos -> 0 <= local_offset k n pos <= pos.
Proof.
  intros Hk Hn Hp. unfold local_offset. pose proof (pow2_range k Hk).
  pose proof (Z.mod_pos_bound pos (2 ^ k) ltac:(lia)).
  pose proof (Z.div_mod pos (2 ^ k) ltac:(lia)).
  rewrite <- Z.div_div by lia. pose proof (Z.div_pos pos (2 ^ k) ltac:(lia) ltac:(lia)).
  pose proof (Z.div_pos (pos / 2 ^ k) n ltac:(lia) ltac:(lia)).
  pose proof (Z.div_le_upper_bound (pos / 2 ^ k) n (pos / 2 ^ k) ltac:(lia) ltac:(nia)). nia.
Qed.

Lemma chunk_offset k n pos :
  0 <= k < 32 -> 0 < n < 2 ^ 32 -> 0 <= pos < 2 ^ 63 ->
  __FhgfsOpsRemoting_getChunkOffset pos (2 ^ k) n ((pos / 2 ^ k) mod n) =
    Done (local_offset k n pos).
Proof.
  intros Hk Hn Hp. pose proof (local_offset_range k n pos Hk ltac:(lia) ltac:(lia)) as Hr.
  unfold __FhgfsOpsRemoting_getChunkOffset, MathTk_log2Int32, do_div.
  pose proof (pow2_range k Hk). rewrite land_pow2_pred, (u32_id n) by (done || lia).
  pose proof (Z.mod_pos_bound pos (2 ^ k) ltac:(lia)).
  pose proof (Z.div_mod pos (2 ^ k) ltac:(lia)) as Hd.
  pose proof (Z.div_pos pos (2 ^ k) ltac:(lia) ltac:(lia)).
  pose proof (Z.mod_pos_bound (pos / 2 ^ k) n ltac:(lia)).
  pose proof (Z.div_mod (pos / 2 ^ k) n ltac:(lia)) as Hq.
  pose proof (Z.div_pos (pos / 2 ^ k) n ltac:(lia) ltac:(lia)).
  pose proof (Z.mod_le (pos / 2 ^ k) n ltac:(lia) ltac:(lia)).
  assert (E : pos - pos mod 2 ^ k - (pos / 2 ^ k) mod n * 2 ^ k = (pos / 2 ^ k / n * 2 ^ k) * n).
  { rewrite Hd at 1. rewrite Hq at 1. ring. }
  assert (Hm : 0 <= (pos / 2 ^ k) mod n * 2 ^ k <= pos) by (clear - H0 H1 H2 H3 H4 Hd H; nia).
  assert (Hs : 0 <= (pos / 2 ^ k / n * 2 ^ k) * n <= pos) by lia.
  assert (Hl : 0 <= pos / 2 ^ k / n * 2 ^ k <= pos) by nia.
  rewrite (s64_id (pos mod 2 ^ k)), (u64_id (_ * 2 ^ k)), E, s64_id by lia.
  unfold local_offset in *. rewrite <- Z.div_div in * by lia.
  destruct (MathTk_isPowerOfTwo n) eqn:Ep; rewrite (proj2 (Z.eqb_neq n 0)) by lia; cbn [mbind outcome_bind].
  - apply pow2_of_land in Ep; [|lia]. rewrite Z.shiftr_div_pow2, <- Ep by apply Z.log2_nonneg.
    rewrite Z.div_mul by lia. by rewrite s64_id by lia.
  - rewrite u64_id, Z.div_mul by lia. by rewrite (s64_id (_ * _)), s64_id by lia.
Qed.

(** Recombining a quotient and a remainder. *)
Lemma div_mod_mul c x r : 0 <= r < c -> (x * c + r) / c = x /\ (x * c + r) mod c = r.
Proof.
  intros Hr. split.
  - rewrite Z.div_add_l, Z.div_small by lia. lia.
  - rewrite Z.add_comm, Z.mod_add by lia. by apply Z.mod_small.
Qed.

(** The position is determined by the target's index and the local offset. *)
Definition file_position (k n i off : Z) : Z := (off / 2 ^ k * n + i) * 2 ^ k + off mod 2 ^ k.

Lemma file_position_local k n pos :
  0 <= k < 32 -> 0 < n ->
  file_position k n ((pos / 2 ^ k) mod n) (local_offset k n pos) = pos.
Proof.
  intros Hk Hn. unfold file_position, local_offset. pose proof (pow2_range k Hk).
  destruct (div_mod_mul (2 ^ k) (pos / (2 ^ k * n)) (pos mod 2 ^ k)) as [-> ->];
    [apply Z.mod_pos_bound; lia|]. rewrite <- Z.div_div by lia.
  pose proof (Z.div_mod pos (2 ^ k) ltac:(lia)).
  pose proof (Z.div_mod (pos / 2 ^ k) n ltac:(lia)). nia.
Qed.

Lemma local_file_position k n i off :
  0 <= k < 32 -> 0 <= i < n ->
  local_offset k n (file_position k n i off) = off /\
  (file_position k n i off / 2 ^ k) mod n = i.
Proof.
  intros Hk Hi. unfold file_position, local_offset. pose proof (pow2_range k Hk).
  rewrite <- Z.div_div by lia.
  destruct (div_mod_mul (2 ^ k) (off / 2 ^ k * n + i) (off mod 2 ^ k)) as [-> ->];
    [apply Z.mod_pos_bound; lia|].
  destruct (div_mod_mul n (off / 2 ^ k) i Hi) as [-> ->]. split; [|done].
  pose proof (Z.div_mod off (2 ^ k) ltac:(lia)). lia.
Qed.

(** ** Requests that cover a file range

    [request_ok pos st]: the request [st] is for the bytes of the file from [pos] to
    the end of the chunk or of the range, whichever is first; it goes to the target
    and the place there that the layout prescribes, and its data is the part of the
    user's buffer that belongs to these bytes.  [covers pos q sts]: the requests [sts]
    are, in order and without gap or overlap, for the bytes from [pos] to [q]. *)

Section Requests.
Context (k : Z) (ids : list Z) (buf start fin : Z).

Definition room (pos : Z) : Z := 2 ^ k - pos mod 2 ^ k.
Definition stripe_index (pos : Z) : Z := (pos / 2 ^ k) mod Z.of_nat (length ids).

Definition request_ok (pos : Z) (st : FileState) : Prop :=
  let len := Z.min (room pos) (fin - pos) in
  ids !! Z.to_nat (stripe_index pos) = Some (ti_targetID (fs_base st)) /\
  fs_offset st = local_offset k (Z.of_nat (length ids)) pos /\
  fs_expectedNodeResult st = len /\ fs_totalSize st = len /\
  fs_data st = mkIter (buf + (pos - start)) len.

Inductive covers : Z -> Z -> list FileState -> Prop :=
| covers_nil q : covers q q []
| covers_cons pos q st sts :
    pos < fin -> request_ok pos st -> covers (pos + fs_expectedNodeResult st) q sts ->
    covers pos q (st :: sts).

Lemma covers_app pos q r sts1 sts2 :
  covers pos q sts1 -> covers q r sts2 -> covers pos r (sts1 ++ sts2).
Proof. induction 1; simpl; [done|]. intros. constructor; auto. Qed.

Lemma covers_app_inv pos r sts1 sts2 :
  covers pos r (sts1 ++ sts2) -> exists q, covers pos q sts1 /\ covers q r sts2.
Proof.
  revert pos. induction sts1 as [|st sts1 IH]; intros pos H; simpl in H.
  - exists pos. split; [constructor|done].
  - inversion H as [|? ? ? ? Hp Hr Hc]; subst. destruct (IH _ Hc) as (q & H1 & H2).
    exists q. split; [by constructor|done].
Qed.

Definition total (sts : list FileState) : Z := foldr (fun st n => fs_expectedNodeResult st + n) 0 sts.

Context (Hk : 0 <= k < 32).

Lemma room_range pos : 1 <= room pos <= 2 ^ k.
Proof.
  unfold room. pose proof (pow2_range k Hk). pose proof (Z.mod_pos_bound pos (2 ^ k) ltac:(lia)). lia.
Qed.

Lemma covers_total pos q sts :
  covers pos q sts -> q = pos + total sts /\ 0 <= total sts /\ (sts <> [] -> 0 < total sts) /\
  (pos <= fin -> q <= fin).
Proof.
  induction 1 as [q|pos q st sts Hp (_ & _ & He & _) Hc (IH1 & IH2 & _ & IH3)]; simpl.
  - split_and!; try lia. done.
  - pose proof (room_range pos). rewrite He in *. split_and!; lia.
Qed.

(** The chunk behind a request that ends at its chunk's end is the next one. *)
Lemma stripe_index_next pos :
  ids <> [] -> stripe_index (pos + room pos) = (stripe_index pos + 1) mod Z.of_nat (length ids).
Proof.
  intros Hn. unfold stripe_index. pose proof (nonempty_length _ Hn). pose proof (pow2_range k Hk).
  rewrite Z.add_mod_idemp_l by lia. f_equal. unfold room.
  pose proof (Z.div_mod pos (2 ^ k) ltac:(lia)).
  replace (pos + (2 ^ k - pos mod 2 ^ k)) with ((pos / 2 ^ k + 1) * 2 ^ k) by lia.
  by rewrite Z.div_mul by lia.
Qed.

(** Results do not matter for what a request asks. *)
Lemma covers_imap pos q sts (f : nat -> FileState -> Z) :
  covers pos q sts -> covers pos q (imap (fun i st => set_nodeResult st (f i st)) sts).
Proof.
  intros H. revert f. induction H as [|pos q st sts Hp Hr Hc IH]; intros f; [constructor|].
  rewrite imap_cons. constructor; [done|done|]. apply IH.
Qed.
End Requests.

(** ** The stripeset loops *)

Definition as_expected (st : FileState) : Prop := nodeResult st = fs_expectedNodeResult st.
#[export] Instance as_expected_dec st : Decision (as_expected st).
Proof. unfold as_expected. apply _. Defined.

Section Loops.
Context (bs : Z) (Hbs : bs = 4 \/ bs = 8).
Context (alloc : nat -> nat -> bool) (netResult : nat -> list FileState -> nat -> Z).
Context (p : StripePattern) (v : Vec) (k : Z) (HS : Striped p (vlist v) k) (Hv : vec_wf v).
Context (Hn : Z.of_nat (length (vlist v)) < 2 ^ 31).
Context (buf start fin : Z) (Hstart : 0 <= start <= fin) (Hfin : fin <= 2 ^ 63 - 2 ^ k).

#[local] Abbreviation N := (Z.of_nat (length (vlist v))).
#[local] Abbreviation covers := (covers k (vlist v) buf start fin).
#[local] Abbreviation idx := (stripe_index k (vlist v)).

(** The loop stands before byte [pos] of the range. *)
Definition at_range (pos : Z) (l : LoopState) : Prop :=
  start <= pos <= fin /\ currentOffset l = pos /\ toBeDone l = fin - pos /\
  iterCopy l = mkIter (buf + (pos - start)) (fin - pos).
Definition at_pos (pos : Z) (l : LoopState) : Prop :=
  at_range pos l /\ (pos < fin -> currentTargetIndex l = idx pos).

Lemma N_pos : 0 < N.
Proof. apply nonempty_length, (striped_ids (Striped := HS)). Qed.

Lemma numStripe : u32 (UInt16Vec_length v) = N.
Proof. pose proof N_pos. unfold UInt16Vec_length. by apply u32_id; lia. Qed.

Lemma idx_range pos : 0 <= idx pos < N.
Proof. apply Z.mod_pos_bound, N_pos. Qed.

(** What one iteration computes before byte [pos]. *)
Lemma chunk_facts pos l :
  at_pos pos l -> pos < fin ->
  let len := Z.min (room k pos) (fin - pos) in
  u64 (StripePattern_getChunkEnd p (currentOffset l) - currentOffset l + 1) = room k pos /\
  __FhgfsOpsRemoting_getChunkOffset (currentOffset l) (StripePattern_getChunkSize p) N
    (currentTargetIndex l) = Done (local_offset k N pos) /\
  iov_iter_truncate (iterCopy l) (room k pos) = mkIter (buf + (pos - start)) len /\
  exists id, vlist v !! Z.to_nat (idx pos) = Some id /\
             UInt16Vec_at v (currentTargetIndex l) = Done id.
Proof.
  intros ((Hr & E1 & E2 & E3) & E4) Hlt len. pose proof (striped_k (Striped := HS)) as Hk.
  rewrite E1, E3, (E4 Hlt), (striped_chunk (Striped := HS)). pose proof (room_range k Hk pos).
  pose proof (pow2_range k Hk). pose proof N_pos. split_and!.
  - destruct (chunk_next p k pos Hk (striped_chunk (Striped := HS))) as [_ ->]; [lia|].
    unfold room in *. rewrite u64_id; lia.
  - apply chunk_offset; lia.
  - unfold iov_iter_truncate, len. cbn. destruct (Z.ltb_spec (room k pos) (fin - pos)); f_equal; lia.
  - apply vec_at_id; [done|]. apply idx_range.
Qed.

(** The state of the next iteration. *)
Lemma at_pos_next pos l :
  at_pos pos l -> pos < fin ->
  let len := Z.min (room k pos) (fin - pos) in
  at_pos (pos + len)
    (mkLoop (s64 (currentOffset l + len)) (u64 (toBeDone l - len))
       (u32 (currentTargetIndex l + 1) mod N) (Z.max (maxUsedTargetIndex l) (s32 (currentTargetIndex l)))
       (iov_iter_advance (iterCopy l) len)).
Proof.
  intros ((Hr & E1 & E2 & E3) & E4) Hlt len. pose proof (striped_k (Striped := HS)) as Hk.
  pose proof (room_range k Hk pos). pose proof (pow2_range k Hk). pose proof N_pos.
  pose proof (idx_range pos). unfold at_pos, at_range. cbn [currentOffset toBeDone iterCopy currentTargetIndex].
  rewrite E1, E2, E3, (E4 Hlt). subst len. rewrite s64_id, u64_id by lia.
  split_and!; try lia.
  - unfold iov_iter_advance. cbn. f_equal; lia.
  - intros Hlt'. rewrite u32_id by lia. rewrite Z.min_l by lia.
    by rewrite stripe_index_next by (done || apply (striped_ids (Striped := HS))).
Qed.

Section FixedStore.
Context (ws : list Z) (Hws : blocks_wf bs ws).

Lemma getBit_Done j : 0 <= j -> exists b, BitStore_getBit bs (of_blocks bs ws) j = Done b.
Proof. intros. eexists. by apply getBit_val. Qed.

Lemma readfile_stripeset_covers maxU secondary round m nw l pos :
  at_pos pos l -> exists l' sts q,
    readfile_stripeset bs alloc round (mkIO p maxU (of_blocks bs ws)) v secondary m nw l = Done (l', sts) /\
    at_pos q l' /\ covers pos q sts /\ (length sts <= m)%nat /\
    (sts = [] -> m = 0%nat \/ pos = fin \/ alloc round nw = false).
Proof.
  revert nw l pos. induction m as [|m IH]; intros nw l pos Hp; cbn [readfile_stripeset].
  { exists l, [], pos. split_and!; [done|done|constructor|simpl; lia|auto]. }
  pose proof Hp as ((Hr & E1 & E2 & E3) & E4). rewrite E2. destruct (Z.eqb_spec (fin - pos) 0).
  { exists l, [], pos. split_and!; [done|done|constructor|simpl; lia|intros; right; left; lia]. }
  destruct (chunk_facts pos l Hp ltac:(lia)) as (F1 & F2 & F3 & id & F4 & F5).
  cbn [io_pattern io_firstWriteDone]. rewrite F1, numStripe, F2, F3, F5. cfs_simpl.
  destruct (alloc round nw) eqn:Ea; cbn [negb].
  2: { exists l, [], pos. split_and!; [done|done|constructor|simpl; lia|auto]. }
  destruct (getBit_Done (currentTargetIndex l)) as (b & ->).
  { rewrite E4 by lia. apply idx_range. }
  pose proof (at_pos_next pos l Hp ltac:(lia)) as Hnext. cbn zeta in Hnext. rewrite E2 in Hnext.
  cbn [iter_count]. set (len := Z.min (room k pos) (fin - pos)) in *. cfs_simpl.
  destruct (IH (S nw) _ _ Hnext) as (l' & sts & q & -> & Hq & Hc & Hl & _). cfs_simpl.
  pose proof (room_range k (striped_k (Striped := HS)) pos).
  pose proof (pow2_range k (striped_k (Striped := HS))).
  assert (Es : s64 len = len) by (apply s64_id; lia).
  eexists l', _, q. split_and!; [done|done| |simpl; lia|done].
  constructor; [lia| |].
  - destruct (_ =? _); unfold request_ok; cbn; rewrite ?Es; done.
  - destruct (_ =? _); cbn; rewrite Es; exact Hc.
Qed.

Lemma writefile_stripeset_covers maxU (serialize : bool) round m nw l pos :
  at_pos pos l -> exists l' sts q,
    writefile_stripeset bs alloc round (mkIO p maxU (of_blocks bs ws)) v serialize m nw l =
      Done (l', sts) /\
    at_pos q l' /\ covers pos q sts /\
    (length sts <= if serialize then 1 else m)%nat /\
    (sts = [] -> m = 0%nat \/ pos = fin \/ alloc round nw = false).
Proof.
  revert nw l pos. induction m as [|m IH]; intros nw l pos Hp; cbn [writefile_stripeset].
  { exists l, [], pos. split_and!; [done|done|constructor|simpl; lia|auto]. }
  pose proof Hp as ((Hr & E1 & E2 & E3) & E4). rewrite E2. destruct (Z.eqb_spec (fin - pos) 0).
  { exists l, [], pos. split_and!; [done|done|constructor|simpl; lia|intros; right; left; lia]. }
  destruct (chunk_facts pos l Hp ltac:(lia)) as (F1 & F2 & F3 & id & F4 & F5).
  cbn [io_pattern io_firstWriteDone]. rewrite F1, numStripe, F2, F3, F5. cfs_simpl.
  destruct (alloc round nw) eqn:Ea; cbn [negb].
  2: { exists l, [], pos. split_and!; [done|done|constructor|simpl; lia|auto]. }
  destruct (getBit_Done (currentTargetIndex l)) as (b & ->).
  { rewrite E4 by lia. apply idx_range. }
  pose proof (at_pos_next pos l Hp ltac:(lia)) as Hnext. cbn zeta in Hnext. rewrite E2 in Hnext.
  cbn [iter_count]. set (len := Z.min (room k pos) (fin - pos)) in *. cfs_simpl.
  pose proof (room_range k (striped_k (Striped := HS)) pos).
  pose proof (pow2_range k (striped_k (Striped := HS))).
  assert (Es : s64 len = len) by (apply s64_id; lia).
  assert (Hok : forall d, request_ok k (vlist v) buf start fin pos
    (set_data (FhgfsOpsCommKit_initWritefileState (local_offset k N pos) len id) d
       (mkIter (buf + (pos - start)) len))) by (intros; unfold request_ok; cbn; rewrite ?Es; done).
  destruct serialize.
  - eexists _, _, _. split_and!; [done|exact Hnext| |simpl; lia|done].
    constructor; [lia|apply Hok|]. cbn. rewrite Es. constructor.
  - destruct (IH (S nw) _ _ Hnext) as (l' & sts & q & -> & Hq & Hc & Hl & _). cfs_simpl.
    eexists l', _, q. split_and!; [done|done| |simpl; lia|done].
    constructor; [lia|apply Hok|]. cbn. rewrite Es. exact Hc.
Qed.

(** ** Verification *)

Lemma communicate_covers pos q round sts :
  covers pos q sts -> covers pos q (communicate netResult round sts) /\
  length (communicate netResult round sts) = length sts /\
  Forall (fun st => in_s 64 (nodeResult st)) (communicate netResult round sts).
Proof.
  intros Hc. unfold communicate. split_and!.
  - apply (covers_imap k (vlist v) buf start fin pos q sts
      (fun i _ => s64 (netResult round sts i))), Hc.
  - apply length_imap.
  - apply Forall_lookup. intros i st Hi. rewrite list_lookup_imap in Hi.
    destruct (sts !! i); simplify_eq/=. by apply swrap_range.
Qed.

(** The requests up to the first whose result is not as expected. *)
Lemma first_failed sts :
  Forall as_expected sts \/
  exists pre st post, sts = pre ++ st :: post /\ Forall as_expected pre /\ ~ as_expected st.
Proof.
  induction sts as [|st sts IH]; [by left|]. destruct (decide (as_expected st)) as [He|He].
  - destruct IH as [IH|(pre & st' & post & -> & H1 & H2)]; [left; by constructor|].
    right. exists (st :: pre), st', post. split_and!; [done|by constructor|done].
  - right. exists [], st, sts. split_and!; [done|constructor|done].
Qed.

Lemma total_app a b : total (a ++ b) = total a + total b.
Proof. unfold total. induction a as [|st a IH]; simpl; [done|]. rewrite IH. lia. Qed.

Lemma readfile_verify_ok pos q pre rest u :
  covers pos q pre -> Forall as_expected pre -> 0 <= u -> u + total pre < 2 ^ 63 ->
  readfile_verify (pre ++ rest) u = readfile_verify rest (u + total pre).
Proof.
  intros Hc Hf. revert u. induction Hc as [q|pos q st sts Hp Hr Hc IH]; intros u Hu Hb; simpl.
  { by rewrite Z.add_0_r. }
  inversion Hf as [|? ? Hst Hsts]; subst. rewrite Hst, Z.eqb_refl. simpl in Hb.
  destruct (covers_total k (vlist v) buf start fin (striped_k (Striped := HS)) _ _ _ Hc)
    as (_ & Ht & _ & _).
  destruct Hr as (_ & _ & He & _). pose proof (room_range k (striped_k (Striped := HS)) pos).
  rewrite s64_id, IH by (done || lia). f_equal. lia.
Qed.

Lemma readfile_verify_failed st post u :
  ~ as_expected st ->
  (readfile_verify (st :: post) u).2 =
    Some (if 0 <=? nodeResult st then s64 (u + nodeResult st) else nodeResult st).
Proof.
  intros Hst. simpl. rewrite (proj2 (Z.eqb_neq _ _)) by exact Hst. by destruct (0 <=? _).
Qed.

(** ** The rounds of a read *)

(** How a read can end, after the rounds [rounds] that stopped at [q], when
    [done] bytes had been read before them. *)
Definition read_result (round : nat) (already ret q : Z) (rounds : list (list FileState)) : Prop :=
  (Forall as_expected (concat rounds) /\ q = fin /\ ret = fin - start) \/
  (exists before pre st post, rounds = before ++ [pre ++ st :: post] /\
     Forall as_expected (concat before) /\ Forall as_expected pre /\ ~ as_expected st /\
     ret = if 0 <=? nodeResult st then s64 (already + total (concat before ++ pre) + nodeResult st)
           else nodeResult st) \/
  (Forall as_expected (concat rounds) /\ q < fin /\ alloc (round + length rounds) 0 = false /\
   ret = - FhgfsOpsErr_OUTOFMEM).

Lemma read_result_cons round already ret q res rest :
  Forall as_expected res -> read_result (S round) (already + total res) ret q rest ->
  read_result round already ret q (res :: rest).
Proof.
  intros Hf [(H1 & H2 & H3)|[(b & pre & st & post & -> & H1 & H2 & H3 & ->)|(H1 & H2 & H3 & H4)]].
  - left. split_and!; [by apply Forall_app|done|done].
  - right; left. exists (res :: b), pre, st, post. split_and!; try done; [by apply Forall_app|].
    simpl. rewrite !total_app. by rewrite !Z.add_assoc.
  - right; right. split_and!; [by apply Forall_app|done| |done].
    simpl. by rewrite Nat.add_succ_r.
Qed.

Lemma readfile_rounds_stop fuel round ioInfo secondary retVal usable l :
  toBeDone l = 0 ->
  readfile_rounds bs alloc netResult fuel round ioInfo v secondary retVal usable l =
    Done (retVal, Z.max (io_maxUsedTargetIndex ioInfo) (maxUsedTargetIndex l), []).
Proof. intros E. destruct fuel; simpl; by rewrite E. Qed.

(** One round, with the results of the communication. *)
Lemma readfile_round maxU secondary round l pos :
  at_range pos l -> pos < fin -> exists l' sts q,
    readfile_stripeset bs alloc round (mkIO p maxU (of_blocks bs ws)) v secondary (Z.to_nat N) 0
      (mkLoop pos (fin - pos) ((pos / 2 ^ k) mod N) (maxUsedTargetIndex l) (iterCopy l)) =
      Done (l', sts) /\
    at_range q l' /\ (sts = [] -> alloc round 0 = false) /\
    covers pos q (communicate netResult round sts) /\
    (length (communicate netResult round sts) <= Z.to_nat N)%nat /\
    (sts <> [] -> pos < q) /\ q = pos + total (communicate netResult round sts) /\ q <= fin.
Proof.
  intros Hp Hlt. pose proof Hp as (Hr & E1 & E2 & E3). pose proof N_pos.
  destruct (readfile_stripeset_covers maxU secondary round (Z.to_nat N) 0
    (mkLoop pos (fin - pos) ((pos / 2 ^ k) mod N) (maxUsedTargetIndex l) (iterCopy l)) pos)
    as (l' & sts & q & E & [Hq _] & Hc & Hl & He); [done|].
  destruct (communicate_covers pos q round sts Hc) as (Hc' & Hl' & _).
  destruct (covers_total k (vlist v) buf start fin (striped_k (Striped := HS)) _ _ _ Hc')
    as (Hqt & Ht & Hpos & Hle). specialize (Hle ltac:(lia)).
  exists l', sts, q. split_and!; try done; [|lia|].
  - intros Hs. destruct (He Hs) as [|[|]]; [lia|lia|done].
  - intros Hs. rewrite Hqt. assert (0 < total (communicate netResult round sts)); [|lia].
    apply Hpos. intros E0. apply Hs, length_zero_iff_nil. by rewrite <- Hl', E0.
Qed.

Lemma readfile_rounds_covers maxU secondary fuel round l pos :
  at_range pos l -> fin - pos <= Z.of_nat fuel -> exists ret maxU' rounds q,
    readfile_rounds bs alloc netResult fuel round (mkIO p maxU (of_blocks bs ws)) v secondary
      (fin - start) (pos - start) l = Done (ret, maxU', rounds) /\
    covers pos q (concat rounds) /\ Forall (fun r => (length r <= Z.to_nat N)%nat) rounds /\
    read_result round (pos - start) ret q rounds.
Proof.
  revert round l pos. induction fuel as [|fuel IH]; intros round l pos Hp Hf.
  all: cbn [readfile_rounds]; pose proof Hp as (Hr & E1 & E2 & E3); rewrite E2.
  all: destruct (Z.eqb_spec (fin - pos) 0) as [Hz|Hz]; [|try lia].
  1,2: eexists _, _, [], pos; split_and!; [done|constructor|constructor|left; split_and!; [constructor|lia..]].
  pose proof (pow2_range k (striped_k (Striped := HS))).
  rewrite E1. cbn [io_pattern]. rewrite (striped_index (Striped := HS)) by lia. cfs_simpl.
  rewrite numStripe. pose proof (idx_range pos) as Hi. unfold stripe_index in Hi. rewrite u32_id by lia.
  destruct (readfile_round maxU secondary round l pos Hp ltac:(lia))
    as (l' & sts & q & -> & Hq & He & Hc & Hl & Hlt & Hqt & Hle). cfs_simpl.
  case_bool_decide as Hs.
  { eexists _, _, [], pos. split_and!; [done|constructor|constructor|].
    right; right. rewrite Nat.add_0_r. split_and!; [constructor|lia|auto|done]. }
  specialize (Hlt Hs). set (res := communicate netResult round sts) in *.
  destruct (first_failed res) as [Hok|(pre & st & post & Eres & Hpre & Hst)].
  - pose proof (readfile_verify_ok pos q res [] (pos - start) Hc Hok ltac:(lia) ltac:(lia)) as Ev.
    rewrite app_nil_r in Ev. rewrite Ev. cbn [readfile_verify].
    destruct (IH (S round) (mkLoop (currentOffset l') (toBeDone l') 0 (maxUsedTargetIndex l') (iterCopy l')) q)
      as (ret & mU & rounds & q' & E & Hc'' & Hl'' & Hres); [exact Hq|lia|].
    replace (pos - start + total res) with (q - start) by lia. rewrite E. cfs_simpl.
    eexists ret, mU, (res :: rounds), q'. split_and!; [done|by eapply covers_app|by constructor|].
    apply read_result_cons; [done|]. by replace (pos - start + total res) with (q - start) by lia.
  - pose proof Hc as Hc'. rewrite Eres in Hc'. apply covers_app_inv in Hc' as (qp & Hcp & Hcs).
    destruct (covers_total k (vlist v) buf start fin (striped_k (Striped := HS)) _ _ _ Hcp)
      as (Hqp & Htp & _ & Hqle). specialize (Hqle ltac:(lia)).
    rewrite Eres, (readfile_verify_ok pos qp) by (done || lia).
    pose proof (readfile_verify_failed st post (pos - start + total pre) Hst) as Ev.
    destruct (readfile_verify (st :: post) _) as [u' o]. simpl in Ev. subst o.
    rewrite readfile_rounds_stop by done. cfs_simpl. rewrite <- Eres.
    eexists _, _, [res], q. split_and!; [done|by rewrite concat_cons, app_nil_r|by constructor|].
    right; left. exists [], pre, st, post. split_and!; [by rewrite Eres|constructor|done|done|done].
Qed.
End FixedStore.

(** ** The rounds of a write *)

(** The starts of the requests after which [firstWriteDone] is set: up to the first
    whose result is not as expected, and that one as well unless its result is
    larger than expected. *)
Fixpoint acknowledged (pos : Z) (sts : list FileState) : list Z :=
  match sts with
  | [] => []
  | st :: rest =>
      if nodeResult st <=? fs_expectedNodeResult st
      then pos :: (if fs_expectedNodeResult st =? nodeResult st
                   then acknowledged (pos + fs_expectedNodeResult st) rest else [])
      else []
  end.

(** The bits of [ws'] are those of [ws] and those of the targets of [acks]. *)
Definition marks (ws ws' : list Z) (acks : list Z) : Prop :=
  blocks_wf bs ws' /\ length ws' = length ws /\
  forall j, 0 <= j < Z.of_nat (length ws) * (bs * 8) ->
    Z.testbit (bits_val bs ws') j = Z.testbit (bits_val bs ws) j || existsb (fun a => idx a =? j) acks.

Lemma marks_nil ws : blocks_wf bs ws -> marks ws ws [].
Proof. intros. split_and!; [done..|]. intros. by rewrite orb_false_r. Qed.

Lemma marks_trans ws1 ws2 ws3 a b : marks ws1 ws2 a -> marks ws2 ws3 b -> marks ws1 ws3 (a ++ b).
Proof.
  intros (H1 & H2 & H3) (H4 & H5 & H6). split_and!; [done|congruence|]. intros j Hj.
  rewrite H6, H3 by (rewrite ?H2; lia). by rewrite existsb_app, orb_assoc.
Qed.

Lemma marks_one ws pos i :
  blocks_wf bs ws -> i = idx pos -> exists ws',
    BitStore_setBit bs (of_blocks bs ws) i true = Done (of_blocks bs ws') /\ marks ws ws' [pos].
Proof.
  intros Hw ->. pose proof (idx_range pos).
  destruct (setBit_bits bs Hbs ws (idx pos) true Hw ltac:(lia)) as (ws' & E & Hw' & Hl & Hb).
  exists ws'. split; [done|]. split; [done|]. split; [done|]. intros j Hj. rewrite Hb by lia. simpl. rewrite orb_false_r.
  rewrite (Z.eqb_sym j). destruct (Z.eqb_spec (idx pos) j) as [<-|].
  - rewrite (proj2 (Z.ltb_lt _ _)) by lia. by rewrite orb_true_r.
  - simpl. by rewrite orb_false_r.
Qed.

(** What a verification reports: everything written, or how far it got. *)
Definition verify_result (sts : list FileState) (out : Z) (ok : bool) (val : Z) : Prop :=
  (Forall as_expected sts /\ ok = true /\ val = out + total sts) \/
  (exists pre st post, sts = pre ++ st :: post /\ Forall as_expected pre /\ ~ as_expected st /\
     ok = false /\
     val = if nodeResult st <? 0 then nodeResult st
           else if nodeResult st <=? fs_expectedNodeResult st then out + total pre + nodeResult st
           else out + total pre).

Lemma verify_result_cons st sts out ok val :
  as_expected st -> verify_result sts (out + fs_expectedNodeResult st) ok val ->
  verify_result (st :: sts) out ok val.
Proof.
  intros Hst [(H1 & H2 & H3)|(pre & st' & post & -> & H1 & H2 & H3 & H4)].
  - left. split_and!; [by constructor|done|]. simpl. lia.
  - right. exists (st :: pre), st', post. split_and!; [done|by constructor|done|done|].
    rewrite H4. simpl. by rewrite !Z.add_assoc.
Qed.

Lemma writefileVerify_spec first pos q sts i out ws :
  covers pos q sts -> blocks_wf bs ws -> 0 <= first < N -> 0 <= i -> i + Z.of_nat (length sts) <= N ->
  (pos < fin -> (first + i) mod N = idx pos) -> 0 <= out -> out + total sts < 2 ^ 63 ->
  exists ok val ws',
    __FhgfsOpsRemoting_writefileVerify bs first N sts i out (of_blocks bs ws) =
      Done (ok, val, of_blocks bs ws') /\
    marks ws ws' (acknowledged pos sts) /\ verify_result sts out ok val.
Proof.
  intros Hc. revert i out ws. induction Hc as [q|pos q st sts Hp Hr Hc IH];
    intros i out ws Hw Hf Hi Hlen Hidx Ho Hb; cbn [__FhgfsOpsRemoting_writefileVerify acknowledged].
  { exists true, out, ws. split_and!; [done|by apply marks_nil|left; split_and!; [constructor|done|simpl; lia]]. }
  simpl in Hlen, Hb. pose proof (room_range k (striped_k (Striped := HS)) pos) as Hroom.
  destruct (covers_total k (vlist v) buf start fin (striped_k (Striped := HS)) _ _ _ Hc)
    as (_ & Ht & _ & _). pose proof Hr as (_ & _ & He & _). set (e := fs_expectedNodeResult st) in *.
  destruct (Z.leb_spec (nodeResult st) e) as [Hle|Hgt].
  - rewrite (u32_id (first + i)) by lia. destruct (marks_one ws pos ((first + i) mod N) Hw (Hidx Hp)) as (w1 & -> & Hm).
    cfs_simpl. destruct (Z.eqb_spec e (nodeResult st)) as [Heq|Hne].
    + rewrite <- Heq. rewrite s64_id, u32_id by lia.
      destruct (IH (i + 1) (out + e) w1) as (ok & val & w2 & E & Hm2 & Hv2); try (apply Hm || lia).
      { intros Hlt. rewrite He, Z.min_l in * by lia.
        rewrite stripe_index_next by (apply (striped_ids (Striped := HS)) || apply (striped_k (Striped := HS))).
        rewrite <- (Hidx Hp), Z.add_mod_idemp_l by lia. f_equal. lia. }
      exists ok, val, w2. split_and!; [done|by apply (marks_trans _ w1 _ [pos])|].
      apply verify_result_cons; [by symmetry|done].
    + destruct (Z.leb_spec 0 (nodeResult st)) as [H0|H0].
      all: eexists _, _, w1; split_and!; [done|done|].
      all: right; exists [], st, sts; split_and!; [done|constructor|by intros E; apply Hne|done|].
      * rewrite (proj2 (Z.ltb_ge _ _)), (proj2 (Z.leb_le _ _)) by lia. rewrite s64_id by lia. simpl. lia.
      * by rewrite (proj2 (Z.ltb_lt _ _)) by lia.
  - cfs_simpl. rewrite (proj2 (Z.eqb_neq e _)) by lia. rewrite (proj2 (Z.leb_le 0 _)) by lia.
    eexists _, _, ws. split_and!; [done|by apply marks_nil|].
    right. exists [], st, sts. split_and!; [done|constructor|unfold as_expected; lia|done|].
    rewrite (proj2 (Z.ltb_ge _ _)), (proj2 (Z.leb_gt _ _)) by lia. simpl. lia.
Qed.

Lemma acknowledged_app pos q sts1 sts2 :
  covers pos q sts1 -> Forall as_expected sts1 ->
  acknowledged pos (sts1 ++ sts2) = acknowledged pos sts1 ++ acknowledged q sts2.
Proof.
  intros Hc. induction Hc as [q|pos q st sts Hp Hr Hc IH]; intros Hf; [done|].
  inversion Hf as [|? ? Hst Hsts]; subst. simpl. rewrite Hst, Z.leb_refl, Z.eqb_refl.
  simpl. by rewrite IH.
Qed.

(** How a write can end.  Only the bytes of the last round count in the return value
    of a write that fails. *)
Definition write_result (ret q : Z) (rounds : list (list FileState)) : Prop :=
  (Forall as_expected (concat rounds) /\ q = fin /\ ret = fin - start) \/
  (exists before pre st post, rounds = before ++ [pre ++ st :: post] /\
     Forall as_expected (concat before) /\ Forall as_expected pre /\ ~ as_expected st /\
     ret = if nodeResult st <? 0 then nodeResult st
           else if nodeResult st <=? fs_expectedNodeResult st then total pre + nodeResult st
           else total pre).

Lemma write_result_cons ret q res rest :
  Forall as_expected res -> write_result ret q rest -> write_result ret q (res :: rest).
Proof.
  intros Hf [(H1 & H2 & H3)|(b & pre & st & post & -> & H1 & H2 & H3 & ->)].
  - left. split_and!; [by apply Forall_app|done|done].
  - right. exists (res :: b), pre, st, post. split_and!; try done. by apply Forall_app.
Qed.

Context (Halloc : forall round, alloc round 0 = true).

Lemma writefile_round ws maxU serialize round l pos :
  blocks_wf bs ws -> at_range pos l -> pos < fin -> exists l' sts q,
    writefile_stripeset bs alloc round (mkIO p maxU (of_blocks bs ws)) v serialize (Z.to_nat N) 0
      (mkLoop pos (fin - pos) (idx pos) (maxUsedTargetIndex l) (iterCopy l)) = Done (l', sts) /\
    at_range q l' /\ covers pos q (communicate netResult round sts) /\
    (length (communicate netResult round sts) <= if serialize then 1 else Z.to_nat N)%nat /\
    pos < q /\ q = pos + total (communicate netResult round sts) /\ q <= fin.
Proof.
  intros Hw Hp Hlt. pose proof Hp as (Hr & E1 & E2 & E3). pose proof N_pos.
  destruct (writefile_stripeset_covers ws Hw maxU serialize round (Z.to_nat N) 0
    (mkLoop pos (fin - pos) (idx pos) (maxUsedTargetIndex l) (iterCopy l)) pos)
    as (l' & sts & q & E & [Hq _] & Hc & Hl & He); [done|].
  destruct (communicate_covers pos q round sts Hc) as (Hc' & Hl' & _).
  destruct (covers_total k (vlist v) buf start fin (striped_k (Striped := HS)) _ _ _ Hc')
    as (Hqt & Ht & Hpos & Hle). specialize (Hle ltac:(lia)).
  exists l', sts, q. split_and!; try done; [by rewrite Hl'|].
  rewrite Hqt. assert (0 < total (communicate netResult round sts)); [|lia].
  apply Hpos. intros E0. rewrite E0 in Hl'. symmetry in Hl'. apply length_zero_iff_nil in Hl'.
  destruct (He Hl') as [|[|Ha]]; [lia|lia|]. by rewrite Halloc in Ha.
Qed.

Lemma writefile_rounds_covers (serialize : bool) fuel round ws maxU l pos :
  blocks_wf bs ws -> at_range pos l -> fin - pos <= Z.of_nat fuel ->
  exists ret maxU' ws' rounds q,
    writefile_rounds bs alloc netResult fuel round (mkIO p maxU (of_blocks bs ws)) v serialize
      (fin - start) l = Done (ret, mkIO p maxU' (of_blocks bs ws'), rounds) /\
    covers pos q (concat rounds) /\
    Forall (fun r => (length r <= if serialize then 1 else Z.to_nat N)%nat) rounds /\
    marks ws ws' (acknowledged pos (concat rounds)) /\ write_result ret q rounds.
Proof.
  revert round ws l pos. induction fuel as [|fuel IH]; intros round ws l pos Hw Hp Hf.
  all: cbn [writefile_rounds]; pose proof Hp as (Hr & E1 & E2 & E3); rewrite E2.
  all: destruct (Z.eqb_spec (fin - pos) 0) as [Hz|Hz]; [|try lia].
  1,2: eexists _, _, ws, [], pos; split_and!;
    [done|constructor|constructor|by apply marks_nil|left; split_and!; [constructor|lia..]].
  pose proof (pow2_range k (striped_k (Striped := HS))).
  rewrite E1. cbn [io_pattern]. rewrite (striped_index (Striped := HS)) by lia. cfs_simpl.
  rewrite numStripe. change ((pos / 2 ^ k) mod N) with (idx pos). pose proof (idx_range pos) as Hi.
  rewrite u32_id by lia.
  destruct (writefile_round ws maxU serialize round l pos Hw Hp ltac:(lia))
    as (l' & sts & q & -> & Hq & Hc & Hl & Hlt & Hqt & Hle). cfs_simpl.
  set (res := communicate netResult round sts) in *. cbn [io_firstWriteDone].
  destruct (writefileVerify_spec (idx pos) pos q res 0 0 ws Hc Hw) as (ok & val & w1 & -> & Hm & Hvr);
    try (done || lia).
  { destruct serialize; pose proof N_pos; lia. }
  { intros _. rewrite Z.add_0_r. by apply Z.mod_small. }
  cfs_simpl. destruct Hvr as [(Hok & -> & ->)|(pre & st & post & Eres & Hpre & Hst & -> & ->)]; cbn [negb].
  - destruct (IH (S round) w1 l' q) as (ret & mU & w2 & rounds & q' & E & Hc'' & Hl'' & Hm'' & Hres);
      [apply Hm|exact Hq|lia|].
    cbn [io_pattern io_maxUsedTargetIndex]. rewrite E. cfs_simpl. eexists ret, mU, w2, (res :: rounds), q'.
    split_and!; [done|by eapply covers_app|by constructor| |by apply write_result_cons].
    rewrite concat_cons, (acknowledged_app pos q) by done. by eapply marks_trans.
  - eexists _, _, w1, [res], q. rewrite concat_cons, app_nil_r. split_and!; [done|done|by constructor|done|].
    right. exists [], pre, st, post. split_and!; [by rewrite Eres|constructor|done|done|done].
Qed.
End Loops.

(** ** Properties *)

(** C14: the position of a byte on its storage server.  For a power-of-two chunk size,
    the shift or division of [__FhgfsOpsRemoting_getChunkOffset] computes the three
    lines its comment gives as the definition.  Together with the target's index the
    result determines the file position: no two bytes of a file share a place, and
    every place of every target is used. *)
Theorem chunk_offset_bijective (k n pos : Z) :
  0 <= k < 32 -> 0 < n < 2 ^ 32 -> 0 <= pos < 2 ^ 63 ->
  let chunkSize := 2 ^ k in
  let index q := (q / chunkSize) mod n in
  let getChunkOffset q := __FhgfsOpsRemoting_getChunkOffset q chunkSize n (index q) in
  getChunkOffset pos =
    Done ((pos - pos mod chunkSize - index pos * chunkSize) / n + pos mod chunkSize) /\
  (forall q, 0 <= q < 2 ^ 63 -> index q = index pos -> getChunkOffset q = getChunkOffset pos -> q = pos) /\
  (forall i off, 0 <= i < n -> 0 <= off -> file_position k n i off < 2 ^ 63 ->
     getChunkOffset (file_position k n i off) = Done off /\ index (file_position k n i off) = i).
Proof.
  intros Hk Hn Hp chunkSize index getChunkOffset. subst chunkSize index getChunkOffset. cbn beta.
  pose proof (pow2_range k Hk). rewrite chunk_offset by done. split_and!.
  - unfold local_offset. do 2 f_equal. rewrite <- Z.div_div by lia.
    pose proof (Z.div_mod pos (2 ^ k) ltac:(lia)) as Hd.
    pose proof (Z.div_mod (pos / 2 ^ k) n ltac:(lia)) as Hq.
    replace (pos - pos mod 2 ^ k - (pos / 2 ^ k) mod n * 2 ^ k) with (pos / 2 ^ k / n * 2 ^ k * n) by nia.
    by rewrite Z.div_mul by lia.
  - intros q Hq Hi E. rewrite chunk_offset in E by done. injection E as E.
    rewrite <- (file_position_local k n q), <- (file_position_local k n pos) by lia. congruence.
  - intros i off Hi Ho Hb. destruct (local_file_position k n i off Hk Hi) as [E1 E2].
    split; [|done]. assert (0 <= file_position k n i off).
    { unfold file_position. pose proof (Z.div_pos off (2 ^ k) Ho ltac:(lia)).
      pose proof (Z.mod_pos_bound off (2 ^ k) ltac:(lia)). nia. }
    rewrite chunk_offset by lia. by rewrite E1.
Qed.

Lemma chunk_offset_bijective_witness :
  __FhgfsOpsRemoting_getChunkOffset 4000000 (2 ^ 19) 3 ((4000000 / 2 ^ 19) mod 3) =
    Done ((4000000 - 4000000 mod 2 ^ 19 - (4000000 / 2 ^ 19) mod 3 * 2 ^ 19) / 3 + 4000000 mod 2 ^ 19).
Proof.
  destruct (chunk_offset_bijective 19 3 4000000 ltac:(lia) ltac:(lia) ltac:(lia)) as [E _].
  exact E.
Defined.

(** C1: a striped read.  Whatever the servers answer and whichever allocations fail,
    [FhgfsOpsRemoting_readfileVec] ends without a fault.  Its requests are, in order
    and without gap or overlap, for the bytes from [offset] on, each to the target,
    the place there and the part of the buffer that belong to the bytes, and at most
    one per target is in flight.  It returns the requested size if the
    requests reach the end and all results are as expected; at the first other
    result, the error if it is negative, else the bytes up to there; or out-of-memory,
    if the first allocation of a round failed. *)
Theorem readfileVec_spec (bs : Z) (alloc : nat -> nat -> bool)
    (netResult : nat -> list FileState -> nat -> Z) (p : StripePattern) (v : Vec) (k : Z)
    (ws : list Z) (maxU : Z) (iter : iov_iter) (offset : Z) (secondary : bool) :
  bs = 4 \/ bs = 8 -> blocks_wf bs ws ->
  Striped p (vlist v) k -> getStripeTargetIDs p = Some v -> vec_wf v ->
  Z.of_nat (length (vlist v)) < 2 ^ 31 ->
  0 <= offset -> 0 <= iter_count iter -> offset + iter_count iter <= 2 ^ 63 - 2 ^ k ->
  let fin := offset + iter_count iter in
  exists ret maxU' rounds q,
    FhgfsOpsRemoting_readfileVec bs alloc netResult iter offset (mkIO p maxU (of_blocks bs ws))
      secondary = Done (ret, maxU', rounds) /\
    covers k (vlist v) (iter_pos iter) offset fin offset q (concat rounds) /\
    Forall (fun r => (length r <= length (vlist v))%nat) rounds /\
    ((Forall as_expected (concat rounds) /\ q = fin /\ ret = iter_count iter) \/
     (exists before pre st post, rounds = before ++ [pre ++ st :: post] /\
        Forall as_expected (concat before ++ pre) /\ ~ as_expected st /\
        ret = if 0 <=? nodeResult st then s64 (total (concat before ++ pre) + nodeResult st)
              else nodeResult st) \/
     (Forall as_expected (concat rounds) /\ q < fin /\ alloc (length rounds) 0%nat = false /\
      ret = - FhgfsOpsErr_OUTOFMEM)).
Proof.
  intros Hbs Hw HS Hids Hv Hn Ho Hc Hb fin. pose proof (pow2_range k (striped_k (Striped := HS))).
  destruct iter as [ip ic]. cbn [iter_count iter_pos] in *.
  unfold FhgfsOpsRemoting_readfileVec, stripe_ids. cbn [io_pattern iter_count]. rewrite Hids. cfs_simpl.
  destruct (readfile_rounds_covers bs Hbs alloc netResult p v k HS Hv Hn ip offset fin
    ltac:(lia) ltac:(lia) ws Hw maxU secondary (Z.to_nat ic) 0 (mkLoop offset ic 0 maxU (mkIter ip ic))
    offset) as (ret & mU & rounds & q & E & Hcov & Hlen & Hres).
  { unfold at_range. cbn. split_and!; try lia. f_equal; lia. }
  { lia. }
  replace (fin - offset) with ic in E by lia. rewrite Z.sub_diag in *.
  rewrite s64_id by lia. exists ret, mU, rounds, q. rewrite Nat2Z.id in Hlen.
  split_and!; [exact E|done|done|].
  destruct Hres as [(H1 & H2 & H3)|[(b & pre & st & post & H1 & H2 & H3 & H4 & H5)|H1]].
  - left. split_and!; [done|done|lia].
  - right; left. exists b, pre, st, post. split_and!; [done|by apply Forall_app|done|done].
  - right; right. exact H1.
Qed.

(** A RAID 0 file over three targets with chunks of 4 bytes, and servers that do what
    is asked up to round [r], and then handle one byte per request. *)
Definition p_ex : StripePattern := Raid0Pattern (mkSP STRIPEPATTERN_Raid0 4 0) vec_ex 4.
Definition net_ex (r : nat) (round : nat) (sts : list FileState) (i : nat) : Z :=
  if Nat.ltb round r then from_option fs_expectedNodeResult 0 (sts !! i) else 1.

Lemma p_ex_striped : Striped p_ex (vlist vec_ex) 2.
Proof. apply (raid0_striped _ vec_ex 4 2); [lia|done|apply vec_ex_wf|done]. Qed.

Lemma readfileVec_spec_witness : exists ret maxU rounds q,
  FhgfsOpsRemoting_readfileVec 8 (fun _ _ => true) (net_ex 1) (mkIter 0 30) 6
    (mkIO p_ex (-1) (of_blocks 8 [0])) false = Done (ret, maxU, rounds) /\
  covers 2 [7; 8; 9] 0 6 36 6 q (concat rounds).
Proof.
  destruct (readfileVec_spec 8 (fun _ _ => true) (net_ex 1) p_ex vec_ex 2 [0] (-1) (mkIter 0 30) 6 false
    ltac:(by right) ltac:(split_and!; [done|by repeat constructor|by vm_compute]) p_ex_striped
    eq_refl vec_ex_wf ltac:(by vm_compute) ltac:(lia) ltac:(by vm_compute) ltac:(by vm_compute))
    as (ret & maxU & rounds & q & E & Hc & _).
  exists ret, maxU, rounds, q. split; [exact E|exact Hc].
Defined.

Lemma readfileVec_short :
  (fun r => r.1.1) <$> FhgfsOpsRemoting_readfileVec 8 (fun _ _ => true) (net_ex 1) (mkIter 0 30) 6
    (mkIO p_ex (-1) (of_blocks 8 [0])) false = Done 11.
Proof. by vm_compute. Qed.

(** C2: a striped write.  If the first allocation of a round succeeds (the state pool
    guarantees it), [FhgfsOpsRemoting_writefileVec] ends without a fault, whatever the
    servers answer.  Its requests cover the range like those of a read, with at most
    one per round if writes are serialized.  It returns the size if all was written;
    at the first unexpected result, the error if it is negative, else the bytes
    written {e in that round}.  [firstWriteDone] gains exactly the bits of the targets
    up to the unexpected result. *)
Theorem writefileVec_spec (bs : Z) (alloc : nat -> nat -> bool)
    (netResult : nat -> list FileState -> nat -> Z) (p : StripePattern) (v : Vec) (k : Z)
    (ws : list Z) (maxU : Z) (iter : iov_iter) (offset : Z) (serializeWrites : bool) :
  bs = 4 \/ bs = 8 -> blocks_wf bs ws ->
  Striped p (vlist v) k -> getStripeTargetIDs p = Some v -> vec_wf v ->
  Z.of_nat (length (vlist v)) < 2 ^ 31 ->
  0 <= offset -> 0 <= iter_count iter -> offset + iter_count iter <= 2 ^ 63 - 2 ^ k ->
  (forall round, alloc round 0%nat = true) ->
  let fin := offset + iter_count iter in
  exists ret maxU' ws' rounds q,
    FhgfsOpsRemoting_writefileVec bs alloc netResult iter offset (mkIO p maxU (of_blocks bs ws))
      serializeWrites = Done (ret, mkIO p maxU' (of_blocks bs ws'), rounds) /\
    covers k (vlist v) (iter_pos iter) offset fin offset q (concat rounds) /\
    Forall (fun r => (length r <= if serializeWrites then 1 else length (vlist v))%nat) rounds /\
    marks bs v k ws ws' (acknowledged offset (concat rounds)) /\
    ((Forall as_expected (concat rounds) /\ q = fin /\ ret = iter_count iter) \/
     (exists before pre st post, rounds = before ++ [pre ++ st :: post] /\
        Forall as_expected (concat before ++ pre) /\ ~ as_expected st /\
        ret = if nodeResult st <? 0 then nodeResult st
              else if nodeResult st <=? fs_expectedNodeResult st then total pre + nodeResult st
              else total pre)).
Proof.
  intros Hbs Hw HS Hids Hv Hn Ho Hc Hb Ha fin. pose proof (pow2_range k (striped_k (Striped := HS))).
  destruct iter as [ip ic]. cbn [iter_count iter_pos] in *.
  unfold FhgfsOpsRemoting_writefileVec, stripe_ids. cbn [io_pattern iter_count]. rewrite Hids. cfs_simpl.
  destruct (writefile_rounds_covers bs Hbs alloc netResult p v k HS Hv Hn ip offset fin
    ltac:(lia) ltac:(lia) Ha serializeWrites (Z.to_nat ic) 0 ws maxU
    (mkLoop offset ic 0 maxU (mkIter ip ic)) offset Hw)
    as (ret & mU & ws' & rounds & q & E & Hcov & Hlen & Hm & Hres).
  { unfold at_range. cbn. split_and!; try lia. f_equal; lia. }
  { lia. }
  replace (fin - offset) with ic in E by lia. rewrite s64_id by lia. rewrite Nat2Z.id in Hlen.
  exists ret, mU, ws', rounds, q. split_and!; [exact E|done|done|done|].
  destruct Hres as [(H1 & H2 & H3)|(b & pre & st & post & H1 & H2 & H3 & H4 & H5)].
  - left. split_and!; [done|done|lia].
  - right. exists b, pre, st, post. split_and!; [done|by apply Forall_app|done|done].
Qed.

Lemma writefileVec_spec_witness : exists ret maxU ws rounds q,
  FhgfsOpsRemoting_writefileVec 8 (fun _ _ => true) (net_ex 1) (mkIter 0 30) 6
    (mkIO p_ex (-1) (of_blocks 8 [0])) false = Done (ret, mkIO p_ex maxU (of_blocks 8 ws), rounds) /\
  covers 2 [7; 8; 9] 0 6 36 6 q (concat rounds).
Proof.
  destruct (writefileVec_spec 8 (fun _ _ => true) (net_ex 1) p_ex vec_ex 2 [0] (-1) (mkIter 0 30) 6 false
    ltac:(by right) ltac:(split_and!; [done|by repeat constructor|by vm_compute]) p_ex_striped
    eq_refl vec_ex_wf ltac:(by vm_compute) ltac:(lia) ltac:(by vm_compute) ltac:(by vm_compute)
    ltac:(done))
    as (ret & maxU & ws & rounds & q & E & Hc & _).
  exists ret, maxU, ws, rounds, q. split; [exact E|exact Hc].
Defined.

(** A short write in a later round loses the earlier rounds.  Three targets with
    chunks of 4 bytes take 30 bytes from offset 6 on: the first round writes its
    10 bytes in full, the first server of the second round writes 1 byte.  11 bytes of
    the file are written, and the return value, documented as the number of bytes
    written, is 1. *)
Theorem write_short_round_lost :
  exists io full short rest,
    FhgfsOpsRemoting_writefileVec 8 (fun _ _ => true) (net_ex 1) (mkIter 0 30) 6
      (mkIO p_ex (-1) (of_blocks 8 [0])) false = Done (1, io, [full; short :: rest]) /\
    map nodeResult full = [2; 4; 4] /\ map fs_expectedNodeResult full = [2; 4; 4] /\
    nodeResult short = 1 /\ fs_expectedNodeResult short = 4.
Proof. do 4 eexists. split_and!; [by vm_compute|done..]. Qed.
