(* ===== verification/EntryInfo.v ===== *)
(** * Storage records: what identifies an entry and its chunk files

    Models [common/storage/EntryInfo.h/.c], [PathInfo.h/.c], [StatData.h/.c] and the
    serialization of [FileEvent.c].  The type [S] is that of the strings a record
    refers to: their bytes (without the terminating zero) in records the client
    made, and an address in the message for a deserialized record.  Freeing and
    duplicating strings does not change the bytes and leaves no trace here. *)

From S2P Require Import Prelude Serialization SerializationLists.

(** Passing NULL to [strlen]. *)
Definition ser_null : Ser := fun _ _ => Fault.

(** [Serialization_serializeStrAlign4(ctx, strlen(s), s)] *)
Definition ser_strlen_align4 (s : mem) : Ser := Serialization_serializeStrAlign4 (u32 (mlen s)) s.
Definition ser_strlen (s : mem) : Ser := Serialization_serializeStr (u32 (mlen s)) s.

(** ** EntryInfo *)

Definition MIN_ENTRY_ID_LEN : Z := 1.
Definition ENTRYINFO_FEATURE_INLINED : Z := 1.
Definition ENTRYINFO_FEATURE_BUDDYMIRRORED : Z := 2.
Definition DirEntryType_DIRECTORY : Z := 1.

(** The union of [node] and [group] is one number. *)
Record NodeOrGroup := mkOwner { owner_group : Z; owner_isGroup : bool }.

Definition NodeOrGroup_fromNode (node : Z) : NodeOrGroup := mkOwner node false.
Definition NodeOrGroup_fromGroup (group : Z) : NodeOrGroup := mkOwner group true.
Definition NodeOrGroup_valid (id : NodeOrGroup) : bool := negb (owner_group id =? 0).

Record EntryInfo (S : Type) := mkEI {
  ei_owner : NodeOrGroup; ei_parentEntryID : S; ei_entryID : S; ei_fileName : S;
  ei_entryType : Z; ei_featureFlags : Z }.
Arguments mkEI {S}.
Arguments ei_owner {S}.
Arguments ei_parentEntryID {S}.
Arguments ei_entryID {S}.
Arguments ei_fileName {S}.
Arguments ei_entryType {S}.
Arguments ei_featureFlags {S}.

Definition EntryInfo_init {S} (owner : NodeOrGroup) (parentEntryID entryID fileName : S)
    (entryType featureFlags : Z) : EntryInfo S :=
  mkEI owner parentEntryID entryID fileName entryType
    (Z.lor featureFlags (if owner_isGroup owner then ENTRYINFO_FEATURE_BUDDYMIRRORED else 0)).

Definition EntryInfo_update {S} (this newEntryInfo : EntryInfo S) : EntryInfo S :=
  mkEI (if negb (ei_entryType this =? DirEntryType_DIRECTORY) then ei_owner newEntryInfo
        else ei_owner this)
    (ei_parentEntryID newEntryInfo) (ei_entryID this) (ei_fileName newEntryInfo)
    (ei_entryType this) (ei_featureFlags newEntryInfo).

Definition EntryInfo_updateParentEntryID {S} (this : EntryInfo S) (newParentID : S) : EntryInfo S :=
  mkEI (ei_owner this) newParentID (ei_entryID this) (ei_fileName this) (ei_entryType this)
    (ei_featureFlags this).

Definition EntryInfo_updateFileName {S} (this : EntryInfo S) (newFileName : S) : EntryInfo S :=
  mkEI (ei_owner this) (ei_parentEntryID this) (ei_entryID this) newFileName (ei_entryType this)
    (ei_featureFlags this).

Definition EntryInfo_getIsBuddyMirrored {S} (this : EntryInfo S) : bool :=
  negb (Z.land (ei_featureFlags this) ENTRYINFO_FEATURE_BUDDYMIRRORED =? 0).

Definition EntryInfo_serialize (this : EntryInfo mem) : Ser :=
  Serialization_serializeUInt (ei_entryType this) ;;;
  Serialization_serializeInt (ei_featureFlags this) ;;;
  ser_strlen_align4 (ei_parentEntryID this) ;;;
  ser_strlen_align4 (ei_entryID this) ;;;
  ser_strlen_align4 (ei_fileName this) ;;;
  NumNodeID_serialize (owner_group (ei_owner this)) ;;;
  Serialization_serializeUShort 0.

Definition EntryInfo_deserialize : Des (EntryInfo Z) :=
  entryType ← Serialization_deserializeUInt;
  featureFlags ← Serialization_deserializeInt;
  '(parentEntryIDLen, parentEntryID) ← Serialization_deserializeStrAlign4;
  '(entryIDLen, entryID) ← Serialization_deserializeStrAlign4;
  '(fileNameLen, fileName) ← Serialization_deserializeStrAlign4;
  node ← NumNodeID_deserialize;
  _ ← Serialization_deserializeUShort;
  if (parentEntryIDLen <? MIN_ENTRY_ID_LEN) && (0 <? parentEntryIDLen) then des_fail
  else if entryIDLen <? MIN_ENTRY_ID_LEN then des_fail
  else mret (mkEI
    (mkOwner node (negb (Z.land featureFlags ENTRYINFO_FEATURE_BUDDYMIRRORED =? 0)))
    parentEntryID entryID fileName entryType featureFlags).

(** ** PathInfo *)

Definition PATHINFO_FEATURE_ORIG : Z := 1.
Definition PATHINFO_FEATURE_ORIG_UNKNOWN : Z := 2.

(** [None] is the NULL pointer. *)
Record PathInfo (S : Type) := mkPI {
  pi_flags : Z; pi_origParentUID : Z; pi_origParentEntryID : option S }.
Arguments mkPI {S}.
Arguments pi_flags {S}.
Arguments pi_origParentUID {S}.
Arguments pi_origParentEntryID {S}.

Definition PathInfo_setFlags {S} (this : PathInfo S) (flags : Z) : PathInfo S :=
  mkPI flags (pi_origParentUID this) (pi_origParentEntryID this).
Definition PathInfo_setOrigUID {S} (this : PathInfo S) (origParentUID : Z) : PathInfo S :=
  mkPI (pi_flags this) origParentUID (pi_origParentEntryID this).
Definition PathInfo_setOrigParentEntryID {S} (this : PathInfo S) (id : option S) : PathInfo S :=
  mkPI (pi_flags this) (pi_origParentUID this) id.

Definition PathInfo_init {S} (this : PathInfo S) (origParentUID : Z) (origParentEntryID : option S)
    (flags : Z) : PathInfo S :=
  PathInfo_setFlags (PathInfo_setOrigParentEntryID (PathInfo_setOrigUID this origParentUID)
    origParentEntryID) flags.

Definition has_orig (flags : Z) : bool := negb (Z.land flags PATHINFO_FEATURE_ORIG =? 0).

Definition PathInfo_dup {S} (inPathInfo outPathInfo : PathInfo S) : PathInfo S :=
  PathInfo_init outPathInfo (pi_origParentUID inPathInfo)
    (if has_orig (pi_flags inPathInfo) then pi_origParentEntryID inPathInfo else None)
    (pi_flags inPathInfo).

Definition PathInfo_update (this newPathInfo : PathInfo mem) : PathInfo mem :=
  let needUpdate :=
    if negb (pi_flags this =? pi_flags newPathInfo) then true
    else if negb (pi_origParentUID this =? pi_origParentUID newPathInfo) then true
    else match pi_origParentEntryID this, pi_origParentEntryID newPathInfo with
         | Some a, Some b => negb (bool_decide (a = b))
         | _, _ => false
         end in
  if needUpdate then PathInfo_dup newPathInfo this else this.

Definition PathInfo_serialize (this : PathInfo mem) : Ser :=
  Serialization_serializeUInt (pi_flags this) ;;;
  if has_orig (pi_flags this) then
    Serialization_serializeUInt (pi_origParentUID this) ;;;
    match pi_origParentEntryID this with
    | Some s => ser_strlen_align4 s
    | None => ser_null
    end
  else ser_skip.

Definition PathInfo_deserialize : Des (PathInfo Z) :=
  flags ← Serialization_deserializeUInt;
  if has_orig flags then
    origParentUID ← Serialization_deserializeUInt;
    '(_, origParentEntryID) ← Serialization_deserializeStrAlign4;
    mret (mkPI flags origParentUID (Some origParentEntryID))
  else mret (mkPI flags 0 None).

(** ** StatData *)

Record SettableFileAttribs := mkAttribs {
  sa_mode : Z; sa_userID : Z; sa_groupID : Z;
  sa_modificationTimeSecs : Z; sa_lastAccessTimeSecs : Z }.

Record StatData := mkStat {
  st_flags : Z; st_fileSize : Z; st_numBlocks : Z; st_creationTimeSecs : Z;
  st_attribChangeTimeSecs : Z; st_nlink : Z; st_settableFileAttribs : SettableFileAttribs;
  st_contentsVersion : Z }.

Definition StatData_deserialize : Des StatData :=
  flags ← Serialization_deserializeUInt;
  mode ← Serialization_deserializeInt;
  numBlocks ← Serialization_deserializeUInt64;
  creationTimeSecs ← Serialization_deserializeInt64;
  lastAccessTimeSecs ← Serialization_deserializeInt64;
  modificationTimeSecs ← Serialization_deserializeInt64;
  attribChangeTimeSecs ← Serialization_deserializeInt64;
  fileSize ← Serialization_deserializeInt64;
  nlink ← Serialization_deserializeUInt;
  contentsVersion ← Serialization_deserializeUInt;
  userID ← Serialization_deserializeUInt;
  groupID ← Serialization_deserializeUInt;
  mret (mkStat flags fileSize numBlocks creationTimeSecs attribChangeTimeSecs nlink
    (mkAttribs mode userID groupID modificationTimeSecs lastAccessTimeSecs) contentsVersion).

(** ** FileEvent *)

Record FileEvent := mkEvent { ev_eventType : Z; ev_path : option mem; ev_target : option mem }.

Definition FileEvent_serialize (event : FileEvent) : Ser :=
  Serialization_serializeUInt (ev_eventType event) ;;;
  match ev_path event with
  | Some path => ser_strlen path
  | None => Serialization_serializeStr 0 []
  end ;;;
  Serialization_serializeBool (bool_decide (is_Some (ev_target event))) ;;;
  match ev_target event with
  | Some target => ser_strlen target
  | None => ser_skip
  end.

(** ** Encodings, and reading them back

    An aligned string is only read back when two more bytes follow it, so the
    records that end in one need that much slack. *)

Definition reads_slack {A} (k : Z) (d : Des A) (enc : mem) (res : Z -> A) : Prop :=
  forall m p n,
    0 <= p -> slice m p (mlen enc) = enc -> p + mlen enc <= mlen m ->
    mlen enc + k <= n < 2 ^ 64 ->
    d m (mkDes p n) = Done (Some (res p), mkDes (p + mlen enc) (n - mlen enc)).

Lemma reads_slack_0 {A} (d : Des A) enc res : reads_slack 0 d enc res <-> Reads d enc res.
Proof.
  split.
  - intros H. split. intros. apply H; auto; lia.
  - intros [H] m p n ? ? ? ?. apply H; auto; lia.
Qed.

Lemma reads_slack_weaken {A} k k' (d : Des A) enc res :
  k <= k' -> reads_slack k d enc res -> reads_slack k' d enc res.
Proof. intros Hk H m p n ? ? ? ?. apply H; auto; lia. Qed.

Lemma reads_slack_exact {A} (d : Des A) enc res : Reads d enc res -> reads_slack 0 d enc res.
Proof. apply reads_slack_0. Qed.

(** The rest of a message: [e] at the read pointer and [k] more bytes. *)
Definition rest_is (m : mem) (p n : Z) (e : mem) (k : Z) : Prop :=
  holds m p e /\ mlen e + k <= n < 2 ^ 64.

Lemma slack_step {A B} k1 k2 (d : Des A) (f : A -> Des B) e1 e2 r1 m p n X :
  rest_is m p n (e1 ++ e2) k2 -> reads_slack k1 d e1 r1 -> k1 <= mlen e2 + k2 ->
  (rest_is m (p + mlen e1) (n - mlen e1) e2 k2 ->
   f (r1 p) m (mkDes (p + mlen e1) (n - mlen e1)) = X) ->
  (d ≫= f) m (mkDes p n) = X.
Proof.
  intros [H Hn] Hd Hk Hf. apply holds_app in H as [(Hp & Hl & Hs) H2].
  pose proof (mlen_nonneg e1). rewrite mlen_app in Hn.
  unfold mbind, Des_bind. rewrite (Hd m p n) by (done || lia). apply Hf. split; [done|lia].
Qed.

(** One field of a message: the deserializer in front is run by its hint. *)
Ltac read_field :=
  match goal with R : rest_is _ _ _ _ _ |- _ =>
    eapply slack_step; [exact R | solve [eauto with cfs]
      | rewrite ?mlen_app, ?mlen_le2, ?mlen_le4, ?mlen_le8, ?mlen_enc_str_align4;
        repeat match goal with |- context [mlen ?s] =>
          lazymatch goal with H : 0 <= mlen s |- _ => fail | _ => pose proof (mlen_nonneg s) end end;
        repeat match goal with |- context [align_pad ?s] =>
          lazymatch goal with H : 0 <= align_pad s < 4 |- _ => fail
          | _ => pose proof (align_pad_range s) end end; lia
      | clear R; intros R; cbn beta iota ]
  end.

#[export] Hint Extern 2 (in_u _ _) => (unfold in_u; lia) : cfs.

(** Aligned strings are read where two bytes follow. *)
Lemma slack_str_align4 s :
  mlen s + 1 < 2 ^ 32 ->
  reads_slack 2 Serialization_deserializeStrAlign4 (enc_str_align4 s) (fun p => (mlen s, p + 4)).
Proof.
  intros Hb m p n Hp Hs Hl Hn. pose proof (mlen_nonneg s).
  pose proof (align_pad_range (mlen s + 1)) as Hpad.
  pose proof (align_pad_spec (mlen s + 1) ltac:(lia)) as Ha.
  pose proof (Z.mod_pos_bound (mlen s + 1) 4 ltac:(lia)).
  destruct (slice_app_inv m p (enc_str s) (replicate (Z.to_nat (align_pad (mlen s + 1))) 0))
    as [S1 _]; [done|exact Hs|exact Hl|].
  rewrite mlen_enc_str_align4 in *.
  rewrite (str_align4_step s) by (first [exact S1 | rewrite ?mlen_enc_str; lia]).
  rewrite mlen_enc_str. cbn [dlength]. cbv zeta.
  destruct (Z.eqb_spec ((mlen s + 1) mod 4) 0) as [E|E].
  - rewrite Ha. do 3 f_equal; lia.
  - destruct (Z.ltb_spec (n - (mlen s + 5)) ((mlen s + 1) mod 4)); [lia|].
    rewrite ctx_advance_ok by lia. do 3 f_equal; lia.
Qed.

#[export] Hint Resolve slack_str_align4 reads_slack_exact : cfs.

(** [str_at m p s]: at [p] lie the bytes of [s] and a zero. *)
Definition str_at (m : mem) (p : Z) (s : mem) : Prop :=
  0 <= p /\ p + mlen s + 1 <= mlen m /\ slice m p (mlen s + 1) = s ++ [0].

Lemma holds_str_at m p s : holds m p (enc_str_align4 s) -> str_at m (p + 4) s.
Proof.
  intros H. unfold enc_str_align4, enc_str in H.
  rewrite <- !app_assoc in H. apply holds_app in H as [H0 H].
  rewrite app_assoc in H. apply holds_app in H as [H _]. rewrite mlen_le4 in H.
  unfold holds in *. rewrite mlen_app, mlen_cons, mlen_nil in H.
  unfold str_at. rewrite mlen_le4 in H0. destruct H as (? & ? & ?), H0 as (? & ? & ?).
  split_and!; [lia|lia|]. by replace (mlen s + 1) with (mlen s + (1 + 0)) by lia.
Qed.

Lemma writes_strlen s :
  mlen s < 2 ^ 32 -> Writes (ser_strlen s) (enc_str s).
Proof.
  intros H. pose proof (mlen_nonneg s). unfold ser_strlen. rewrite u32_id by lia. apply _.
Qed.

Lemma writes_strlen_align4 s :
  mlen s + 1 < 2 ^ 32 -> Writes (ser_strlen_align4 s) (enc_str_align4 s).
Proof.
  intros H. pose proof (mlen_nonneg s). unfold ser_strlen_align4. rewrite u32_id by lia.
  by apply writes_str_align4.
Qed.

#[export] Instance writes_numnodeid v : Writes (NumNodeID_serialize v) (le_split 4 v).
Proof. apply writes_uint. Qed.
Lemma reads_numnodeid v : in_u 32 v -> Reads NumNodeID_deserialize (le_split 4 v) (fun _ => v).
Proof. apply reads_uint. Qed.
#[export] Hint Resolve writes_strlen_align4 writes_numnodeid reads_numnodeid
  writes_strlen writes_seq writes_uint writes_int writes_ushort writes_bool writes_skip
  writes_int64 writes_uint64 : cfs.

(** ** Well-formed records and their encodings *)

Definition entryinfo_wf (e : EntryInfo mem) : Prop :=
  in_u 32 (ei_entryType e) /\ in_s 32 (ei_featureFlags e) /\ in_u 32 (owner_group (ei_owner e)) /\
  owner_isGroup (ei_owner e) = EntryInfo_getIsBuddyMirrored e /\
  mlen (ei_parentEntryID e) + 1 < 2 ^ 32 /\ mlen (ei_entryID e) + 1 < 2 ^ 32 /\
  mlen (ei_fileName e) + 1 < 2 ^ 32 /\ ei_entryID e <> [].

Definition enc_entryinfo (e : EntryInfo mem) : mem :=
  le_split 4 (ei_entryType e) ++ le_split 4 (u32 (ei_featureFlags e)) ++
  enc_str_align4 (ei_parentEntryID e) ++ enc_str_align4 (ei_entryID e) ++
  enc_str_align4 (ei_fileName e) ++ le_split 4 (owner_group (ei_owner e)) ++ le_split 2 0.

(** The record a deserializer at [p] builds: the same with addresses for strings. *)
Definition entryinfo_at (e : EntryInfo mem) (p : Z) : EntryInfo Z :=
  let p1 := p + 8 in
  let p2 := p1 + mlen (enc_str_align4 (ei_parentEntryID e)) in
  let p3 := p2 + mlen (enc_str_align4 (ei_entryID e)) in
  mkEI (ei_owner e) (p1 + 4) (p2 + 4) (p3 + 4) (ei_entryType e) (ei_featureFlags e).

Lemma writes_entryinfo e : entryinfo_wf e -> Writes (EntryInfo_serialize e) (enc_entryinfo e).
Proof.
  intros (_ & _ & _ & _ & ? & ? & ? & _). unfold EntryInfo_serialize, enc_entryinfo.
  repeat (apply writes_seq; [first [apply _ | by apply writes_strlen_align4]|]). apply _.
Qed.

Lemma reads_entryinfo e :
  entryinfo_wf e -> Reads EntryInfo_deserialize (enc_entryinfo e) (entryinfo_at e).
Proof.
  destruct e as [[g b] ps es fs ty fl]. unfold entryinfo_wf, EntryInfo_getIsBuddyMirrored; simpl.
  intros (Hty & Hfl & Hg & Hb & Hps & Hes & Hfs & Hne). apply reads_slack_0.
  intros m p n Hp Hs Hl Hn.
  unfold EntryInfo_deserialize, enc_entryinfo in *; cbn [ei_owner ei_parentEntryID ei_entryID
    ei_fileName ei_entryType ei_featureFlags owner_group owner_isGroup] in *.
  rewrite <- (app_nil_r (le_split 2 0)) in *.
  match type of Hs with slice _ _ (mlen ?e) = _ => assert (rest_is m p n e 0) by done end.

  repeat read_field.
  assert (He : (mlen es <? MIN_ENTRY_ID_LEN) = false).
  { apply Z.ltb_ge. destruct es; [done|]. rewrite mlen_cons. pose proof (mlen_nonneg es).
    unfold MIN_ENTRY_ID_LEN. lia. }
  rewrite He. replace ((mlen ps <? MIN_ENTRY_ID_LEN) && (0 <? mlen ps)) with false.
  2: { symmetry. apply andb_false_iff. unfold MIN_ENTRY_ID_LEN.
       destruct (Z.ltb_spec (mlen ps) 1); [right|by left]. apply Z.ltb_ge. lia. }
  unfold entryinfo_at; cbn [ei_owner ei_parentEntryID ei_entryID ei_fileName ei_entryType
    ei_featureFlags]. unfold mret, Des_ret. rewrite <- Hb, !mlen_app, mlen_nil, !mlen_le4.
  do 3 f_equal; [do 2 f_equal|..]; lia.
Qed.

Definition pathinfo_wf (i : PathInfo mem) : Prop :=
  in_u 32 (pi_flags i) /\
  match has_orig (pi_flags i), pi_origParentEntryID i with
  | true, Some s => in_u 32 (pi_origParentUID i) /\ mlen s + 1 < 2 ^ 32
  | true, None => False
  | false, _ => True
  end.

Definition enc_pathinfo (i : PathInfo mem) : mem :=
  le_split 4 (pi_flags i) ++
  if has_orig (pi_flags i) then
    le_split 4 (pi_origParentUID i) ++ enc_str_align4 (default [] (pi_origParentEntryID i))
  else [].

Definition pathinfo_at (i : PathInfo mem) (p : Z) : PathInfo Z :=
  if has_orig (pi_flags i) then mkPI (pi_flags i) (pi_origParentUID i) (Some (p + 12))
  else mkPI (pi_flags i) 0 None.

Ltac pi_simpl := cbn [pi_flags pi_origParentUID pi_origParentEntryID from_option id].

Lemma writes_pathinfo i : pathinfo_wf i -> Writes (PathInfo_serialize i) (enc_pathinfo i).
Proof.
  destruct i as [fl uid o]. unfold pathinfo_wf, PathInfo_serialize, enc_pathinfo; pi_simpl.
  intros [Hf H]. apply writes_seq; [apply _|]. destruct (has_orig fl); [|apply _].
  destruct o as [s|]; [|done]. apply writes_seq; [apply _|]. by apply (writes_strlen_align4 s), H.
Qed.

(** Stand-alone, a path info needs two more bytes, as its string does. *)
Lemma reads_pathinfo i :
  pathinfo_wf i -> reads_slack 2 PathInfo_deserialize (enc_pathinfo i) (pathinfo_at i).
Proof.
  destruct i as [fl uid o]. unfold pathinfo_wf, pathinfo_at, enc_pathinfo; pi_simpl.
  intros [Hf H] m p n Hp Hs Hl Hn. unfold PathInfo_deserialize.
  match type of Hs with slice _ _ (mlen ?e) = _ => assert (rest_is m p n e 2) by done end.
  clear Hs. destruct (has_orig fl) eqn:E.
  - destruct o as [s|]; [|done]. destruct H. cbn [from_option id] in *. read_field. rewrite E.
    rewrite <- (app_nil_r (enc_str_align4 s)) in *. repeat read_field.
    unfold mret, Des_ret. rewrite !mlen_app, mlen_nil, !mlen_le4. do 3 f_equal; [do 2 f_equal|..]; lia.
  - read_field. rewrite E. unfold mret, Des_ret. rewrite !mlen_app, mlen_nil, !mlen_le4.
    do 2 f_equal; lia.
Qed.

#[export] Hint Resolve reads_entryinfo writes_entryinfo reads_pathinfo writes_pathinfo : cfs.

(** What a received record stands for: the same fields, strings by address. *)
Definition entryinfo_repr (m : mem) (e' : EntryInfo Z) (e : EntryInfo mem) : Prop :=
  ei_owner e' = ei_owner e /\ ei_entryType e' = ei_entryType e /\
  ei_featureFlags e' = ei_featureFlags e /\
  str_at m (ei_parentEntryID e') (ei_parentEntryID e) /\
  str_at m (ei_entryID e') (ei_entryID e) /\ str_at m (ei_fileName e') (ei_fileName e).

Definition pathinfo_repr (m : mem) (i' : PathInfo Z) (i : PathInfo mem) : Prop :=
  pi_flags i' = pi_flags i /\
  if has_orig (pi_flags i) then
    pi_origParentUID i' = pi_origParentUID i /\
    exists q s, pi_origParentEntryID i' = Some q /\ pi_origParentEntryID i = Some s /\ str_at m q s
  else pi_origParentUID i' = 0 /\ pi_origParentEntryID i' = None.

Lemma entryinfo_at_repr m p e : holds m p (enc_entryinfo e) -> entryinfo_repr m (entryinfo_at e p) e.
Proof.
  unfold enc_entryinfo. intros H.
  apply holds_app in H as [_ H]. apply holds_app in H as [_ H]. rewrite !mlen_le4 in H.
  apply holds_app in H as [H1 H]. apply holds_app in H as [H2 H]. apply holds_app in H as [H3 _].
  apply holds_str_at in H1, H2, H3. unfold entryinfo_repr, entryinfo_at; simpl.
  replace (p + 8) with (p + 4 + 4) by lia. done.
Qed.

Lemma pathinfo_at_repr m p i :
  pathinfo_wf i -> holds m p (enc_pathinfo i) -> pathinfo_repr m (pathinfo_at i p) i.
Proof.
  destruct i as [fl uid o]. unfold pathinfo_wf, enc_pathinfo, pathinfo_repr, pathinfo_at; pi_simpl.
  intros [_ Hi] H. destruct (has_orig fl) eqn:E; pi_simpl; rewrite ?E; [|done].
  destruct o as [s|]; [|done]. apply holds_app in H as [_ H]. apply holds_app in H as [_ H].
  rewrite !mlen_le4 in H. apply holds_str_at in H. cbn [from_option id] in H.
  split_and!; [done..|]. exists (p + 12), s. split_and!; [done..|].
  by replace (p + 12) with (p + 4 + 4 + 4) by lia.
Qed.

(** ** Properties *)

Definition serialize_records (e : EntryInfo mem) (i : PathInfo mem) : Ser :=
  EntryInfo_serialize e ;;; PathInfo_serialize i.
Definition deserialize_records : Des (EntryInfo Z * PathInfo Z) :=
  e ← EntryInfo_deserialize; i ← PathInfo_deserialize; mret (e, i).

(** Entry infos and path infos survive the wire.  Written one after the other
    into a buffer with room, both are read back with the same owner (node or
    group), type, flags and user id, and each string pointer addresses the
    zero-terminated bytes of the string that was written; the dry run computes
    the length written.  Two more bytes of the message have to follow, because a
    path info may end in an aligned string. *)
Theorem storage_records_roundtrip (e : EntryInfo mem) (i : PathInfo mem) (m : mem) (b len n : Z) :
  let sz := mlen (enc_entryinfo e) + mlen (enc_pathinfo i) in
  entryinfo_wf e -> pathinfo_wf i ->
  0 <= b -> 0 <= len -> len + sz < 2 ^ 32 -> b + len + sz <= mlen m -> sz + 2 <= n < 2 ^ 64 ->
  serialize_records e i m (mkSer None len) = Done (m, mkSer None (len + sz)) /\
  exists m' e' i',
    serialize_records e i m (mkSer (Some b) len) = Done (m', mkSer (Some b) (len + sz)) /\
    deserialize_records m' (mkDes (b + len) n) =
      Done (Some (e', i'), mkDes (b + len + sz) (n - sz)) /\
    entryinfo_repr m' e' e /\ pathinfo_repr m' i' i.
Proof.
  intros sz He Hi Hb Hl Hf Hm Hn. set (enc := enc_entryinfo e ++ enc_pathinfo i).
  assert (El : mlen enc = sz) by (unfold enc; rewrite mlen_app; done).
  assert (Hw : Writes (serialize_records e i) enc)
    by (apply writes_seq; eauto with cfs).
  pose proof (mlen_nonneg (enc_entryinfo e)). pose proof (mlen_nonneg (enc_pathinfo i)).
  split.
  { rewrite (writes_dry (Writes := Hw)) by (unfold in_u; lia). by rewrite El, u32_id by lia. }
  exists (put m (b + len) enc), (entryinfo_at e (b + len)),
    (pathinfo_at i (b + len + mlen (enc_entryinfo e))).
  assert (Hh : holds (put m (b + len) enc) (b + len) enc).
  { split_and!; [lia|rewrite mlen_put by lia; lia|apply slice_put; lia]. }
  pose proof (proj1 (holds_app _ _ _ _) Hh) as [H1 H2].
  split_and!; [rewrite <- El; apply (writes_buf (Writes := Hw)); lia| |by apply entryinfo_at_repr
              |by apply pathinfo_at_repr].
  assert (R : rest_is (put m (b + len) enc) (b + len) n (enc ++ []) 2)
    by (rewrite app_nil_r; split; [done|lia]).
  unfold enc at 2 in R. rewrite <- app_assoc in R. unfold deserialize_records.
  repeat read_field. unfold mret, Des_ret. do 2 f_equal; subst sz; f_equal; lia.
Qed.

Lemma storage_records_roundtrip_witness : exists m' e' i',
  deserialize_records m' (mkDes 3 60) = Done (Some (e', i'), mkDes (3 + 58) (60 - 58)) /\
  ei_owner e' = NodeOrGroup_fromGroup 7 /\ str_at m' (ei_fileName e') [97; 98; 99] /\
  pi_origParentUID i' = 1000.
Proof.
  destruct (storage_records_roundtrip
    (EntryInfo_init (NodeOrGroup_fromGroup 7) [114] [49; 45; 50] [97; 98; 99] 2 0)
    (mkPI 1 1000 (Some [114; 111; 111; 116])) (replicate 90 255) 1 2 60) as (_ & m' & e' & i' & H).
  - unfold entryinfo_wf, in_u, in_s. vm_compute. intuition (congruence || discriminate).
  - unfold pathinfo_wf, in_u. vm_compute. intuition discriminate.
  - lia.
  - lia.
  - by vm_compute.
  - by vm_compute.
  - by vm_compute.
  - destruct H as (_ & H & (E1 & _ & _ & _ & _ & E2) & (_ & E3 & _)).
    exists m', e', i'. split_and!; [exact H|exact E1|exact E2|exact E3].
Defined.
