(* ===== verification/NetMessage.v ===== *)
(** * Network messages: header, sending and receiving

    Models [common/net/message/NetMessage.h/.c], the simple messages
    ([SimpleMsg], [SimpleIntMsg], [SimpleInt64Msg], [SimpleUInt16Msg],
    [SimpleStringMsg], [SimpleIntStringMsg]) and the generic part of
    [net/message/NetMessageFactory.c].  A message type is its table of operations
    [NetMessageOps P Q]: [P] is the payload the client fills in before sending and
    [Q] the payload a received message is decoded to (strings as addresses in the
    receive buffer).  Message objects are a header and such a payload. *)

From S2P Require Import Prelude Serialization SerializationLists EntryInfo.

(** ** Constants and the header (NetMessage.h, NetMessageTypes.h) *)

Definition CONGFS_DATA_VERSION : Z := 0.
Definition NETMSG_PREFIX : Z := Z.shiftl 0x42474653 32 + CONGFS_DATA_VERSION.
Definition NETMSG_HEADER_LENGTH : Z := 40.
Definition NETMSG_MIN_LENGTH : Z := NETMSG_HEADER_LENGTH.
Definition NETMSGTYPE_Invalid : Z := 0.
Definition MSGHDRFLAG_BUDDYMIRROR_SECOND : Z := 0x01.
Definition MSGHDRFLAG_IS_SELECTIVE_ACK : Z := 0x02.
Definition MSGHDRFLAG_HAS_SEQUENCE_NO : Z := 0x04.

Record NetMessageHeader := mkHeader {
  msgLength : Z; msgFeatureFlags : Z; msgCompatFeatureFlags : Z; msgFlags : Z; msgType : Z;
  msgTargetID : Z; msgUserID : Z; msgSequence : Z; msgSequenceDone : Z }.

Definition header_set_length (h : NetMessageHeader) (v : Z) : NetMessageHeader :=
  mkHeader v (msgFeatureFlags h) (msgCompatFeatureFlags h) (msgFlags h) (msgType h)
    (msgTargetID h) (msgUserID h) (msgSequence h) (msgSequenceDone h).
Definition header_set_flags (h : NetMessageHeader) (feature compat flags : Z) : NetMessageHeader :=
  mkHeader (msgLength h) feature compat flags (msgType h)
    (msgTargetID h) (msgUserID h) (msgSequence h) (msgSequenceDone h).
Definition _NetMessage_setMsgType (h : NetMessageHeader) (v : Z) : NetMessageHeader :=
  mkHeader (msgLength h) (msgFeatureFlags h) (msgCompatFeatureFlags h) (msgFlags h) v
    (msgTargetID h) (msgUserID h) (msgSequence h) (msgSequenceDone h).
Definition NetMessage_setMsgHeaderTargetID (h : NetMessageHeader) (targetID : Z) : NetMessageHeader :=
  mkHeader (msgLength h) (msgFeatureFlags h) (msgCompatFeatureFlags h) (msgFlags h) (msgType h)
    targetID (msgUserID h) (msgSequence h) (msgSequenceDone h).
Definition NetMessage_setMsgHeaderUserID (h : NetMessageHeader) (userID : Z) : NetMessageHeader :=
  mkHeader (msgLength h) (msgFeatureFlags h) (msgCompatFeatureFlags h) (msgFlags h) (msgType h)
    (msgTargetID h) userID (msgSequence h) (msgSequenceDone h).

Definition NetMessage_isMsgHeaderFeatureFlagSet (h : NetMessageHeader) (flag : Z) : bool :=
  negb (Z.land (msgFeatureFlags h) flag =? 0).
Definition NetMessage_addMsgHeaderFeatureFlag (h : NetMessageHeader) (flag : Z) : NetMessageHeader :=
  header_set_flags h (u16 (Z.lor (msgFeatureFlags h) flag)) (msgCompatFeatureFlags h) (msgFlags h).

(** [memset] to zero, then the type and the id of the calling user. *)
Definition NetMessage_init (currentUserID type : Z) : NetMessageHeader :=
  mkHeader 0 0 0 0 type 0 currentUserID 0 0.

Record NetMessageOps (P Q : Type) := mkOps {
  serializePayload : NetMessageHeader -> P -> Ser;
  deserializePayload : NetMessageHeader -> Des Q;
  getSupportedHeaderFeatureFlagsMask : Z;
  supportsSequenceNumbers : bool }.
Arguments mkOps {P Q}.
Arguments serializePayload {P Q}.
Arguments deserializePayload {P Q}.
Arguments getSupportedHeaderFeatureFlagsMask {P Q}.
Arguments supportsSequenceNumbers {P Q}.

(** The dummies log a bug report; a message that is only sent has no received
    payload and one that is only received has none to send. *)
Definition _NetMessage_serializeDummy {P} (h : NetMessageHeader) (p : P) : Ser := ser_skip.
Definition _NetMessage_deserializeDummy (h : NetMessageHeader) : Des unit := mret tt.
Definition NetMessage_getSupportedHeaderFeatureFlagsMask : Z := 0.

(** ** Header (NetMessage.c) *)

(** The fields [__NetMessage_serializeHeader] writes behind the length field. *)
Definition serialize_header_fields (h : NetMessageHeader) : Ser :=
  Serialization_serializeUShort (msgFeatureFlags h) ;;;
  Serialization_serializeChar (s8 (msgCompatFeatureFlags h)) ;;;
  Serialization_serializeChar (s8 (msgFlags h)) ;;;
  Serialization_serializeUInt64 NETMSG_PREFIX ;;;
  Serialization_serializeUShort (msgType h) ;;;
  Serialization_serializeUShort (msgTargetID h) ;;;
  Serialization_serializeUInt (msgUserID h) ;;;
  Serialization_serializeUInt64 (msgSequence h) ;;;
  Serialization_serializeUInt64 (msgSequenceDone h).

(** [outHeader] holds what the caller's struct held before; results of the reads
    are not checked. *)
Definition __NetMessage_deserializeHeader (m : mem) (ctx : DeserializeCtx)
    (outHeader : NetMessageHeader) : outcome (NetMessageHeader * DeserializeCtx) :=
  let totalLength := dlength ctx in
  if dlength ctx <? NETMSG_HEADER_LENGTH then
    Done (_NetMessage_setMsgType outHeader NETMSGTYPE_Invalid, ctx)
  else
    '(len, ctx) ← des_ignore Serialization_deserializeUInt (msgLength outHeader) m ctx;
    let h := header_set_length outHeader len in
    if negb (len =? totalLength) then Done (_NetMessage_setMsgType h NETMSGTYPE_Invalid, ctx)
    else
      '(feature, ctx) ← des_ignore Serialization_deserializeUShort (msgFeatureFlags h) m ctx;
      '(compat, ctx) ← des_ignore Serialization_deserializeUInt8 (msgCompatFeatureFlags h) m ctx;
      '(flags, ctx) ← des_ignore Serialization_deserializeUInt8 (msgFlags h) m ctx;
      let h := header_set_flags h feature compat flags in
      '(prefix, ctx) ← des_ignore Serialization_deserializeUInt64 0 m ctx;
      if negb (prefix =? NETMSG_PREFIX) then
        Done (_NetMessage_setMsgType h NETMSGTYPE_Invalid, ctx)
      else if negb (Z.land (msgFlags h) (Z.lnot (Z.lor (Z.lor MSGHDRFLAG_BUDDYMIRROR_SECOND
                 MSGHDRFLAG_IS_SELECTIVE_ACK) MSGHDRFLAG_HAS_SEQUENCE_NO)) =? 0) then
        Done (_NetMessage_setMsgType h NETMSGTYPE_Invalid, ctx)
      else
        '(type, ctx) ← des_ignore Serialization_deserializeUShort (msgType h) m ctx;
        '(targetID, ctx) ← des_ignore Serialization_deserializeUShort (msgTargetID h) m ctx;
        '(userID, ctx) ← des_ignore Serialization_deserializeUInt (msgUserID h) m ctx;
        '(sequence, ctx) ← des_ignore Serialization_deserializeUInt64 (msgSequence h) m ctx;
        '(sequenceDone, ctx) ← des_ignore Serialization_deserializeUInt64 (msgSequenceDone h) m ctx;
        Done (mkHeader len feature compat flags type targetID userID sequence sequenceDone, ctx).

(** [recvBuf] starts at [data]; the context covers the length field only. *)
Definition NetMessage_extractMsgLengthFromBuf (m : mem) (recvBuf : Z) : outcome Z :=
  '(msgLength, _) ← Serialization_deserializeUInt m (mkDes recvBuf 4);
  of_option msgLength.

Section Message.
Context {P Q : Type} (ops : NetMessageOps P Q).

(** [__NetMessage_serializeHeader] with [zeroLengthField], and the payload. *)
Definition serialize_dry (h : NetMessageHeader) (p : P) : Ser :=
  Serialization_serializeUInt 0 ;;; serialize_header_fields h ;;; serializePayload ops h p.

(** The length is computed once by a run without buffer and kept in the header. *)
Definition NetMessage_getMsgLength (h : NetMessageHeader) (p : P) : outcome (Z * NetMessageHeader) :=
  if msgLength h =? 0 then
    '(_, ctx) ← serialize_dry h p [] (mkSer None 0);
    Done (slength ctx, header_set_length h (slength ctx))
  else Done (msgLength h, h).

Definition __NetMessage_serializeHeader (h : NetMessageHeader) (p : P) (zeroLengthField : bool)
    (m : mem) (ctx : SerializeCtx) : outcome (NetMessageHeader * mem * SerializeCtx) :=
  '(len, h) ← if zeroLengthField then Done (0, h) else NetMessage_getMsgLength h p;
  '(m, ctx) ← (Serialization_serializeUInt len ;;; serialize_header_fields h) m ctx;
  Done (h, m, ctx).

(** The buffer is the [bufLen] bytes at [buf] of [m]. *)
Definition NetMessage_serialize (h : NetMessageHeader) (p : P) (m : mem) (buf bufLen : Z)
    : outcome (bool * NetMessageHeader * mem) :=
  let ctx := mkSer (Some buf) 0 in
  '(len, h) ← NetMessage_getMsgLength h p;
  if bufLen <? len then Done (false, h, m)
  else
    '(h, m, ctx) ← __NetMessage_serializeHeader h p false m ctx;
    '(m, ctx) ← serializePayload ops h p m ctx;
    Done (true, h, m).

Definition NetMessage_checkHeaderFeatureFlagsCompat (h : NetMessageHeader) : bool :=
  let unsupportedFlags := Z.lnot (getSupportedHeaderFeatureFlagsMask ops) in
  Z.land (msgFeatureFlags h) unsupportedFlags =? 0.

(** [Some q] for [true]; the payload of a message that could not be decoded is
    not used by any caller. *)
Definition __NetMessageFactory_deserializeRaw (m : mem) (ctx : DeserializeCtx)
    (header : NetMessageHeader) : outcome (option Q * NetMessageHeader) :=
  let outMsg := header in
  if negb (NetMessage_checkHeaderFeatureFlagsCompat outMsg) then
    Done (None, _NetMessage_setMsgType outMsg NETMSGTYPE_Invalid)
  else
    '(deserPayloadRes, _) ← deserializePayload ops outMsg m ctx;
    match deserPayloadRes with
    | Some payload => Done (Some payload, outMsg)
    | None => Done (None, _NetMessage_setMsgType outMsg NETMSGTYPE_Invalid)
    end.

(** [header] starts uninitialised, [outMsg] with the header its constructor made;
    a message of another type leaves [outMsg] untouched. *)
Definition NetMessageFactory_deserializeFromBuf (m : mem) (recvBuf bufLen : Z)
    (uninit outMsg : NetMessageHeader) (expectedMsgType : Z)
    : outcome (option Q * NetMessageHeader) :=
  '(header, ctx) ← __NetMessage_deserializeHeader m (mkDes recvBuf bufLen) uninit;
  if negb (msgType header =? expectedMsgType) then Done (None, outMsg)
  else __NetMessageFactory_deserializeRaw m ctx header.

End Message.

(** ** The simple messages *)

Definition SimpleMsg_Ops : NetMessageOps unit unit :=
  mkOps (fun _ _ => ser_skip) (fun _ => mret tt) NetMessage_getSupportedHeaderFeatureFlagsMask false.

Definition SimpleIntMsg_Ops : NetMessageOps Z Z :=
  mkOps (fun _ value => Serialization_serializeInt value) (fun _ => Serialization_deserializeInt)
    NetMessage_getSupportedHeaderFeatureFlagsMask false.

Definition SimpleInt64Msg_Ops : NetMessageOps Z Z :=
  mkOps (fun _ value => Serialization_serializeInt64 value) (fun _ => Serialization_deserializeInt64)
    NetMessage_getSupportedHeaderFeatureFlagsMask false.

Definition SimpleUInt16Msg_Ops : NetMessageOps Z Z :=
  mkOps (fun _ value => Serialization_serializeUShort value)
    (fun _ => Serialization_deserializeUShort)
    NetMessage_getSupportedHeaderFeatureFlagsMask false.

(** The length of a value is set with [strlen] when the message is made. *)
Definition SimpleStringMsg_Ops : NetMessageOps mem (Z * Z) :=
  mkOps (fun _ value => ser_strlen value) (fun _ => Serialization_deserializeStr)
    NetMessage_getSupportedHeaderFeatureFlagsMask false.

Definition SimpleIntStringMsg_Ops : NetMessageOps (Z * mem) (Z * (Z * Z)) :=
  mkOps
    (fun _ '(intValue, strValue) => Serialization_serializeInt intValue ;;; ser_strlen strValue)
    (fun _ =>
       intValue ← Serialization_deserializeInt;
       strValue ← Serialization_deserializeStr;
       mret (intValue, strValue))
    NetMessage_getSupportedHeaderFeatureFlagsMask false.

(** ** Reading a header, whatever the bytes *)

Definition word (m : mem) (p size : Z) : Z := le_combine (slice m p size).

Lemma word_range m p size :
  msg_wf m -> 0 <= p -> 0 <= size -> p + size <= mlen m -> in_u (8 * size) (word m p size).
Proof.
  intros [Hm _] ? ? ?. unfold word. rewrite <- (mlen_slice m p size) by lia.
  rewrite mlen_slice by lia. replace size with (mlen (slice m p size)) at 1
    by (apply mlen_slice; lia). by apply le_combine_range, slice_bytes.
Qed.

Lemma raw_read size conv m p n :
  0 <= p -> 0 <= size <= n -> p + n <= mlen m -> n < 2 ^ 64 ->
  __Serialization_deserializeRaw size conv m (mkDes p n) =
    Done (Some (conv (slice m p size)), mkDes (p + size) (n - size)).
Proof.
  intros. unfold __Serialization_deserializeRaw. cbn [ddata dlength].
  rewrite (proj2 (Z.leb_le _ _)) by lia. rewrite read_block_Done by lia. cfs_simpl.
  by rewrite ctx_advance_ok by lia.
Qed.

Section ReadWord.
Context (m : mem) (p n : Z) (Hm : msg_wf m) (Hp : 0 <= p) (Hn : p + n <= mlen m).

Lemma ignore_ushort dflt : 2 <= n ->
  des_ignore Serialization_deserializeUShort dflt m (mkDes p n) =
    Done (word m p 2, mkDes (p + 2) (n - 2)).
Proof.
  intros. destruct Hm. unfold des_ignore, Serialization_deserializeUShort.
  by rewrite raw_read by lia.
Qed.

Lemma ignore_uint dflt : 4 <= n ->
  des_ignore Serialization_deserializeUInt dflt m (mkDes p n) =
    Done (word m p 4, mkDes (p + 4) (n - 4)).
Proof.
  intros. destruct Hm. unfold des_ignore, Serialization_deserializeUInt.
  by rewrite raw_read by lia.
Qed.

Lemma ignore_uint64 dflt : 8 <= n ->
  des_ignore Serialization_deserializeUInt64 dflt m (mkDes p n) =
    Done (word m p 8, mkDes (p + 8) (n - 8)).
Proof.
  intros. destruct Hm. unfold des_ignore, Serialization_deserializeUInt64.
  by rewrite raw_read by lia.
Qed.

Lemma ignore_uint8 dflt : 1 <= n ->
  des_ignore Serialization_deserializeUInt8 dflt m (mkDes p n) =
    Done (word m p 1, mkDes (p + 1) (n - 1)).
Proof.
  intros. pose proof (word_range m p 1 Hm ltac:(lia) ltac:(lia) ltac:(lia)) as R.
  destruct Hm. unfold des_ignore, Serialization_deserializeUInt8, Serialization_deserializeChar,
    mbind, Des_bind. rewrite raw_read by lia. unfold mret, Des_ret. do 2 f_equal.
  fold (word m p 1). unfold u8, s8. rewrite wrap_swrap by lia. by apply wrap_id.
Qed.

End ReadWord.

(** A header is accepted when it is long enough, states the length of the buffer,
    and carries the prefix and known flags only. *)
Definition header_valid (m : mem) (p n : Z) : Prop :=
  NETMSG_HEADER_LENGTH <= n /\ word m p 4 = n /\ word m (p + 8) 8 = NETMSG_PREFIX /\
  Z.land (word m (p + 7) 1) (Z.lnot 7) = 0.

#[export] Instance header_valid_dec m p n : Decision (header_valid m p n).
Proof. unfold header_valid. apply _. Defined.

Definition header_at (m : mem) (p : Z) : NetMessageHeader :=
  mkHeader (word m p 4) (word m (p + 4) 2) (word m (p + 6) 1) (word m (p + 7) 1)
    (word m (p + 16) 2) (word m (p + 18) 2) (word m (p + 20) 4) (word m (p + 24) 8)
    (word m (p + 32) 8).

Lemma deserializeHeader_run m p n h0 :
  msg_wf m -> ctx_wf m (mkDes p n) ->
  exists h c,
    __NetMessage_deserializeHeader m (mkDes p n) h0 = Done (h, c) /\ ctx_le (mkDes p n) c /\
    if bool_decide (header_valid m p n)
    then h = header_at m p /\ c = mkDes (p + 40) (n - 40)
    else msgType h = NETMSGTYPE_Invalid.
Proof.
  intros Hm (Hp & Hn0 & Hn). simpl in Hp, Hn0, Hn. unfold __NetMessage_deserializeHeader.
  cbn [dlength].
  change NETMSG_HEADER_LENGTH with 40. destruct (Z.ltb_spec n 40).
  { rewrite bool_decide_false by (intros (? & _); unfold NETMSG_HEADER_LENGTH in *; lia).
    eexists _, _. split_and!; [done|unfold ctx_le; simpl; lia|done]. }
  rewrite ignore_uint by (done || lia). cfs_simpl.
  destruct (Z.eqb_spec (word m p 4) n) as [El|El]; cbn [negb].
  2: { rewrite bool_decide_false by (by intros (_ & ? & _)).
       eexists _, _. split_and!; [done|unfold ctx_le; simpl; lia|done]. }
  rewrite ignore_ushort by (done || lia). cfs_simpl.
  rewrite ignore_uint8 by (done || lia). cfs_simpl.
  rewrite ignore_uint8 by (done || lia). cfs_simpl.
  rewrite ignore_uint64 by (done || lia). cfs_simpl.
  replace (p + 4 + 2 + 1) with (p + 7) by lia. replace (p + 7 + 1) with (p + 8) by lia.
  destruct (Z.eqb_spec (word m (p + 8) 8) NETMSG_PREFIX) as [Ep|Ep]; cbn [negb].
  2: { rewrite bool_decide_false by (by intros (_ & _ & ? & _)).
       eexists _, _. split_and!; [done|unfold ctx_le; simpl; lia|done]. }
  cbn [msgFlags header_set_flags].
  change (Z.lor (Z.lor _ _) MSGHDRFLAG_HAS_SEQUENCE_NO) with 7.
  destruct (Z.eqb_spec (Z.land (word m (p + 7) 1) (Z.lnot 7)) 0) as [Ef|Ef]; cbn [negb].
  2: { rewrite bool_decide_false by (by intros (_ & _ & _ & ?)).
       eexists _, _. split_and!; [done|unfold ctx_le; simpl; lia|done]. }
  rewrite bool_decide_true by done.
  do 2 (rewrite ignore_ushort by (done || lia); cfs_simpl).
  rewrite ignore_uint by (done || lia). cfs_simpl.
  do 2 (rewrite ignore_uint64 by (done || lia); cfs_simpl).
  eexists _, _. split_and!; [done|unfold ctx_le; simpl; lia|..].
  - unfold header_at. f_equal; f_equal; lia.
  - f_equal; lia.
Qed.

(** ** Writing messages *)

Definition header_wf (h : NetMessageHeader) : Prop :=
  in_u 16 (msgFeatureFlags h) /\ in_u 8 (msgCompatFeatureFlags h) /\ in_u 8 (msgFlags h) /\
  in_u 16 (msgType h) /\ in_u 16 (msgTargetID h) /\ in_u 32 (msgUserID h) /\
  in_u 64 (msgSequence h) /\ in_u 64 (msgSequenceDone h).

Definition enc_header_fields (h : NetMessageHeader) : mem :=
  le_split 2 (msgFeatureFlags h) ++ [u8 (msgCompatFeatureFlags h)] ++ [u8 (msgFlags h)] ++
  le_split 8 NETMSG_PREFIX ++ le_split 2 (msgType h) ++ le_split 2 (msgTargetID h) ++
  le_split 4 (msgUserID h) ++ le_split 8 (msgSequence h) ++ le_split 8 (msgSequenceDone h).

Definition enc_header (len : Z) (h : NetMessageHeader) : mem := le_split 4 len ++ enc_header_fields h.

Lemma mlen_enc_header len h : mlen (enc_header len h) = 40.
Proof. unfold enc_header, enc_header_fields. by rewrite !mlen_app, !mlen_le2, !mlen_le4, !mlen_le8. Qed.

#[export] Instance writes_header_fields h :
  Writes (serialize_header_fields h) (enc_header_fields h).
Proof.
  unfold serialize_header_fields, enc_header_fields.
  apply writes_seq; [apply _|]. do 2 (apply writes_seq; [apply writes_uint8|]).
  repeat (apply writes_seq; [apply _|]). apply _.
Qed.

(** What a message type promises to the sending side: its payload serializer
    writes [enc], whatever the length field holds. *)
Class PayloadWrites {P Q} (ops : NetMessageOps P Q) (h : NetMessageHeader) (p : P) (enc : mem) : Prop :=
  payload_writes len : Writes (serializePayload ops (header_set_length h len) p) enc.

(** ... and to the receiving side: what was written is read back as [res]. *)
Class PayloadReads {P Q} (ops : NetMessageOps P Q) (h : NetMessageHeader) (enc : mem) (res : Z -> Q)
  : Prop := payload_reads len : Reads (deserializePayload ops (header_set_length h len)) enc res.

Section Sending.
Context {P Q : Type} (ops : NetMessageOps P Q) (h : NetMessageHeader) (p : P) (enc : mem).
Context `{!PayloadWrites ops h p enc}.

Lemma header_set_length_self : header_set_length h (msgLength h) = h.
Proof. by destruct h. Qed.

Lemma header_set_length_twice a b :
  header_set_length (header_set_length h a) b = header_set_length h b.
Proof. by destruct h. Qed.

Lemma getMsgLength_run :
  msgLength h = 0 -> mlen enc + 40 < 2 ^ 32 ->
  NetMessage_getMsgLength ops h p =
    Done (40 + mlen enc, header_set_length h (40 + mlen enc)).
Proof.
  intros Hl Hs. pose proof (mlen_nonneg enc). unfold NetMessage_getMsgLength. rewrite Hl. simpl.
  assert (Hw : Writes (serialize_dry ops h p)
                 (le_split 4 0 ++ enc_header_fields h ++ enc)).
  { unfold serialize_dry. pose proof (payload_writes (msgLength h)) as W.
    rewrite header_set_length_self in W. apply _. }
  rewrite (writes_dry (Writes := Hw)) by (unfold in_u; lia). cfs_simpl.
  rewrite app_assoc. fold (enc_header 0 h). rewrite mlen_app, mlen_enc_header.
  by rewrite Z.add_0_l, u32_id by lia.
Qed.

(** Sending: too small a buffer is refused and not touched; otherwise exactly the
    message is written, with its length in the header. *)
Lemma serialize_run m buf bufLen :
  msgLength h = 0 -> mlen enc + 40 < 2 ^ 32 ->
  0 <= buf -> 0 <= bufLen -> buf + bufLen <= mlen m ->
  NetMessage_serialize ops h p m buf bufLen =
    let total := 40 + mlen enc in
    if bufLen <? total then Done (false, header_set_length h total, m)
    else Done (true, header_set_length h total, put m buf (enc_header total h ++ enc)).
Proof.
  intros Hl Hs Hb Hbl Hm. pose proof (mlen_nonneg enc). unfold NetMessage_serialize.
  rewrite getMsgLength_run by done. cfs_simpl. cbv zeta.
  destruct (Z.ltb_spec bufLen (40 + mlen enc)); [done|].
  unfold __NetMessage_serializeHeader, NetMessage_getMsgLength. cbn [msgLength header_set_length].
  destruct (Z.eqb_spec (40 + mlen enc) 0); [lia|]. cfs_simpl.
  assert (Hw : Writes (Serialization_serializeUInt (40 + mlen enc) ;;;
                       serialize_header_fields (header_set_length h (40 + mlen enc)))
                 (enc_header (40 + mlen enc) h)).
  { unfold enc_header.
    change (enc_header_fields h) with (enc_header_fields (header_set_length h (40 + mlen enc))).
    apply _. }
  fold (header_set_length h (40 + mlen enc)).
  rewrite (writes_buf (Writes := Hw)) by (rewrite ?mlen_enc_header; lia). cfs_simpl.
  rewrite mlen_enc_header.
  rewrite (writes_buf (Writes := payload_writes (40 + mlen enc)))
    by (rewrite ?mlen_put by (rewrite ?mlen_enc_header; lia); lia). cfs_simpl.
  rewrite !Z.add_0_r, Z.add_0_l. rewrite <- (mlen_enc_header (40 + mlen enc) h) at 2.
  by rewrite put_app by (rewrite ?mlen_app, ?mlen_enc_header; lia).
Qed.

End Sending.

(** ** The simple messages keep the promise *)

#[export] Instance simple_writes h u : PayloadWrites SimpleMsg_Ops h u [].
Proof. intros len. apply _. Qed.
#[export] Instance simple_reads h : PayloadReads SimpleMsg_Ops h [] (fun _ => tt).
Proof. intros len. apply _. Qed.

#[export] Instance simpleint_writes h v : PayloadWrites SimpleIntMsg_Ops h v (le_split 4 (u32 v)).
Proof. intros len. apply writes_int. Qed.
Lemma simpleint_reads h v :
  in_s 32 v -> PayloadReads SimpleIntMsg_Ops h (le_split 4 (u32 v)) (fun _ => v).
Proof. intros Hv len. by apply reads_int. Qed.

#[export] Instance simpleint64_writes h v : PayloadWrites SimpleInt64Msg_Ops h v (le_split 8 (u64 v)).
Proof. intros len. apply writes_int64. Qed.
Lemma simpleint64_reads h v :
  in_s 64 v -> PayloadReads SimpleInt64Msg_Ops h (le_split 8 (u64 v)) (fun _ => v).
Proof. intros Hv len. by apply reads_int64. Qed.

#[export] Instance simpleuint16_writes h v : PayloadWrites SimpleUInt16Msg_Ops h v (le_split 2 v).
Proof. intros len. apply writes_ushort. Qed.
Lemma simpleuint16_reads h v :
  in_u 16 v -> PayloadReads SimpleUInt16Msg_Ops h (le_split 2 v) (fun _ => v).
Proof. intros Hv len. by apply reads_ushort. Qed.

Lemma simplestring_writes h s : mlen s < 2 ^ 32 -> PayloadWrites SimpleStringMsg_Ops h s (enc_str s).
Proof. intros Hs len. by apply writes_strlen. Qed.
Lemma simplestring_reads h s :
  mlen s + 1 < 2 ^ 32 ->
  PayloadReads SimpleStringMsg_Ops h (enc_str s) (fun p => (mlen s, p + 4)).
Proof. intros Hs len. by apply reads_str. Qed.

Lemma simpleintstring_writes h v s :
  mlen s < 2 ^ 32 ->
  PayloadWrites SimpleIntStringMsg_Ops h (v, s) (le_split 4 (u32 v) ++ enc_str s).
Proof. intros Hs len. apply writes_seq; [apply writes_int|by apply writes_strlen]. Qed.
Lemma simpleintstring_reads h v s :
  in_s 32 v -> mlen s + 1 < 2 ^ 32 ->
  PayloadReads SimpleIntStringMsg_Ops h (le_split 4 (u32 v) ++ enc_str s)
    (fun p => (v, (mlen s, p + 8))).
Proof.
  intros Hv Hs len. cbn [deserializePayload SimpleIntStringMsg_Ops].
  eapply (reads_bind_as _ _ _ _ _ (fun _ p => (v, (mlen s, p + 4)))); [by apply reads_int| |].
  - intros q. cbn beta. apply (reads_bind_ret _ (fun x => (v, x)) _ (fun p => (mlen s, p + 4))). by apply reads_str.
  - intros p. cbn beta. rewrite mlen_le4. do 2 f_equal. lia.
Qed.

(** ** Properties *)

Lemma word_holds m p k v :
  holds m p (le_split k v) -> in_u (8 * Z.of_nat k) v -> word m p (Z.of_nat k) = v.
Proof.
  intros (_ & _ & E) Hv. rewrite mlen_le_split in E. unfold word. rewrite E.
  by apply le_combine_split_id.
Qed.

Lemma word_holds_byte m p v : holds m p [u8 v] -> in_u 8 v -> word m p 1 = v.
Proof.
  intros (_ & _ & E) Hv. unfold word. change (mlen [u8 v]) with 1 in E. rewrite E.
  cbn [le_combine]. rewrite Z.shiftl_0_l, Z.lor_0_r. by apply wrap_id.
Qed.

(** The header that was written is valid and is read back. *)
Lemma header_written m p len h :
  header_wf h -> in_u 32 len -> 40 <= len -> Z.land (msgFlags h) (Z.lnot 7) = 0 ->
  holds m p (enc_header len h) ->
  header_valid m p len /\ header_at m p = header_set_length h len.
Proof.
  intros (H1 & H2 & H3 & H4 & H5 & H6 & H7 & H8) Hl H40 Hf H.
  unfold enc_header, enc_header_fields in H.
  apply holds_app in H as [L H]. apply holds_app in H as [F H]. apply holds_app in H as [C H].
  apply holds_app in H as [G H]. apply holds_app in H as [X H]. apply holds_app in H as [T H].
  apply holds_app in H as [I H]. apply holds_app in H as [U H]. apply holds_app in H as [Q D].
  rewrite !mlen_le2, !mlen_le4, !mlen_le8 in *.
  change (mlen [u8 (msgCompatFeatureFlags h)]) with 1 in *.
  change (mlen [u8 (msgFlags h)]) with 1 in *.
  apply word_holds in L, F, X, T, I, U, Q, D; try done.
  apply word_holds_byte in C, G; try done.
  repeat match goal with E : word m ?q _ = _ |- _ =>
    progress (ring_simplify q in E) end.
  unfold header_valid, header_at, header_set_length.
  change (Z.of_nat 2) with 2 in *. change (Z.of_nat 4) with 4 in *. change (Z.of_nat 8) with 8 in *.
  rewrite L, F, C, G, X, T, I, U, Q, D. split; [|done].
  unfold NETMSG_HEADER_LENGTH. split_and!; done.
Qed.

Lemma put_bytes m p bs :
  Forall is_byte m -> Forall is_byte bs -> Forall is_byte (put m p bs).
Proof.
  intros. unfold put. repeat apply Forall_app_2; auto using Forall_take, Forall_drop.
Qed.

Lemma put_msg_wf m p bs :
  msg_wf m -> Forall is_byte bs -> 0 <= p -> p + mlen bs <= mlen m -> msg_wf (put m p bs).
Proof. intros [Hm Hl] Hb Hp Hs. split; [by apply put_bytes|by rewrite mlen_put by lia]. Qed.

Lemma u8_byte v : is_byte (u8 v).
Proof. apply wrap_range. lia. Qed.

Lemma enc_header_bytes len h : Forall is_byte (enc_header len h).
Proof.
  unfold enc_header, enc_header_fields.
  repeat apply Forall_app_2; auto using le_split_bytes, Forall_singleton, u8_byte;
    by apply Forall_singleton, u8_byte.
Qed.

(** A received header is accepted exactly when it is one.  On any bytes,
    [__NetMessage_deserializeHeader] stays in the buffer; the message gets a valid
    type only if the buffer holds at least a header, the length field states the
    length of the buffer, the prefix is right and no unknown flag is set, and then
    every field is the little-endian word at its place. *)
Theorem header_accepts (m : mem) (recvBuf bufLen : Z) (uninit : NetMessageHeader) :
  msg_wf m -> ctx_wf m (mkDes recvBuf bufLen) ->
  exists h c,
    __NetMessage_deserializeHeader m (mkDes recvBuf bufLen) uninit = Done (h, c) /\
    ctx_le (mkDes recvBuf bufLen) c /\
    (header_valid m recvBuf bufLen ->
     h = header_at m recvBuf /\ c = mkDes (recvBuf + 40) (bufLen - 40)) /\
    (~ header_valid m recvBuf bufLen -> msgType h = NETMSGTYPE_Invalid).
Proof.
  intros Hm Hc. destruct (deserializeHeader_run m recvBuf bufLen uninit Hm Hc)
    as (h & c & E & Hle & H).
  exists h, c. split_and!; [done|done|..]; intros Hv;
    [rewrite bool_decide_true in H by done|rewrite bool_decide_false in H by done]; done.
Qed.

Lemma header_accepts_witness : exists h c,
  __NetMessage_deserializeHeader (le_split 4 40 ++ [0; 0; 0; 4] ++ le_split 8 NETMSG_PREFIX ++
    le_split 2 4003 ++ replicate 22 9) (mkDes 0 40) (NetMessage_init 0 0) = Done (h, c) /\
  msgType h = 4003 /\ c = mkDes 40 0.
Proof.
  destruct (header_accepts (le_split 4 40 ++ [0; 0; 0; 4] ++ le_split 8 NETMSG_PREFIX ++
    le_split 2 4003 ++ replicate 22 9) 0 40 (NetMessage_init 0 0)
    ltac:(split; [apply (bool_decide_unpack _); by vm_compute | by vm_compute])
    ltac:(unfold ctx_wf; vm_compute; intuition discriminate)) as (h & c & E & _ & H & _).
  exists h, c. split; [exact E|].
  destruct (H ltac:(apply (bool_decide_unpack _); by vm_compute)) as [-> ->].
  split; vm_compute; reflexivity.
Defined.

(** What the receiver makes of a message as it was written. *)
Lemma received_run {P Q} (ops : NetMessageOps P Q) (h : NetMessageHeader) (enc : mem) (res : Z -> Q)
    (m : mem) (buf : Z) (uninit out : NetMessageHeader) :
  let total := 40 + mlen enc in
  PayloadReads ops h enc res -> header_wf h -> Z.land (msgFlags h) (Z.lnot 7) = 0 ->
  Z.land (msgFeatureFlags h) (Z.lnot (getSupportedHeaderFeatureFlagsMask ops)) = 0 ->
  total < 2 ^ 32 -> msg_wf m -> holds m buf (enc_header total h ++ enc) ->
  NetMessageFactory_deserializeFromBuf ops m buf total uninit out (msgType h) =
    Done (Some (res (buf + 40)), header_set_length h total) /\
  forall P' Q' (ops' : NetMessageOps P' Q') out' t, t <> msgType h ->
    NetMessageFactory_deserializeFromBuf ops' m buf total uninit out' t = Done (None, out').
Proof.
  intros total Hr Hh Hf Hs Ht Hm Hh'. pose proof (mlen_nonneg enc). set (h' := header_set_length h total).
  assert (Hbs : mlen (enc_header total h ++ enc) = total) by (rewrite mlen_app, mlen_enc_header; done).
  pose proof (proj1 (holds_app _ _ _ _) Hh') as [Hhd Hpl]. rewrite mlen_enc_header in Hpl.
  destruct Hh' as (Hb & Hbm & _). rewrite Hbs in Hbm.
  destruct (header_written _ buf total h Hh ltac:(unfold in_u; lia) ltac:(lia) Hf Hhd) as [Hv Ha].
  destruct (deserializeHeader_run m buf total uninit Hm) as (h1 & c & E1 & _ & H1).
  { unfold ctx_wf. cbn [ddata dlength]. lia. }
  rewrite bool_decide_true in H1 by done. destruct H1 as [-> ->]. rewrite Ha in E1. fold h' in E1.
  split.
  - unfold NetMessageFactory_deserializeFromBuf. rewrite E1. cfs_simpl.
    change (msgType h') with (msgType h). rewrite Z.eqb_refl. cbn [negb].
    unfold __NetMessageFactory_deserializeRaw, NetMessage_checkHeaderFeatureFlagsCompat.
    change (msgFeatureFlags h') with (msgFeatureFlags h). rewrite Hs. cbn [negb Z.eqb].
    unfold h'. by rewrite (holds_reads _ _ _ _ _ _ (payload_reads total) Hpl) by lia.
  - intros P' Q' ops' out' t Hne. unfold NetMessageFactory_deserializeFromBuf. rewrite E1. cfs_simpl.
    change (msgType h') with (msgType h). by rewrite (proj2 (Z.eqb_neq _ _)) by done.
Qed.

(** C36: messages survive the wire.  For every message type whose payload is
    written and read back, [NetMessage_serialize] refuses a buffer that is too
    small without touching it, and otherwise writes header and payload at its
    start and nothing else; received as a buffer of just that length, the factory
    returns the same header and payload, and it returns [false] when another
    message type is expected. *)
Theorem netmessage_roundtrip {P Q : Type} (ops : NetMessageOps P Q) (h : NetMessageHeader) (p : P)
    (enc : mem) (res : Z -> Q) (m : mem) (buf bufLen : Z) (uninit out : NetMessageHeader) :
  let total := 40 + mlen enc in
  let h' := header_set_length h total in
  PayloadWrites ops h p enc -> PayloadReads ops h enc res ->
  header_wf h -> msgLength h = 0 -> Z.land (msgFlags h) (Z.lnot 7) = 0 ->
  Z.land (msgFeatureFlags h) (Z.lnot (getSupportedHeaderFeatureFlagsMask ops)) = 0 ->
  Forall is_byte enc -> total < 2 ^ 32 ->
  msg_wf m -> 0 <= buf -> 0 <= bufLen -> buf + bufLen <= mlen m ->
  (bufLen < total -> NetMessage_serialize ops h p m buf bufLen = Done (false, h', m)) /\
  (total <= bufLen -> exists m',
     m' = put m buf (enc_header total h ++ enc) /\
     NetMessage_serialize ops h p m buf bufLen = Done (true, h', m') /\
     NetMessageFactory_deserializeFromBuf ops m' buf total uninit out (msgType h) =
       Done (Some (res (buf + 40)), h') /\
     forall t, t <> msgType h ->
       NetMessageFactory_deserializeFromBuf ops m' buf total uninit out t = Done (None, out)).
Proof.
  intros total h' Hw Hr Hh Hl Hf Hs He Ht Hm Hb Hbl Hbm. pose proof (mlen_nonneg enc).
  pose proof (serialize_run ops h p enc m buf bufLen Hl ltac:(lia) Hb Hbl Hbm) as E.
  cbv zeta in E. fold total h' in E. split; intros Hbt.
  { rewrite E. destruct (Z.ltb_spec bufLen total); [done|lia]. }
  set (bs := enc_header total h ++ enc).
  assert (Hbs : mlen bs = total) by (unfold bs; rewrite mlen_app, mlen_enc_header; done).
  assert (Hm' : msg_wf (put m buf bs)).
  { apply put_msg_wf; [done| |lia|lia]. apply Forall_app_2; [apply enc_header_bytes|done]. }
  assert (Hh' : holds (put m buf bs) buf bs).
  { split_and!; [lia|rewrite mlen_put by lia; lia|apply slice_put; lia]. }
  destruct (received_run ops h enc res _ buf uninit out Hr Hh Hf Hs Ht Hm' Hh') as [E1 E2].
  exists (put m buf bs). split_and!; [done|rewrite E; destruct (Z.ltb_spec bufLen total); [lia|done]|done|].
  intros t Hne. by apply E2.
Qed.

Lemma netmessage_roundtrip_witness : exists m' h',
  NetMessage_serialize SimpleIntStringMsg_Ops (NetMessage_init 1000 4009) (-3, [104; 105])
    (replicate 64 255) 1 60 = Done (true, h', m') /\
  NetMessageFactory_deserializeFromBuf SimpleIntStringMsg_Ops m' 1 51 (NetMessage_init 0 0)
    (NetMessage_init 0 4009) 4009 = Done (Some (-3, (2, 1 + 40 + 8)), h').
Proof.
  destruct (netmessage_roundtrip SimpleIntStringMsg_Ops (NetMessage_init 1000 4009)
    (-3, [104; 105]) (le_split 4 (u32 (-3)) ++ enc_str [104; 105]) (fun p => (-3, (2, p + 8)))
    (replicate 64 255) 1 60 (NetMessage_init 0 0) (NetMessage_init 0 4009)
    (simpleintstring_writes _ (-3) [104; 105] ltac:(by vm_compute))
    (simpleintstring_reads _ (-3) [104; 105] ltac:(split; by vm_compute) ltac:(by vm_compute))
    ltac:(unfold header_wf, in_u; vm_compute; intuition discriminate)
    ltac:(done) ltac:(done) ltac:(done)
    ltac:(apply (bool_decide_unpack _); by vm_compute) ltac:(by vm_compute)
    ltac:(split; [apply (bool_decide_unpack _); by vm_compute|by vm_compute])
    ltac:(lia) ltac:(lia) ltac:(by vm_compute)) as [_ H].
  destruct (H ltac:(by vm_compute)) as (m' & _ & E1 & E2 & _).
  exists m', (header_set_length (NetMessage_init 1000 4009) 51).
  split; [exact E1|exact E2].
Defined.
