(* ===== verification/Messages.v ===== *)
(** * Requests: the messages the client sends

    The payloads of the requests in [common/net/message/*].  A request is a
    constructor of [Request], named after the struct and with its fields; pointers
    to records the caller keeps are the records.  [request_serializePayload] is the
    dispatch through the tables of operations; the section [Init] has the headers
    the constructors of the messages make. *)

From S2P Require Import Prelude Serialization SerializationLists StripePattern.
From S2P Require Import EntryInfo NetMessage.

(** [if(this->msgHeader.msgFeatureFlags & flag) FileEvent_serialize(ctx, fileEvent)] *)
Definition ser_event (h : NetMessageHeader) (flag : Z) (fileEvent : option FileEvent) : Ser :=
  if negb (Z.land (msgFeatureFlags h) flag =? 0) then
    match fileEvent with Some event => FileEvent_serialize event | None => ser_null end
  else ser_skip.

(** ** Requests: file data (session/rw, session/FSyncLocalFileMsg.h) *)

Definition WRITELOCALFILEMSG_FLAG_USE_QUOTA : Z := 2.

Definition ReadLocalFileV2Msg_serializePayload (offset count accessFlags : Z) (fileHandleID : mem)
    (clientNumID : Z) (pathInfoPtr : PathInfo mem) (targetID : Z) : Ser :=
  Serialization_serializeInt64 offset ;;;
  Serialization_serializeInt64 count ;;;
  Serialization_serializeUInt accessFlags ;;;
  ser_strlen_align4 fileHandleID ;;;
  NumNodeID_serialize clientNumID ;;;
  PathInfo_serialize pathInfoPtr ;;;
  Serialization_serializeUShort targetID.

Definition WriteLocalFileMsg_serializePayload (h : NetMessageHeader) (offset count accessFlags : Z)
    (fileHandleID : mem) (clientNumID : Z) (pathInfo : PathInfo mem) (targetID userID groupID : Z)
    : Ser :=
  Serialization_serializeInt64 offset ;;;
  Serialization_serializeInt64 count ;;;
  Serialization_serializeUInt accessFlags ;;;
  (if NetMessage_isMsgHeaderFeatureFlagSet h WRITELOCALFILEMSG_FLAG_USE_QUOTA then
     Serialization_serializeUInt userID ;;; Serialization_serializeUInt groupID
   else ser_skip) ;;;
  ser_strlen_align4 fileHandleID ;;;
  NumNodeID_serialize clientNumID ;;;
  PathInfo_serialize pathInfo ;;;
  Serialization_serializeUShort targetID.

Definition FSyncLocalFileMsg_serializePayload (clientNumID : Z) (fileHandleID : mem) (targetID : Z)
    : Ser :=
  NumNodeID_serialize clientNumID ;;;
  ser_strlen_align4 fileHandleID ;;;
  Serialization_serializeUShort targetID.

(** ** Requests: sessions and locks *)

Definition OPENFILEMSG_FLAG_HAS_EVENT : Z := 2.
Definition CLOSEFILEMSG_FLAG_HAS_EVENT : Z := 8.
Definition BUMPFILEVERSIONMSG_FLAG_HASEVENT : Z := 2.

Definition OpenFileMsg_serializePayload (h : NetMessageHeader) (clientNumID accessFlags : Z)
    (entryInfoPtr : EntryInfo mem) (fileEvent : option FileEvent) : Ser :=
  NumNodeID_serialize clientNumID ;;;
  Serialization_serializeUInt accessFlags ;;;
  EntryInfo_serialize entryInfoPtr ;;;
  ser_event h OPENFILEMSG_FLAG_HAS_EVENT fileEvent.

Definition CloseFileMsg_serializePayload (h : NetMessageHeader) (clientNumID : Z)
    (fileHandleID : mem) (entryInfoPtr : EntryInfo mem) (maxUsedNodeIndex : Z)
    (fileEvent : option FileEvent) : Ser :=
  NumNodeID_serialize clientNumID ;;;
  ser_strlen_align4 fileHandleID ;;;
  EntryInfo_serialize entryInfoPtr ;;;
  Serialization_serializeInt maxUsedNodeIndex ;;;
  ser_event h CLOSEFILEMSG_FLAG_HAS_EVENT fileEvent.

Definition BumpFileVersionMsg_serializePayload (h : NetMessageHeader) (entryInfo : EntryInfo mem)
    (fileEvent : option FileEvent) : Ser :=
  EntryInfo_serialize entryInfo ;;;
  ser_event h BUMPFILEVERSIONMSG_FLAG_HASEVENT fileEvent.

Definition GetFileVersionMsg_serializePayload (entryInfo : EntryInfo mem) : Ser :=
  EntryInfo_serialize entryInfo.

Definition FLockAppendMsg_serializePayload (clientNumID clientFD ownerPID lockTypeFlags : Z)
    (entryInfoPtr : EntryInfo mem) (fileHandleID lockAckID : mem) : Ser :=
  NumNodeID_serialize clientNumID ;;;
  Serialization_serializeInt64 clientFD ;;;
  Serialization_serializeInt ownerPID ;;;
  Serialization_serializeInt lockTypeFlags ;;;
  EntryInfo_serialize entryInfoPtr ;;;
  ser_strlen_align4 fileHandleID ;;;
  ser_strlen_align4 lockAckID.

Definition FLockEntryMsg_serializePayload (clientNumID clientFD ownerPID lockTypeFlags : Z)
    (entryInfoPtr : EntryInfo mem) (fileHandleID lockAckID : mem) : Ser :=
  NumNodeID_serialize clientNumID ;;;
  Serialization_serializeInt64 clientFD ;;;
  Serialization_serializeInt ownerPID ;;;
  Serialization_serializeInt lockTypeFlags ;;;
  EntryInfo_serialize entryInfoPtr ;;;
  ser_strlen_align4 fileHandleID ;;;
  ser_strlen_align4 lockAckID.

Definition FLockRangeMsg_serializePayload (clientNumID start end_ ownerPID lockTypeFlags : Z)
    (entryInfoPtr : EntryInfo mem) (fileHandleID lockAckID : mem) : Ser :=
  NumNodeID_serialize clientNumID ;;;
  Serialization_serializeUInt64 start ;;;
  Serialization_serializeUInt64 end_ ;;;
  Serialization_serializeInt ownerPID ;;;
  Serialization_serializeInt lockTypeFlags ;;;
  EntryInfo_serialize entryInfoPtr ;;;
  ser_strlen_align4 fileHandleID ;;;
  ser_strlen_align4 lockAckID.

(** ** Requests: metadata (the messages under storage) *)

Definition LOOKUPINTENTMSG_FLAG_REVALIDATE : Z := 1.
Definition LOOKUPINTENTMSG_FLAG_CREATE : Z := 2.
Definition LOOKUPINTENTMSG_FLAG_OPEN : Z := 8.
Definition LOOKUPINTENTMSG_FLAG_HAS_EVENT : Z := 8.
Definition MKDIRMSG_FLAG_HAS_EVENT : Z := 4.
Definition MKFILEMSG_FLAG_STRIPEHINTS : Z := 1.
Definition MKFILEMSG_FLAG_STORAGEPOOLID : Z := 2.
Definition MKFILEMSG_FLAG_HAS_EVENT : Z := 4.
Definition RMDIRMSG_FLAG_HAS_EVENT : Z := 1.
Definition UNLINKFILEMSG_FLAG_HAS_EVENT : Z := 1.
Definition RENAMEMSG_FLAG_HAS_EVENT : Z := 1.
Definition HARDLINKMSG_FLAG_HAS_EVENT : Z := 2.
Definition SETATTRMSG_FLAG_HAS_EVENT : Z := 4.
Definition TRUNCFILEMSG_FLAG_HAS_EVENT : Z := 2.
Definition STATMSG_FLAG_GET_PARENTINFO : Z := 1.

Definition flag_set (flags flag : Z) : bool := negb (Z.land flags flag =? 0).

Definition LookupIntentMsg_serializePayload (h : NetMessageHeader) (intentFlags : Z)
    (parentInfoPtr : EntryInfo mem) (entryName : mem) (entryInfoPtr : EntryInfo mem)
    (accessFlags clientNumID userID groupID mode umask : Z) (preferredTargets : list Z)
    (fileEvent : option FileEvent) : Ser :=
  Serialization_serializeInt intentFlags ;;;
  EntryInfo_serialize parentInfoPtr ;;;
  ser_strlen_align4 entryName ;;;
  (if flag_set intentFlags LOOKUPINTENTMSG_FLAG_REVALIDATE
   then EntryInfo_serialize entryInfoPtr else ser_skip) ;;;
  (if flag_set intentFlags LOOKUPINTENTMSG_FLAG_OPEN
   then Serialization_serializeUInt accessFlags ;;; NumNodeID_serialize clientNumID
   else ser_skip) ;;;
  (if flag_set intentFlags LOOKUPINTENTMSG_FLAG_CREATE then
     Serialization_serializeUInt userID ;;;
     Serialization_serializeUInt groupID ;;;
     Serialization_serializeInt mode ;;;
     Serialization_serializeInt umask ;;;
     Serialization_serializeUInt16List preferredTargets ;;;
     ser_event h LOOKUPINTENTMSG_FLAG_HAS_EVENT fileEvent
   else ser_skip).

Definition MkDirMsg_serializePayload (h : NetMessageHeader) (userID groupID mode umask : Z)
    (parentInfo : EntryInfo mem) (newDirName : mem) (preferredNodes : list Z)
    (fileEvent : option FileEvent) : Ser :=
  Serialization_serializeUInt userID ;;;
  Serialization_serializeUInt groupID ;;;
  Serialization_serializeInt mode ;;;
  Serialization_serializeInt umask ;;;
  EntryInfo_serialize parentInfo ;;;
  ser_strlen_align4 newDirName ;;;
  Serialization_serializeUInt16List preferredNodes ;;;
  ser_event h MKDIRMSG_FLAG_HAS_EVENT fileEvent.

Definition MkFileMsg_serializePayload (h : NetMessageHeader)
    (userID groupID mode umask numtargets chunksize storagePoolId : Z)
    (parentInfoPtr : EntryInfo mem) (newFileName : mem) (preferredTargets : list Z)
    (fileEvent : option FileEvent) : Ser :=
  Serialization_serializeUInt userID ;;;
  Serialization_serializeUInt groupID ;;;
  Serialization_serializeInt mode ;;;
  Serialization_serializeInt umask ;;;
  (if NetMessage_isMsgHeaderFeatureFlagSet h MKFILEMSG_FLAG_STRIPEHINTS
   then Serialization_serializeUInt numtargets ;;; Serialization_serializeUInt chunksize
   else ser_skip) ;;;
  (if NetMessage_isMsgHeaderFeatureFlagSet h MKFILEMSG_FLAG_STORAGEPOOLID
   then StoragePoolId_serialize storagePoolId else ser_skip) ;;;
  EntryInfo_serialize parentInfoPtr ;;;
  ser_strlen_align4 newFileName ;;;
  Serialization_serializeUInt16List preferredTargets ;;;
  ser_event h MKFILEMSG_FLAG_HAS_EVENT fileEvent.

Definition RmDirMsg_serializePayload (h : NetMessageHeader) (parentInfo : EntryInfo mem)
    (delDirName : mem) (fileEvent : option FileEvent) : Ser :=
  EntryInfo_serialize parentInfo ;;;
  ser_strlen_align4 delDirName ;;;
  ser_event h RMDIRMSG_FLAG_HAS_EVENT fileEvent.

Definition UnlinkFileMsg_serializePayload (h : NetMessageHeader) (parentInfoPtr : EntryInfo mem)
    (delFileName : mem) (fileEvent : option FileEvent) : Ser :=
  EntryInfo_serialize parentInfoPtr ;;;
  ser_strlen_align4 delFileName ;;;
  ser_event h UNLINKFILEMSG_FLAG_HAS_EVENT fileEvent.

(** Lengths of the names of a rename or hard link are passed by the caller. *)
Definition RenameMsg_serializePayload (h : NetMessageHeader) (entryType : Z)
    (fromDirInfo toDirInfo : EntryInfo mem) (oldNameLen : Z) (oldName : mem) (newNameLen : Z)
    (newName : mem) (fileEvent : option FileEvent) : Ser :=
  Serialization_serializeUInt entryType ;;;
  EntryInfo_serialize fromDirInfo ;;;
  EntryInfo_serialize toDirInfo ;;;
  Serialization_serializeStrAlign4 oldNameLen oldName ;;;
  Serialization_serializeStrAlign4 newNameLen newName ;;;
  ser_event h RENAMEMSG_FLAG_HAS_EVENT fileEvent.

Definition HardlinkMsg_serializePayload (h : NetMessageHeader) (fromInfo toDirInfo : EntryInfo mem)
    (toNameLen : Z) (toName : mem) (fromDirInfo : EntryInfo mem) (fromNameLen : Z)
    (fromName : mem) (fileEvent : option FileEvent) : Ser :=
  EntryInfo_serialize fromInfo ;;;
  EntryInfo_serialize toDirInfo ;;;
  Serialization_serializeStrAlign4 toNameLen toName ;;;
  EntryInfo_serialize fromDirInfo ;;;
  Serialization_serializeStrAlign4 fromNameLen fromName ;;;
  ser_event h HARDLINKMSG_FLAG_HAS_EVENT fileEvent.

Definition SetAttrMsg_serializePayload (h : NetMessageHeader) (validAttribs : Z)
    (attribs : SettableFileAttribs) (entryInfoPtr : EntryInfo mem) (fileEvent : option FileEvent)
    : Ser :=
  Serialization_serializeInt validAttribs ;;;
  Serialization_serializeInt (sa_mode attribs) ;;;
  Serialization_serializeInt64 (sa_modificationTimeSecs attribs) ;;;
  Serialization_serializeInt64 (sa_lastAccessTimeSecs attribs) ;;;
  Serialization_serializeUInt (sa_userID attribs) ;;;
  Serialization_serializeUInt (sa_groupID attribs) ;;;
  EntryInfo_serialize entryInfoPtr ;;;
  ser_event h SETATTRMSG_FLAG_HAS_EVENT fileEvent.

Definition StatMsg_serializePayload (entryInfoPtr : EntryInfo mem) : Ser :=
  EntryInfo_serialize entryInfoPtr.

Definition TruncFileMsg_serializePayload (h : NetMessageHeader) (filesize : Z)
    (entryInfoPtr : EntryInfo mem) (fileEvent : option FileEvent) : Ser :=
  Serialization_serializeInt64 filesize ;;;
  EntryInfo_serialize entryInfoPtr ;;;
  ser_event h TRUNCFILEMSG_FLAG_HAS_EVENT fileEvent.

Definition RefreshEntryInfoMsg_serializePayload (entryInfoPtr : EntryInfo mem) : Ser :=
  EntryInfo_serialize entryInfoPtr.

Definition ListDirFromOffsetMsg_serializePayload (serverOffset maxOutNames : Z)
    (entryInfoPtr : EntryInfo mem) (filterDots : bool) : Ser :=
  Serialization_serializeInt64 serverOffset ;;;
  Serialization_serializeUInt maxOutNames ;;;
  EntryInfo_serialize entryInfoPtr ;;;
  Serialization_serializeBool filterDots.

Definition ListXAttrMsg_serializePayload (entryInfoPtr : EntryInfo mem) (size : Z) : Ser :=
  EntryInfo_serialize entryInfoPtr ;;;
  Serialization_serializeInt size.

Definition GetXAttrMsg_serializePayload (entryInfoPtr : EntryInfo mem) (name : mem) (size : Z)
    : Ser :=
  EntryInfo_serialize entryInfoPtr ;;;
  ser_strlen name ;;;
  Serialization_serializeInt size.

Definition RemoveXAttrMsg_serializePayload (entryInfoPtr : EntryInfo mem) (name : mem) : Ser :=
  EntryInfo_serialize entryInfoPtr ;;;
  ser_strlen name.

(** [size] is a [size_t]; the array length is an [unsigned]. *)
Definition SetXAttrMsg_serializePayload (entryInfoPtr : EntryInfo mem) (name value : mem)
    (size flags : Z) : Ser :=
  EntryInfo_serialize entryInfoPtr ;;;
  ser_strlen name ;;;
  Serialization_serializeCharArray (u32 size) value ;;;
  Serialization_serializeInt flags.

(** ** Requests: nodes, control and helper daemon *)

Definition RegisterNodeMsg_serializePayload (instanceVersion nicListVersion : Z) (nodeID : mem)
    (nicList : list NicAddress) (nodeType nodeNumID rootNumID : Z) (rootIsBuddyMirrored : bool)
    (portUDP portTCP : Z) : Ser :=
  Serialization_serializeUInt64 instanceVersion ;;;
  Serialization_serializeUInt64 nicListVersion ;;;
  ser_strlen nodeID ;;;
  Serialization_serializeNicList nicList ;;;
  Serialization_serializeInt nodeType ;;;
  NumNodeID_serialize nodeNumID ;;;
  NumNodeID_serialize rootNumID ;;;
  Serialization_serializeBool rootIsBuddyMirrored ;;;
  Serialization_serializeUShort portUDP ;;;
  Serialization_serializeUShort portTCP.

Definition HeartbeatMsgEx_serializePayload (instanceVersion nicListVersion nodeType : Z)
    (nodeID ackID : mem) (nodeNumID rootNumID : Z) (rootIsBuddyMirrored : bool)
    (portUDP portTCP : Z) (nicList : list NicAddress) : Ser :=
  Serialization_serializeUInt64 instanceVersion ;;;
  Serialization_serializeUInt64 nicListVersion ;;;
  Serialization_serializeInt nodeType ;;;
  ser_strlen nodeID ;;;
  ser_strlen_align4 ackID ;;;
  NumNodeID_serialize nodeNumID ;;;
  NumNodeID_serialize rootNumID ;;;
  Serialization_serializeBool rootIsBuddyMirrored ;;;
  Serialization_serializeUShort portUDP ;;;
  Serialization_serializeUShort portTCP ;;;
  Serialization_serializeNicList nicList.

Definition RemoveNodeMsgEx_serializePayload (nodeType nodeNumID : Z) (ackID : mem) : Ser :=
  Serialization_serializeShort nodeType ;;;
  NumNodeID_serialize nodeNumID ;;;
  ser_strlen ackID.

Definition PeerInfoMsg_serializePayload (type id : Z) : Ser :=
  Serialization_serializeUInt type ;;;
  NumNodeID_serialize id.

Definition LogMsg_serializePayload (level threadID : Z) (threadName context logMsg : mem) : Ser :=
  Serialization_serializeInt level ;;;
  Serialization_serializeInt threadID ;;;
  ser_strlen threadName ;;;
  ser_strlen context ;;;
  ser_strlen logMsg.

Definition GetHostByNameMsg_serializePayload (hostname : mem) : Ser := ser_strlen hostname.

(** ** Message headers as the constructors of the requests make them *)

Section Init.
Context (currentUserID : Z).

Definition init_event (type flag : Z) (fileEvent : option FileEvent) : NetMessageHeader :=
  let h := NetMessage_init currentUserID type in
  match fileEvent with
  | Some _ => header_set_flags h (u16 (Z.lor (msgFeatureFlags h) flag)) (msgCompatFeatureFlags h)
                (msgFlags h)
  | None => h
  end.

Definition NETMSGTYPE_OpenFile : Z := 3001.
Definition NETMSGTYPE_CloseFile : Z := 3003.
Definition NETMSGTYPE_BumpFileVersion : Z := 3033.
Definition NETMSGTYPE_LookupIntent : Z := 2059.
Definition NETMSGTYPE_MkDir : Z := 2001.
Definition NETMSGTYPE_MkFile : Z := 2005.
Definition NETMSGTYPE_RmDir : Z := 2003.
Definition NETMSGTYPE_UnlinkFile : Z := 2007.
Definition NETMSGTYPE_Rename : Z := 2023.
Definition NETMSGTYPE_Hardlink : Z := 2071.
Definition NETMSGTYPE_SetAttr : Z := 2025.
Definition NETMSGTYPE_TruncFile : Z := 2019.
Definition NETMSGTYPE_RefreshEntryInfo : Z := 2055.
Definition BUMPFILEVERSIONMSG_FLAG_PERSISTENT : Z := 1.
Definition STORAGEPOOLID_INVALIDPOOLID : Z := 0.

Definition OpenFileMsg_initFromSession := init_event NETMSGTYPE_OpenFile OPENFILEMSG_FLAG_HAS_EVENT.
Definition CloseFileMsg_initFromSession :=
  init_event NETMSGTYPE_CloseFile CLOSEFILEMSG_FLAG_HAS_EVENT.
Definition RmDirMsg_initFromEntryInfo := init_event NETMSGTYPE_RmDir RMDIRMSG_FLAG_HAS_EVENT.
Definition UnlinkFileMsg_initFromEntryInfo :=
  init_event NETMSGTYPE_UnlinkFile UNLINKFILEMSG_FLAG_HAS_EVENT.
Definition RenameMsg_initFromEntryInfo := init_event NETMSGTYPE_Rename RENAMEMSG_FLAG_HAS_EVENT.
Definition HardlinkMsg_initFromEntryInfo :=
  init_event NETMSGTYPE_Hardlink HARDLINKMSG_FLAG_HAS_EVENT.
Definition SetAttrMsg_initFromEntryInfo := init_event NETMSGTYPE_SetAttr SETATTRMSG_FLAG_HAS_EVENT.
Definition TruncFileMsg_initFromEntryInfo :=
  init_event NETMSGTYPE_TruncFile TRUNCFILEMSG_FLAG_HAS_EVENT.
Definition MkDirMsg_initFromEntryInfo := init_event NETMSGTYPE_MkDir MKDIRMSG_FLAG_HAS_EVENT.

Definition MkFileMsg_initFromEntryInfo (storagePoolId : Z) (fileEvent : option FileEvent)
    : NetMessageHeader :=
  let h := init_event NETMSGTYPE_MkFile MKFILEMSG_FLAG_HAS_EVENT fileEvent in
  if negb (storagePoolId =? STORAGEPOOLID_INVALIDPOOLID)
  then NetMessage_addMsgHeaderFeatureFlag h MKFILEMSG_FLAG_STORAGEPOOLID else h.

(** Adding the creation intent: the event is only sent with it. *)
Definition LookupIntentMsg_addIntentCreate (h : NetMessageHeader) (intentFlags : Z)
    (fileEvent : option FileEvent) : NetMessageHeader * Z :=
  (match fileEvent with
   | Some _ => header_set_flags h (u16 (Z.lor (msgFeatureFlags h) LOOKUPINTENTMSG_FLAG_HAS_EVENT))
                 (msgCompatFeatureFlags h) (msgFlags h)
   | None => h
   end, s32 (Z.lor intentFlags LOOKUPINTENTMSG_FLAG_CREATE)).

Definition BumpFileVersionMsg_init (persistent : bool) (fileEvent : option FileEvent)
    : NetMessageHeader :=
  let h := NetMessage_init currentUserID NETMSGTYPE_BumpFileVersion in
  let h := if persistent
           then NetMessage_addMsgHeaderFeatureFlag h BUMPFILEVERSIONMSG_FLAG_PERSISTENT else h in
  match fileEvent with
  | Some _ => NetMessage_addMsgHeaderFeatureFlag h BUMPFILEVERSIONMSG_FLAG_HASEVENT
  | None => h
  end.

End Init.

(** ** All requests *)

Inductive Request :=
  | ReadLocalFileV2Msg (offset count accessFlags : Z) (fileHandleID : mem) (clientNumID : Z)
      (pathInfoPtr : PathInfo mem) (targetID : Z)
  | WriteLocalFileMsg (offset count accessFlags : Z) (fileHandleID : mem) (clientNumID : Z)
      (pathInfo : PathInfo mem) (targetID userID groupID : Z)
  | FSyncLocalFileMsg (clientNumID : Z) (fileHandleID : mem) (targetID : Z)
  | OpenFileMsg (clientNumID accessFlags : Z) (e : EntryInfo mem) (fileEvent : option FileEvent)
  | CloseFileMsg (clientNumID : Z) (fileHandleID : mem) (e : EntryInfo mem) (maxUsedNodeIndex : Z)
      (fileEvent : option FileEvent)
  | BumpFileVersionMsg (e : EntryInfo mem) (fileEvent : option FileEvent)
  | GetFileVersionMsg (e : EntryInfo mem)
  | FLockAppendMsg (clientNumID clientFD ownerPID lockTypeFlags : Z) (e : EntryInfo mem)
      (fileHandleID lockAckID : mem)
  | FLockEntryMsg (clientNumID clientFD ownerPID lockTypeFlags : Z) (e : EntryInfo mem)
      (fileHandleID lockAckID : mem)
  | FLockRangeMsg (clientNumID start end_ ownerPID lockTypeFlags : Z) (e : EntryInfo mem)
      (fileHandleID lockAckID : mem)
  | LookupIntentMsg (intentFlags : Z) (parentInfo : EntryInfo mem) (entryName : mem)
      (e : EntryInfo mem) (accessFlags clientNumID userID groupID mode umask : Z)
      (preferredTargets : list Z) (fileEvent : option FileEvent)
  | MkDirMsg (userID groupID mode umask : Z) (parentInfo : EntryInfo mem) (newDirName : mem)
      (preferredNodes : list Z) (fileEvent : option FileEvent)
  | MkFileMsg (userID groupID mode umask numtargets chunksize storagePoolId : Z)
      (parentInfo : EntryInfo mem) (newFileName : mem) (preferredTargets : list Z)
      (fileEvent : option FileEvent)
  | RmDirMsg (parentInfo : EntryInfo mem) (delDirName : mem) (fileEvent : option FileEvent)
  | UnlinkFileMsg (parentInfo : EntryInfo mem) (delFileName : mem) (fileEvent : option FileEvent)
  | RenameMsg (entryType : Z) (fromDirInfo toDirInfo : EntryInfo mem) (oldName newName : mem)
      (fileEvent : option FileEvent)
  | HardlinkMsg (fromInfo toDirInfo : EntryInfo mem) (toName : mem) (fromDirInfo : EntryInfo mem)
      (fromName : mem) (fileEvent : option FileEvent)
  | SetAttrMsg (validAttribs : Z) (attribs : SettableFileAttribs) (e : EntryInfo mem)
      (fileEvent : option FileEvent)
  | StatMsg (e : EntryInfo mem)
  | TruncFileMsg (filesize : Z) (e : EntryInfo mem) (fileEvent : option FileEvent)
  | RefreshEntryInfoMsg (e : EntryInfo mem)
  | ListDirFromOffsetMsg (serverOffset maxOutNames : Z) (e : EntryInfo mem) (filterDots : bool)
  | ListXAttrMsg (e : EntryInfo mem) (size : Z)
  | GetXAttrMsg (e : EntryInfo mem) (name : mem) (size : Z)
  | RemoveXAttrMsg (e : EntryInfo mem) (name : mem)
  | SetXAttrMsg (e : EntryInfo mem) (name value : mem) (flags : Z)
  | RegisterNodeMsg (instanceVersion nicListVersion : Z) (nodeID : mem) (nicList : list NicAddress)
      (nodeType nodeNumID rootNumID : Z) (rootIsBuddyMirrored : bool) (portUDP portTCP : Z)
  | HeartbeatMsgEx (instanceVersion nicListVersion nodeType : Z) (nodeID ackID : mem)
      (nodeNumID rootNumID : Z) (rootIsBuddyMirrored : bool) (portUDP portTCP : Z)
      (nicList : list NicAddress)
  | RemoveNodeMsgEx (nodeType nodeNumID : Z) (ackID : mem)
  | PeerInfoMsg (type id : Z)
  | LogMsg (level threadID : Z) (threadName context logMsg : mem)
  | GetHostByNameMsg (hostname : mem).

(** The [serializePayload] entry of each message's table of operations.  Names are
    passed with their length. *)
Definition request_serializePayload (h : NetMessageHeader) (r : Request) : Ser :=
  match r with
  | ReadLocalFileV2Msg o c a fh cl pi t => ReadLocalFileV2Msg_serializePayload o c a fh cl pi t
  | WriteLocalFileMsg o c a fh cl pi t u g => WriteLocalFileMsg_serializePayload h o c a fh cl pi t u g
  | FSyncLocalFileMsg cl fh t => FSyncLocalFileMsg_serializePayload cl fh t
  | OpenFileMsg cl a e ev => OpenFileMsg_serializePayload h cl a e ev
  | CloseFileMsg cl fh e x ev => CloseFileMsg_serializePayload h cl fh e x ev
  | BumpFileVersionMsg e ev => BumpFileVersionMsg_serializePayload h e ev
  | GetFileVersionMsg e => GetFileVersionMsg_serializePayload e
  | FLockAppendMsg cl fd p l e fh a => FLockAppendMsg_serializePayload cl fd p l e fh a
  | FLockEntryMsg cl fd p l e fh a => FLockEntryMsg_serializePayload cl fd p l e fh a
  | FLockRangeMsg cl s t p l e fh a => FLockRangeMsg_serializePayload cl s t p l e fh a
  | LookupIntentMsg f pa n e a cl u g mo um pt ev =>
      LookupIntentMsg_serializePayload h f pa n e a cl u g mo um pt ev
  | MkDirMsg u g mo um pa n pn ev => MkDirMsg_serializePayload h u g mo um pa n pn ev
  | MkFileMsg u g mo um nt cs sp pa n pt ev =>
      MkFileMsg_serializePayload h u g mo um nt cs sp pa n pt ev
  | RmDirMsg pa n ev => RmDirMsg_serializePayload h pa n ev
  | UnlinkFileMsg pa n ev => UnlinkFileMsg_serializePayload h pa n ev
  | RenameMsg ty fd td o n ev =>
      RenameMsg_serializePayload h ty fd td (u32 (mlen o)) o (u32 (mlen n)) n ev
  | HardlinkMsg fi td tn fd fn ev =>
      HardlinkMsg_serializePayload h fi td (u32 (mlen tn)) tn fd (u32 (mlen fn)) fn ev
  | SetAttrMsg v a e ev => SetAttrMsg_serializePayload h v a e ev
  | StatMsg e => StatMsg_serializePayload e
  | TruncFileMsg s e ev => TruncFileMsg_serializePayload h s e ev
  | RefreshEntryInfoMsg e => RefreshEntryInfoMsg_serializePayload e
  | ListDirFromOffsetMsg o x e d => ListDirFromOffsetMsg_serializePayload o x e d
  | ListXAttrMsg e s => ListXAttrMsg_serializePayload e s
  | GetXAttrMsg e n s => GetXAttrMsg_serializePayload e n s
  | RemoveXAttrMsg e n => RemoveXAttrMsg_serializePayload e n
  | SetXAttrMsg e n v f => SetXAttrMsg_serializePayload e n v (mlen v) f
  | RegisterNodeMsg iv nv id nl ty nu ro bm u t =>
      RegisterNodeMsg_serializePayload iv nv id nl ty nu ro bm u t
  | HeartbeatMsgEx iv nv ty id ack nu ro bm u t nl =>
      HeartbeatMsgEx_serializePayload iv nv ty id ack nu ro bm u t nl
  | RemoveNodeMsgEx ty nu ack => RemoveNodeMsgEx_serializePayload ty nu ack
  | PeerInfoMsg ty id => PeerInfoMsg_serializePayload ty id
  | LogMsg lv th tn c l => LogMsg_serializePayload lv th tn c l
  | GetHostByNameMsg n => GetHostByNameMsg_serializePayload n
  end.

(** The messages whose tables set [.supportsSequenceNumbers]. *)
Definition request_supportsSequenceNumbers (r : Request) : bool :=
  match r with
  | OpenFileMsg _ _ _ _ | CloseFileMsg _ _ _ _ _ | BumpFileVersionMsg _ _
  | FLockEntryMsg _ _ _ _ _ _ _ | FLockRangeMsg _ _ _ _ _ _ _ _
  | LookupIntentMsg _ _ _ _ _ _ _ _ _ _ _ _ | MkDirMsg _ _ _ _ _ _ _ _
  | MkFileMsg _ _ _ _ _ _ _ _ _ _ _ | RmDirMsg _ _ _ | UnlinkFileMsg _ _ _
  | RenameMsg _ _ _ _ _ _ | HardlinkMsg _ _ _ _ _ _ | SetAttrMsg _ _ _ _
  | RefreshEntryInfoMsg _ | RemoveXAttrMsg _ _ | SetXAttrMsg _ _ _ _ => true
  | _ => false
  end.

Definition request_ops (r : Request) : NetMessageOps Request unit :=
  mkOps request_serializePayload _NetMessage_deserializeDummy
    (match r with StatMsg _ => STATMSG_FLAG_GET_PARENTINFO
     | _ => NetMessage_getSupportedHeaderFeatureFlagsMask end)
    (request_supportsSequenceNumbers r).

(** ** What requests write *)

Definition str_ok (s : mem) : Prop := mlen s + 1 < 2 ^ 32.
Definition ids_ok (l : list Z) : Prop := Z.of_nat (length l) < 2 ^ 32.
Definition nics_ok (l : list NicAddress) : Prop := Forall nic_wf l /\ Z.of_nat (length l) < 2 ^ 32.
Definition event_wf (e : FileEvent) : Prop :=
  (match ev_path e with Some s => str_ok s | None => True end) /\
  (match ev_target e with Some s => str_ok s | None => True end).

(** The flag in the header promises an event. *)
Definition event_ok (h : NetMessageHeader) (flag : Z) (ev : option FileEvent) : Prop :=
  flag_set (msgFeatureFlags h) flag = true -> exists e, ev = Some e /\ event_wf e.

Definition request_wf (h : NetMessageHeader) (r : Request) : Prop :=
  match r with
  | ReadLocalFileV2Msg _ _ _ fh _ pi _ | WriteLocalFileMsg _ _ _ fh _ pi _ _ _ =>
      str_ok fh /\ pathinfo_wf pi
  | FSyncLocalFileMsg _ fh _ => str_ok fh
  | OpenFileMsg _ _ e ev => entryinfo_wf e /\ event_ok h OPENFILEMSG_FLAG_HAS_EVENT ev
  | CloseFileMsg _ fh e _ ev =>
      str_ok fh /\ entryinfo_wf e /\ event_ok h CLOSEFILEMSG_FLAG_HAS_EVENT ev
  | BumpFileVersionMsg e ev => entryinfo_wf e /\ event_ok h BUMPFILEVERSIONMSG_FLAG_HASEVENT ev
  | GetFileVersionMsg e | StatMsg e | RefreshEntryInfoMsg e | ListDirFromOffsetMsg _ _ e _
  | ListXAttrMsg e _ => entryinfo_wf e
  | FLockAppendMsg _ _ _ _ e fh a | FLockEntryMsg _ _ _ _ e fh a
  | FLockRangeMsg _ _ _ _ _ e fh a => entryinfo_wf e /\ str_ok fh /\ str_ok a
  | LookupIntentMsg f pa n e _ _ _ _ _ _ pt ev =>
      entryinfo_wf pa /\ str_ok n /\ entryinfo_wf e /\ ids_ok pt /\
      event_ok h LOOKUPINTENTMSG_FLAG_HAS_EVENT ev
  | MkDirMsg _ _ _ _ pa n pn ev =>
      entryinfo_wf pa /\ str_ok n /\ ids_ok pn /\ event_ok h MKDIRMSG_FLAG_HAS_EVENT ev
  | MkFileMsg _ _ _ _ _ _ _ pa n pt ev =>
      entryinfo_wf pa /\ str_ok n /\ ids_ok pt /\ event_ok h MKFILEMSG_FLAG_HAS_EVENT ev
  | RmDirMsg pa n ev => entryinfo_wf pa /\ str_ok n /\ event_ok h RMDIRMSG_FLAG_HAS_EVENT ev
  | UnlinkFileMsg pa n ev =>
      entryinfo_wf pa /\ str_ok n /\ event_ok h UNLINKFILEMSG_FLAG_HAS_EVENT ev
  | RenameMsg _ fd td o n ev =>
      entryinfo_wf fd /\ entryinfo_wf td /\ str_ok o /\ str_ok n /\
      event_ok h RENAMEMSG_FLAG_HAS_EVENT ev
  | HardlinkMsg fi td tn fd fn ev =>
      entryinfo_wf fi /\ entryinfo_wf td /\ str_ok tn /\ entryinfo_wf fd /\ str_ok fn /\
      event_ok h HARDLINKMSG_FLAG_HAS_EVENT ev
  | SetAttrMsg _ _ e ev => entryinfo_wf e /\ event_ok h SETATTRMSG_FLAG_HAS_EVENT ev
  | TruncFileMsg _ e ev => entryinfo_wf e /\ event_ok h TRUNCFILEMSG_FLAG_HAS_EVENT ev
  | GetXAttrMsg e n _ | RemoveXAttrMsg e n => entryinfo_wf e /\ str_ok n
  | SetXAttrMsg e n v _ => entryinfo_wf e /\ str_ok n /\ str_ok v
  | RegisterNodeMsg _ _ id nl _ _ _ _ _ _ => str_ok id /\ nics_ok nl
  | HeartbeatMsgEx _ _ _ id ack _ _ _ _ _ nl => str_ok id /\ str_ok ack /\ nics_ok nl
  | RemoveNodeMsgEx _ _ ack => str_ok ack
  | PeerInfoMsg _ _ => True
  | LogMsg _ _ tn c l => str_ok tn /\ str_ok c /\ str_ok l
  | GetHostByNameMsg n => str_ok n
  end.

(** The payload depends on the header only through the feature flags. *)
Lemma request_payload_length h len r :
  request_serializePayload (header_set_length h len) r = request_serializePayload h r.
Proof. destruct r; reflexivity. Qed.

(** Constructors promise an event exactly when they are given one. *)
Lemma init_event_ok uid type flag ev :
  0 < flag < 2 ^ 16 -> (forall e, ev = Some e -> event_wf e) ->
  event_ok (init_event uid type flag ev) flag ev /\
  (flag_set (msgFeatureFlags (init_event uid type flag ev)) flag = true <-> is_Some ev).
Proof.
  intros Hf Hev. unfold event_ok, init_event, flag_set.
  assert (E : Z.land (u16 (Z.lor 0 flag)) flag = flag).
  { rewrite Z.lor_0_l. unfold u16. rewrite wrap_id by (unfold in_u; lia). apply Z.land_diag. }
  destruct ev as [e|]; cbn [NetMessage_init header_set_flags msgFeatureFlags].
  - rewrite E. destruct (Z.eqb_spec flag 0); [lia|]. split; [intros _; eauto|by split; eauto].
  - rewrite Z.land_0_l. split; [done|]. split; [done|by intros [? ?]].
Qed.
