(* ===== verification/MessageFormat.v ===== *)
(** * The format of the requests on the wire

    What the servers read: [request_fields] lists the fields of the payload of each
    of the 32 requests in the order in which the servers' classes in
    [src/common/source/common/net/message/*] read them ([serialize(This, Ctx)] there),
    with the servers' values of the feature flags as bit numbers; [encode] is the
    byte format of each kind of field.  None of it mentions the client's serializers
    of Messages.v, EntryInfo.v and SerializationLists.v: the theorem is that these
    write exactly that format. *)

From S2P Require Import Prelude Serialization SerializationLists StripePattern.
From S2P Require Import EntryInfo NetMessage Messages.

(** ** Fields *)

(** Integers of 1, 2, 4 and 8 bytes (negative ones as two's complement), a string, a
    string that is padded so that its length, with the terminating zero, is a
    multiple of four, a counted array of bytes, and bytes as they are. *)
Inductive Field :=
  | F8 (v : Z) | F16 (v : Z) | F32 (v : Z) | F64 (v : Z)
  | FStr (s : mem) | FStr4 (s : mem) | FArray (a : mem) | FRaw (bs : mem).

Definition enc_field (f : Field) : mem :=
  match f with
  | F8 v => [u8 v]
  | F16 v => le_split 2 v
  | F32 v => le_split 4 v
  | F64 v => le_split 8 v
  | FStr s => le_split 4 (mlen s) ++ s ++ [0]
  | FStr4 s => le_split 4 (mlen s) ++ s ++ [0] ++ replicate (Z.to_nat ((- (mlen s + 1)) mod 4)) 0
  | FArray a => le_split 4 (mlen a) ++ a
  | FRaw bs => bs
  end.

Definition encode (fs : list Field) : mem := concat (enc_field <$> fs).

Definition bool_field (b : bool) : Field := F8 (if b then 1 else 0).

(** common/storage/EntryInfo.h, PathInfo.h, FileEvent.h, common/net/sock/NetworkInterfaceCard.h *)
Definition entry_fields (e : EntryInfo mem) : list Field :=
  [F32 (ei_entryType e); F32 (ei_featureFlags e); FStr4 (ei_parentEntryID e); FStr4 (ei_entryID e);
   FStr4 (ei_fileName e); F32 (owner_group (ei_owner e)); F16 0].

Definition path_fields (i : PathInfo mem) : list Field :=
  F32 (pi_flags i) ::
  if Z.testbit (pi_flags i) 0
  then [F32 (pi_origParentUID i); FStr4 (default [] (pi_origParentEntryID i))] else [].

Definition file_event_fields (e : FileEvent) : list Field :=
  [F32 (ev_eventType e); FStr (default [] (ev_path e))] ++
  match ev_target e with
  | Some target => [bool_field true; FStr target]
  | None => [bool_field false]
  end.

(** [if (obj->isMsgHeaderFeatureFlagSet(1 << bit)) ctx % obj->fileEvent] *)
Definition event_fields (h : NetMessageHeader) (bit : Z) (ev : option FileEvent) : list Field :=
  if Z.testbit (msgFeatureFlags h) bit then from_option file_event_fields [] ev else [].

Definition nic_fields (a : NicAddress) : list Field :=
  [F32 (ipAddr a); FRaw (nicName a); F8 (nicType a); FRaw [0; 0; 0]].

Definition nics_fields (l : list NicAddress) : list Field :=
  F32 (Z.of_nat (length l)) :: concat (nic_fields <$> l).

(** A vector is preceded by the length of its encoding and the number of elements. *)
Definition ids_fields (l : list Z) : list Field :=
  F32 (2 * Z.of_nat (length l) + 8) :: F32 (Z.of_nat (length l)) :: (F16 <$> l).

(** ** The payload of each request *)

Definition request_fields (h : NetMessageHeader) (r : Request) : list Field :=
  let flag := Z.testbit (msgFeatureFlags h) in
  match r with
  | ReadLocalFileV2Msg offset count accessFlags fileHandleID clientNumID pathInfo targetID =>
      [F64 offset; F64 count; F32 accessFlags; FStr4 fileHandleID; F32 clientNumID] ++
      path_fields pathInfo ++ [F16 targetID]
  | WriteLocalFileMsg offset count accessFlags fileHandleID clientNumID pathInfo targetID userID
      groupID =>
      [F64 offset; F64 count; F32 accessFlags] ++
      (if flag 1 then [F32 userID; F32 groupID] else []) ++
      [FStr4 fileHandleID; F32 clientNumID] ++ path_fields pathInfo ++ [F16 targetID]
  | FSyncLocalFileMsg sessionID fileHandleID targetID =>
      [F32 sessionID; FStr4 fileHandleID; F16 targetID]
  | OpenFileMsg clientNumID accessFlags entryInfo ev =>
      [F32 clientNumID; F32 accessFlags] ++ entry_fields entryInfo ++ event_fields h 1 ev
  | CloseFileMsg clientNumID fileHandleID entryInfo maxUsedNodeIndex ev =>
      [F32 clientNumID; FStr4 fileHandleID] ++ entry_fields entryInfo ++ [F32 maxUsedNodeIndex] ++
      event_fields h 3 ev
  | BumpFileVersionMsg entryInfo ev => entry_fields entryInfo ++ event_fields h 1 ev
  | GetFileVersionMsg entryInfo | StatMsg entryInfo | RefreshEntryInfoMsg entryInfo =>
      entry_fields entryInfo
  | FLockAppendMsg clientNumID clientFD ownerPID lockTypeFlags entryInfo fileHandleID lockAckID
  | FLockEntryMsg clientNumID clientFD ownerPID lockTypeFlags entryInfo fileHandleID lockAckID =>
      [F32 clientNumID; F64 clientFD; F32 ownerPID; F32 lockTypeFlags] ++
      entry_fields entryInfo ++ [FStr4 fileHandleID; FStr4 lockAckID]
  | FLockRangeMsg clientNumID start end_ ownerPID lockTypeFlags entryInfo fileHandleID lockAckID =>
      [F32 clientNumID; F64 start; F64 end_; F32 ownerPID; F32 lockTypeFlags] ++
      entry_fields entryInfo ++ [FStr4 fileHandleID; FStr4 lockAckID]
  | LookupIntentMsg intentFlags parentInfo entryName entryInfo accessFlags sessionID userID groupID
      mode umask preferredTargets ev =>
      [F32 intentFlags] ++ entry_fields parentInfo ++ [FStr4 entryName] ++
      (if Z.testbit intentFlags 0 then entry_fields entryInfo else []) ++
      (if Z.testbit intentFlags 3 then [F32 accessFlags; F32 sessionID] else []) ++
      (if Z.testbit intentFlags 1 then
         [F32 userID; F32 groupID; F32 mode; F32 umask] ++ ids_fields preferredTargets ++
         event_fields h 3 ev
       else [])
  | MkDirMsg userID groupID mode umask parentInfo newDirName preferredNodes ev =>
      [F32 userID; F32 groupID; F32 mode; F32 umask] ++ entry_fields parentInfo ++
      [FStr4 newDirName] ++ ids_fields preferredNodes ++ event_fields h 2 ev
  | MkFileMsg userID groupID mode umask numtargets chunksize storagePoolId parentInfo newName
      preferredTargets ev =>
      [F32 userID; F32 groupID; F32 mode; F32 umask] ++
      (if flag 0 then [F32 numtargets; F32 chunksize] else []) ++
      (if flag 1 then [F16 storagePoolId] else []) ++
      entry_fields parentInfo ++ [FStr4 newName] ++ ids_fields preferredTargets ++
      event_fields h 2 ev
  | RmDirMsg parentInfo name ev | UnlinkFileMsg parentInfo name ev =>
      entry_fields parentInfo ++ [FStr4 name] ++ event_fields h 0 ev
  | RenameMsg entryType fromDirInfo toDirInfo oldName newName ev =>
      [F32 entryType] ++ entry_fields fromDirInfo ++ entry_fields toDirInfo ++
      [FStr4 oldName; FStr4 newName] ++ event_fields h 0 ev
  | HardlinkMsg fromInfo toDirInfo toName fromDirInfo fromName ev =>
      entry_fields fromInfo ++ entry_fields toDirInfo ++ [FStr4 toName] ++
      entry_fields fromDirInfo ++ [FStr4 fromName] ++ event_fields h 1 ev
  | SetAttrMsg validAttribs attribs entryInfo ev =>
      [F32 validAttribs; F32 (sa_mode attribs); F64 (sa_modificationTimeSecs attribs);
       F64 (sa_lastAccessTimeSecs attribs); F32 (sa_userID attribs); F32 (sa_groupID attribs)] ++
      entry_fields entryInfo ++ event_fields h 2 ev
  | TruncFileMsg filesize entryInfo ev =>
      [F64 filesize] ++ entry_fields entryInfo ++ event_fields h 1 ev
  | ListDirFromOffsetMsg serverOffset maxOutNames entryInfo filterDots =>
      [F64 serverOffset; F32 maxOutNames] ++ entry_fields entryInfo ++ [bool_field filterDots]
  | ListXAttrMsg entryInfo size => entry_fields entryInfo ++ [F32 size]
  | GetXAttrMsg entryInfo name size => entry_fields entryInfo ++ [FStr name; F32 size]
  | RemoveXAttrMsg entryInfo name => entry_fields entryInfo ++ [FStr name]
  | SetXAttrMsg entryInfo name value flags =>
      entry_fields entryInfo ++ [FStr name; FArray value; F32 flags]
  | RegisterNodeMsg instanceVersion nicListVersion nodeID nicList nodeType nodeNumID rootNumID
      rootIsBuddyMirrored portUDP portTCP =>
      [F64 instanceVersion; F64 nicListVersion; FStr nodeID] ++ nics_fields nicList ++
      [F32 nodeType; F32 nodeNumID; F32 rootNumID; bool_field rootIsBuddyMirrored; F16 portUDP;
       F16 portTCP]
  | HeartbeatMsgEx instanceVersion nicListVersion nodeType nodeID ackID nodeNumID rootNumID
      rootIsBuddyMirrored portUDP portTCP nicList =>
      [F64 instanceVersion; F64 nicListVersion; F32 nodeType; FStr nodeID; FStr4 ackID;
       F32 nodeNumID; F32 rootNumID; bool_field rootIsBuddyMirrored; F16 portUDP; F16 portTCP] ++
      nics_fields nicList
  | RemoveNodeMsgEx nodeType nodeNumID ackID => [F16 nodeType; F32 nodeNumID; FStr ackID]
  | PeerInfoMsg type id => [F32 type; F32 id]
  | LogMsg level threadID threadName context logMsg =>
      [F32 level; F32 threadID; FStr threadName; FStr context; FStr logMsg]
  | GetHostByNameMsg hostname => [FStr hostname]
  end.

(** ** Serializers that write a list of fields *)

Lemma encode_app f1 f2 : encode (f1 ++ f2) = encode f1 ++ encode f2.
Proof. unfold encode. by rewrite fmap_app, concat_app. Qed.

Definition Sends (s : Ser) (fs : list Field) : Prop := Writes s (encode fs).

Lemma sends_app s1 s2 f1 f2 : Sends s1 f1 -> Sends s2 f2 -> Sends (s1 ;;; s2) (f1 ++ f2).
Proof. unfold Sends. rewrite encode_app. apply writes_seq. Qed.

Lemma sends_one s f : Writes s (enc_field f) -> Sends s [f].
Proof. unfold Sends, encode. cbn. by rewrite app_nil_r. Qed.

Lemma sends_cons s1 s2 f fs : Sends s1 [f] -> Sends s2 fs -> Sends (s1 ;;; s2) (f :: fs).
Proof. apply (sends_app s1 s2 [f] fs). Qed.

Lemma sends_assoc s1 s2 s3 fs : Sends (s1 ;;; (s2 ;;; s3)) fs -> Sends ((s1 ;;; s2) ;;; s3) fs.
Proof.
  apply writes_ext. intros m c. unfold ser_seq, mbind, outcome_bind.
  destruct (s1 m c) as [[? ?]|]; reflexivity.
Qed.

Lemma sends_nil : Sends ser_skip [].
Proof. exact writes_skip. Qed.

Lemma sends_if (b b' : bool) s1 s2 f1 f2 :
  b = b' -> (b' = true -> Sends s1 f1) -> (b' = false -> Sends s2 f2) ->
  Sends (if b then s1 else s2) (if b' then f1 else f2).
Proof. intros <-. destruct b; auto. Qed.

(** A mask test is the test of the bit. *)
Lemma mask_bit x k : 0 <= k -> negb (Z.land x (2 ^ k) =? 0) = Z.testbit x k.
Proof.
  intros Hk. destruct (Z.testbit x k) eqn:E.
  - destruct (Z.eqb_spec (Z.land x (2 ^ k)) 0) as [H|]; [|done].
    apply (f_equal (fun y => Z.testbit y k)) in H.
    by rewrite Z.land_spec, E, Z.pow2_bits_true, Z.bits_0 in H.
  - apply negb_false_iff, Z.eqb_eq, Z.bits_inj'. intros n Hn.
    rewrite Z.land_spec, Z.bits_0, Z.pow2_bits_eqb by lia.
    destruct (Z.eqb_spec k n) as [<-|]; [by rewrite E|apply andb_false_r].
Qed.

(** Two's complement: an integer and its value modulo [2^(8 n)] have the same bytes. *)
Lemma le_split_wrap n x : le_split n (wrap (8 * Z.of_nat n) x) = le_split n x.
Proof.
  revert x. induction n as [|n IH]; intros x; [done|].
  change (u8 (wrap (8 * Z.of_nat (S n)) x) :: le_split n (Z.shiftr (wrap (8 * Z.of_nat (S n)) x) 8) =
          u8 x :: le_split n (Z.shiftr x 8)).
  rewrite <- (IH (Z.shiftr x 8)), <- (IH (Z.shiftr (wrap _ x) 8)). unfold u8, wrap.
  rewrite <- !Z.land_ones by lia. f_equal; [|f_equal]; apply Z.bits_inj'; intros i Hi.
  - rewrite !Z.land_spec, !Z.testbit_ones_nonneg by lia.
    destruct (Z.ltb_spec i 8), (Z.ltb_spec i (8 * Z.of_nat (S n))); try lia;
      by rewrite ?andb_true_r, ?andb_false_r.
  - rewrite !Z.land_spec, !Z.shiftr_spec, Z.land_spec, !Z.testbit_ones_nonneg by lia.
    destruct (Z.ltb_spec i (8 * Z.of_nat n)), (Z.ltb_spec (i + 8) (8 * Z.of_nat (S n))); try lia;
      by rewrite ?andb_true_r, ?andb_false_r.
Qed.

Lemma le2 v : le_split 2 (u16 v) = le_split 2 v.
Proof. apply (le_split_wrap 2). Qed.
Lemma le4 v : le_split 4 (u32 v) = le_split 4 v.
Proof. apply (le_split_wrap 4). Qed.
Lemma le8 v : le_split 8 (u64 v) = le_split 8 v.
Proof. apply (le_split_wrap 8). Qed.

(** ** The serializers of the client's data *)

Section Items.
Lemma sends_bool b : Sends (Serialization_serializeBool b) [bool_field b].
Proof. apply sends_one. destruct b; apply _. Qed.
Lemma sends_short v : Sends (Serialization_serializeShort v) [F16 v].
Proof. apply sends_one. cbn. rewrite <- le2. apply _. Qed.
Lemma sends_ushort v : Sends (Serialization_serializeUShort v) [F16 v].
Proof. apply sends_one, _. Qed.
Lemma sends_int v : Sends (Serialization_serializeInt v) [F32 v].
Proof. apply sends_one. cbn. rewrite <- le4. apply _. Qed.
Lemma sends_uint v : Sends (Serialization_serializeUInt v) [F32 v].
Proof. apply sends_one, _. Qed.
Lemma sends_int64 v : Sends (Serialization_serializeInt64 v) [F64 v].
Proof. apply sends_one. cbn. rewrite <- le8. apply _. Qed.
Lemma sends_uint64 v : Sends (Serialization_serializeUInt64 v) [F64 v].
Proof. apply sends_one, _. Qed.

Lemma sends_str s : str_ok s -> Sends (ser_strlen s) [FStr s].
Proof. intros H. apply sends_one, writes_strlen. unfold str_ok in H. lia. Qed.
Lemma sends_str4 s : str_ok s -> Sends (ser_strlen_align4 s) [FStr4 s].
Proof.
  intros H. apply sends_one. pose proof (writes_strlen_align4 s H) as W.
  unfold enc_str_align4, enc_str, align_pad in W. cbn. by rewrite <- !app_assoc in W.
Qed.
Lemma sends_str4_len s :
  str_ok s -> Sends (Serialization_serializeStrAlign4 (u32 (mlen s)) s) [FStr4 s].
Proof. apply sends_str4. Qed.
Lemma sends_array a : str_ok a -> Sends (Serialization_serializeCharArray (u32 (mlen a)) a) [FArray a].
Proof.
  intros H. unfold str_ok in H. pose proof (mlen_nonneg a). rewrite u32_id by lia.
  apply sends_one, writes_chararray.
Qed.
End Items.

#[export] Hint Resolve sends_nil sends_bool sends_short sends_ushort sends_int sends_uint sends_int64
  sends_uint64 sends_str sends_str4 sends_str4_len sends_array : wire.

(** Split a message into its fields; the leaves are closed by the hint database. *)
Ltac sends :=
  repeat (lazymatch goal with
  | |- Sends ((_ ;;; _) ;;; _) _ => apply sends_assoc
  | |- Sends (_ ;;; _) ((_ :: _) ++ _) => cbn [app]
  | |- Sends (_ ;;; _) ([] ++ _) => cbn [app]
  | |- Sends (_ ;;; _) ((_ ++ _) ++ _) => rewrite <- app_assoc
  | |- Sends (_ ;;; _) (_ ++ _) => apply sends_app
  | |- Sends (_ ;;; _) (_ :: _) => apply sends_cons
  | |- Sends (if _ then _ else _) (if _ then _ else _) =>
      apply sends_if; [first [apply (mask_bit _ 0); lia | apply (mask_bit _ 1); lia
                             | apply (mask_bit _ 3); lia] |intros _..]
  | |- Sends _ _ => solve [auto with wire]
  end).

Lemma sends_entry e : entryinfo_wf e -> Sends (EntryInfo_serialize e) (entry_fields e).
Proof.
  intros (_ & _ & _ & _ & ? & ? & ? & _). unfold EntryInfo_serialize, entry_fields, NumNodeID_serialize.
  sends.
Qed.

Lemma sends_path i : pathinfo_wf i -> Sends (PathInfo_serialize i) (path_fields i).
Proof.
  intros [_ H]. unfold PathInfo_serialize, path_fields. apply sends_cons; [auto with wire|].
  apply sends_if; [by apply (mask_bit _ 0)|intros E|auto with wire].
  unfold has_orig in H. rewrite (mask_bit _ 0), E in H by done.
  destruct (pi_origParentEntryID i) as [s|]; [destruct H as [_ H]|done]. sends.
Qed.

Lemma sends_file_event e : event_wf e -> Sends (FileEvent_serialize e) (file_event_fields e).
Proof.
  intros [Hp Ht]. unfold FileEvent_serialize, file_event_fields. cbn [app]. apply sends_cons; [auto with wire|].
  apply sends_cons; [destruct (ev_path e); [by apply sends_str|by apply (sends_str [])]|].
  destruct (ev_target e) as [t|].
  - apply sends_cons; [apply sends_bool|by apply sends_str].
  - apply (sends_app _ _ [bool_field false] []); [apply sends_bool|apply sends_nil].
Qed.

Lemma sends_event h k ev :
  0 <= k -> event_ok h (2 ^ k) ev -> Sends (ser_event h (2 ^ k) ev) (event_fields h k ev).
Proof.
  intros Hk. unfold event_ok, flag_set, ser_event, event_fields. rewrite !mask_bit by lia. intros H.
  destruct (Z.testbit _ k); [|apply sends_nil]. destruct H as (e & -> & He); [done|].
  by apply sends_file_event.
Qed.

Lemma sends_ids l : ids_ok l -> Sends (Serialization_serializeUInt16List l) (ids_fields l).
Proof.
  intros H. pose proof (writes_int_list _ _ l writes_ushort H) as W.
  assert (E : encode (F16 <$> l) = enc_each (le_split 2) l).
  { clear. unfold encode. induction l as [|x l IH]; [done|]. cbn in *. by rewrite IH. }
  unfold Sends, ids_fields. change (?a :: ?b :: ?c) with ([a] ++ [b] ++ c).
  rewrite !encode_app, E. unfold enc_nested, enc_list in W.
  rewrite mlen_app, mlen_le4, (mlen_enc_each _ 2) in W by apply mlen_le2.
  cbn [encode enc_field fmap list_fmap concat]. rewrite !app_nil_r.
  by replace (2 * Z.of_nat (length l) + 8) with (4 + 2 * Z.of_nat (length l) + 4) by lia.
Qed.

Lemma sends_nics l : nics_ok l -> Sends (Serialization_serializeNicList l) (nics_fields l).
Proof.
  intros [Hl Hc]. unfold Serialization_serializeNicList. rewrite u32_id, Nat2Z.id, firstn_all by lia.
  apply sends_cons; [apply sends_uint|].
  assert (E : encode (concat (nic_fields <$> l)) = enc_each enc_nic l).
  { clear. induction l as [|x l IH]; [done|]. cbn [fmap list_fmap concat enc_each].
    by rewrite encode_app, <- IH. }
  unfold Sends. rewrite E. apply writes_each. intros a Ha. apply writes_nic.
  rewrite Forall_forall in Hl. auto.
Qed.

Lemma sends_event_0 h ev : event_ok h 1 ev -> Sends (ser_event h 1 ev) (event_fields h 0 ev).
Proof. by apply (sends_event h 0). Qed.
Lemma sends_event_1 h ev : event_ok h 2 ev -> Sends (ser_event h 2 ev) (event_fields h 1 ev).
Proof. by apply (sends_event h 1). Qed.
Lemma sends_event_2 h ev : event_ok h 4 ev -> Sends (ser_event h 4 ev) (event_fields h 2 ev).
Proof. by apply (sends_event h 2). Qed.
Lemma sends_event_3 h ev : event_ok h 8 ev -> Sends (ser_event h 8 ev) (event_fields h 3 ev).
Proof. by apply (sends_event h 3). Qed.

#[export] Hint Resolve sends_entry sends_path sends_ids sends_nics sends_event_0 sends_event_1
  sends_event_2 sends_event_3 : wire.

Ltac head_of t := match t with ?f _ => head_of f | _ => t end.

Lemma sends_request h r : request_wf h r -> Sends (request_serializePayload h r) (request_fields h r).
Proof.
  destruct r; cbn [request_wf request_serializePayload request_fields]; intros; destruct_and?;
    match goal with |- Sends ?s _ => let f := head_of s in unfold f end.
  all: unfold NumNodeID_serialize, StoragePoolId_serialize, flag_set,
    NetMessage_isMsgHeaderFeatureFlagSet.
  all: sends.
Qed.

Lemma request_fields_length h len r : request_fields (header_set_length h len) r = request_fields h r.
Proof. destruct r; reflexivity. Qed.

#[export] Instance request_payload_format h r :
  request_wf h r -> PayloadWrites (request_ops r) h r (encode (request_fields h r)).
Proof.
  intros Hr len. cbn [request_ops serializePayload]. rewrite request_payload_length.
  by apply sends_request.
Qed.

(** C34: every request is written in the format the servers read.  For each of the 32
    request types and every header the client makes for it (no length yet, no flag of
    a mirrored or retried copy other than the three low bits), let [enc] be the fields
    the server reads for that request and these feature flags, in its order and
    widths.  [NetMessage_getMsgLength] is 40 plus the length of [enc]; a shorter
    buffer is refused and left untouched; otherwise [NetMessage_serialize] writes
    header and [enc] at the start of the buffer and nothing else, and the header it
    wrote is one the receiver accepts, with every field.  Strings, lists and entries
    are as long as their 32-bit lengths allow, and an event is there when the header
    promises one ([request_wf]). *)
Theorem request_serialize_spec (h : NetMessageHeader) (r : Request) (m : mem) (buf bufLen : Z) :
  request_wf h r -> header_wf h -> msgLength h = 0 -> Z.land (msgFlags h) (Z.lnot 7) = 0 ->
  let enc := encode (request_fields h r) in
  let total := 40 + mlen enc in
  let h' := header_set_length h total in
  let m' := put m buf (enc_header total h ++ enc) in
  total < 2 ^ 32 -> 0 <= buf -> 0 <= bufLen -> buf + bufLen <= mlen m ->
  NetMessage_getMsgLength (request_ops r) h r = Done (total, h') /\
  (bufLen < total -> NetMessage_serialize (request_ops r) h r m buf bufLen = Done (false, h', m)) /\
  (total <= bufLen ->
   NetMessage_serialize (request_ops r) h r m buf bufLen = Done (true, h', m') /\
   header_valid m' buf total /\ header_at m' buf = h' /\
   slice m' (buf + 40) (mlen enc) = enc).
Proof.
  intros Hr Hh Hl Hf enc total h' m' Ht Hb Hbl Hm. pose proof (mlen_nonneg enc).
  pose proof (request_payload_format h r Hr) as Hw.
  pose proof (serialize_run (request_ops r) h r enc m buf bufLen Hl ltac:(lia) Hb Hbl Hm) as E.
  cbv zeta in E. fold total h' m' in E.
  split_and!; [apply (getMsgLength_run _ _ _ _ Hl); lia|..]; intros Hbt; rewrite E;
    destruct (Z.ltb_spec bufLen total); try lia; [done|].
  set (bs := enc_header total h ++ enc) in *.
  assert (Hbs : mlen bs = total) by (unfold bs; rewrite mlen_app, mlen_enc_header; done).
  assert (Hh' : holds m' buf bs).
  { split_and!; [lia|unfold m'; rewrite mlen_put by lia; lia|apply slice_put; lia]. }
  apply holds_app in Hh' as [Hhd (_ & _ & Hpl)]. rewrite mlen_enc_header in Hpl.
  destruct (header_written _ buf total h Hh ltac:(unfold in_u; lia) ltac:(lia) Hf Hhd) as [Hv Ha].
  done.
Qed.

(** Renaming [/a/x] to [/a/b]: the payload, byte for byte. *)
Lemma request_serialize_spec_witness :
  let h := RenameMsg_initFromEntryInfo 1000 (Some (mkEvent 7 (Some [120]) (Some [98]))) in
  let dir := mkEI (mkOwner 1 false) [] [114] [97] 1 0 in
  let r := RenameMsg 2 dir dir [120] [98] (Some (mkEvent 7 (Some [120]) (Some [98]))) in
  let enc_dir := [1; 0; 0; 0] ++ [0; 0; 0; 0] ++ [0; 0; 0; 0; 0; 0; 0; 0] ++
    [1; 0; 0; 0; 114; 0; 0; 0] ++ [1; 0; 0; 0; 97; 0; 0; 0] ++ [1; 0; 0; 0] ++ [0; 0] in
  let enc := [2; 0; 0; 0] ++ enc_dir ++ enc_dir ++ [1; 0; 0; 0; 120; 0; 0; 0] ++
    [1; 0; 0; 0; 98; 0; 0; 0] ++ [7; 0; 0; 0] ++ [1; 0; 0; 0; 120; 0] ++ [1] ++
    [1; 0; 0; 0; 98; 0] in
  NetMessage_serialize (request_ops r) h r (replicate 300 9) 8 200 =
    Done (true, header_set_length h 153, put (replicate 300 9) 8 (enc_header 153 h ++ enc)).
Proof.
  intros h dir r enc_dir enc.
  assert (Hr : request_wf h r).
  { assert (Hdir : entryinfo_wf dir)
      by (unfold entryinfo_wf, in_u, in_s; vm_compute; intuition discriminate).
    split; [exact Hdir|]. split; [exact Hdir|]. split; [reflexivity|]. split; [reflexivity|].
    intros _. exists (mkEvent 7 (Some [120]) (Some [98])). split; [reflexivity|]. split; reflexivity. }
  destruct (request_serialize_spec h r (replicate 300 9) 8 200 Hr
    ltac:(unfold header_wf, in_u; vm_compute; intuition discriminate) eq_refl eq_refl
    ltac:(vm_compute; reflexivity) ltac:(lia) ltac:(lia) ltac:(vm_compute; discriminate))
    as (_ & _ & H).
  refine (proj1 (H _)). vm_compute. discriminate.
Defined.
