(* ===== verification/Responses.v ===== *)
(** * Responses and pushed messages: what the client receives

    The payload deserializers of the messages in [common/net/message/*] that the
    client receives, and [net/message/NetMessageFactory.c], which makes a message
    object from received bytes.  A decoded message is a constructor of [Received],
    named after its struct; strings and raw lists are places in the receive buffer. *)

From S2P Require Import Prelude Serialization SerializationLists StripePattern.
From S2P Require Import EntryInfo NetMessage.

(** ** Message types (NetMessageTypes.h) and flags *)

Definition NETMSGTYPE_RemoveNode : Z := 1013.
Definition NETMSGTYPE_RemoveNodeResp : Z := 1014.
Definition NETMSGTYPE_GetNodesResp : Z := 1018.
Definition NETMSGTYPE_HeartbeatRequest : Z := 1019.
Definition NETMSGTYPE_Heartbeat : Z := 1020.
Definition NETMSGTYPE_MapTargets : Z := 1023.
Definition NETMSGTYPE_GetTargetMappingsResp : Z := 1026.
Definition NETMSGTYPE_RegisterNodeResp : Z := 1040.
Definition NETMSGTYPE_SetMirrorBuddyGroup : Z := 1045.
Definition NETMSGTYPE_RefreshTargetStates : Z := 1051.
Definition NETMSGTYPE_GetStatesAndBuddyGroupsResp : Z := 1054.
Definition NETMSGTYPE_MkDirResp : Z := 2002.
Definition NETMSGTYPE_RmDirResp : Z := 2004.
Definition NETMSGTYPE_MkFileResp : Z := 2006.
Definition NETMSGTYPE_UnlinkFileResp : Z := 2008.
Definition NETMSGTYPE_StatResp : Z := 2016.
Definition NETMSGTYPE_TruncFileResp : Z := 2020.
Definition NETMSGTYPE_RenameResp : Z := 2024.
Definition NETMSGTYPE_SetAttrResp : Z := 2026.
Definition NETMSGTYPE_ListDirFromOffsetResp : Z := 2030.
Definition NETMSGTYPE_StatStoragePathResp : Z := 2032.
Definition NETMSGTYPE_RefreshEntryInfoResp : Z := 2056.
Definition NETMSGTYPE_LookupIntentResp : Z := 2060.
Definition NETMSGTYPE_HardlinkResp : Z := 2072.
Definition NETMSGTYPE_ListXAttrResp : Z := 2102.
Definition NETMSGTYPE_GetXAttrResp : Z := 2104.
Definition NETMSGTYPE_RemoveXAttrResp : Z := 2106.
Definition NETMSGTYPE_SetXAttrResp : Z := 2108.
Definition NETMSGTYPE_OpenFileResp : Z := 3002.
Definition NETMSGTYPE_CloseFileResp : Z := 3004.
Definition NETMSGTYPE_WriteLocalFileResp : Z := 3010.
Definition NETMSGTYPE_FSyncLocalFileResp : Z := 3014.
Definition NETMSGTYPE_LockGranted : Z := 3023.
Definition NETMSGTYPE_FLockEntryResp : Z := 3026.
Definition NETMSGTYPE_FLockRangeResp : Z := 3028.
Definition NETMSGTYPE_FLockAppendResp : Z := 3030.
Definition NETMSGTYPE_AckNotifyResp : Z := 3032.
Definition NETMSGTYPE_BumpFileVersionResp : Z := 3034.
Definition NETMSGTYPE_GetFileVersionResp : Z := 3036.
Definition NETMSGTYPE_Ack : Z := 4003.
Definition NETMSGTYPE_GenericResponse : Z := 4009.
Definition NETMSGTYPE_LogResp : Z := 5002.
Definition NETMSGTYPE_GetHostByNameResp : Z := 5004.

Definition STATRESPMSG_FLAG_HAS_PARENTINFO : Z := 1.
Definition LOOKUPINTENTRESPMSG_FLAG_REVALIDATE : Z := 1.
Definition LOOKUPINTENTRESPMSG_FLAG_CREATE : Z := 2.
Definition LOOKUPINTENTRESPMSG_FLAG_OPEN : Z := 4.
Definition LOOKUPINTENTRESPMSG_FLAG_STAT : Z := 8.

(** ** Decoded messages *)

(** What the intent parts of a lookup response fill in. *)
Record OpenIntent := mkOpenIntent {
  openResult : Z; openFileHandleID : Z * Z; openPattern : Z * Z; openPathInfo : PathInfo Z }.

(** [None]: the field keeps what the constructor left there. *)
Record LookupIntentResp := mkLookupResp {
  responseFlags : Z; lookupResult : Z; respStat : option (Z * StatData);
  revalidateResult : option Z; createResult : Z; respOpen : option OpenIntent;
  respEntryInfo : option (EntryInfo Z) }.

Inductive Received :=
  | SimpleMsg
  | SimpleIntMsg (value : Z)
  | SimpleInt64Msg (value : Z)
  | SimpleStringMsg (value : Z * Z)
  | SimpleIntStringMsg (intValue : Z) (strValue : Z * Z)
  | GetHostByNameRespMsg (hostAddr : Z * Z)
  | GetNodesRespMsg (rawNodeList : RawList) (rootNumID : Z) (rootIsBuddyMirrored : bool)
  | GetStatesAndBuddyGroupsRespMsg (groups : list BuddyGroupMapping)
      (states : list TargetStateMapping)
  | GetTargetMappingsRespMsg (mappings : list TargetMapping)
  | HeartbeatMsgEx (instanceVersion nicListVersion nodeType : Z) (nodeID ackID : Z * Z)
      (nodeNumID rootNumID : Z) (rootIsBuddyMirrored : bool) (portUDP portTCP : Z)
      (rawNicList : RawList)
  | MapTargetsMsgEx (poolMappings : list TargetPoolMapping) (nodeID : Z) (ackID : Z * Z)
  | RefreshTargetStatesMsgEx (ackID : Z * Z)
  | RegisterNodeRespMsg (nodeNumID : Z)
  | RemoveNodeMsgEx (nodeType nodeNumID : Z) (ackID : Z * Z)
  | SetMirrorBuddyGroupMsgEx (nodeType primary secondary buddyGroupID : Z)
      (allowUpdate : bool) (ackID : Z * Z)
  | LookupIntentRespMsg (resp : LookupIntentResp)
  | MkDirRespMsg (result : Z) (entryInfo : option (EntryInfo Z))
  | MkFileRespMsg (result : Z) (entryInfo : option (EntryInfo Z))
  | ListDirFromOffsetRespMsg (newServerOffset result : Z)
      (serverOffsetsList entryTypesList entryIDsList namesList : RawList)
  | StatRespMsg (result : Z) (statData : StatData) (parent : option (Z * Z))
  | StatStoragePathRespMsg (result sizeTotal sizeFree inodesTotal inodesFree : Z)
  | ListXAttrRespMsg (valueElemNum valueBuf size returnCode : Z)
  | GetXAttrRespMsg (value : Z * Z) (size returnCode : Z)
  | OpenFileRespMsg (result : Z) (fileHandleID : Z * Z) (pathInfo : PathInfo Z)
      (pattern : Z * Z) (fileVersion : Z)
  | LockGrantedMsgEx (lockAckID ackID : Z * Z) (granterNodeID : Z)
  | GetFileVersionRespMsg (result version : Z).

(** ** Payload deserializers *)

Definition GetHostByNameRespMsg_deserializePayload : Des Received :=
  hostAddr ← Serialization_deserializeStr;
  mret (GetHostByNameRespMsg hostAddr).

(** [rawNodeList] is what the constructor left in the field. *)
Definition GetNodesRespMsg_deserializePayload (rawNodeList : RawList) : Des Received :=
  rawNodeList ← Serialization_deserializeNodeListPreprocess rawNodeList;
  rootNumID ← NumNodeID_deserialize;
  rootIsBuddyMirrored ← Serialization_deserializeBool;
  mret (GetNodesRespMsg rawNodeList rootNumID rootIsBuddyMirrored).

Definition GetStatesAndBuddyGroupsRespMsg_deserializePayload (ok1 ok2 : nat -> bool) : Des Received :=
  groups ← BuddyGroupMappingList_deserialize ok1 [];
  states ← TargetStateMappingList_deserialize ok2 [];
  mret (GetStatesAndBuddyGroupsRespMsg groups states).

Definition GetTargetMappingsRespMsg_deserializePayload (ok : nat -> bool) : Des Received :=
  mappings ← TargetMappingList_deserialize ok [];
  mret (GetTargetMappingsRespMsg mappings).

Definition HeartbeatMsgEx_deserializePayload : Des Received :=
  instanceVersion ← Serialization_deserializeUInt64;
  nicListVersion ← Serialization_deserializeUInt64;
  nodeType ← Serialization_deserializeInt;
  nodeID ← Serialization_deserializeStr;
  ackID ← Serialization_deserializeStrAlign4;
  nodeNumID ← NumNodeID_deserialize;
  rootNumID ← NumNodeID_deserialize;
  rootIsBuddyMirrored ← Serialization_deserializeBool;
  portUDP ← Serialization_deserializeUShort;
  portTCP ← Serialization_deserializeUShort;
  rawNicList ← Serialization_deserializeNicListPreprocess;
  mret (HeartbeatMsgEx instanceVersion nicListVersion nodeType nodeID ackID nodeNumID rootNumID
          rootIsBuddyMirrored portUDP portTCP rawNicList).

Definition MapTargetsMsgEx_deserializePayload (ok : nat -> bool) : Des Received :=
  poolMappings ← TargetPoolMappingList_deserialize ok [];
  nodeID ← NumNodeID_deserialize;
  ackID ← Serialization_deserializeStr;
  mret (MapTargetsMsgEx poolMappings nodeID ackID).

Definition RefreshTargetStatesMsgEx_deserializePayload : Des Received :=
  ackID ← Serialization_deserializeStr;
  mret (RefreshTargetStatesMsgEx ackID).

Definition RegisterNodeRespMsg_deserializePayload : Des Received :=
  nodeNumID ← NumNodeID_deserialize;
  mret (RegisterNodeRespMsg nodeNumID).

Definition RemoveNodeMsgEx_deserializePayload : Des Received :=
  nodeType ← Serialization_deserializeShort;
  nodeNumID ← NumNodeID_deserialize;
  ackID ← Serialization_deserializeStr;
  mret (RemoveNodeMsgEx nodeType nodeNumID ackID).

Definition SetMirrorBuddyGroupMsgEx_deserializePayload : Des Received :=
  nodeType ← Serialization_deserializeInt;
  primary ← Serialization_deserializeUShort;
  secondary ← Serialization_deserializeUShort;
  buddyGroupID ← Serialization_deserializeUShort;
  allowUpdate ← Serialization_deserializeBool;
  ackID ← Serialization_deserializeStr;
  mret (SetMirrorBuddyGroupMsgEx nodeType primary secondary buddyGroupID allowUpdate ackID).

Definition resp_flag (flags flag : Z) : bool := negb (Z.land flags flag =? 0).

Definition LookupIntentRespMsg_deserializePayload : Des Received :=
  responseFlags ← Serialization_deserializeInt;
  lookupResult ← Serialization_deserializeUInt;
  respStat ←
    (if resp_flag responseFlags LOOKUPINTENTRESPMSG_FLAG_STAT then
       statResult ← Serialization_deserializeInt;
       statData ← StatData_deserialize;
       mret (Some (statResult, statData))
     else mret None);
  revalidateResult ←
    (if resp_flag responseFlags LOOKUPINTENTRESPMSG_FLAG_REVALIDATE then
       r ← Serialization_deserializeInt; mret (Some r)
     else mret None);
  createResult ←
    (if resp_flag responseFlags LOOKUPINTENTRESPMSG_FLAG_CREATE
     then Serialization_deserializeInt
     else mret FhgfsOpsErr_INTERNAL);
  respOpen ←
    (if resp_flag responseFlags LOOKUPINTENTRESPMSG_FLAG_OPEN then
       openResult ← Serialization_deserializeInt;
       fileHandleID ← Serialization_deserializeStrAlign4;
       pattern ← StripePattern_deserializePatternPreprocess;
       pathInfo ← PathInfo_deserialize;
       mret (Some (mkOpenIntent openResult fileHandleID pattern pathInfo))
     else mret None);
  entryInfo ←
    (if (lookupResult =? FhgfsOpsErr_SUCCESS) || (createResult =? FhgfsOpsErr_SUCCESS) then
       e ← EntryInfo_deserialize; mret (Some e)
     else mret None);
  mret (LookupIntentRespMsg (mkLookupResp responseFlags lookupResult respStat revalidateResult
          createResult respOpen entryInfo)).

(** The result and, on success, the new entry. *)
Definition deserialize_created (mk : Z -> option (EntryInfo Z) -> Received) : Des Received :=
  result ← Serialization_deserializeUInt;
  if result =? FhgfsOpsErr_SUCCESS then
    entryInfo ← EntryInfo_deserialize;
    mret (mk result (Some entryInfo))
  else mret (mk result None).

Definition MkDirRespMsg_deserializePayload : Des Received := deserialize_created MkDirRespMsg.
Definition MkFileRespMsg_deserializePayload : Des Received := deserialize_created MkFileRespMsg.

Definition ListDirFromOffsetRespMsg_deserializePayload : Des Received :=
  newServerOffset ← Serialization_deserializeInt64;
  serverOffsetsList ← Serialization_deserializeInt64CpyVecPreprocess;
  result ← Serialization_deserializeInt;
  entryTypesList ← Serialization_deserializeUInt8VecPreprocess;
  entryIDsList ← Serialization_deserializeStrCpyVecPreprocess;
  namesList ← Serialization_deserializeStrCpyVecPreprocess;
  if negb (relemCount entryTypesList =? relemCount namesList) ||
     negb (relemCount entryTypesList =? relemCount entryIDsList) ||
     negb (relemCount entryTypesList =? relemCount serverOffsetsList)
  then des_fail
  else mret (ListDirFromOffsetRespMsg newServerOffset result serverOffsetsList entryTypesList
               entryIDsList namesList).

Definition StatRespMsg_deserializePayload (h : NetMessageHeader) : Des Received :=
  result ← Serialization_deserializeInt;
  statData ← StatData_deserialize;
  if NetMessage_isMsgHeaderFeatureFlagSet h STATRESPMSG_FLAG_HAS_PARENTINFO then
    '(_, parentEntryID) ← Serialization_deserializeStrAlign4;
    parentNodeID ← NumNodeID_deserialize;
    mret (StatRespMsg result statData (Some (parentEntryID, parentNodeID)))
  else mret (StatRespMsg result statData None).

Definition StatStoragePathRespMsg_deserializePayload : Des Received :=
  result ← Serialization_deserializeInt;
  sizeTotal ← Serialization_deserializeInt64;
  sizeFree ← Serialization_deserializeInt64;
  inodesTotal ← Serialization_deserializeInt64;
  inodesFree ← Serialization_deserializeInt64;
  mret (StatStoragePathRespMsg result sizeTotal sizeFree inodesTotal inodesFree).

Definition ListXAttrRespMsg_deserializePayload : Des Received :=
  valueField ← Serialization_deserializeStrCpyVecPreprocess;
  size ← Serialization_deserializeInt;
  returnCode ← Serialization_deserializeInt;
  mret (ListXAttrRespMsg (relemCount valueField) (rdata valueField) size returnCode).

Definition GetXAttrRespMsg_deserializePayload : Des Received :=
  value ← Serialization_deserializeCharArray;
  size ← Serialization_deserializeInt;
  returnCode ← Serialization_deserializeInt;
  mret (GetXAttrRespMsg value size returnCode).

Definition OpenFileRespMsg_deserializePayload : Des Received :=
  result ← Serialization_deserializeInt;
  fileHandleID ← Serialization_deserializeStrAlign4;
  pathInfo ← PathInfo_deserialize;
  pattern ← StripePattern_deserializePatternPreprocess;
  fileVersion ← Serialization_deserializeUInt64;
  mret (OpenFileRespMsg result fileHandleID pathInfo pattern fileVersion).

Definition LockGrantedMsgEx_deserializePayload : Des Received :=
  lockAckID ← Serialization_deserializeStrAlign4;
  ackID ← Serialization_deserializeStrAlign4;
  granterNodeID ← NumNodeID_deserialize;
  mret (LockGrantedMsgEx lockAckID ackID granterNodeID).

Definition GetFileVersionRespMsg_deserializePayload : Des Received :=
  result ← Serialization_deserializeInt;
  version ← Serialization_deserializeUInt64;
  mret (GetFileVersionRespMsg result version).

(** ** The factory (NetMessageFactory.c) *)

Definition recv_ops (d : NetMessageHeader -> Des Received) : NetMessageOps unit Received :=
  mkOps _NetMessage_serializeDummy d NetMessage_getSupportedHeaderFeatureFlagsMask false.

(** The tables of the simple messages, seen from the receiving side. *)
Definition simple_recv {P Q} (ops : NetMessageOps P Q) (f : Q -> Received) : NetMessageOps unit Received :=
  recv_ops (fun h => q ← deserializePayload ops h; mret (f q)).

Definition SimpleMsg_recv := simple_recv SimpleMsg_Ops (fun _ => SimpleMsg).
Definition SimpleIntMsg_recv := simple_recv SimpleIntMsg_Ops SimpleIntMsg.
Definition SimpleInt64Msg_recv := simple_recv SimpleInt64Msg_Ops SimpleInt64Msg.
Definition SimpleStringMsg_recv := simple_recv SimpleStringMsg_Ops SimpleStringMsg.
Definition SimpleIntStringMsg_recv :=
  simple_recv SimpleIntStringMsg_Ops (fun '(i, s) => SimpleIntStringMsg i s).

Definition StatRespMsg_Ops : NetMessageOps unit Received :=
  mkOps _NetMessage_serializeDummy StatRespMsg_deserializePayload STATRESPMSG_FLAG_HAS_PARENTINFO
    false.

Section Factory.
(** The id of the calling user; uninitialised memory of a new message; outcomes of
    the allocations of list elements. *)
Context (currentUserID : Z) (uninitRaw : RawList) (ok1 ok2 : nat -> bool).

(** The switch: the table of operations for a message type. *)
Definition factory_table (msgType : Z) : option (NetMessageOps unit Received) :=
  if msgType =? NETMSGTYPE_Ack then Some SimpleStringMsg_recv
  else if msgType =? NETMSGTYPE_GenericResponse then Some SimpleIntStringMsg_recv
  else if msgType =? NETMSGTYPE_GetHostByNameResp then
    Some (recv_ops (fun _ => GetHostByNameRespMsg_deserializePayload))
  else if msgType =? NETMSGTYPE_LogResp then Some SimpleIntMsg_recv
  else if msgType =? NETMSGTYPE_GetNodesResp then
    Some (recv_ops (fun _ => GetNodesRespMsg_deserializePayload uninitRaw))
  else if msgType =? NETMSGTYPE_GetStatesAndBuddyGroupsResp then
    Some (recv_ops (fun _ => GetStatesAndBuddyGroupsRespMsg_deserializePayload ok1 ok2))
  else if msgType =? NETMSGTYPE_GetTargetMappingsResp then
    Some (recv_ops (fun _ => GetTargetMappingsRespMsg_deserializePayload ok1))
  else if msgType =? NETMSGTYPE_HeartbeatRequest then Some SimpleMsg_recv
  else if msgType =? NETMSGTYPE_Heartbeat then
    Some (recv_ops (fun _ => HeartbeatMsgEx_deserializePayload))
  else if msgType =? NETMSGTYPE_MapTargets then
    Some (recv_ops (fun _ => MapTargetsMsgEx_deserializePayload ok1))
  else if msgType =? NETMSGTYPE_RefreshTargetStates then
    Some (recv_ops (fun _ => RefreshTargetStatesMsgEx_deserializePayload))
  else if msgType =? NETMSGTYPE_RegisterNodeResp then
    Some (recv_ops (fun _ => RegisterNodeRespMsg_deserializePayload))
  else if msgType =? NETMSGTYPE_RemoveNode then
    Some (recv_ops (fun _ => RemoveNodeMsgEx_deserializePayload))
  else if msgType =? NETMSGTYPE_RemoveNodeResp then Some SimpleIntMsg_recv
  else if msgType =? NETMSGTYPE_SetMirrorBuddyGroup then
    Some (recv_ops (fun _ => SetMirrorBuddyGroupMsgEx_deserializePayload))
  else if msgType =? NETMSGTYPE_LookupIntentResp then
    Some (recv_ops (fun _ => LookupIntentRespMsg_deserializePayload))
  else if msgType =? NETMSGTYPE_MkDirResp then
    Some (recv_ops (fun _ => MkDirRespMsg_deserializePayload))
  else if msgType =? NETMSGTYPE_RmDirResp then Some SimpleIntMsg_recv
  else if msgType =? NETMSGTYPE_MkFileResp then
    Some (recv_ops (fun _ => MkFileRespMsg_deserializePayload))
  else if msgType =? NETMSGTYPE_RefreshEntryInfoResp then Some SimpleIntMsg_recv
  else if msgType =? NETMSGTYPE_RenameResp then Some SimpleIntMsg_recv
  else if msgType =? NETMSGTYPE_HardlinkResp then Some SimpleIntMsg_recv
  else if msgType =? NETMSGTYPE_UnlinkFileResp then Some SimpleIntMsg_recv
  else if msgType =? NETMSGTYPE_ListDirFromOffsetResp then
    Some (recv_ops (fun _ => ListDirFromOffsetRespMsg_deserializePayload))
  else if msgType =? NETMSGTYPE_SetAttrResp then Some SimpleIntMsg_recv
  else if msgType =? NETMSGTYPE_StatResp then Some StatRespMsg_Ops
  else if msgType =? NETMSGTYPE_StatStoragePathResp then
    Some (recv_ops (fun _ => StatStoragePathRespMsg_deserializePayload))
  else if msgType =? NETMSGTYPE_TruncFileResp then Some SimpleIntMsg_recv
  else if msgType =? NETMSGTYPE_ListXAttrResp then
    Some (recv_ops (fun _ => ListXAttrRespMsg_deserializePayload))
  else if msgType =? NETMSGTYPE_GetXAttrResp then
    Some (recv_ops (fun _ => GetXAttrRespMsg_deserializePayload))
  else if msgType =? NETMSGTYPE_RemoveXAttrResp then Some SimpleIntMsg_recv
  else if msgType =? NETMSGTYPE_SetXAttrResp then Some SimpleIntMsg_recv
  else if msgType =? NETMSGTYPE_OpenFileResp then
    Some (recv_ops (fun _ => OpenFileRespMsg_deserializePayload))
  else if msgType =? NETMSGTYPE_CloseFileResp then Some SimpleIntMsg_recv
  else if msgType =? NETMSGTYPE_WriteLocalFileResp then Some SimpleInt64Msg_recv
  else if msgType =? NETMSGTYPE_FSyncLocalFileResp then Some SimpleInt64Msg_recv
  else if msgType =? NETMSGTYPE_FLockAppendResp then Some SimpleIntMsg_recv
  else if msgType =? NETMSGTYPE_FLockEntryResp then Some SimpleIntMsg_recv
  else if msgType =? NETMSGTYPE_FLockRangeResp then Some SimpleIntMsg_recv
  else if msgType =? NETMSGTYPE_LockGranted then
    Some (recv_ops (fun _ => LockGrantedMsgEx_deserializePayload))
  else if msgType =? NETMSGTYPE_BumpFileVersionResp then Some SimpleIntMsg_recv
  else if msgType =? NETMSGTYPE_GetFileVersionResp then
    Some (recv_ops (fun _ => GetFileVersionRespMsg_deserializePayload))
  else if msgType =? NETMSGTYPE_AckNotifyResp then Some SimpleMsg_recv
  else None.

(** A message object: its header and its table. *)
Definition NetMessageFactory_createFromMsgType (msgType : Z)
    : NetMessageHeader * NetMessageOps unit Received :=
  match factory_table msgType with
  | Some ops => (NetMessage_init currentUserID msgType, ops)
  | None => (NetMessage_init currentUserID NETMSGTYPE_Invalid, SimpleMsg_recv)
  end.

Definition NetMessageFactory_createFromBuf (m : mem) (recvBuf bufLen : Z) (uninit : NetMessageHeader)
    : outcome (option Received * NetMessageHeader) :=
  '(header, ctx) ← __NetMessage_deserializeHeader m (mkDes recvBuf bufLen) uninit;
  let '(msg, ops) := NetMessageFactory_createFromMsgType (msgType header) in
  if msgType msg =? NETMSGTYPE_Invalid then Done (None, msg)
  else __NetMessageFactory_deserializeRaw ops m ctx header.

End Factory.

(** ** Decoding arbitrary bytes

    [safe m d P]: on every context inside [m], [d] neither faults nor leaves the
    context, and what it returns satisfies [P]. *)

Section Safe.
Context (m : mem) (Hm : msg_wf m).

Definition safe {A} (d : Des A) (P : A -> Prop) : Prop :=
  forall c, ctx_wf m c -> wp d m c (fun a _ => P a).

Lemma safe_bind {A B} (d : Des A) (f : A -> Des B) P Q :
  safe d P -> (forall a, P a -> safe (f a) Q) -> safe (d ≫= f) Q.
Proof.
  intros Hd Hf c Hc. apply wp_bind. eapply wp_mono; [|by apply Hd].
  intros a c' Ha Hle. apply Hf; [done|]. by eapply ctx_le_wf.
Qed.

Lemma safe_ret {A} (a : A) (P : A -> Prop) : P a -> safe (mret a) P.
Proof. clear Hm. intros Ha c Hc. apply wp_ret; [ctx_lia|done]. Qed.

Lemma safe_fail {A} (P : A -> Prop) : safe des_fail P.
Proof. clear Hm. intros c Hc. apply wp_fail. ctx_lia. Qed.

Lemma safe_if {A} (b : bool) (d1 d2 : Des A) P :
  (b = true -> safe d1 P) -> (b = false -> safe d2 P) -> safe (if b then d1 else d2) P.
Proof. destruct b; auto. Qed.

Lemma safe_raw size conv : 0 <= size -> safe (__Serialization_deserializeRaw size conv) (fun _ => True).
Proof. intros Hs c Hc. by apply wp_raw. Qed.

Lemma safe_ushort : safe Serialization_deserializeUShort (in_u 16).
Proof. intros c Hc. by apply wp_ushort. Qed.
Lemma safe_uint : safe Serialization_deserializeUInt (in_u 32).
Proof. intros c Hc. by apply wp_uint. Qed.
Lemma safe_uint64 : safe Serialization_deserializeUInt64 (in_u 64).
Proof. intros c Hc. by apply wp_uint64. Qed.
Lemma safe_char : safe Serialization_deserializeChar (in_s 8).
Proof. intros c Hc. by apply wp_char. Qed.
Lemma safe_uint8 : safe Serialization_deserializeUInt8 (fun _ => True).
Proof. eapply safe_bind; [apply safe_char|]. intros. by apply safe_ret. Qed.
Lemma safe_bool : safe Serialization_deserializeBool (fun _ => True).
Proof. eapply safe_bind; [apply safe_char|]. intros. by apply safe_ret. Qed.
Lemma safe_short : safe Serialization_deserializeShort (in_s 16).
Proof. eapply safe_bind; [apply safe_ushort|]. intros. apply safe_ret, swrap_range. lia. Qed.
Lemma safe_int : safe Serialization_deserializeInt (in_s 32).
Proof. eapply safe_bind; [apply safe_uint|]. intros. apply safe_ret, swrap_range. lia. Qed.
Lemma safe_int64 : safe Serialization_deserializeInt64 (in_s 64).
Proof. eapply safe_bind; [apply safe_uint64|]. intros. apply safe_ret, swrap_range. lia. Qed.
Lemma safe_numnode : safe NumNodeID_deserialize (in_u 32).
Proof. exact safe_uint. Qed.

Lemma safe_chararray : safe Serialization_deserializeCharArray (fun '(l, p) => in_msg m p l).
Proof. intros c Hc. apply wp_chararray; auto. Qed.
Lemma safe_strcpyvec : safe Serialization_deserializeStrCpyVecPreprocess (raw_in m).
Proof. intros c Hc. by apply wp_strcpylist_preprocess. Qed.
Lemma safe_int64vec : safe Serialization_deserializeInt64CpyVecPreprocess (raw_in m).
Proof. intros c Hc. by apply wp_int_list_preprocess. Qed.
Lemma safe_uint8vec : safe Serialization_deserializeUInt8VecPreprocess (raw_in m).
Proof. intros c Hc. by apply wp_int_list_preprocess. Qed.
Lemma safe_niclist : safe Serialization_deserializeNicListPreprocess (raw_in m).
Proof. intros c Hc. by apply wp_niclist_preprocess. Qed.

Lemma safe_serdes_items {Ty} (d : Des Ty) ok i n :
  safe d (fun _ => True) -> safe (SERDES_list_items d ok i n) (fun _ => True).
Proof.
  intros Hd. revert i. induction n as [|n IH]; intros i; cbn [SERDES_list_items].
  - by apply safe_ret.
  - apply safe_if; intros _; [|apply safe_fail]. eapply safe_bind; [exact Hd|]. intros x _.
    eapply safe_bind; [apply IH|]. intros. by apply safe_ret.
Qed.

Lemma safe_serdes {Ty} (d : Des Ty) ok list0 :
  safe d (fun _ => True) -> safe (SERDES_list_deserialize d false ok list0) (fun _ => True).
Proof.
  intros Hd. eapply safe_bind; [apply safe_uint|]. intros items _.
  eapply safe_bind; [by apply safe_serdes_items|]. intros. by apply safe_ret.
Qed.

(** The length word that the string check lets through is not in the message. *)
Context (Hff : forall p, word m p 4 <> 2 ^ 32 - 1).

Definition str_in (s : Z * Z) : Prop := 0 <= s.1 /\ in_msg m (s.2) (s.1 + 1) /\ read8 m (s.2 + s.1) = Done 0.

Lemma safe_str : safe Serialization_deserializeStr str_in.
Proof. intros c Hc. apply wp_str; [done|done|apply Hff|]. intros. by split. Qed.

End Safe.

#[export] Hint Resolve safe_fail safe_ushort safe_uint safe_uint64 safe_char safe_uint8 safe_bool
  safe_short safe_int safe_int64 safe_numnode safe_chararray safe_strcpyvec safe_int64vec
  safe_uint8vec safe_niclist safe_str : cfs.

(** Runs through a deserializer with the lemmas above; what a nested block returns
    is not looked at. *)
Ltac solve_safe :=
  repeat lazymatch goal with
    | |- safe _ (mret _) _ => apply safe_ret
    | |- safe _ (if _ then _ else _) _ => apply safe_if; intros ?
    | |- safe _ (_ ≫= _) _ =>
        first [ eapply safe_bind; [solve [eauto with cfs] | cbn beta; intros ? ?]
              | apply (safe_bind _ _ _ (fun _ => True)); [| cbn beta; intros ? ?] ]
    | |- safe _ (match ?x with (_, _) => _ end) _ => destruct x; cbn beta iota
    | |- safe _ (let _ := _ in _) _ => cbv zeta
    | |- safe _ _ _ => solve [eauto with cfs]
    end.

(** Where the strings and raw lists of a decoded message lie.  The node list has
    its start only: the code does not record its length. *)
Definition received_in (m : mem) (q : Received) : Prop :=
  match q with
  | SimpleStringMsg s | SimpleIntStringMsg _ s | GetHostByNameRespMsg s
  | MapTargetsMsgEx _ _ s | RefreshTargetStatesMsgEx s | RemoveNodeMsgEx _ _ s
  | SetMirrorBuddyGroupMsgEx _ _ _ _ _ s => str_in m s
  | ListDirFromOffsetRespMsg _ _ offsets types ids names =>
      raw_in m offsets /\ raw_in m types /\ raw_in m ids /\ raw_in m names /\
      relemCount types = relemCount names /\ relemCount types = relemCount ids /\
      relemCount types = relemCount offsets
  | ListXAttrRespMsg num buf _ _ => in_u 32 num /\ in_msg m buf 0
  | GetXAttrRespMsg (l, p) _ _ => in_msg m p l
  | GetNodesRespMsg raw _ _ => in_msg m (rdata raw) 0
  | _ => True
  end.

(** Messages whose decoding does not involve an aligned string. *)
Definition align4_free (h : NetMessageHeader) : bool :=
  let t := msgType h in
  if t =? NETMSGTYPE_StatResp
  then negb (NetMessage_isMsgHeaderFeatureFlagSet h STATRESPMSG_FLAG_HAS_PARENTINFO)
  else negb (bool_decide (t ∈ [NETMSGTYPE_OpenFileResp; NETMSGTYPE_LookupIntentResp;
    NETMSGTYPE_MkDirResp; NETMSGTYPE_MkFileResp; NETMSGTYPE_Heartbeat; NETMSGTYPE_LockGranted])).

Ltac head_of t := match t with ?f _ => head_of f | _ => t end.

Section FactorySafe.
Context (m : mem) (Hm : msg_wf m) (Hff : forall p, word m p 4 <> 2 ^ 32 - 1).

Lemma safe_tm : safe m TargetMapping_deserialize (fun _ => True).
Proof. unfold TargetMapping_deserialize. by solve_safe. Qed.
Lemma safe_tpm : safe m TargetPoolMapping_deserialize (fun _ => True).
Proof. unfold TargetPoolMapping_deserialize, StoragePoolId_deserialize. by solve_safe. Qed.
Lemma safe_bgm : safe m BuddyGroupMapping_deserialize (fun _ => True).
Proof. unfold BuddyGroupMapping_deserialize. by solve_safe. Qed.
Lemma safe_tsm : safe m TargetStateMapping_deserialize (fun _ => True).
Proof.
  unfold TargetStateMapping_deserialize, TargetReachabilityState_deserialize,
    TargetConsistencyState_deserialize. by solve_safe.
Qed.
Lemma safe_statdata : safe m StatData_deserialize (fun _ => True).
Proof. unfold StatData_deserialize. by solve_safe. Qed.

Lemma safe_preprocess_nodes n : safe m (preprocess_nodes n) (fun _ => True).
Proof.
  induction n as [|n IH]; cbn [preprocess_nodes]; [by apply safe_ret|].
  apply (safe_bind _ _ _ (fun _ => True)); [|intros ? _; exact IH]. unfold preprocess_node. by solve_safe.
Qed.

Lemma safe_nodelist raw :
  safe m (Serialization_deserializeNodeListPreprocess raw) (fun r => in_msg m (rdata r) 0).
Proof.
  eapply safe_bind; [eauto with cfs|]. intros cnt _ c Hc.
  apply wp_bind, wp_ctx; [ctx_lia|]. intros _.
  apply (safe_bind m _ _ (fun _ => True)); [apply safe_preprocess_nodes| |done].
  intros _ _. apply safe_ret. unfold in_msg, ctx_wf in *. cbn [rdata]. lia.
Qed.

Hint Resolve safe_serdes safe_tm safe_tpm safe_bgm safe_tsm safe_statdata safe_nodelist : cfs.

Lemma safe_simple {P Q} (ops : NetMessageOps P Q) f h P1 :
  safe m (deserializePayload ops h) P1 -> (forall q, P1 q -> received_in m (f q)) ->
  safe m (deserializePayload (simple_recv ops f) h) (received_in m).
Proof. intros Hd Hf. eapply safe_bind; [exact Hd|]. intros q Hq. apply safe_ret; auto. Qed.

Lemma safe_simplemsg h : safe m (deserializePayload SimpleMsg_recv h) (received_in m).
Proof. apply (safe_simple _ _ _ (fun _ => True)); [by apply safe_ret|done]. Qed.
Lemma safe_simpleint h : safe m (deserializePayload SimpleIntMsg_recv h) (received_in m).
Proof. eapply safe_simple; [cbn; eauto with cfs|done]. Qed.
Lemma safe_simpleint64 h : safe m (deserializePayload SimpleInt64Msg_recv h) (received_in m).
Proof. eapply safe_simple; [cbn; eauto with cfs|done]. Qed.
Lemma safe_simplestring h : safe m (deserializePayload SimpleStringMsg_recv h) (received_in m).
Proof. eapply safe_simple; [cbn; eauto with cfs|done]. Qed.
Lemma safe_simpleintstring h : safe m (deserializePayload SimpleIntStringMsg_recv h) (received_in m).
Proof.
  apply (safe_simple _ _ _ (fun '(i, s) => str_in m s)); [|by intros []].
  cbn [deserializePayload SimpleIntStringMsg_Ops]. by solve_safe.
Qed.

Hint Resolve safe_simplemsg safe_simpleint safe_simpleint64 safe_simplestring
  safe_simpleintstring : cfs.

Lemma payload_safe raw ok1 ok2 t ops h :
  factory_table raw ok1 ok2 t = Some ops -> msgType h = t -> align4_free h = true ->
  safe m (deserializePayload ops h) (received_in m).
Proof.
  intros E Ht Ha. unfold factory_table in E. unfold align4_free in Ha. rewrite Ht in Ha.
  repeat match type of E with (if ?b then _ else _) = _ =>
    let H := fresh "Et" in destruct b eqn:H;
    [apply Z.eqb_eq in H; subst t; injection E as <-; clear -m Hm Hff Ha |] end; [..|done];
  try (vm_compute in Ha; discriminate Ha).
  all: cbn [deserializePayload recv_ops StatRespMsg_Ops]; try solve [eauto with cfs].
  all: lazymatch goal with |- safe _ ?d _ => let f := head_of d in unfold f end.
  all: solve_safe; cbn [received_in]; auto.
  - (* list entries *)
    repeat match goal with H : _ || _ = false |- _ => apply orb_false_iff in H as [? ?] end.
    repeat match goal with H : negb _ = false |- _ => apply negb_false_iff, Z.eqb_eq in H end.
    done.
  - (* StatResp: the flag is not set *)
    apply negb_true_iff in Ha. congruence.
  - unfold raw_in, in_msg in *. intuition lia.
Qed.
End FactorySafe.

Lemma factory_table_range raw ok1 ok2 t ops :
  factory_table raw ok1 ok2 t = Some ops -> t <> NETMSGTYPE_Invalid.
Proof. intros E ->. vm_compute in E. discriminate E. Qed.

Lemma createFromBuf_run (uid : Z) (raw : RawList) (ok1 ok2 : nat -> bool) (m : mem)
    (recvBuf bufLen : Z) (uninit : NetMessageHeader) :
  let h := header_at m recvBuf in
  let create := NetMessageFactory_createFromBuf uid raw ok1 ok2 m recvBuf bufLen uninit in
  msg_wf m -> ctx_wf m (mkDes recvBuf bufLen) ->
  (~ header_valid m recvBuf bufLen -> create = Done (None, NetMessage_init uid NETMSGTYPE_Invalid)) /\
  (header_valid m recvBuf bufLen ->
   match factory_table raw ok1 ok2 (msgType h) with
   | None => create = Done (None, NetMessage_init uid NETMSGTYPE_Invalid)
   | Some ops =>
       align4_free h = true -> (forall p, word m p 4 <> 2 ^ 32 - 1) ->
       exists r h', create = Done (r, h') /\
         match r with
         | None => msgType h' = NETMSGTYPE_Invalid
         | Some q => h' = h /\ received_in m q /\
             Z.land (msgFeatureFlags h) (Z.lnot (getSupportedHeaderFeatureFlagsMask ops)) = 0
         end
   end).
Proof.
  intros h create Hm Hc.
  destruct (deserializeHeader_run m recvBuf bufLen uninit Hm Hc) as (h0 & c & E & Hle & H).
  unfold create, NetMessageFactory_createFromBuf. rewrite E. cfs_simpl. split; intros Hv.
  { rewrite bool_decide_false in H by done. rewrite H. reflexivity. }
  rewrite bool_decide_true in H by done. destruct H as [-> ->]. fold h.
  unfold NetMessageFactory_createFromMsgType.
  destruct (factory_table raw ok1 ok2 (msgType h)) as [ops|] eqn:Et; [|done].
  intros Ha Hff. cbn [msgType NetMessage_init].
  rewrite (proj2 (Z.eqb_neq _ _)) by (by eapply factory_table_range).
  unfold __NetMessageFactory_deserializeRaw, NetMessage_checkHeaderFeatureFlagsCompat.
  destruct (Z.eqb_spec (Z.land (msgFeatureFlags h)
    (Z.lnot (getSupportedHeaderFeatureFlagsMask ops))) 0) as [Hf|Hf]; cbn [negb].
  2: { by eexists _, _. }
  destruct (payload_safe m Hm Hff raw ok1 ok2 _ ops h Et eq_refl Ha (mkDes (recvBuf + 40) (bufLen - 40)))
    as (q & c' & Ed & _ & Hq).
  { by eapply ctx_le_wf. }
  rewrite Ed. cfs_simpl. destruct q as [q|]; [|by eexists _, _].
  eexists _, _. split; [done|]. split_and!; auto.
Qed.

(** C35: the message factory on arbitrary bytes.  A buffer without a valid header,
    or with a message type the client does not handle, yields a message of the
    invalid type.  For the other types, when the type has no aligned string
    ([align4_free]) and no four bytes of the memory have the value [2^32 - 1], the string
    length that defeats the check, decoding neither faults nor leaves the buffer, and it either
    yields a message of the invalid type or the decoded message, with the header
    read, no unsupported feature flag, and every string and list inside the memory,
    strings zero-terminated and the lists of a directory listing of equal length. *)
Theorem createFromBuf_safe (uid : Z) (raw : RawList) (ok1 ok2 : nat -> bool) (m : mem)
    (recvBuf bufLen : Z) (uninit : NetMessageHeader) :
  let h := header_at m recvBuf in
  let create := NetMessageFactory_createFromBuf uid raw ok1 ok2 m recvBuf bufLen uninit in
  msg_wf m -> ctx_wf m (mkDes recvBuf bufLen) ->
  (~ header_valid m recvBuf bufLen -> create = Done (None, NetMessage_init uid NETMSGTYPE_Invalid)) /\
  (header_valid m recvBuf bufLen ->
   match factory_table raw ok1 ok2 (msgType h) with
   | None => create = Done (None, NetMessage_init uid NETMSGTYPE_Invalid)
   | Some ops =>
       align4_free h = true -> (forall p, word m p 4 <> 2 ^ 32 - 1) ->
       exists r h', create = Done (r, h') /\
         match r with
         | None => msgType h' = NETMSGTYPE_Invalid
         | Some q => h' = h /\ received_in m q /\
             Z.land (msgFeatureFlags h) (Z.lnot (getSupportedHeaderFeatureFlagsMask ops)) = 0
         end
   end).
Proof. apply createFromBuf_run. Qed.

(** The words of a concrete buffer can be checked one by one. *)
Lemma no_word_check m v :
  v <> 0 -> forallb (fun i => negb (word m (Z.of_nat i) 4 =? v)) (seq 0 (S (length m))) = true ->
  forall p, word m p 4 <> v.
Proof.
  intros Hv H p. rewrite forallb_forall in H.
  assert (E : forall i, (i <= length m)%nat -> word m (Z.of_nat i) 4 <> v).
  { intros i Hi. specialize (H i). rewrite in_seq in H. apply Z.eqb_neq, negb_true_iff, H. lia. }
  destruct (decide (Z.to_nat p <= length m)%nat).
  - specialize (E (Z.to_nat p) ltac:(done)). unfold word, slice in *. by rewrite Nat2Z.id in E.
  - unfold word, slice. rewrite drop_ge by lia. by rewrite take_nil.
Qed.

Lemma createFromBuf_safe_witness : exists r h',
  NetMessageFactory_createFromBuf 0 (mkRaw 0 0 0) (fun _ => true) (fun _ => true)
    (enc_header 44 (NetMessage_init 7 1040) ++ [9; 0; 0; 0]) 0 44 (NetMessage_init 0 0) =
    Done (r, h') /\
  (r <> None -> h' = header_at (enc_header 44 (NetMessage_init 7 1040) ++ [9; 0; 0; 0]) 0).
Proof.
  destruct (createFromBuf_safe 0 (mkRaw 0 0 0) (fun _ => true) (fun _ => true)
    (enc_header 44 (NetMessage_init 7 1040) ++ [9; 0; 0; 0]) 0 44 (NetMessage_init 0 0)
    ltac:(split; [apply (bool_decide_unpack _); by vm_compute | by vm_compute])
    ltac:(unfold ctx_wf; vm_compute; intuition discriminate)) as [_ H].
  specialize (H ltac:(apply (bool_decide_unpack _); by vm_compute)).
  assert (E : msgType (header_at (enc_header 44 (NetMessage_init 7 1040) ++ [9; 0; 0; 0]) 0) = 1040)
    by (vm_compute; reflexivity).
  rewrite E in H.
  change (factory_table (mkRaw 0 0 0) (fun _ => true) (fun _ => true) 1040) with
    (Some (recv_ops (fun _ => RegisterNodeRespMsg_deserializePayload))) in H.
  destruct (H ltac:(by vm_compute) ltac:(apply no_word_check; by vm_compute)) as (r & h' & Er & Hr).
  exists r, h'. split; [exact Er|]. destruct r as [q|]; [intros _; exact (proj1 Hr)|done].
Defined.
