(* ===== verification/CommKit.v ===== *)
(** * CommKit: talking to many storage targets at once

    Models [FhgfsOpsCommkit_communicate] of [net/filesystem/FhgfsOpsCommKit.c], the
    state machine behind striped IO, fsync and statfs, with
    [FhgfsOpsCommKitCommon.h].  Each target has a record [CommKitTargetInfo] with
    its state; a round lets every target do one step, then polls or starts a retry.

    The surroundings (signals, node store, connection pools, sockets, the memory
    pool, the clock) are the class [CommEnv]: every call may change the world [W],
    so the theorems hold for any behaviour of servers, network and other threads.
    What the code acquires and must give back is kept in a [Ledger]; giving back
    what is not held is a [Fault].  Calls made only for log messages are left out. *)

From stdpp Require Import gmap.
From S2P Require Import Prelude Serialization RBTree StripePattern.
From S2P Require Import TargetStateStore MirrorBuddyGroupMapper NetMessage.

(** ** Constants *)

Definition CONGFS_COMMKIT_MSGBUF_SIZE : Z := 4096.
Definition COMMKIT_RESET_SLEEP_MS : Z := 5000.
Definition CONN_LONG_TIMEOUT : Z := 600000.
Definition CK_RETRY_BUDDY_FALLBACK : Z := Z.shiftl 1 0.
Definition CK_RETRY_LOOP_EAGAIN : Z := Z.shiftl 1 1.
Definition CK_SKIP_TARGET : Z := 0.
Definition CK_CONTINUE_TARGET : Z := 1.
Definition EFAULT : Z := 14.
Definition POLLIN : Z := 1.
Definition POLLOUT : Z := 4.

Definition CommKitState_PREPARE : Z := 0.
Definition CommKitState_SENDHEADER : Z := 1.
Definition CommKitState_SENDDATA : Z := 2.
Definition CommKitState_RECVHEADER : Z := 3.
Definition CommKitState_RECVDATA : Z := 4.
Definition CommKitState_SOCKETINVALIDATE : Z := 5.
Definition CommKitState_CLEANUP : Z := 6.
Definition CommKitState_RETRYWAIT : Z := 7.
Definition CommKitState_DONE : Z := 8.

(** ** Targets *)

(** [ci_priv] is the record the base is embedded in; nodes and sockets are
    addresses, [None] is NULL; [logged] only concerns log messages. *)
Record CommKitTargetInfo (P : Type) := mkInfo {
  ci_state : Z; ci_headerBuffer : option mem; ci_targetID : Z; ci_selectedTargetID : Z;
  ci_useBuddyMirrorSecond : bool; ci_node : option Z; ci_socket : option Z;
  ci_headerSize : Z; ci_nodeResult : Z; ci_priv : P }.
Arguments mkInfo {P}.
Arguments ci_state {P}.
Arguments ci_headerBuffer {P}.
Arguments ci_targetID {P}.
Arguments ci_selectedTargetID {P}.
Arguments ci_useBuddyMirrorSecond {P}.
Arguments ci_node {P}.
Arguments ci_socket {P}.
Arguments ci_headerSize {P}.
Arguments ci_nodeResult {P}.
Arguments ci_priv {P}.

Definition commkit_initTargetInfo {P} (targetID : Z) (priv : P) : CommKitTargetInfo P :=
  mkInfo CommKitState_PREPARE None targetID 0 false None None 0 (- FhgfsOpsErr_INTERNAL) priv.

Section Setters.
Context {P : Type} (i : CommKitTargetInfo P).
Definition set_state (v : Z) : CommKitTargetInfo P :=
  mkInfo v (ci_headerBuffer i) (ci_targetID i) (ci_selectedTargetID i) (ci_useBuddyMirrorSecond i)
    (ci_node i) (ci_socket i) (ci_headerSize i) (ci_nodeResult i) (ci_priv i).
Definition set_headerBuffer (v : option mem) : CommKitTargetInfo P :=
  mkInfo (ci_state i) v (ci_targetID i) (ci_selectedTargetID i) (ci_useBuddyMirrorSecond i)
    (ci_node i) (ci_socket i) (ci_headerSize i) (ci_nodeResult i) (ci_priv i).
Definition set_selectedTargetID (v : Z) : CommKitTargetInfo P :=
  mkInfo (ci_state i) (ci_headerBuffer i) (ci_targetID i) v (ci_useBuddyMirrorSecond i)
    (ci_node i) (ci_socket i) (ci_headerSize i) (ci_nodeResult i) (ci_priv i).
Definition set_useBuddyMirrorSecond (v : bool) : CommKitTargetInfo P :=
  mkInfo (ci_state i) (ci_headerBuffer i) (ci_targetID i) (ci_selectedTargetID i) v
    (ci_node i) (ci_socket i) (ci_headerSize i) (ci_nodeResult i) (ci_priv i).
Definition set_node (v : option Z) : CommKitTargetInfo P :=
  mkInfo (ci_state i) (ci_headerBuffer i) (ci_targetID i) (ci_selectedTargetID i)
    (ci_useBuddyMirrorSecond i) v (ci_socket i) (ci_headerSize i) (ci_nodeResult i) (ci_priv i).
Definition set_socket (v : option Z) : CommKitTargetInfo P :=
  mkInfo (ci_state i) (ci_headerBuffer i) (ci_targetID i) (ci_selectedTargetID i)
    (ci_useBuddyMirrorSecond i) (ci_node i) v (ci_headerSize i) (ci_nodeResult i) (ci_priv i).
Definition set_headerSize (v : Z) : CommKitTargetInfo P :=
  mkInfo (ci_state i) (ci_headerBuffer i) (ci_targetID i) (ci_selectedTargetID i)
    (ci_useBuddyMirrorSecond i) (ci_node i) (ci_socket i) v (ci_nodeResult i) (ci_priv i).
Definition set_nodeResult (v : Z) : CommKitTargetInfo P :=
  mkInfo (ci_state i) (ci_headerBuffer i) (ci_targetID i) (ci_selectedTargetID i)
    (ci_useBuddyMirrorSecond i) (ci_node i) (ci_socket i) (ci_headerSize i) v (ci_priv i).
Definition set_priv (v : P) : CommKitTargetInfo P :=
  mkInfo (ci_state i) (ci_headerBuffer i) (ci_targetID i) (ci_selectedTargetID i)
    (ci_useBuddyMirrorSecond i) (ci_node i) (ci_socket i) (ci_headerSize i) (ci_nodeResult i) v.
End Setters.

(** ** Shared data of the states *)

(** The fields that change; [pollState] is the list of sockets to poll with the
    events waited for. *)
Record CommKitContext := mkCtx {
  numRetryWaiters : Z; numDone : Z; numAcquiredConns : Z; numUnconnectable : Z;
  numBufferless : Z; pollTimedOut : bool; pollTimeoutLogged : bool; connFailedLogged : bool;
  pollState : list (Z * Z); numPollSocks : Z; currentRetryNum : Z }.

Definition ctx_init : CommKitContext := mkCtx 0 0 0 0 0 false false false [] 0 0.

Definition add_retryWaiters (n : Z) (c : CommKitContext) : CommKitContext :=
  mkCtx (u32 (numRetryWaiters c + n)) (numDone c) (numAcquiredConns c) (numUnconnectable c)
    (numBufferless c) (pollTimedOut c) (pollTimeoutLogged c) (connFailedLogged c) (pollState c)
    (numPollSocks c) (currentRetryNum c).
Definition add_done (n : Z) (c : CommKitContext) : CommKitContext :=
  mkCtx (numRetryWaiters c) (u32 (numDone c + n)) (numAcquiredConns c) (numUnconnectable c)
    (numBufferless c) (pollTimedOut c) (pollTimeoutLogged c) (connFailedLogged c) (pollState c)
    (numPollSocks c) (currentRetryNum c).
Definition add_acquiredConns (n : Z) (c : CommKitContext) : CommKitContext :=
  mkCtx (numRetryWaiters c) (numDone c) (u32 (numAcquiredConns c + n)) (numUnconnectable c)
    (numBufferless c) (pollTimedOut c) (pollTimeoutLogged c) (connFailedLogged c) (pollState c)
    (numPollSocks c) (currentRetryNum c).
Definition add_unconnectable (n : Z) (c : CommKitContext) : CommKitContext :=
  mkCtx (numRetryWaiters c) (numDone c) (numAcquiredConns c) (u32 (numUnconnectable c + n))
    (numBufferless c) (pollTimedOut c) (pollTimeoutLogged c) (connFailedLogged c) (pollState c)
    (numPollSocks c) (currentRetryNum c).
Definition add_bufferless (n : Z) (c : CommKitContext) : CommKitContext :=
  mkCtx (numRetryWaiters c) (numDone c) (numAcquiredConns c) (numUnconnectable c)
    (u32 (numBufferless c + n)) (pollTimedOut c) (pollTimeoutLogged c) (connFailedLogged c)
    (pollState c) (numPollSocks c) (currentRetryNum c).
Definition set_connFailedLogged (c : CommKitContext) : CommKitContext :=
  mkCtx (numRetryWaiters c) (numDone c) (numAcquiredConns c) (numUnconnectable c)
    (numBufferless c) (pollTimedOut c) (pollTimeoutLogged c) true (pollState c)
    (numPollSocks c) (currentRetryNum c).
Definition ctx_pollTimedOut (c : CommKitContext) : CommKitContext :=
  mkCtx (numRetryWaiters c) (numDone c) (numAcquiredConns c) (numUnconnectable c)
    (numBufferless c) true true (connFailedLogged c) (pollState c)
    (numPollSocks c) (currentRetryNum c).
Definition add_pollSocket (socket events : Z) (c : CommKitContext) : CommKitContext :=
  mkCtx (numRetryWaiters c) (numDone c) (numAcquiredConns c) (numUnconnectable c)
    (numBufferless c) (pollTimedOut c) (pollTimeoutLogged c) (connFailedLogged c)
    (pollState c ++ [(socket, events)]) (u32 (numPollSocks c + 1)) (currentRetryNum c).
Definition set_currentRetryNum (n : Z) (c : CommKitContext) : CommKitContext :=
  mkCtx (numRetryWaiters c) (numDone c) (numAcquiredConns c) (numUnconnectable c)
    (numBufferless c) (pollTimedOut c) (pollTimeoutLogged c) (connFailedLogged c) (pollState c)
    (numPollSocks c) n.
(** The resets at the start of a round and at the start of a retry. *)
Definition ctx_start_round (c : CommKitContext) : CommKitContext :=
  mkCtx (numRetryWaiters c) (numDone c) (numAcquiredConns c) 0 0 (pollTimedOut c)
    (pollTimeoutLogged c) (connFailedLogged c) [] 0 (currentRetryNum c).
Definition ctx_start_retry (c : CommKitContext) : CommKitContext :=
  mkCtx 0 (numDone c) (numAcquiredConns c) (numUnconnectable c) (numBufferless c) false
    (pollTimeoutLogged c) (connFailedLogged c) (pollState c) (numPollSocks c) (currentRetryNum c).

(** What is acquired and not given back yet: connections and node references by
    address, header buffers by number. *)
Record Ledger := mkLedger { conns : list Z; nodes : list Z; bufs : nat }.

Fixpoint take_out (x : Z) (l : list Z) : option (list Z) :=
  match l with
  | [] => None
  | y :: r => if x =? y then Some r else option_map (cons y) (take_out x r)
  end.

(** ** The surroundings *)

(** Each call yields a result and the world after it, in which other threads may
    have run.  [storageBuddyGroups] and [targetStates] are the two stores as they
    are when their lock is taken.  [Socket_recvT] yields an error code or the
    bytes received; [SocketTk_poll] its result and the sockets with events. *)
Class CommEnv (W : Type) := {
  fatal_signal_pending : W -> bool * W;
  Node_getIsActive : Z -> W -> bool * W;
  mempool_alloc : bool -> W -> option mem * W;
  storageBuddyGroups : W -> MapperState * W;
  targetStates : W -> TargetStateStore * W;
  NodeStoreEx_referenceNodeByTargetID : Z -> W -> (Z + Z) * W;
  Node_put : Z -> W -> W;
  NodeConnPool_acquireStreamSocketEx : Z -> bool -> W -> option Z * W;
  NodeConnPool_releaseStreamSocket : Z -> Z -> W -> W;
  NodeConnPool_invalidateStreamSocket : Z -> Z -> W -> W;
  Socket_send : Z -> mem -> W -> Z * W;
  Socket_recvT : Z -> Z -> W -> (Z + mem) * W;
  SocketTk_poll : list (Z * Z) -> Z -> W -> (Z * list (Z * Z)) * W;
  App_getConnRetriesEnabled : W -> bool * W;
  Thread_sleep : Z -> W -> W }.

Definition buffer_wf (b : mem) : Prop := mlen b = CONGFS_COMMKIT_MSGBUF_SIZE /\ Forall is_byte b.

(** What the code relies on: an allocation that may wait succeeds, buffers have
    the size of the cache, a receive yields an error or at most what was asked for, a
    send of something an error or a part of it, and the buddy groups are well-formed
    (see [MirrorBuddyGroupMapper]). *)
Class CommEnvLaws (W : Type) `{!CommEnv W} : Prop := {
  alloc_waits w : fst (mempool_alloc true w) <> None;
  alloc_size wait w b : fst (mempool_alloc wait w) = Some b -> buffer_wf b;
  recv_bound s n w b :
    fst (Socket_recvT s n w) = inr b -> mlen b <= Z.max 0 n /\ Forall is_byte b;
  recv_error s n w e : fst (Socket_recvT s n w) = inl e -> e < 0;
  send_bound s b w : 0 < mlen b -> fst (Socket_send s b w) <= mlen b /\ fst (Socket_send s b w) <> 0;
  groups_wf w : mapper_wf (fst (storageBuddyGroups w)) }.

(** ** State passing *)

Record Mach (W : Type) := mkMach {
  world : W; ctx : CommKitContext; revents : gmap Z Z; held : Ledger }.
Arguments mkMach {W}.
Arguments world {W}.
Arguments ctx {W}.
Arguments revents {W}.
Arguments held {W}.

Definition M (W A : Type) : Type := Mach W -> outcome (A * Mach W).
#[export] Instance M_ret {W} : MRet (M W) := fun A a s => Done (a, s).
#[export] Instance M_bind {W} : MBind (M W) := fun A B f m s =>
  match m s with Done (a, s') => f a s' | Fault => Fault end.

Section Machine.
Context {W : Type} `{CommEnv W}.

Definition fault {A} : M W A := fun _ => Fault.
Definition lift {A} (o : outcome A) : M W A := fun s => a ← o; Done (a, s).
Definition env {A} (f : W -> A * W) : M W A := fun s =>
  let '(a, w) := f (world s) in Done (a, mkMach w (ctx s) (revents s) (held s)).
Definition env_ (f : W -> W) : M W unit := env (fun w => (tt, f w)).
Definition get_ctx : M W CommKitContext := fun s => Done (ctx s, s).
Definition upd_ctx (f : CommKitContext -> CommKitContext) : M W unit := fun s =>
  Done (tt, mkMach (world s) (f (ctx s)) (revents s) (held s)).
Definition upd_held (f : Ledger -> option Ledger) : M W unit := fun s =>
  l ← of_option (f (held s)); Done (tt, mkMach (world s) (ctx s) (revents s) l).
Definition get_revents (socket : Z) : M W Z := fun s =>
  Done (default 0 (revents s !! socket), s).
Definition upd_revents (f : gmap Z Z -> gmap Z Z) : M W unit := fun s =>
  Done (tt, mkMach (world s) (ctx s) (f (revents s)) (held s)).

(** ** Resources *)

Definition allocHeaderBuffer (mayWait : bool) : M W (option mem) :=
  b ← env (mempool_alloc mayWait);
  match b with
  | Some _ => _ ← upd_held (fun l => Some (mkLedger (conns l) (nodes l) (S (bufs l)))); mret b
  | None => mret None
  end.

(** [mempool_free] accepts NULL. *)
Definition freeHeaderBuffer (header : option mem) : M W unit :=
  match header with
  | Some _ => upd_held (fun l =>
      match bufs l with O => None | S n => Some (mkLedger (conns l) (nodes l) n) end)
  | None => mret tt
  end.

Definition reference_node (targetID : Z) : M W (Z + Z) :=
  r ← env (NodeStoreEx_referenceNodeByTargetID targetID);
  match r with
  | inr node => _ ← upd_held (fun l => Some (mkLedger (conns l) (node :: nodes l) (bufs l))); mret r
  | inl _ => mret r
  end.

Definition put_node (node : Z) : M W unit :=
  _ ← upd_held (fun l => ns ← take_out node (nodes l); Some (mkLedger (conns l) ns (bufs l)));
  env_ (Node_put node).

Definition acquire_conn (node : Z) (allowWaiting : bool) : M W (option Z) :=
  r ← env (NodeConnPool_acquireStreamSocketEx node allowWaiting);
  match r with
  | Some sock => _ ← upd_held (fun l => Some (mkLedger (sock :: conns l) (nodes l) (bufs l))); mret r
  | None => mret None
  end.

(** Giving a connection back to the pool of its node, usable or not. *)
Definition give_conn (f : Z -> Z -> W -> W) (node socket : option Z) : M W unit :=
  node ← lift (of_option node); socket ← lift (of_option socket);
  _ ← upd_held (fun l => cs ← take_out socket (conns l); Some (mkLedger cs (nodes l) (bufs l)));
  env_ (f node socket).

(** ** Helpers of the handlers *)

Definition __commkit_add_socket_pollstate {P} (info : CommKitTargetInfo P) (pollEvents : Z) : M W unit :=
  socket ← lift (of_option (ci_socket info));
  _ ← upd_revents <[socket := 0]>;
  upd_ctx (add_pollSocket socket pollEvents).

Definition __commkit_prepare_io {P} (info : CommKitTargetInfo P) (events : Z)
    : M W (bool * CommKitTargetInfo P) :=
  signal ← env fatal_signal_pending;
  inactive ← (if signal : bool then mret false
              else node ← lift (of_option (ci_node info));
                   active ← env (Node_getIsActive node); mret (negb active));
  if signal || inactive then mret (false, set_state info CommKitState_SOCKETINVALIDATE) else
  context ← get_ctx;
  if pollTimedOut context then
    mret (false, set_state (set_nodeResult info (- FhgfsOpsErr_COMMUNICATION))
                   CommKitState_SOCKETINVALIDATE)
  else
    socket ← lift (of_option (ci_socket info));
    revents ← get_revents socket;
    if Z.land revents events =? 0 then
      _ ← __commkit_add_socket_pollstate info events; mret (false, info)
    else mret (true, info).

(** ** The table of operations of a kind of communication *)

Record CommKitContextOps (P : Type) := mkOps {
  selectedTargetBad :
    option (CommKitTargetInfo P -> CombinedTargetState -> Z * CommKitTargetInfo P);
  prepareHeader : CommKitTargetInfo P -> M W (Z * CommKitTargetInfo P);
  sendData : option (CommKitTargetInfo P -> M W (Z * CommKitTargetInfo P));
  recvHeader : option (CommKitTargetInfo P -> M W (Z * CommKitTargetInfo P));
  recvData : option (CommKitTargetInfo P -> M W (Z * CommKitTargetInfo P));
  retryFlags : Z }.
Arguments mkOps {P}.
Arguments selectedTargetBad {P}.
Arguments prepareHeader {P}.
Arguments sendData {P}.
Arguments recvHeader {P}.
Arguments recvData {P}.
Arguments retryFlags {P}.

(** [ioPattern]: the type of the stripe pattern of [ioInfo], [None] if that is NULL. *)
Section Handlers.
Context {P : Type} (ops : CommKitContextOps P) (ioPattern : option Z) (maxNumRetries : Z).
Notation Info := (CommKitTargetInfo P).

Definition buddy_mirrored : bool := bool_decide (ioPattern = Some STRIPEPATTERN_BuddyMirror).

Definition buddy_target (second : bool) (targetID : Z) : M W Z :=
  groups ← env storageBuddyGroups;
  lift (if second then MirrorBuddyGroupMapper_getSecondaryTargetID groups targetID
        else MirrorBuddyGroupMapper_getPrimaryTargetID groups targetID).

Definition get_target_state (targetID : Z) : M W (bool * CombinedTargetState) :=
  store ← env targetStates;
  mret (TargetStateStore_getState store targetID).

(** The labels [cleanup] and [error] of the function. *)
Definition prepare_cleanup (info : Info) : M W (bool * Info) :=
  mret (false, set_state info CommKitState_CLEANUP).
Definition prepare_error (info : Info) : M W (bool * Info) :=
  _ ← freeHeaderBuffer (ci_headerBuffer info);
  mret (false, set_headerBuffer info None).

Definition __commkit_prepare_generic (info : Info) : M W (bool * Info) :=
  context ← get_ctx;
  let allowWaitForConn := numAcquiredConns context =? 0 in
  let info := set_selectedTargetID
    (set_nodeResult (set_socket info None) (- FhgfsOpsErr_COMMUNICATION)) (ci_targetID info) in
  headerBuffer ← allocHeaderBuffer allowWaitForConn;
  let info := set_headerBuffer info headerBuffer in
  match headerBuffer with
  | None => _ ← upd_ctx (add_bufferless 1); mret (false, info)
  | Some _ =>
  selected ← (if buddy_mirrored then buddy_target (ci_useBuddyMirrorSecond info) (ci_targetID info)
              else mret (ci_targetID info));
  let info := set_selectedTargetID info selected in
  if buddy_mirrored && (selected =? 0) then
    prepare_cleanup (set_nodeResult info (- FhgfsOpsErr_UNKNOWNTARGET))
  else
  '(getStateRes, targetState) ← get_target_state selected;
  let unusable := negb getStateRes ||
    (reachabilityState targetState =? TargetReachabilityState_OFFLINE) ||
    (buddy_mirrored && negb (consistencyState targetState =? TargetConsistencyState_GOOD)) in
  let '(skip, info) :=
    if unusable then
      let info := set_state info CommKitState_CLEANUP in
      match selectedTargetBad ops with
      | Some f => let '(targetAction, info) := f info targetState in
                  (targetAction =? CK_SKIP_TARGET, info)
      | None => (true, info)
      end
    else (false, info) in
  if skip : bool then prepare_error info else
  node ← reference_node (ci_selectedTargetID info);
  match node with
  | inl resolveErr =>
      prepare_cleanup (set_nodeResult (set_node info None) (- resolveErr))
  | inr node =>
  '(headerSize, info) ← prepareHeader ops (set_node info (Some node));
  let info := set_headerSize info headerSize in
  if headerSize =? 0 then prepare_cleanup info else
  socket ← acquire_conn node allowWaitForConn;
  let info := set_socket info socket in
  match socket with
  | None =>
      if negb allowWaitForConn then
        _ ← put_node node;
        _ ← upd_ctx (add_unconnectable 1);
        prepare_error (set_node info None)
      else
        _ ← upd_ctx set_connFailedLogged;
        prepare_cleanup info
  | Some _ =>
      _ ← upd_ctx (add_acquiredConns 1);
      mret (true, set_state info CommKitState_SENDHEADER)
  end end end.

Definition __commkit_sendheader_generic (info : Info) : M W Info :=
  buffer ← lift (of_option (ci_headerBuffer info));
  socket ← lift (of_option (ci_socket info));
  bytes ← lift (read_block buffer 0 (ci_headerSize info));
  sendRes ← env (Socket_send socket bytes);
  if negb (sendRes =? ci_headerSize info) then
    mret (set_state info CommKitState_SOCKETINVALIDATE)
  else mret (set_headerSize (set_state info CommKitState_SENDDATA) 0).

Definition __commkit_senddata_generic (sendData : Info -> M W (Z * Info)) (info : Info) : M W Info :=
  '(ok, info) ← __commkit_prepare_io info POLLOUT;
  if negb ok then mret info else
  '(sendRes, info) ← sendData info;
  if sendRes <? 0 then
    let info := if sendRes =? - EFAULT
                then set_nodeResult info (- FhgfsOpsErr_ADDRESSFAULT) else info in
    mret (set_state info CommKitState_SOCKETINVALIDATE)
  else if sendRes =? 0 then
    let info := set_state info CommKitState_RECVHEADER in
    _ ← __commkit_add_socket_pollstate info POLLIN; mret info
  else _ ← __commkit_add_socket_pollstate info POLLOUT; mret info.

(** [Socket_recvT(socket, headerBuffer + headerSize, want, ..)] and the update of
    [headerSize]; [None] when nothing was received. *)
Definition recv_more (info : Info) (want : Z) : M W (option Info) :=
  buffer ← lift (of_option (ci_headerBuffer info));
  socket ← lift (of_option (ci_socket info));
  r ← env (Socket_recvT socket want);
  match r with
  | inl _ | inr [] => mret None
  | inr bytes =>
      buffer ← lift (write_block buffer (ci_headerSize info) bytes);
      mret (Some (set_headerSize (set_headerBuffer info (Some buffer))
                    (u32 (ci_headerSize info + mlen bytes))))
  end.

(** Receiving the response message: [RecvWait] when a part is still missing,
    [RecvTooLarge] for a message longer than the buffer. *)
Inductive RecvRes := RecvErr (i : Info) | RecvTooLarge (i : Info) | RecvWait (i : Info)
  | RecvOk (i : Info).

Definition recv_message (info : Info) : M W RecvRes :=
  first ← (if ci_headerSize info <? NETMSG_MIN_LENGTH
           then recv_more info (NETMSG_MIN_LENGTH - ci_headerSize info)
           else mret (Some info));
  match first with
  | None => mret (RecvErr info)
  | Some info1 =>
  let received := ci_headerSize info <? NETMSG_MIN_LENGTH in
  buffer ← lift (of_option (ci_headerBuffer info1));
  msgLength ← lift (NetMessage_extractMsgLengthFromBuf buffer 0);
  if CONGFS_COMMKIT_MSGBUF_SIZE <? msgLength then mret (RecvTooLarge info1)
  else if ci_headerSize info1 <? msgLength then
    second ← recv_more info1 (msgLength - ci_headerSize info1);
    match second with
    | None => mret (RecvErr info1)
    | Some info2 =>
        if ci_headerSize info2 <? msgLength then mret (RecvWait info2) else mret (RecvOk info2)
    end
  else mret (if received then RecvOk info1 else RecvErr info1)
  end.

Definition __commkit_recvheader_generic (recvHeader : Info -> M W (Z * Info)) (info : Info) : M W Info :=
  '(ok, info) ← __commkit_prepare_io info POLLIN;
  if negb ok then mret info else
  r ← recv_message info;
  match r with
  | RecvErr info => mret (set_state info CommKitState_SOCKETINVALIDATE)
  | RecvTooLarge info =>
      mret (set_nodeResult (set_state info (- CommKitState_SOCKETINVALIDATE))
              (- FhgfsOpsErr_COMMUNICATION))
  | RecvWait info => mret info
  | RecvOk info =>
      '(recvRes, info) ← recvHeader info;
      mret (set_state info (if recvRes <? 0 then CommKitState_SOCKETINVALIDATE
                            else CommKitState_RECVDATA))
  end.

Definition __commkit_recvdata_generic (recvData : Info -> M W (Z * Info)) (info : Info) : M W Info :=
  '(ok, info) ← __commkit_prepare_io info POLLIN;
  if negb ok then mret info else
  '(recvRes, info) ← recvData info;
  if recvRes <? 0 then
    let info := if recvRes =? - EFAULT
                then set_nodeResult info (- FhgfsOpsErr_ADDRESSFAULT) else info in
    mret (set_state info CommKitState_SOCKETINVALIDATE)
  else if recvRes =? 0 then mret (set_state info CommKitState_CLEANUP)
  else _ ← __commkit_add_socket_pollstate info POLLIN; mret info.

Definition __commkit_socketinvalidate_generic (info : Info) : M W Info :=
  signal ← env fatal_signal_pending;
  info ←
    (if signal : bool then mret (set_nodeResult info (- FhgfsOpsErr_INTERRUPTED))
     else
       node ← lift (of_option (ci_node info));
       active ← env (Node_getIsActive node);
       if negb active then mret (set_nodeResult info (- FhgfsOpsErr_UNKNOWNNODE))
       else if ci_nodeResult info =? - FhgfsOpsErr_ADDRESSFAULT then mret info
       else mret (set_nodeResult info (- FhgfsOpsErr_COMMUNICATION)));
  _ ← give_conn NodeConnPool_invalidateStreamSocket (ci_node info) (ci_socket info);
  _ ← upd_ctx (add_acquiredConns (-1));
  mret (set_state (set_socket info None) CommKitState_CLEANUP).

Definition __commkit_cleanup_generic (info : Info) : M W Info :=
  _ ← (match ci_socket info with
       | Some _ =>
           _ ← give_conn NodeConnPool_releaseStreamSocket (ci_node info) (ci_socket info);
           upd_ctx (add_acquiredConns (-1))
       | None => mret tt
       end);
  _ ← freeHeaderBuffer (ci_headerBuffer info);
  let info := set_headerBuffer info None in
  info ← (match ci_node info with
          | Some node => _ ← put_node node; mret (set_node info None)
          | None => mret info
          end);
  let done (info : Info) : M W Info :=
    _ ← upd_ctx (add_done 1); mret (set_state info CommKitState_DONE) in
  if (ci_nodeResult info =? - FhgfsOpsErr_COMMUNICATION) ||
     ((ci_nodeResult info =? - FhgfsOpsErr_AGAIN) &&
      negb (Z.land (retryFlags ops) CK_RETRY_LOOP_EAGAIN =? 0))
  then
    signal ← env fatal_signal_pending;
    if signal : bool then done (set_nodeResult info (- FhgfsOpsErr_INTERRUPTED)) else
    enabled ← env App_getConnRetriesEnabled;
    context ← get_ctx;
    if enabled && ((maxNumRetries =? 0) || (currentRetryNum context <? maxNumRetries)) then
      _ ← upd_ctx (add_retryWaiters 1); mret (set_state info CommKitState_RETRYWAIT)
    else done info
  else done info.

(** ** Retries *)

Definition is_state (info : Info) (state : Z) : bool := ci_state info =? state.

Definition unusable_pair (targetRes buddyRes same : bool) (t b : CombinedTargetState) : bool :=
  (negb targetRes && (negb same && negb buddyRes)) ||
  ((reachabilityState t =? TargetReachabilityState_OFFLINE) &&
   (reachabilityState b =? TargetReachabilityState_OFFLINE)).

Definition target_good (t : CombinedTargetState) : bool :=
  (consistencyState t =? TargetConsistencyState_GOOD) &&
  (reachabilityState t =? TargetReachabilityState_ONLINE).

(** One waiting target: [None] to cancel all retries, otherwise the target for the
    next round, whether the retries are reset, and whether to skip the sleep. *)
Definition start_retry_target (flags : Z) (info : Info) : M W (option (Info * bool * bool)) :=
  let second := ci_useBuddyMirrorSecond info in
  targetID ← (if buddy_mirrored then buddy_target second (ci_targetID info)
              else mret (ci_targetID info));
  buddyTargetID ← (if buddy_mirrored then buddy_target (negb second) (ci_targetID info)
                   else mret (ci_targetID info));
  '(getTargetStateRes, targetState) ← get_target_state targetID;
  '(getBuddyTargetStateRes, buddyTargetState) ←
    (if targetID =? buddyTargetID then mret (true, targetState)
     else get_target_state buddyTargetID);
  let prepare := set_state info CommKitState_PREPARE in
  if unusable_pair getTargetStateRes getBuddyTargetStateRes (targetID =? buddyTargetID)
       targetState buddyTargetState
  then mret None
  else if negb (Z.land flags CK_RETRY_BUDDY_FALLBACK =? 0) &&
     (negb getTargetStateRes || negb (target_good targetState)) &&
     (getBuddyTargetStateRes && target_good buddyTargetState)
  then mret (Some (set_useBuddyMirrorSecond prepare (negb second), true, true))
  else if buddy_mirrored && negb (target_good targetState) then mret (Some (prepare, true, false))
  else if (ci_nodeResult info =? - FhgfsOpsErr_AGAIN) &&
     negb (Z.land flags CK_RETRY_LOOP_EAGAIN =? 0)
  then mret (Some (prepare, true, false))
  else mret (Some (prepare, false, false)).

(** The first loop; results: [cancelRetries], [resetRetries], [sleepOnResetRetries]. *)
Fixpoint start_retry_loop (flags : Z) (infos : list Info) (reset sleep : bool)
    : M W (list Info * (bool * bool * bool)) :=
  match infos with
  | [] => mret ([], (false, reset, sleep))
  | info :: rest =>
      if is_state info CommKitState_RETRYWAIT then
        r ← start_retry_target flags info;
        match r with
        | None => mret (infos, (true, reset, sleep))
        | Some (info, reset', skip) =>
            '(rest, out) ← start_retry_loop flags rest (reset || reset') (sleep && negb skip);
            mret (info :: rest, out)
        end
      else
        '(rest, out) ← start_retry_loop flags rest reset sleep;
        mret (info :: rest, out)
  end.

(** The second loop, for offline targets. *)
Fixpoint cancel_retries (infos : list Info) : M W (list Info) :=
  match infos with
  | [] => mret []
  | info :: rest =>
      info ← (if negb (is_state info CommKitState_RETRYWAIT) &&
                 negb (is_state info CommKitState_PREPARE) then mret info
              else _ ← upd_ctx (add_done 1); mret (set_state info CommKitState_DONE));
      rest ← cancel_retries rest;
      mret (info :: rest)
  end.

Definition MessagingTk_getRetryWaitMS (currentNumRetry : Z) : Z :=
  if currentNumRetry =? 0 then 0
  else if currentNumRetry <=? 12 then 5000
  else if currentNumRetry <=? 24 then 20000
  else 60000.

Definition MessagingTk_waitBeforeRetry (currentNumRetry : Z) : M W unit :=
  let retryWaitMS := MessagingTk_getRetryWaitMS currentNumRetry in
  if retryWaitMS =? 0 then mret tt else env_ (Thread_sleep retryWaitMS).

Definition __commkit_start_retry (flags : Z) (infos : list Info) : M W (list Info) :=
  _ ← upd_ctx ctx_start_retry;
  '(infos, (cancelRetries, resetRetries, sleepOnResetRetries)) ←
    start_retry_loop flags infos false true;
  if cancelRetries : bool then cancel_retries infos
  else if resetRetries : bool then
    _ ← (if sleepOnResetRetries : bool then env_ (Thread_sleep COMMKIT_RESET_SLEEP_MS)
         else mret tt);
    _ ← upd_ctx (set_currentRetryNum 0);
    mret infos
  else
    context ← get_ctx;
    _ ← MessagingTk_waitBeforeRetry (currentRetryNum context);
    _ ← upd_ctx (set_currentRetryNum (u32 (currentRetryNum context + 1)));
    mret infos.

(** ** The main loop *)

Definition sendheader_case (info : Info) : M W Info :=
  info ← __commkit_sendheader_generic info;
  _ ← __commkit_add_socket_pollstate info
        (match sendData ops with Some _ => POLLOUT | None => POLLIN end);
  mret info.

Definition recvdata_case (info : Info) : M W Info :=
  match recvData ops with
  | Some f => __commkit_recvdata_generic f info
  | None => __commkit_cleanup_generic info
  end.

Definition recvheader_case (info : Info) : M W Info :=
  match recvHeader ops with
  | Some f => __commkit_recvheader_generic f info
  | None => recvdata_case info
  end.

Definition senddata_case (info : Info) : M W Info :=
  match sendData ops with
  | Some f => __commkit_senddata_generic f info
  | None => recvheader_case info
  end.

(** The switch, with the cases a missing operation falls through to; the default
    case is [BUG()]. *)
Definition commkit_step (info : Info) : M W Info :=
  if is_state info CommKitState_PREPARE then
    '(ok, info) ← __commkit_prepare_generic info;
    if negb ok then mret info else sendheader_case info
  else if is_state info CommKitState_SENDHEADER then sendheader_case info
  else if is_state info CommKitState_SENDDATA then senddata_case info
  else if is_state info CommKitState_RECVHEADER then recvheader_case info
  else if is_state info CommKitState_RECVDATA then recvdata_case info
  else if is_state info CommKitState_CLEANUP then __commkit_cleanup_generic info
  else if is_state info CommKitState_SOCKETINVALIDATE then
    info ← __commkit_socketinvalidate_generic info;
    __commkit_cleanup_generic info
  else if is_state info CommKitState_RETRYWAIT || is_state info CommKitState_DONE then mret info
  else fault.

Fixpoint commkit_steps (infos : list Info) : M W (list Info) :=
  match infos with
  | [] => mret []
  | info :: rest =>
      info ← commkit_step info;
      rest ← commkit_steps rest;
      mret (info :: rest)
  end.

(** The sum of the counters, which are [unsigned]. *)
Definition num_waiters (c : CommKitContext) : Z :=
  numPollSocks c + numRetryWaiters c + numDone c + numUnconnectable c + numBufferless c.

Definition __FhgfsOpsCommKitCommon_pollStateSocks (numStates : Z) : M W unit :=
  context ← get_ctx;
  let timeoutMS := if u32 (num_waiters context) <? numStates then 0 else CONN_LONG_TIMEOUT in
  '(pollRes, events) ← env (SocketTk_poll (pollState context) timeoutMS);
  _ ← upd_revents (fun m => list_to_map events ∪ m);
  if (negb (timeoutMS =? 0) && (pollRes <=? 0)) || (pollRes <? 0)
  then upd_ctx ctx_pollTimedOut
  else mret tt.

Definition commkit_round (infos : list Info) : M W (list Info) :=
  _ ← upd_ctx ctx_start_round;
  infos ← commkit_steps infos;
  let numStates := Z.of_nat (length infos) in
  context ← get_ctx;
  if negb (numPollSocks context =? 0) then
    _ ← __FhgfsOpsCommKitCommon_pollStateSocks numStates;
    mret infos
  else if negb (numRetryWaiters context =? 0) &&
     (u32 (numDone context + numRetryWaiters context) =? numStates)
  then __commkit_start_retry (retryFlags ops) infos
  else mret infos.

(** At most [S fuel] rounds; the result says whether the loop has ended. *)
Fixpoint communicate_rounds (fuel : nat) (infos : list Info) : M W (list Info * bool) :=
  infos ← commkit_round infos;
  context ← get_ctx;
  if numDone context =? Z.of_nat (length infos) then mret (infos, true)
  else match fuel with
       | O => mret (infos, false)
       | S fuel' => communicate_rounds fuel' infos
       end.

Definition FhgfsOpsCommkit_communicate (fuel : nat) (infos : list Info) : M W (list Info * bool) :=
  _ ← upd_ctx (fun _ => ctx_init);
  communicate_rounds fuel infos.

End Handlers.
End Machine.

Arguments mkOps {W P}.
Arguments selectedTargetBad {W P}.
Arguments prepareHeader {W P}.
Arguments sendData {W P}.
Arguments recvHeader {W P}.
Arguments recvData {W P}.
Arguments retryFlags {W P}.

(** ** Reasoning about runs

    [kwp m c L Q]: from every machine with context [c] and ledger [L], whatever the
    world and the last poll results, [m] runs without a fault and ends with [Q]. *)

Definition kwp {W A} (m : M W A) (c : CommKitContext) (L : Ledger)
    (Q : A -> CommKitContext -> Ledger -> Prop) : Prop :=
  forall s, ctx s = c -> held s = L ->
    match m s with Done (a, s') => Q a (ctx s') (held s') | Fault => False end.

Section Rules.
Context {W : Type} `{CommEnv W}.
Implicit Types (c : CommKitContext) (L : Ledger).

Lemma kwp_ret {A} (a : A) c L (Q : A -> CommKitContext -> Ledger -> Prop) :
  Q a c L -> kwp (W := W) (mret a) c L Q.
Proof. by intros HQ s <- <-. Qed.

Lemma kwp_bind {A B} (m : M W A) (f : A -> M W B) c L Q :
  kwp m c L (fun a c' L' => kwp (f a) c' L' Q) -> kwp (m ≫= f) c L Q.
Proof.
  intros Hm s Hc HL. specialize (Hm s Hc HL). unfold mbind, M_bind.
  destruct (m s) as [[a s']|]; [by apply Hm|done].
Qed.

Lemma kwp_mono {A} (m : M W A) c L (Q Q' : A -> CommKitContext -> Ledger -> Prop) :
  (forall a c' L', Q a c' L' -> Q' a c' L') -> kwp m c L Q -> kwp m c L Q'.
Proof.
  intros HQ Hm s Hc HL. specialize (Hm s Hc HL). destruct (m s) as [[a s']|]; [|done]. by apply HQ.
Qed.

Lemma kwp_env {A} (f : W -> A * W) c L Q :
  (forall w, Q (fst (f w)) c L) -> kwp (env f) c L Q.
Proof.
  intros HQ s <- <-. unfold env. specialize (HQ (world s)). by destruct (f (world s)).
Qed.

Lemma kwp_env_ (f : W -> W) c L (Q : unit -> CommKitContext -> Ledger -> Prop) :
  Q tt c L -> kwp (env_ f) c L Q.
Proof. intros HQ. by apply kwp_env. Qed.

Lemma kwp_get_ctx c L (Q : CommKitContext -> CommKitContext -> Ledger -> Prop) :
  Q c c L -> kwp (W := W) get_ctx c L Q.
Proof. by intros HQ s <- <-. Qed.

Lemma kwp_upd_ctx f c L (Q : unit -> CommKitContext -> Ledger -> Prop) :
  Q tt (f c) L -> kwp (W := W) (upd_ctx f) c L Q.
Proof. by intros HQ s <- <-. Qed.

Lemma kwp_upd_held f c L L' (Q : unit -> CommKitContext -> Ledger -> Prop) :
  f L = Some L' -> Q tt c L' -> kwp (W := W) (upd_held f) c L Q.
Proof. intros E HQ s <- <-. unfold upd_held. by rewrite E. Qed.

Lemma kwp_get_revents x c L (Q : Z -> CommKitContext -> Ledger -> Prop) :
  (forall v, Q v c L) -> kwp (W := W) (get_revents x) c L Q.
Proof. intros HQ s <- <-. apply HQ. Qed.

Lemma kwp_upd_revents f c L (Q : unit -> CommKitContext -> Ledger -> Prop) :
  Q tt c L -> kwp (W := W) (upd_revents f) c L Q.
Proof. by intros HQ s <- <-. Qed.

Lemma kwp_lift {A} (o : outcome A) a c L (Q : A -> CommKitContext -> Ledger -> Prop) :
  o = Done a -> Q a c L -> kwp (W := W) (lift o) c L Q.
Proof. intros -> HQ s <- <-. done. Qed.

End Rules.

(** ** Partial correctness of the context

    [cpost m c Q]: if [m] ends, from a machine with context [c], then with [Q]. *)

Definition cpost {W A} (m : M W A) (c : CommKitContext) (Q : A -> CommKitContext -> Prop) : Prop :=
  forall s, ctx s = c -> match m s with Done (a, s') => Q a (ctx s') | Fault => True end.

Section Partial.
Context {W : Type} `{CommEnv W}.
Implicit Types (c : CommKitContext).

Lemma cpost_ret {A} (a : A) c (Q : A -> CommKitContext -> Prop) : Q a c -> cpost (W := W) (mret a) c Q.
Proof. by intros HQ s <-. Qed.

Lemma cpost_bind {A B} (m : M W A) (f : A -> M W B) c Q :
  cpost m c (fun a c' => cpost (f a) c' Q) -> cpost (m ≫= f) c Q.
Proof.
  intros Hm s Hc. specialize (Hm s Hc). unfold mbind, M_bind.
  destruct (m s) as [[a s']|]; [by apply Hm|done].
Qed.

Lemma cpost_mono {A} (m : M W A) c (Q Q' : A -> CommKitContext -> Prop) :
  (forall a c', Q a c' -> Q' a c') -> cpost m c Q -> cpost m c Q'.
Proof. intros HQ Hm s Hc. specialize (Hm s Hc). destruct (m s) as [[a s']|]; [by apply HQ|done]. Qed.

Lemma cpost_true {A} (m : M W A) c : cpost m c (fun _ _ => True).
Proof. intros s _. by destruct (m s) as [[]|]. Qed.

Lemma cpost_get c (Q : CommKitContext -> CommKitContext -> Prop) :
  Q c c -> cpost (W := W) get_ctx c Q.
Proof. by intros HQ s <-. Qed.

Lemma cpost_upd f c (Q : unit -> CommKitContext -> Prop) : Q tt (f c) -> cpost (W := W) (upd_ctx f) c Q.
Proof. by intros HQ s <-. Qed.

(** What every operation of the machine ends with, it also ends with in a run. *)
Lemma kwp_and_cpost {A} (m : M W A) c L Q R :
  kwp m c L Q -> cpost m c R -> kwp m c L (fun a c' L' => Q a c' L' /\ R a c').
Proof.
  intros HQ HR s Hc HL. specialize (HQ s Hc HL). specialize (HR s Hc).
  by destruct (m s) as [[a s']|].
Qed.

Lemma kwp_run {A} (m : M W A) s Q :
  kwp m (ctx s) (held s) Q -> exists a s', m s = Done (a, s') /\ Q a (ctx s') (held s').
Proof. intros Hm. specialize (Hm s eq_refl eq_refl). destruct (m s) as [[a s']|]; [eauto|done]. Qed.

Lemma cpost_kwp {A} (m : M W A) c Q :
  (forall L, kwp m c L (fun a c' _ => Q a c')) -> cpost m c Q.
Proof. intros Hm s Hc. specialize (Hm (held s) s Hc eq_refl). by destruct (m s) as [[]|]. Qed.

(** The operations that leave the context alone. *)
Lemma cpost_env {A} (f : W -> A * W) c (Q : A -> CommKitContext -> Prop) :
  (forall w, Q (fst (f w)) c) -> cpost (env f) c Q.
Proof. intros HQ s <-. unfold env. specialize (HQ (world s)). by destruct (f (world s)). Qed.

Lemma cpost_lift {A} (o : outcome A) c (Q : A -> CommKitContext -> Prop) :
  (forall a, o = Done a -> Q a c) -> cpost (W := W) (lift o) c Q.
Proof. intros HQ s <-. destruct o as [a|]; [|done]. by apply HQ. Qed.

Lemma cpost_upd_held f c : cpost (W := W) (upd_held f) c (fun _ c' => c' = c).
Proof. intros s <-. unfold upd_held. by destruct (f (held s)). Qed.

Lemma cpost_upd_revents f c : cpost (W := W) (upd_revents f) c (fun _ c' => c' = c).
Proof. by intros s <-. Qed.

Lemma cpost_get_revents x c : cpost (W := W) (get_revents x) c (fun _ c' => c' = c).
Proof. by intros s <-. Qed.
End Partial.

(** [keeps m]: [m] leaves the context alone. *)
Definition keeps {W A} (m : M W A) : Prop := forall c, cpost m c (fun _ c' => c' = c).

Section Keeps.
Context {W : Type} `{CommEnv W}.

Lemma keeps_bind {A B} (m : M W A) (f : A -> M W B) :
  keeps m -> (forall a, keeps (f a)) -> keeps (m ≫= f).
Proof.
  intros Hm Hf c. apply cpost_bind. eapply cpost_mono; [|apply Hm]. intros a ? ->. apply Hf.
Qed.
Lemma keeps_ret {A} (a : A) : keeps (W := W) (mret a).
Proof. intros c. by apply cpost_ret. Qed.
Lemma keeps_env {A} (f : W -> A * W) : keeps (env f).
Proof. intros c. by apply cpost_env. Qed.
Lemma keeps_lift {A} (o : outcome A) : keeps (W := W) (lift o).
Proof. intros c. by apply cpost_lift. Qed.
Lemma keeps_upd_held f : keeps (W := W) (upd_held f).
Proof. intros c. apply cpost_upd_held. Qed.
Lemma keeps_upd_revents f : keeps (W := W) (upd_revents f).
Proof. intros c. apply cpost_upd_revents. Qed.
Lemma keeps_get_revents x : keeps (W := W) (get_revents x).
Proof. intros c. apply cpost_get_revents. Qed.

Lemma keeps_put_node n : keeps (W := W) (put_node n).
Proof. apply keeps_bind; [apply keeps_upd_held|intros; apply keeps_env]. Qed.
Lemma keeps_free b : keeps (W := W) (freeHeaderBuffer b).
Proof. destruct b; [apply keeps_upd_held|apply keeps_ret]. Qed.
Lemma keeps_give f n s : keeps (W := W) (give_conn f n s).
Proof.
  do 2 (apply keeps_bind; [apply keeps_lift|intros]).
  apply keeps_bind; [apply keeps_upd_held|intros; apply keeps_env].
Qed.
Lemma keeps_alloc b : keeps (W := W) (allocHeaderBuffer b).
Proof.
  apply keeps_bind; [apply keeps_env|]. intros [m|]; [|apply keeps_ret].
  apply keeps_bind; [apply keeps_upd_held|intros; apply keeps_ret].
Qed.
Lemma keeps_reference t : keeps (W := W) (reference_node t).
Proof.
  apply keeps_bind; [apply keeps_env|]. intros [e|n]; [apply keeps_ret|].
  apply keeps_bind; [apply keeps_upd_held|intros; apply keeps_ret].
Qed.
Lemma keeps_acquire n b : keeps (W := W) (acquire_conn n b).
Proof.
  apply keeps_bind; [apply keeps_env|]. intros [m|]; [|apply keeps_ret].
  apply keeps_bind; [apply keeps_upd_held|intros; apply keeps_ret].
Qed.
Lemma keeps_buddy_target b t : keeps (W := W) (buddy_target b t).
Proof. apply keeps_bind; [apply keeps_env|]. intros g. apply keeps_lift. Qed.
Lemma keeps_target_state t : keeps (W := W) (get_target_state t).
Proof. apply keeps_bind; [apply keeps_env|]. intros g. apply keeps_ret. Qed.

Lemma cpost_keeps {A} (m : M W A) c (Q : A -> CommKitContext -> Prop) :
  keeps m -> (forall a, Q a c) -> cpost m c Q.
Proof. intros Hm HQ. eapply cpost_mono; [|apply Hm]. by intros a ? ->. Qed.
End Keeps.

(** ** Ledgers *)

Definition lempty : Ledger := mkLedger [] [] 0.
Definition ladd (a b : Ledger) : Ledger :=
  mkLedger (conns a ++ conns b) (nodes a ++ nodes b) (bufs a + bufs b).

(** The order in which things were acquired does not matter. *)
Definition lequiv (a b : Ledger) : Prop :=
  conns a ≡ₚ conns b /\ nodes a ≡ₚ nodes b /\ bufs a = bufs b.

#[export] Instance lequiv_equivalence : Equivalence lequiv.
Proof.
  split; [done|..].
  - intros a b (? & ? & ?). by split_and!.
  - intros a b c (E1 & E2 & E3) (F1 & F2 & F3).
    split_and!; [by rewrite E1|by rewrite E2|congruence].
Qed.

#[export] Instance ladd_proper : Proper (lequiv ==> lequiv ==> lequiv) ladd.
Proof.
  intros a a' (E1 & E2 & E3) b b' (F1 & F2 & F3). unfold ladd.
  split_and!; simpl; [by rewrite E1, F1|by rewrite E2, F2|congruence].
Qed.

#[export] Instance conns_proper : Proper (lequiv ==> Permutation) conns.
Proof. by intros a b (? & ? & ?). Qed.

Lemma ladd_swap a b c : lequiv (ladd a (ladd b c)) (ladd b (ladd a c)).
Proof.
  unfold lequiv, ladd; simpl. split_and!; [| |lia]; rewrite !app_assoc;
    by apply Permutation_app_tail, Permutation_app_comm.
Qed.

Lemma ladd_empty_l a : ladd lempty a = a.
Proof. by destruct a. Qed.

Lemma take_out_perm x l r : l ≡ₚ x :: r -> exists l', take_out x l = Some l' /\ l' ≡ₚ r.
Proof.
  revert r. induction l as [|y l IH]; intros r E; [by apply Permutation_nil_cons in E|].
  cbn [take_out]. destruct (Z.eqb_spec x y) as [->|Hne].
  { exists l. split; [done|]. by apply (Permutation_cons_inv (a := y)). }
  assert (Hin : y ∈ x :: r) by (rewrite <- E; left).
  apply elem_of_cons in Hin as [->|Hin]; [done|].
  apply elem_of_Permutation in Hin as [r' Er].
  destruct (IH r') as (l' & El & E').
  { apply (Permutation_cons_inv (a := y)). rewrite E, Er. apply perm_swap. }
  exists (y :: l'). rewrite El. split; [done|]. by rewrite E', Er.
Qed.

(** [splits L a R]: the ledger is what is accounted for as [a], and the rest. *)
Definition splits (L a R : Ledger) : Prop := lequiv L (ladd a R).

Section LedgerRules.
Context {W : Type} `{CommEnv W} `{!CommEnvLaws W}.

Lemma kwp_alloc wait cs ns b c L R (Q : option mem -> CommKitContext -> Ledger -> Prop) :
  splits L (mkLedger cs ns b) R ->
  (forall m L', buffer_wf m -> splits L' (mkLedger cs ns (S b)) R ->
     Q (Some m) c L') ->
  (wait = false -> Q None c L) ->
  kwp (W := W) (allocHeaderBuffer wait) c L Q.
Proof.
  intros (E1 & E2 & E3) HS HN. apply kwp_bind, kwp_env. intros w.
  pose proof (alloc_size wait w) as Hsz. pose proof (alloc_waits w) as Hw.
  destruct (fst (mempool_alloc wait w)) as [m|] eqn:E.
  - eapply kwp_bind, kwp_upd_held; [done|]. apply kwp_ret, HS; [by apply Hsz|].
    split_and!; simpl in *; [done..|lia].
  - apply kwp_ret, HN. destruct wait; [by rewrite E in Hw|done].
Qed.

Lemma kwp_free m cs ns b c L R (Q : unit -> CommKitContext -> Ledger -> Prop) :
  splits L (mkLedger cs ns (S b)) R ->
  (forall L', splits L' (mkLedger cs ns b) R -> Q tt c L') ->
  kwp (W := W) (freeHeaderBuffer (Some m)) c L Q.
Proof.
  intros (E1 & E2 & E3) HQ. simpl in E3.
  eapply kwp_upd_held; [by rewrite E3|]. apply HQ. by split_and!.
Qed.

Lemma kwp_reference id cs ns b c L R (Q : Z + Z -> CommKitContext -> Ledger -> Prop) :
  splits L (mkLedger cs ns b) R ->
  (forall node L', splits L' (mkLedger cs (node :: ns) b) R -> Q (inr node) c L') ->
  (forall err, Q (inl err) c L) ->
  kwp (W := W) (reference_node id) c L Q.
Proof.
  intros (E1 & E2 & E3) HS HN. apply kwp_bind, kwp_env. intros w.
  destruct (fst (NodeStoreEx_referenceNodeByTargetID id w)) as [err|node].
  - by apply kwp_ret.
  - eapply kwp_bind, kwp_upd_held; [done|]. apply kwp_ret, HS. split_and!; simpl in *; [done| |done].
    by rewrite E2.
Qed.

Lemma kwp_put_node node cs ns b c L R (Q : unit -> CommKitContext -> Ledger -> Prop) :
  splits L (mkLedger cs (node :: ns) b) R ->
  (forall L', splits L' (mkLedger cs ns b) R -> Q tt c L') ->
  kwp (W := W) (put_node node) c L Q.
Proof.
  intros (E1 & E2 & E3) HQ. simpl in E2. destruct (take_out_perm _ _ _ E2) as (l & El & Hl).
  eapply kwp_bind, kwp_upd_held; [by rewrite El|]. apply kwp_env_, HQ. by split_and!.
Qed.

Lemma kwp_acquire node wait cs ns b c L R (Q : option Z -> CommKitContext -> Ledger -> Prop) :
  splits L (mkLedger cs ns b) R ->
  (forall sock L', splits L' (mkLedger (sock :: cs) ns b) R ->
     length (conns L') = S (length (conns L)) -> Q (Some sock) c L') ->
  Q None c L ->
  kwp (W := W) (acquire_conn node wait) c L Q.
Proof.
  intros (E1 & E2 & E3) HS HN. apply kwp_bind, kwp_env. intros w.
  destruct (fst (NodeConnPool_acquireStreamSocketEx node wait w)) as [sock|]; [|by apply kwp_ret].
  eapply kwp_bind, kwp_upd_held; [done|]. apply kwp_ret, HS; [|done].
  split_and!; simpl in *; [by rewrite E1|done|done].
Qed.

Lemma kwp_give f node sock cs ns b c L R (Q : unit -> CommKitContext -> Ledger -> Prop) :
  splits L (mkLedger (sock :: cs) ns b) R ->
  (forall L', splits L' (mkLedger cs ns b) R -> length (conns L) = S (length (conns L')) -> Q tt c L') ->
  kwp (W := W) (give_conn f (Some node) (Some sock)) c L Q.
Proof.
  intros (E1 & E2 & E3) HQ. simpl in E1. destruct (take_out_perm _ _ _ E1) as (l & El & Hl).
  eapply kwp_bind, kwp_lift; [done|]. eapply kwp_bind, kwp_lift; [done|].
  eapply kwp_bind, kwp_upd_held; [by rewrite El|]. apply kwp_env_, HQ; [by split_and!|].
  simpl. rewrite E1, Hl. done.
Qed.

End LedgerRules.
