(* ===== verification/CommKitInv.v ===== *)
(** * The communication state machine: invariants and termination

    The invariant of [CommKit]: every target is idle, busy or being cleaned up, the
    ledger is exactly what the targets hold, and the counters of the context count
    what they say.  Each step of the machine keeps it ([step_ok]), hence each round
    does; the properties at the end of the file follow. *)

From stdpp Require Import gmap.
From S2P Require Import Prelude Serialization RBTree StripePattern.
From S2P Require Import TargetStateStore MirrorBuddyGroupMapper NetMessage CommKit.

(** ** Well-formed targets and what they hold *)

Definition crashed {P} (i : CommKitTargetInfo P) : Prop :=
  ci_state i = - CommKitState_SOCKETINVALIDATE.

Definition terminal {P} (i : CommKitTargetInfo P) : Prop :=
  ci_state i = CommKitState_RETRYWAIT \/ ci_state i = CommKitState_DONE.

Definition busy_states : list Z :=
  [CommKitState_SENDHEADER; CommKitState_SENDDATA; CommKitState_RECVHEADER; CommKitState_RECVDATA;
   CommKitState_SOCKETINVALIDATE].

(** The header that was received announces a message longer than the buffer. *)
Definition announces_long {P} (i : CommKitTargetInfo P) : Prop :=
  exists b len, ci_headerBuffer i = Some b /\ NetMessage_extractMsgLengthFromBuf b 0 = Done len /\
    CONGFS_COMMKIT_MSGBUF_SIZE < len.

(** The only way into the state that is none of the states. *)
Definition oversized {P} (i : CommKitTargetInfo P) : Prop := crashed i /\ announces_long i.

Definition idle {P} (i : CommKitTargetInfo P) : Prop :=
  (ci_state i = CommKitState_PREPARE \/ terminal i) /\ ci_node i = None /\ ci_headerBuffer i = None.

(** A busy target holds a node reference, a connection of that node and a buffer. *)
Definition has_conn {P} (i : CommKitTargetInfo P) : Prop :=
  is_Some (ci_node i) /\ is_Some (ci_socket i) /\
  (exists b, ci_headerBuffer i = Some b /\ buffer_wf b) /\
  0 <= ci_headerSize i <= CONGFS_COMMKIT_MSGBUF_SIZE.

Definition busy {P} (i : CommKitTargetInfo P) : Prop :=
  (ci_state i ∈ busy_states \/ oversized i) /\ has_conn i.

(** A connection is given back through its node. *)
Definition cleaning {P} (i : CommKitTargetInfo P) : Prop :=
  ci_state i = CommKitState_CLEANUP /\ (is_Some (ci_socket i) -> is_Some (ci_node i)).

Definition info_ok {P} (i : CommKitTargetInfo P) : Prop := idle i \/ busy i \/ cleaning i.

(** The socket field of an idle target is stale. *)
Definition is_idle {P} (i : CommKitTargetInfo P) : bool :=
  is_state i CommKitState_PREPARE || is_state i CommKitState_RETRYWAIT || is_state i CommKitState_DONE.

Definition opt_list (o : option Z) : list Z := match o with Some x => [x] | None => [] end.

Definition owned {P} (i : CommKitTargetInfo P) : Ledger :=
  mkLedger (if is_idle i then [] else opt_list (ci_socket i)) (opt_list (ci_node i))
    (match ci_headerBuffer i with Some _ => 1 | None => 0 end).

Definition owns {P} (l : list (CommKitTargetInfo P)) : Ledger :=
  foldr (fun i L => ladd (owned i) L) lempty l.

Definition count {P} (state : Z) (l : list (CommKitTargetInfo P)) : Z :=
  Z.of_nat (length (filter (fun i => is_state i state = true) l)).

(** ** The counters *)

Definition linked (c : CommKitContext) (L : Ledger) : Prop :=
  numAcquiredConns c = Z.of_nat (length (conns L)) /\
  numPollSocks c = Z.of_nat (length (pollState c)) /\
  0 <= numRetryWaiters c /\ 0 <= numDone c /\ 0 <= numUnconnectable c /\ 0 <= numBufferless c.

Definition room (c : CommKitContext) (L : Ledger) : Prop :=
  num_waiters c < 2 ^ 31 /\ Z.of_nat (length (conns L)) < 2 ^ 31.

(** What operations of a table may do to the context. *)
Definition ctx_frame (c c' : CommKitContext) : Prop := c' = c \/ c' = set_connFailedLogged c.

Definition op_frame {P} (i i' : CommKitTargetInfo P) : Prop :=
  ci_state i' = ci_state i /\ ci_headerBuffer i' = ci_headerBuffer i /\
  ci_targetID i' = ci_targetID i /\ ci_selectedTargetID i' = ci_selectedTargetID i /\
  ci_useBuddyMirrorSecond i' = ci_useBuddyMirrorSecond i /\ ci_node i' = ci_node i /\
  ci_socket i' = ci_socket i /\ ci_headerSize i' = ci_headerSize i.

(** The private data of a target stays well-formed, if the operation ends. *)
Definition keeps_priv {W A P} (ok : P -> Prop)
    (f : CommKitTargetInfo P -> M W (A * CommKitTargetInfo P)) : Prop :=
  forall i c, ok (ci_priv i) -> cpost (f i) c (fun r _ => ok (ci_priv (snd r))).

(** What a table of operations promises: no faults, only the result and the private
    data of the target change, [prepareHeader] fills the buffer with a message that
    fits, and the private data stays well-formed ([ok]). *)
Class KitOps {W} `{CommEnv W} {P} (ok : P -> Prop) (ops : CommKitContextOps (W := W) P) : Prop := {
  bad_frame f i t : selectedTargetBad ops = Some f ->
    op_frame i (snd (f i t)) /\ ci_priv (snd (f i t)) = ci_priv i;
  prepare_frame i b c L : ci_headerBuffer i = Some b -> buffer_wf b ->
    kwp (prepareHeader ops i) c L (fun '(n, i') c' L' =>
      L' = L /\ ctx_frame c c' /\ 0 <= n <= CONGFS_COMMKIT_MSGBUF_SIZE /\
      exists b', buffer_wf b' /\ op_frame (set_headerBuffer i (Some b')) i');
  send_frame f i c L : sendData ops = Some f -> has_conn i -> ok (ci_priv i) ->
    kwp (f i) c L (fun '(r, i') c' L' => L' = L /\ ctx_frame c c' /\ op_frame i i');
  header_frame f i c L : recvHeader ops = Some f -> has_conn i -> ok (ci_priv i) ->
    kwp (f i) c L (fun '(r, i') c' L' => L' = L /\ ctx_frame c c' /\ op_frame i i');
  data_frame f i c L : recvData ops = Some f -> has_conn i -> ok (ci_priv i) ->
    kwp (f i) c L (fun '(r, i') c' L' => L' = L /\ ctx_frame c c' /\ op_frame i i');
  prepare_priv : keeps_priv ok (prepareHeader ops);
  send_priv f : sendData ops = Some f -> keeps_priv ok f;
  header_priv f : recvHeader ops = Some f -> keeps_priv ok f;
  data_priv f : recvData ops = Some f -> keeps_priv ok f }.

(** ** Small facts *)

Ltac ctx_cbn :=
  cbn [numRetryWaiters numDone numAcquiredConns numUnconnectable numBufferless pollTimedOut
    pollTimeoutLogged connFailedLogged pollState numPollSocks currentRetryNum add_retryWaiters
    add_done add_acquiredConns add_unconnectable add_bufferless set_connFailedLogged
    ctx_pollTimedOut add_pollSocket set_currentRetryNum ctx_start_round ctx_start_retry
    conns nodes bufs] in *.

Ltac info_cbn :=
  cbn [ci_state ci_headerBuffer ci_targetID ci_selectedTargetID ci_useBuddyMirrorSecond ci_node
    ci_socket ci_headerSize ci_nodeResult ci_priv set_state set_headerBuffer set_selectedTargetID
    set_useBuddyMirrorSecond set_node set_socket set_headerSize set_nodeResult set_priv] in *.

Lemma is_state_true {P} (i : CommKitTargetInfo P) st : ci_state i = st -> is_state i st = true.
Proof. unfold is_state. intros ->. apply Z.eqb_refl. Qed.

Lemma is_state_false {P} (i : CommKitTargetInfo P) st : ci_state i <> st -> is_state i st = false.
Proof. unfold is_state. apply Z.eqb_neq. Qed.

Lemma busy_cases {P} (i : CommKitTargetInfo P) : busy i ->
  ci_state i = CommKitState_SENDHEADER \/ ci_state i = CommKitState_SENDDATA \/
  ci_state i = CommKitState_RECVHEADER \/ ci_state i = CommKitState_RECVDATA \/
  ci_state i = CommKitState_SOCKETINVALIDATE \/ crashed i.
Proof.
  intros [[Hs|[Hs _]] _]; [|tauto]. unfold busy_states in Hs.
  rewrite !elem_of_cons, elem_of_nil in Hs. tauto.
Qed.

Lemma busy_terminal {P} (i : CommKitTargetInfo P) : busy i -> ~ terminal i.
Proof.
  intros Hb. unfold terminal.
  by destruct (busy_cases i Hb) as [->|[->|[->|[->|[->| ->]]]]]; intros [|].
Qed.

Lemma busy_owned {P} (i : CommKitTargetInfo P) node sock :
  busy i -> ci_node i = Some node -> ci_socket i = Some sock -> owned i = mkLedger [sock] [node] 1.
Proof.
  intros Hb En Es. pose proof Hb as [_ (_ & _ & (b & Eb & _) & _)].
  unfold owned, is_idle, is_state. rewrite Es, En, Eb.
  by destruct (busy_cases i Hb) as [->|[->|[->|[->|[->| ->]]]]].
Qed.

Lemma busy_dest {P} (i : CommKitTargetInfo P) :
  busy i -> exists node sock b, ci_node i = Some node /\ ci_socket i = Some sock /\
    ci_headerBuffer i = Some b /\ buffer_wf b /\ owned i = mkLedger [sock] [node] 1.
Proof.
  intros Hb. pose proof Hb as [_ ([node En] & [sock Es] & (b & Eb & Hw) & _)].
  exists node, sock, b. split_and!; [done..|]. by apply busy_owned.
Qed.

Lemma busy_set_state {P} (i : CommKitTargetInfo P) st :
  has_conn i -> st ∈ busy_states -> busy (set_state i st).
Proof. intros ? ?. split; [by left|done]. Qed.

Lemma op_frame_conn {P} (i i' : CommKitTargetInfo P) : op_frame i i' -> has_conn i -> has_conn i'.
Proof. by intros (_ & Eb & _ & _ & _ & En & Es & Eh); unfold has_conn; rewrite Eb, En, Es, Eh. Qed.

Lemma busy_frame {P} (i i' : CommKitTargetInfo P) : op_frame i i' -> busy i -> busy i'.
Proof.
  intros Hf [Hs Hc]. split; [|by eapply op_frame_conn]. destruct Hf as (E1 & E2 & _).
  unfold oversized, crashed, announces_long. by rewrite E1, E2.
Qed.

(** What a step does, in the words of the invariant; [R] is what is held by others,
    [mx] the number of retries allowed, 0 for no limit. *)
Record step_post {P} (mx : Z) (c : CommKitContext) (R : Ledger) (i' : CommKitTargetInfo P)
    (c' : CommKitContext) (L' : Ledger) : Prop := {
  post_info : info_ok i';
  post_held : splits L' (owned i') R;
  post_linked : linked c' L';
  post_retry : numRetryWaiters c' = numRetryWaiters c +
    (if is_state i' CommKitState_RETRYWAIT then 1 else 0);
  post_done : numDone c' = numDone c + (if is_state i' CommKitState_DONE then 1 else 0);
  post_waiters : num_waiters c' <= num_waiters c + 1;
  post_poll : exists ps, pollState c' = pollState c ++ ps /\
    (ps = [] \/ exists x e, ps = [(x, e)] /\ conns (owned i') = [x]);
  post_retries : currentRetryNum c' = currentRetryNum c;
  post_left : is_state i' CommKitState_RETRYWAIT = true -> mx = 0 \/ currentRetryNum c < mx }.

(** Contexts that count the same, connections apart. *)
Definition ctx_same (c c' : CommKitContext) : Prop :=
  numRetryWaiters c' = numRetryWaiters c /\ numDone c' = numDone c /\
  numUnconnectable c' = numUnconnectable c /\ numBufferless c' = numBufferless c /\
  pollState c' = pollState c /\ numPollSocks c' = numPollSocks c /\
  currentRetryNum c' = currentRetryNum c.

Lemma step_post_same {P} mx c c1 R (i' : CommKitTargetInfo P) c' L' :
  ctx_same c c1 -> step_post mx c1 R i' c' L' -> step_post mx c R i' c' L'.
Proof.
  intros (E1 & E2 & E3 & E4 & E5 & E6 & E7) [? ? ? ? ? Hw ? ? Hl].
  assert (num_waiters c1 = num_waiters c) as Ew by (unfold num_waiters; congruence).
  split; try done; try congruence; [by rewrite <- E5|by rewrite <- E7].
Qed.

Lemma ctx_frame_same c c' : ctx_frame c c' -> ctx_same c c'.
Proof. by intros [->| ->]. Qed.
Lemma ctx_frame_acq c c' : ctx_frame c c' -> numAcquiredConns c' = numAcquiredConns c.
Proof. by intros [->| ->]. Qed.
Lemma ctx_frame_linked c c' L : ctx_frame c c' -> linked c L -> linked c' L.
Proof. by intros [->| ->]. Qed.
Lemma ctx_frame_room c c' L : ctx_frame c c' -> room c L -> room c' L.
Proof. by intros [->| ->]. Qed.

(** A step from a known state. *)
Ltac step_is E := unfold commkit_step, is_state; rewrite E; cbn [orb];
  repeat match goal with |- context [?a =? ?b] => change (a =? b) with true || change (a =? b) with false end.

(** ** The handlers *)

Section Steps.
Context {W : Type} `{!CommEnv W, !CommEnvLaws W} {P : Type} (ops : CommKitContextOps (W := W) P).
Context (ok : P -> Prop) `{!KitOps ok ops} (ioPattern : option Z) (maxNumRetries : Z).
Notation Info := (CommKitTargetInfo P).
Implicit Types (i : Info) (c : CommKitContext) (L R : Ledger).

(** A busy target that changes its state and adds at most its socket to the poll list. *)
Lemma busy_post i c L R :
  busy i -> splits L (owned i) R -> linked c L ->
  step_post maxNumRetries c R i c L.
Proof.
  intros Hb HS HL. pose proof (busy_cases i Hb) as Hs.
  assert (is_state i CommKitState_RETRYWAIT = false /\ is_state i CommKitState_DONE = false) as [E1 E2].
  { unfold is_state. by destruct Hs as [->|[->|[->|[->|[->| ->]]]]]. }
  split; rewrite ?E1, ?E2; try lia; try done; [by (right; left)|]. exists []. rewrite app_nil_r. auto.
Qed.

Lemma add_poll_post i ev c L R :
  busy i -> splits L (owned i) R -> linked c L -> room c L ->
  kwp (W := W) (__commkit_add_socket_pollstate i ev) c L (fun _ c' L' => step_post maxNumRetries c R i c' L').
Proof.
  intros Hb HS (Ha & Hp & H1 & H2 & H3 & H4) [Hr _].
  destruct (busy_dest i Hb) as (node & sock & b & En & Es & Eb & Hw & Eo).
  eapply kwp_bind, kwp_lift; [by rewrite Es|]. eapply kwp_bind, kwp_upd_revents. apply kwp_upd_ctx.
  assert (Eu : u32 (numPollSocks c + 1) = numPollSocks c + 1).
  { apply u32_id. unfold num_waiters in Hr. lia. }
  destruct (busy_post i c L R Hb HS) as [G1 G2 G3 G4 G5 G6 G7 G8 G9]; [done|].
  split; try done; ctx_cbn.
  - unfold linked; ctx_cbn. rewrite Eu, length_app; simpl. split_and!; lia.
  - unfold num_waiters; ctx_cbn. lia.
  - exists [(sock, ev)]. split; [done|]. right. exists sock, ev. by rewrite Eo.
Qed.

Lemma prepare_io_post i ev c L R (Q : bool * Info -> CommKitContext -> Ledger -> Prop) :
  busy i -> splits L (owned i) R -> linked c L -> room c L ->
  (forall i' c' L', step_post maxNumRetries c R i' c' L' -> Q (false, i') c' L') ->
  Q (true, i) c L ->
  kwp (W := W) (__commkit_prepare_io i ev) c L Q.
Proof.
  intros Hb HS HL Hr HF HT.
  destruct (busy_dest i Hb) as (node & sock & b & En & Es & Eb & Hw & Eo).
  assert (Hinv : forall r, busy (set_state (set_nodeResult i r) CommKitState_SOCKETINVALIDATE)).
  { intros r. apply busy_set_state; [exact (proj2 Hb)|]. unfold busy_states. set_solver. }
  assert (Hpost : forall r, step_post maxNumRetries c R (set_state (set_nodeResult i r) CommKitState_SOCKETINVALIDATE) c L).
  { intros r. apply busy_post; [done| |done]. by rewrite (busy_owned _ node sock), <- Eo. }
  apply kwp_bind, kwp_env. intros w1.
  assert (HI : step_post maxNumRetries c R (set_state i CommKitState_SOCKETINVALIDATE) c L).
  { specialize (Hpost (ci_nodeResult i)). by destruct i. }
  apply kwp_bind. destruct (fst (fatal_signal_pending w1)).
  { apply kwp_ret, kwp_ret, HF, HI. }
  eapply kwp_bind, kwp_lift; [by rewrite En|]. apply kwp_bind, kwp_env. intros w2. apply kwp_ret.
  destruct (fst (Node_getIsActive node w2)); cbn [orb negb]; [|apply kwp_ret, HF, HI].
  apply kwp_bind, kwp_get_ctx. destruct (pollTimedOut c); [apply kwp_ret, HF, Hpost|].
  eapply kwp_bind, kwp_lift; [by rewrite Es|]. apply kwp_bind, kwp_get_revents. intros v.
  destruct (Z.land v ev =? 0); [|by apply kwp_ret].
  eapply kwp_bind, kwp_mono; [|by apply (add_poll_post i ev c L R)]. intros [] c' L' HP.
  by apply kwp_ret, HF.
Qed.

(** Giving a connection back and counting it. *)
Lemma give_count_post f node sock ns b c L R (Q : unit -> CommKitContext -> Ledger -> Prop) :
  splits L (mkLedger [sock] ns b) R -> linked c L -> room c L ->
  (forall c' L', splits L' (mkLedger [] ns b) R -> linked c' L' -> room c' L' -> ctx_same c c' ->
     Q tt c' L') ->
  kwp (W := W) (_ ← give_conn f (Some node) (Some sock); upd_ctx (add_acquiredConns (-1))) c L Q.
Proof.
  intros HS HL Hr HQ. apply kwp_bind. eapply (kwp_give f node sock []); [done|].
  intros L' HS' Elen. apply kwp_upd_ctx, HQ; [done| | |done].
  - destruct HL as (Ha & Hp & H1 & H2 & H3 & H4). split_and!; ctx_cbn; try done.
    rewrite u32_id; [lia|]. destruct Hr. unfold in_u. lia.
  - destruct Hr. split; [done|lia].
Qed.

Definition cleanable (i : Info) : Prop :=
  is_idle i = false /\ (is_Some (ci_socket i) -> is_Some (ci_node i)).

Lemma terminal_owned i : terminal i -> ci_node i = None -> ci_headerBuffer i = None ->
  owned i = lempty.
Proof. intros Ht En Eb. unfold owned, is_idle, is_state. rewrite En, Eb. by destruct Ht as [-> | ->]. Qed.

Lemma terminal_post i c L R c' :
  terminal i -> ci_node i = None -> ci_headerBuffer i = None ->
  splits L lempty R -> linked c L -> room c L ->
  c' = (if is_state i CommKitState_RETRYWAIT then add_retryWaiters 1 c else add_done 1 c) ->
  (ci_state i = CommKitState_RETRYWAIT -> maxNumRetries = 0 \/ currentRetryNum c < maxNumRetries) ->
  step_post maxNumRetries c R i c' L.
Proof.
  intros Ht En Eb HS (Ha & Hp & H1 & H2 & H3 & H4) [Hr _] -> Hleft. unfold num_waiters in Hr.
  assert (info_ok i) by (left; split_and!; [by right|done..]).
  assert (splits L (owned i) R) by (by rewrite terminal_owned).
  pose proof Ht as [E|E]; unfold is_state; rewrite E; cbn; split; unfold linked, num_waiters, is_state;
    ctx_cbn; rewrite ?E; cbn; rewrite ?u32_id by (unfold in_u; lia); split_and?; try done; try lia;
    first [by intros; apply Hleft | exists []; rewrite app_nil_r; auto].
Qed.

Lemma cleanup_post i c L R :
  cleanable i -> splits L (owned i) R -> linked c L -> room c L ->
  kwp (W := W) (__commkit_cleanup_generic ops maxNumRetries i) c L (step_post maxNumRetries c R).
Proof.
  intros [Hi Hsn] HS HL Hr. unfold owned in HS. rewrite Hi in HS.
  unfold __commkit_cleanup_generic. apply kwp_bind.
  assert (H1 : kwp (W := W) (match ci_socket i with
     | Some _ => _ ← give_conn NodeConnPool_releaseStreamSocket (ci_node i) (ci_socket i);
                 upd_ctx (add_acquiredConns (-1))
     | None => mret tt end) c L (fun _ c' L' => linked c' L' /\ room c' L' /\ ctx_same c c' /\
       splits L' (mkLedger [] (opt_list (ci_node i))
         (match ci_headerBuffer i with Some _ => 1 | None => 0 end)) R)).
  { destruct (ci_socket i) as [sock|]; [|by apply kwp_ret].
    destruct Hsn as [node En]; [by eexists|]. rewrite En in *.
    apply (give_count_post _ _ _ _ _ _ _ _ _ HS HL Hr). auto. }
  eapply kwp_mono; [|exact H1]. clear H1 HS HL Hr. intros [] c1 L1 (HL & Hr & Hc & HS).
  apply kwp_bind.
  assert (H2 : kwp (W := W) (freeHeaderBuffer (ci_headerBuffer i)) c1 L1 (fun _ c' L' =>
    c' = c1 /\ conns L' ≡ₚ conns L1 /\ splits L' (mkLedger [] (opt_list (ci_node i)) 0) R)).
  { destruct (ci_headerBuffer i) as [b|]; [|by apply kwp_ret].
    eapply kwp_free; [exact HS|]. intros L' HS'. split_and!; [done| |done].
    by rewrite (proj1 HS), (proj1 HS'). }
  eapply kwp_mono; [|exact H2]. clear H2. intros [] c' L2 (-> & Hperm & HS2). apply kwp_bind.
  assert (linked c1 L2 /\ room c1 L2) as [HL2 Hr2].
  { unfold linked, room in *. by rewrite Hperm. }
  assert (H3 : kwp (W := W) (match ci_node (set_headerBuffer i None) with
     | Some node => _ ← put_node node; mret (set_node (set_headerBuffer i None) None)
     | None => mret (set_headerBuffer i None) end) c1 L2 (fun i' c' L' =>
     c' = c1 /\ linked c1 L' /\ room c1 L' /\ splits L' lempty R /\
     ci_node i' = None /\ ci_headerBuffer i' = None)).
  { info_cbn. destruct (ci_node i) as [node|] eqn:En; [|by apply kwp_ret].
    apply kwp_bind. eapply kwp_put_node; [exact HS2|]. intros L' HS'. apply kwp_ret.
    assert (E : conns L' ≡ₚ conns L2) by (by rewrite (proj1 HS2), (proj1 HS')).
    unfold linked, room in *. by rewrite E. }
  eapply kwp_mono; [|exact H3]. clear H3 HL2 Hr2 HL Hr. intros i1 c' L3 (-> & HL & Hr & HS3 & En & Eb).
  assert (HD : forall i2, ci_node i2 = None -> ci_headerBuffer i2 = None ->
    kwp (W := W) (_ ← upd_ctx (add_done 1); mret (set_state i2 CommKitState_DONE)) c1 L3 (step_post maxNumRetries c R)).
  { intros i2 E1 E2. apply kwp_bind, kwp_upd_ctx, kwp_ret. eapply step_post_same; [done|].
    apply terminal_post; try done. by right. }
  destruct (_ || _); [|by apply HD]. apply kwp_bind, kwp_env. intros w.
  destruct (fst (fatal_signal_pending w)); [by apply HD|]. apply kwp_bind, kwp_env. intros w2.
  apply kwp_bind, kwp_get_ctx. destruct (_ && _) eqn:El; [|by apply HD].
  apply kwp_bind, kwp_upd_ctx, kwp_ret. eapply step_post_same; [done|].
  apply terminal_post; try done; [by left|]. intros _.
  apply andb_true_iff in El as [_ El]. apply orb_true_iff in El as [El|El];
    [left; by apply Z.eqb_eq|right; by apply Z.ltb_lt].
Qed.

(** [conn_frame i i']: the target keeps its node and connection. *)
Definition conn_frame (i i' : Info) : Prop :=
  ci_node i' = ci_node i /\ ci_socket i' = ci_socket i /\ has_conn i'.

Lemma op_conn_frame i i' : op_frame i i' -> has_conn i -> conn_frame i i' /\ ci_state i' = ci_state i.
Proof.
  intros Hf Hc. pose proof (op_frame_conn _ _ Hf Hc). destruct Hf as (? & _ & _ & _ & _ & ? & ? & _).
  done.
Qed.

Lemma conn_frame_post i i' st c L R :
  busy i -> conn_frame i i' -> st ∈ busy_states ->
  splits L (owned i) R -> linked c L -> step_post maxNumRetries c R (set_state i' st) c L.
Proof.
  intros Hb (En & Es & Hc) Hst HS HL. apply busy_post; [by apply busy_set_state| |done].
  destruct (busy_dest i Hb) as (node & sock & b & En' & Es' & _ & _ & Eo).
  rewrite (busy_owned _ node sock), <- Eo; [done|by apply busy_set_state|by (info_cbn; rewrite En)|].
  by (info_cbn; rewrite Es).
Qed.

Lemma conn_frame_crash i i' c L R :
  busy i -> conn_frame i i' -> announces_long i' -> splits L (owned i) R -> linked c L ->
  step_post maxNumRetries c R
    (set_nodeResult (set_state i' (- CommKitState_SOCKETINVALIDATE)) (- FhgfsOpsErr_COMMUNICATION)) c L.
Proof.
  intros Hb (En & Es & Hc) Hlong HS HL.
  destruct (busy_dest i Hb) as (node & sock & b & En' & Es' & _ & _ & Eo).
  set (j := set_nodeResult _ _). assert (Hj : busy j) by (by split; [right; split|]).
  apply busy_post; [done| |done]. rewrite (busy_owned j node sock), <- Eo; [done|done|..].
  all: unfold j; info_cbn; by rewrite ?En, ?Es.
Qed.

Lemma conn_frame_cleanup i i' c L R :
  busy i -> conn_frame i i' -> splits L (owned i) R -> linked c L ->
  step_post maxNumRetries c R (set_state i' CommKitState_CLEANUP) c L.
Proof.
  intros Hb (En & Es & Hc) HS HL.
  destruct (busy_dest i Hb) as (node & sock & b & En' & Es' & _ & _ & Eo).
  assert (Eo' : owned (set_state i' CommKitState_CLEANUP) = owned i).
  { rewrite Eo. unfold owned, is_idle, is_state. info_cbn. rewrite En, Es, En', Es'.
    by destruct Hc as (_ & _ & (b' & -> & _) & _). }
  split; try done; [right; right; split; [done|by intros; apply Hc]|by rewrite Eo'|cbn; lia..|].
  exists []. rewrite app_nil_r. auto.
Qed.

Lemma conn_frame_poll i i' st ev c L R :
  busy i -> conn_frame i i' -> st ∈ busy_states ->
  splits L (owned i) R -> linked c L -> room c L ->
  kwp (W := W) (_ ← __commkit_add_socket_pollstate (set_state i' st) ev; mret (set_state i' st)) c L
    (step_post maxNumRetries c R).
Proof.
  intros Hb Hf Hst HS HL Hr. pose proof (conn_frame_post i i' st c L R Hb Hf Hst HS HL) as HP.
  apply kwp_bind. eapply kwp_mono; [|apply (add_poll_post (set_state i' st) ev c L R)]; try done.
  - intros [] c' L' HP'. by apply kwp_ret.
  - by apply busy_set_state; [apply Hf|].
  - apply HP.
Qed.

Lemma set_state_self i : set_state i (ci_state i) = i.
Proof. by destruct i. Qed.

Ltac busy_state := unfold busy_states; rewrite !elem_of_cons; tauto.

Lemma sendheader_post i c L R :
  busy i -> splits L (owned i) R -> linked c L -> room c L ->
  kwp (W := W) (sendheader_case ops i) c L (step_post maxNumRetries c R).
Proof.
  intros Hb HS HL Hr. destruct (busy_dest i Hb) as (node & sock & b & En & Es & Eb & Hw & Eo).
  pose proof Hb as [_ Hc]. pose proof Hc as (_ & _ & _ & Hh). destruct Hw as [Hw _].
  apply kwp_bind. eapply kwp_bind, kwp_lift; [by rewrite Eb|].
  eapply kwp_bind, kwp_lift; [by rewrite Es|].
  eapply kwp_bind, kwp_lift; [apply read_block_Done; lia|]. apply kwp_bind, kwp_env. intros w.
  destruct (negb _); apply kwp_ret.
  - by apply (conn_frame_poll i i); [| |busy_state|..].
  - apply (conn_frame_poll i (set_headerSize i 0)); try done; [|busy_state].
    split_and!; try done. destruct Hc as (? & ? & ? & _). split_and!; try done.
Qed.

Lemma senddata_post f i c L R :
  sendData ops = Some f -> ci_state i ∈ busy_states -> busy i -> ok (ci_priv i) -> splits L (owned i) R -> linked c L -> room c L ->
  kwp (W := W) (__commkit_senddata_generic f i) c L (step_post maxNumRetries c R).
Proof.
  intros Hf Hbs Hb Hok HS HL Hr. apply kwp_bind. eapply (prepare_io_post i _ c L R); try done.
  { intros i' c' L' HP. by apply kwp_ret. }
  cbn [negb]. apply kwp_bind. eapply kwp_mono; [|apply (send_frame f i c L Hf (proj2 Hb) Hok)].
  intros [r i'] c' L' (-> & Hcf & Hop). apply op_conn_frame in Hop as [Hop Est]; [|apply Hb].
  pose proof (ctx_frame_linked _ _ _ Hcf HL) as HL'. pose proof (ctx_frame_room _ _ _ Hcf Hr) as Hr'.
  apply (kwp_mono _ _ _ (step_post maxNumRetries c' R)).
  { intros. eapply step_post_same; [by apply ctx_frame_same|done]. }
  destruct (r <? 0).
  { apply kwp_ret. apply (conn_frame_post i); [done| |busy_state|done..]. by destruct (_ =? _). }
  destruct (r =? 0); [by apply (conn_frame_poll i); [| |busy_state|..]|].
  rewrite <- (set_state_self i'), Est. by apply (conn_frame_poll i).
Qed.

Lemma recvdata_post f i c L R :
  recvData ops = Some f -> ci_state i ∈ busy_states -> busy i -> ok (ci_priv i) -> splits L (owned i) R -> linked c L -> room c L ->
  kwp (W := W) (__commkit_recvdata_generic f i) c L (step_post maxNumRetries c R).
Proof.
  intros Hf Hbs Hb Hok HS HL Hr. apply kwp_bind. eapply (prepare_io_post i _ c L R); try done.
  { intros i' c' L' HP. by apply kwp_ret. }
  cbn [negb]. apply kwp_bind. eapply kwp_mono; [|apply (data_frame f i c L Hf (proj2 Hb) Hok)].
  intros [r i'] c' L' (-> & Hcf & Hop). apply op_conn_frame in Hop as [Hop Est]; [|apply Hb].
  pose proof (ctx_frame_linked _ _ _ Hcf HL) as HL'. pose proof (ctx_frame_room _ _ _ Hcf Hr) as Hr'.
  apply (kwp_mono _ _ _ (step_post maxNumRetries c' R)).
  { intros. eapply step_post_same; [by apply ctx_frame_same|done]. }
  destruct (r <? 0).
  { apply kwp_ret. apply (conn_frame_post i); [done| |busy_state|done..]. by destruct (_ =? _). }
  destruct (r =? 0); [by apply kwp_ret, (conn_frame_cleanup i)|].
  rewrite <- (set_state_self i'), Est. by apply (conn_frame_poll i).
Qed.

Lemma recv_more_post i want c L (Q : option Info -> CommKitContext -> Ledger -> Prop) :
  has_conn i -> ci_headerSize i + Z.max 0 want <= CONGFS_COMMKIT_MSGBUF_SIZE ->
  (forall i', conn_frame i i' -> ci_state i' = ci_state i -> ci_priv i' = ci_priv i ->
     Q (Some i') c L) ->
  Q None c L ->
  kwp (W := W) (recv_more i want) c L Q.
Proof.
  intros (Hn & [sock Es] & (b & Eb & Hw) & Hh) Hwant HS HN.
  destruct Hw as [Hw Hbytes]. unfold CONGFS_COMMKIT_MSGBUF_SIZE in *.
  eapply kwp_bind, kwp_lift; [by rewrite Eb|]. eapply kwp_bind, kwp_lift; [by rewrite Es|].
  apply kwp_bind, kwp_env. intros w. pose proof (recv_bound sock want w) as Hb.
  destruct (fst (Socket_recvT sock want w)) as [err|bs]; [by apply kwp_ret|].
  destruct (Hb bs eq_refl) as [Hb1 Hb2]. pose proof (mlen_nonneg bs).
  destruct bs as [|x bs]; [by apply kwp_ret|]. set (bytes := x :: bs) in *.
  eapply kwp_bind, kwp_lift; [apply write_block_Done; lia|]. apply kwp_ret.
  apply HS; [|done..].
  split; [done|]. split; [done|]. unfold has_conn. info_cbn.
  rewrite u32_id by (unfold in_u; lia). unfold CONGFS_COMMKIT_MSGBUF_SIZE.
  split; [done|]. split; [by eexists|]. split; [|lia].
  eexists. split; [done|]. split; [by rewrite mlen_put by lia|by apply put_bytes].
Qed.

Lemma extract_Done b : buffer_wf b -> exists v, NetMessage_extractMsgLengthFromBuf b 0 = Done v.
Proof.
  intros [Hb _]. unfold CONGFS_COMMKIT_MSGBUF_SIZE in Hb.
  unfold NetMessage_extractMsgLengthFromBuf, Serialization_deserializeUInt.
  rewrite raw_read by lia. cfs_simpl. by eexists.
Qed.

Definition recv_info (r : RecvRes (P := P)) : Info :=
  match r with RecvErr i | RecvTooLarge i | RecvWait i | RecvOk i => i end.

Lemma conn_frame_trans i1 i2 i3 : conn_frame i1 i2 -> conn_frame i2 i3 -> conn_frame i1 i3.
Proof. intros (E1 & E2 & _) (F1 & F2 & ?). split_and!; [by rewrite F1|by rewrite F2|done]. Qed.

Lemma recv_message_post i c L (Q : RecvRes (P := P) -> CommKitContext -> Ledger -> Prop) :
  has_conn i ->
  (forall r, conn_frame i (recv_info r) -> ci_state (recv_info r) = ci_state i ->
     ci_priv (recv_info r) = ci_priv i ->
     match r with RecvTooLarge i' => announces_long i' | _ => True end -> Q r c L) ->
  kwp (W := W) (recv_message i) c L Q.
Proof.
  intros Hc HQ. pose proof Hc as (_ & _ & _ & Hh).
  assert (Hself : conn_frame i i) by done. apply kwp_bind.
  assert (H1 : kwp (W := W) (if ci_headerSize i <? NETMSG_MIN_LENGTH
     then recv_more i (NETMSG_MIN_LENGTH - ci_headerSize i) else mret (Some i)) c L
     (fun r c' L' => c' = c /\ L' = L /\ match r with None => True | Some i' =>
        conn_frame i i' /\ ci_state i' = ci_state i /\ ci_priv i' = ci_priv i end)).
  { destruct (Z.ltb_spec (ci_headerSize i) NETMSG_MIN_LENGTH) as [Hlt|]; [|by apply kwp_ret].
    unfold NETMSG_MIN_LENGTH, NETMSG_HEADER_LENGTH, CONGFS_COMMKIT_MSGBUF_SIZE in *.
    apply recv_more_post; unfold CONGFS_COMMKIT_MSGBUF_SIZE; try done; lia. }
  eapply kwp_mono; [|exact H1]. clear H1. intros r c' L' (-> & -> & Hr).
  destruct r as [i1|]; [|by apply kwp_ret, HQ]. destruct Hr as (Hf & Est & Epr).
  pose proof Hf as (_ & _ & (_ & _ & (b & Eb & Hw) & Hh1)).
  eapply kwp_bind, kwp_lift; [by rewrite Eb|]. destruct (extract_Done b Hw) as [len El].
  eapply kwp_bind, kwp_lift; [exact El|].
  destruct (Z.ltb_spec CONGFS_COMMKIT_MSGBUF_SIZE len).
  { apply kwp_ret, HQ; try done. by exists b, len. }
  destruct (Z.ltb_spec (ci_headerSize i1) len).
  - apply kwp_bind, recv_more_post; [apply Hf|lia| |by apply kwp_ret, HQ].
    intros i2 Hf2 Est2 Epr2. assert (conn_frame i i2) by (by eapply conn_frame_trans).
    assert (ci_state i2 = ci_state i) by congruence. assert (ci_priv i2 = ci_priv i) by congruence.
    destruct (_ <? _); by apply kwp_ret, HQ.
  - destruct (_ <? _); by apply kwp_ret, HQ.
Qed.

Lemma recvheader_post f i c L R :
  recvHeader ops = Some f -> ci_state i ∈ busy_states -> busy i -> ok (ci_priv i) -> splits L (owned i) R -> linked c L -> room c L ->
  kwp (W := W) (__commkit_recvheader_generic f i) c L (step_post maxNumRetries c R).
Proof.
  intros Hf Hbs Hb Hok HS HL Hr. apply kwp_bind. eapply (prepare_io_post i _ c L R); try done.
  { intros i' c' L' HP. by apply kwp_ret. }
  cbn [negb]. apply kwp_bind, recv_message_post; [apply Hb|]. intros r Hfr Est Epr Hlong.
  destruct r as [i'|i'|i'|i']; cbn [recv_info] in *.
  - by apply kwp_ret, (conn_frame_post i); [| |busy_state|..].
  - apply kwp_ret, (conn_frame_crash i); [done|done|exact Hlong|done..].
  - apply kwp_ret. rewrite <- (set_state_self i'), Est. by apply (conn_frame_post i).
  - apply kwp_bind. eapply kwp_mono; [|apply (header_frame f i' c L Hf (proj2 (proj2 Hfr)))]; [|by rewrite Epr].
    intros [r i2] c' L' (-> & Hcf & Hop). apply op_conn_frame in Hop as [Hop _]; [|apply Hfr].
    apply kwp_ret. eapply step_post_same; [by apply ctx_frame_same|].
    apply (conn_frame_post i); [done|by eapply conn_frame_trans| |done|by eapply ctx_frame_linked].
    destruct (_ <? _); busy_state.
Qed.

Lemma socketinvalidate_post i c L R :
  busy i -> splits L (owned i) R -> linked c L -> room c L ->
  kwp (W := W) (__commkit_socketinvalidate_generic i) c L (fun i' c' L' =>
    cleanable i' /\ splits L' (owned i') R /\ linked c' L' /\ room c' L' /\ ctx_same c c').
Proof.
  intros Hb HS HL Hr. destruct (busy_dest i Hb) as (node & sock & b & En & Es & Eb & Hw & Eo).
  apply kwp_bind, kwp_env. intros w. apply kwp_bind.
  assert (H1 : kwp (W := W) (if fst (fatal_signal_pending w)
      then mret (set_nodeResult i (- FhgfsOpsErr_INTERRUPTED))
      else node ← lift (of_option (ci_node i)); active ← env (Node_getIsActive node);
        if negb active then mret (set_nodeResult i (- FhgfsOpsErr_UNKNOWNNODE))
        else if ci_nodeResult i =? - FhgfsOpsErr_ADDRESSFAULT then mret i
        else mret (set_nodeResult i (- FhgfsOpsErr_COMMUNICATION))) c L
     (fun i' c' L' => c' = c /\ L' = L /\ exists r, i' = set_nodeResult i r)).
  { destruct (fst _); [apply kwp_ret; eauto|].
    eapply kwp_bind, kwp_lift; [by rewrite En|]. apply kwp_bind, kwp_env. intros w2.
    destruct (negb _); [apply kwp_ret; eauto|].
    destruct (_ =? _); apply kwp_ret; split_and!; try done; [|eauto].
    exists (ci_nodeResult i). by destruct i. }
  eapply kwp_mono; [|exact H1]. clear H1. intros i' c' L' (-> & -> & r & ->). info_cbn.
  rewrite En, Es. rewrite Eo in HS.
  set (j := set_state (set_socket (set_nodeResult i r) None) CommKitState_CLEANUP).
  apply (kwp_mono _ c L (fun i' c' L' => i' = j /\
     splits L' (mkLedger [] [node] 1) R /\ linked c' L' /\ room c' L' /\ ctx_same c c')).
  { intros i' c' L' (-> & HS' & HL' & Hr' & Hcs). split; [split; [done|by intros [? [=]]]|].
    split; [|done]. unfold owned, is_idle, is_state, j. info_cbn. by rewrite En, Eb. }
  pose proof (give_count_post NodeConnPool_invalidateStreamSocket node sock [node] 1 c L R
    (fun _ c' L' => splits L' (mkLedger [] [node] 1) R /\ linked c' L' /\ room c' L' /\ ctx_same c c')
    HS HL Hr ltac:(by intros; split_and!)) as G.
  intros s Hs1 Hs2. specialize (G s Hs1 Hs2). revert G. unfold mbind, M_bind.
  destruct (give_conn _ _ _ s) as [[[] s']|]; [|done]. cbn. auto.
Qed.

(** A target that got no connection: to be tried again, or to be cleaned up. *)
Definition prep_ok (i : Info) : Prop :=
  (ci_state i = CommKitState_PREPARE \/ ci_state i = CommKitState_CLEANUP) /\ ci_socket i = None.

Definition quiet_ledger (i : Info) : Ledger :=
  mkLedger [] (opt_list (ci_node i)) (match ci_headerBuffer i with Some _ => 1 | None => 0 end).

Lemma prep_owned i : prep_ok i -> owned i = quiet_ledger i.
Proof. intros [_ Es]. unfold owned, quiet_ledger. rewrite Es. by destruct (is_idle i). Qed.

Lemma quiet_post i c c' L R :
  prep_ok i -> (ci_state i = CommKitState_PREPARE -> ci_node i = None /\ ci_headerBuffer i = None) ->
  splits L (quiet_ledger i) R -> linked c' L -> num_waiters c' <= num_waiters c + 1 ->
  numRetryWaiters c' = numRetryWaiters c -> numDone c' = numDone c ->
  pollState c' = pollState c -> currentRetryNum c' = currentRetryNum c ->
  step_post maxNumRetries c R i c' L.
Proof.
  intros Hp Hpr HS HL Hw E1 E2 E3 E4. pose proof Hp as [Hst Es].
  assert (is_state i CommKitState_RETRYWAIT = false /\ is_state i CommKitState_DONE = false) as [F1 F2].
  { unfold is_state. by destruct Hst as [-> | ->]. }
  split; rewrite ?F1, ?F2, ?E1, ?E2, ?E3; try done; try lia.
  - destruct Hst as [Hst|Hst]; [left|right; right].
    + split; [by left|by apply Hpr].
    + split; [done|]. rewrite Es. by intros [].
  - by rewrite prep_owned.
  - exists []. rewrite app_nil_r. auto.
Qed.

Lemma buddy_target_post second id c L (Q : Z -> CommKitContext -> Ledger -> Prop) :
  (forall t, Q t c L) -> kwp (W := W) (buddy_target second id) c L Q.
Proof.
  intros HQ. apply kwp_bind, kwp_env. intros w.
  destruct (getTargets_at (fst (storageBuddyGroups w)) id (groups_wf w)) as [E1 E2].
  destruct second; (eapply kwp_lift; [first [exact E1|exact E2]|apply HQ]).
Qed.

Lemma prepare_cleanup_post i c c' L R (Q : bool * Info -> CommKitContext -> Ledger -> Prop) :
  prep_ok i -> splits L (quiet_ledger i) R -> linked c' L -> ctx_same c c' ->
  (forall i', step_post maxNumRetries c R i' c' L -> Q (false, i') c' L) ->
  kwp (W := W) (prepare_cleanup i) c' L Q.
Proof.
  intros [_ Es] HS HL Hc HQ. apply kwp_ret, HQ. eapply step_post_same; [exact Hc|].
  apply quiet_post; try done; [by split; [right|]|lia].
Qed.

Lemma prepare_error_post i b c c' L R (Q : bool * Info -> CommKitContext -> Ledger -> Prop) :
  prep_ok i -> ci_headerBuffer i = Some b -> ci_node i = None ->
  splits L (quiet_ledger i) R -> linked c' L ->
  num_waiters c' <= num_waiters c + 1 -> numRetryWaiters c' = numRetryWaiters c ->
  numDone c' = numDone c -> pollState c' = pollState c -> currentRetryNum c' = currentRetryNum c ->
  (forall i' L', step_post maxNumRetries c R i' c' L' -> Q (false, i') c' L') ->
  kwp (W := W) (prepare_error i) c' L Q.
Proof.
  intros Hp Eb En HS HL Hw E1 E2 E3 E4 HQ. unfold prepare_error, quiet_ledger in *.
  rewrite Eb, En in *. apply kwp_bind. eapply kwp_free; [exact HS|]. intros L' HS'.
  apply kwp_ret, HQ, quiet_post; try done.
  - unfold quiet_ledger. info_cbn. by rewrite En.
  - assert (E : conns L' ≡ₚ conns L) by (by rewrite (proj1 HS), (proj1 HS')).
    unfold linked in *. by rewrite E.
Qed.

(** The second half: node reference, message, connection. *)
Lemma prepare_connect_post i buf c L R (Q : bool * Info -> CommKitContext -> Ledger -> Prop) :
  prep_ok i -> ci_headerBuffer i = Some buf -> buffer_wf buf -> ci_node i = None ->
  splits L (quiet_ledger i) R -> linked c L -> room c L -> Z.of_nat (length (conns L)) + 1 < 2 ^ 31 ->
  (forall i' c' L', step_post maxNumRetries c R i' c' L' -> Q (false, i') c' L') ->
  (forall i' c' L', busy i' -> splits L' (owned i') R -> linked c' L' -> room c' L' ->
     ctx_same c c' -> Q (true, i') c' L') ->
  kwp (W := W) (
    node ← reference_node (ci_selectedTargetID i);
    match node with
    | inl resolveErr => prepare_cleanup (set_nodeResult (set_node i None) (- resolveErr))
    | inr node =>
    '(headerSize, info) ← prepareHeader ops (set_node i (Some node));
    let info := set_headerSize info headerSize in
    if headerSize =? 0 then prepare_cleanup info else
    socket ← acquire_conn node (numAcquiredConns c =? 0);
    let info := set_socket info socket in
    match socket with
    | None =>
        if negb (numAcquiredConns c =? 0) then
          _ ← put_node node;
          _ ← upd_ctx (add_unconnectable 1);
          prepare_error (set_node info None)
        else
          _ ← upd_ctx set_connFailedLogged;
          prepare_cleanup info
    | Some _ =>
        _ ← upd_ctx (add_acquiredConns 1);
        mret (true, set_state info CommKitState_SENDHEADER)
    end end) c L Q.
Proof.
  intros Hp Eb Hw En HS HL Hr Hlen HF HT. pose proof Hp as [Hst Es].
  pose proof HS as HS0. unfold quiet_ledger in HS0. rewrite Eb, En in HS0. cbn [opt_list] in HS0.
  apply kwp_bind. eapply kwp_reference; [exact HS0| |].
  2: { intros err. eapply (prepare_cleanup_post _ c); [done| |done|done|intros; by apply HF].
       unfold quiet_ledger. info_cbn. by rewrite Eb. }
  intros node L1 HS1.
  assert (linked c L1 /\ room c L1 /\ length (conns L1) = length (conns L)) as (HL1 & Hr1 & El1).
  { assert (E : conns L1 ≡ₚ conns L) by (by rewrite (proj1 HS1), (proj1 HS)).
    unfold linked, room. by rewrite E. }
  apply kwp_bind. eapply kwp_mono; [|apply (prepare_frame (set_node i (Some node)) buf); done].
  intros [n i1] c1 L' (-> & Hcf & Hn & b' & Hb' & Hop).
  destruct Hop as (F1 & F2 & _ & _ & _ & F3 & F4 & _). info_cbn. cbv zeta.
  pose proof (ctx_frame_linked _ _ _ Hcf HL1) as HL1'. pose proof (ctx_frame_room _ _ _ Hcf Hr1) as Hr1'.
  pose proof (ctx_frame_same _ _ Hcf) as Hcs.
  assert (Hp1 : forall r, prep_ok (set_headerSize i1 r)) by (intros r; split; info_cbn; congruence).
  assert (HS1' : forall r, splits L1 (quiet_ledger (set_headerSize i1 r)) R).
  { intros r. unfold quiet_ledger. info_cbn. by rewrite F2, F3. }
  destruct (n =? 0); [by eapply (prepare_cleanup_post _ c); eauto|].
  apply kwp_bind. eapply kwp_acquire; [exact HS1| |].
  - intros sock L2 HS2 El2. apply kwp_bind, kwp_upd_ctx, kwp_ret.
    assert (Hb : busy (set_state (set_socket (set_headerSize i1 n) (Some sock)) CommKitState_SENDHEADER)).
    { split; [busy_state|]. unfold has_conn. info_cbn. rewrite F2, F3. split_and!; eauto; lia. }
    pose proof HL1' as (Ha & H1 & H2 & H3 & H4 & H5). destruct Hr1' as [Hr2 Hr3].
    assert (Ea : u32 (numAcquiredConns c1 + 1) = numAcquiredConns c1 + 1)
      by (apply u32_id; unfold in_u; lia).
    apply HT; [done| |unfold linked; ctx_cbn; rewrite Ea; split_and!; done || lia
              |split; [done|lia]|].
    + by rewrite (busy_owned _ node sock).
    + unfold ctx_same in *; ctx_cbn. done.
  - destruct (negb _) eqn:Ew.
    + apply kwp_bind. eapply kwp_put_node; [exact HS1|]. intros L2 HS2.
      apply kwp_bind, kwp_upd_ctx.
      pose proof HL1' as (Ha & H1 & H2 & H3 & H4 & H5). destruct Hr1' as [Hr2 Hr3].
      unfold num_waiters in Hr2.
      assert (E : conns L2 ≡ₚ conns L1) by (by rewrite (proj1 HS2), (proj1 HS1)).
      assert (Eu : u32 (numUnconnectable c1 + 1) = numUnconnectable c1 + 1)
        by (apply u32_id; unfold in_u; lia).
      destruct Hcs as (G1 & G2 & G3 & G4 & G5 & G6 & G7).
      eapply (prepare_error_post _ b' c); info_cbn; try done; try (ctx_cbn; congruence).
      * split; info_cbn; congruence.
      * unfold quiet_ledger. info_cbn. by rewrite F2.
      * unfold linked in *. rewrite E. ctx_cbn. rewrite Eu. split_and!; done || lia.
      * unfold num_waiters. ctx_cbn. lia.
      * intros i' L3 HP. by apply HF.
    + apply kwp_bind, kwp_upd_ctx.
      eapply (prepare_cleanup_post _ c); [by split; info_cbn; [congruence|]| |done|done|intros; by apply HF].
      unfold quiet_ledger. info_cbn. by rewrite F2, F3.
Qed.

Lemma prepare_post i c L R (Q : bool * Info -> CommKitContext -> Ledger -> Prop) :
  ci_state i = CommKitState_PREPARE -> ci_node i = None -> ci_headerBuffer i = None ->
  splits L lempty R -> linked c L -> room c L -> Z.of_nat (length (conns L)) + 1 < 2 ^ 31 ->
  (forall i' c' L', step_post maxNumRetries c R i' c' L' -> Q (false, i') c' L') ->
  (forall i' c' L', busy i' -> splits L' (owned i') R -> linked c' L' -> room c' L' ->
     ctx_same c c' -> Q (true, i') c' L') ->
  kwp (W := W) (__commkit_prepare_generic ops ioPattern i) c L Q.
Proof.
  intros Est En Eb HS HL Hr Hlen HF HT. pose proof Hr as [Hr1 _]. unfold num_waiters in Hr1.
  pose proof HL as (Ha & Hp & N1 & N2 & N3 & N4).
  apply kwp_bind, kwp_get_ctx, kwp_bind.
  set (i1 := set_selectedTargetID (set_nodeResult (set_socket i None) (- FhgfsOpsErr_COMMUNICATION))
    (ci_targetID i)).
  assert (Hi1 : prep_ok i1) by (split; [by left|done]).
  eapply kwp_alloc; [exact HS| |].
  2: { intros _. apply kwp_bind, kwp_upd_ctx, kwp_ret, HF, quiet_post; try done.
       - unfold quiet_ledger, i1. info_cbn. by rewrite En.
       - unfold linked. ctx_cbn. rewrite u32_id by (unfold in_u; lia). split_and!; done || lia.
       - unfold num_waiters. ctx_cbn. rewrite u32_id by (unfold in_u; lia). lia. }
  intros buf L1 Hbuf HS1.
  assert (linked c L1 /\ room c L1 /\ length (conns L1) = length (conns L)) as (HL1 & Hr1' & El1).
  { assert (E : conns L1 ≡ₚ conns L) by (by rewrite (proj1 HS1), (proj1 HS)).
    unfold linked, room. by rewrite E. }
  (* the target is selected *)
  set (i2 := set_headerBuffer i1 (Some buf)).
  apply (kwp_bind _ _ c L1), (kwp_mono _ _ _ (fun _ c' L' => c' = c /\ L' = L1)).
  2: { destruct (buddy_mirrored ioPattern); [by apply buddy_target_post|by apply kwp_ret]. }
  intros sel c' L' [-> ->].
  assert (Hi2 : prep_ok (set_selectedTargetID i2 sel)) by (split; [by left|done]).
  assert (HS2 : splits L1 (quiet_ledger (set_selectedTargetID i2 sel)) R).
  { unfold quiet_ledger, i2, i1. info_cbn. by rewrite En. }
  destruct (_ && _); [by eapply (prepare_cleanup_post _ c); eauto|].
  apply kwp_bind, kwp_bind, kwp_env. intros w. apply kwp_ret.
  destruct (TargetStateStore_getState _ _) as [getStateRes targetState]. cbv beta iota zeta.
  match goal with |- context [let '(_, _) := ?X in _] => destruct X as [skip i3] eqn:EX end.
  assert (Hi3 : prep_ok i3 /\ ci_headerBuffer i3 = Some buf /\ ci_node i3 = None).
  { destruct (negb getStateRes || _ || _) in EX; [|by injection EX as <- <-].
    destruct (selectedTargetBad ops) as [f|] eqn:Ef.
    - pose proof (bad_frame f (set_state (set_selectedTargetID i2 sel) CommKitState_CLEANUP)
        targetState Ef) as [(F1 & F2 & _ & _ & _ & F3 & F4 & _) _].
      destruct (f _ _) as [act j] in EX, F1, F2, F3, F4. injection EX as <- <-. cbn [snd] in *.
      unfold i2, i1 in *. info_cbn. split_and!; [split; [right|]|..]; congruence || done.
    - injection EX as <- <-. split_and!; [by split; [right|]|done..]. }
  clear EX. destruct Hi3 as (Hi3 & Eb3 & En3).
  assert (HS3 : splits L1 (quiet_ledger i3) R) by (unfold quiet_ledger; by rewrite Eb3, En3).
  destruct skip; [eapply (prepare_error_post _ buf c); eauto; lia|].
  apply (prepare_connect_post i3 buf c L1 R); auto. lia.
Qed.
Lemma busy_cleanable i : busy i -> cleanable i.
Proof.
  intros Hb. split; [|intros _; apply Hb]. unfold is_idle, is_state.
  by destruct (busy_cases i Hb) as [->|[->|[->|[->|[->| ->]]]]].
Qed.

Lemma recvdata_case_post i c L R :
  ci_state i ∈ busy_states -> busy i -> ok (ci_priv i) -> splits L (owned i) R -> linked c L -> room c L ->
  kwp (W := W) (recvdata_case ops maxNumRetries i) c L (step_post maxNumRetries c R).
Proof.
  intros. unfold recvdata_case. destruct (recvData ops) as [f|] eqn:E; [by apply recvdata_post|].
  by apply cleanup_post; [apply busy_cleanable|..].
Qed.

Lemma recvheader_case_post i c L R :
  ci_state i ∈ busy_states -> busy i -> ok (ci_priv i) -> splits L (owned i) R -> linked c L -> room c L ->
  kwp (W := W) (recvheader_case ops maxNumRetries i) c L (step_post maxNumRetries c R).
Proof.
  intros. unfold recvheader_case. destruct (recvHeader ops) as [f|] eqn:E;
    [by apply recvheader_post|by apply recvdata_case_post].
Qed.

Lemma senddata_case_post i c L R :
  ci_state i ∈ busy_states -> busy i -> ok (ci_priv i) -> splits L (owned i) R -> linked c L -> room c L ->
  kwp (W := W) (senddata_case ops maxNumRetries i) c L (step_post maxNumRetries c R).
Proof.
  intros. unfold senddata_case. destruct (sendData ops) as [f|] eqn:E;
    [by apply senddata_post|by apply recvheader_case_post].
Qed.

(** One target's step, from any state but the terminal ones and the crash. *)
Lemma step_ok i c L R :
  info_ok i -> ok (ci_priv i) -> ~ crashed i -> ~ terminal i ->
  splits L (owned i) R -> linked c L -> room c L -> Z.of_nat (length (conns L)) + 1 < 2 ^ 31 ->
  kwp (W := W) (commkit_step ops ioPattern maxNumRetries i) c L (step_post maxNumRetries c R).
Proof.
  intros Hi Hok Hcr Ht HS HL Hr Hlen. destruct Hi as [([E|]&En&Eb)|[Hb|[E Hsn]]]; [|done|..].
  - step_is E. apply kwp_bind.
    assert (HS' : splits L lempty R).
    { unfold owned, is_idle, is_state in HS. by rewrite E, En, Eb in HS. }
    eapply (prepare_post i c L R); try done.
    + intros i' c' L' HP. by apply kwp_ret.
    + intros i' c' L' Hb HS2 HL2 Hr2 Hc. cbn [negb]. eapply kwp_mono; [|by apply sendheader_post].
      intros. by eapply step_post_same.
  - destruct (proj1 Hb) as [Hs|[Hs _]]; [|done].
    destruct (busy_cases i Hb) as [E|[E|[E|[E|[E|E]]]]]; [..|done]; step_is E;
      [by apply sendheader_post|by apply senddata_case_post|by apply recvheader_case_post
      |by apply recvdata_case_post|].
    apply kwp_bind. eapply kwp_mono; [|by apply (socketinvalidate_post i c L R)].
    intros i' c' L' (Hc & HS' & HL' & Hr' & Hcs). eapply kwp_mono; [|by apply cleanup_post].
    intros. by eapply step_post_same.
  - step_is E. apply cleanup_post; try done. split; [|done].
    unfold is_idle, is_state. by rewrite E.
Qed.

Lemma step_terminal i : terminal i -> commkit_step ops ioPattern maxNumRetries i = mret i.
Proof. intros [E|E]; by step_is E. Qed.
End Steps.

(** ** The private data *)

Section Private.
Context {W : Type} `{!CommEnv W} {P : Type} (ops : CommKitContextOps (W := W) P).
Context (ok : P -> Prop) `{!KitOps ok ops} (ioPattern : option Z) (maxNumRetries : Z).
Notation Info := (CommKitTargetInfo P).
Implicit Types (i : Info) (l : list Info) (c : CommKitContext).

Definition okp : Info -> Prop := fun i => ok (ci_priv i).
Notation sound m := (forall c, cpost (W := W) m c (fun i' _ => okp i')).

Lemma then_mret {A} (m : M W A) i : okp i -> sound (_ ← m; mret i).
Proof.
  intros Hi c. apply cpost_bind. eapply cpost_mono; [|apply cpost_true]. intros a c' _.
  by apply cpost_ret.
Qed.

Lemma prepare_io_priv i ev c :
  cpost (W := W) (__commkit_prepare_io i ev) c (fun '(_, i') _ => ci_priv i' = ci_priv i).
Proof.
  apply cpost_bind, cpost_env. intros w. apply cpost_bind. eapply cpost_mono; [|apply cpost_true].
  intros inactive c1 _. destruct (_ || _); [by apply cpost_ret|]. apply cpost_bind, cpost_get.
  destruct (pollTimedOut c1); [by apply cpost_ret|]. apply cpost_bind, cpost_lift. intros sock _.
  apply cpost_bind. eapply cpost_mono; [|apply cpost_true]. intros v c2 _.
  destruct (_ =? _); [|by apply cpost_ret]. apply cpost_bind.
  eapply cpost_mono; [|apply cpost_true]. intros [] c3 _. by apply cpost_ret.
Qed.

(** A handler that calls an operation of the table when the socket is ready. *)
Lemma io_priv i ev (k : Info -> M W Info) c :
  okp i -> (forall i', okp i' -> sound (k i')) ->
  cpost (W := W) ('(ready, i') ← __commkit_prepare_io i ev; if negb ready then mret i' else k i') c
    (fun i' _ => okp i').
Proof.
  intros Hi Hk. apply cpost_bind. eapply cpost_mono; [|apply prepare_io_priv]. intros [r i'] c' E.
  assert (Hi' : okp i') by (unfold okp; by rewrite E). destruct (negb r); [by apply cpost_ret|by apply Hk].
Qed.

Lemma op_priv f i (k : Z * Info -> M W Info) c :
  keeps_priv (W := W) ok f -> okp i -> (forall r i', okp i' -> sound (k (r, i'))) ->
  cpost (W := W) (x ← f i; k x) c (fun i' _ => okp i').
Proof.
  intros Hf Hi Hk. apply cpost_bind. eapply cpost_mono; [|by apply Hf]. intros [r i'] c' H. by apply Hk.
Qed.

Lemma cleanup_priv i : okp i -> sound (__commkit_cleanup_generic ops maxNumRetries i).
Proof.
  intros Hi c. do 2 (apply cpost_bind; eapply cpost_mono; [|apply cpost_true]; intros _ ? _).
  apply cpost_bind. apply (cpost_mono _ _ (fun i' _ => okp i')).
  2: { destruct (ci_node _); [by apply then_mret|by apply cpost_ret]. }
  intros i' c1 Hi'. cbv zeta.
  destruct (_ || _); [|by apply then_mret]. apply cpost_bind, cpost_env. intros w.
  destruct (fst _); [by apply then_mret|]. apply cpost_bind, cpost_env. intros w2.
  apply cpost_bind, cpost_get. destruct (_ && _); by apply then_mret.
Qed.

Lemma senddata_priv f i : sendData ops = Some f -> okp i -> sound (__commkit_senddata_generic f i).
Proof.
  intros Hf Hi c. apply io_priv; [done|]. intros i' Hi' c'. apply op_priv; [by apply send_priv|done|].
  intros r i2 Hi2 c2. destruct (r <? 0); [by apply cpost_ret; destruct (_ =? _)|].
  destruct (_ =? _); by apply then_mret.
Qed.

Lemma recvdata_priv f i : recvData ops = Some f -> okp i -> sound (__commkit_recvdata_generic f i).
Proof.
  intros Hf Hi c. apply io_priv; [done|]. intros i' Hi' c'. apply op_priv; [by apply data_priv|done|].
  intros r i2 Hi2 c2. destruct (r <? 0); [by apply cpost_ret; destruct (_ =? _)|].
  destruct (_ =? _); [by apply cpost_ret|by apply then_mret].
Qed.

Lemma recv_more_priv i want c :
  okp i -> cpost (W := W) (recv_more i want) c (fun r _ => match r with Some i' => okp i' | None => True end).
Proof.
  intros Hi. do 2 (apply cpost_bind, cpost_lift; intros ? _). apply cpost_bind, cpost_env. intros w.
  destruct (fst _) as [|[|]]; [by apply cpost_ret|by apply cpost_ret|].
  apply cpost_bind, cpost_lift. intros ? _. by apply cpost_ret.
Qed.

Lemma recv_message_priv i c :
  okp i -> cpost (W := W) (recv_message i) c (fun r _ => okp (recv_info r)).
Proof.
  intros Hi. apply cpost_bind.
  apply (cpost_mono _ _ (fun r _ => match r with Some i' => okp i' | None => True end)).
  2: { destruct (_ <? _); [by apply recv_more_priv|by apply cpost_ret]. }
  intros [i1|] c1 H1; [|by apply cpost_ret]. do 2 (apply cpost_bind, cpost_lift; intros ? _).
  destruct (_ <? _); [by apply cpost_ret|]. destruct (_ <? _).
  - apply cpost_bind. eapply cpost_mono; [|by apply recv_more_priv].
    intros [i2|] c2 H2; [|by apply cpost_ret]. destruct (_ <? _); by apply cpost_ret.
  - destruct (_ <? _); by apply cpost_ret.
Qed.

Lemma recvheader_priv f i : recvHeader ops = Some f -> okp i -> sound (__commkit_recvheader_generic f i).
Proof.
  intros Hf Hi c. apply io_priv; [done|]. intros i' Hi' c'. apply cpost_bind.
  eapply cpost_mono; [|by apply recv_message_priv]. intros [i1|i1|i1|i1] c1 H1; try by apply cpost_ret.
  apply op_priv; [by apply header_priv|done|]. intros r i2 Hi2 c2. by apply cpost_ret.
Qed.

Lemma sendheader_priv i : okp i -> sound (sendheader_case ops i).
Proof.
  intros Hi c. apply cpost_bind. apply (cpost_mono _ _ (fun i' _ => okp i')).
  - intros i' c' Hi'. by apply then_mret.
  - do 3 (apply cpost_bind, cpost_lift; intros ? _). apply cpost_bind, cpost_env. intros w.
    destruct (negb _); by apply cpost_ret.
Qed.

Lemma prepare_error_priv i c :
  okp i -> cpost (W := W) (prepare_error i) c (fun r _ => okp (snd r)).
Proof.
  intros Hi. apply cpost_bind. eapply cpost_mono; [|apply cpost_true]. intros _ ? _. by apply cpost_ret.
Qed.

Lemma prepare_priv_ok i c :
  okp i -> cpost (W := W) (__commkit_prepare_generic ops ioPattern i) c (fun r _ => okp (snd r)).
Proof.
  intros Hi. apply cpost_bind, cpost_get, cpost_bind. eapply cpost_mono; [|apply cpost_true].
  intros [b|] c1 _; cbv zeta; [|apply cpost_bind, cpost_upd; by apply cpost_ret].
  apply cpost_bind. eapply cpost_mono; [|apply cpost_true]. intros sel c2 _.
  destruct (_ && _); [by apply cpost_ret|].
  apply cpost_bind. eapply cpost_mono; [|apply cpost_true]. intros [getStateRes targetState] c3 _.
  match goal with |- context [let '(_, _) := ?X in _] => destruct X as [skip i3] eqn:EX end.
  assert (Hi3 : okp i3).
  { destruct (negb getStateRes || _ || _) in EX; [|by injection EX as <- <-].
    destruct (selectedTargetBad ops) as [f|] eqn:Ef; [|by injection EX as <- <-].
    match type of EX with (let '(_, _) := f ?j _ in _) = _ =>
      pose proof (bad_frame f j targetState Ef) as [_ F] end.
    destruct (f _ _) as [act j] in EX, F. injection EX as <- <-. cbn [snd] in F. unfold okp. by rewrite F. }
  clear EX. destruct skip; [by apply prepare_error_priv|].
  apply cpost_bind. eapply cpost_mono; [|apply cpost_true]. intros [err|node] c4 _; [by apply cpost_ret|].
  apply cpost_bind. eapply cpost_mono; [|by apply prepare_priv]. intros [n i4] c5 Hi4. cbn [snd] in Hi4.
  cbv zeta. destruct (n =? 0); [by apply cpost_ret|].
  apply cpost_bind. eapply cpost_mono; [|apply cpost_true]. intros [sock|] c6 _.
  { apply cpost_bind, cpost_upd. by apply cpost_ret. }
  destruct (negb _); [|apply cpost_bind, cpost_upd; by apply cpost_ret].
  apply cpost_bind. eapply cpost_mono; [|apply cpost_true]. intros [] c7 _.
  apply cpost_bind, cpost_upd. by apply prepare_error_priv.
Qed.

Lemma step_priv i : okp i -> sound (commkit_step ops ioPattern maxNumRetries i).
Proof.
  intros Hi c.
  assert (H1 : sound (recvdata_case ops maxNumRetries i)).
  { unfold recvdata_case. destruct (recvData ops) eqn:E; [by apply recvdata_priv|by apply cleanup_priv]. }
  assert (H2 : sound (recvheader_case ops maxNumRetries i)).
  { unfold recvheader_case. destruct (recvHeader ops) eqn:E; [by apply recvheader_priv|done]. }
  assert (H3 : sound (senddata_case ops maxNumRetries i)).
  { unfold senddata_case. destruct (sendData ops) eqn:E; [by apply senddata_priv|done]. }
  unfold commkit_step. destruct (is_state i CommKitState_PREPARE).
  { apply cpost_bind. eapply cpost_mono; [|by apply prepare_priv_ok]. intros [r i'] c' Hi'.
    destruct (negb r); [by apply cpost_ret|by apply sendheader_priv]. }
  destruct (is_state i CommKitState_SENDHEADER); [by apply sendheader_priv|].
  do 3 (destruct (is_state i _); [done|]).
  destruct (is_state i _); [by apply cleanup_priv|].
  destruct (is_state i _).
  { apply cpost_bind, cpost_bind, cpost_env. intros w. apply cpost_bind.
    apply (cpost_mono _ _ (fun i' _ => okp i')).
    - intros i' c' Hi'. apply cpost_bind. eapply cpost_mono; [|apply cpost_true]. intros _ c2 _.
      apply cpost_bind, cpost_upd, cpost_ret. by apply cleanup_priv.
    - destruct (fst _); [by apply cpost_ret|]. apply cpost_bind, cpost_lift. intros n _.
      apply cpost_bind, cpost_env. intros w2. destruct (negb _); [by apply cpost_ret|].
      destruct (_ =? _); by apply cpost_ret. }
  destruct (_ || _); [by apply cpost_ret|]. by intros s _.
Qed.

Lemma steps_priv l c :
  Forall okp l -> cpost (W := W) (commkit_steps ops ioPattern maxNumRetries l) c (fun l' _ => Forall okp l').
Proof.
  intros Hl. revert c. induction Hl as [|i l Hi Hl IH]; intros c; cbn [commkit_steps]; [by apply cpost_ret|].
  apply cpost_bind. eapply cpost_mono; [|by apply step_priv]. intros i' c' Hi'.
  apply cpost_bind. eapply cpost_mono; [|apply IH]. intros l' c2 Hl'. apply cpost_ret. by constructor.
Qed.

Lemma start_retry_target_priv flags i c :
  okp i -> cpost (W := W) (start_retry_target ioPattern flags i) c
    (fun r _ => match r with Some (i', _, _) => okp i' | None => True end).
Proof.
  intros Hi. do 2 (apply cpost_bind; eapply cpost_mono; [|apply cpost_true]; intros ? ? _).
  do 2 (apply cpost_bind; eapply cpost_mono; [|apply cpost_true]; intros [] ? _). cbv zeta.
  repeat match goal with |- cpost (if ?b then _ else _) _ _ => destruct b end; by apply cpost_ret.
Qed.

Lemma start_retry_loop_priv flags l reset sleep c :
  Forall okp l -> cpost (W := W) (start_retry_loop ioPattern flags l reset sleep) c
    (fun r _ => Forall okp (fst r)).
Proof.
  intros Hl. revert reset sleep c. induction Hl as [|i l Hi Hl IH]; intros reset sleep c;
    cbn [start_retry_loop]; [by apply cpost_ret|].
  destruct (is_state i CommKitState_RETRYWAIT).
  - apply cpost_bind. eapply cpost_mono; [|by apply start_retry_target_priv].
    intros [[[i' r'] s']|] c' Hi'; [|apply cpost_ret; by constructor].
    apply cpost_bind. eapply cpost_mono; [|apply IH]. intros [l' o] c2 Hl'. apply cpost_ret.
    by constructor.
  - apply cpost_bind. eapply cpost_mono; [|apply IH]. intros [l' o] c2 Hl'. apply cpost_ret.
    by constructor.
Qed.

Lemma cancel_retries_priv l c :
  Forall okp l -> cpost (W := W) (cancel_retries l) c (fun l' _ => Forall okp l').
Proof.
  intros Hl. revert c. induction Hl as [|i l Hi Hl IH]; intros c; cbn [cancel_retries]; [by apply cpost_ret|].
  apply cpost_bind. apply (cpost_mono _ _ (fun i' _ => okp i')).
  - intros i' c' Hi'. apply cpost_bind. eapply cpost_mono; [|apply IH]. intros l' c2 Hl'.
    apply cpost_ret. by constructor.
  - destruct (_ && _); [by apply cpost_ret|by apply then_mret].
Qed.

(** A round keeps the private data well-formed. *)
Lemma round_priv l c :
  Forall okp l -> cpost (W := W) (commkit_round ops ioPattern maxNumRetries l) c (fun l' _ => Forall okp l').
Proof.
  intros Hl. apply cpost_bind, cpost_upd, cpost_bind. eapply cpost_mono; [|by apply steps_priv].
  intros l' c' Hl'. apply cpost_bind, cpost_get. destruct (negb _).
  { apply cpost_bind. eapply cpost_mono; [|apply cpost_true]. intros _ ? _. by apply cpost_ret. }
  destruct (_ && _); [|by apply cpost_ret]. apply cpost_bind, cpost_upd, cpost_bind.
  eapply cpost_mono; [|by apply start_retry_loop_priv]. intros [l2 [[cancel r] s]] c2 Hl2.
  destruct cancel; [by apply cancel_retries_priv|]. destruct r; [|apply cpost_bind, cpost_get].
  all: do 2 (apply cpost_bind; eapply cpost_mono; [|apply cpost_true]; intros _ ? _); by apply cpost_ret.
Qed.

End Private.

(** ** Rounds *)

Section Counting.
Context {P : Type} (maxNumRetries : Z).
Implicit Types (i : CommKitTargetInfo P) (l : list (CommKitTargetInfo P)).

Lemma count_nil st : count st ([] : list (CommKitTargetInfo P)) = 0.
Proof. done. Qed.

Lemma count_cons st i l : count st (i :: l) = (if is_state i st then 1 else 0) + count st l.
Proof. unfold count. rewrite filter_cons. destruct (is_state i st); simpl; [lia|done]. Qed.

Lemma count_app st l1 l2 : count st (l1 ++ l2) = count st l1 + count st l2.
Proof. unfold count. rewrite filter_app, length_app. lia. Qed.

Lemma count_nonneg st l : 0 <= count st l.
Proof. unfold count. lia. Qed.

(** Targets whose state is final for this round. *)
Definition finals l : Z := count CommKitState_RETRYWAIT l + count CommKitState_DONE l.

Lemma finals_le l : finals l <= Z.of_nat (length l).
Proof.
  unfold finals. induction l as [|i l IH]; [done|]. rewrite !count_cons. cbn [length].
  unfold is_state.
  destruct (Z.eqb_spec (ci_state i) CommKitState_RETRYWAIT) as [E|];
    destruct (Z.eqb_spec (ci_state i) CommKitState_DONE) as [E'|]; try lia.
  rewrite E in E'. discriminate E'.
Qed.

Lemma finals_all l : finals l = Z.of_nat (length l) -> Forall terminal l.
Proof.
  induction l as [|i l IH]; intros H; [constructor|]. pose proof (finals_le l). unfold finals in *.
  rewrite !count_cons in H. cbn [length] in H. unfold terminal. unfold is_state in H.
  destruct (Z.eqb_spec (ci_state i) CommKitState_RETRYWAIT) as [E|];
    destruct (Z.eqb_spec (ci_state i) CommKitState_DONE) as [E'|]; try lia.
  - rewrite E in E'. discriminate E'.
  - constructor; [by left|apply IH; lia].
  - constructor; [by right|apply IH; lia].
Qed.

Lemma done_all l : count CommKitState_DONE l = Z.of_nat (length l) ->
  Forall (fun i => ci_state i = CommKitState_DONE) l.
Proof.
  induction l as [|i l IH]; intros H; [constructor|]. rewrite count_cons in H. cbn [length] in H.
  pose proof (finals_le l). unfold finals in *. pose proof (count_nonneg CommKitState_RETRYWAIT l).
  unfold is_state in H. destruct (Z.eqb_spec (ci_state i) CommKitState_DONE); [|lia].
  constructor; [done|apply IH; lia].
Qed.

Lemma owns_app l1 l2 : lequiv (owns (l1 ++ l2)) (ladd (owns l1) (owns l2)).
Proof.
  induction l1 as [|i l1 IH]; cbn [owns foldr app]; [by rewrite ladd_empty_l|].
  fold (owns l1). fold (owns (l1 ++ l2)). rewrite IH. unfold lequiv, ladd; simpl.
  rewrite !app_assoc. split_and!; [done..|lia].
Qed.

Lemma owns_middle l1 i l2 : lequiv (owns (l1 ++ i :: l2)) (ladd (owned i) (owns (l1 ++ l2))).
Proof.
  rewrite !owns_app. cbn [owns foldr]. fold (owns l2). apply ladd_swap.
Qed.

Lemma owns_conns_le l : Z.of_nat (length (conns (owns l))) <= Z.of_nat (length l).
Proof.
  induction l as [|i l IH]; [done|]. cbn [owns foldr]. fold (owns l). unfold ladd; simpl.
  rewrite length_app. destruct (is_idle i), (ci_socket i); simpl; lia.
Qed.

Lemma terminal_empty l : Forall info_ok l -> Forall terminal l -> owns l = lempty.
Proof.
  induction l as [|i l IH]; [done|]. intros Hi Ht. inversion_clear Hi as [|?? Hi1 Hi2].
  inversion_clear Ht as [|?? Ht1 Ht2]. cbn [owns foldr]. fold (owns l). rewrite IH by done.
  destruct Hi1 as [(_ & En & Eb)|[Hb|[E _]]].
  - by rewrite terminal_owned.
  - by destruct (busy_terminal i Hb).
  - destruct Ht1 as [E'|E']; by rewrite E' in E.
Qed.

(** The invariant between rounds. *)
Record inv l (c : CommKitContext) (L : Ledger) : Prop := {
  inv_infos : Forall info_ok l;
  inv_held : lequiv L (owns l);
  inv_linked : linked c L;
  inv_retry : numRetryWaiters c = count CommKitState_RETRYWAIT l;
  inv_done : numDone c = count CommKitState_DONE l;
  inv_waiters : num_waiters c <= Z.of_nat (length l);
  inv_poll : (pollState c).*1 ⊆+ conns L;
  inv_retries : 0 <= currentRetryNum c /\ (maxNumRetries = 0 \/ currentRetryNum c <= maxNumRetries);
  inv_left : 0 < numRetryWaiters c -> maxNumRetries = 0 \/ currentRetryNum c < maxNumRetries }.

(** In a round: [pre] have done their step, [rest] have not. *)
Record mid pre l (c : CommKitContext) (L : Ledger) : Prop := {
  mid_infos : Forall info_ok (pre ++ l);
  mid_held : lequiv L (owns (pre ++ l));
  mid_linked : linked c L;
  mid_retry : numRetryWaiters c = count CommKitState_RETRYWAIT (pre ++ l);
  mid_done : numDone c = count CommKitState_DONE (pre ++ l);
  mid_waiters : num_waiters c <= Z.of_nat (length pre) + finals l;
  mid_poll : (pollState c).*1 ⊆+ conns (owns pre);
  mid_retries : 0 <= currentRetryNum c /\ (maxNumRetries = 0 \/ currentRetryNum c <= maxNumRetries);
  mid_left : 0 < numRetryWaiters c -> maxNumRetries = 0 \/ currentRetryNum c < maxNumRetries }.

Lemma mid_room pre l c L :
  mid pre l c L -> Z.of_nat (length (pre ++ l)) < 2 ^ 31 - 1 ->
  room c L /\ Z.of_nat (length (conns L)) + 1 < 2 ^ 31.
Proof.
  intros [_ HL _ _ _ Hw _ _ _] Hn. pose proof (finals_le l). rewrite length_app in Hn.
  pose proof (owns_conns_le (pre ++ l)). rewrite length_app in *.
  assert (length (conns L) = length (conns (owns (pre ++ l)))) by (by rewrite HL).
  unfold room. split_and!; lia.
Qed.

Lemma mid_step pre i l c L i' c' L' :
  mid pre (i :: l) c L -> ~ terminal i ->
  step_post maxNumRetries c (owns (pre ++ l)) i' c' L' -> mid (pre ++ [i']) l c' L'.
Proof.
  intros [H1 H2 H3 H4 H5 H6 H7 H8 H9] Ht [G1 G2 G3 G4 G5 G6 (ps & G7 & Hps) G8 G9].
  assert (is_state i CommKitState_RETRYWAIT = false) as E1
    by (apply is_state_false; unfold terminal in Ht; tauto).
  assert (is_state i CommKitState_DONE = false) as E2
    by (apply is_state_false; unfold terminal in Ht; tauto).
  unfold finals in H6. rewrite !count_app in H4, H5.
  rewrite count_cons, E1 in H4. rewrite count_cons, E2 in H5. rewrite !count_cons, E1, E2 in H6.
  split.
  - rewrite <- app_assoc. cbn [app]. rewrite Forall_app, Forall_cons in *. tauto.
  - rewrite <- app_assoc. cbn [app]. by rewrite owns_middle.
  - done.
  - rewrite <- app_assoc. cbn [app]. rewrite count_app, count_cons. lia.
  - rewrite <- app_assoc. cbn [app]. rewrite count_app, count_cons. lia.
  - rewrite length_app. cbn [length]. unfold finals. lia.
  - rewrite G7, fmap_app. rewrite owns_app. cbn [owns foldr ladd conns].
    apply submseteq_app; [done|].
    destruct Hps as [->|(x & e & -> & Ec)]; [apply submseteq_nil_l|]. simpl.
    unfold owned in Ec. cbn [conns] in Ec. rewrite Ec. done.
  - by rewrite G8.
  - rewrite G8, G4. destruct (is_state i' _); [by intros; apply G9|]. by rewrite Z.add_0_r.
Qed.

Lemma mid_skip pre i l c L : mid pre (i :: l) c L -> terminal i -> mid (pre ++ [i]) l c L.
Proof.
  intros [H1 H2 H3 H4 H5 H6 H7 H8 H9] Ht. split; rewrite <- ?app_assoc; cbn [app]; try done.
  - rewrite length_app. cbn [length]. unfold finals in *. rewrite !count_cons in H6.
    unfold is_state in H6. destruct Ht as [E|E]; rewrite E in H6; cbn in H6; lia.
  - rewrite owns_app. cbn [ladd conns]. by apply submseteq_inserts_r.
Qed.

End Counting.

Section Rounds.
Context {W : Type} `{!CommEnv W, !CommEnvLaws W} {P : Type} (ops : CommKitContextOps (W := W) P).
Context (ioPattern : option Z) (maxNumRetries : Z) (Hmax : 0 <= maxNumRetries < 2 ^ 32).
Notation Info := (CommKitTargetInfo P).
Implicit Types (i : Info) (l : list Info) (c : CommKitContext) (L : Ledger).

Lemma idle_empty l : Forall idle l -> owns l = lempty.
Proof.
  induction 1 as [|i l (Hs & En & Eb) _ IH]; [done|]. cbn [owns foldr]. fold (owns l). rewrite IH.
  unfold owned, is_idle, is_state. rewrite En, Eb. unfold terminal in Hs.
  by destruct Hs as [-> | [-> | ->]].
Qed.

Lemma terminal_idle l : Forall info_ok l -> Forall terminal l -> Forall idle l.
Proof.
  intros Hi Ht. rewrite !Forall_forall in *. intros i Hin. specialize (Hi i Hin). specialize (Ht i Hin).
  destruct Hi as [?|[Hb|[E _]]]; [done|..].
  - by destruct (busy_terminal i Hb).
  - destruct Ht as [E'|E']; by rewrite E' in E.
Qed.

(** One waiting target: it keeps waiting, or it is prepared again. *)
Lemma start_retry_target_post flags i c L :
  kwp (W := W) (start_retry_target ioPattern flags i) c L (fun r c' L' => c' = c /\ L' = L /\
    match r with
    | Some (i', _, _) => exists b, i' = set_useBuddyMirrorSecond (set_state i CommKitState_PREPARE) b
    | None => True
    end).
Proof.
  assert (Ei : forall j : Info, j = set_useBuddyMirrorSecond j (ci_useBuddyMirrorSecond j)) by (by intros []).
  assert (G : forall b, kwp (W := W)
    (if buddy_mirrored ioPattern then buddy_target b (ci_targetID i) else mret (ci_targetID i)) c L
    (fun _ c' L' => c' = c /\ L' = L)).
  { intros b. destruct (buddy_mirrored ioPattern); [by apply buddy_target_post|by apply kwp_ret]. }
  unfold start_retry_target.
  apply kwp_bind. eapply kwp_mono; [|apply G]. intros t ? ? [-> ->].
  apply kwp_bind. eapply kwp_mono; [|apply G]. intros b ? ? [-> ->].
  apply kwp_bind, kwp_bind, kwp_env. intros w. apply kwp_ret.
  destruct (TargetStateStore_getState _ _) as [tr ts]. apply kwp_bind.
  apply (kwp_mono _ _ _ (fun _ c' L' => c' = c /\ L' = L)).
  2: { destruct (t =? b); [by apply kwp_ret|]. apply kwp_bind, kwp_env. intros ?. by apply kwp_ret. }
  intros [br bs] ? ? [-> ->].
  repeat match goal with |- kwp (if ?b then _ else _) _ _ _ => destruct b end; apply kwp_ret;
    (split; [done|split; [done|]]); try done; eexists; first [reflexivity|apply Ei].
Qed.

Lemma start_retry_loop_post flags l reset sleep c L :
  Forall idle l ->
  kwp (W := W) (start_retry_loop ioPattern flags l reset sleep) c L (fun '(l', (cancel, _, _)) c' L' =>
    c' = c /\ L' = L /\ length l' = length l /\ Forall idle l' /\
    count CommKitState_DONE l' = count CommKitState_DONE l /\
    (cancel = false -> count CommKitState_RETRYWAIT l' = 0)).
Proof.
  intros Hl. revert reset sleep. induction Hl as [|i l Hi Hl IH]; intros reset sleep;
    cbn [start_retry_loop].
  { by apply kwp_ret. }
  destruct (is_state i CommKitState_RETRYWAIT) eqn:E.
  - apply kwp_bind. eapply kwp_mono; [|apply start_retry_target_post].
    intros [[[i' r'] s']|] ? ? (-> & -> & Hr).
    + destruct Hr as [b ->]. apply kwp_bind. eapply kwp_mono; [|apply IH].
      intros [l' [[cancel r2] s2]] ? ? (-> & -> & El & Hl' & Ed & Ec). apply kwp_ret.
      split_and!; try done.
      * cbn [length]. by rewrite El.
      * constructor; [|done]. destruct Hi as (_ & En & Eb). split; [by left|done].
      * rewrite !count_cons, Ed. apply Z.eqb_eq in E. unfold is_state. rewrite E. done.
    + apply kwp_ret. split_and!; try done. by constructor.
  - apply kwp_bind. eapply kwp_mono; [|apply IH].
    intros [l' [[cancel r2] s2]] ? ? (-> & -> & El & Hl' & Ed & Ec). apply kwp_ret.
    split_and!; try done.
    + cbn [length]. by rewrite El.
    + by constructor.
    + by rewrite !count_cons, Ed.
    + intros Hc. rewrite count_cons, Ec, E by done. done.
Qed.

Lemma cancel_retries_post l c L :
  Forall idle l -> 0 <= numDone c -> numDone c + Z.of_nat (length l) < 2 ^ 32 ->
  kwp (W := W) (cancel_retries l) c L (fun l' c' L' =>
    L' = L /\ length l' = length l /\ Forall idle l' /\
    count CommKitState_DONE l' = Z.of_nat (length l) /\
    c' = add_done (Z.of_nat (length l) - count CommKitState_DONE l) c).
Proof.
  intros Hl. revert c. induction Hl as [|i l Hi Hl IH]; intros c Hd Hn; cbn [cancel_retries].
  { apply kwp_ret. split_and!; try done. change (c = add_done 0 c). destruct c.
    unfold add_done; ctx_cbn. by rewrite Z.add_0_r, u32_id by (unfold in_u; cbn in Hn; lia). }
  cbn [length] in Hn. apply kwp_bind.
  pose proof (finals_le l) as Hf. pose proof (count_nonneg CommKitState_RETRYWAIT l).
  pose proof (count_nonneg CommKitState_DONE l). unfold finals in Hf.
  destruct (negb (is_state i CommKitState_RETRYWAIT) && negb (is_state i CommKitState_PREPARE)) eqn:E.
  - apply kwp_ret. assert (Ed : ci_state i = CommKitState_DONE).
    { apply andb_true_iff in E as [E1 E2]. unfold is_state in E1, E2.
      apply negb_true_iff, Z.eqb_neq in E1, E2. destruct Hi as ([|[|]] & _); congruence. }
    apply kwp_bind. eapply kwp_mono; [|apply IH; lia].
    intros l' c' L' (-> & El & Hl' & Ec & ->). apply kwp_ret.
    rewrite !count_cons, is_state_true, Ec by done. cbn [length].
    split_and!; [done|lia|by constructor|lia|]. f_equal. lia.
  - apply kwp_bind, kwp_upd_ctx, kwp_ret, kwp_bind.
    assert (Ed : is_state i CommKitState_DONE = false).
    { apply is_state_false. intros Ed. unfold is_state in E. rewrite Ed in E. discriminate E. }
    eapply kwp_mono; [|apply IH; ctx_cbn; rewrite u32_id by (unfold in_u; lia); lia].
    intros l' c' L' (-> & El & Hl' & Ec & ->). apply kwp_ret.
    rewrite !count_cons, Ed, Ec. cbn [length]. split_and!; [done|lia| |cbn; lia|].
    + constructor; [|done]. destruct Hi as (_ & ? & ?). split; [right; by right|done].
    + unfold add_done; ctx_cbn. f_equal. rewrite (u32_id (numDone c + 1)) by (unfold in_u; lia).
      f_equal. lia.
Qed.

Lemma start_retry_post l c L :
  Forall info_ok l -> Forall terminal l -> lequiv L (owns l) -> linked c L ->
  numDone c = count CommKitState_DONE l -> numPollSocks c = 0 ->
  num_waiters c <= Z.of_nat (length l) -> finals l = Z.of_nat (length l) ->
  numRetryWaiters c = count CommKitState_RETRYWAIT l -> Z.of_nat (length l) < 2 ^ 31 ->
  0 <= currentRetryNum c -> (maxNumRetries = 0 \/ currentRetryNum c < maxNumRetries) ->
  kwp (W := W) (__commkit_start_retry ioPattern (retryFlags ops) l) c L (fun l' c' L' =>
    length l' = length l /\ inv maxNumRetries l' c' L').
Proof.
  intros Hi Ht HL (Ha & Hp & N1 & N2 & N3 & N4) Ed Ep Hw Hf Er Hn Hcur Hleft.
  pose proof (terminal_idle l Hi Ht) as Hid. rewrite (idle_empty l Hid) in HL.
  assert (Eps : pollState c = []) by (destruct (pollState c); [done|simpl in Hp; lia]).
  unfold num_waiters, finals in *.
  assert (HI : forall l' c', length l' = length l -> Forall idle l' ->
    numRetryWaiters c' = 0 -> count CommKitState_RETRYWAIT l' = 0 ->
    numDone c' = count CommKitState_DONE l' -> numAcquiredConns c' = numAcquiredConns c ->
    numUnconnectable c' = 0 -> numBufferless c' = 0 -> pollState c' = [] -> numPollSocks c' = 0 ->
    0 <= currentRetryNum c' /\ (maxNumRetries = 0 \/ currentRetryNum c' <= maxNumRetries) ->
    length l' = length l /\ inv maxNumRetries l' c' L).
  { intros l' c' E1 Hid' E2 E3 E4 E5 E6 E7 E8 E9 E10. split; [done|]. split.
    - eapply Forall_impl; [exact Hid'|]. by left.
    - by rewrite idle_empty.
    - unfold linked. rewrite E2, E4, E5, E6, E7, E8, E9. pose proof (count_nonneg CommKitState_DONE l').
      split_and!; done || lia.
    - by rewrite E2, E3.
    - done.
    - unfold num_waiters. rewrite E2, E4, E6, E7, E9. pose proof (finals_le l') as F. unfold finals in F.
      lia.
    - rewrite E8. apply submseteq_nil_l.
    - done.
    - rewrite E2. lia. }
  assert (Eu : numUnconnectable c = 0 /\ numBufferless c = 0) by lia. destruct Eu as [Eu Eb].
  apply kwp_bind, kwp_upd_ctx, kwp_bind. eapply kwp_mono; [|by apply start_retry_loop_post].
  intros [l' [[cancel r] s]] ? ? (-> & -> & El & Hid' & Ed' & Ec).
  destruct cancel.
  - eapply kwp_mono; [|apply cancel_retries_post; ctx_cbn; [done|lia|lia]].
    intros l2 c2 L2 (-> & El2 & Hid2 & Ec2 & ->). pose proof (finals_le l2) as F2. unfold finals in F2.
    pose proof (count_nonneg CommKitState_RETRYWAIT l2).
    apply HI; ctx_cbn; try done; [lia|lia| |lia]. rewrite u32_id by (unfold in_u; lia). lia.
  - specialize (Ec eq_refl). destruct r.
    + apply kwp_bind. apply (kwp_mono _ _ _ (fun _ c' L' => c' = ctx_start_retry c /\ L' = L)).
      2: { destruct s; [by apply kwp_env_|by apply kwp_ret]. }
      intros [] ? ? [-> ->]. apply kwp_bind, kwp_upd_ctx, kwp_ret.
      apply HI; ctx_cbn; try (congruence || done). lia.
    + apply kwp_bind, kwp_get_ctx, kwp_bind.
      apply (kwp_mono _ _ _ (fun _ c' L' => c' = ctx_start_retry c /\ L' = L)).
      2: { unfold MessagingTk_waitBeforeRetry. destruct (_ =? 0); [by apply kwp_ret|by apply kwp_env_]. }
      intros [] ? ? [-> ->]. apply kwp_bind, kwp_upd_ctx, kwp_ret.
      apply HI; ctx_cbn; try (congruence || done). pose proof (u32_range (currentRetryNum c + 1)) as Hu.
      destruct Hleft as [|Hleft]; [unfold in_u in Hu; lia|]. rewrite u32_id by (unfold in_u; lia). lia.
Qed.

Context (ok : P -> Prop) `{!KitOps ok ops}.

Lemma steps_ok l pre c L :
  mid maxNumRetries pre l c L -> Forall (fun i => ~ crashed i) l -> Forall (okp ok) l ->
  Z.of_nat (length (pre ++ l)) < 2 ^ 31 - 1 ->
  kwp (W := W) (commkit_steps ops ioPattern maxNumRetries l) c L (fun l' c' L' =>
    length l' = length l /\ mid maxNumRetries (pre ++ l') [] c' L' /\ currentRetryNum c' = currentRetryNum c).
Proof.
  intros Hm Hc. revert pre c L Hm. induction Hc as [|i l Hi Hc IH]; intros pre c L Hm Hok Hn;
    cbn [commkit_steps].
  { apply kwp_ret. by rewrite app_nil_r. }
  inversion_clear Hok as [|?? Hok1 Hok2].
  assert (HIH : forall i' c' L', mid maxNumRetries (pre ++ [i']) l c' L' -> currentRetryNum c' = currentRetryNum c ->
    kwp (W := W) (rest ← commkit_steps ops ioPattern maxNumRetries l; mret (i' :: rest)) c' L'
      (fun l' c' L' => length l' = S (length l) /\ mid maxNumRetries (pre ++ l') [] c' L' /\
         currentRetryNum c' = currentRetryNum c)).
  { intros i' c' L' Hm' Er. apply kwp_bind. eapply kwp_mono; [|apply (IH (pre ++ [i'])); [done|done|]].
    - intros l' c2 L2 (El & Hm2 & Er2). apply kwp_ret. rewrite <- app_assoc in Hm2.
      split_and!; [by cbn; f_equal|done|congruence].
    - rewrite !length_app in *. cbn [length] in *. lia. }
  apply kwp_bind. pose proof (mid_room _ _ _ _ _ Hm Hn) as [Hr Hlen].
  destruct (decide (terminal i)) as [Ht|Ht].
  - rewrite step_terminal by done. apply kwp_ret, HIH; [|done]. by apply mid_skip.
  - pose proof Hm as [H1 H2 H3 _ _ _ _ _ _].
    eapply kwp_mono; [|apply (step_ok ops ok ioPattern maxNumRetries i c L (owns (pre ++ l)))]; try done.
    + intros i' c' L' HP. apply HIH; [by eapply mid_step|apply HP].
    + rewrite Forall_app, Forall_cons in H1. tauto.
    + unfold splits. by rewrite H2, owns_middle.
Qed.

Lemma start_round_mid l c L : inv maxNumRetries l c L -> mid maxNumRetries [] l (ctx_start_round c) L.
Proof.
  intros [H1 H2 (Ha & Hp & N1 & N2 & N3 & N4) H4 H5 H6 H7 H8 H9]. split; ctx_cbn; try done.
  unfold num_waiters, finals. ctx_cbn. cbn [length]. lia.
Qed.

Lemma mid_inv l c L : mid maxNumRetries l [] c L -> inv maxNumRetries l c L.
Proof.
  intros [H1 H2 H3 H4 H5 H6 H7 H8 H9]. rewrite app_nil_r in *. unfold finals in H6. rewrite !count_nil in H6.
  split; try done; [lia|]. by rewrite H2.
Qed.

(** A round keeps the invariant. *)
Lemma round_inv l c L :
  inv maxNumRetries l c L -> Forall (fun i => ~ crashed i) l -> Forall (okp ok) l ->
  Z.of_nat (length l) < 2 ^ 31 - 1 ->
  kwp (W := W) (commkit_round ops ioPattern maxNumRetries l) c L (fun l' c' L' =>
    length l' = length l /\ inv maxNumRetries l' c' L').
Proof.
  intros HI Hc Hok Hn. apply kwp_bind, kwp_upd_ctx, kwp_bind.
  eapply kwp_mono; [|apply (steps_ok l []); [by apply start_round_mid|done|done|done]].
  intros l' c' L' (El & Hm & _). cbn [app] in Hm. apply mid_inv in Hm as HI'.
  apply kwp_bind, kwp_get_ctx. pose proof HI' as [H1 H2 H3 H4 H5 H6 H7 [H8 _] H9].
  destruct (Z.eqb_spec (numPollSocks c') 0) as [Ep|Ep]; cbn [negb].
  - destruct (negb (numRetryWaiters c' =? 0) && _) eqn:E; [|by apply kwp_ret].
    apply andb_true_iff in E as [Er E]. apply Z.eqb_eq in E. apply negb_true_iff, Z.eqb_neq in Er.
    pose proof H3 as (_ & _ & N1 & N2 & N3 & N4). unfold num_waiters in H6.
    rewrite u32_id in E by (unfold in_u; lia).
    assert (Hf : finals l' = Z.of_nat (length l')) by (unfold finals; lia).
    eapply kwp_mono; [|apply start_retry_post; try done; [by apply finals_all|lia|apply H9; lia]].
    cbn beta. intros l2 c2 L2 [El2 HI2]. split; [congruence|done].
  - apply kwp_bind, kwp_bind, kwp_get_ctx, kwp_bind, kwp_env. intros w.
    destruct (fst _) as [pollRes events]. apply kwp_bind, kwp_upd_revents.
    destruct (_ || _); [apply kwp_upd_ctx, kwp_ret|by apply kwp_ret, kwp_ret].
    by split; [|destruct HI'].
Qed.

Lemma round_ok l c L :
  inv maxNumRetries l c L -> Forall (fun i => ~ crashed i) l -> Forall (okp ok) l ->
  Z.of_nat (length l) < 2 ^ 31 - 1 ->
  kwp (W := W) (commkit_round ops ioPattern maxNumRetries l) c L (fun l' c' L' =>
    (length l' = length l /\ inv maxNumRetries l' c' L') /\ Forall (okp ok) l').
Proof. intros. apply kwp_and_cpost; [by apply round_inv|by apply round_priv]. Qed.
End Rounds.
