(* ===== verification/CommKitLive.v ===== *)
(** * The communication state machine: properties of whole runs

    Over the invariant of [CommKitInv]: what a round keeps, what a run of
    [FhgfsOpsCommkit_communicate] gives back, that a fatal signal ends it, and the
    one way it can reach [BUG()]. *)

From stdpp Require Import gmap.
From S2P Require Import Prelude Serialization RBTree StripePattern.
From S2P Require Import TargetStateStore MirrorBuddyGroupMapper NetMessage CommKit CommKitInv.

(** ** A fatal signal

    Once a fatal signal is pending, every target moves down this order. *)

Definition rank {P} (i : CommKitTargetInfo P) : nat :=
  if is_state i CommKitState_RETRYWAIT then 5
  else if is_state i CommKitState_PREPARE || is_state i CommKitState_SENDHEADER then 4
  else if is_state i CommKitState_SOCKETINVALIDATE then 2
  else if is_state i CommKitState_CLEANUP then 1
  else if is_state i CommKitState_DONE then 0
  else 3.

Definition total {P} (l : list (CommKitTargetInfo P)) : nat := sum_list_with rank l.

(** The targets that move in any case: neither waiting for resources nor ended. *)
Definition moving {P} (i : CommKitTargetInfo P) : Prop :=
  ~ terminal i /\ ci_state i <> CommKitState_PREPARE.

Definition goes_down {P} (i : CommKitTargetInfo P) (c : CommKitContext) (i' : CommKitTargetInfo P) : Prop :=
  ~ crashed i' /\
  ((rank i' < rank i)%nat \/
   (rank i' = rank i /\ ci_state i = CommKitState_PREPARE /\ numAcquiredConns c <> 0)).

(** ** The end of a run *)

Section Ends.
Context {P : Type}.
Implicit Types (l : list (CommKitTargetInfo P)).

Definition all_done l : Prop := Forall (fun i => ci_state i = CommKitState_DONE) l.

Lemma all_done_count l : all_done l -> count CommKitState_DONE l = Z.of_nat (length l).
Proof.
  unfold all_done. induction 1 as [|i l Ht _ IH]; [done|]. rewrite count_cons, is_state_true, IH by done.
  cbn [length]. lia.
Qed.

Lemma lequiv_empty (L : Ledger) : lequiv L lempty -> L = lempty.
Proof.
  destruct L as [cs ns b]. intros (E1 & E2 & E3); simpl in *.
  apply Permutation_nil_r in E1, E2. by rewrite E1, E2, E3.
Qed.

Lemma all_done_empty mx l c L : inv mx l c L -> all_done l -> L = lempty.
Proof.
  intros [H1 H2 _ _ _ _ _ _ _] Hd. apply lequiv_empty. rewrite terminal_empty in H2; try done.
  eapply Forall_impl; [exact Hd|]. intros i E. by right.
Qed.

Lemma total_zero l : Forall info_ok l -> total l = 0%nat -> all_done l.
Proof.
  unfold total, all_done. induction 1 as [|i l Hi _ IH]; intros E; [constructor|].
  cbn [sum_list_with] in E. constructor; [|apply IH; lia].
  assert (E0 : rank i = 0%nat) by lia. unfold rank, is_state in E0.
  destruct (ci_state i =? CommKitState_RETRYWAIT); [done|].
  destruct (_ || _); [done|]. do 2 (destruct (ci_state i =? _); [done|]).
  by destruct (Z.eqb_spec (ci_state i) CommKitState_DONE).
Qed.

Lemma total_le l : (total l <= 5 * length l)%nat.
Proof.
  unfold total. induction l as [|i l IH]; [done|]. cbn [sum_list_with length].
  assert ((rank i <= 5)%nat) by (unfold rank; repeat case_match; lia). lia.
Qed.

(** A call starts with targets set up by [commkit_initTargetInfo]. *)
Definition fresh (i : CommKitTargetInfo P) : Prop :=
  ci_state i = CommKitState_PREPARE /\ ci_node i = None /\ ci_headerBuffer i = None.

Lemma fresh_count l st : Forall fresh l -> st <> CommKitState_PREPARE -> count st l = 0.
Proof.
  induction 1 as [|i l (E & _) _ IH]; intros Hst; [done|]. rewrite count_cons, is_state_false, IH by congruence.
  done.
Qed.

Lemma fresh_inv mx l : 0 <= mx -> Forall fresh l -> inv mx l ctx_init lempty.
Proof.
  intros Hmx Hf. assert (Hi : Forall idle l).
  { eapply Forall_impl; [exact Hf|]. intros i (? & ? & ?). split; [by left|done]. }
  split; rewrite ?fresh_count by done; try done.
  - eapply Forall_impl; [exact Hi|]. by left.
  - by rewrite idle_empty.
  - unfold num_waiters; cbn. lia.
  - cbn. lia.
Qed.

Lemma fresh_sound l : Forall fresh l -> Forall (fun i => ~ crashed i) l.
Proof. intros Hf. eapply Forall_impl; [exact Hf|]. intros i (E & _). unfold crashed. by rewrite E. Qed.
End Ends.

Section Signal.
Context {W : Type} `{!CommEnv W, !CommEnvLaws W} {P : Type} (ops : CommKitContextOps (W := W) P).
Context (ok : P -> Prop) `{!KitOps ok ops} (ioPattern : option Z) (maxNumRetries : Z).
Context (Hsig : forall w : W, fst (fatal_signal_pending w) = true).
Notation Info := (CommKitTargetInfo P).
Implicit Types (i : Info) (l : list Info) (c : CommKitContext).

Definition in_state (st : Z) : Info -> CommKitContext -> Prop := fun i' _ => ci_state i' = st.

Lemma sig_cleanup i c :
  cpost (W := W) (__commkit_cleanup_generic ops maxNumRetries i) c (in_state CommKitState_DONE).
Proof.
  apply cpost_bind. eapply cpost_mono; [|apply cpost_true]. intros _ c1 _.
  apply cpost_bind. eapply cpost_mono; [|apply cpost_true]. intros _ c2 _.
  apply cpost_bind. eapply cpost_mono; [|apply cpost_true]. intros i1 c3 _. cbv zeta.
  destruct (_ || _); [apply cpost_bind, cpost_env; intros w; rewrite Hsig|];
    by apply cpost_bind, cpost_upd, cpost_ret.
Qed.

Lemma sig_prepare_io i ev c :
  cpost (W := W) (__commkit_prepare_io i ev) c
    (fun r _ => r = (false, set_state i CommKitState_SOCKETINVALIDATE)).
Proof. apply cpost_bind, cpost_env. intros w. rewrite Hsig. by apply cpost_bind, cpost_ret, cpost_ret. Qed.

Lemma sig_recvdata_case i c :
  cpost (W := W) (recvdata_case ops maxNumRetries i) c (fun i' _ =>
    ci_state i' = CommKitState_SOCKETINVALIDATE \/ ci_state i' = CommKitState_DONE).
Proof.
  unfold recvdata_case. destruct (recvData ops) as [f|].
  - apply cpost_bind. eapply cpost_mono; [|apply sig_prepare_io]. intros ? ? ->. cbn [negb].
    apply cpost_ret. by left.
  - eapply cpost_mono; [|apply sig_cleanup]. by right.
Qed.

Lemma sig_recvheader_case i c :
  cpost (W := W) (recvheader_case ops maxNumRetries i) c (fun i' _ =>
    ci_state i' = CommKitState_SOCKETINVALIDATE \/ ci_state i' = CommKitState_DONE).
Proof.
  unfold recvheader_case. destruct (recvHeader ops) as [f|]; [|apply sig_recvdata_case].
  apply cpost_bind. eapply cpost_mono; [|apply sig_prepare_io]. intros ? ? ->. cbn [negb].
  apply cpost_ret. by left.
Qed.

Lemma sig_senddata_case i c :
  cpost (W := W) (senddata_case ops maxNumRetries i) c (fun i' _ =>
    ci_state i' = CommKitState_SOCKETINVALIDATE \/ ci_state i' = CommKitState_DONE).
Proof.
  unfold senddata_case. destruct (sendData ops) as [f|]; [|apply sig_recvheader_case].
  apply cpost_bind. eapply cpost_mono; [|apply sig_prepare_io]. intros ? ? ->. cbn [negb].
  apply cpost_ret. by left.
Qed.

Lemma sendheader_states i c :
  cpost (W := W) (sendheader_case ops i) c (fun i' _ =>
    ci_state i' = CommKitState_SOCKETINVALIDATE \/ ci_state i' = CommKitState_SENDDATA).
Proof.
  apply cpost_bind. apply (cpost_mono _ _ (fun i' _ =>
    ci_state i' = CommKitState_SOCKETINVALIDATE \/ ci_state i' = CommKitState_SENDDATA)).
  - intros i' c' E. apply cpost_bind. eapply cpost_mono; [|apply cpost_true]. intros _ c2 _.
    by apply cpost_ret.
  - do 3 (apply cpost_bind, cpost_lift; intros ? _). apply cpost_bind, cpost_env. intros w.
    destruct (negb _); apply cpost_ret; [by left|by right].
Qed.

(** A target that is prepared gets a connection, fails, or waits for resources that
    other targets of this call hold. *)
Definition prepared c : bool * Info -> CommKitContext -> Prop := fun '(ok, i') _ =>
  ok = true \/ ci_state i' = CommKitState_CLEANUP \/
  (ci_state i' = CommKitState_PREPARE /\ numAcquiredConns c <> 0).

Lemma prepare_error_states i c c' :
  ci_state i = CommKitState_CLEANUP \/ ci_state i = CommKitState_PREPARE /\ numAcquiredConns c <> 0 ->
  cpost (W := W) (prepare_error i) c' (prepared c).
Proof.
  intros HE. apply cpost_bind, cpost_keeps; [apply keeps_free|]. intros []. apply cpost_ret. by right.
Qed.

Lemma prepare_cleanup_states i c c' : cpost (W := W) (prepare_cleanup i) c' (prepared c).
Proof. apply cpost_ret. right. by left. Qed.

Lemma prepare_states i c :
  ci_state i = CommKitState_PREPARE -> cpost (W := W) (__commkit_prepare_generic ops ioPattern i) c (prepared c).
Proof.
  intros Est. apply cpost_bind, cpost_get, cpost_bind.
  set (i1 := set_selectedTargetID (set_nodeResult (set_socket i None) (- FhgfsOpsErr_COMMUNICATION))
    (ci_targetID i)).
  apply (cpost_mono _ _ (fun b c' => c' = c /\
    match b with Some b => buffer_wf b | None => numAcquiredConns c <> 0 end)).
  2: { apply cpost_bind, cpost_env. intros w.
       pose proof (alloc_size (numAcquiredConns c =? 0) w) as Hsz. pose proof (alloc_waits w) as Hw.
       destruct (fst (mempool_alloc _ w)) as [b|] eqn:E.
       - apply cpost_bind, cpost_keeps; [apply keeps_upd_held|]. intros [].
         apply cpost_ret. split; [done|by apply Hsz].
       - apply cpost_ret. split; [done|]. intros E0. rewrite E0 in E. by apply Hw. }
  intros [b|] ? [-> Hb].
  2: { apply cpost_bind, cpost_upd, cpost_ret. right. right. by split. }
  cbv zeta. apply cpost_bind, cpost_keeps.
  { destruct (buddy_mirrored ioPattern); [apply keeps_buddy_target|apply keeps_ret]. }
  intros sel. destruct (_ && _); [apply prepare_cleanup_states|].
  apply cpost_bind, cpost_keeps; [apply keeps_target_state|]. intros [getStateRes targetState].
  match goal with |- context [let '(_, _) := ?X in _] => destruct X as [skip i3] eqn:EX end.
  assert (Hi3 : ci_headerBuffer i3 = Some b /\
    (ci_state i3 = CommKitState_CLEANUP \/ ci_state i3 = CommKitState_PREPARE /\ skip = false)).
  { destruct (negb getStateRes || _ || _) in EX; [|injection EX as <- <-; by split; [|right]].
    destruct (selectedTargetBad ops) as [f|] eqn:Ef; [|injection EX as <- <-; by split; [|left]].
    match type of EX with (let '(_, _) := f ?j _ in _) = _ =>
      pose proof (bad_frame f j targetState Ef) as [(F1 & F2 & _) _] end.
    destruct (f _ _) as [act j] in EX, F1, F2. injection EX as <- <-. cbn [snd] in *. info_cbn.
    split; [done|by left]. }
  clear EX. destruct Hi3 as [Eb3 Es3].
  destruct skip; [apply prepare_error_states; destruct Es3 as [?|[_ ?]]; [by left|done]|].
  apply cpost_bind, cpost_keeps; [apply keeps_reference|].
  intros [err|node]; [apply prepare_cleanup_states|].
  apply cpost_bind. apply (cpost_mono _ _ (fun '(_, i') _ => ci_state i' = ci_state i3)).
  2: { apply cpost_kwp. intros L. eapply kwp_mono; [|by apply (prepare_frame (set_node i3 (Some node)) b)].
       intros [n i'] c' L' (_ & _ & _ & b' & _ & F1 & _). done. }
  intros [n i4] c4 Es4. cbv zeta. destruct (n =? 0); [apply prepare_cleanup_states|].
  apply cpost_bind, cpost_keeps; [apply keeps_acquire|]. intros [sock|].
  { apply cpost_bind, cpost_upd, cpost_ret. by left. }
  destruct (Z.eqb_spec (numAcquiredConns c) 0) as [E0|E0]; cbn [negb].
  - apply cpost_bind, cpost_upd, prepare_cleanup_states.
  - apply cpost_bind, cpost_keeps; [apply keeps_put_node|]. intros []. apply cpost_bind, cpost_upd.
    apply prepare_error_states. info_cbn. rewrite Es4. destruct Es3 as [|[]]; auto.
Qed.

Lemma goes_down_to i c i' st st' :
  ci_state i = st -> ci_state i' = st' -> st' <> - CommKitState_SOCKETINVALIDATE ->
  (rank (set_state i st') < rank (set_state i st))%nat -> goes_down i c i'.
Proof.
  intros E E' Hc Hr. unfold goes_down, crashed, rank, is_state in *. info_cbn. rewrite E, E'.
  split; [done|by left].
Qed.

Ltac to_state E := eapply goes_down_to; [exact E|eassumption|done|vm_compute; lia].

Lemma prepare_down i c :
  ci_state i = CommKitState_PREPARE ->
  cpost (W := W) ('(ok, i') ← __commkit_prepare_generic ops ioPattern i;
    if negb ok then mret i' else sendheader_case ops i') c (fun i' _ => goes_down i c i').
Proof.
  intros E. apply cpost_bind. eapply cpost_mono; [|by apply prepare_states].
  intros [r i'] c' HP. destruct r; cbn [negb].
  - eapply cpost_mono; [|apply sendheader_states]. intros i2 c2 [E2|E2]; to_state E.
  - apply cpost_ret. destruct HP as [|[E2|[E2 Ha]]]; [done|to_state E|].
    unfold goes_down, crashed, rank, is_state. rewrite E, E2. split; [done|by right].
Qed.

Lemma step_down i c :
  ~ terminal i -> cpost (W := W) (commkit_step ops ioPattern maxNumRetries i) c (fun i' _ => goes_down i c i').
Proof.
  intros Ht. unfold commkit_step. unfold is_state at 1.
  destruct (Z.eqb_spec (ci_state i) CommKitState_PREPARE) as [E|_]; [by apply prepare_down|].
  unfold is_state at 1. destruct (Z.eqb_spec (ci_state i) CommKitState_SENDHEADER) as [E|_].
  { eapply cpost_mono; [|apply sendheader_states]. intros ? ? [E2|E2]; to_state E. }
  unfold is_state at 1. destruct (Z.eqb_spec (ci_state i) CommKitState_SENDDATA) as [E|_].
  { eapply cpost_mono; [|apply sig_senddata_case]. intros ? ? [E2|E2]; to_state E. }
  unfold is_state at 1. destruct (Z.eqb_spec (ci_state i) CommKitState_RECVHEADER) as [E|_].
  { eapply cpost_mono; [|apply sig_recvheader_case]. intros ? ? [E2|E2]; to_state E. }
  unfold is_state at 1. destruct (Z.eqb_spec (ci_state i) CommKitState_RECVDATA) as [E|_].
  { eapply cpost_mono; [|apply sig_recvdata_case]. intros ? ? [E2|E2]; to_state E. }
  unfold is_state at 1. destruct (Z.eqb_spec (ci_state i) CommKitState_CLEANUP) as [E|_].
  { eapply cpost_mono; [|apply sig_cleanup]. intros ? ? E2; to_state E. }
  unfold is_state at 1. destruct (Z.eqb_spec (ci_state i) CommKitState_SOCKETINVALIDATE) as [E|_].
  { apply cpost_bind. eapply cpost_mono; [|apply cpost_true]. intros i1 c1 _.
    eapply cpost_mono; [|apply sig_cleanup]. intros ? ? E2; to_state E. }
  destruct (is_state i CommKitState_RETRYWAIT || is_state i CommKitState_DONE) eqn:E.
  - destruct Ht. apply orb_true_iff in E as [E|E]; apply Z.eqb_eq in E; [by left|by right].
  - by intros s _.
Qed.

Lemma moving_down i c i' : moving i -> goes_down i c i' -> (rank i' < rank i)%nat.
Proof. intros [_ Hp] [_ [?|(_ & ? & _)]]; done. Qed.

Definition total_down l c l' : Prop :=
  length l' = length l /\ Forall (fun i => ~ crashed i) l' /\ (total l' <= total l)%nat /\
  (Exists moving l \/ (numAcquiredConns c = 0 /\ Exists (fun i => ~ terminal i) l) ->
   (total l' < total l)%nat).

Lemma steps_down l c :
  Forall (fun i => ~ crashed i) l ->
  cpost (W := W) (commkit_steps ops ioPattern maxNumRetries l) c (fun l' _ => total_down l c l').
Proof.
  intros Hc. revert c. induction Hc as [|i l Hi Hc IH]; intros c; cbn [commkit_steps].
  { apply cpost_ret. split_and!; [done|constructor|done|]. rewrite !Exists_nil. by intros [|[]]. }
  apply cpost_bind. destruct (decide (terminal i)) as [Ht|Ht].
  - rewrite step_terminal by done. apply cpost_ret, cpost_bind. eapply cpost_mono; [|apply IH].
    intros l' c' (El & Hc' & Hle & Hlt). apply cpost_ret. unfold total_down, total in *. cbn [sum_list_with length].
    split_and!; [congruence|by constructor|lia|]. rewrite !Exists_cons. intros HE.
    apply Nat.add_lt_mono_l, Hlt. unfold moving in HE. tauto.
  - eapply cpost_mono; [|by apply step_down]. intros i' c1 Hd. pose proof (moving_down i c i') as Hm.
    apply cpost_bind. eapply cpost_mono; [|apply IH]. intros l' c' (El & Hc' & Hle & Hlt).
    apply cpost_ret. unfold total_down, total in *. cbn [sum_list_with length].
    assert ((rank i' <= rank i)%nat) by (destruct Hd as [_ [?|(? & _)]]; lia).
    split_and!; [congruence|by constructor; [apply Hd|]|lia|]. rewrite !Exists_cons. intros HE.
    destruct HE as [[HE|HE]|[Ha _]].
    + specialize (Hm HE Hd). lia.
    + pose proof (Hlt (or_introl HE)). lia.
    + destruct Hd as [_ [?|(_ & _ & Ha')]]; [lia|done].
Qed.

(** Starting the retries moves the waiting targets down as well. *)
Definition waits i : Prop := ci_state i = CommKitState_RETRYWAIT.

Lemma rank_prepare i b : waits i ->
  (rank (set_useBuddyMirrorSecond (set_state i CommKitState_PREPARE) b) < rank i)%nat.
Proof. unfold waits, rank, is_state. intros ->. vm_compute. lia. Qed.

Lemma start_retry_target_keeps flags i c :
  cpost (W := W) (start_retry_target ioPattern flags i) c (fun r c' => c' = c /\
    match r with
    | Some (i', _, _) => exists b, i' = set_useBuddyMirrorSecond (set_state i CommKitState_PREPARE) b
    | None => True
    end).
Proof.
  apply cpost_kwp. intros L. eapply kwp_mono; [|apply start_retry_target_post].
  cbn beta. intros r c' L' (? & _ & ?). by split.
Qed.

Lemma start_retry_loop_down flags l reset sleep c :
  Forall (fun i => ~ crashed i) l ->
  cpost (W := W) (start_retry_loop ioPattern flags l reset sleep) c (fun '(l', (cancel, _, _)) c' =>
    c' = c /\ length l' = length l /\ Forall (fun i => ~ crashed i) l' /\ (total l' <= total l)%nat /\
    (cancel = true -> Exists waits l') /\
    (cancel = false -> Exists waits l -> (total l' < total l)%nat)).
Proof.
  intros Hl. revert reset sleep. induction Hl as [|i l Hi Hl IH]; intros reset sleep;
    cbn [start_retry_loop].
  { apply cpost_ret. split_and!; try done. by rewrite Exists_nil. }
  destruct (is_state i CommKitState_RETRYWAIT) eqn:E.
  - apply Z.eqb_eq in E. apply cpost_bind.
    eapply cpost_mono; [|apply start_retry_target_keeps].
    intros [[[i' r'] s']|] ? (-> & Hr).
    + destruct Hr as [b ->]. pose proof (rank_prepare i b E) as Hrk. apply cpost_bind.
      eapply cpost_mono; [|apply IH]. intros [l' [[cancel r2] s2]] ? (-> & El & Hc & Hle & Ht & Hf).
      apply cpost_ret. unfold total in *. cbn [sum_list_with length].
      split_and!; [done|congruence|by constructor|lia|intros; right; auto|lia].
    + apply cpost_ret. split_and!; [done..|by constructor|lia| |done]. intros _. by left.
  - apply Z.eqb_neq in E. apply cpost_bind.
    eapply cpost_mono; [|apply IH]. intros [l' [[cancel r2] s2]] ? (-> & El & Hc & Hle & Ht & Hf).
    apply cpost_ret. unfold total in *. cbn [sum_list_with length].
    split_and!; [done|congruence|by constructor|lia|intros; right; auto|].
    rewrite Exists_cons. intros Hcn [Hw|Hw]; [by destruct E|]. specialize (Hf Hcn Hw). lia.
Qed.

Lemma cancel_retries_down l c :
  Forall (fun i => ~ crashed i) l ->
  cpost (W := W) (cancel_retries l) c (fun l' _ =>
    length l' = length l /\ Forall (fun i => ~ crashed i) l' /\ (total l' <= total l)%nat /\
    (Exists waits l -> (total l' < total l)%nat)).
Proof.
  intros Hl. revert c. induction Hl as [|i l Hi Hl IH]; intros c; cbn [cancel_retries].
  { apply cpost_ret. split_and!; try done. by rewrite Exists_nil. }
  apply cpost_bind.
  apply (cpost_mono _ _ (fun i' _ => ~ crashed i' /\ (rank i' <= rank i)%nat /\
    (waits i -> (rank i' < rank i)%nat))).
  - intros i' c1 (Hc1 & Hle1 & Hlt1). apply cpost_bind. eapply cpost_mono; [|apply IH].
    intros l' c' (El & Hc & Hle & Hlt). apply cpost_ret. unfold total in *. cbn [sum_list_with length].
    split_and!; [congruence|by constructor|lia|]. rewrite Exists_cons.
    intros [Hw|Hw]; [specialize (Hlt1 Hw)|specialize (Hlt Hw)]; lia.
  - destruct (negb _ && _) eqn:E.
    + apply cpost_ret. split_and!; [done..|]. intros Hw. unfold waits in Hw. unfold is_state in E.
      by rewrite Hw in E.
    + apply cpost_bind, cpost_upd, cpost_ret. unfold crashed, waits, rank, is_state. info_cbn. cbn.
      split_and!; [done|lia|]. intros ->. cbn. lia.
Qed.

Lemma start_retry_down flags l c :
  Forall (fun i => ~ crashed i) l ->
  cpost (W := W) (__commkit_start_retry ioPattern flags l) c (fun l' _ =>
    length l' = length l /\ Forall (fun i => ~ crashed i) l' /\ (total l' <= total l)%nat /\
    (Exists waits l -> (total l' < total l)%nat)).
Proof.
  intros Hl. apply cpost_bind, cpost_upd, cpost_bind.
  eapply cpost_mono; [|by apply start_retry_loop_down].
  intros [l' [[cancel r] s]] ? (_ & El & Hc & Hle & Ht & Hf). destruct cancel.
  - eapply cpost_mono; [|by apply cancel_retries_down]. intros l2 c2 (El2 & Hc2 & Hle2 & Hlt2).
    specialize (Hlt2 (Ht eq_refl)). split_and!; [congruence|done|lia|lia].
  - specialize (Hf eq_refl). destruct r; [|apply cpost_bind, cpost_get].
    all: apply cpost_bind; (eapply cpost_mono; [|apply cpost_true]); intros _ ? _.
    all: by apply cpost_bind, cpost_upd, cpost_ret.
Qed.

Lemma steps_terminal l : Forall terminal l -> commkit_steps (W := W) ops ioPattern maxNumRetries l = mret l.
Proof.
  induction 1 as [|i l Ht _ IH]; cbn [commkit_steps]; [done|]. by rewrite step_terminal, IH.
Qed.

(** A round in which some target can still move. *)
Lemma round_down l c :
  Forall (fun i => ~ crashed i) l ->
  cpost (W := W) (commkit_round ops ioPattern maxNumRetries l) c (fun l' _ => total_down l c l').
Proof.
  intros Hc. apply cpost_bind, cpost_upd, cpost_bind. eapply cpost_mono; [|by apply steps_down].
  intros l' c' (El & Hc' & Hle & Hlt). apply cpost_bind, cpost_get. destruct (negb _).
  - apply cpost_bind. eapply cpost_mono; [|apply cpost_true]. intros _ ? _. by apply cpost_ret.
  - destruct (_ && _); [|by apply cpost_ret]. eapply cpost_mono; [|by apply start_retry_down].
    intros l2 c2 (El2 & Hc2 & Hle2 & _). split_and!; [congruence|done|lia|].
    intros HE. specialize (Hlt HE). lia.
Qed.

(** A round in which every target has ended or waits for its retry. *)
Lemma round_terminal l c :
  Forall (fun i => ~ crashed i) l -> Forall terminal l -> numRetryWaiters c = count CommKitState_RETRYWAIT l ->
  numDone c = count CommKitState_DONE l -> finals l = Z.of_nat (length l) -> Z.of_nat (length l) < 2 ^ 32 ->
  cpost (W := W) (commkit_round ops ioPattern maxNumRetries l) c (fun l' _ =>
    Forall (fun i => ~ crashed i) l' /\ ((total l' < total l)%nat \/ all_done l')).
Proof.
  intros Hc Ht Ew Ed Ef Hn. unfold finals in Ef. apply cpost_bind, cpost_upd.
  rewrite steps_terminal by done. apply cpost_bind, cpost_ret, cpost_bind, cpost_get. ctx_cbn.
  cbn [Z.eqb negb]. rewrite u32_id by (unfold in_u; lia).
  destruct (Z.eqb_spec (numRetryWaiters c) 0) as [E|E]; cbn [negb andb].
  - apply cpost_ret. split; [done|]. right. apply done_all. lia.
  - destruct (Z.eqb_spec (numDone c + numRetryWaiters c) (Z.of_nat (length l))); [|lia].
    eapply cpost_mono; [|by apply start_retry_down]. intros l' c' (_ & Hc' & _ & Hlt).
    split; [done|]. left. apply Hlt. rewrite Ew in E. clear -E. induction l as [|i l IH]; [done|].
    rewrite count_cons in E. unfold is_state in E.
    destruct (Z.eqb_spec (ci_state i) CommKitState_RETRYWAIT); [by left|right; apply IH; lia].
Qed.

Lemma finals_terminal l : Forall terminal l -> finals l = Z.of_nat (length l).
Proof.
  unfold finals. induction 1 as [|i l Ht _ IH]; [done|]. rewrite !count_cons. cbn [length].
  unfold is_state. destruct Ht as [-> | ->]; cbn; lia.
Qed.

Lemma not_terminal l : ~ Forall terminal l -> Exists (fun i => ~ terminal i) l.
Proof. intros H. by apply not_Forall_Exists in H; [|intros i; unfold terminal; apply _]. Qed.

Lemma idle_cases l :
  Forall info_ok l -> Exists moving l \/ Forall idle l.
Proof.
  induction 1 as [|i l Hi _ [IH|IH]]; [by right|left; by right|].
  destruct Hi as [Hi|Hm]; [right; by constructor|left; left].
  unfold moving, terminal. destruct Hm as [Hb|[-> _]]; [|by split; [intros []|]].
  destruct (busy_cases i Hb) as [->|[->|[->|[->|[->| ->]]]]]; by split; [intros []|].
Qed.

Context (Hmax : 0 <= maxNumRetries < 2 ^ 32).

Lemma signal_round l c L :
  inv maxNumRetries l c L -> Forall (fun i => ~ crashed i) l -> Forall (okp ok) l ->
  Z.of_nat (length l) < 2 ^ 31 - 1 ->
  kwp (W := W) (commkit_round ops ioPattern maxNumRetries l) c L (fun l' c' L' =>
    ((length l' = length l /\ inv maxNumRetries l' c' L') /\ Forall (okp ok) l') /\
    Forall (fun i => ~ crashed i) l' /\ ((total l' < total l)%nat \/ all_done l')).
Proof.
  intros HI Hc Hok Hn. apply kwp_and_cpost; [by apply round_ok|].
  destruct (decide (Forall terminal l)) as [Ht|Ht].
  - apply round_terminal; try done; [apply HI..|by apply finals_terminal|lia].
  - eapply cpost_mono; [|by apply round_down]. intros l' c' (_ & Hc' & _ & Hlt).
    split; [done|]. left. apply Hlt. destruct (idle_cases l) as [Hm|Hi]; [apply HI|by left|].
    right. split; [|by apply not_terminal].
    destruct HI as [_ (Ec & _) (-> & _) _ _ _ _ _ _]. by rewrite Ec, idle_empty.
Qed.

Lemma signal_rounds fuel l c L :
  inv maxNumRetries l c L -> Forall (fun i => ~ crashed i) l -> Forall (okp ok) l ->
  Z.of_nat (length l) < 2 ^ 31 - 1 ->
  (total l <= S fuel)%nat ->
  kwp (W := W) (communicate_rounds ops ioPattern maxNumRetries fuel l) c L (fun '(l', ended) c' L' =>
    ended = true /\ length l' = length l /\ all_done l' /\ L' = lempty).
Proof.
  revert l c L. induction fuel as [|fuel IH]; intros l c L HI Hc Hok Hn Hf; cbn [communicate_rounds];
    apply kwp_bind; (eapply kwp_mono; [|by apply signal_round]);
    intros l' c' L' (((El & HI') & Hok') & Hc' & Hd); apply kwp_bind, kwp_get_ctx.
  - assert (Hd' : all_done l').
    { destruct Hd as [Hd|Hd]; [|done]. apply total_zero; [apply HI'|lia]. }
    rewrite (inv_done _ _ _ _ HI'), all_done_count, Z.eqb_refl by done. apply kwp_ret.
    split_and!; try done. by eapply all_done_empty.
  - destruct (Z.eqb_spec (numDone c') (Z.of_nat (length l'))) as [E|E].
    + rewrite (inv_done _ _ _ _ HI') in E. apply done_all in E. apply kwp_ret.
      split_and!; try done. by eapply all_done_empty.
    + destruct Hd as [Hd|Hd].
      * eapply kwp_mono; [|apply IH; [done|done|done|by rewrite El|lia]]. intros [l2 e] c2 L2 (? & ? & ? & ?).
        split_and!; try done. congruence.
      * destruct E. by rewrite (inv_done _ _ _ _ HI'), all_done_count.
Qed.
End Signal.

(** ** Runs *)

Section Runs.
Context {W : Type} `{!CommEnv W} {P : Type} (ops : CommKitContextOps (W := W) P).
Context (ioPattern : option Z) (maxNumRetries : Z).
Notation Info := (CommKitTargetInfo P).

(** The machines a call goes through between its rounds. *)
Inductive reached (l0 : list Info) (s0 : Mach W) : list Info -> Mach W -> Prop :=
  | reached_start : reached l0 s0 l0 (mkMach (world s0) ctx_init (revents s0) (held s0))
  | reached_round l s l' s' :
      reached l0 s0 l s -> commkit_round ops ioPattern maxNumRetries l s = Done (l', s') ->
      numDone (ctx s') <> Z.of_nat (length l') -> reached l0 s0 l' s'.

Context `{!CommEnvLaws W} (ok : P -> Prop) `{!KitOps ok ops} (Hmax : 0 <= maxNumRetries < 2 ^ 32).
Implicit Types (l : list Info) (s : Mach W).

#[export] Instance crashed_dec (i : Info) : Decision (crashed i).
Proof. unfold crashed. apply _. Defined.

(** Only a response that is too long leads into the state that is none. *)
Lemma inv_oversized l c L : inv maxNumRetries l c L -> Exists crashed l -> Exists oversized l.
Proof.
  intros [Hi _ _ _ _ _ _ _ _] Hx. apply Exists_exists in Hx as (i & Hin & Hx). apply Exists_exists.
  exists i. split; [done|]. rewrite Forall_forall in Hi. destruct (Hi i Hin) as [H|[H|H]].
  - destruct H as [[E|[E|E]] _]; by rewrite Hx in E.
  - destruct H as [[Hs|?] _]; [|done]. rewrite Hx in Hs. unfold busy_states in Hs.
    rewrite !elem_of_cons, elem_of_nil in Hs. by destruct Hs as [|[|[|[|[|[]]]]]].
  - destruct H as [E _]. by rewrite Hx in E.
Qed.

(** With a target in that state, a round ends in the default case of the switch. *)
Lemma round_crashed l s : Exists crashed l -> commkit_round ops ioPattern maxNumRetries l s = Fault.
Proof.
  intros Hx. unfold commkit_round, mbind at 1, M_bind at 1. cbn [upd_ctx].
  set (s1 := mkMach _ _ _ _). clearbody s1.
  assert (Hsteps : forall s1, commkit_steps ops ioPattern maxNumRetries l s1 = Fault).
  { induction Hx as [i l Hi|i l Hx IH]; intros s2; cbn [commkit_steps]; unfold mbind, M_bind.
    - unfold commkit_step, is_state. by rewrite Hi.
    - destruct (commkit_step _ _ _ _ s2) as [[i' s3]|]; [by rewrite IH|done]. }
  unfold mbind, M_bind. by rewrite Hsteps.
Qed.

Definition ended_ok (l0 : list Info) (r : list Info * bool) (s : Mach W) : Prop :=
  let '(l, ended) := r in
  length l = length l0 /\ inv maxNumRetries l (ctx s) (held s) /\
  (ended = true <-> all_done l) /\ (ended = true -> held s = lempty).

Lemma rounds_cases fuel l0 s0 l s :
  reached l0 s0 l s -> length l = length l0 -> inv maxNumRetries l (ctx s) (held s) ->
  Forall (okp ok) l -> Z.of_nat (length l) < 2 ^ 31 - 1 ->
  (exists r s', communicate_rounds ops ioPattern maxNumRetries fuel l s = Done (r, s') /\
     ended_ok l0 r s') \/
  (exists l' s', reached l0 s0 l' s' /\ Exists oversized l').
Proof.
  revert l s. induction fuel as [|fuel IH]; intros l s Hr El HI Hok Hn.
  all: destruct (decide (Exists crashed l)) as [Hc|Hc];
    [right; pose proof (inv_oversized _ _ _ HI Hc); eauto|apply Forall_Exists_neg in Hc].
  all: destruct (kwp_run _ _ _ (round_ok ops ioPattern maxNumRetries Hmax ok l _ _ HI Hc Hok Hn))
    as (l' & s' & E & [El' HI'] & Hok').
  all: assert (Hd : numDone (ctx s') = Z.of_nat (length l') <-> all_done l').
  1,3: rewrite (inv_done _ _ _ _ HI'); split; [apply done_all|apply all_done_count].
  all: cbn [communicate_rounds]; unfold mbind, M_bind; rewrite E; cbn [get_ctx].
  all: destruct (Z.eqb_spec (numDone (ctx s')) (Z.of_nat (length l'))) as [En|En].
  1,3: left; eexists _, s'; split; [done|]; split_and!; [congruence|done|tauto|];
    intros _; eapply all_done_empty; [done|tauto].
  - left. eexists _, s'. split; [done|]. split_and!; [congruence|done| |done].
    split; [done|]. intros Ha. tauto.
  - apply (IH l' s'); [by eapply reached_round|congruence|done|done|by rewrite El'].
Qed.
End Runs.

(** ** A small surrounding

    One node behind every target, reachable, which answers each request with
    what is left in the world, or over and over with the same [answer].  [signal]:
    whether a fatal signal is pending. *)

Module Small.
Definition target_store : TargetStateStore :=
  mkStore (Node Leaf (mkTSI 5 (mkCTS TargetReachabilityState_ONLINE
    TargetConsistencyState_GOOD)) Leaf).

Definition buffer : mem := replicate 4096 0.

Lemma buffer_ok : buffer_wf buffer.
Proof. split; [by vm_compute|]. by apply Forall_replicate. Qed.

Definition env (signal : bool) (answer : option mem) : CommEnv mem := {|
  fatal_signal_pending w := (signal, w);
  Node_getIsActive _ w := (true, w);
  mempool_alloc _ w := (Some buffer, w);
  storageBuddyGroups w := (MirrorBuddyGroupMapper_init ∅, w);
  targetStates w := (target_store, w);
  NodeStoreEx_referenceNodeByTargetID _ w := (inr 7, w);
  Node_put _ w := w;
  NodeConnPool_acquireStreamSocketEx _ _ w := (Some 9, w);
  NodeConnPool_releaseStreamSocket _ _ w := w;
  NodeConnPool_invalidateStreamSocket _ _ w := w;
  Socket_send _ bytes w := (mlen bytes, w);
  Socket_recvT _ n w :=
    match answer with
    | Some bytes => (inr (u8 <$> take (Z.to_nat n) bytes), w)
    | None => (inr (u8 <$> take (Z.to_nat n) w), drop (Z.to_nat n) w)
    end;
  SocketTk_poll socks _ w := ((1, (fun '(s, _) => (s, 5)) <$> socks), w);
  App_getConnRetriesEnabled w := (true, w);
  Thread_sleep _ w := w |}.

Lemma laws signal answer : CommEnvLaws (CommEnv0 := env signal answer) mem.
Proof.
  split; cbn -[buffer]; try done.
  - intros _ _ b [= <-]. apply buffer_ok.
  - intros _ n w b. destruct answer; intros [= <-]; split; try (unfold mlen; rewrite length_fmap, length_take; lia);
      apply Forall_fmap, Forall_true; intros x; apply u8_byte.
  - intros _ n w e. by destruct answer.
  - intros _ b w. lia.
  - intros _. apply mapper_init_wf.
Qed.

(** A request of [len] bytes; any answer is taken. *)
Definition ops : CommKitContextOps (W := mem) unit :=
  mkOps None (fun i => mret (16, i)) None (Some (fun i => mret (0, set_nodeResult i 0))) None 0.

Definition any (_ : unit) : Prop := True.

Lemma ops_frame signal answer : KitOps (H := env signal answer) any ops.
Proof.
  split; try done.
  - intros i b c L Eb Hb. apply kwp_ret. split_and!; try done; [by left|]. exists b.
    by destruct i; cbn in *; subst.
  - intros f i c L [= <-] Hc Hok. apply kwp_ret. by split_and!; [|left|].
  - intros f [= <-] i c Hi. by apply cpost_ret.
Qed.

Definition targets : list (CommKitTargetInfo unit) := [commkit_initTargetInfo 5 tt].
Definition start (reply : mem) : Mach mem := mkMach reply ctx_init ∅ lempty.
End Small.

(** ** Properties *)

Section Properties.
Context {W : Type} `{!CommEnv W, !CommEnvLaws W} {P : Type} (ops : CommKitContextOps (W := W) P).
Context (ok : P -> Prop) `{!KitOps ok ops} (ioPattern : option Z) (maxNumRetries : Z).
Notation Info := (CommKitTargetInfo P).

(** C3: the documented invariant of the communication context.  From a machine that
    has it and where no target is in the state [-CommKitState_SOCKETINVALIDATE], with a
    table that keeps the promises of [KitOps], whatever servers, network and other
    threads do, a round of [FhgfsOpsCommkit_communicate] runs without a fault and
    keeps [inv]: what is held is exactly what the targets in flight account for;
    [numRetryWaiters] and [numDone] count the targets in these states, waiters of all
    kinds together are at most the targets (so none of the unsigned counters wraps),
    polled sockets are held and polled once, and the number of retries stays within
    its limit.  Then the next round can be made under the same conditions, or else a
    server has announced a response longer than the buffer: a target was left in
    [-CommKitState_SOCKETINVALIDATE] with that header in its buffer, and the next
    round is the [BUG()] of the switch, from every machine. *)
Theorem round_invariant (l : list Info) (s : Mach W) :
  0 <= maxNumRetries < 2 ^ 32 -> Z.of_nat (length l) < 2 ^ 31 - 1 ->
  inv maxNumRetries l (ctx s) (held s) -> Forall (fun i => ~ crashed i) l -> Forall (okp ok) l ->
  exists l' s', commkit_round ops ioPattern maxNumRetries l s = Done (l', s') /\
    (length l' = length l /\ inv maxNumRetries l' (ctx s') (held s')) /\ Forall (okp ok) l' /\
    (Forall (fun i => ~ crashed i) l' \/
     Exists oversized l' /\
     forall s2 : Mach W, commkit_round ops ioPattern maxNumRetries l' s2 = Fault).
Proof.
  intros Hmax Hn HI Hc Hok.
  destruct (kwp_run _ _ _ (round_ok ops ioPattern _ Hmax ok l _ _ HI Hc Hok Hn)) as (l' & s' & E & [El HI'] & Hok').
  exists l', s'. split_and!; [done..|]. destruct (decide (Exists crashed l')) as [Hx|Hx].
  - right. split; [by eapply inv_oversized|]. intros s2. by apply round_crashed.
  - left. by apply Forall_Exists_neg.
Qed.

(** C4: a call gives back everything.  Starting with targets to prepare and
    nothing held, with a table that keeps the promises of [KitOps], after any number
    of rounds either the run has not faulted and the invariant holds, the loop has
    ended exactly when all targets are done, and then no connection, node reference
    or header buffer is held any more; or between two rounds of the call a target was
    in the state [-CommKitState_SOCKETINVALIDATE] with a response header in its
    buffer that announces more than 4096 bytes. *)
Theorem communicate_safe (l : list Info) (s : Mach W) (fuel : nat) :
  0 <= maxNumRetries < 2 ^ 32 -> Z.of_nat (length l) < 2 ^ 31 - 1 ->
  Forall fresh l -> Forall (okp ok) l -> held s = lempty ->
  (exists r s', FhgfsOpsCommkit_communicate ops ioPattern maxNumRetries fuel l s = Done (r, s') /\
     ended_ok maxNumRetries l r s') \/
  (exists l' s', reached ops ioPattern maxNumRetries l s l' s' /\ Exists oversized l').
Proof.
  intros Hmax Hn Hf Hok Hs. unfold FhgfsOpsCommkit_communicate, mbind, M_bind; cbn [upd_ctx].
  apply (rounds_cases _ _ _ ok); try done; [constructor|]. cbn [ctx held]. rewrite Hs. apply fresh_inv; [lia|done].
Qed.

(** A killed process does not hang.  From any state between two rounds, while
    a fatal signal is pending the loop ends: within five rounds per target every
    target is done and everything is given back, without a fault, no matter how
    servers and network behave and how often targets were retried before. *)
Theorem signal_ends (l : list Info) (s : Mach W) (fuel : nat) :
  0 <= maxNumRetries < 2 ^ 32 -> Z.of_nat (length l) < 2 ^ 31 - 1 ->
  (forall w : W, fst (fatal_signal_pending w) = true) ->
  inv maxNumRetries l (ctx s) (held s) -> Forall (fun i => ~ crashed i) l -> Forall (okp ok) l ->
  (5 * length l <= fuel)%nat ->
  exists l' s',
    communicate_rounds ops ioPattern maxNumRetries fuel l s = Done ((l', true), s') /\
    length l' = length l /\ all_done l' /\ held s' = lempty.
Proof.
  intros Hmax Hn Hsig HI Hc Hok Hf. pose proof (total_le l).
  destruct (kwp_run _ _ _ (signal_rounds ops ok ioPattern maxNumRetries Hsig Hmax fuel l _ _ HI Hc Hok Hn
    ltac:(lia))) as ([l' e] & s' & E & -> & ? & ? & ?). by eexists _, s'.
Qed.

End Properties.

Lemma round_invariant_witness : exists l' s',
  commkit_round (H := Small.env false None) Small.ops None 2 Small.targets (Small.start []) = Done (l', s') /\
  (length l' = 1%nat /\ inv 2 l' (ctx s') (held s')) /\ Forall (okp Small.any) l' /\
  (Forall (fun i => ~ crashed i) l' \/
   Exists oversized l' /\
   forall s2, commkit_round (H := Small.env false None) Small.ops None 2 l' s2 = Fault).
Proof.
  exact (round_invariant (CommEnv0 := Small.env false None) (CommEnvLaws0 := Small.laws false None) Small.ops Small.any
    (KitOps0 := Small.ops_frame false None) None 2 Small.targets (Small.start [])
    ltac:(lia) ltac:(by vm_compute) (fresh_inv 2 Small.targets ltac:(lia) ltac:(by repeat constructor))
    (fresh_sound Small.targets ltac:(by repeat constructor)) ltac:(by repeat constructor)).
Defined.

Lemma communicate_safe_witness :
  (exists r s', FhgfsOpsCommkit_communicate (H := Small.env false None) Small.ops None 0 9 Small.targets
     (Small.start (le_split 4 17 ++ replicate 13 0)) = Done (r, s') /\ ended_ok 0 Small.targets r s') \/
  (exists l' s', reached (CommEnv0 := Small.env false None) Small.ops None 0 Small.targets
     (Small.start (le_split 4 17 ++ replicate 13 0)) l' s' /\ Exists oversized l').
Proof.
  exact (communicate_safe (CommEnv0 := Small.env false None) (CommEnvLaws0 := Small.laws false None) Small.ops Small.any
    (KitOps0 := Small.ops_frame false None) None 0 Small.targets
    (Small.start (le_split 4 17 ++ replicate 13 0)) 9
    ltac:(lia) ltac:(by vm_compute) ltac:(by repeat constructor) ltac:(by repeat constructor) ltac:(reflexivity)).
Defined.

Lemma signal_ends_witness : exists l' s',
  communicate_rounds (H := Small.env true None) Small.ops None 0 5 Small.targets (Small.start []) =
    Done ((l', true), s') /\ length l' = 1%nat /\ all_done l' /\ held s' = lempty.
Proof.
  exact (signal_ends (CommEnv0 := Small.env true None) (CommEnvLaws0 := Small.laws true None) Small.ops Small.any
    (KitOps0 := Small.ops_frame true None) None 0 Small.targets (Small.start []) 5
    ltac:(lia) ltac:(by vm_compute) ltac:(reflexivity)
    (fresh_inv 0 Small.targets ltac:(lia) ltac:(by repeat constructor))
    (fresh_sound Small.targets ltac:(by repeat constructor)) ltac:(by repeat constructor) ltac:(cbn; lia)).
Defined.

(** The run of the witness, in numbers: request, answer, done. *)
Example small_run :
  match FhgfsOpsCommkit_communicate (H := Small.env false None) Small.ops None 0 9 Small.targets
     (Small.start (le_split 4 17 ++ replicate 13 0)) with
  | Done ((l, ended), s) => (ci_state <$> l, ci_nodeResult <$> l, ended, numDone (ctx s), held s)
  | Fault => ([], [], false, 0, lempty)
  end = ([CommKitState_DONE], [0], true, 1, lempty).
Proof. by vm_compute. Qed.

(** ** The response that is too long *)

Lemma extract_word m : 4 <= mlen m -> NetMessage_extractMsgLengthFromBuf m 0 = Done (word m 0 4).
Proof.
  intros Hm. unfold NetMessage_extractMsgLengthFromBuf, Serialization_deserializeUInt.
  rewrite raw_read by lia. by cfs_simpl.
Qed.

Lemma word_put_front m bs n : 0 <= n <= mlen bs -> word (put m 0 bs) 0 n = word bs 0 n.
Proof.
  intros Hn. unfold word, slice, put. change (Z.to_nat 0) with 0%nat. rewrite take_0, !drop_0.
  cbn [app]. rewrite take_app_le; [done|unfold mlen in Hn; lia].
Qed.

(** Running the machine step by step. *)
Definition at_world {W} (s : Mach W) (w : W) : Mach W := mkMach w (ctx s) (revents s) (held s).

Section Running.
Context {W : Type} `{!CommEnv W} {A B : Type}.

Lemma run_env (f : W -> A * W) (k : A -> M W B) s :
  (x ← env f; k x) s = k (fst (f (world s))) (at_world s (snd (f (world s)))).
Proof. unfold mbind, M_bind, env. by destruct (f (world s)). Qed.
Lemma run_ret (a : A) (k : A -> M W B) s : (x ← mret a; k x) s = k a s.
Proof. done. Qed.
Lemma run_lift (o : outcome A) a (k : A -> M W B) s : o = Done a -> (x ← lift o; k x) s = k a s.
Proof. by intros ->. Qed.
Lemma run_get (k : CommKitContext -> M W B) s : (x ← get_ctx; k x) s = k (ctx s) s.
Proof. done. Qed.
Lemma run_bind {C} (m : M W A) (f : A -> M W B) (k : B -> M W C) s :
  (x ← (m ≫= f); k x) s = (x ← m; (y ← f x; k y)) s.
Proof. unfold mbind, M_bind. by destruct (m s) as [[]|]. Qed.
Lemma run_done (m : M W A) (k : A -> M W B) s a s' : m s = Done (a, s') -> (x ← m; k x) s = k a s'.
Proof. unfold mbind, M_bind. by intros ->. Qed.
End Running.

Section Oversize.
Context {W : Type} `{!CommEnv W} {P : Type} (ops : CommKitContextOps (W := W) P).
Context (ioPattern : option Z) (maxNumRetries : Z).

Lemma io_ready (i : CommKitTargetInfo P) node sock events (s : Mach W) :
  (forall w : W, fst (fatal_signal_pending w) = false) ->
  (forall w : W, fst (Node_getIsActive node w) = true) ->
  pollTimedOut (ctx s) = false -> Z.land (default 0 (revents s !! sock)) events <> 0 ->
  ci_node i = Some node -> ci_socket i = Some sock ->
  exists s', __commkit_prepare_io i events s = Done ((true, i), s').
Proof.
  intros Hsig Hact Hto Hrev En Es. unfold __commkit_prepare_io.
  rewrite run_env, Hsig, run_bind. erewrite run_lift by (by rewrite En).
  rewrite run_bind, run_env, Hact, run_ret. cbn [orb negb]. rewrite run_get. cbn [at_world ctx]. rewrite Hto.
  erewrite run_lift by (by rewrite Es). unfold mbind, M_bind. cbn [get_revents at_world revents].
  rewrite (proj2 (Z.eqb_neq _ _) Hrev). by eexists.
Qed.

Lemma recv_oversize (i : CommKitTargetInfo P) sock buf bytes (s : Mach W) :
  ci_socket i = Some sock -> ci_headerBuffer i = Some buf -> buffer_wf buf -> ci_headerSize i = 0 ->
  (forall w : W, fst (Socket_recvT sock NETMSG_MIN_LENGTH w) = inr bytes) ->
  mlen bytes = NETMSG_MIN_LENGTH -> CONGFS_COMMKIT_MSGBUF_SIZE < word bytes 0 4 ->
  exists i' s', recv_message i s = Done (RecvTooLarge i', s').
Proof.
  intros Es Eb [Hb _] Eh Hrecv Hlen Hbig.
  change NETMSG_MIN_LENGTH with 40 in *. change CONGFS_COMMKIT_MSGBUF_SIZE with 4096 in *.
  assert (Hm : exists i1 s1, recv_more i 40 s = Done (Some i1, s1) /\
    ci_headerBuffer i1 = Some (put buf 0 bytes)).
  { unfold recv_more. erewrite run_lift by (by rewrite Eb). erewrite run_lift by (by rewrite Es).
    rewrite run_env, Hrecv. destruct bytes as [|b bytes']; [done|].
    erewrite run_lift by (rewrite Eh; apply write_block_Done; lia). by eexists _, _. }
  destruct Hm as (i1 & s1 & E1 & Eb1). unfold recv_message. rewrite Eh.
  change NETMSG_MIN_LENGTH with 40. cbn [Z.ltb Z.sub Z.compare]. rewrite (run_done _ _ _ _ _ E1). cbv zeta.
  erewrite run_lift by (by rewrite Eb1).
  erewrite run_lift by (apply extract_word; rewrite mlen_put; lia).
  rewrite word_put_front by lia. change CONGFS_COMMKIT_MSGBUF_SIZE with 4096.
  destruct (Z.ltb_spec 4096 (word bytes 0 4)); [|lia]. by eexists _, _.
Qed.

(** A response longer than the buffer stops the machine for good.  When the
    first bytes of an answer announce more than 4096 bytes, the target is left in
    the state [-CommKitState_SOCKETINVALIDATE], which is none of the states: the
    step it is given in the next round, in whatever machine, is the [BUG()] of the
    switch.  A server can bring the client's kernel down with 40 bytes. *)
Theorem oversize_response_bug (f : CommKitTargetInfo P -> M W (Z * CommKitTargetInfo P))
    (i : CommKitTargetInfo P) (s : Mach W) (buf bytes : mem) (node sock : Z) :
  recvHeader ops = Some f -> ci_state i = CommKitState_RECVHEADER ->
  ci_node i = Some node -> ci_socket i = Some sock ->
  ci_headerBuffer i = Some buf -> buffer_wf buf -> ci_headerSize i = 0 ->
  (forall w : W, fst (fatal_signal_pending w) = false) ->
  (forall w : W, fst (Node_getIsActive node w) = true) ->
  pollTimedOut (ctx s) = false -> Z.land (default 0 (revents s !! sock)) POLLIN <> 0 ->
  (forall w : W, fst (Socket_recvT sock NETMSG_MIN_LENGTH w) = inr bytes) ->
  mlen bytes = NETMSG_MIN_LENGTH -> CONGFS_COMMKIT_MSGBUF_SIZE < word bytes 0 4 ->
  exists i' s', commkit_step ops ioPattern maxNumRetries i s = Done (i', s') /\ crashed i' /\
    forall s2 : Mach W, commkit_step ops ioPattern maxNumRetries i' s2 = Fault.
Proof.
  intros Hf Est En Es Eb Hb Eh Hsig Hact Hto Hrev Hrecv Hlen Hbig.
  pose proof (io_ready i node sock POLLIN s Hsig Hact Hto Hrev En Es) as [s1 E1].
  pose proof (recv_oversize i sock buf bytes s1 Es Eb Hb Eh Hrecv Hlen Hbig) as (i1 & s2 & E2).
  eexists _, s2. split; [|split].
  - step_is Est. unfold recvheader_case. rewrite Hf. unfold __commkit_recvheader_generic.
    rewrite (run_done _ _ _ _ _ E1). cbn [negb]. by rewrite (run_done _ _ _ _ _ E2).
  - done.
  - done.
Qed.
End Oversize.

Definition oversize : mem := le_split 4 5000 ++ replicate 36 0.

Lemma oversize_response_bug_witness : exists i' s',
  commkit_step (H := Small.env false (Some oversize)) Small.ops None 0
    (mkInfo CommKitState_RECVHEADER (Some Small.buffer) 5 5 false (Some 7) (Some 9) 0 0 tt)
    (mkMach [] ctx_init {[ 9 := POLLIN ]} lempty) = Done (i', s') /\ crashed i' /\
  forall s2, commkit_step (H := Small.env false (Some oversize)) Small.ops None 0 i' s2 = Fault.
Proof.
  exact (oversize_response_bug (CommEnv0 := Small.env false (Some oversize)) Small.ops None 0
    (fun i => mret (0, set_nodeResult i 0))
    (mkInfo CommKitState_RECVHEADER (Some Small.buffer) 5 5 false (Some 7) (Some 9) 0 0 tt)
    (mkMach [] ctx_init {[ 9 := POLLIN ]} lempty) Small.buffer oversize 7 9
    ltac:(reflexivity) ltac:(reflexivity) ltac:(reflexivity) ltac:(reflexivity) ltac:(reflexivity)
    ltac:(exact Small.buffer_ok) ltac:(reflexivity) ltac:(reflexivity) ltac:(reflexivity) ltac:(reflexivity)
    ltac:(by vm_compute) ltac:(by vm_compute) ltac:(by vm_compute) ltac:(by vm_compute)).
Defined.

(** A whole call against such a server. *)
Example oversize_run :
  FhgfsOpsCommkit_communicate (H := Small.env false (Some oversize)) Small.ops None 0 9 Small.targets
    (Small.start []) = Fault.
Proof. by vm_compute. Qed.
