(* ===== verification/CommKitOps.v ===== *)
(** * The four kinds of communication

    The tables of operations of [net/filesystem/FhgfsOpsCommKit.c]: reading and
    writing the chunks of a file, fsync and statfs, and the states of
    [FhgfsOpsCommKit.h] behind the targets; with the callbacks of
    [net/filesystem/FhgfsOpsRemoting.c] that set the [iov_iter] of a transfer.

    The region of the user's buffer that a state reads into or writes from is kept
    with the state ([rs_user], [ws_user]): its bytes lie behind the position of the
    state's [iov_iter].  [seg p] is how far the segment of the user's buffer at
    position [p] reaches. *)

From stdpp Require Import gmap.
From S2P Require Import Prelude Serialization SerializationLists StripePattern EntryInfo NetMessage.
From S2P Require Import Messages Responses.
From S2P Require StripeIO.
From S2P Require Import TargetStateStore MirrorBuddyGroupMapper CommKit CommKitInv CommKitLive.

Notation iov_iter := StripeIO.iov_iter.
Notation mkIter := StripeIO.mkIter.
Notation iter_pos := StripeIO.iter_pos.
Notation iter_count := StripeIO.iter_count.
Notation iov_iter_advance := StripeIO.iov_iter_advance.

(** ** Constants *)

Definition NETMSGTYPE_StatStoragePath : Z := 2031.
Definition NETMSGTYPE_WriteLocalFile : Z := 3009.
Definition NETMSGTYPE_FSyncLocalFile : Z := 3013.
Definition NETMSGTYPE_ReadLocalFileV2 : Z := 3019.

Definition READLOCALFILEMSG_FLAG_SESSION_CHECK : Z := 1.
Definition READLOCALFILEMSG_FLAG_DISABLE_IO : Z := 2.
Definition READLOCALFILEMSG_FLAG_BUDDYMIRROR : Z := 4.
Definition READLOCALFILEMSG_FLAG_BUDDYMIRROR_SECOND : Z := 8.
Definition WRITELOCALFILEMSG_FLAG_SESSION_CHECK : Z := 1.
Definition WRITELOCALFILEMSG_FLAG_DISABLE_IO : Z := 4.
Definition WRITELOCALFILEMSG_FLAG_BUDDYMIRROR : Z := 8.
Definition WRITELOCALFILEMSG_FLAG_BUDDYMIRROR_SECOND : Z := 16.
Definition WRITELOCALFILEMSG_FLAG_BUDDYMIRROR_FORWARD : Z := 32.
Definition FSYNCLOCALFILEMSG_FLAG_NO_SYNC : Z := 1.
Definition FSYNCLOCALFILEMSG_FLAG_SESSION_CHECK : Z := 2.
Definition FSYNCLOCALFILEMSG_FLAG_BUDDYMIRROR : Z := 4.
Definition FSYNCLOCALFILEMSG_FLAG_BUDDYMIRROR_SECOND : Z := 8.

Definition GenericRespMsgCode_TRYAGAIN : Z := 0.
Definition GenericRespMsgCode_INDIRECTCOMMERR : Z := 1.
Definition EAGAIN : Z := 11.
Definition ECOMM : Z := 70.
Definition EREMOTEIO : Z := 121.

(** ** States *)

(** [rs_vecData] and [rs_user] belong to the [ReadfileVecState] around the state. *)
Record ReadfileState := mkRS {
  rs_transmitted : Z; rs_toBeTransmitted : Z; rs_totalReadSize : Z; rs_data : iov_iter;
  rs_offset : Z; rs_firstWriteDoneForTarget : bool; rs_receiveFileData : bool;
  rs_expectedNodeResult : Z; rs_vecData : iov_iter; rs_user : mem }.

Record WritefileState := mkWS {
  ws_transmitted : Z; ws_toBeTransmitted : Z; ws_totalWriteSize : Z; ws_data : iov_iter;
  ws_offset : Z; ws_firstWriteDoneForTarget : bool; ws_expectedNodeResult : Z;
  ws_vecData : iov_iter; ws_user : mem }.

Record FsyncContext := mkFC {
  fc_userID : Z; fc_forceRemoteFlush : bool; fc_checkSession : bool; fc_doSyncOnClose : bool }.
Record FsyncState := mkFsync { fs_firstWriteDoneForTarget : bool }.
Record StatStorageState := mkStat { st_totalSize : Z; st_totalFree : Z }.

(** [data] is zeroed by the initialiser; the caller then sets [vecData]. *)
Definition FhgfsOpsCommKit_initReadfileState (offset size targetID : Z) (vecData : iov_iter) (user : mem)
    : CommKitTargetInfo ReadfileState :=
  commkit_initTargetInfo targetID (mkRS 0 0 size (mkIter 0 0) offset false false size vecData user).
Definition FhgfsOpsCommKit_initWritefileState (offset size targetID : Z) (vecData : iov_iter) (user : mem)
    : CommKitTargetInfo WritefileState :=
  commkit_initTargetInfo targetID (mkWS 0 0 size (mkIter 0 0) offset false size vecData user).
Definition FhgfsOpsCommKit_initFsyncState (states : list (CommKitTargetInfo FsyncState)) (targetID : Z)
    : list (CommKitTargetInfo FsyncState) :=
  states ++ [commkit_initTargetInfo targetID (mkFsync false)].
Definition FhgfsOpsCommKit_initStatStorageState (states : list (CommKitTargetInfo StatStorageState))
    (state : StatStorageState) (targetID : Z) : list (CommKitTargetInfo StatStorageState) :=
  states ++ [commkit_initTargetInfo targetID state].

(** What the operations read of the application and of [RemotingIOInfo]. *)
Record IOContext := mkIOC {
  io_currentUserID : Z; io_localNodeNumID : Z; io_quotaEnabled : bool; io_netBenchMode : bool;
  io_fileHandleID : mem; io_patternType : Z; io_pathInfo : PathInfo mem; io_accessFlags : Z;
  io_userID : Z; io_groupID : Z }.

Definition add_flag (b : bool) (flag : Z) (h : NetMessageHeader) : NetMessageHeader :=
  if b then NetMessage_addMsgHeaderFeatureFlag h flag else h.

Section Ops.
Context {W : Type} `{!CommEnv W} (io : IOContext) (uninit : NetMessageHeader) (seg : Z -> Z).

Definition mirrored : bool := io_patternType io =? STRIPEPATTERN_BuddyMirror.

(** The end of every [prepareHeader]: the result of [NetMessage_serialize] is not
    checked. *)
Definition prepare_message {P Q R} (mops : NetMessageOps P Q) (h : NetMessageHeader) (p : P)
    (info : CommKitTargetInfo R) : M W (Z * CommKitTargetInfo R) :=
  buffer ← lift (of_option (ci_headerBuffer info));
  '(_, h, buffer) ← lift (NetMessage_serialize mops h p buffer 0 CONGFS_COMMKIT_MSGBUF_SIZE);
  '(len, _) ← lift (NetMessage_getMsgLength mops h p);
  mret (len, set_headerBuffer info (Some buffer)).

(** [NetMessageFactory_deserializeFromBuf] on the received message. *)
Definition parse_message {P Q R} (mops : NetMessageOps P Q) (msgType : Z) (info : CommKitTargetInfo R)
    : M W (option Q) :=
  buffer ← lift (of_option (ci_headerBuffer info));
  '(payload, _) ← lift (NetMessageFactory_deserializeFromBuf mops buffer 0 (ci_headerSize info) uninit
                          (NetMessage_init (io_currentUserID io) msgType) msgType);
  mret payload.

Definition __commkit_message_genericResponse {R} (info : CommKitTargetInfo R) : M W Z :=
  msg ← parse_message SimpleIntStringMsg_Ops NETMSGTYPE_GenericResponse info;
  mret (match msg with
        | None => - FhgfsOpsErr_INTERNAL
        | Some (code, _) =>
            if code =? GenericRespMsgCode_TRYAGAIN then FhgfsOpsErr_AGAIN
            else if code =? GenericRespMsgCode_INDIRECTCOMMERR then FhgfsOpsErr_COMMUNICATION
            else FhgfsOpsErr_INTERNAL
        end).

(** ** Reading *)

Notation RInfo := (CommKitTargetInfo ReadfileState).

Definition rs_restart (s : ReadfileState) : ReadfileState :=
  mkRS 0 0 (rs_totalReadSize s) (mkIter (iter_pos (rs_data s)) 0) (rs_offset s)
    (rs_firstWriteDoneForTarget s) false (rs_expectedNodeResult s) (rs_vecData s) (rs_user s).
Definition rs_announce (s : ReadfileState) (toBeTransmitted : Z) : ReadfileState :=
  mkRS (rs_transmitted s) toBeTransmitted (rs_totalReadSize s) (rs_data s) (rs_offset s)
    (rs_firstWriteDoneForTarget s) true (rs_expectedNodeResult s) (rs_vecData s) (rs_user s).
Definition rs_set_data (s : ReadfileState) (data : iov_iter) : ReadfileState :=
  mkRS (rs_transmitted s) (rs_toBeTransmitted s) (rs_totalReadSize s) data (rs_offset s)
    (rs_firstWriteDoneForTarget s) (rs_receiveFileData s) (rs_expectedNodeResult s) (rs_vecData s)
    (rs_user s).
Definition rs_received (s : ReadfileState) (transmitted : Z) (receive : bool) (data : iov_iter)
    (user : mem) : ReadfileState :=
  mkRS transmitted (rs_toBeTransmitted s) (rs_totalReadSize s) data (rs_offset s)
    (rs_firstWriteDoneForTarget s) receive (rs_expectedNodeResult s) (rs_vecData s) user.

Definition readfile_nextIter (s : ReadfileState) : ReadfileState := rs_set_data s (rs_vecData s).

(** [prepare] is NULL for all callers. *)
Definition __commkit_readfile_prepareHeader (info : RInfo) : M W (Z * RInfo) :=
  let s := ci_priv info in
  let readMsg := ReadLocalFileV2Msg (rs_offset s) (rs_totalReadSize s) (io_accessFlags io)
    (io_fileHandleID io) (io_localNodeNumID io) (io_pathInfo io) (ci_targetID info) in
  let h := NetMessage_setMsgHeaderTargetID
    (NetMessage_init (io_currentUserID io) NETMSGTYPE_ReadLocalFileV2) (ci_selectedTargetID info) in
  let h := add_flag (rs_firstWriteDoneForTarget s) READLOCALFILEMSG_FLAG_SESSION_CHECK h in
  let h := add_flag mirrored READLOCALFILEMSG_FLAG_BUDDYMIRROR h in
  let h := add_flag (mirrored && ci_useBuddyMirrorSecond info)
    READLOCALFILEMSG_FLAG_BUDDYMIRROR_SECOND h in
  let h := add_flag (io_netBenchMode io) READLOCALFILEMSG_FLAG_DISABLE_IO h in
  '(len, info) ← prepare_message (request_ops readMsg) h readMsg info;
  mret (len, set_priv info (rs_restart s)).

(** [Socket_recvExactT]: at most [fuel] receives, which is enough if it is the
    length; the error code or 0, or all the bytes. *)
Fixpoint Socket_recvExactT (fuel : nat) (socket missingLen : Z) : M W (Z + mem) :=
  match fuel with
  | O => fault
  | S fuel =>
      r ← env (Socket_recvT socket missingLen);
      match r with
      | inl recvRes => mret (inl recvRes)
      | inr [] => mret (inl 0)
      | inr bytes =>
          let missingLen := missingLen - mlen bytes in
          if missingLen =? 0 then mret (inr bytes)
          else
            rest ← Socket_recvExactT fuel socket missingLen;
            mret (match rest with inl e => inl e | inr more => inr (bytes ++ more) end)
      end
  end.

(** [size_t] is 64 bits wide; the sum below converts to it. *)
Definition __commkit_readfile_recvdata_prefix (info : RInfo) : M W (Z * RInfo) :=
  let s := ci_priv info in
  socket ← lift (of_option (ci_socket info));
  r ← Socket_recvExactT 8 socket 8;
  match r with
  | inl recvRes => mret (if recvRes =? 0 then - ECOMM else recvRes, info)
  | inr dataLenBuf =>
      '(lengthInfo, _) ← lift (des_ignore Serialization_deserializeInt64 0 dataLenBuf (mkDes 0 8));
      if lengthInfo <=? 0 then
        mret (0, set_nodeResult info (if lengthInfo <? 0 then lengthInfo else s64 (rs_transmitted s)))
      else if rs_totalReadSize s <? u64 (rs_transmitted s + lengthInfo) then mret (- EREMOTEIO, info)
      else mret (1, set_priv info (rs_announce s (u64 (rs_toBeTransmitted s + lengthInfo))))
  end.

(** What is received is stored behind the position of the iterator. *)
Definition __commkit_readfile_recvdata (info : RInfo) : M W (Z * RInfo) :=
  if negb (rs_receiveFileData (ci_priv info)) then __commkit_readfile_recvdata_prefix info else
  let s := if iter_count (rs_data (ci_priv info)) =? 0 then readfile_nextIter (ci_priv info)
           else ci_priv info in
  if iter_count (rs_data s) =? 0 then fault else
  let iov_len := Z.min (iter_count (rs_data s)) (seg (iter_pos (rs_data s))) in
  let missingLength := Z.min iov_len (u64 (rs_toBeTransmitted s - rs_transmitted s)) in
  socket ← lift (of_option (ci_socket info));
  r ← env (Socket_recvT socket missingLength);
  match r with
  | inl recvRes => mret (recvRes, set_priv info s)
  | inr bytes =>
      user ← lift (write_block (rs_user s) (iter_pos (rs_data s) - iter_pos (rs_vecData s)) bytes);
      let transmitted := u64 (rs_transmitted s + mlen bytes) in
      mret (1, set_priv info
        (rs_received s transmitted (negb (rs_toBeTransmitted s =? transmitted))
           (iov_iter_advance (rs_data s) (mlen bytes)) user))
  end.

Definition readfileOps : CommKitContextOps (W := W) ReadfileState :=
  mkOps None __commkit_readfile_prepareHeader None None (Some __commkit_readfile_recvdata)
    CK_RETRY_BUDDY_FALLBACK.

(** ** Writing *)

Notation WInfo := (CommKitTargetInfo WritefileState).

Definition ws_restart (s : WritefileState) : WritefileState :=
  mkWS 0 (ws_totalWriteSize s) (ws_totalWriteSize s) (mkIter (iter_pos (ws_data s)) 0) (ws_offset s)
    (ws_firstWriteDoneForTarget s) (ws_expectedNodeResult s) (ws_vecData s) (ws_user s).
Definition ws_advance (s : WritefileState) (toBe transmitted : Z) (data : iov_iter) : WritefileState :=
  mkWS transmitted toBe (ws_totalWriteSize s) data (ws_offset s) (ws_firstWriteDoneForTarget s)
    (ws_expectedNodeResult s) (ws_vecData s) (ws_user s).

Definition writefile_nextIter (s : WritefileState) : WritefileState :=
  ws_advance s (ws_toBeTransmitted s) (ws_transmitted s) (ws_vecData s).

Definition __commkit_writefile_prepareHeader (info : WInfo) : M W (Z * WInfo) :=
  let s := ci_priv info in
  let writeMsg := WriteLocalFileMsg (ws_offset s) (ws_totalWriteSize s) (io_accessFlags io)
    (io_fileHandleID io) (io_localNodeNumID io) (io_pathInfo io) (ci_targetID info)
    (io_userID io) (io_groupID io) in
  let h := NetMessage_setMsgHeaderTargetID
    (NetMessage_init (io_currentUserID io) NETMSGTYPE_WriteLocalFile) (ci_selectedTargetID info) in
  let h := add_flag (io_quotaEnabled io) WRITELOCALFILEMSG_FLAG_USE_QUOTA h in
  let h := add_flag (ws_firstWriteDoneForTarget s) WRITELOCALFILEMSG_FLAG_SESSION_CHECK h in
  let h := add_flag mirrored WRITELOCALFILEMSG_FLAG_BUDDYMIRROR h in
  let h := add_flag mirrored WRITELOCALFILEMSG_FLAG_BUDDYMIRROR_FORWARD h in
  let h := add_flag (mirrored && ci_useBuddyMirrorSecond info)
    WRITELOCALFILEMSG_FLAG_BUDDYMIRROR_SECOND h in
  let h := add_flag (io_netBenchMode io) WRITELOCALFILEMSG_FLAG_DISABLE_IO h in
  '(len, info) ← prepare_message (request_ops writeMsg) h writeMsg info;
  mret (len, set_priv info (ws_restart s)).

(** The loop over [sendto], which advances the iterator by what it has sent; at
    most [fuel] sends, which is enough if it is the count. *)
Fixpoint send_loop (fuel : nat) (socket sendRes : Z) (s : WritefileState) : M W (Z * WritefileState) :=
  if iter_count (ws_data s) =? 0 then mret (sendRes, s) else
  match fuel with
  | O => fault
  | S fuel =>
      bytes ← lift (read_block (ws_user s) (iter_pos (ws_data s) - iter_pos (ws_vecData s))
                      (iter_count (ws_data s)));
      sendRes ← env (Socket_send socket bytes);
      if sendRes <? 0 then mret (sendRes, s)
      else send_loop fuel socket sendRes
             (ws_advance s (u64 (ws_toBeTransmitted s - sendRes)) (u64 (ws_transmitted s + sendRes))
                (iov_iter_advance (ws_data s) sendRes))
  end.

Definition __commkit_writefile_sendData (info : WInfo) : M W (Z * WInfo) :=
  if ws_toBeTransmitted (ci_priv info) =? 0 then mret (0, info) else
  let s := if iter_count (ws_data (ci_priv info)) =? 0 then writefile_nextIter (ci_priv info)
           else ci_priv info in
  if iter_count (ws_data s) =? 0 then fault else
  socket ← lift (of_option (ci_socket info));
  '(sendRes, s) ← send_loop (Z.to_nat (iter_count (ws_data s))) socket 0 s;
  let info := set_priv info s in
  if (sendRes <? 0) && negb (sendRes =? - EAGAIN) then mret (sendRes, info)
  else if ws_toBeTransmitted s =? 0 then mret (0, info)
  else mret (1, info).

Definition __commkit_writefile_recvHeader (info : WInfo) : M W (Z * WInfo) :=
  resp ← parse_message SimpleInt64Msg_Ops NETMSGTYPE_WriteLocalFileResp info;
  match resp with
  | None => mret (- FhgfsOpsErr_COMMUNICATION, info)
  | Some writeRespValue =>
      context ← get_ctx;
      _ ← (if (writeRespValue =? - FhgfsOpsErr_COMMUNICATION) && negb (connFailedLogged context)
           then upd_ctx set_connFailedLogged else mret tt);
      mret (0, set_nodeResult info writeRespValue)
  end.

Definition writefileOps : CommKitContextOps (W := W) WritefileState :=
  mkOps None __commkit_writefile_prepareHeader (Some __commkit_writefile_sendData)
    (Some __commkit_writefile_recvHeader) None CK_RETRY_LOOP_EAGAIN.

(** ** fsync *)

Notation FInfo := (CommKitTargetInfo FsyncState).

Definition __commkit_fsync_selectedTargetBad (info : FInfo) (targetState : CombinedTargetState)
    : Z * FInfo :=
  if mirrored && ci_useBuddyMirrorSecond info then
    if (reachabilityState targetState =? TargetReachabilityState_OFFLINE) ||
       (consistencyState targetState =? TargetConsistencyState_BAD)
    then (CK_SKIP_TARGET, set_nodeResult info (- FhgfsOpsErr_SUCCESS))
    else if consistencyState targetState =? TargetConsistencyState_NEEDS_RESYNC
    then (CK_CONTINUE_TARGET, info)
    else (CK_SKIP_TARGET, info)
  else (CK_SKIP_TARGET, info).

Definition __commkit_fsync_prepareHeader (fctx : FsyncContext) (info : FInfo) : M W (Z * FInfo) :=
  if negb (fc_forceRemoteFlush fctx) && negb (fc_checkSession fctx) && negb (fc_doSyncOnClose fctx)
  then mret (0, set_nodeResult info (- FhgfsOpsErr_SUCCESS)) else
  let requestMsg := FSyncLocalFileMsg (io_localNodeNumID io) (io_fileHandleID io) (ci_targetID info) in
  let h := NetMessage_init (io_currentUserID io) NETMSGTYPE_FSyncLocalFile in
  let h := NetMessage_setMsgHeaderUserID h (fc_userID fctx) in
  let h := NetMessage_setMsgHeaderTargetID h (ci_selectedTargetID info) in
  let h := add_flag mirrored FSYNCLOCALFILEMSG_FLAG_BUDDYMIRROR h in
  let h := add_flag (mirrored && ci_useBuddyMirrorSecond info)
    FSYNCLOCALFILEMSG_FLAG_BUDDYMIRROR_SECOND h in
  let h := add_flag (fc_checkSession fctx && fs_firstWriteDoneForTarget (ci_priv info))
    FSYNCLOCALFILEMSG_FLAG_SESSION_CHECK h in
  let h := add_flag (negb (fc_forceRemoteFlush fctx) && negb (fc_doSyncOnClose fctx))
    FSYNCLOCALFILEMSG_FLAG_NO_SYNC h in
  prepare_message (request_ops requestMsg) h requestMsg info.

Definition __commkit_fsync_recvHeader (info : FInfo) : M W (Z * FInfo) :=
  resp ← parse_message SimpleInt64Msg_Ops NETMSGTYPE_FSyncLocalFileResp info;
  match resp with
  | None => r ← __commkit_message_genericResponse info; mret (r, info)
  | Some value => mret (0, set_nodeResult info (s64 (- value)))
  end.

Definition fsyncOps (fctx : FsyncContext) : CommKitContextOps (W := W) FsyncState :=
  mkOps (Some __commkit_fsync_selectedTargetBad) (__commkit_fsync_prepareHeader fctx) None
    (Some __commkit_fsync_recvHeader) None CK_RETRY_LOOP_EAGAIN.

(** ** statfs *)

Notation SInfo := (CommKitTargetInfo StatStorageState).

Definition __commkit_statstorage_prepareHeader (info : SInfo) : M W (Z * SInfo) :=
  let h := NetMessage_setMsgHeaderTargetID
    (NetMessage_init (io_currentUserID io) NETMSGTYPE_StatStoragePath) (ci_selectedTargetID info) in
  prepare_message SimpleUInt16Msg_Ops h (ci_targetID info) info.

Definition __commkit_statstorage_recvHeader (info : SInfo) : M W (Z * SInfo) :=
  resp ← parse_message (recv_ops (fun _ => StatStoragePathRespMsg_deserializePayload))
           NETMSGTYPE_StatStoragePathResp info;
  match resp with
  | Some (StatStoragePathRespMsg result sizeTotal sizeFree _ _) =>
      mret (0, set_nodeResult (set_priv info (mkStat sizeTotal sizeFree)) (s32 (- result)))
  | _ => r ← __commkit_message_genericResponse info; mret (r, info)
  end.

Definition statstorageOps : CommKitContextOps (W := W) StatStorageState :=
  mkOps None __commkit_statstorage_prepareHeader None (Some __commkit_statstorage_recvHeader) None
    CK_RETRY_LOOP_EAGAIN.

(** ** The four calls *)

Context (connNumCommRetries : Z).

Definition FhgfsOpsCommKit_readfileV2bCommunicate (fuel : nat) (states : list RInfo) : M W (list RInfo * bool) :=
  FhgfsOpsCommkit_communicate readfileOps (Some (io_patternType io)) connNumCommRetries fuel states.
Definition FhgfsOpsCommKit_writefileV2bCommunicate (fuel : nat) (states : list WInfo) : M W (list WInfo * bool) :=
  FhgfsOpsCommkit_communicate writefileOps (Some (io_patternType io)) connNumCommRetries fuel states.
Definition FhgfsOpsCommKit_fsyncCommunicate (fctx : FsyncContext) (fuel : nat) (states : list FInfo)
    : M W (list FInfo * bool) :=
  FhgfsOpsCommkit_communicate (fsyncOps fctx) (Some (io_patternType io)) connNumCommRetries fuel states.
Definition FhgfsOpsCommKit_statStorageCommunicate (fuel : nat) (targets : list SInfo)
    : M W (list SInfo * bool) :=
  FhgfsOpsCommkit_communicate statstorageOps None connNumCommRetries fuel targets.
End Ops.
