(* ===== verification/CommKitFile.v ===== *)
(** * The four kinds of communication: properties

    Requests fit into the header buffer and responses are decoded in place
    ([request_post], [parse_post]); the tables for reading and writing keep the
    promises of [KitOps], so the properties of [CommKitLive] hold of them; and what
    is transferred is what the server sent, or the user's data. *)

From stdpp Require Import gmap.
From S2P Require Import Prelude Serialization SerializationLists StripePattern EntryInfo NetMessage.
From S2P Require Import Messages Responses.
From S2P Require Import TargetStateStore MirrorBuddyGroupMapper CommKit CommKitInv CommKitLive.
From S2P Require Import CommKitOps.

(** ** Requests that fit *)

(** [fits s n]: the serializer [s] writes at most [n] bytes. *)
Definition fits (s : Ser) (n : Z) : Prop :=
  exists enc, Writes s enc /\ mlen enc <= n /\ Forall is_byte enc.

Lemma fits_seq s1 s2 n1 n2 : fits s1 n1 -> fits s2 n2 -> fits (s1 ;;; s2) (n1 + n2).
Proof.
  intros (e1 & W1 & L1 & B1) (e2 & W2 & L2 & B2). exists (e1 ++ e2).
  split; [by apply writes_seq|]. split; [rewrite mlen_app; lia|by apply Forall_app_2].
Qed.

Lemma fits_weaken s n n' : fits s n -> n <= n' -> fits s n'.
Proof. intros (e & ? & ? & ?) Hn. exists e. split_and!; [done|lia|done]. Qed.

Lemma fits_le s k v : Writes s (le_split k v) -> fits s (Z.of_nat k).
Proof. intros Hw. exists (le_split k v). split_and!; [done|by rewrite mlen_le_split|apply le_split_bytes]. Qed.

Lemma fits_skip : fits ser_skip 0.
Proof. exists []. split_and!; [apply _|by rewrite mlen_nil|constructor]. Qed.

(** Path and handle of the file are short strings of bytes. *)
Definition short_bytes (s : mem) : Prop := Forall is_byte s /\ mlen s <= 1000.

Lemma fits_str4 s : short_bytes s -> fits (ser_strlen_align4 s) 1008.
Proof.
  intros [Hs Hn]. pose proof (mlen_nonneg s). pose proof (align_pad_range (mlen s + 1)).
  exists (enc_str_align4 s). split; [apply writes_strlen_align4; lia|]. split.
  - rewrite mlen_enc_str_align4. lia.
  - unfold enc_str_align4, enc_str. repeat apply Forall_app_2; auto using le_split_bytes.
    + by repeat constructor.
    + by apply Forall_replicate.
Qed.

Lemma fits_path i :
  pathinfo_wf i -> short_bytes (default [] (pi_origParentEntryID i)) -> fits (PathInfo_serialize i) 1016.
Proof.
  destruct i as [fl uid o]. unfold PathInfo_serialize, pathinfo_wf.
  cbn [pi_flags pi_origParentUID pi_origParentEntryID]. intros [_ Ho] Hs.
  apply (fits_seq _ _ 4 1012); [eapply (fits_le _ 4), _|]. destruct (has_orig fl).
  - destruct o as [s|]; [|done]. apply (fits_seq _ _ 4 1008); [eapply (fits_le _ 4), _|by apply fits_str4].
  - eapply fits_weaken; [apply fits_skip|lia].
Qed.

Ltac fit :=
  lazymatch goal with
  | |- fits (_ ;;; _) _ => eapply fits_seq; [fit|fit]
  | |- fits (ser_strlen_align4 _) _ => by apply fits_str4
  | |- fits (PathInfo_serialize _) _ => by apply fits_path
  | |- fits _ _ => eapply fits_le; apply _
  end.

Definition io_ok (io : IOContext) : Prop :=
  pathinfo_wf (io_pathInfo io) /\ short_bytes (io_fileHandleID io) /\
  short_bytes (default [] (pi_origParentEntryID (io_pathInfo io))).

Section Fits.
Context (io : IOContext) (Hio : io_ok io).

Lemma read_fits offset count targetID h :
  fits (request_serializePayload h (ReadLocalFileV2Msg offset count (io_accessFlags io) (io_fileHandleID io)
    (io_localNodeNumID io) (io_pathInfo io) targetID)) 3000.
Proof.
  destruct Hio as (Hp & Hh & Ho). unfold request_serializePayload, ReadLocalFileV2Msg_serializePayload.
  eapply fits_weaken; [fit|done].
Qed.

Lemma write_fits offset count targetID h :
  fits (request_serializePayload h (WriteLocalFileMsg offset count (io_accessFlags io) (io_fileHandleID io)
    (io_localNodeNumID io) (io_pathInfo io) targetID (io_userID io) (io_groupID io))) 3000.
Proof.
  destruct Hio as (Hp & Hh & Ho). unfold request_serializePayload, WriteLocalFileMsg_serializePayload.
  destruct (NetMessage_isMsgHeaderFeatureFlagSet _ _).
  - eapply fits_weaken; [fit|done].
  - eapply fits_weaken; [do 3 (eapply fits_seq; [fit|]); eapply fits_seq; [apply fits_skip|fit]|done].
Qed.

Lemma fsync_fits targetID h :
  fits (request_serializePayload h (FSyncLocalFileMsg (io_localNodeNumID io) (io_fileHandleID io) targetID)) 3000.
Proof.
  destruct Hio as (Hp & Hh & Ho). unfold request_serializePayload, FSyncLocalFileMsg_serializePayload.
  eapply fits_weaken; [fit|done].
Qed.
End Fits.

(** A message that fits is written and has its length; the private data and the
    rest of the target stay as they are. *)
Section Messages.
Context {W : Type} `{!CommEnv W}.

Lemma request_post {R} (r : Request) h (info : CommKitTargetInfo R) b c L
    (Q : Z * CommKitTargetInfo R -> CommKitContext -> Ledger -> Prop) :
  (forall h, fits (request_serializePayload h r) 3000) -> msgLength h = 0 ->
  ci_headerBuffer info = Some b -> buffer_wf b ->
  (forall n b', 0 < n <= CONGFS_COMMKIT_MSGBUF_SIZE -> buffer_wf b' ->
     Q (n, set_headerBuffer info (Some b')) c L) ->
  kwp (W := W) (prepare_message (request_ops r) h r info) c L Q.
Proof.
  intros Hfit Hl Eb [Hb Hbytes] HQ. unfold CONGFS_COMMKIT_MSGBUF_SIZE in *.
  destruct (Hfit h) as (enc & Hw & Hn & He). pose proof (mlen_nonneg enc).
  assert (Hp : PayloadWrites (request_ops r) h r enc).
  { intros len. cbn [request_ops serializePayload]. by rewrite request_payload_length. }
  eapply kwp_bind, kwp_lift; [by rewrite Eb|].
  pose proof (serialize_run (request_ops r) h r enc b 0 4096 Hl ltac:(lia) ltac:(lia) ltac:(lia) ltac:(lia))
    as E. cbv zeta in E. rewrite (proj2 (Z.ltb_ge _ _)) in E by lia.
  eapply kwp_bind, kwp_lift; [exact E|].
  eapply kwp_bind, kwp_lift.
  { unfold NetMessage_getMsgLength. cbn [msgLength header_set_length].
    rewrite (proj2 (Z.eqb_neq _ _)) by lia. done. }
  apply kwp_ret, HQ; [lia|]. unfold CONGFS_COMMKIT_MSGBUF_SIZE.
  assert (mlen (enc_header (40 + mlen enc) h ++ enc) = 40 + mlen enc)
    by (by rewrite mlen_app, mlen_enc_header).
  split; [rewrite mlen_put by lia; done|]. apply put_bytes; [done|].
  apply Forall_app_2; [apply enc_header_bytes|done].
Qed.

Lemma buffer_msg_wf b : buffer_wf b -> msg_wf b.
Proof. intros [Hb ?]. split; [done|]. rewrite Hb. done. Qed.

(** Decoding a response does not fault if decoding the payload does not. *)
Lemma parse_post {P A R} io uninit (mops : NetMessageOps P A) t (info : CommKitTargetInfo R) b
    (Pr : A -> Prop) c L (Q : option A -> CommKitContext -> Ledger -> Prop) :
  ci_headerBuffer info = Some b -> buffer_wf b -> 0 <= ci_headerSize info <= CONGFS_COMMKIT_MSGBUF_SIZE ->
  (forall h, safe b (deserializePayload mops h) Pr) ->
  Q None c L -> (forall v, Pr v -> Q (Some v) c L) ->
  kwp (W := W) (parse_message io uninit mops t info) c L Q.
Proof.
  intros Eb Hb Hs Hsafe HN HV. pose proof (buffer_msg_wf b Hb) as Hm.
  eapply kwp_bind, kwp_lift; [by rewrite Eb|].
  assert (H : exists q h', NetMessageFactory_deserializeFromBuf mops b 0 (ci_headerSize info) uninit
    (NetMessage_init (io_currentUserID io) t) t = Done (q, h') /\
    match q with Some v => Pr v | None => True end).
  { unfold NetMessageFactory_deserializeFromBuf.
    assert (Hc : ctx_wf b (mkDes 0 (ci_headerSize info))).
    { destruct Hb as [Hb _]. unfold ctx_wf. cbn [ddata dlength]. lia. }
    destruct (deserializeHeader_run b 0 (ci_headerSize info) uninit Hm Hc) as (h & c' & E & Hle & _).
    rewrite E. cfs_simpl. destruct (negb _); [by eexists _, _|].
    unfold __NetMessageFactory_deserializeRaw. destruct (negb _); [by eexists _, _|].
    destruct (Hsafe h c') as (q & c2 & Eq & _ & Hq); [by eapply ctx_le_wf|].
    rewrite Eq. cfs_simpl. destruct q as [v|]; eexists _, _; (split; [done|]); [by apply Hq|done]. }
  destruct H as (q & h' & E & Hq). eapply kwp_bind, kwp_lift; [exact E|]. apply kwp_ret.
  destruct q; auto.
Qed.
End Messages.

(** ** Reading keeps its promises *)

(** The iterator is unset, or at the first byte that is missing. *)
Definition iter_at (data vecData : iov_iter) (transmitted totalSize : Z) : Prop :=
  (iter_count data = 0 /\ (transmitted = 0 \/ transmitted = totalSize)) \/
  (iter_count data = totalSize - transmitted /\ iter_pos data = iter_pos vecData + transmitted).

Record rs_ok (s : ReadfileState) : Prop := {
  rs_total : 0 < rs_totalReadSize s < 2 ^ 63;
  rs_vec : iter_count (rs_vecData s) = rs_totalReadSize s;
  rs_region : mlen (rs_user s) = rs_totalReadSize s;
  rs_range : 0 <= rs_transmitted s <= rs_totalReadSize s;
  rs_pending : if rs_receiveFileData s
               then rs_transmitted s < rs_toBeTransmitted s <= rs_totalReadSize s
               else rs_toBeTransmitted s = rs_transmitted s;
  rs_iter : iter_at (rs_data s) (rs_vecData s) (rs_transmitted s) (rs_totalReadSize s) }.

Lemma rs_restart_ok s : rs_ok s -> rs_ok (rs_restart s).
Proof. intros [H1 H2 H3 H4 H5 H6]. split; cbn; try done; [lia|]. left. cbn. auto. Qed.

Section Reading.
Context {W : Type} `{!CommEnv W, !CommEnvLaws W} (io : IOContext) (seg : Z -> Z).
Context (Hio : io_ok io) (Hseg : forall p, 0 < seg p).
Notation Info := (CommKitTargetInfo ReadfileState).

(** [recvExactT] ends after as many receives as bytes are missing. *)
Lemma recvExact_post fuel socket n c L (Q : Z + mem -> CommKitContext -> Ledger -> Prop) :
  0 < n <= Z.of_nat fuel ->
  (forall e, e <= 0 -> Q (inl e) c L) ->
  (forall b, mlen b = n -> Forall is_byte b -> Q (inr b) c L) ->
  kwp (W := W) (Socket_recvExactT fuel socket n) c L Q.
Proof.
  revert n Q. induction fuel as [|fuel IH]; intros n Q Hn HE HB; [lia|]. cbn [Socket_recvExactT].
  apply kwp_bind, kwp_env. intros w. pose proof (recv_bound socket n w) as Hb.
  pose proof (recv_error socket n w) as He. destruct (fst (Socket_recvT socket n w)) as [e|bs].
  { apply kwp_ret, HE. specialize (He e eq_refl). lia. }
  destruct (Hb bs eq_refl) as [Hlen Hbytes]. destruct bs as [|x bs]; [by apply kwp_ret, HE|].
  set (l := x :: bs) in *. assert (0 < mlen l) by (unfold l; rewrite mlen_cons; pose proof (mlen_nonneg bs); lia).
  destruct (Z.eqb_spec (n - mlen l) 0).
  - apply kwp_ret, HB; [lia|done].
  - apply kwp_bind, IH; [lia|intros e He'; by apply kwp_ret, HE|]. intros b Hb1 Hb2. apply kwp_ret, HB.
    + rewrite mlen_app. lia.
    + by apply Forall_app_2.
Qed.

(** What an operation of the table may change of a target. *)
Definition kept (i : Info) : Z * Info -> CommKitContext -> Ledger -> CommKitContext -> Ledger -> Prop :=
  fun '(_, i') c L c' L' => c' = c /\ L' = L /\ op_frame i i' /\ rs_ok (ci_priv i').

Lemma lengthInfo_Done b : mlen b = 8 ->
  exists v c, des_ignore Serialization_deserializeInt64 0 b (mkDes 0 8) = Done (v, c) /\ in_s 64 v.
Proof.
  intros Hb. unfold des_ignore, Serialization_deserializeInt64, Serialization_deserializeUInt64,
    mbind, Des_bind. rewrite raw_read by lia. unfold mret, Des_ret. eexists _, _. split; [done|].
  apply swrap_range. lia.
Qed.

Lemma set_priv_frame (i : Info) s : op_frame i (set_priv i s).
Proof. done. Qed.

Lemma prefix_post (i : Info) sock c L :
  rs_ok (ci_priv i) -> rs_receiveFileData (ci_priv i) = false -> ci_socket i = Some sock ->
  kwp (W := W) (__commkit_readfile_recvdata_prefix i) c L (fun r c' L' => kept i r c L c' L').
Proof.
  intros Hok Hrc Es. pose proof Hok as [H1 H2 H3 H4 H5 H6]. rewrite Hrc in H5.
  eapply kwp_bind, kwp_lift; [by rewrite Es|]. apply kwp_bind, recvExact_post; [lia| |].
  { intros e _. by apply kwp_ret. }
  intros b Hb _. destruct (lengthInfo_Done b Hb) as (v & c1 & E & Hv).
  eapply kwp_bind, kwp_lift; [exact E|].
  cbv beta iota zeta. destruct (Z.leb_spec v 0); [by apply kwp_ret|]. unfold in_s in Hv.
  assert (Eu : u64 (rs_transmitted (ci_priv i) + v) = rs_transmitted (ci_priv i) + v)
    by (apply u64_id; lia).
  rewrite H5, Eu. destruct (Z.ltb_spec (rs_totalReadSize (ci_priv i)) (rs_transmitted (ci_priv i) + v));
    [by apply kwp_ret|].
  apply kwp_ret. split_and!; try done. cbn [ci_priv set_priv]. split; cbn; try done. lia.
Qed.

(** The iterator when data is to be received. *)
Definition rs_ready (s : ReadfileState) : ReadfileState :=
  if iter_count (rs_data s) =? 0 then readfile_nextIter s else s.

Lemma rs_ready_ok s : rs_ok s -> rs_receiveFileData s = true ->
  rs_ok (rs_ready s) /\ rs_receiveFileData (rs_ready s) = true /\
  iter_count (rs_data (rs_ready s)) = rs_totalReadSize s - rs_transmitted s /\
  iter_pos (rs_data (rs_ready s)) = iter_pos (rs_vecData s) + rs_transmitted s.
Proof.
  intros [H1 H2 H3 H4 H5 H6] Hrc. rewrite Hrc in H5. unfold rs_ready, iter_at in *.
  destruct (Z.eqb_spec (iter_count (rs_data s)) 0) as [E|E].
  - assert (rs_transmitted s = 0) by lia. unfold readfile_nextIter. cbn. split_and!; try done; try lia.
    split; cbn; rewrite ?Hrc; try done. right. lia.
  - destruct H6 as [[? _]|[E1 E2]]; [done|]. split_and!; try done.
    split; rewrite ?Hrc; try done. by right.
Qed.

Lemma rs_received_ok s b user :
  rs_ok s -> rs_receiveFileData s = true -> iter_count (rs_data s) = rs_totalReadSize s - rs_transmitted s ->
  iter_pos (rs_data s) = iter_pos (rs_vecData s) + rs_transmitted s ->
  mlen user = rs_totalReadSize s -> 0 <= b <= rs_toBeTransmitted s - rs_transmitted s ->
  rs_ok (rs_received s (u64 (rs_transmitted s + b)) (negb (rs_toBeTransmitted s =? u64 (rs_transmitted s + b)))
    (iov_iter_advance (rs_data s) b) user).
Proof.
  intros [H1 H2 H3 H4 H5 H6] Hrc E1 E2 Hu Hb. rewrite Hrc in H5.
  rewrite (u64_id (rs_transmitted s + b)) by lia.
  split; cbn; try done; try lia.
  - destruct (Z.eqb_spec (rs_toBeTransmitted s) (rs_transmitted s + b)); cbn; lia.
  - right. unfold iov_iter_advance. cbn. rewrite E1, E2. lia.
Qed.

Lemma recvdata_read_post (i : Info) sock c L :
  rs_ok (ci_priv i) -> ci_socket i = Some sock ->
  kwp (W := W) (__commkit_readfile_recvdata seg i) c L (fun r c' L' => kept i r c L c' L').
Proof.
  intros Hok Es. unfold __commkit_readfile_recvdata.
  destruct (rs_receiveFileData (ci_priv i)) eqn:Hrc; cbn [negb]; [|by eapply prefix_post].
  cbv zeta. fold (rs_ready (ci_priv i)).
  destruct (rs_ready_ok _ Hok Hrc) as (Hok2 & Hrc2 & E1 & E2).
  set (s := rs_ready (ci_priv i)) in *.
  assert (Es1 : rs_totalReadSize (ci_priv i) = rs_totalReadSize s /\
    rs_transmitted (ci_priv i) = rs_transmitted s /\ rs_vecData (ci_priv i) = rs_vecData s).
  { unfold s, rs_ready. by destruct (_ =? _). }
  destruct Es1 as (T1 & T2 & T3). rewrite T1, T2 in E1. rewrite T2, T3 in E2.
  pose proof Hok2 as [H1 H2 H3 H4 H5 H6]. rewrite Hrc2 in H5.
  rewrite (proj2 (Z.eqb_neq _ _)) by lia. eapply kwp_bind, kwp_lift; [by rewrite Es|].
  pose proof (Hseg (iter_pos (rs_data s))) as Hsg.
  rewrite (u64_id (rs_toBeTransmitted s - rs_transmitted s)) by lia.
  set (missing := Z.min _ _).
  assert (Hmiss : 0 < missing <= rs_toBeTransmitted s - rs_transmitted s) by lia.
  apply kwp_bind, kwp_env. intros w. pose proof (recv_bound sock missing w) as Hb.
  destruct (fst (Socket_recvT sock missing w)) as [e|bs]; [by apply kwp_ret|].
  destruct (Hb bs eq_refl) as [Hlen Hbytes]. pose proof (mlen_nonneg bs).
  eapply kwp_bind, kwp_lift; [apply write_block_Done; lia|]. apply kwp_ret.
  split_and!; try done. cbn [ci_priv set_priv]. apply rs_received_ok; try done; [|lia].
  rewrite mlen_put; lia.
Qed.

Lemma read_prepare_post (i : Info) b c L (Q : Z * Info -> CommKitContext -> Ledger -> Prop) :
  ci_headerBuffer i = Some b -> buffer_wf b ->
  (forall n b', 0 < n <= CONGFS_COMMKIT_MSGBUF_SIZE -> buffer_wf b' ->
     Q (n, set_priv (set_headerBuffer i (Some b')) (rs_restart (ci_priv i))) c L) ->
  kwp (W := W) (prepareHeader (readfileOps io seg) i) c L Q.
Proof.
  intros Eb Hb HQ. apply kwp_bind. eapply request_post; [by apply read_fits| |done|done|].
  - unfold add_flag. by repeat match goal with |- context [if ?x then _ else _] => destruct x end.
  - intros n b' Hn Hb'. by apply kwp_ret, HQ.
Qed.

#[export] Instance readfile_ops : KitOps rs_ok (readfileOps io seg).
Proof.
  split; try done.
  - intros i b c L Eb Hb. eapply read_prepare_post; [done|done|].
    intros n b' Hn Hb'. split_and!; [done|by left|lia|lia|]. by exists b'.
  - intros f i c L [= <-] (_ & [sock Es] & _) Hok. eapply kwp_mono; [|by eapply recvdata_read_post].
    intros [r i'] c' L' (-> & -> & Hf & _). split_and!; [done|by left|done].
  - intros i c Hok. apply cpost_bind. eapply cpost_mono; [|apply cpost_true].
    intros [n i'] c' _. apply cpost_ret. cbn [snd ci_priv set_priv]. by apply rs_restart_ok.
  - intros f [= <-] i c Hok. destruct (ci_socket i) as [sock|] eqn:Es.
    + apply cpost_kwp. intros L. eapply kwp_mono; [|by eapply recvdata_read_post].
      intros [r i'] c' L' (_ & _ & _ & H). exact H.
    + intros s _. unfold __commkit_readfile_recvdata, __commkit_readfile_recvdata_prefix.
      rewrite Es. cbv zeta. destruct (negb _); [done|]. by destruct (_ =? _).
Qed.

End Reading.

(** ** Writing keeps its promises *)

Record ws_ok (s : WritefileState) : Prop := {
  ws_total : 0 < ws_totalWriteSize s < 2 ^ 63;
  ws_vec : iter_count (ws_vecData s) = ws_totalWriteSize s;
  ws_region : mlen (ws_user s) = ws_totalWriteSize s;
  ws_range : 0 <= ws_transmitted s <= ws_totalWriteSize s;
  ws_pending : ws_toBeTransmitted s = 0 \/
    (ws_toBeTransmitted s = ws_totalWriteSize s - ws_transmitted s /\
     iter_at (ws_data s) (ws_vecData s) (ws_transmitted s) (ws_totalWriteSize s)) }.

Lemma ws_restart_ok s : ws_ok s -> ws_ok (ws_restart s).
Proof. intros [H1 H2 H3 H4 H5]. split; cbn; try done; [lia|]. right. split; [lia|]. left. cbn. auto. Qed.

Section Writing.
Context {W : Type} `{!CommEnv W, !CommEnvLaws W} (io : IOContext) (uninit : NetMessageHeader).
Context (Hio : io_ok io).
Notation Info := (CommKitTargetInfo WritefileState).

(** The transfer is under way: what is missing lies behind the iterator. *)
Definition sending (s : WritefileState) : Prop :=
  ws_toBeTransmitted s = ws_totalWriteSize s - ws_transmitted s /\
  iter_count (ws_data s) = ws_totalWriteSize s - ws_transmitted s /\
  iter_pos (ws_data s) = iter_pos (ws_vecData s) + ws_transmitted s.

Lemma ws_advance_ok s n :
  ws_ok s -> sending s -> 0 <= n <= iter_count (ws_data s) ->
  let s' := ws_advance s (u64 (ws_toBeTransmitted s - n)) (u64 (ws_transmitted s + n))
              (iov_iter_advance (ws_data s) n) in
  ws_ok s' /\ sending s' /\ iter_count (ws_data s') = iter_count (ws_data s) - n.
Proof.
  intros [H1 H2 H3 H4 H5] (E1 & E2 & E3) Hn s'. unfold s'.
  rewrite (u64_id (ws_toBeTransmitted s - n)), (u64_id (ws_transmitted s + n)) by lia.
  unfold iov_iter_advance, sending. cbn. split_and!; try lia.
  split; cbn; try done; [lia|]. right. split; [lia|]. right. cbn. lia.
Qed.

Lemma send_loop_post fuel sock r s c L (Q : Z * WritefileState -> CommKitContext -> Ledger -> Prop) :
  ws_ok s -> sending s -> iter_count (ws_data s) <= Z.of_nat fuel ->
  (forall r' s', ws_ok s' -> sending s' -> (r' = r \/ r' <> 0) -> Q (r', s') c L) ->
  kwp (W := W) (send_loop fuel sock r s) c L Q.
Proof.
  revert r s Q. induction fuel as [|fuel IH]; intros r s Q Hok Hs Hn HQ; cbn [send_loop];
    destruct (Z.eqb_spec (iter_count (ws_data s)) 0) as [E0|E0]; try (apply kwp_ret, HQ; auto).
  all: pose proof Hok as [H1 H2 H3 H4 H5]; pose proof Hs as (E1 & E2 & E3); try lia.
  eapply kwp_bind, kwp_lift; [apply read_block_Done; lia|]. apply kwp_bind, kwp_env. intros w.
  match goal with |- context [Socket_send sock ?b w] => set (bytes := b) end.
  assert (Eb : mlen bytes = iter_count (ws_data s)) by (unfold bytes; rewrite mlen_slice; lia).
  clearbody bytes. destruct (send_bound sock bytes w ltac:(lia)) as [Hle Hne].
  destruct (Z.ltb_spec (fst (Socket_send sock bytes w)) 0); [by apply kwp_ret, HQ; auto|].
  assert (Hr : 0 <= fst (Socket_send sock bytes w) <= iter_count (ws_data s)) by (clear -Hle Eb H; lia).
  destruct (ws_advance_ok s _ Hok Hs Hr) as (A1 & A2 & A3).
  apply IH; [done|done|lia|]. intros r' s' B1 B2 B3. apply HQ; [done|done|]. right.
  destruct B3; [congruence|done].
Qed.

(** The iterator when data is to be sent. *)
Definition ws_ready (s : WritefileState) : WritefileState :=
  if iter_count (ws_data s) =? 0 then writefile_nextIter s else s.

Lemma ws_ready_ok s : ws_ok s -> ws_toBeTransmitted s <> 0 ->
  ws_ok (ws_ready s) /\ sending (ws_ready s) /\ 0 < iter_count (ws_data (ws_ready s)).
Proof.
  intros [H1 H2 H3 H4 H5] Hne. destruct H5 as [|[E1 H5]]; [done|]. unfold ws_ready, iter_at, sending in *.
  destruct (Z.eqb_spec (iter_count (ws_data s)) 0) as [E|E].
  - assert (ws_transmitted s = 0) by lia. unfold writefile_nextIter. cbn. split_and!; try lia.
    split; cbn; try done. right. split; [lia|]. right. lia.
  - destruct H5 as [[? _]|[E2 E3]]; [done|]. split_and!; try lia. split; try done. right.
    split; [done|]. by right.
Qed.

Definition wkept (i : Info) : Z * Info -> CommKitContext -> Ledger -> CommKitContext -> Ledger -> Prop :=
  fun '(_, i') c L c' L' => c' = c /\ L' = L /\ op_frame i i' /\ ws_ok (ci_priv i').

Lemma sendData_post (i : Info) sock c L :
  ws_ok (ci_priv i) -> ci_socket i = Some sock ->
  kwp (W := W) (__commkit_writefile_sendData i) c L (fun r c' L' => wkept i r c L c' L').
Proof.
  intros Hok Es. unfold __commkit_writefile_sendData.
  destruct (Z.eqb_spec (ws_toBeTransmitted (ci_priv i)) 0); [by apply kwp_ret|]. cbv zeta.
  fold (ws_ready (ci_priv i)). destruct (ws_ready_ok _ Hok) as (Hok2 & Hs & Hc); [done|].
  set (s := ws_ready (ci_priv i)) in *. rewrite (proj2 (Z.eqb_neq _ _)) by lia.
  eapply kwp_bind, kwp_lift; [by rewrite Es|]. apply kwp_bind, send_loop_post; [done|done|lia|].
  intros r' s' Hok' _ _. cbv beta iota zeta.
  destruct (_ && _); [by apply kwp_ret|]. destruct (_ =? _); by apply kwp_ret.
Qed.

Lemma write_recvHeader_post (i : Info) c L :
  has_conn i ->
  kwp (W := W) (__commkit_writefile_recvHeader io uninit i) c L (fun '(r, i') c' L' =>
    L' = L /\ ctx_frame c c' /\ op_frame i i' /\ ci_priv i' = ci_priv i).
Proof.
  intros (_ & _ & (b & Eb & Hb) & Hh). apply kwp_bind.
  apply (parse_post _ _ _ _ _ b (in_s 64)); try done.
  - intros h. by apply safe_int64, buffer_msg_wf.
  - apply kwp_ret. split_and!; try done. by left.
  - intros v _. apply kwp_bind, kwp_get_ctx, kwp_bind. destruct (_ && _).
    + apply kwp_upd_ctx, kwp_ret. split_and!; try done. by right.
    + apply kwp_ret, kwp_ret. split_and!; try done. by left.
Qed.

Lemma parse_keeps {P A R} (mops : NetMessageOps P A) t (info : CommKitTargetInfo R) :
  keeps (W := W) (parse_message io uninit mops t info).
Proof.
  apply keeps_bind; [apply keeps_lift|intros b]. apply keeps_bind; [apply keeps_lift|].
  intros [q h]. apply keeps_ret.
Qed.

#[export] Instance writefile_ops : KitOps ws_ok (writefileOps io uninit).
Proof.
  split; try done.
  - intros i b c L Eb Hb. apply kwp_bind. eapply request_post; [by apply write_fits| |done|done|].
    + unfold add_flag. by repeat match goal with |- context [if ?x then _ else _] => destruct x end.
    + intros n b' Hn Hb'. apply kwp_ret. split_and!; [done|by left|lia|lia|]. by exists b'.
  - intros f i c L [= <-] (_ & [sock Es] & _) Hok. eapply kwp_mono; [|by eapply sendData_post].
    intros [r i'] c' L' (-> & -> & Hf & _). split_and!; [done|by left|done].
  - intros f i c L [= <-] Hc Hok. eapply kwp_mono; [|by apply write_recvHeader_post].
    intros [r i'] c' L' (-> & Hf & Ho & _). done.
  - intros i c Hok. apply cpost_bind. eapply cpost_mono; [|apply cpost_true].
    intros [n i'] c' _. apply cpost_ret. cbn [snd ci_priv set_priv]. by apply ws_restart_ok.
  - intros f [= <-] i c Hok. destruct (ci_socket i) as [sock|] eqn:Es.
    + apply cpost_kwp. intros L. eapply kwp_mono; [|by eapply sendData_post].
      intros [r i'] c' L' (_ & _ & _ & H). exact H.
    + intros s _. unfold __commkit_writefile_sendData. rewrite Es. cbv zeta.
      destruct (_ =? _); [done|]. by destruct (_ =? _).
  - intros f [= <-] i c Hok. apply cpost_bind, cpost_keeps; [apply parse_keeps|].
    intros [v|]; [|by apply cpost_ret]. apply cpost_bind, cpost_get, cpost_bind.
    eapply cpost_mono; [|apply cpost_true]. intros _ ? _. by apply cpost_ret.
Qed.

End Writing.

(** ** Reading never reaches the default case *)

Section NoCrash.
Context {W : Type} `{!CommEnv W, !CommEnvLaws W} (io : IOContext) (seg : Z -> Z).
Context (Hio : io_ok io) (Hseg : forall p, 0 < seg p) (ioPattern : option Z) (maxNumRetries : Z).
Notation Info := (CommKitTargetInfo ReadfileState).
Notation ops := (readfileOps (W := W) io seg).
Notation alive := (fun i' (_ : CommKitContext) => ~ crashed (P := ReadfileState) i').

Lemma alive_state (i : Info) st : ci_state i = st -> st <> - CommKitState_SOCKETINVALIDATE -> ~ crashed i.
Proof. unfold crashed. by intros ->. Qed.

Lemma cleanup_alive (i : Info) c :
  cpost (W := W) (__commkit_cleanup_generic ops maxNumRetries i) c alive.
Proof.
  do 2 (apply cpost_bind; eapply cpost_mono; [|apply cpost_true]; intros _ ? _).
  apply cpost_bind; eapply cpost_mono; [|apply cpost_true]; intros i1 c1 _. cbv zeta.
  assert (HD : forall (j : Info) (c' : CommKitContext), cpost (W := W)
    (_ ← upd_ctx (add_done 1); mret (set_state j CommKitState_DONE)) c' alive)
    by (intros; by apply cpost_bind, cpost_upd, cpost_ret).
  destruct (_ || _); [|apply HD]. apply cpost_bind, cpost_env. intros w.
  destruct (fst _); [apply HD|]. apply cpost_bind, cpost_env. intros w2. apply cpost_bind, cpost_get.
  destruct (_ && _); [|apply HD]. by apply cpost_bind, cpost_upd, cpost_ret.
Qed.

Lemma recvdata_state (i : Info) c :
  rs_ok (ci_priv i) ->
  cpost (W := W) (__commkit_readfile_recvdata seg i) c (fun '(_, i') _ => ci_state i' = ci_state i).
Proof.
  intros Hok. destruct (ci_socket i) as [sock|] eqn:Es.
  - apply cpost_kwp. intros L. eapply kwp_mono; [|by eapply recvdata_read_post].
    intros [r i'] c' L' (_ & _ & H & _). apply H.
  - intros s _. unfold __commkit_readfile_recvdata, __commkit_readfile_recvdata_prefix.
    rewrite Es. cbv zeta. destruct (negb _); [done|]. by destruct (_ =? _).
Qed.

Lemma io_state (i : Info) ev c :
  ~ crashed i ->
  cpost (W := W) (__commkit_prepare_io i ev) c (fun '(r, i') _ =>
    if r then i' = i else ~ crashed i').
Proof.
  intros Hi. apply cpost_bind, cpost_env. intros w. apply cpost_bind.
  eapply cpost_mono; [|apply cpost_true]. intros inactive c1 _.
  destruct (_ || _); [by apply cpost_ret|]. apply cpost_bind, cpost_get.
  destruct (pollTimedOut c1); [by apply cpost_ret|]. apply cpost_bind, cpost_lift. intros sock _.
  apply cpost_bind. eapply cpost_mono; [|apply cpost_true]. intros v c2 _.
  destruct (_ =? _); [|by apply cpost_ret]. apply cpost_bind.
  eapply cpost_mono; [|apply cpost_true]. intros [] c3 _. by apply cpost_ret.
Qed.

Lemma recvdata_alive (i : Info) c :
  rs_ok (ci_priv i) -> ~ crashed i ->
  cpost (W := W) (__commkit_recvdata_generic (__commkit_readfile_recvdata seg) i) c alive.
Proof.
  intros Hok Hi. apply cpost_bind. eapply cpost_mono; [|by apply io_state].
  intros [r i1] c1 H1. destruct r; cbn [negb]; [subst i1|by apply cpost_ret].
  apply cpost_bind. eapply cpost_mono; [|by apply recvdata_state]. intros [r i2] c2 Est.
  destruct (r <? 0); [apply cpost_ret; by destruct (_ =? _)|]. destruct (r =? 0); [by apply cpost_ret|].
  apply cpost_bind. eapply cpost_mono; [|apply cpost_true]. intros [] c3 _. apply cpost_ret.
  unfold crashed in *. by rewrite Est.
Qed.

Lemma step_alive (i : Info) c :
  rs_ok (ci_priv i) -> ~ crashed i ->
  cpost (W := W) (commkit_step ops ioPattern maxNumRetries i) c alive.
Proof.
  intros Hok Hi. unfold commkit_step. unfold is_state at 1.
  destruct (Z.eqb_spec (ci_state i) CommKitState_PREPARE) as [E|_].
  { apply cpost_bind. eapply cpost_mono; [|by eapply prepare_states; [apply readfile_ops|]].
    intros [r i'] c' HP. destruct r; cbn [negb].
    - eapply cpost_mono; [|apply sendheader_states]. intros ? ? [E2|E2]; by eapply alive_state.
    - apply cpost_ret. destruct HP as [|[E2|[E2 _]]]; [done|by eapply alive_state..]. }
  destruct (is_state i _).
  { eapply cpost_mono; [|apply sendheader_states]. intros ? ? [E2|E2]; by eapply alive_state. }
  unfold senddata_case, recvheader_case, recvdata_case. cbn [sendData recvHeader recvData readfileOps].
  do 3 (destruct (is_state i _); [by apply recvdata_alive|]).
  destruct (is_state i _); [apply cleanup_alive|]. destruct (is_state i _).
  { apply cpost_bind. eapply cpost_mono; [|apply cpost_true]. intros ? ? _. apply cleanup_alive. }
  destruct (_ || _); [by apply cpost_ret|]. by intros s _.
Qed.

Lemma round_alive (l : list Info) c :
  Forall (okp rs_ok) l -> Forall (fun i => ~ crashed i) l ->
  cpost (W := W) (commkit_round ops ioPattern maxNumRetries l) c (fun l' _ => Forall (fun i => ~ crashed i) l').
Proof.
  intros Hok Hl. apply cpost_bind, cpost_upd, cpost_bind.
  apply (cpost_mono _ _ (fun l' _ => Forall (fun i => ~ crashed i) l')).
  - intros l' c' Hl'. apply cpost_bind, cpost_get. destruct (negb _).
    { apply cpost_bind. eapply cpost_mono; [|apply cpost_true]. intros _ ? _. by apply cpost_ret. }
    destruct (_ && _); [|by apply cpost_ret]. eapply cpost_mono; [|by apply start_retry_down].
    by intros l2 c2 (_ & ? & _).
  - generalize (ctx_start_round c). clear c. revert Hok. induction Hl as [|i l Hi Hl IH]; intros Hok c;
      cbn [commkit_steps]; [by apply cpost_ret|]. inversion_clear Hok as [|?? Hok1 Hok2].
    apply cpost_bind. eapply cpost_mono; [|by apply step_alive]. intros i' c' Hi'.
    apply cpost_bind. eapply cpost_mono; [|by apply IH]. intros l' c2 Hl'. apply cpost_ret. by constructor.
Qed.

Context (Hmax : 0 <= maxNumRetries < 2 ^ 32).

Lemma reached_alive (l0 l : list Info) s0 s :
  Forall fresh l0 -> Forall (okp rs_ok) l0 -> Z.of_nat (length l0) < 2 ^ 31 - 1 -> held s0 = lempty ->
  reached ops ioPattern maxNumRetries l0 s0 l s ->
  (length l = length l0 /\ inv maxNumRetries l (ctx s) (held s)) /\ Forall (okp rs_ok) l /\
  Forall (fun i => ~ crashed i) l.
Proof.
  intros Hf Hok0 Hn Hs0. pose proof (readfile_ops io seg Hio Hseg) as HK. induction 1 as [|l s l' s' Hr ([El HI] & Hok & Ha) E _].
  - cbn [ctx held]. rewrite Hs0. split_and!; [done|apply fresh_inv; [lia|done]|done|by apply fresh_sound].
  - pose proof (kwp_and_cpost _ _ _ _ _
      (round_ok ops ioPattern maxNumRetries Hmax rs_ok l _ _ HI Ha Hok ltac:(by rewrite El))
      (round_alive l (ctx s) Hok Ha) s eq_refl eq_refl) as H.
    rewrite E in H. destruct H as (([El' HI'] & Hok') & Ha'). split_and!; [congruence|done..].
Qed.
End NoCrash.

Section ReadRuns.
Context {W : Type} `{!CommEnv W, !CommEnvLaws W} (io : IOContext) (seg : Z -> Z).

(** C13: reading a file cannot crash or leak.  Whatever servers and network send,
    [FhgfsOpsCommKit_readfileV2bCommunicate] runs without a fault for any number of
    rounds: nothing is stored outside the regions of the user's buffer, no
    [BUG_ON] and no default case is reached; the loop ends exactly when all targets
    are done, and then everything acquired is given back. *)
Theorem read_runs (maxNumRetries : Z) (l : list (CommKitTargetInfo ReadfileState)) (s : Mach W)
    (fuel : nat) :
  io_ok io -> (forall p, 0 < seg p) -> 0 <= maxNumRetries < 2 ^ 32 ->
  Z.of_nat (length l) < 2 ^ 31 - 1 -> Forall fresh l -> Forall (okp rs_ok) l -> held s = lempty ->
  exists r s', FhgfsOpsCommKit_readfileV2bCommunicate io seg maxNumRetries fuel l s = Done (r, s') /\
    ended_ok maxNumRetries l r s'.
Proof.
  intros Hio Hseg Hmax Hn Hf Hok Hs. pose proof (readfile_ops io seg Hio Hseg) as HK.
  unfold FhgfsOpsCommKit_readfileV2bCommunicate.
  assert (HI : inv maxNumRetries l ctx_init (held s)) by (rewrite Hs; apply fresh_inv; [lia|done]).
  destruct (rounds_cases (readfileOps io seg) (Some (io_patternType io)) maxNumRetries rs_ok Hmax fuel
    l s l (mkMach (world s) ctx_init (revents s) (held s))) as [H|(l' & s' & Hr & Hc)]; try done.
  - constructor.
  - eapply reached_alive in Hr as (_ & _ & Ha); [|done..]. apply Forall_Exists_neg in Ha as [].
    eapply Exists_impl; [exact Hc|]. by intros ? [].
Qed.
End ReadRuns.

(** A file handle, and one target to read four bytes from. *)
Definition io_ex : IOContext := mkIOC 0 3 false false [49] 1 (mkPI 0 0 None) 1 0 0.
Definition read_ex : CommKitTargetInfo ReadfileState :=
  FhgfsOpsCommKit_initReadfileState 0 4 5 (mkIter 0 4) [0; 0; 0; 0].

Lemma io_ex_ok : io_ok io_ex.
Proof.
  unfold io_ok, short_bytes, pathinfo_wf. cbn. split_and!; try done; by repeat constructor.
Qed.

Lemma read_ex_ok : rs_ok (ci_priv read_ex).
Proof. split; cbn; try done. left. cbn. auto. Qed.

Lemma read_runs_witness : exists r s',
  FhgfsOpsCommKit_readfileV2bCommunicate (CommEnv0 := Small.env false None) io_ex (fun _ => 1) 0 20 [read_ex]
    (Small.start (le_split 8 2 ++ [7; 8] ++ le_split 8 0)) = Done (r, s') /\ ended_ok 0 [read_ex] r s'.
Proof.
  exact (read_runs (CommEnv0 := Small.env false None) (CommEnvLaws0 := Small.laws false None) io_ex
    (fun _ => 1) 0 [read_ex] (Small.start (le_split 8 2 ++ [7; 8] ++ le_split 8 0)) 20 io_ex_ok
    ltac:(lia) ltac:(lia) ltac:(by vm_compute) ltac:(by repeat constructor)
    ltac:(apply Forall_singleton; exact read_ex_ok) ltac:(reflexivity)).
Defined.

(** The run of the witness: two bytes, then the end of the file. *)
Example read_run :
  match FhgfsOpsCommKit_readfileV2bCommunicate (CommEnv0 := Small.env false None) io_ex (fun _ => 1) 0 20 [read_ex]
    (Small.start (le_split 8 2 ++ [7; 8] ++ le_split 8 0)) with
  | Done ((l, ended), s) => (ci_state <$> l, ci_nodeResult <$> l, (fun i => rs_user (ci_priv i)) <$> l, ended)
  | Fault => ([], [], [], false)
  end = ([CommKitState_DONE], [2], [[7; 8; 0; 0]], true).
Proof. by vm_compute. Qed.

(** ** What is read is what was sent *)

(** A connection delivers a stream of bytes, in pieces of any size. *)
Class ByteStream (W : Type) `{!CommEnv W} (socket : Z) (stream : W -> mem) : Prop :=
  stream_recv n w : 0 < n -> stream w <> [] -> exists k w',
    Socket_recvT socket n w = (inr (take k (stream w)), w') /\
    (0 < k <= length (stream w))%nat /\ Z.of_nat k <= n /\ stream w' = drop k (stream w).

(** The server's answer: pieces of the file with their lengths, then 0 for the end
    or a negative error code. *)
Definition enc_pieces (ds : list mem) (last : Z) : mem :=
  concat ((fun d => le_split 8 (mlen d) ++ d) <$> ds) ++ le_split 8 (u64 last).

Section Reassembly.
Context {W : Type} `{!CommEnv W} (seg : Z -> Z) (Hseg : forall p, 0 < seg p).
Context (socket : Z) (stream : W -> mem) `{!ByteStream W socket stream}.
Notation Info := (CommKitTargetInfo ReadfileState).

(** [recvData] until it says that nothing more is to come. *)
Fixpoint read_loop (fuel : nat) (info : Info) : M W (Z * Info) :=
  '(r, info) ← __commkit_readfile_recvdata seg info;
  match fuel with
  | S fuel => if 0 <? r then read_loop fuel info else mret (r, info)
  | O => mret (r, info)
  end.

Lemma recvExact_stream fuel n (m : Mach W) :
  0 < n <= Z.of_nat fuel -> n <= mlen (stream (world m)) ->
  exists w', Socket_recvExactT fuel socket n m = Done (inr (take (Z.to_nat n) (stream (world m))), at_world m w') /\
    stream w' = drop (Z.to_nat n) (stream (world m)).
Proof.
  revert n m. induction fuel as [|fuel IH]; intros n m Hn Hlen; [lia|]. cbn [Socket_recvExactT].
  unfold mlen in Hlen.
  destruct (stream_recv n (world m)) as (k & w & E & Hk & Hkn & Hs); [lia|intros E; rewrite E in Hlen; cbn in Hlen; lia|].
  rewrite run_env, E. cbn [fst snd].
  assert (Ht : length (take k (stream (world m))) = k) by (rewrite length_take; lia).
  destruct (take k (stream (world m))) as [|x l] eqn:Et; [cbn in Ht; lia|]. rewrite <- Et in *. clear x l Et.
  assert (El : mlen (take k (stream (world m))) = Z.of_nat k) by (unfold mlen; by rewrite Ht).
  cbv zeta. rewrite El. destruct (Z.eqb_spec (n - Z.of_nat k) 0) as [E0|E0].
  - exists w. replace (Z.to_nat n) with k by lia. done.
  - destruct (IH (n - Z.of_nat k) (at_world m w)) as (w' & E' & Hs'); [lia|..].
    { cbn [at_world world]. rewrite Hs. unfold mlen. rewrite length_drop. lia. }
    rewrite (run_done _ _ _ _ _ E'). cbn [at_world world ctx revents held] in *. rewrite Hs in *. exists w'.
    rewrite drop_drop in Hs'. replace (k + Z.to_nat (n - Z.of_nat k))%nat with (Z.to_nat n) in Hs' by lia.
    split; [|done]. unfold mret, M_ret, at_world. cbn. do 3 f_equal.
    rewrite <- (take_drop k (take (Z.to_nat n) (stream (world m)))).
    rewrite take_take, skipn_firstn_comm. do 2 f_equal; lia.
Qed.

(** [got] has been stored, [pend] of the current piece is still to come. *)
Record reading (s0 : ReadfileState) (got pend : mem) (i : Info) : Prop := {
  rd_ok : rs_ok (ci_priv i);
  rd_socket : ci_socket i = Some socket;
  rd_region : mlen (rs_user s0) = rs_totalReadSize s0;
  rd_total : rs_totalReadSize (ci_priv i) = rs_totalReadSize s0;
  rd_got : rs_transmitted (ci_priv i) = mlen got;
  rd_pend : rs_toBeTransmitted (ci_priv i) = mlen got + mlen pend;
  rd_receive : rs_receiveFileData (ci_priv i) = bool_decide (pend <> []);
  rd_user : rs_user (ci_priv i) = put (rs_user s0) 0 got }.

Lemma lengthInfo_read v : in_s 64 v ->
  exists c, des_ignore Serialization_deserializeInt64 0 (le_split 8 (u64 v)) (mkDes 0 8) = Done (v, c).
Proof.
  intros Hv. unfold des_ignore.
  rewrite (reads (Reads := reads_int64 v Hv) (le_split 8 (u64 v)) 0 8); [by eexists|lia| |done|done].
  change (mlen (le_split 8 (u64 v))) with 8. unfold slice. by rewrite firstn_all2 by done.
Qed.

Lemma take_le8 v (rest : mem) : take (Z.to_nat 8) (le_split 8 v ++ rest) = le_split 8 v /\
  drop (Z.to_nat 8) (le_split 8 v ++ rest) = rest.
Proof. split; reflexivity. Qed.

(** The eight bytes of a length. *)
Lemma header_read (i : Info) s0 got v rest (m : Mach W) :
  reading s0 got [] i -> in_s 64 v -> stream (world m) = le_split 8 (u64 v) ++ rest ->
  exists w', stream w' = rest /\
    __commkit_readfile_recvdata seg i m =
      (let s := ci_priv i in
       if v <=? 0 then
         Done ((0, set_nodeResult i (if v <? 0 then v else s64 (rs_transmitted s))), at_world m w')
       else if rs_totalReadSize s <? u64 (rs_transmitted s + v) then Done ((- EREMOTEIO, i), at_world m w')
       else Done ((1, set_priv i (rs_announce s (u64 (rs_toBeTransmitted s + v)))), at_world m w')).
Proof.
  intros [H1 H2 _ H3 H4 H5 H6 H7] Hv Es.
  destruct (recvExact_stream 8 8 m ltac:(lia)) as (w' & E & Hw').
  { rewrite Es, mlen_app, mlen_le8. pose proof (mlen_nonneg rest). lia. }
  rewrite Es in E, Hw'. rewrite (proj1 (take_le8 _ _)) in E. rewrite (proj2 (take_le8 _ _)) in Hw'.
  exists w'. split; [done|]. unfold __commkit_readfile_recvdata. rewrite H6, bool_decide_false by auto.
  cbn [negb]. unfold __commkit_readfile_recvdata_prefix. cbv zeta.
  erewrite run_lift by (by rewrite H2). rewrite (run_done _ _ _ _ _ E).
  destruct (lengthInfo_read v Hv) as [c Ec]. erewrite run_lift by exact Ec. cbv beta iota.
  destruct (v <=? 0); [done|]. by destruct (_ <? _).
Qed.

Lemma piece_announced (i : Info) s0 got d rest (m : Mach W) :
  reading s0 got [] i -> d <> [] -> mlen got + mlen d <= rs_totalReadSize s0 ->
  stream (world m) = le_split 8 (u64 (mlen d)) ++ rest ->
  exists w' i', __commkit_readfile_recvdata seg i m = Done ((1, i'), at_world m w') /\
    stream w' = rest /\ reading s0 got d i'.
Proof.
  intros HR Hd Hfit Es. pose proof HR as [H1 H2 Hreg H3 H4 H5 H6 H7]. pose proof (mlen_nonneg got).
  assert (0 < mlen d) by (destruct d; [done|rewrite mlen_cons; pose proof (mlen_nonneg d); lia]).
  pose proof (rs_total _ H1) as Ht. rewrite H3 in Ht.
  destruct (header_read i s0 got (mlen d) rest m HR ltac:(unfold in_s; lia) Es) as (w' & Hw & E).
  cbv zeta in E. rewrite H3, H4, H5, mlen_nil in E. rewrite (proj2 (Z.leb_gt _ _)) in E by lia.
  rewrite !u64_id in E by lia. rewrite (proj2 (Z.ltb_ge _ _)) in E by lia.
  eexists w', _. split; [exact E|]. split; [done|].
  pose proof H1 as [G1 G2 G3 G4 G5 G6].
  split; cbn; try done; [|lia|by rewrite bool_decide_true].
  split; cbn; try done. lia.
Qed.

Lemma piece_received (i : Info) s0 got pend rest (m : Mach W) :
  reading s0 got pend i -> pend <> [] -> stream (world m) = pend ++ rest ->
  exists k w' i', __commkit_readfile_recvdata seg i m = Done ((1, i'), at_world m w') /\
    (0 < k <= length pend)%nat /\ stream w' = drop k pend ++ rest /\
    reading s0 (got ++ take k pend) (drop k pend) i'.
Proof.
  intros [H1 H2 Hreg H3 H4 H5 H6 H7] Hp Es. rewrite bool_decide_true in H6 by done.
  destruct (rs_ready_ok _ H1 H6) as (K1 & K2 & K3 & K4).
  unfold __commkit_readfile_recvdata. rewrite H6. cbn [negb]. cbv zeta. fold (rs_ready (ci_priv i)).
  assert (Eq : rs_totalReadSize (rs_ready (ci_priv i)) = rs_totalReadSize (ci_priv i) /\
    rs_transmitted (rs_ready (ci_priv i)) = rs_transmitted (ci_priv i) /\
    rs_vecData (rs_ready (ci_priv i)) = rs_vecData (ci_priv i) /\
    rs_toBeTransmitted (rs_ready (ci_priv i)) = rs_toBeTransmitted (ci_priv i) /\
    rs_user (rs_ready (ci_priv i)) = rs_user (ci_priv i)).
  { unfold rs_ready. by destruct (_ =? _). }
  set (s := rs_ready (ci_priv i)) in *. destruct Eq as (T1 & T2 & T3 & T4 & T5).
  pose proof K1 as [G1 G2 G3 G4 G5 G6]. rewrite K2 in G5.
  pose proof (mlen_nonneg got). pose proof (mlen_nonneg pend).
  rewrite (proj2 (Z.eqb_neq _ _)) by lia. erewrite run_lift by (by rewrite H2).
  pose proof (Hseg (iter_pos (rs_data s))).
  rewrite (u64_id (rs_toBeTransmitted s - rs_transmitted s)) by lia. set (missing := Z.min _ _).
  assert (Hmiss : 0 < missing <= mlen pend) by lia. clearbody missing.
  destruct (stream_recv missing (world m)) as (k & w & E & Hk & Hkn & Hs); [lia| |].
  { rewrite Es. by destruct pend. }
  rewrite run_env, E. cbn [fst snd].
  assert (Hkp : (k <= length pend)%nat) by (unfold mlen in *; lia).
  rewrite Es in *. rewrite take_app_le in * by done.
  assert (El : mlen (take k pend) = Z.of_nat k) by (unfold mlen; rewrite length_take; lia).
  assert (Ed : mlen (drop k pend) = mlen pend - Z.of_nat k) by (unfold mlen in *; rewrite length_drop; lia).
  assert (Hpos : iter_pos (rs_data s) - iter_pos (rs_vecData s) = 0 + mlen got) by (rewrite K4, T3, H4; lia).
  erewrite run_lift by (apply write_block_Done; [lia|rewrite El, Hpos; lia]).
  exists k, w. eexists. split; [done|]. split; [lia|]. split; [by rewrite Hs, drop_app_le by done|].
  rewrite El, T2, H4, u64_id, T4, H5 by lia.
  pose proof (rs_received_ok s (Z.of_nat k) (put (rs_user s) (iter_pos (rs_data s) - iter_pos (rs_vecData s))
    (take k pend)) K1 K2 ltac:(lia) ltac:(lia) ltac:(rewrite mlen_put; lia) ltac:(lia)) as HR.
  rewrite T2, H4, u64_id, T4, H5 in HR by lia.
  split; cbn [ci_priv set_priv ci_socket rs_received rs_totalReadSize rs_transmitted rs_toBeTransmitted
    rs_receiveFileData rs_user].
  - exact HR.
  - done.
  - done.
  - congruence.
  - rewrite mlen_app, El. done.
  - rewrite mlen_app, El, Ed. lia.
  - destruct (Z.eqb_spec (mlen got + mlen pend) (mlen got + Z.of_nat k)) as [E1|E1]; cbn.
    + rewrite bool_decide_false; [done|]. intros Hne. apply Hne, nil_length_inv. unfold mlen in *. lia.
    + rewrite bool_decide_true; [done|]. intros Hne. rewrite Hne, mlen_nil in Ed. lia.
  - rewrite Hpos, T5, H7. apply put_app; [lia|]. rewrite mlen_app, El.
    lia.
Qed.

Lemma enc_pieces_cons d ds last :
  enc_pieces (d :: ds) last = le_split 8 (mlen d) ++ d ++ enc_pieces ds last.
Proof. unfold enc_pieces. cbn [fmap list_fmap concat]. by rewrite <- !app_assoc. Qed.

Lemma enc_pieces_length ds last : (8 <= length (enc_pieces ds last))%nat.
Proof. unfold enc_pieces. rewrite length_app, length_le_split. lia. Qed.

Lemma read_loop_run (s0 : ReadfileState) ds last rest fuel got pend (i : Info) (m : Mach W) :
  reading s0 got pend i -> stream (world m) = pend ++ enc_pieces ds last ++ rest ->
  Forall (fun d => d <> []) ds -> mlen got + mlen pend + mlen (concat ds) <= rs_totalReadSize s0 ->
  - 2 ^ 63 <= last <= 0 -> (length pend + length (enc_pieces ds last) <= fuel)%nat ->
  let all := got ++ pend ++ concat ds in
  exists i' w', read_loop fuel i m = Done ((0, i'), at_world m w') /\ stream w' = rest /\
    ci_nodeResult i' = (if last <? 0 then last else mlen all) /\
    rs_user (ci_priv i') = put (rs_user s0) 0 all.
Proof.
  revert ds got pend i m. induction fuel as [|fuel IH]; intros ds got pend i m HR Es Hds Hfit Hl Hf.
  { pose proof (enc_pieces_length ds last). lia. }
  cbn [read_loop]. pose proof (mlen_nonneg got). pose proof (mlen_nonneg pend).
  destruct (decide (pend = [])) as [->|Hp].
  - cbn [app] in *. destruct ds as [|d ds].
    + destruct (header_read i s0 got last rest m HR ltac:(unfold in_s; lia) Es) as (w' & Hw & E).
      cbv zeta in E. rewrite (proj2 (Z.leb_le _ _)) in E by lia. rewrite (run_done _ _ _ _ _ E).
      cbn [Z.ltb Z.compare]. eexists _, w'. split; [done|]. split; [done|]. cbn [concat]. rewrite app_nil_r.
      cbn [ci_nodeResult set_nodeResult ci_priv]. split; [|apply HR].
      rewrite (rd_got _ _ _ _ HR). destruct (last <? 0); [done|]. apply swrap_id; [lia|].
      pose proof (rs_total _ (rd_ok _ _ _ _ HR)) as Ht. rewrite (rd_total _ _ _ _ HR) in Ht.
      cbn [concat] in Hfit. rewrite !mlen_nil in Hfit. unfold in_s. lia.
    + inversion_clear Hds as [|?? Hd Hds']. rewrite enc_pieces_cons in Es, Hf.
      cbn [concat] in Hfit. rewrite mlen_app, mlen_nil in Hfit. pose proof (mlen_nonneg d).
      pose proof (mlen_nonneg (concat ds)).
      pose proof (rs_total _ (rd_ok _ _ _ _ HR)) as Ht. rewrite (rd_total _ _ _ _ HR) in Ht.
      destruct (piece_announced i s0 got d (d ++ enc_pieces ds last ++ rest) m HR Hd ltac:(lia))
        as (w1 & i1 & E1 & Hs1 & HR1).
      { rewrite Es, u64_id by lia. by rewrite <- !app_assoc. }
      rewrite (run_done _ _ _ _ _ E1). cbn [Z.ltb Z.compare].
      destruct (IH ds got d i1 (at_world m w1) HR1 Hs1 Hds' ltac:(lia) Hl) as (i' & w' & E & F2 & F3 & F4).
      { rewrite !length_app, length_le_split in Hf. lia. }
      exists i', w'. rewrite E. done.
  - destruct (piece_received i s0 got pend (enc_pieces ds last ++ rest) m HR Hp Es)
      as (k & w1 & i1 & E1 & Hk & Hs1 & HR1).
    rewrite (run_done _ _ _ _ _ E1). cbn [Z.ltb Z.compare].
    assert (Hsplit : mlen (got ++ take k pend) + mlen (drop k pend) = mlen got + mlen pend).
    { rewrite mlen_app. unfold mlen. rewrite length_take, length_drop. lia. }
    destruct (IH ds _ _ i1 (at_world m w1) HR1 Hs1 Hds ltac:(lia) Hl) as (i' & w' & E & F2 & F3 & F4).
    { rewrite length_drop. lia. }
    exists i', w'. rewrite E. rewrite <- app_assoc, (app_assoc (take k pend)), take_drop in F3, F4. done.
Qed.
End Reassembly.

(** C15: what is read is what was sent.  However the connection cuts the server's
    answer into pieces and however the user's buffer is segmented, when the server
    sends non-empty pieces of the file within what was requested, each with its
    length, and then 0 or a negative error code, the receive operation ends after at
    most as many calls as the answer has bytes; it has consumed exactly the answer,
    the user's region holds the concatenated pieces and is otherwise unchanged, and
    the result is the number of bytes read, or the server's error code. *)
Theorem read_reassembly {W : Type} `{!CommEnv W} (seg : Z -> Z) (socket : Z) (stream : W -> mem)
    (i : CommKitTargetInfo ReadfileState) (ds : list mem) (last : Z) (rest : mem) (m : Mach W)
    (fuel : nat) :
  ByteStream W socket stream -> (forall p, 0 < seg p) ->
  rs_ok (ci_priv i) -> rs_transmitted (ci_priv i) = 0 -> rs_receiveFileData (ci_priv i) = false ->
  ci_socket i = Some socket ->
  Forall (fun d => d <> []) ds -> mlen (concat ds) <= rs_totalReadSize (ci_priv i) ->
  - 2 ^ 63 <= last <= 0 -> stream (world m) = enc_pieces ds last ++ rest ->
  (length (enc_pieces ds last) <= fuel)%nat ->
  exists i' w', read_loop seg fuel i m = Done ((0, i'), at_world m w') /\ stream w' = rest /\
    ci_nodeResult i' = (if last <? 0 then last else mlen (concat ds)) /\
    rs_user (ci_priv i') = put (rs_user (ci_priv i)) 0 (concat ds).
Proof.
  intros HB Hseg Hok Ht Hr Hs Hds Hfit Hl Es Hf. pose proof Hok as [H1 H2 H3 H4 H5 H6].
  apply (read_loop_run seg Hseg socket stream (ci_priv i) ds last rest fuel [] [] i m); try done.
  rewrite Hr in H5. split; try done.
  by rewrite H5, Ht.
Qed.

(** The world of [Small.env] is such a stream. *)
Lemma small_stream socket :
  ByteStream (CommEnv0 := Small.env false None) mem socket (fun w => u8 <$> w).
Proof.
  intros n w Hn Hw. exists (Nat.min (Z.to_nat n) (length w)), (drop (Z.to_nat n) w).
  cbn. rewrite !length_fmap. assert (w <> []) by (by intros ->).
  assert (length w <> 0)%nat by (by destruct w). rewrite fmap_take, fmap_drop. split_and!; [|lia..|].
  - f_equal. f_equal. destruct (decide (Z.to_nat n <= length w)%nat).
    + by rewrite Nat.min_l by done.
    + rewrite Nat.min_r by lia. rewrite !firstn_all2 by (rewrite length_fmap; lia). done.
  - destruct (decide (Z.to_nat n <= length w)%nat); [by rewrite Nat.min_l by done|].
    rewrite Nat.min_r by lia. rewrite !skipn_all2 by (rewrite length_fmap; lia). done.
Qed.

Lemma read_reassembly_witness : exists i' w',
  read_loop (CommEnv0 := Small.env false None) (fun _ => 3) 27 (set_socket read_ex (Some 9))
    (Small.start (enc_pieces [[7; 8]; [9]] 0 ++ [1; 2])) =
    Done ((0, i'), at_world (Small.start (enc_pieces [[7; 8]; [9]] 0 ++ [1; 2])) w') /\
  u8 <$> w' = [1; 2] /\ ci_nodeResult i' = 3 /\ rs_user (ci_priv i') = [7; 8; 9; 0].
Proof.
  exact (read_reassembly (CommEnv0 := Small.env false None) (fun _ => 3) 9 (fun w => u8 <$> w)
    (set_socket read_ex (Some 9)) [[7; 8]; [9]] 0 [1; 2]
    (Small.start (enc_pieces [[7; 8]; [9]] 0 ++ [1; 2])) 27 (small_stream 9)
    ltac:(lia) read_ex_ok ltac:(reflexivity) ltac:(reflexivity) ltac:(reflexivity)
    ltac:(by repeat constructor) ltac:(by vm_compute) ltac:(lia) ltac:(by vm_compute)
    ltac:(vm_compute; lia)).
Defined.

(** ** What is written is the user's data *)

(** What has gone out on a connection. *)
Class ByteSink (W : Type) `{!CommEnv W} (socket : Z) (sent : W -> mem) : Prop :=
  sink_send bytes w : bytes <> [] ->
    let '(r, w') := Socket_send socket bytes w in
    (r < 0 /\ sent w' = sent w) \/
    (exists k, r = Z.of_nat k /\ (0 < k <= length bytes)%nat /\ sent w' = sent w ++ take k bytes).

Section Sent.
Context {W : Type} `{!CommEnv W} (socket : Z) (sent : W -> mem) `{!ByteSink W socket sent}.
Notation Info := (CommKitTargetInfo WritefileState).

(** [sendData] until it says that all is sent, or fails. *)
Fixpoint write_loop (fuel : nat) (info : Info) : M W (Z * Info) :=
  '(r, info) ← __commkit_writefile_sendData info;
  match fuel with
  | S fuel => if 0 <? r then write_loop fuel info else mret (r, info)
  | O => mret (r, info)
  end.

(** [before] went out earlier; the rest is the part of the user's data up to
    [transmitted]. *)
Definition sent_so_far (before : mem) (s : WritefileState) (w : W) : Prop :=
  sent w = before ++ take (Z.to_nat (ws_transmitted s)) (ws_user s).

Lemma send_loop_sent before user fuel r s (m : Mach W) :
  ws_ok s -> sending s -> iter_count (ws_data s) <= Z.of_nat fuel -> ws_user s = user ->
  sent_so_far before s (world m) -> 0 <= r ->
  exists r' s' w', send_loop fuel socket r s m = Done ((r', s'), at_world m w') /\
    ws_ok s' /\ sending s' /\ ws_user s' = user /\ sent_so_far before s' w' /\
    (0 <= r' <-> iter_count (ws_data s') = 0).
Proof.
  intros Hok Hs Hn Hu Hsent Hr. revert r s m Hok Hs Hn Hu Hsent Hr.
  induction fuel as [|fuel IH]; intros r s m Hok Hs Hn Hu Hsent Hr; cbn [send_loop];
    destruct (Z.eqb_spec (iter_count (ws_data s)) 0) as [E0|E0].
  1,3: exists r, s, (world m); split; [by destruct m|]; done.
  all: pose proof Hok as [H1 H2 H3 H4 H5]; pose proof Hs as (E1 & E2 & E3); try lia.
  set (off := iter_pos (ws_data s) - iter_pos (ws_vecData s)).
  assert (Eo : off = ws_transmitted s) by (unfold off; lia). clearbody off. subst off.
  erewrite run_lift by (apply read_block_Done; lia). rewrite run_env.
  set (bytes := slice (ws_user s) (ws_transmitted s) (iter_count (ws_data s))).
  assert (Eb : mlen bytes = iter_count (ws_data s)) by (unfold bytes; rewrite mlen_slice; lia).
  assert (Eall : take (Z.to_nat (ws_transmitted s)) (ws_user s) ++ bytes = ws_user s).
  { unfold bytes, slice. rewrite (firstn_all2 (drop _ _)); [by rewrite take_drop|].
    rewrite length_drop. unfold mlen in *. lia. }
  clearbody bytes. pose proof (sink_send bytes (world m)) as Hsk.
  destruct (Socket_send socket bytes (world m)) as [n w]. cbn [fst snd].
  destruct Hsk as [[Hneg Hw]|(k & -> & Hk & Hw)].
  { intros ->. rewrite mlen_nil in Eb. lia. }
  - rewrite (proj2 (Z.ltb_lt _ _)) by done. exists n, s, w. split_and!; try done; [|lia].
    unfold sent_so_far. by rewrite Hw.
  - rewrite (proj2 (Z.ltb_ge _ _)) by lia.
    assert (Hb : 0 <= Z.of_nat k <= iter_count (ws_data s)) by (unfold mlen in Eb; lia).
    destruct (ws_advance_ok s (Z.of_nat k) Hok Hs Hb) as (A1 & A2 & A3).
    destruct (IH (Z.of_nat k) _ (at_world m w) A1 A2 ltac:(lia) Hu) as (r' & s' & w' & E & F).
    + unfold sent_so_far. cbn [at_world world ws_advance ws_transmitted ws_user].
      rewrite Hw, Hsent, u64_id, <- app_assoc by lia. f_equal.
      replace (Z.to_nat (ws_transmitted s + Z.of_nat k)) with (Z.to_nat (ws_transmitted s) + k)%nat by lia.
      rewrite <- Eall at 2. rewrite take_app. rewrite length_take, take_take.
      unfold mlen in *. f_equal; f_equal; lia.
    + lia.
    + exists r', s', w'. rewrite E. done.
Qed.

Lemma sendData_sent before user (i : Info) (m : Mach W) :
  ws_ok (ci_priv i) -> ci_socket i = Some socket -> ws_user (ci_priv i) = user ->
  sent_so_far before (ci_priv i) (world m) ->
  exists r i' w', __commkit_writefile_sendData i m = Done ((r, i'), at_world m w') /\
    ws_ok (ci_priv i') /\ ci_socket i' = Some socket /\ ws_user (ci_priv i') = user /\
    sent_so_far before (ci_priv i') w' /\ (r = 0 <-> ws_toBeTransmitted (ci_priv i') = 0) /\
    (ws_toBeTransmitted (ci_priv i') = 0 -> ws_toBeTransmitted (ci_priv i) <> 0 ->
     ws_transmitted (ci_priv i') = ws_totalWriteSize (ci_priv i')).
Proof.
  intros Hok Es Hu Hsent. unfold __commkit_writefile_sendData.
  destruct (Z.eqb_spec (ws_toBeTransmitted (ci_priv i)) 0) as [E0|E0].
  { exists 0, i, (world m). split; [by destruct m|]. done. }
  cbv zeta. fold (ws_ready (ci_priv i)). destruct (ws_ready_ok _ Hok E0) as (Hok2 & Hs & Hc).
  assert (Hu2 : ws_user (ws_ready (ci_priv i)) = user) by (unfold ws_ready; by destruct (_ =? _)).
  assert (Hsent2 : sent_so_far before (ws_ready (ci_priv i)) (world m)).
  { unfold sent_so_far, ws_ready in *. by destruct (_ =? _). }
  set (s := ws_ready (ci_priv i)) in *. rewrite (proj2 (Z.eqb_neq _ _)) by lia.
  erewrite run_lift by (by rewrite Es).
  destruct (send_loop_sent before user (Z.to_nat (iter_count (ws_data s))) 0 s m Hok2 Hs ltac:(lia) Hu2
    Hsent2 ltac:(lia)) as (r & s' & w' & E & K1 & K2 & K3 & K4 & K5).
  rewrite (run_done _ _ _ _ _ E). cbv beta iota zeta. pose proof K2 as (E1 & E2 & E3).
  destruct (Z.ltb_spec r 0) as [Hr|Hr]; cbn [andb].
  - assert (ws_toBeTransmitted s' <> 0) by lia. rewrite (proj2 (Z.eqb_neq (ws_toBeTransmitted s') 0)) by done.
    destruct (negb _); eexists _, _, w'; (split; [done|]); cbn [ci_priv set_priv ci_socket];
      split_and!; try done; lia.
  - assert (ws_toBeTransmitted s' = 0) by lia. rewrite (proj2 (Z.eqb_eq (ws_toBeTransmitted s') 0)) by done.
    eexists _, _, w'; (split; [done|]); cbn [ci_priv set_priv ci_socket]. split_and!; try done; lia.
Qed.

Lemma write_loop_sent before user fuel (i : Info) (m : Mach W) :
  ws_ok (ci_priv i) -> ci_socket i = Some socket -> ws_user (ci_priv i) = user ->
  ws_toBeTransmitted (ci_priv i) <> 0 -> sent_so_far before (ci_priv i) (world m) ->
  exists r i' w', write_loop fuel i m = Done ((r, i'), at_world m w') /\ ws_ok (ci_priv i') /\
    ws_user (ci_priv i') = user /\ sent_so_far before (ci_priv i') w' /\
    (r = 0 <-> ws_transmitted (ci_priv i') = ws_totalWriteSize (ci_priv i')).
Proof.
  revert i m. induction fuel as [|fuel IH]; intros i m Hok Es Hu Hne Hsent; cbn [write_loop];
    destruct (sendData_sent before user i m Hok Es Hu Hsent) as (r & i1 & w1 & E & K1 & K2 & K3 & K4 & K5 & K6);
    rewrite (run_done _ _ _ _ _ E).
  all: assert (Hz : r = 0 <-> ws_transmitted (ci_priv i1) = ws_totalWriteSize (ci_priv i1))
    by (pose proof (ws_pending _ K1); pose proof (ws_total _ K1); pose proof (ws_range _ K1); split; intros; [tauto|lia]).
  - exists r, i1, w1. done.
  - destruct (Z.ltb_spec 0 r) as [Hr|Hr]; [|by exists r, i1, w1].
    destruct (IH i1 (at_world m w1) K1 K2 K3 ltac:(lia) K4) as (r' & i' & w' & E' & F).
    exists r', i', w'. rewrite E'. done.
Qed.
End Sent.

(** What is written is the user's data, in order and once.  However the
    connection splits the data and wherever sending fails, the send operation,
    called again as long as it asks for it, has put the first [transmitted] bytes of
    the user's region on the wire, behind what went out before, and nothing else; it
    reports that all is sent exactly when that is the whole region. *)
Theorem write_sends_all {W : Type} `{!CommEnv W} (socket : Z) (sent : W -> mem)
    (i : CommKitTargetInfo WritefileState) (m : Mach W) (fuel : nat) :
  ByteSink W socket sent -> ws_ok (ci_priv i) -> ci_socket i = Some socket ->
  let s := ws_restart (ci_priv i) in
  exists r i' w', write_loop fuel (set_priv i s) m = Done ((r, i'), at_world m w') /\
    sent w' = sent (world m) ++ take (Z.to_nat (ws_transmitted (ci_priv i'))) (ws_user s) /\
    0 <= ws_transmitted (ci_priv i') <= mlen (ws_user s) /\
    (r = 0 <-> ws_transmitted (ci_priv i') = mlen (ws_user s)) /\
    (r = 0 -> sent w' = sent (world m) ++ ws_user s).
Proof.
  intros HB Hok Es s. pose proof (ws_restart_ok _ Hok) as Hok'. pose proof Hok as [H1 H2 H3 H4 H5].
  destruct (write_loop_sent socket sent (sent (world m)) (ws_user s) fuel (set_priv i s) m Hok' Es
    eq_refl ltac:(cbn; lia)) as (r & i' & w' & E & K1 & K2 & K3 & K4).
  { unfold sent_so_far. cbn [ci_priv set_priv ws_transmitted s ws_restart]. by rewrite app_nil_r. }
  pose proof (ws_region _ K1) as Hreg. rewrite K2 in Hreg. pose proof (ws_range _ K1).
  unfold sent_so_far in K3. rewrite K2 in K3. exists r, i', w'. rewrite Hreg.
  split_and!; try done; try lia. intros Hr. rewrite K3. f_equal. apply firstn_all2.
  apply K4 in Hr. unfold mlen in Hreg. lia.
Qed.

(** A connection that takes two bytes at a time, and remembers them. *)
Definition sink_env : CommEnv mem := {|
  fatal_signal_pending w := (false, w);
  Node_getIsActive _ w := (true, w);
  mempool_alloc _ w := (Some Small.buffer, w);
  storageBuddyGroups w := (MirrorBuddyGroupMapper_init ∅, w);
  targetStates w := (Small.target_store, w);
  NodeStoreEx_referenceNodeByTargetID _ w := (inr 7, w);
  Node_put _ w := w;
  NodeConnPool_acquireStreamSocketEx _ _ w := (Some 9, w);
  NodeConnPool_releaseStreamSocket _ _ w := w;
  NodeConnPool_invalidateStreamSocket _ _ w := w;
  Socket_send _ bytes w := (mlen (take 2 bytes), w ++ take 2 bytes);
  Socket_recvT _ _ w := (inl (- ECOMM), w);
  SocketTk_poll socks _ w := ((1, (fun '(s, _) => (s, 5)) <$> socks), w);
  App_getConnRetriesEnabled w := (true, w);
  Thread_sleep _ w := w |}.

Lemma small_sink socket : ByteSink (CommEnv0 := sink_env) mem socket (fun w => w).
Proof.
  intros bytes w Hb. cbn. right. exists (Nat.min 2 (length bytes)). unfold mlen. rewrite length_take.
  assert (length bytes <> 0)%nat by (by destruct bytes). split_and!; [done|lia|lia|]. f_equal.
  destruct bytes as [|x [|y bytes]]; done.
Qed.

Definition write_ex : CommKitTargetInfo WritefileState :=
  set_socket (FhgfsOpsCommKit_initWritefileState 0 5 5 (mkIter 0 5) [1; 2; 3; 4; 5]) (Some 9).

Lemma write_ex_ok : ws_ok (ci_priv write_ex).
Proof. split; cbn; try done. by left. Qed.

Lemma write_sends_all_witness :
  let s := ws_restart (ci_priv write_ex) in
  exists r i' w', write_loop (CommEnv0 := sink_env) 3 (set_priv write_ex s) (Small.start [8]) =
      Done ((r, i'), at_world (Small.start [8]) w') /\
    w' = [8] ++ take (Z.to_nat (ws_transmitted (ci_priv i'))) [1; 2; 3; 4; 5] /\
    0 <= ws_transmitted (ci_priv i') <= 5 /\
    (r = 0 <-> ws_transmitted (ci_priv i') = 5) /\ (r = 0 -> w' = [8; 1; 2; 3; 4; 5]).
Proof.
  exact (write_sends_all (CommEnv0 := sink_env) 9 (fun w => w) write_ex (Small.start [8]) 3
    (small_sink 9) write_ex_ok ltac:(reflexivity)).
Defined.

(** The run of the witness: all is sent. *)
Example write_run :
  match write_loop (CommEnv0 := sink_env) 3 (set_priv write_ex (ws_restart (ci_priv write_ex)))
    (Small.start [8]) with
  | Done ((r, i), s) => (r, ws_transmitted (ci_priv i), world s)
  | Fault => (1, 0, [])
  end = (0, 5, [8; 1; 2; 3; 4; 5]).
Proof. by vm_compute. Qed.
