(* ===== verification/CommKitError.v ===== *)
(** * The four kinds of communication: what goes wrong

    Two behaviours of [net/filesystem/FhgfsOpsCommKit.c] at its edges: the answer
    with which a server asks for another try is taken for a success, and a server
    that closes its connection in the middle of a transfer keeps the client busy for
    ever. *)

From stdpp Require Import gmap.
From S2P Require Import Prelude Serialization SerializationLists StripePattern EntryInfo NetMessage.
From S2P Require Import Messages Responses.
From S2P Require Import TargetStateStore MirrorBuddyGroupMapper CommKit CommKitInv CommKitLive.
From S2P Require Import CommKitOps CommKitFile.

(** ** Generic responses *)

Definition generic_payload (code : Z) (text : mem) : mem := le_split 4 (u32 code) ++ enc_str text.

(** The header of a generic response, as servers fill it in. *)
Definition generic_header (h : NetMessageHeader) : Prop :=
  header_wf h /\ Z.land (msgFlags h) (Z.lnot 7) = 0 /\ msgFeatureFlags h = 0 /\
  msgType h = NETMSGTYPE_GenericResponse.

Section GenericResponse.
Context {W : Type} (io : IOContext) (uninit : NetMessageHeader).

(** The response in the header buffer of the target. *)
Definition answered {R} (info : CommKitTargetInfo R) (h : NetMessageHeader) (code : Z) (text : mem) : Prop :=
  exists b, ci_headerBuffer info = Some b /\ buffer_wf b /\ ci_headerSize info = 40 + mlen (generic_payload code text) /\
    holds b 0 (enc_header (ci_headerSize info) h ++ generic_payload code text).

Lemma parse_generic {R} (info : CommKitTargetInfo R) h code text (s : Mach W) :
  generic_header h -> in_s 32 code -> answered info h code text ->
  parse_message io uninit SimpleIntStringMsg_Ops NETMSGTYPE_GenericResponse info s =
    Done (Some (code, (mlen text, 48)), s) /\
  forall P Q (mops : NetMessageOps P Q) t, t <> NETMSGTYPE_GenericResponse ->
    parse_message io uninit mops t info s = Done (None, s).
Proof.
  intros (Hh & Hf & Hs & Ht) Hc (b & Eb & Hb & Hn & Hm). pose proof (mlen_nonneg text).
  pose proof (buffer_msg_wf b Hb) as Hwf. destruct Hb as [Hb _].
  assert (Hl : 40 + mlen (generic_payload code text) <= 4096).
  { destruct Hm as (_ & Hle & _). rewrite mlen_app, mlen_enc_header in Hle. change CONGFS_COMMKIT_MSGBUF_SIZE with 4096 in Hb. lia. }
  assert (Ht' : mlen text + 1 < 2 ^ 32).
  { unfold generic_payload, enc_str in Hl. rewrite !mlen_app, !mlen_le_split in Hl. change (mlen [0]) with 1 in Hl. lia. }
  rewrite Hn in Hm.
  destruct (received_run SimpleIntStringMsg_Ops h (generic_payload code text) (fun p => (code, (mlen text, p + 8)))
    b 0 uninit (NetMessage_init (io_currentUserID io) (msgType h))
    (simpleintstring_reads h code text Hc Ht') Hh Hf ltac:(by rewrite Hs) ltac:(lia) Hwf Hm) as [E1 E2].
  unfold parse_message. split.
  - erewrite run_lift by (by rewrite Eb). rewrite Hn, <- Ht. by erewrite run_lift by exact E1.
  - intros P Q mops t Hne. erewrite run_lift by (by rewrite Eb). rewrite Hn.
    by erewrite run_lift by (apply E2; by rewrite Ht).
Qed.

Lemma generic_response_run {R} (info : CommKitTargetInfo R) h code text (s : Mach W) :
  generic_header h -> in_s 32 code -> answered info h code text ->
  exists r, __commkit_message_genericResponse io uninit info s = Done (r, s) /\
    (r = FhgfsOpsErr_AGAIN <-> code = GenericRespMsgCode_TRYAGAIN) /\ 0 < r.
Proof.
  intros Hh Hc Ha. destruct (parse_generic info h code text s Hh Hc Ha) as [E _].
  unfold __commkit_message_genericResponse. rewrite (run_done _ _ _ _ _ E). eexists. split; [done|].
  destruct (Z.eqb_spec code GenericRespMsgCode_TRYAGAIN) as [->|]; [done|].
  destruct (_ =? _); done.
Qed.

(** A server's wish to be asked again is taken for a success.  When a server
    answers fsync or statfs with a generic response, whatever its code says, the
    handler of the answer returns a positive number, where the table of operations
    asks for a negative error code, and leaves the target as it is: the node result
    stays the one the target was prepared with, and the state machine goes on to
    receive data.  So the code for "try again", for which these two tables ask for
    retries without limit, never reaches the target. *)
Theorem generic_response_lost (finfo : CommKitTargetInfo FsyncState)
    (sinfo : CommKitTargetInfo StatStorageState) (h : NetMessageHeader) (code : Z) (text : mem) (s : Mach W) :
  generic_header h -> in_s 32 code -> answered finfo h code text -> answered sinfo h code text ->
  exists r, 0 < r /\ (r = FhgfsOpsErr_AGAIN <-> code = GenericRespMsgCode_TRYAGAIN) /\
    __commkit_fsync_recvHeader io uninit finfo s = Done ((r, finfo), s) /\
    __commkit_statstorage_recvHeader io uninit sinfo s = Done ((r, sinfo), s).
Proof.
  intros Hh Hc Hf Hs.
  destruct (parse_generic finfo h code text s Hh Hc Hf) as [Ef Nf].
  destruct (parse_generic sinfo h code text s Hh Hc Hs) as [Es Ns].
  destruct (generic_response_run finfo h code text s Hh Hc Hf) as (r & E & Hr & Hpos).
  exists r. split_and!; [done|done|..].
  - unfold __commkit_fsync_recvHeader. erewrite run_done by (by apply Nf). cbv beta iota.
    by rewrite (run_done _ _ _ _ _ E).
  - unfold __commkit_statstorage_recvHeader. erewrite run_done by (by apply Ns). cbv beta iota.
    revert E. unfold __commkit_message_genericResponse. rewrite (run_done _ _ _ _ _ Ef), (run_bind _ _ _ s).
    rewrite (run_done _ _ _ _ _ Es). unfold mret, M_ret. intros [= <-]. done.
Qed.
End GenericResponse.

(** A server that asks to be asked again. *)
Definition try_again_header : NetMessageHeader := NetMessage_init 0 NETMSGTYPE_GenericResponse.
Definition try_again : mem :=
  enc_header 50 try_again_header ++ generic_payload GenericRespMsgCode_TRYAGAIN [98].
Definition try_again_info {R} (priv : R) : CommKitTargetInfo R :=
  mkInfo CommKitState_RECVHEADER (Some (put Small.buffer 0 try_again)) 5 5 false (Some 7) (Some 9) 50
    (- FhgfsOpsErr_COMMUNICATION) priv.

Lemma try_again_header_ok : generic_header try_again_header.
Proof. unfold generic_header, header_wf, in_u. vm_compute. intuition discriminate. Qed.

Lemma try_again_bytes : Forall is_byte try_again.
Proof. apply (bool_decide_unpack _). by vm_compute. Qed.

Lemma try_again_answered {R} (priv : R) :
  answered (try_again_info priv) try_again_header GenericRespMsgCode_TRYAGAIN [98].
Proof.
  exists (put Small.buffer 0 try_again). destruct Small.buffer_ok as [Hl Hb]. split_and!; [done| |done|].
  - split; [rewrite mlen_put; [done|lia|by vm_compute]|]. by apply put_bytes, try_again_bytes.
  - change (holds (put Small.buffer 0 try_again) 0 try_again).
    split_and!; [lia|by vm_compute|apply slice_put; [lia|by vm_compute]].
Qed.

Lemma generic_response_lost_witness : exists r, 0 < r /\
  (r = FhgfsOpsErr_AGAIN <-> GenericRespMsgCode_TRYAGAIN = GenericRespMsgCode_TRYAGAIN) /\
  __commkit_fsync_recvHeader io_ex (NetMessage_init 0 0)
    (try_again_info (mkFsync false)) (Small.start []) = Done ((r, try_again_info (mkFsync false)), Small.start []) /\
  __commkit_statstorage_recvHeader io_ex (NetMessage_init 0 0)
    (try_again_info (mkStat 0 0)) (Small.start []) = Done ((r, try_again_info (mkStat 0 0)), Small.start []).
Proof.
  exact (generic_response_lost io_ex (NetMessage_init 0 0)
    (try_again_info (mkFsync false)) (try_again_info (mkStat 0 0)) try_again_header
    GenericRespMsgCode_TRYAGAIN [98] (Small.start []) try_again_header_ok
    ltac:(unfold in_s; vm_compute; intuition discriminate)
    (try_again_answered _) (try_again_answered _)).
Defined.

(** The whole call: the retry that is allowed is used up and the call fails with a
    communication error, although the server was there and asked to be asked again. *)
Example fsync_again_run :
  match FhgfsOpsCommKit_fsyncCommunicate (CommEnv0 := Small.env false None) io_ex (NetMessage_init 0 0) 1
    (mkFC 0 true false false) 20 (FhgfsOpsCommKit_initFsyncState [] 5)
    (Small.start (try_again ++ try_again)) with
  | Done ((l, ended), s) => (ci_state <$> l, ci_nodeResult <$> l, currentRetryNum (ctx s), world s, ended)
  | Fault => ([], [], 0, [], false)
  end = ([CommKitState_DONE], [- FhgfsOpsErr_COMMUNICATION], 1, [], true).
Proof. by vm_compute. Qed.

(** ** A connection that was closed *)

(** The other side has closed the connection: it is readable, and there is nothing
    to read.  The node is active and nobody interrupts. *)
Class PeerClosed (W : Type) `{!CommEnv W} (node socket : Z) : Prop := {
  closed_signal w : fst (fatal_signal_pending w) = false;
  closed_active w : fst (Node_getIsActive node w) = true;
  closed_recv n w : fst (Socket_recvT socket n w) = inr [];
  closed_poll t w : 0 < fst (fst (SocketTk_poll [(socket, POLLIN)] t w)) }.

Section Closed.
Context {W : Type} `{!CommEnv W} (io : IOContext) (seg : Z -> Z).
Context (node socket : Z) `{!PeerClosed W node socket}.
Notation Info := (CommKitTargetInfo ReadfileState).

(** In the middle of a piece of [n] bytes, of which none will come any more. *)
Record stuck (transmitted : Z) (i : Info) : Prop := {
  st_ok : rs_ok (ci_priv i);
  st_state : ci_state i = CommKitState_RECVDATA;
  st_node : ci_node i = Some node;
  st_socket : ci_socket i = Some socket;
  st_receive : rs_receiveFileData (ci_priv i) = true;
  st_transmitted : rs_transmitted (ci_priv i) = transmitted }.

Lemma recvdata_stuck n (i : Info) (s : Mach W) :
  stuck n i -> exists i' w, __commkit_readfile_recvdata seg i s = Done ((1, i'), at_world s w) /\ stuck n i'.
Proof.
  intros [Hok Est En Es Hrc Ht]. unfold __commkit_readfile_recvdata. rewrite Hrc. cbn [negb]. cbv zeta.
  fold (rs_ready (ci_priv i)). destruct (rs_ready_ok _ Hok Hrc) as (Hok2 & Hrc2 & E1 & E2).
  assert (T2 : rs_transmitted (rs_ready (ci_priv i)) = n) by (unfold rs_ready; by destruct (_ =? _)).
  assert (T3 : rs_vecData (rs_ready (ci_priv i)) = rs_vecData (ci_priv i) /\
    rs_totalReadSize (rs_ready (ci_priv i)) = rs_totalReadSize (ci_priv i))
    by (unfold rs_ready; by destruct (_ =? _)).
  destruct T3 as [T3 T4]. rewrite Ht in E1, E2. rewrite <- T4 in E1. rewrite <- T3 in E2.
  set (r := rs_ready (ci_priv i)) in *. pose proof Hok2 as [H1 H2 H3 H4 H5 H6]. rewrite Hrc2 in H5.
  rewrite (proj2 (Z.eqb_neq _ _)) by lia. erewrite run_lift by (by rewrite Es).
  rewrite run_env, closed_recv. erewrite run_lift by (apply write_block_Done; change (mlen []) with 0; lia).
  eexists _, _. split; [done|]. change (mlen []) with 0. split; try done; cbn [ci_priv set_priv].
  - rewrite put_nil. apply rs_received_ok; first [done|rewrite ?T2; done|lia].
  - cbn [rs_received rs_receiveFileData]. rewrite Z.add_0_r, (u64_id (rs_transmitted r)) by lia.
    by rewrite (proj2 (Z.eqb_neq _ _)) by lia.
  - cbn [rs_received rs_transmitted]. rewrite Z.add_0_r, (u64_id (rs_transmitted r)) by lia. done.
Qed.

Lemma poll_added (i : Info) (ev : Z) (s : Mach W) :
  ci_socket i = Some socket ->
  __commkit_add_socket_pollstate i ev s =
    Done (tt, mkMach (world s) (add_pollSocket socket ev (ctx s)) (<[socket := 0]> (revents s)) (held s)).
Proof. intros Es. unfold __commkit_add_socket_pollstate. by erewrite run_lift by (by rewrite Es). Qed.

(** The socket is waited for, or it has something to read. *)
Lemma io_stuck n (i : Info) (s : Mach W) :
  stuck n i -> pollTimedOut (ctx s) = false ->
  exists r s', __commkit_prepare_io i POLLIN s = Done ((r, i), s') /\
    ctx s' = if r then ctx s else add_pollSocket socket POLLIN (ctx s).
Proof.
  intros [Hok Est En Es Hrc Ht] Hto. unfold __commkit_prepare_io.
  rewrite run_env, closed_signal, run_bind. erewrite run_lift by (by rewrite En).
  rewrite run_bind, run_env, closed_active, run_ret. cbn [orb negb]. rewrite run_get.
  cbn [at_world ctx]. rewrite Hto. erewrite run_lift by (by rewrite Es).
  unfold mbind at 1, M_bind at 1. cbn [get_revents at_world revents].
  destruct (_ =? _); [|by eexists true, _].
  rewrite (run_done _ _ _ _ _ (poll_added i _ _ Es)). by eexists false, _.
Qed.

Lemma step_stuck n (i : Info) (s : Mach W) ioPattern maxNumRetries :
  stuck n i -> pollTimedOut (ctx s) = false ->
  exists i' s', commkit_step (readfileOps io seg) ioPattern maxNumRetries i s = Done (i', s') /\
    stuck n i' /\ ctx s' = add_pollSocket socket POLLIN (ctx s).
Proof.
  intros Hi Hto. pose proof (st_state _ _ Hi) as Est. step_is Est.
  unfold recvdata_case, __commkit_recvdata_generic. cbn [recvData readfileOps].
  destruct (io_stuck n i s Hi Hto) as ([] & s1 & E1 & Ec); rewrite (run_done _ _ _ _ _ E1); cbn [negb].
  - destruct (recvdata_stuck n i s1 Hi) as (i' & w & E2 & Hi'). rewrite (run_done _ _ _ _ _ E2).
    cbn [Z.ltb Z.eqb Z.compare]. rewrite (run_done _ _ _ _ _ (poll_added i' _ _ (st_socket _ _ Hi'))).
    eexists _, _. split; [done|]. split; [done|]. cbn [at_world ctx]. by rewrite Ec.
  - by eexists _, _.
Qed.

Lemma round_stuck n (i : Info) (s : Mach W) ioPattern maxNumRetries :
  stuck n i -> pollTimedOut (ctx s) = false ->
  exists i' s', commkit_round (readfileOps io seg) ioPattern maxNumRetries [i] s = Done ([i'], s') /\
    stuck n i' /\ pollTimedOut (ctx s') = false /\ numDone (ctx s') = numDone (ctx s).
Proof.
  intros Hi Hto. unfold commkit_round. erewrite run_done by done.
  destruct (step_stuck n i (mkMach (world s) (ctx_start_round (ctx s)) (revents s) (held s))
    ioPattern maxNumRetries Hi Hto) as (i' & s1 & E & Hi' & Ec).
  assert (E' : commkit_steps (readfileOps io seg) ioPattern maxNumRetries [i]
    (mkMach (world s) (ctx_start_round (ctx s)) (revents s) (held s)) = Done ([i'], s1)).
  { cbn [commkit_steps]. by rewrite (run_done _ _ _ _ _ E). }
  rewrite (run_done _ _ _ _ _ E'). cbv zeta. rewrite run_get, Ec. cbn [numPollSocks add_pollSocket ctx ctx_start_round].
  change (negb (u32 (0 + 1) =? 0)) with true. cbv iota.
  unfold __FhgfsOpsCommKitCommon_pollStateSocks. rewrite run_bind, run_get. cbv zeta. rewrite run_bind, run_env, Ec.
  cbn [pollState add_pollSocket ctx ctx_start_round app].
  match goal with |- context [SocketTk_poll _ ?t (world s1)] => pose proof (closed_poll t (world s1)) as Hp end.
  destruct (fst (SocketTk_poll _ _ _)) as [r events]. cbn [fst] in Hp.
  rewrite run_bind. erewrite run_done by done.
  rewrite (proj2 (Z.leb_gt r 0)), (proj2 (Z.ltb_ge r 0)) by lia.
  rewrite andb_false_r. cbn [orb]. eexists i', _. split; [done|]. cbn [at_world ctx]. rewrite Ec. by split_and!.
Qed.

(** A server that closes the connection in the middle of a transfer keeps the
    client busy for ever.  If the other side is gone while a piece of a file is
    outstanding, the loop that reads it has not ended after any number of rounds:
    each receives nothing, which [__commkit_readfile_recvdata], unlike the code that
    waits for the length of a piece, does not take for an error, and asks for more. *)
Theorem closed_connection_spins (i : Info) (s : Mach W) (fuel : nat) (ioPattern : option Z) (maxNumRetries : Z) :
  rs_ok (ci_priv i) -> ci_state i = CommKitState_RECVDATA -> ci_node i = Some node ->
  ci_socket i = Some socket -> rs_receiveFileData (ci_priv i) = true ->
  pollTimedOut (ctx s) = false -> numDone (ctx s) = 0 ->
  exists i' s', communicate_rounds (readfileOps io seg) ioPattern maxNumRetries fuel [i] s =
      Done (([i'], false), s') /\ ci_state i' = CommKitState_RECVDATA /\
    rs_transmitted (ci_priv i') = rs_transmitted (ci_priv i) /\
    rs_transmitted (ci_priv i') < rs_totalReadSize (ci_priv i').
Proof.
  intros Hok Est En Es Hrc Hto Hd.
  assert (Hi : stuck (rs_transmitted (ci_priv i)) i) by done.
  generalize dependent (rs_transmitted (ci_priv i)). clear Hok Est En Es Hrc. intros n.
  revert i s Hto Hd. induction fuel as [|fuel IH]; intros i s Hto Hd Hi; cbn [communicate_rounds];
    destruct (round_stuck n i s ioPattern maxNumRetries Hi Hto) as (i' & s' & E & Hi' & Hto' & Hd');
    rewrite (run_done _ _ _ _ _ E), run_get, Hd', Hd; cbn [length Z.of_nat Z.eqb].
  - eexists _, _. split; [done|]. pose proof Hi' as [Hok' ? ? ? Hrc' Ht']. split_and!; [done|done|].
    destruct Hok' as [? ? ? ? H5 ?]. rewrite Hrc' in H5. lia.
  - by apply IH; [|congruence|].
Qed.
End Closed.

Lemma small_closed : PeerClosed (CommEnv0 := Small.env false (Some [])) mem 7 9.
Proof. split; [done..| |done]. intros n w. cbn. by rewrite take_nil. Qed.

(** Two of four bytes announced are missing. *)
Definition closed_ex : CommKitTargetInfo ReadfileState :=
  mkInfo CommKitState_RECVDATA None 5 5 false (Some 7) (Some 9) 0 (- FhgfsOpsErr_COMMUNICATION)
    (mkRS 2 4 4 (mkIter 2 2) 0 false true 4 (mkIter 0 4) [7; 8; 0; 0]).

Lemma closed_ex_ok : rs_ok (ci_priv closed_ex).
Proof. split; cbn; try done. right. done. Qed.

Lemma closed_connection_spins_witness : exists i' s',
  communicate_rounds (H := Small.env false (Some [])) (readfileOps (CommEnv0 := Small.env false (Some [])) io_ex (fun _ => 1))
    None 0 1000 [closed_ex] (Small.start []) = Done (([i'], false), s') /\
  ci_state i' = CommKitState_RECVDATA /\ rs_transmitted (ci_priv i') = 2 /\
  rs_transmitted (ci_priv i') < rs_totalReadSize (ci_priv i').
Proof.
  exact (closed_connection_spins (CommEnv0 := Small.env false (Some [])) io_ex (fun _ => 1) 7 9
    (PeerClosed0 := small_closed) closed_ex (Small.start []) 1000 None 0 closed_ex_ok ltac:(reflexivity)
    ltac:(reflexivity) ltac:(reflexivity) ltac:(reflexivity) ltac:(reflexivity) ltac:(reflexivity)).
Defined.
