(* ===== verification/NodeConnPool.v ===== *)
(** * Connection pools

    [common/nodes/NodeConnPool.h/.c] with [common/net/sock/PooledSocket.h] and
    [common/toolkit/Time.h]: the connections to a node, shared by all threads.

    The pool releases its mutex in the middle of its functions (waiting for a
    connection, connecting, closing), so each function is cut at these points: an [Op]
    is a call that is under way, with its local variables, and [op_step] runs it to
    the next such point.  Sockets are objects on a heap [socks]; a socket is taken off
    when it is destructed, and using it afterwards is a [Fault].  The choices of
    the surroundings in a step (signals, clock, outcomes of connecting) are an [Ev].
    Fields and calls that only concern log messages are left out. *)

From stdpp Require Import gmap.
From S2P Require Import Prelude Serialization SerializationLists.

(** ** Sockets of a pool *)

Definition NICADDRTYPE_STANDARD : Z := 0.
Definition NICADDRTYPE_SDP : Z := 1.
Definition NICADDRTYPE_RDMA : Z := 2.

Record timespec := mkTime { tv_sec : Z; tv_nsec : Z }.

Definition Time_getIsZero (this : timespec) : bool := (tv_sec this =? 0) && (tv_sec this =? 0).
Definition Time_elapsedSinceMS (this earlierT : timespec) : Z :=
  let secs := u32 ((tv_sec this - tv_sec earlierT) * 1000) in
  let micros := s32 (Z.quot (tv_nsec this - tv_nsec earlierT) 1000000) in
  u32 (secs + micros).

(** [sockType] of the [Socket] inside equals [nicType] for the three kinds. *)
Record PooledSocket := mkPS {
  ps_available : bool; ps_hasActivity : bool; ps_closeOnRelease : bool;
  ps_expireTimeStart : timespec; ps_nicType : Z; ps_peerIP : Z }.

Definition _PooledSocket_init (nicType peerIP : Z) : PooledSocket :=
  mkPS false true false (mkTime 0 0) nicType peerIP.
Definition PooledSocket_setAvailable (this : PooledSocket) (available : bool) : PooledSocket :=
  mkPS available (ps_hasActivity this) (ps_closeOnRelease this) (ps_expireTimeStart this)
    (ps_nicType this) (ps_peerIP this).
Definition set_activity (this : PooledSocket) (hasActivity : bool) : PooledSocket :=
  mkPS (ps_available this) hasActivity (ps_closeOnRelease this) (ps_expireTimeStart this)
    (ps_nicType this) (ps_peerIP this).
Definition PooledSocket_setHasActivity (this : PooledSocket) : PooledSocket := set_activity this true.
Definition PooledSocket_resetHasActivity (this : PooledSocket) : PooledSocket := set_activity this false.
Definition set_fallback (this : PooledSocket) (now : timespec) (closeOnRelease : bool) : PooledSocket :=
  mkPS (ps_available this) (ps_hasActivity this) closeOnRelease now (ps_nicType this) (ps_peerIP this).

(** The product is computed in 32 bits. *)
Definition PooledSocket_getHasExpired (this : PooledSocket) (now : timespec) (expireSecs : Z) : bool :=
  if Time_getIsZero (ps_expireTimeStart this) then false
  else u32 (expireSecs * 1000) <? Time_elapsedSinceMS now (ps_expireTimeStart this).

(** ** The pool *)

Record NodeConnPoolStats := mkStats {
  numEstablishedStd : Z; numEstablishedSDP : Z; numEstablishedRDMA : Z }.

(** [connSemaphore] is the count of the semaphore; [connList] holds addresses. *)
Record NodeConnPool := mkPool {
  nicList : list NicAddress; connList : list Z; streamPort : Z; supportsSDP : bool;
  supportsRDMA : bool; availableConns : Z; establishedConns : Z; maxConns : Z;
  fallbackExpirationSecs : Z; maxConcurrentAttempts : Z; stats : NodeConnPoolStats;
  lastSuccessPeerIP : Z; lastSuccessNicType : Z; wasLastTimeCompleteFail : bool;
  connSemaphore : Z }.

Record PoolState := mkPoolState { pool : NodeConnPool; socks : gmap Z PooledSocket }.

Definition NodeConnPool_init (cfgMaxConns cfgExpirationSecs cfgMaxAttempts port : Z)
    (nics : list NicAddress) : NodeConnPool :=
  mkPool nics [] port false false 0 0 cfgMaxConns cfgExpirationSecs cfgMaxAttempts (mkStats 0 0 0)
    0 0 false cfgMaxAttempts.

Section Setters.
Context (p : NodeConnPool).
Definition set_connList (l : list Z) (n : NodeConnPoolStats) : NodeConnPool :=
  mkPool (nicList p) l (streamPort p) (supportsSDP p) (supportsRDMA p) (availableConns p)
    (establishedConns p) (maxConns p) (fallbackExpirationSecs p) (maxConcurrentAttempts p) n
    (lastSuccessPeerIP p) (lastSuccessNicType p) (wasLastTimeCompleteFail p) (connSemaphore p).
Definition add_available (n : Z) : NodeConnPool :=
  mkPool (nicList p) (connList p) (streamPort p) (supportsSDP p) (supportsRDMA p)
    (u32 (availableConns p + n)) (establishedConns p) (maxConns p) (fallbackExpirationSecs p)
    (maxConcurrentAttempts p) (stats p) (lastSuccessPeerIP p) (lastSuccessNicType p)
    (wasLastTimeCompleteFail p) (connSemaphore p).
Definition add_established (n : Z) : NodeConnPool :=
  mkPool (nicList p) (connList p) (streamPort p) (supportsSDP p) (supportsRDMA p) (availableConns p)
    (u32 (establishedConns p + n)) (maxConns p) (fallbackExpirationSecs p) (maxConcurrentAttempts p)
    (stats p) (lastSuccessPeerIP p) (lastSuccessNicType p) (wasLastTimeCompleteFail p)
    (connSemaphore p).
Definition add_semaphore (n : Z) : NodeConnPool :=
  mkPool (nicList p) (connList p) (streamPort p) (supportsSDP p) (supportsRDMA p) (availableConns p)
    (establishedConns p) (maxConns p) (fallbackExpirationSecs p) (maxConcurrentAttempts p) (stats p)
    (lastSuccessPeerIP p) (lastSuccessNicType p) (wasLastTimeCompleteFail p) (connSemaphore p + n).
Definition set_errState (ip ty : Z) (fail : bool) : NodeConnPool :=
  mkPool (nicList p) (connList p) (streamPort p) (supportsSDP p) (supportsRDMA p) (availableConns p)
    (establishedConns p) (maxConns p) (fallbackExpirationSecs p) (maxConcurrentAttempts p) (stats p)
    ip ty fail (connSemaphore p).
Definition set_interfaces (port : Z) (nics : list NicAddress) : NodeConnPool :=
  mkPool nics (connList p) port (supportsSDP p) (supportsRDMA p) (availableConns p)
    (establishedConns p) (maxConns p) (fallbackExpirationSecs p) (maxConcurrentAttempts p) (stats p)
    (lastSuccessPeerIP p) (lastSuccessNicType p) (wasLastTimeCompleteFail p) (connSemaphore p).
Definition NodeConnPool_setLocalNicCaps (sdp rdma : bool) : NodeConnPool :=
  mkPool (nicList p) (connList p) (streamPort p) sdp rdma (availableConns p)
    (establishedConns p) (maxConns p) (fallbackExpirationSecs p) (maxConcurrentAttempts p) (stats p)
    (lastSuccessPeerIP p) (lastSuccessNicType p) (wasLastTimeCompleteFail p) (connSemaphore p).

Definition __NodeConnPool_setCompleteFail : NodeConnPool :=
  set_errState 0 (lastSuccessNicType p) true.
Definition __NodeConnPool_setConnSuccess (ip ty : Z) : NodeConnPool := set_errState ip ty false.
End Setters.

Definition __NodeConnPool_statsAddNic (s : NodeConnPoolStats) (ty : Z) : NodeConnPoolStats :=
  if ty =? NICADDRTYPE_RDMA then
    mkStats (numEstablishedStd s) (numEstablishedSDP s) (u32 (numEstablishedRDMA s + 1))
  else if ty =? NICADDRTYPE_SDP then
    mkStats (numEstablishedStd s) (u32 (numEstablishedSDP s + 1)) (numEstablishedRDMA s)
  else mkStats (u32 (numEstablishedStd s + 1)) (numEstablishedSDP s) (numEstablishedRDMA s).

Definition __NodeConnPool_statsRemoveNic (s : NodeConnPoolStats) (ty : Z) : NodeConnPoolStats :=
  if ty =? NICADDRTYPE_RDMA then
    mkStats (numEstablishedStd s) (numEstablishedSDP s) (u32 (numEstablishedRDMA s - 1))
  else if ty =? NICADDRTYPE_SDP then
    mkStats (numEstablishedStd s) (u32 (numEstablishedSDP s - 1)) (numEstablishedRDMA s)
  else mkStats (u32 (numEstablishedStd s - 1)) (numEstablishedSDP s) (numEstablishedRDMA s).

Definition with_pool (st : PoolState) (p : NodeConnPool) : PoolState := mkPoolState p (socks st).
Definition get_sock (st : PoolState) (s : Z) : outcome PooledSocket := of_option (socks st !! s).
Definition set_sock (st : PoolState) (s : Z) (ps : PooledSocket) : PoolState :=
  mkPoolState (pool st) (<[s := ps]> (socks st)).

(** ** Connecting *)

(** One attempt: whether the socket could be constructed and connected, its peer, the
    time and the signals after it. *)
Record Attempt := mkAttempt {
  at_socket : bool; at_connected : bool; at_peerIP : Z; at_now : timespec;
  at_signal : bool; at_killed : bool }.

(** [AllFailed]: the iterator is at the end; [Killed]: it is not, and there is no
    socket. *)
Inductive ConnectRes (S : Type) := Connected (s : S) | AllFailed | Killed.
Arguments Connected {S}.
Arguments AllFailed {S}.
Arguments Killed {S}.

Section Connecting.
(** What the two filters of the application say of an address. *)
Context (NetFilter_isAllowed tcpOnly_isContained : Z -> bool).

Definition unsupported (p : NodeConnPool) (ty : Z) : bool :=
  if ty =? NICADDRTYPE_RDMA then negb (supportsRDMA p)
  else if ty =? NICADDRTYPE_SDP then negb (supportsSDP p)
  else negb (ty =? NICADDRTYPE_STANDARD).

(** The loop over the interfaces; [attempts k] is what happens at the [k]-th. *)
Fixpoint connect_nics (p : NodeConnPool) (attempts : nat -> Attempt) (k : nat)
    (nics : list NicAddress) (isPrimaryInterface : bool) : ConnectRes PooledSocket :=
  match nics with
  | [] => AllFailed
  | nicAddr :: rest =>
      let a := attempts k in
      let clean primary :=
        if at_killed a then Killed else connect_nics p attempts (S k) rest primary in
      if negb (NetFilter_isAllowed (ipAddr nicAddr)) ||
         (negb (nicType nicAddr =? NICADDRTYPE_STANDARD) && tcpOnly_isContained (ipAddr nicAddr))
      then connect_nics p attempts (S k) rest isPrimaryInterface
      else if unsupported p (nicType nicAddr) || negb (at_socket a) then clean isPrimaryInterface
      else if at_connected a then
        let sock := _PooledSocket_init (nicType nicAddr) (at_peerIP a) in
        Connected (if isPrimaryInterface then sock else set_fallback sock (at_now a) (at_signal a))
      else clean false
  end.

(** ** Calls under way *)

(** What is to be done after closing the available connections. *)
Inductive After := Return | ThenInvalidate (sock : Z) | ThenResetIdle.

Inductive Op :=
  | AcquireStart (allowWaiting : bool)
  | AcquireAsleep
  | AcquireAwake
  | AcquireSem (nicListCopy : list NicAddress)
  | AcquireConnect (nicListCopy : list NicAddress)
  | AcquireUp (res : ConnectRes Z)
  | AcquireFinish (res : ConnectRes Z)
  | Holding (sock : Z)
  | Releasing (sock : Z)
  | Grab (idleStreamsOnly : bool) (after : After)
  | Drop (todo : list Z) (after : After)
  | Shutdown (sock : Z) (todo : list Z) (after : After)
  | ResetIdle
  | UpdateInterfaces (port : Z) (nics : list NicAddress).

(** [ev_killed] is [fatal_signal_pending]; [ev_invalidate]: the holder of a socket gives
    it back as unusable. *)
Record Ev := mkEv {
  ev_killed : bool; ev_now : timespec; ev_attempts : nat -> Attempt; ev_invalidate : bool }.

(** *** Under the mutex *)

Definition all_busy (p : NodeConnPool) : bool :=
  (availableConns p =? 0) && (establishedConns p =? maxConns p).

(** The search for an available connection does not look for the end of the list. *)
Fixpoint find_available (st : PoolState) (l : list Z) : outcome Z :=
  match l with
  | [] => Fault
  | s :: rest =>
      ps ← get_sock st s;
      if ps_available ps then Done s else find_available st rest
  end.

(** From the wait loop on: grab an available connection, or count a new one. *)
Definition acquire_locked (st : PoolState) : outcome (PoolState * Op) :=
  let p := pool st in
  if negb (availableConns p =? 0) then
    s ← find_available st (connList p);
    ps ← get_sock st s;
    let st := set_sock st s (PooledSocket_setHasActivity (PooledSocket_setAvailable ps false)) in
    Done (with_pool st (add_available (pool st) (-1)), Holding s)
  else Done (with_pool st (add_established p 1), AcquireSem (nicList p)).

(** The end of acquiring.  Nothing is constructed behind a killed attempt, so with no
    signal pending the code would use a socket that is not there. *)
Definition acquire_finish (res : ConnectRes Z) (killed : bool) (st : PoolState)
    : outcome (PoolState * option Op * bool) :=
  let p := pool st in
  let fail :=
    let p := add_established p (-1) in
    Done (with_pool st (if killed then p else __NodeConnPool_setCompleteFail p), None, true) in
  match res with
  | Connected s =>
      if killed then fail else
      ps ← get_sock st s;
      let p := set_connList p (connList p ++ [s])
                 (__NodeConnPool_statsAddNic (stats p) (ps_nicType ps)) in
      Done (with_pool st (__NodeConnPool_setConnSuccess p (ps_peerIP ps) (ps_nicType ps)),
            Some (Holding s), false)
  | AllFailed => fail
  | Killed => if killed then fail else Fault
  end.

Definition list_remove (s : Z) (l : list Z) : list Z := filter (fun x => x <> s) l.

(** The first part of [__NodeConnPool_invalidateSpecificStreamSocket]: whether the
    socket was in the list. *)
Definition invalidateSpecific_locked (s : Z) (st : PoolState) : outcome (PoolState * bool) :=
  let p := pool st in
  if bool_decide (s ∈ connList p) then
    ps ← get_sock st s;
    let p := add_established p (-1) in
    Done (with_pool st (set_connList p (list_remove s (connList p))
            (__NodeConnPool_statsRemoveNic (stats p) (ps_nicType ps))), true)
  else Done (st, false).

(** Stage 1 of [__NodeConnPool_invalidateAvailableStreams]. *)
Fixpoint grab_available (idleStreamsOnly : bool) (l : list Z) (st : PoolState)
    : outcome (PoolState * list Z) :=
  match l with
  | [] => Done (st, [])
  | s :: rest =>
      ps ← get_sock st s;
      if negb (ps_available ps) || (idleStreamsOnly && ps_hasActivity ps)
      then grab_available idleStreamsOnly rest st
      else
        let st := set_sock st s (PooledSocket_setAvailable ps false) in
        '(st, grabbed) ← grab_available idleStreamsOnly rest
                           (with_pool st (add_available (pool st) (-1)));
        Done (st, s :: grabbed)
  end.

Fixpoint reset_idle (l : list Z) (st : PoolState) : outcome PoolState :=
  match l with
  | [] => Done st
  | s :: rest =>
      ps ← get_sock st s;
      reset_idle rest (if ps_available ps then set_sock st s (PooledSocket_resetHasActivity ps) else st)
  end.

(** *** Steps *)

Definition after_op (after : After) : option Op :=
  match after with
  | Return => None
  | ThenInvalidate s => Some (Drop [s] Return)
  | ThenResetIdle => Some ResetIdle
  end.

(** A step results in the call at its next release of the mutex, [None] when it has
    returned without a connection; and whether it has signalled [changeCond]. *)
Definition Stepped : Type := outcome (PoolState * option Op * bool).

Definition acquire_continue (st : PoolState) : Stepped :=
  '(st, op) ← acquire_locked st; Done (st, Some op, false).

Definition acquire_start (ev : Ev) (allowWaiting : bool) (st : PoolState) : Stepped :=
  if ev_killed ev then Done (st, None, false)
  else if all_busy (pool st) then
    Done (st, if allowWaiting then Some AcquireAsleep else None, false)
  else acquire_continue st.

(** Asleep in [Condition_waitKillable], and back from it. *)
Definition acquire_asleep (ev : Ev) (st : PoolState) : Stepped :=
  Done (st, if ev_killed ev then None else Some AcquireAsleep, false).
Definition acquire_awake (ev : Ev) (st : PoolState) : Stepped :=
  if ev_killed ev then Done (st, None, false)
  else if all_busy (pool st) then Done (st, Some AcquireAsleep, false)
  else acquire_continue st.

Definition acquire_sem (ev : Ev) (nics : list NicAddress) (st : PoolState) : Stepped :=
  let p := pool st in
  if maxConcurrentAttempts p <=? 0 then Done (st, Some (AcquireConnect nics), false)
  else if 0 <? connSemaphore p then
    Done (with_pool st (add_semaphore p (-1)), Some (AcquireConnect nics), false)
  else Done (st, if ev_killed ev then None else Some (AcquireSem nics), false).

Definition acquire_connect (ev : Ev) (nics : list NicAddress) (st : PoolState) : Stepped :=
  match connect_nics (pool st) (ev_attempts ev) 0 nics true with
  | Connected ps =>
      let s := fresh (dom (socks st)) in
      Done (set_sock st s ps, Some (AcquireUp (Connected s)), false)
  | AllFailed => Done (st, Some (AcquireUp AllFailed), false)
  | Killed => Done (st, Some (AcquireUp Killed), false)
  end.

Definition acquire_up (res : ConnectRes Z) (st : PoolState) : Stepped :=
  Done (if 0 <? maxConcurrentAttempts (pool st) then with_pool st (add_semaphore (pool st) 1) else st,
        Some (AcquireFinish res), false).

(** The holder of a socket calls [NodeConnPool_releaseStreamSocket], which first looks
    whether the socket is to be closed ... *)
Definition release_start (ev : Ev) (s : Z) (st : PoolState) : Stepped :=
  ps ← get_sock st s;
  Done (st, Some (if PooledSocket_getHasExpired ps (ev_now ev) (fallbackExpirationSecs (pool st))
                     || ps_closeOnRelease ps
                  then Drop [s] Return else Releasing s), false).
(** ... and otherwise marks it as available; *)
Definition release_finish (s : Z) (st : PoolState) : Stepped :=
  ps ← get_sock st s;
  Done (with_pool (set_sock st s (PooledSocket_setAvailable ps true)) (add_available (pool st) 1),
        None, true).
(** or [NodeConnPool_invalidateStreamSocket]. *)
Definition invalidateStreamSocket (s : Z) (st : PoolState) : Stepped :=
  Done (st, Some (Grab false (ThenInvalidate s)), false).

(** Both parts of [__NodeConnPool_invalidateSpecificStreamSocket], on the sockets that
    stage 2 of [__NodeConnPool_invalidateAvailableStreams] goes through. *)
Definition invalidateSpecific (todo : list Z) (after : After) (st : PoolState) : Stepped :=
  match todo with
  | [] => Done (st, after_op after, false)
  | s :: todo =>
      '(st, sockValid) ← invalidateSpecific_locked s st;
      Done (st, Some (if sockValid : bool then Shutdown s todo after else Drop todo after), sockValid)
  end.
Definition shutdown_and_destruct (s : Z) (todo : list Z) (after : After) (st : PoolState) : Stepped :=
  _ ← get_sock st s;
  Done (mkPoolState (pool st) (delete s (socks st)), Some (Drop todo after), false).

Definition invalidateAvailableStreams (idleStreamsOnly : bool) (after : After) (st : PoolState)
    : Stepped :=
  '(st, grabbed) ← grab_available idleStreamsOnly (connList (pool st)) st;
  Done (st, Some (Drop grabbed after), false).

Definition resetStreamsIdleFlag (st : PoolState) : Stepped :=
  st ← reset_idle (connList (pool st)) st; Done (st, None, false).

Definition NodeConnPool_updateInterfaces (port : Z) (nics : list NicAddress) (st : PoolState)
    : Stepped :=
  let p := pool st in
  let portHasChanged := negb (port =? 0) && negb (port =? streamPort p) in
  let p := set_interfaces p (if portHasChanged then port else streamPort p) nics in
  Done (with_pool st p, if portHasChanged then Some (Grab false Return) else None, false).

Definition op_step (ev : Ev) (op : Op) (st : PoolState) : Stepped :=
  match op with
  | AcquireStart allowWaiting => acquire_start ev allowWaiting st
  | AcquireAsleep => acquire_asleep ev st
  | AcquireAwake => acquire_awake ev st
  | AcquireSem nics => acquire_sem ev nics st
  | AcquireConnect nics => acquire_connect ev nics st
  | AcquireUp res => acquire_up res st
  | AcquireFinish res =>
      acquire_finish res (match res with Killed => true | _ => ev_killed ev end) st
  | Holding s => if ev_invalidate ev then invalidateStreamSocket s st else release_start ev s st
  | Releasing s => release_finish s st
  | Grab idleStreamsOnly after => invalidateAvailableStreams idleStreamsOnly after st
  | Drop todo after => invalidateSpecific todo after st
  | Shutdown s todo after => shutdown_and_destruct s todo after st
  | ResetIdle => resetStreamsIdleFlag st
  | UpdateInterfaces port nics => NodeConnPool_updateInterfaces port nics st
  end.

(** ** All threads *)

Record World := mkWorld { state : PoolState; ops : list Op }.

(** [Condition_signal] wakes all that wait, since none of them waits exclusively. *)
Definition wake (signal : bool) (op : Op) : Op :=
  match op with AcquireAsleep => if signal then AcquireAwake else AcquireAsleep | _ => op end.

(** The calls of the header; a socket is released or invalidated by its holder. *)
Definition call (op : Op) : bool :=
  match op with
  | AcquireStart _ | Grab _ Return | Grab _ ThenResetIdle | UpdateInterfaces _ _ => true
  | _ => false
  end.

Inductive step (w : World) : World -> Prop :=
  | step_call op : call op = true -> step w (mkWorld (state w) (op :: ops w))
  | step_op l1 op l2 ev st op' signal :
      ops w = l1 ++ op :: l2 -> op_step ev op (state w) = Done (st, op', signal) ->
      step w (mkWorld st (wake signal <$> l1 ++ option_list op' ++ l2)).

Inductive reachable (w0 : World) : World -> Prop :=
  | reach_refl : reachable w0 w0
  | reach_step w w' : reachable w0 w -> step w w' -> reachable w0 w'.

End Connecting.
