(* ===== verification/NodeConnPoolInv.v ===== *)
(** * Connection pools: properties

    The invariant of a pool that any number of threads use ([inv]), kept by every
    step of every interleaving; what it means for the holders of connections and for
    the threads that sleep; and the two ways in which a fatal signal costs the pool a
    connection for good. *)

From stdpp Require Import gmap.
From S2P Require Import Prelude Serialization SerializationLists NodeConnPool.

(** ** What a call under way accounts for *)

Definition after_socks (after : After) : list Z :=
  match after with ThenInvalidate s => [s] | _ => [] end.

(** Sockets of the list that belong to the call, and sockets outside of the list. *)
Definition owned (op : Op) : list Z :=
  match op with
  | Holding s | Releasing s => [s]
  | Grab _ after => after_socks after
  | Drop todo after | Shutdown _ todo after => todo ++ after_socks after
  | _ => []
  end.
Definition loose (op : Op) : list Z :=
  match op with
  | AcquireUp (Connected s) | AcquireFinish (Connected s) | Shutdown s _ _ => [s]
  | _ => []
  end.
(** Connections counted before they are in the list. *)
Definition slots (op : Op) : nat :=
  match op with
  | AcquireSem _ | AcquireConnect _ | AcquireUp _ | AcquireFinish _ => 1
  | _ => 0
  end.

Definition opt_owned (op : option Op) : list Z := from_option owned [] op.
Definition opt_loose (op : option Op) : list Z := from_option loose [] op.
Definition opt_slots (op : option Op) : nat := from_option slots 0%nat op.

(** ** The invariant *)

Definition has_avail (st : PoolState) (b : bool) (s : Z) : Prop :=
  exists ps, socks st !! s = Some ps /\ ps_available ps = b.

Definition type_of (st : PoolState) (s : Z) : Z := from_option ps_nicType 0 (socks st !! s).

Definition other_type (ty : Z) : Prop := ty <> NICADDRTYPE_RDMA /\ ty <> NICADDRTYPE_SDP.
Definition stats_of (types : list Z) : NodeConnPoolStats :=
  mkStats (Z.of_nat (length (filter other_type types)))
    (Z.of_nat (length (filter (fun ty => ty = NICADDRTYPE_SDP) types)))
    (Z.of_nat (length (filter (fun ty => ty = NICADDRTYPE_RDMA) types))).

(** [F]: the available sockets; [O], [L]: those of the calls under way, in the list and
    outside of it; [n]: connections about to be established. *)
Record pool_ok (F O L : list Z) (n : nat) (st : PoolState) : Prop := {
  ok_list : connList (pool st) ≡ₚ F ++ O;
  ok_nodup : NoDup (F ++ O ++ L);
  ok_free : Forall (has_avail st true) F;
  ok_used : Forall (has_avail st false) (O ++ L);
  ok_avail : availableConns (pool st) = Z.of_nat (length F);
  ok_count : Z.of_nat (length F + length O + n) <= establishedConns (pool st) <= maxConns (pool st);
  ok_exact : maxConcurrentAttempts (pool st) <= 0 ->
    establishedConns (pool st) = Z.of_nat (length F + length O + n);
  ok_max : maxConns (pool st) < 2 ^ 32;
  ok_stats : stats (pool st) = stats_of (type_of st <$> connList (pool st)) }.

(** [lost] connections are counted for nobody, and the sockets [X] belong to nobody. *)
Definition inv (lost : nat) (X : list Z) (w : World) : Prop :=
  (exists F, pool_ok F (ops w ≫= owned) ((ops w ≫= loose) ++ X) (sum_list_with slots (ops w) + lost) (state w)) /\
  (AcquireAsleep ∈ ops w -> all_busy (pool (state w)) = true).

(** ** Lemmas on the parts *)

#[export] Instance stats_of_perm : Proper (Permutation ==> eq) stats_of.
Proof. intros l l' H. unfold stats_of. by rewrite H. Qed.

Lemma filter_cons_length (P : Z -> Prop) `{!forall x, Decision (P x)} x l :
  length (filter P (x :: l)) = ((if decide (P x) then 1 else 0) + length (filter P l))%nat.
Proof. rewrite filter_cons. by destruct (decide (P x)). Qed.

Lemma filter_length_le (P : Z -> Prop) `{!forall x, Decision (P x)} l : (length (filter P l) <= length l)%nat.
Proof. induction l as [|x l IH]; [done|]. rewrite filter_cons_length. cbn [length]. destruct (decide _); lia. Qed.

Lemma stats_of_length l :
  0 <= numEstablishedStd (stats_of l) <= Z.of_nat (length l) /\
  0 <= numEstablishedSDP (stats_of l) <= Z.of_nat (length l) /\
  0 <= numEstablishedRDMA (stats_of l) <= Z.of_nat (length l).
Proof.
  unfold stats_of. cbn. pose proof (filter_length_le other_type l).
  pose proof (filter_length_le (fun ty => ty = NICADDRTYPE_SDP) l).
  pose proof (filter_length_le (fun ty => ty = NICADDRTYPE_RDMA) l). lia.
Qed.

Lemma stats_of_cons ty l :
  stats_of (ty :: l) = mkStats
    ((if decide (other_type ty) then 1 else 0) + numEstablishedStd (stats_of l))
    ((if decide (ty = NICADDRTYPE_SDP) then 1 else 0) + numEstablishedSDP (stats_of l))
    ((if decide (ty = NICADDRTYPE_RDMA) then 1 else 0) + numEstablishedRDMA (stats_of l)).
Proof.
  unfold stats_of. cbn [numEstablishedStd numEstablishedSDP numEstablishedRDMA].
  rewrite !filter_cons_length.
  f_equal; destruct (decide _); lia.
Qed.

Ltac by_type ty :=
  unfold NICADDRTYPE_RDMA, NICADDRTYPE_SDP, other_type in *;
  destruct (Z.eqb_spec ty 2); [|destruct (Z.eqb_spec ty 1)]; subst;
  repeat (case_decide; unfold NICADDRTYPE_RDMA, NICADDRTYPE_SDP, other_type in *; try (exfalso; lia)).

Lemma stats_add ty l : Z.of_nat (length l) < 2 ^ 32 - 1 ->
  __NodeConnPool_statsAddNic (stats_of l) ty = stats_of (ty :: l).
Proof.
  intros Hl. pose proof (stats_of_length l) as H. rewrite stats_of_cons.
  unfold __NodeConnPool_statsAddNic. by_type ty; f_equal; try lia; rewrite u32_id; unfold in_u; lia.
Qed.

Lemma stats_remove ty l : Z.of_nat (length l) < 2 ^ 32 - 1 ->
  __NodeConnPool_statsRemoveNic (stats_of (ty :: l)) ty = stats_of l.
Proof.
  intros Hl. pose proof (stats_of_length l) as H. rewrite stats_of_cons.
  unfold __NodeConnPool_statsRemoveNic. destruct (stats_of l) as [a b c]. cbn in *.
  by_type ty; f_equal; try lia; rewrite u32_id; unfold in_u; lia.
Qed.

Lemma pool_ok_perm F F' O O' L L' n n' st :
  F ≡ₚ F' -> O ≡ₚ O' -> L ≡ₚ L' -> n = n' -> pool_ok F O L n st -> pool_ok F' O' L' n' st.
Proof.
  intros HF HO HL <- [H1 H2 H3 H4 H5 H6 H7 H8 H9]. split; try done.
  - by rewrite <- HF, <- HO.
  - by rewrite <- HF, <- HO, <- HL.
  - by rewrite <- HF.
  - by rewrite <- HO, <- HL.
  - by rewrite <- HF.
  - by rewrite <- HF, <- HO.
  - by rewrite <- HF, <- HO.
Qed.

Lemma pool_ok_free F F' O L n st : F ≡ₚ F' -> pool_ok F O L n st -> pool_ok F' O L n st.
Proof. intros HF. by apply pool_ok_perm. Qed.

(** The lists after a change of one socket. *)
Lemma has_avail_other st s ps b x :
  x <> s -> has_avail st b x -> has_avail (set_sock st s ps) b x.
Proof. intros Hne (p & E & Hb). exists p. cbn. by rewrite lookup_insert_ne. Qed.

Lemma Forall_avail_other st s ps b l :
  s ∉ l -> Forall (has_avail st b) l -> Forall (has_avail (set_sock st s ps) b) l.
Proof.
  intros Hs Hl. apply Forall_forall. intros x Hx. apply has_avail_other; [by intros ->|].
  by eapply Forall_forall in Hl.
Qed.

Lemma types_same st s ps ps' (l : list Z) :
  socks st !! s = Some ps -> ps_nicType ps' = ps_nicType ps ->
  type_of (set_sock st s ps') <$> l = type_of st <$> l.
Proof.
  intros E Et. apply list_fmap_ext. intros _ x _. unfold type_of, set_sock. cbn.
  destruct (decide (x = s)) as [->|Hne]; [rewrite lookup_insert_eq, E; done|by rewrite lookup_insert_ne].
Qed.

Lemma types_other st s ps (l : list Z) :
  s ∉ l -> type_of (set_sock st s ps) <$> l = type_of st <$> l.
Proof.
  intros Hs. apply list_fmap_ext. intros k x Hx. unfold type_of, set_sock. cbn.
  rewrite lookup_insert_ne; [done|]. intros <-. by eapply Hs, list_elem_of_lookup_2.
Qed.

(** ** The sections under the mutex *)

Lemma get_bind {B} st s ps (k : PooledSocket -> outcome B) :
  socks st !! s = Some ps -> (x ← get_sock st s; k x) = k ps.
Proof. unfold get_sock. by intros ->. Qed.

Section Sections.
Context (F O L : list Z) (n : nat) (st : PoolState).

Lemma avail_in_free s : pool_ok F O L n st -> s ∈ connList (pool st) -> has_avail st true s -> s ∈ F.
Proof.
  intros [H1 H2 H3 H4 _ _ _ _ _] Hs (ps & E & Ea). rewrite H1 in Hs. apply elem_of_app in Hs as [|Hs]; [done|].
  exfalso. eapply Forall_forall in H4 as (ps' & E' & Eb); [|apply elem_of_app; by left]. congruence.
Qed.

Lemma listed_sock s : pool_ok F O L n st -> s ∈ connList (pool st) -> exists ps, socks st !! s = Some ps.
Proof.
  intros [H1 H2 H3 H4 _ _ _ _ _] Hs. rewrite H1 in Hs. apply elem_of_app in Hs as [Hs|Hs].
  - eapply Forall_forall in H3 as (ps & E & _); [by exists ps|done].
  - eapply Forall_forall in H4 as (ps & E & _); [by exists ps|apply elem_of_app; by left].
Qed.

Lemma find_available_ok l :
  Forall (fun s => exists ps, socks st !! s = Some ps) l -> Exists (has_avail st true) l ->
  exists s, find_available st l = Done s /\ s ∈ l /\ has_avail st true s.
Proof.
  induction l as [|s l IH]; intros Hl He; [by inversion He|]. cbn [find_available].
  inversion_clear Hl as [|?? (ps & E) Hl']. rewrite (get_bind _ _ _ _ E).
  destruct (ps_available ps) eqn:Ea.
  - exists s. split; [done|]. split; [by left|by exists ps].
  - destruct IH as (y & Ey & Hy & Hay); [done| |exists y; split; [done|]; split; [by right|done]].
    inversion_clear He as [?? (ps' & E' & Ea')|]; [congruence|done].
Qed.

Lemma take_available s ps :
  pool_ok (s :: F) O L n st -> socks st !! s = Some ps -> ps_available ps = true ->
  forall ps', ps_available ps' = false -> ps_nicType ps' = ps_nicType ps ->
  let st' := set_sock st s ps' in
  pool_ok F (s :: O) L n (with_pool st' (add_available (pool st') (-1))).
Proof.
  intros [H1 H2 H3 H4 H5 H6 H7 H8 H9] E Ea ps' Ea' Et st'. cbn [length] in *.
  assert (Hs : s ∉ F /\ s ∉ O ++ L /\ NoDup (F ++ O ++ L)).
  { cbn in H2. apply NoDup_cons in H2 as [Hs HN]. set_solver. }
  destruct Hs as (HsF & HsO & HN). split; cbn -[Z.pow]; rewrite ?length_app in *.
  - rewrite H1. apply Permutation_middle.
  - rewrite <- (Permutation_middle F (O ++ L) s). apply NoDup_cons. split; [set_solver|done].
  - apply Forall_avail_other; [done|]. by inversion_clear H3.
  - constructor; [|by apply Forall_avail_other]. exists ps'. cbn. by rewrite lookup_insert_eq.
  - rewrite H5, u32_id; [lia|unfold in_u; lia].
  - cbn in *. lia.
  - cbn in *. intros Hm. specialize (H7 Hm). lia.
  - done.
  - rewrite H9. f_equal. symmetry. exact (types_same st s ps ps' _ E Et).
Qed.
End Sections.

(** Nothing but counters of connections to come has changed. *)
Lemma pool_ok_count F O L n n' st p' :
  pool_ok F O L n st -> connList p' = connList (pool st) -> availableConns p' = availableConns (pool st) ->
  maxConns p' = maxConns (pool st) -> maxConcurrentAttempts p' = maxConcurrentAttempts (pool st) ->
  stats p' = stats (pool st) ->
  establishedConns p' - Z.of_nat n' = establishedConns (pool st) - Z.of_nat n ->
  establishedConns p' <= maxConns (pool st) ->
  pool_ok F O L n' (with_pool st p').
Proof.
  intros [H1 H2 H3 H4 H5 H6 H7 H8 H9] E1 E2 E3 E4 E5 E6 E7.
  split; cbn -[Z.pow]; rewrite ?E1, ?E2, ?E3, ?E4, ?E5; try done; [lia|].
  intros Hm. specialize (H7 Hm). lia.
Qed.

Lemma acquire_locked_ok F O L n st :
  pool_ok F O L n st -> all_busy (pool st) = false ->
  exists st' op F', acquire_locked st = Done (st', op) /\ op <> AcquireAsleep /\
    pool_ok F' (owned op ++ O) (loose op ++ L) (slots op + n) st'.
Proof.
  intros HP Hb. pose proof HP as [H1 H2 H3 H4 H5 H6 H7 H8 H9]. unfold acquire_locked, all_busy in *.
  destruct (Z.eqb_spec (availableConns (pool st)) 0) as [E0|E0]; cbn [negb andb] in *.
  - exists (with_pool st (add_established (pool st) 1)), (AcquireSem (nicList (pool st))), F.
    split; [done|]. split; [done|]. apply Z.eqb_neq in Hb.
    assert (Eu : u32 (establishedConns (pool st) + 1) = establishedConns (pool st) + 1)
      by (apply u32_id; unfold in_u; lia).
    apply (pool_ok_count _ _ _ n); cbn; try done; rewrite Eu; lia.
  - destruct (find_available_ok st (connList (pool st))) as (s & Ef & Hs & Ha).
    { apply Forall_forall. intros x Hx. by eapply listed_sock. }
    { destruct F as [|x F]; [cbn in H5; lia|]. apply Exists_exists. exists x.
      split; [rewrite H1; by left|]. by inversion_clear H3. }
    rewrite Ef. cfs_simpl. pose proof (avail_in_free _ _ _ _ _ s HP Hs Ha) as HF.
    destruct Ha as (ps & E & Ea). rewrite (get_bind _ _ _ _ E).
    apply elem_of_Permutation in HF as [F' HF].
    eexists _, (Holding s), F'. split; [done|]. split; [done|].
    eapply (pool_ok_perm F' F' (s :: O)); [done|done|done|done|].
    by refine (take_available F' O L n st s ps (pool_ok_free _ _ _ _ _ _ HF HP) E Ea _ _ _).
Qed.

Lemma grab_available_ok idle l F O L n st :
  pool_ok F O L n st -> NoDup l -> (forall s, s ∈ l -> s ∈ connList (pool st)) ->
  exists st' g F', grab_available idle l st = Done (st', g) /\ F ≡ₚ F' ++ g /\
    pool_ok F' (g ++ O) L n st' /\
    establishedConns (pool st') = establishedConns (pool st) /\ maxConns (pool st') = maxConns (pool st).
Proof.
  revert F O st. induction l as [|s l IH]; intros F O st HP HN Hl; cbn [grab_available].
  { exists st, [], F. split_and!; try done. by rewrite app_nil_r. }
  apply NoDup_cons in HN as [Hsl HN].
  destruct (listed_sock _ _ _ _ _ s HP) as [ps E]; [apply Hl; by left|]. rewrite (get_bind _ _ _ _ E).
  destruct (ps_available ps) eqn:Ea; cbn [negb orb].
  2: { apply IH; [done|done|]. intros x Hx. apply Hl. by right. }
  destruct (idle && ps_hasActivity ps). { apply IH; [done|done|]. intros x Hx. apply Hl. by right. }
  assert (HF : s ∈ F).
  { eapply avail_in_free; [exact HP|apply Hl; by left|by exists ps]. }
  apply elem_of_Permutation in HF as [F1 HF].
  pose proof (take_available F1 O L n st s ps (pool_ok_free _ _ _ _ _ _ HF HP)
    E Ea (PooledSocket_setAvailable ps false) eq_refl eq_refl) as HP1. cbv zeta in HP1.
  edestruct (IH F1 (s :: O) _ HP1 HN) as (st' & g & F' & Eg & HFg & HP' & Ee & Em).
  { intros x Hx. apply Hl. by right. }
  rewrite Eg. cfs_simpl. exists st', (s :: g), F'. split_and!; [done| | |by rewrite Ee|by rewrite Em].
  - rewrite HF, HFg. apply Permutation_middle.
  - eapply (pool_ok_perm F' F' (g ++ s :: O)); [done| |done|done|done].
    cbn. symmetry. apply Permutation_middle.
Qed.

Lemma reset_idle_ok l F O L n st :
  pool_ok F O L n st -> (forall s, s ∈ l -> s ∈ connList (pool st)) ->
  exists st', reset_idle l st = Done st' /\ pool_ok F O L n st' /\ pool st' = pool st.
Proof.
  revert st. induction l as [|s l IH]; intros st HP Hl; cbn [reset_idle]; [by exists st|].
  destruct (listed_sock _ _ _ _ _ s HP) as [ps E]; [apply Hl; by left|]. rewrite (get_bind _ _ _ _ E).
  assert (Hl' : forall x, x ∈ l -> x ∈ connList (pool st)) by (intros x Hx; apply Hl; by right).
  destruct (ps_available ps) eqn:Ea; [|by apply IH].
  destruct (IH (set_sock st s (PooledSocket_resetHasActivity ps))) as (st' & Er & HP' & Ep); [|done|by exists st'].
  assert (Hav : forall b x, has_avail st b x -> has_avail (set_sock st s (PooledSocket_resetHasActivity ps)) b x).
  { intros b x (p & Ep & Eb). unfold has_avail, set_sock. cbn. destruct (decide (x = s)) as [->|Hne].
    - rewrite lookup_insert_eq. eexists. split; [done|]. cbn. congruence.
    - rewrite lookup_insert_ne by done. by exists p. }
  destruct HP as [H1 H2 H3 H4 H5 H6 H7 H8 H9]. split; try done.
  - eapply Forall_impl; [done|apply Hav].
  - eapply Forall_impl; [done|apply Hav].
  - cbn [set_sock pool]. rewrite H9. f_equal. symmetry. by eapply types_same.
Qed.

(** Giving a socket to the pool: the end of connecting, and releasing. *)
Lemma add_listed_ok F O L n st s ps ip ty :
  pool_ok F O (s :: L) (S n) st -> socks st !! s = Some ps ->
  let p := set_connList (pool st) (connList (pool st) ++ [s])
             (__NodeConnPool_statsAddNic (stats (pool st)) (ps_nicType ps)) in
  pool_ok F (s :: O) L n (with_pool st (__NodeConnPool_setConnSuccess p ip ty)).
Proof.
  intros [H1 H2 H3 H4 H5 H6 H7 H8 H9] E p. cbn [length] in *.
  assert (Et : [type_of st s] = [ps_nicType ps]) by (unfold type_of; by rewrite E).
  assert (Hlen : length (connList (pool st)) = (length F + length O)%nat) by (by rewrite H1, length_app).
  split; cbn -[Z.pow]; try done; try lia.
  - rewrite H1, <- app_assoc. f_equiv. by rewrite (Permutation_app_comm O [s]).
  - rewrite <- (Permutation_middle F (O ++ L) s). rewrite <- (Permutation_middle O L s) in H2.
    by rewrite <- (Permutation_middle F (O ++ L) s) in H2.
  - by rewrite <- (Permutation_middle O L s) in H4.
  - rewrite H9, fmap_app. cbn [fmap list_fmap]. change (type_of (with_pool st ?q)) with (type_of st).
    rewrite Et, stats_add by (rewrite length_fmap; lia). by rewrite (Permutation_app_comm _ [_]).
Qed.

Lemma pool_release_ok F O L n st s ps :
  pool_ok F (s :: O) L n st -> socks st !! s = Some ps ->
  pool_ok (s :: F) O L n
    (with_pool (set_sock st s (PooledSocket_setAvailable ps true)) (add_available (pool st) 1)).
Proof.
  intros [H1 H2 H3 H4 H5 H6 H7 H8 H9] E. cbn [length] in *.
  rewrite <- (Permutation_middle F (O ++ L) s : _ ≡ₚ F ++ (s :: O) ++ L) in H2.
  apply NoDup_cons in H2 as [Hs HN]. cbn in H4.
  split; cbn -[Z.pow]; try done.
  - rewrite H1. symmetry. apply Permutation_middle.
  - apply NoDup_cons. done.
  - constructor; [eexists; cbn; by rewrite lookup_insert_eq|]. apply Forall_avail_other; [set_solver|done].
  - apply Forall_avail_other; [set_solver|]. by inversion_clear H4.
  - rewrite H5, u32_id; [lia|unfold in_u; lia].
  - lia.
  - intros Hm. specialize (H7 Hm). lia.
  - rewrite H9. f_equal. symmetry. by eapply types_same.
Qed.

Lemma list_remove_notin s (l : list Z) : s ∉ l -> list_remove s l = l.
Proof.
  unfold list_remove. induction l as [|x l IH]; intros Hs; [done|].
  rewrite filter_cons_True by set_solver. f_equal. apply IH. set_solver.
Qed.

Lemma list_remove_perm s (l l' : list Z) :
  NoDup l -> l ≡ₚ s :: l' -> list_remove s l ≡ₚ l'.
Proof.
  intros HN Hp. rewrite Hp in HN. apply NoDup_cons in HN as [Hs HN].
  transitivity (list_remove s (s :: l')); [unfold list_remove; by rewrite Hp|].
  unfold list_remove. rewrite filter_cons_False by (intros H; by apply H).
  fold (list_remove s l'). by rewrite list_remove_notin.
Qed.

(** Taking a socket off the list. *)
Lemma remove_ok F O L n st s :
  pool_ok F (s :: O) L n st -> exists st',
    invalidateSpecific_locked s st = Done (st', true) /\ pool_ok F O (s :: L) n st' /\ socks st' = socks st.
Proof.
  intros HP. pose proof HP as [H1 H2 H3 H4 H5 H6 H7 H8 H9]. cbn [length] in *.
  assert (Hs : s ∈ connList (pool st)) by (rewrite H1; set_solver).
  destruct (listed_sock _ _ _ _ _ s HP Hs) as [ps E].
  unfold invalidateSpecific_locked. rewrite bool_decide_true by done. rewrite (get_bind _ _ _ _ E).
  eexists. split; [done|]. split; [|done].
  assert (Hp : connList (pool st) ≡ₚ s :: F ++ O) by (rewrite H1; symmetry; apply Permutation_middle).
  assert (HN : NoDup (connList (pool st))).
  { rewrite H1. rewrite app_assoc in H2. by apply NoDup_app in H2 as [? _]. }
  pose proof (list_remove_perm s _ _ HN Hp) as Hr.
  assert (Et : type_of st s = ps_nicType ps) by (unfold type_of; by rewrite E).
  assert (Eu : u32 (establishedConns (pool st) + -1) = establishedConns (pool st) - 1)
    by (apply u32_id; unfold in_u; lia).
  split; cbn -[Z.pow list_remove]; try done.
  - rewrite <- (Permutation_middle O L s). done.
  - by rewrite <- (Permutation_middle O L s).
  - rewrite Eu. lia.
  - rewrite Eu. intros Hm. specialize (H7 Hm). lia.
  - change (type_of (with_pool st ?q)) with (type_of st). rewrite H9.
    rewrite Hp at 1. cbn [fmap list_fmap]. rewrite Et.
    rewrite stats_remove by (rewrite length_fmap, length_app; lia).
    by rewrite Hr.
Qed.

(** ** One step of one call *)

Lemma drop_slot F O L n st :
  0 < maxConcurrentAttempts (pool st) -> pool_ok F O L (S n) st -> pool_ok F O L n st.
Proof. intros Hm [H1 H2 H3 H4 H5 H6 H7 H8 H9]. split; try done; [lia|intros; lia]. Qed.

Lemma drop_loose F O L n s st : pool_ok F O (s :: L) n st -> pool_ok F O L n st.
Proof.
  intros [H1 H2 H3 H4 H5 H6 H7 H8 H9]. rewrite <- (Permutation_middle O L s) in H2, H4.
  rewrite <- (Permutation_middle F (O ++ L) s) in H2. apply NoDup_cons in H2 as [_ H2].
  inversion_clear H4. by split.
Qed.

Lemma known_sock F O L n st s :
  pool_ok F O L n st -> s ∈ F ++ O ++ L -> exists ps, socks st !! s = Some ps.
Proof.
  intros [H1 H2 H3 H4 _ _ _ _ _] Hs. apply elem_of_app in Hs as [Hs|Hs].
  - eapply Forall_forall in H3 as (ps & E & _); [by exists ps|done].
  - eapply Forall_forall in H4 as (ps & E & _); [by exists ps|done].
Qed.

Lemma new_sock_ok F O L n st ps :
  pool_ok F O L n st -> ps_available ps = false ->
  pool_ok F O (fresh (dom (socks st)) :: L) n (set_sock st (fresh (dom (socks st))) ps).
Proof.
  intros HP Ha. set (s := fresh (dom (socks st))).
  assert (Hs : s ∉ F ++ O ++ L).
  { intros Hs. destruct (known_sock _ _ _ _ _ s HP Hs) as [p E].
    apply (is_fresh (dom (socks st))), elem_of_dom. by exists p. }
  destruct HP as [H1 H2 H3 H4 H5 H6 H7 H8 H9]. split; try done.
  - rewrite <- (Permutation_middle O L s), <- (Permutation_middle F (O ++ L) s). apply NoDup_cons. done.
  - apply Forall_avail_other; [set_solver|done].
  - rewrite <- (Permutation_middle O L s). constructor.
    + exists ps. cbn. by rewrite lookup_insert_eq.
    + apply Forall_avail_other; [set_solver|done].
  - cbn [pool set_sock]. rewrite types_other; [done|]. rewrite H1. set_solver.
Qed.

Lemma delete_sock_ok F O L n st s :
  pool_ok F O (s :: L) n st -> pool_ok F O L n (mkPoolState (pool st) (delete s (socks st))).
Proof.
  intros HP. pose proof (drop_loose _ _ _ _ _ _ HP) as [H1 H2 H3 H4 H5 H6 H7 H8 H9].
  destruct HP as [_ HN _ _ _ _ _ _ _]. rewrite <- (Permutation_middle O L s) in HN.
  rewrite <- (Permutation_middle F (O ++ L) s) in HN. apply NoDup_cons in HN as [Hs _].
  assert (Hav : forall b x, x ∈ F ++ O ++ L -> has_avail st b x ->
    has_avail (mkPoolState (pool st) (delete s (socks st))) b x).
  { intros b x Hx (p & E & Ea). exists p. cbn. rewrite lookup_delete_ne; [done|]. by intros ->. }
  split; try done.
  - apply Forall_forall. intros x Hx. apply Hav; [set_solver|]. by eapply Forall_forall in H3.
  - apply Forall_forall. intros x Hx. apply Hav; [set_solver|]. by eapply Forall_forall in H4.
  - cbn [pool]. rewrite H9. f_equal. apply list_fmap_ext. intros k x Hx. unfold type_of. cbn.
    rewrite lookup_delete_ne; [done|]. intros ->. apply Hs.
    apply list_elem_of_lookup_2 in Hx. rewrite H1 in Hx. set_solver.
Qed.

Section Steps.
Context (allowed contained : Z -> bool).
Notation op_step := (op_step allowed contained).

Lemma connect_nics_unavailable p attempts k nics primary ps :
  connect_nics allowed contained p attempts k nics primary = Connected ps -> ps_available ps = false.
Proof.
  revert k primary. induction nics as [|nic nics IH]; intros k primary; cbn [connect_nics]; [done|].
  destruct (_ || _); [apply IH|]. destruct (_ || _).
  { destruct (at_killed _); [done|apply IH]. }
  destruct (at_connected _); [|destruct (at_killed _); [done|apply IH]].
  intros [= <-]. by destruct primary.
Qed.

(** What a step must keep for the threads that sleep. *)
Definition sleep_ok (st st' : PoolState) (op' : option Op) (signal : bool) : Prop :=
  (signal = false -> all_busy (pool st) = true -> all_busy (pool st') = true) /\
  (op' = Some AcquireAsleep -> all_busy (pool st') = true).

Definition step_ok (op : Op) (ev : Ev) (F O L : list Z) (n : nat) (st : PoolState) : Prop :=
  exists st' op' signal F', op_step ev op st = Done (st', op', signal) /\
    pool_ok F' (opt_owned op' ++ O) (opt_loose op' ++ L) (opt_slots op' + n) st' /\
    sleep_ok st st' op' signal.

Lemma try_acquire_ok F O L n st (b : bool) :
  pool_ok F O L n st ->
  exists st' op' signal F',
    (if all_busy (pool st) then Done (st, if b then Some AcquireAsleep else None, false)
     else '(st, op) ← acquire_locked st; Done (st, Some op, false)) = Done (st', op', signal) /\
    pool_ok F' (opt_owned op' ++ O) (opt_loose op' ++ L) (opt_slots op' + n) st' /\
    sleep_ok st st' op' signal.
Proof.
  intros HP. destruct (all_busy (pool st)) eqn:Eb.
  - eexists st, _, _, F. split; [done|]. split; [by destruct b|]. split; [done|]. done.
  - destruct (acquire_locked_ok _ _ _ _ _ HP Eb) as (st' & op & F' & E & Hne & HP'). rewrite E. cfs_simpl.
    exists st', (Some op), false, F'. split; [done|]. split; [done|]. split; [congruence|]. by intros [= ->].
Qed.

(** A step that keeps the counters that matter to those who sleep. *)
Lemma sleep_same st st' op' signal :
  availableConns (pool st') = availableConns (pool st) ->
  establishedConns (pool st') = establishedConns (pool st) -> maxConns (pool st') = maxConns (pool st) ->
  op' <> Some AcquireAsleep -> sleep_ok st st' op' signal.
Proof. intros E1 E2 E3 Hne. unfold sleep_ok, all_busy. rewrite E1, E2, E3. by split. Qed.

Lemma sleep_signal st st' op' : op' <> Some AcquireAsleep -> sleep_ok st st' op' true.
Proof. by split. Qed.

Lemma finish_ok res killed F O L n st :
  pool_ok F O (loose (AcquireFinish res) ++ L) (S n) st -> (res = Killed -> killed = true) ->
  exists st' op' signal F', acquire_finish res killed st = Done (st', op', signal) /\
    pool_ok F' (opt_owned op' ++ O) (opt_loose op' ++ L) (opt_slots op' + n) st' /\
    sleep_ok st st' op' signal.
Proof.
  intros HP Hk. pose proof HP as [H1 H2 H3 H4 H5 H6 H7 H8 H9].
  assert (HF : exists st', Done (with_pool st (if killed then add_established (pool st) (-1)
      else __NodeConnPool_setCompleteFail (add_established (pool st) (-1))), None : option Op, true) =
      Done (st', None, true) /\ pool_ok F O L n st').
  { eexists. split; [done|].
    assert (HP' : pool_ok F O L (S n) st) by (destruct res; [exact (drop_loose _ _ _ _ _ _ HP)|exact HP|exact HP]).
    assert (Eu : u32 (establishedConns (pool st) + -1) = establishedConns (pool st) - 1)
      by (apply u32_id; unfold in_u; lia).
    by destruct killed; apply (pool_ok_count _ _ _ (S n)); cbn; try done; rewrite Eu; lia. }
  unfold acquire_finish. destruct res as [s| |].
  - destruct killed.
    + destruct HF as (st' & E & HP'). eexists st', _, _, F. rewrite E. split; [done|]. split; [done|].
      by apply sleep_signal.
    + destruct (known_sock _ _ _ _ _ s HP) as [ps E]; [cbn; set_solver|].
      rewrite (get_bind _ _ _ _ E). eexists _, (Some (Holding s)), false, F. split; [done|].
      split; [by apply add_listed_ok|by apply sleep_same].
  - destruct HF as (st' & E & HP'). eexists st', _, _, F. rewrite E. split; [done|]. split; [done|].
    by apply sleep_signal.
  - rewrite Hk in * by done. destruct HF as (st' & E & HP'). eexists st', _, _, F. rewrite E.
    split; [done|]. split; [done|]. by apply sleep_signal.
Qed.

Lemma grab_ok idle after F O L n st :
  pool_ok F (after_socks after ++ O) L n st ->
  exists st' g F', grab_available idle (connList (pool st)) st = Done (st', g) /\
    pool_ok F' ((g ++ after_socks after) ++ O) L n st' /\
    sleep_ok st st' (Some (Drop g after)) false.
Proof.
  intros HP. pose proof HP as [H1 H2 H3 H4 H5 H6 H7 H8 H9].
  destruct (grab_available_ok idle (connList (pool st)) _ _ _ _ _ HP) as (st' & g & F' & E & HF & HP' & Ee & Em).
  { rewrite H1. rewrite app_assoc in H2. by apply NoDup_app in H2 as [? _]. }
  { done. }
  exists st', g, F'. split; [done|]. split; [by rewrite <- app_assoc|]. split; [|done].
  intros _. unfold all_busy. rewrite Ee, Em, H5, (ok_avail _ _ _ _ _ HP'), HF, length_app.
  rewrite !andb_true_iff, !Z.eqb_eq. lia.
Qed.

Lemma op_step_ok ev op F O L n st :
  pool_ok F (owned op ++ O) (loose op ++ L) (slots op + n) st ->
  (op = AcquireAsleep -> all_busy (pool st) = true) -> step_ok op ev F O L n st.
Proof.
  intros HP Hsleep. unfold step_ok.
  assert (Hend : forall signal, owned op = [] -> loose op = [] -> slots op = 0%nat -> exists st' op' sg F',
    Done (st, None, signal) = Done (st', op', sg) /\
    pool_ok F' (opt_owned op' ++ O) (opt_loose op' ++ L) (opt_slots op' + n) st' /\ sleep_ok st st' op' sg).
  { intros signal Eo El Es. rewrite Eo, El, Es in HP. eexists st, _, _, F. split; [done|].
    split; [done|by apply sleep_same]. }
  destruct op; cbn [NodeConnPool.op_step]; unfold acquire_start, acquire_continue, acquire_asleep, acquire_awake, acquire_sem, acquire_connect, acquire_up, release_start, release_finish, invalidateStreamSocket, invalidateSpecific, shutdown_and_destruct, invalidateAvailableStreams, resetStreamsIdleFlag, NodeConnPool_updateInterfaces.
  - destruct (ev_killed ev); [by apply Hend|by eapply try_acquire_ok].
  - destruct (ev_killed ev); [by apply Hend|].
    eexists st, _, _, F. split; [done|]. split; [done|]. split; [done|]. intros _. by apply Hsleep.
  - destruct (ev_killed ev); [by apply Hend|exact (try_acquire_ok F O L n st true HP)].
  - destruct (Z.leb_spec (maxConcurrentAttempts (pool st)) 0).
    { eexists st, _, _, F. split; [done|]. split; [done|by apply sleep_same]. }
    destruct (0 <? connSemaphore (pool st)).
    { eexists _, _, _, F. split; [done|]. split; [|by apply sleep_same].
      pose proof (ok_count _ _ _ _ _ HP). apply (pool_ok_count _ _ _ (1 + n)); try done; cbn in *; lia. }
    destruct (ev_killed ev).
    + eexists st, _, _, F. split; [done|]. split; [by apply drop_slot|by apply sleep_same].
    + eexists st, _, _, F. split; [done|]. split; [done|by apply sleep_same].
  - destruct (connect_nics _ _ _ _ _ _ _) as [ps| |] eqn:Ec.
    + eexists _, _, _, F. split; [done|]. split; [|by apply sleep_same].
      exact (new_sock_ok F O L (S n) st ps HP (connect_nics_unavailable _ _ _ _ _ _ Ec)).
    + eexists st, _, _, F. split; [done|]. split; [done|by apply sleep_same].
    + eexists st, _, _, F. split; [done|]. split; [done|by apply sleep_same].
  - eexists _, _, _, F. split; [done|]. split; [|by destruct (_ <? _); apply sleep_same].
    pose proof (ok_count _ _ _ _ _ HP).
    destruct (_ <? _); [|done]. apply (pool_ok_count _ _ _ (1 + n)); try done; cbn in *; lia.
  - apply (finish_ok res _ F O L n st HP). by intros ->.
  - destruct (ev_invalidate ev).
    { eexists st, _, _, F. split; [done|]. split; [done|by apply sleep_same]. }
    destruct (known_sock _ _ _ _ _ sock HP) as [ps E]; [cbn; set_solver|].
    rewrite (get_bind _ _ _ _ E). eexists st, _, _, F. split; [done|].
    by destruct (_ || _); (split; [|apply sleep_same]).
  - destruct (known_sock _ _ _ _ _ sock HP) as [ps E]; [cbn; set_solver|].
    rewrite (get_bind _ _ _ _ E). eexists _, _, _, (sock :: F). split; [done|].
    split; [exact (pool_release_ok F O L n st sock ps HP E)|by apply sleep_signal].
  - destruct (grab_ok idleStreamsOnly after F O L n st HP) as (st' & g & F' & E & HP' & Hs).
    rewrite E. cfs_simpl. by eexists st', _, _, F'.
  - destruct todo as [|s todo].
    + eexists st, _, _, F. split; [done|]. by destruct after; (split; [|apply sleep_same]).
    + destruct (remove_ok F ((todo ++ after_socks after) ++ O) L n st s HP) as (st' & E & HP' & _).
      rewrite E. cfs_simpl. eexists st', _, _, F. split; [done|]. split; [done|by apply sleep_signal].
  - destruct (known_sock _ _ _ _ _ sock HP) as [ps E]; [cbn; set_solver|].
    rewrite (get_bind _ _ _ _ E). eexists _, _, _, F. split; [done|].
    split; [exact (delete_sock_ok F _ L n st sock HP)|by apply sleep_same].
  - destruct (reset_idle_ok (connList (pool st)) _ _ _ _ _ HP) as (st' & E & HP' & Ep); [done|].
    rewrite E. cfs_simpl. eexists st', _, _, F. split; [done|]. split; [done|].
    apply sleep_same; by rewrite ?Ep.
  - eexists _, _, _, F. split; [done|].
    split; [|by destruct (_ && _); apply sleep_same].
    pose proof (ok_count _ _ _ _ _ HP).
    destruct (_ && _); apply (pool_ok_count _ _ _ n); try done; cbn in *; lia.
Qed.

(** ** One step of the world *)

Lemma bind_split (f : Op -> list Z) l1 op l2 : (l1 ++ op :: l2) ≫= f ≡ₚ f op ++ ((l1 ++ l2) ≫= f).
Proof.
  rewrite !bind_app, bind_cons. rewrite !(app_assoc), (Permutation_app_comm (l1 ≫= f) (f op)).
  done.
Qed.

Lemma bind_wake (f : Op -> list Z) b l :
  f AcquireAsleep = f AcquireAwake -> (wake b <$> l) ≫= f = l ≫= f.
Proof.
  intros Hf. induction l as [|op l IH]; [done|]. cbn [fmap list_fmap]. rewrite !bind_cons, IH. f_equal.
  destruct op; try done. by destruct b.
Qed.

Lemma slots_wake b l : sum_list_with slots (wake b <$> l) = sum_list_with slots l.
Proof. induction l as [|op l IH]; [done|]. cbn. rewrite IH. f_equal. destruct op; try done. by destruct b. Qed.

Lemma slots_split l1 op l2 :
  sum_list_with slots (l1 ++ op :: l2) = (slots op + sum_list_with slots (l1 ++ l2))%nat.
Proof. rewrite !sum_list_with_app. cbn. lia. Qed.

Lemma bind_opt (f : Op -> list Z) l1 op l2 :
  (l1 ++ option_list op ++ l2) ≫= f ≡ₚ from_option f [] op ++ ((l1 ++ l2) ≫= f).
Proof. destruct op as [op|]; [apply bind_split|done]. Qed.

Lemma slots_opt l1 op l2 :
  sum_list_with slots (l1 ++ option_list op ++ l2) = (opt_slots op + sum_list_with slots (l1 ++ l2))%nat.
Proof. destruct op as [op|]; [apply slots_split|done]. Qed.

Lemma asleep_woken (l : list Op) : AcquireAsleep ∉ wake true <$> l.
Proof. intros Hin. apply list_elem_of_fmap in Hin as (op & E & _). by destruct op. Qed.

Lemma wake_false (l : list Op) : wake false <$> l = l.
Proof. induction l as [|op l IH]; [done|]. cbn. rewrite IH. by destruct op. Qed.

(** The parts of the invariant when one call is looked at. *)
Lemma inv_at lost X w l1 op l2 :
  inv lost X w -> ops w = l1 ++ op :: l2 -> exists F,
    pool_ok F (owned op ++ ((l1 ++ l2) ≫= owned)) (loose op ++ (((l1 ++ l2) ≫= loose) ++ X))
      (slots op + (sum_list_with slots (l1 ++ l2) + lost)) (state w).
Proof.
  intros [[F HP] _] E. exists F. rewrite E in HP. eapply pool_ok_perm; [done| | | |exact HP].
  - apply bind_split.
  - by rewrite bind_split, app_assoc.
  - rewrite slots_split. lia.
Qed.

Lemma inv_op lost X w l1 op l2 ev :
  inv lost X w -> ops w = l1 ++ op :: l2 -> exists st op' signal,
    op_step ev op (state w) = Done (st, op', signal) /\
    inv lost X (mkWorld st (wake signal <$> l1 ++ option_list op' ++ l2)).
Proof.
  intros HI E. destruct (inv_at _ _ _ _ _ _ HI E) as [F HP]. destruct HI as [_ Hs].
  destruct (op_step_ok ev op _ _ _ _ _ HP) as (st & op' & signal & F' & Eo & HP' & Hs1 & Hs2).
  { intros ->. apply Hs. rewrite E. set_solver. }
  exists st, op', signal. split; [done|]. split; cbn [state ops].
  - exists F'. rewrite !bind_wake, slots_wake by done.
    eapply pool_ok_perm; [done| | | |exact HP'].
    + by rewrite bind_opt.
    + by rewrite bind_opt, app_assoc.
    + rewrite slots_opt. lia.
  - destruct signal; [intros H; by apply asleep_woken in H|]. rewrite wake_false. intros Hin.
    assert (H : op' = Some AcquireAsleep \/ AcquireAsleep ∈ l1 ++ l2).
    { destruct op' as [op'|]; cbn in Hin; set_solver. }
    destruct H as [H|H]; [by apply Hs2|]. apply Hs1; [done|]. apply Hs. rewrite E. set_solver.
Qed.

Lemma inv_step lost X w w' : inv lost X w -> step allowed contained w w' -> inv lost X w'.
Proof.
  intros HI [op Hc|l1 op l2 ev st op' signal E Eo].
  - destruct HI as [[F HP] Hs]. split; cbn [state ops].
    + exists F. rewrite !bind_cons. cbn. by destruct op; try done; destruct after.
    + intros Hin. apply Hs. apply elem_of_cons in Hin as [<-|]; done.
  - destruct (inv_op _ _ _ _ _ _ ev HI E) as (st1 & op1 & sg1 & E1 & HI'). rewrite Eo in E1.
    by injection E1 as <- <- <-.
Qed.

Lemma inv_reachable lost X w w' : inv lost X w -> reachable allowed contained w w' -> inv lost X w'.
Proof. intros HI. induction 1; [done|by eapply inv_step]. Qed.
End Steps.

(** A pool nobody uses yet. *)
Definition start (maxConns expirationSecs maxAttempts port : Z) (nics : list NicAddress) : World :=
  mkWorld (mkPoolState (NodeConnPool_init maxConns expirationSecs maxAttempts port nics) ∅) [].

Lemma inv_start maxConns expirationSecs maxAttempts port nics :
  0 <= maxConns < 2 ^ 32 -> inv 0 [] (start maxConns expirationSecs maxAttempts port nics).
Proof.
  intros Hm. split; [|intros Hin; by apply not_elem_of_nil in Hin].
  exists []. split; cbn; try done; try constructor; lia.
Qed.

(** ** Schedules *)

(** A new call, or a step of the [i]-th call under way. *)
Inductive Act := Call (op : Op) | Run (i : nat) (ev : Ev).

Section Schedules.
Context (allowed contained : Z -> bool).

Definition act (w : World) (a : Act) : option World :=
  match a with
  | Call op => if call op then Some (mkWorld (state w) (op :: ops w)) else None
  | Run i ev =>
      op ← ops w !! i;
      match op_step allowed contained ev op (state w) with
      | Done (st, op', signal) =>
          Some (mkWorld st (wake signal <$> take i (ops w) ++ option_list op' ++ drop (S i) (ops w)))
      | Fault => None
      end
  end.

Fixpoint run_acts (w : World) (l : list Act) : option World :=
  match l with [] => Some w | a :: l => w' ← act w a; run_acts w' l end.

Lemma act_step w a w' : act w a = Some w' -> step allowed contained w w'.
Proof.
  destruct a as [op|i ev]; cbn [act].
  - destruct (call op) eqn:Ec; [|done]. intros [= <-]. by apply step_call.
  - destruct (ops w !! i) as [op|] eqn:Ei; [|done]. cbn.
    destruct (op_step _ _ ev op (state w)) as [[[st op'] signal]|] eqn:Eo; [|done]. intros [= <-].
    eapply step_op; [|exact Eo]. by rewrite take_drop_middle.
Qed.

Lemma reachable_first w w1 w2 :
  step allowed contained w w1 -> reachable allowed contained w1 w2 -> reachable allowed contained w w2.
Proof. intros Hs. induction 1; [eapply reach_step; [apply reach_refl|done]|by eapply reach_step]. Qed.

Lemma run_acts_reachable w l w' : run_acts w l = Some w' -> reachable allowed contained w w'.
Proof.
  revert w. induction l as [|a l IH]; intros w; cbn [run_acts]; [intros [= <-]; apply reach_refl|].
  destruct (act w a) as [w1|] eqn:Ea; [|done]. cbn. intros E.
  eapply reachable_first; [by eapply act_step|by apply IH].
Qed.
End Schedules.

(** ** Properties *)

Section Properties.
Context (allowed contained : Z -> bool).
Context (maxConns expirationSecs maxAttempts port : Z) (nics : list NicAddress).
Notation w0 := (start maxConns expirationSecs maxAttempts port nics).
Notation reachable := (reachable allowed contained).
Notation step := (step allowed contained).

Lemma reachable_inv w : 0 <= maxConns < 2 ^ 32 -> reachable w0 w -> inv 0 [] w.
Proof. intros Hm. apply inv_reachable, inv_start, Hm. Qed.

(** C11: the connection pool under any interleaving of any calls.  No step of a call
    under way faults (no socket is used after it was closed, the search for an
    available one never runs off the list), and the books are right: [availableConns]
    counts the sockets marked available, every other socket of the list belongs to
    exactly one call, [establishedConns] is at most [maxConns] and counts the list and
    the connections being established -- exactly, if the number of concurrent attempts
    is not limited --, and the statistics count the list by type. *)
Theorem pool_invariant (w : World) :
  0 <= maxConns < 2 ^ 32 -> reachable w0 w ->
  (forall ev op, op ∈ ops w -> op_step allowed contained ev op (state w) <> Fault) /\
  exists F, pool_ok F (ops w ≫= owned) (ops w ≫= loose) (sum_list_with slots (ops w)) (state w).
Proof.
  intros Hm Hr. pose proof (reachable_inv w Hm Hr) as HI. split.
  - intros ev op Hop. apply list_elem_of_split in Hop as (l1 & l2 & E).
    destruct (inv_op allowed contained _ _ _ _ _ _ ev HI E) as (st & op' & sg & Eo & _). by rewrite Eo.
  - destruct HI as [[F HP] _]. exists F. by rewrite app_nil_r, Nat.add_0_r in HP.
Qed.

(** A connection is never in two hands.  The socket a call holds is in the
    list, is not available to others, and no other call under way has it, to use, to
    release or to close. *)
Theorem holder_exclusive (w : World) (l1 l2 : list Op) (s : Z) :
  0 <= maxConns < 2 ^ 32 -> reachable w0 w -> ops w = l1 ++ Holding s :: l2 ->
  s ∈ connList (pool (state w)) /\ has_avail (state w) false s /\
  forall op, op ∈ l1 ++ l2 -> s ∉ owned op /\ s ∉ loose op.
Proof.
  intros Hm Hr E. pose proof (reachable_inv w Hm Hr) as HI.
  destruct (inv_at _ _ _ _ _ _ HI E) as [F [H1 H2 _ H4 _ _ _ _ _]]. cbn in H1, H2, H4.
  split; [rewrite H1; set_solver|]. split; [by inversion_clear H4|].
  rewrite <- (Permutation_middle F _ s) in H2. apply NoDup_cons in H2 as [Hs _]. rewrite app_nil_r in Hs.
  intros op Hop. split; intros Hin; apply Hs; rewrite !elem_of_app; right; [left|right];
    apply list_elem_of_bind; by exists op.
Qed.

(** C12: nobody sleeps while there is something to have.  A call that waits for a
    connection does so only while none is available and no more may be established. *)
Theorem sleepers_justified (w : World) :
  0 <= maxConns < 2 ^ 32 -> reachable w0 w -> AcquireAsleep ∈ ops w ->
  availableConns (pool (state w)) = 0 /\
  establishedConns (pool (state w)) = NodeConnPool.maxConns (pool (state w)).
Proof.
  intros Hm Hr Hin. destruct (reachable_inv w Hm Hr) as [_ Hs]. specialize (Hs Hin).
  unfold all_busy in Hs. by rewrite andb_true_iff, !Z.eqb_eq in Hs.
Qed.

(** A killed waiter takes a connection with it.  When a call that waits for its
    turn to connect is killed, [establishedConns] keeps counting it: whatever happens
    afterwards, connections and attempts together stay below [maxConns] for good. *)
Theorem killed_waiter_loses_slot (w : World) (l1 l2 : list Op) (nicListCopy : list NicAddress) (ev : Ev) :
  0 <= maxConns < 2 ^ 32 -> reachable w0 w -> ops w = l1 ++ AcquireSem nicListCopy :: l2 ->
  0 < maxConcurrentAttempts (pool (state w)) -> connSemaphore (pool (state w)) <= 0 ->
  ev_killed ev = true ->
  op_step allowed contained ev (AcquireSem nicListCopy) (state w) = Done (state w, None, false) /\
  forall w', reachable (mkWorld (state w) (l1 ++ l2)) w' ->
    Z.of_nat (length (connList (pool (state w'))) + sum_list_with slots (ops w')) <
      NodeConnPool.maxConns (pool (state w')).
Proof.
  intros Hm Hr E Ha Hsem Hk. split.
  { cbn [op_step]; unfold acquire_sem. destruct (Z.leb_spec (maxConcurrentAttempts (pool (state w))) 0); [lia|].
    destruct (Z.ltb_spec 0 (connSemaphore (pool (state w)))); [lia|]. by rewrite Hk. }
  pose proof (reachable_inv w Hm Hr) as HI. destruct (inv_at _ _ _ _ _ _ HI E) as [F HP].
  assert (HI' : inv 1 [] (mkWorld (state w) (l1 ++ l2))).
  { destruct HI as [_ Hs]. split; cbn [state ops].
    - exists F. cbn in HP. eapply pool_ok_perm; [done|done|done| |exact HP]. lia.
    - intros Hin. apply Hs. rewrite E. set_solver. }
  intros w' Hr'. destruct (inv_reachable _ _ _ _ _ _ HI' Hr') as [[F' [H1 _ _ _ _ H6 _ _ _]] _].
  rewrite H1, length_app. lia.
Qed.

(** A connection made while a signal arrives is lost.  When a call is killed
    after its attempt succeeded and before it takes the mutex again, the new socket is
    neither put into the list nor closed: whatever happens afterwards, it stays open,
    outside of the list, and in nobody's hands. *)
Theorem killed_connector_leaks_socket (w : World) (l1 l2 : list Op) (s : Z) (ev : Ev) :
  0 <= maxConns < 2 ^ 32 -> reachable w0 w -> ops w = l1 ++ AcquireFinish (Connected s) :: l2 ->
  ev_killed ev = true ->
  exists st, op_step allowed contained ev (AcquireFinish (Connected s)) (state w) = Done (st, None, true) /\
  forall w', reachable (mkWorld st (wake true <$> l1 ++ l2)) w' ->
    is_Some (socks (state w') !! s) /\ s ∉ connList (pool (state w')) /\
    forall op, op ∈ ops w' -> s ∉ owned op /\ s ∉ loose op.
Proof.
  intros Hm Hr E Hk. pose proof (reachable_inv w Hm Hr) as HI.
  destruct (inv_at _ _ _ _ _ _ HI E) as [F HP]. cbn [owned loose slots app] in HP.
  cbn [op_step]; unfold acquire_sem. rewrite Hk. cbn [acquire_finish]. eexists. split; [done|]. intros w' Hr'.
  assert (HI' : inv 0 [s] (mkWorld (with_pool (state w) (add_established (pool (state w)) (-1)))
    (wake true <$> l1 ++ l2))).
  { split; cbn [state ops]; [|intros Hin; by apply asleep_woken in Hin]. exists F.
    rewrite !bind_wake, slots_wake by done. pose proof (ok_count _ _ _ _ _ HP). pose proof (ok_max _ _ _ _ _ HP).
    assert (Eu : u32 (establishedConns (pool (state w)) + -1) = establishedConns (pool (state w)) - 1)
      by (apply u32_id; unfold in_u; lia).
    eapply (pool_ok_count _ _ _ (1 + (sum_list_with slots (l1 ++ l2) + 0))); try done; cbn; rewrite ?Eu; try lia.
    eapply pool_ok_perm; [done|done| |done|exact HP]. cbn. rewrite app_nil_r. apply Permutation_cons_append. }
  destruct (inv_reachable _ _ _ _ _ _ HI' Hr') as [[F' [H1 H2 _ H4 _ _ _ _ _]] _].
  rewrite app_assoc in H4. apply Forall_app in H4 as [_ H4]. inversion_clear H4 as [|?? (ps & Es & _) _].
  rewrite <- (Permutation_cons_append _ s) in H2. rewrite <- (Permutation_middle _ _ s) in H2.
  rewrite <- (Permutation_middle F' _ s) in H2. apply NoDup_cons in H2 as [Hs _].
  split; [by exists ps|]. split; [rewrite H1; set_solver|].
  intros op Hop. split; intros Hin; apply Hs; rewrite !elem_of_app; right; [left|right];
    apply list_elem_of_bind; by exists op.
Qed.
End Properties.

(** ** Small pools *)

Definition any (_ : Z) : bool := true.
Definition none (_ : Z) : bool := false.
Definition nic_ex2 : NicAddress := mkNic 16777343 NICADDRTYPE_STANDARD [].
Definition works (killed : bool) : Ev :=
  mkEv killed (mkTime 9 0) (fun _ => mkAttempt true true 16777343 (mkTime 5 0) false false) false.

(** One connection at most: the first caller has it, the second one sleeps. *)
Definition sleep_acts : list Act :=
  [Call (AcquireStart true); Run 0 (works false); Run 0 (works false); Run 0 (works false);
   Run 0 (works false); Run 0 (works false); Call (AcquireStart true); Run 0 (works false)].
(** One attempt at a time, two connections at most: the second caller waits for its turn. *)
Definition turn_acts : list Act :=
  [Call (AcquireStart true); Run 0 (works false); Run 0 (works false);
   Call (AcquireStart true); Run 0 (works false)].
Definition finish_acts : list Act :=
  [Call (AcquireStart true); Run 0 (works false); Run 0 (works false); Run 0 (works false);
   Run 0 (works false)].

Definition world_of (maxConns maxAttempts : Z) (l : list Act) : World :=
  default (start 0 0 0 0 []) (run_acts any none (start maxConns 900 maxAttempts 8003 [nic_ex2]) l).

Lemma world_of_reachable maxConns maxAttempts l :
  is_Some (run_acts any none (start maxConns 900 maxAttempts 8003 [nic_ex2]) l) ->
  reachable any none (start maxConns 900 maxAttempts 8003 [nic_ex2]) (world_of maxConns maxAttempts l).
Proof. unfold world_of. intros [w E]. rewrite E. by eapply run_acts_reachable. Qed.

Lemma sleep_reachable :
  reachable any none (start 1 900 0 8003 [nic_ex2]) (world_of 1 0 sleep_acts).
Proof. apply world_of_reachable. by eexists. Qed.
Lemma turn_reachable :
  reachable any none (start 2 900 1 8003 [nic_ex2]) (world_of 2 1 turn_acts).
Proof. apply world_of_reachable. by eexists. Qed.
Lemma finish_reachable :
  reachable any none (start 1 900 0 8003 [nic_ex2]) (world_of 1 0 finish_acts).
Proof. apply world_of_reachable. by eexists. Qed.

Example sleep_world :
  ops (world_of 1 0 sleep_acts) = [AcquireAsleep; Holding 0] /\
  connList (pool (state (world_of 1 0 sleep_acts))) = [0].
Proof. by vm_compute. Qed.

Lemma pool_invariant_witness :
  (forall ev op, op ∈ ops (world_of 1 0 sleep_acts) ->
     op_step any none ev op (state (world_of 1 0 sleep_acts)) <> Fault) /\
  exists F, pool_ok F (ops (world_of 1 0 sleep_acts) ≫= owned) (ops (world_of 1 0 sleep_acts) ≫= loose)
    (sum_list_with slots (ops (world_of 1 0 sleep_acts))) (state (world_of 1 0 sleep_acts)).
Proof.
  exact (pool_invariant any none 1 900 0 8003 [nic_ex2] (world_of 1 0 sleep_acts) ltac:(lia) sleep_reachable).
Defined.

Lemma holder_exclusive_witness :
  0 ∈ connList (pool (state (world_of 1 0 sleep_acts))) /\
  has_avail (state (world_of 1 0 sleep_acts)) false 0 /\
  forall op, op ∈ [AcquireAsleep] ++ [] -> 0 ∉ owned op /\ 0 ∉ loose op.
Proof.
  exact (holder_exclusive any none 1 900 0 8003 [nic_ex2] (world_of 1 0 sleep_acts) [AcquireAsleep] [] 0
    ltac:(lia) sleep_reachable ltac:(by vm_compute)).
Defined.

Lemma sleepers_justified_witness :
  availableConns (pool (state (world_of 1 0 sleep_acts))) = 0 /\
  establishedConns (pool (state (world_of 1 0 sleep_acts))) = maxConns (pool (state (world_of 1 0 sleep_acts))).
Proof.
  exact (sleepers_justified any none 1 900 0 8003 [nic_ex2] (world_of 1 0 sleep_acts) ltac:(lia)
    sleep_reachable ltac:(apply list_elem_of_here)).
Defined.

Lemma killed_waiter_loses_slot_witness :
  op_step any none (works true) (AcquireSem [nic_ex2]) (state (world_of 2 1 turn_acts)) =
    Done (state (world_of 2 1 turn_acts), None, false) /\
  forall w', reachable any none (mkWorld (state (world_of 2 1 turn_acts)) ([] ++ [AcquireConnect [nic_ex2]])) w' ->
    Z.of_nat (length (connList (pool (state w'))) + sum_list_with slots (ops w')) < maxConns (pool (state w')).
Proof.
  exact (killed_waiter_loses_slot any none 2 900 1 8003 [nic_ex2] (world_of 2 1 turn_acts) []
    [AcquireConnect [nic_ex2]] [nic_ex2] (works true) ltac:(lia) turn_reachable ltac:(by vm_compute)
    ltac:(by vm_compute) ltac:(by vm_compute) eq_refl).
Defined.

Lemma killed_connector_leaks_socket_witness : exists st,
  op_step any none (works true) (AcquireFinish (Connected 0)) (state (world_of 1 0 finish_acts)) =
    Done (st, None, true) /\
  forall w', reachable any none (mkWorld st (wake true <$> [] ++ [])) w' ->
    is_Some (socks (state w') !! 0) /\ 0 ∉ connList (pool (state w')) /\
    forall op, op ∈ ops w' -> 0 ∉ owned op /\ 0 ∉ loose op.
Proof.
  exact (killed_connector_leaks_socket any none 1 900 0 8003 [nic_ex2] (world_of 1 0 finish_acts) [] [] 0
    (works true) ltac:(lia) finish_reachable ltac:(by vm_compute) eq_refl).
Defined.
