(* ===== verification/MessagingTk.v ===== *)
(** * Request and response

    [common/toolkit/MessagingTk.h/.c] with [MessagingTkArgs.h]: a request is sent to
    a node over a connection of its pool, the answer is received and decoded, and
    failed attempts are repeated; requests to a mirrored metadata server carry a
    sequence number of its buddy group.

    The surroundings are those of [CommKit] (class [CommEnv]) and those below.  A run
    keeps a trace of the requests put on the wire and of the buffers given to the
    message factory, also when it ends in undefined behaviour (result [None]).  What
    the call holds is kept in [Held], at most one thing of each kind: taking a second
    one, or giving back what is not held, is undefined here.  Calls and flags that only
    concern log messages and the count of requests are left out. *)

From stdpp Require Import gmap.
From S2P Require Import Prelude Serialization SerializationLists RBTree NetMessage Responses.
From S2P Require Import TargetStateStore MirrorBuddyGroup MirrorBuddyGroupMapper CommKit CommKitOps.

(** ** Constants and arguments *)

Definition MSGTK_KMALLOC_RECV_BUF_LEN : Z := 4 * 1024.
Definition MSGTK_STATE_SLEEP_MS : Z := 5000.
Definition MSGTK_INFINITE_RETRY_WAIT_MS : Z := 5000.
Definition EMSGSIZE : Z := 90.
Definition REQUESTRESPONSEARGS_FLAG_ALLOWSTATESLEEP : Z := 2.
Definition MessagingTkBufType_BufStore : Z := 0.
Definition MessagingTkBufType_kmalloc : Z := 1.
Definition GenericRespMsgCode_NEWSEQNOBASE : Z := 2.

(** [address] is the id of a node or of a buddy group. *)
Record RRPeer := mkPeer { address : Z; isMirrorGroup : bool }.
Definition RRPeer_target (target : Z) : RRPeer := mkPeer target false.
Definition RRPeer_group (group : Z) : RRPeer := mkPeer group true.

(** Whether the pointers to the stores are set. *)
Record RequestResponseNode := mkRRN { peer : RRPeer; targetStates_ : bool; mirrorBuddies_ : bool }.

(** [rr_header] is the header of [requestMsg]; the type and the payload of the request
    do not change.  A message is its header and its payload, if it was decoded. *)
Definition Message : Type := option Received * NetMessageHeader.
Record RequestResponseArgs := mkRRA {
  rr_node : option Z; rr_header : NetMessageHeader; rr_respMsgType : Z; rr_numRetries : Z;
  rr_rrFlags : Z; rr_respBufType : Z; rr_outRespBuf : option mem; rr_outRespMsg : option Message }.

Definition RequestResponseArgs_prepare (node : option Z) (requestMsg : NetMessageHeader) (respMsgType : Z)
    : RequestResponseArgs :=
  mkRRA node requestMsg respMsgType 1 0 MessagingTkBufType_BufStore None None.

Section Setters.
Context (a : RequestResponseArgs).
Definition set_node (v : option Z) : RequestResponseArgs :=
  mkRRA v (rr_header a) (rr_respMsgType a) (rr_numRetries a) (rr_rrFlags a) (rr_respBufType a)
    (rr_outRespBuf a) (rr_outRespMsg a).
Definition set_header (v : NetMessageHeader) : RequestResponseArgs :=
  mkRRA (rr_node a) v (rr_respMsgType a) (rr_numRetries a) (rr_rrFlags a) (rr_respBufType a)
    (rr_outRespBuf a) (rr_outRespMsg a).
Definition set_mode (numRetries rrFlags respBufType : Z) : RequestResponseArgs :=
  mkRRA (rr_node a) (rr_header a) (rr_respMsgType a) numRetries rrFlags respBufType
    (rr_outRespBuf a) (rr_outRespMsg a).
Definition set_buf (v : option mem) : RequestResponseArgs :=
  mkRRA (rr_node a) (rr_header a) (rr_respMsgType a) (rr_numRetries a) (rr_rrFlags a) (rr_respBufType a)
    v (rr_outRespMsg a).
Definition set_msg (v : option Message) : RequestResponseArgs :=
  mkRRA (rr_node a) (rr_header a) (rr_respMsgType a) (rr_numRetries a) (rr_rrFlags a) (rr_respBufType a)
    (rr_outRespBuf a) v.
End Setters.

(** The sequence number fields of the request. *)
Definition header_set_sequence (h : NetMessageHeader) (flags sequence sequenceDone : Z)
    : NetMessageHeader :=
  mkHeader (msgLength h) (msgFeatureFlags h) (msgCompatFeatureFlags h) flags (msgType h)
    (msgTargetID h) (msgUserID h) sequence sequenceDone.

(** ** The surroundings *)

(** The outcome of [MirrorBuddyGroupMapper_acquireSequenceNumber], see there: an error
    code, with the group if it was found; no number yet; or a number with a handle. *)
Inductive SeqAcquired :=
  | SeqError (code : Z) (group : option Z)
  | SeqUnset (group : Z)
  | SeqNumber (group : Z) (seq : Acquired) (handle : Z).

(** Choices of the message factory: the user id of the caller, uninitialised memory,
    outcomes of allocations. *)
Record DecodeEnv := mkDecode {
  de_uid : Z; de_raw : RawList; de_ok1 : nat -> bool; de_ok2 : nat -> bool; de_uninit : NetMessageHeader }.

Definition decode (buf : mem) (len : Z) (d : DecodeEnv) : outcome Message :=
  NetMessageFactory_createFromBuf (de_uid d) (de_raw d) (de_ok1 d) (de_ok2 d) buf 0 len (de_uninit d).

Class RPCEnv (W : Type) := {
  rpc_comm : CommEnv W;
  mirrorBuddies : W -> MapperState * W;
  nodeStates : W -> TargetStateStore * W;
  NodeStoreEx_referenceNode : Z -> W -> option Z * W;
  NoAllocBufferStore_getBufSize : W -> Z * W;
  NoAllocBufferStore_waitForBuf : W -> mem * W;
  NoAllocBufferStore_addBuf : mem -> W -> W;
  os_kmalloc : Z -> W -> option mem * W;
  kfree : mem -> W -> W;
  decode_choices : W -> DecodeEnv * W;
  MirrorBuddyGroupMapper_acquireSequenceNumber : Z -> W -> SeqAcquired * W;
  MirrorBuddyGroup_releaseSequenceNumber : Z -> Z -> W -> W;
  MirrorBuddyGroup_setSeqNoBase : Z -> Z -> W -> W }.
#[export] Existing Instance rpc_comm.

(** What the code relies on: buffers have the size of the store resp. the size asked
    for, a sequence number is not zero and below the limit of its type. *)
Class RPCEnvLaws (W : Type) `{!RPCEnv W} : Prop := {
  rpc_comm_laws : CommEnvLaws W;
  buddies_wf w : mapper_wf (fst (mirrorBuddies w));
  store_size w w' : msg_wf (fst (NoAllocBufferStore_waitForBuf w')) /\
    mlen (fst (NoAllocBufferStore_waitForBuf w')) = fst (NoAllocBufferStore_getBufSize w);
  kmalloc_size n w b : fst (os_kmalloc n w) = Some b -> msg_wf b /\ mlen b = n;
  seq_error i w code g : fst (MirrorBuddyGroupMapper_acquireSequenceNumber i w) = SeqError code g -> code <> 0;
  seq_number i w g a hd : fst (MirrorBuddyGroupMapper_acquireSequenceNumber i w) = SeqNumber g a hd ->
    0 < aSeqNo a < 2 ^ 64 }.
#[export] Existing Instance rpc_comm_laws.

(** ** State passing *)

(** A connection with its node, a node reference, a buffer with its kind, a sequence
    number by its group and handle. *)
Record Held := mkHeld {
  h_conn : option (Z * Z); h_node : option Z; h_buf : option Z; h_seq : option (Z * Z) }.

Definition nothing : Held := mkHeld None None None None.
Definition is_nothing (h : Held) : bool :=
  match h with mkHeld None None None None => true | _ => false end.

Inductive Event :=
  | EvSend (sock : Z) (bytes : mem) (res : Z)
  | EvDecode (buf : mem) (len : Z) (d : DecodeEnv).

(** The newest event comes first. *)
Record RPC (W : Type) := mkRPC {
  rworld : W; rargs : RequestResponseArgs; rheld : Held; rtrace : list Event }.
Arguments mkRPC {W}.
Arguments rworld {W}.
Arguments rargs {W}.
Arguments rheld {W}.
Arguments rtrace {W}.

Definition R (W A : Type) : Type := RPC W -> option A * RPC W.
#[export] Instance R_ret {W} : MRet (R W) := fun A a s => (Some a, s).
#[export] Instance R_bind {W} : MBind (R W) := fun A B f m s =>
  match m s with (Some a, s') => f a s' | (None, s') => (None, s') end.

Section Machine.
Context {W : Type} `{!RPCEnv W}.

Definition lift {A} (o : outcome A) : R W A := fun s =>
  match o with Done a => (Some a, s) | Fault => (None, s) end.
Definition env {A} (f : W -> A * W) : R W A := fun s =>
  let '(a, w) := f (rworld s) in (Some a, mkRPC w (rargs s) (rheld s) (rtrace s)).
Definition env_ (f : W -> W) : R W unit := env (fun w => (tt, f w)).
Definition get_args : R W RequestResponseArgs := fun s => (Some (rargs s), s).
Definition upd_args (f : RequestResponseArgs -> RequestResponseArgs) : R W unit := fun s =>
  (Some tt, mkRPC (rworld s) (f (rargs s)) (rheld s) (rtrace s)).
Definition upd_held (f : Held -> option Held) : R W unit := fun s =>
  match f (rheld s) with
  | Some h => (Some tt, mkRPC (rworld s) (rargs s) h (rtrace s))
  | None => (None, s)
  end.
Definition record (e : Event) : R W unit := fun s =>
  (Some tt, mkRPC (rworld s) (rargs s) (rheld s) (e :: rtrace s)).

(** ** Resources *)

Definition hold_conn (c : Z * Z) (h : Held) : option Held :=
  match h_conn h with None => Some (mkHeld (Some c) (h_node h) (h_buf h) (h_seq h)) | _ => None end.
Definition drop_conn (c : Z * Z) (h : Held) : option Held :=
  if bool_decide (h_conn h = Some c) then Some (mkHeld None (h_node h) (h_buf h) (h_seq h)) else None.
Definition hold_node (n : Z) (h : Held) : option Held :=
  match h_node h with None => Some (mkHeld (h_conn h) (Some n) (h_buf h) (h_seq h)) | _ => None end.
Definition drop_node (n : Z) (h : Held) : option Held :=
  if bool_decide (h_node h = Some n) then Some (mkHeld (h_conn h) None (h_buf h) (h_seq h)) else None.
Definition hold_buf (t : Z) (h : Held) : option Held :=
  match h_buf h with None => Some (mkHeld (h_conn h) (h_node h) (Some t) (h_seq h)) | _ => None end.
Definition drop_buf (t : Z) (h : Held) : option Held :=
  if bool_decide (h_buf h = Some t) then Some (mkHeld (h_conn h) (h_node h) None (h_seq h)) else None.
Definition hold_seq (q : Z * Z) (h : Held) : option Held :=
  match h_seq h with None => Some (mkHeld (h_conn h) (h_node h) (h_buf h) (Some q)) | _ => None end.
Definition drop_seq (q : Z * Z) (h : Held) : option Held :=
  if bool_decide (h_seq h = Some q) then Some (mkHeld (h_conn h) (h_node h) (h_buf h) None) else None.

Definition acquire_conn (node : Z) : R W (option Z) :=
  r ← env (NodeConnPool_acquireStreamSocketEx node true);
  match r with
  | Some sock => _ ← upd_held (hold_conn (node, sock)); mret r
  | None => mret None
  end.
Definition give_conn (f : Z -> Z -> W -> W) (node sock : Z) : R W unit :=
  _ ← upd_held (drop_conn (node, sock)); env_ (f node sock).

Definition release_seq (group handle : Z) : R W unit :=
  _ ← upd_held (drop_seq (group, handle)); env_ (MirrorBuddyGroup_releaseSequenceNumber group handle).

(** The response buffer goes back to where it came from. *)
Definition RequestResponseArgs_freeRespBuffers : R W unit :=
  args ← get_args;
  match rr_outRespBuf args with
  | None => mret tt
  | Some buf =>
      _ ← upd_held (drop_buf (rr_respBufType args));
      if rr_respBufType args =? MessagingTkBufType_BufStore
      then env_ (NoAllocBufferStore_addBuf buf) else env_ (kfree buf)
  end.

(** ** One attempt *)

Section Request.
Context {P Q : Type} (ops : NetMessageOps P Q) (payload : P).

Definition getMsgLength : R W Z :=
  args ← get_args;
  '(len, h) ← lift (NetMessage_getMsgLength ops (rr_header args) payload);
  _ ← upd_args (fun a => set_header a h);
  mret (u32 len).

Definition Socket_send (sock : Z) (bytes : mem) : R W Z :=
  sendRes ← env (CommKit.Socket_send sock bytes);
  _ ← record (EvSend sock bytes sendRes);
  mret sendRes.

(** [len] bytes to offset [off] of the buffer, of which [missingLen] are missing: [len]
    when all are received, otherwise an error code or 0. *)
Fixpoint Socket_recvExactTEx (fuel : nat) (sock off len missingLen : Z) : R W Z :=
  match fuel with
  | O => lift Fault
  | S fuel =>
      r ← env (Socket_recvT sock missingLen);
      match r with
      | inl recvRes => mret recvRes
      | inr [] => mret 0
      | inr bytes =>
          args ← get_args;
          buf ← lift (of_option (rr_outRespBuf args));
          buf ← lift (write_block buf (off + (len - missingLen)) bytes);
          _ ← upd_args (fun a => set_buf a (Some buf));
          let missingLen := missingLen - mlen bytes in
          if missingLen =? 0 then mret len else Socket_recvExactTEx fuel sock off len missingLen
      end
  end.

Definition recvExact (sock off len : Z) : R W Z :=
  Socket_recvExactTEx (Z.to_nat len) sock off len len.

(** [bufIn] is the response buffer. *)
Definition MessagingTk_recvMsgBuf (sock bufInLen : Z) : R W Z :=
  recvRes ← recvExact sock 0 NETMSG_MIN_LENGTH;
  if recvRes <=? 0 then mret recvRes else
  args ← get_args;
  buf ← lift (of_option (rr_outRespBuf args));
  msgLength ← lift (NetMessage_extractMsgLengthFromBuf buf 0);
  if msgLength <=? NETMSG_MIN_LENGTH then mret msgLength
  else if bufInLen <? msgLength then mret (- EMSGSIZE)
  else
    recvRes ← recvExact sock NETMSG_MIN_LENGTH (msgLength - NETMSG_MIN_LENGTH);
    mret (if recvRes <=? 0 then recvRes else msgLength).

(** The return code, and the new [wasIndirectCommErr]. *)
Definition __MessagingTk_handleGenericResponse (resp : Message) (group : option Z) : R W (Z * bool) :=
  match resp with
  | (Some (SimpleIntStringMsg code _), h) =>
      if code =? GenericRespMsgCode_TRYAGAIN then mret (FhgfsOpsErr_AGAIN, false)
      else if code =? GenericRespMsgCode_INDIRECTCOMMERR then mret (FhgfsOpsErr_COMMUNICATION, true)
      else if code =? GenericRespMsgCode_NEWSEQNOBASE then
        match group with
        | Some group =>
            _ ← env_ (MirrorBuddyGroup_setSeqNoBase group (msgSequence h));
            mret (FhgfsOpsErr_COMMUNICATION, false)
        | None => mret (FhgfsOpsErr_INTERNAL, false)
        end
      else mret (FhgfsOpsErr_INTERNAL, false)
  | _ => lift Fault
  end.

(** The buffer for request and response: its length, or the error code. *)
Definition prepare_buffer (sendBufLen : Z) : R W (Z + Z) :=
  args ← get_args;
  if rr_respBufType args =? MessagingTkBufType_BufStore then
    bufSize ← env NoAllocBufferStore_getBufSize;
    let bufLen := u32 bufSize in
    if bufLen <? sendBufLen then mret (inl FhgfsOpsErr_INTERNAL)
    else
      buf ← env NoAllocBufferStore_waitForBuf;
      _ ← upd_held (hold_buf (rr_respBufType args));
      _ ← upd_args (fun a => set_buf a (Some buf));
      mret (inr bufLen)
  else
    let bufLen := Z.max MSGTK_KMALLOC_RECV_BUF_LEN sendBufLen in
    r ← env (os_kmalloc bufLen);
    match r with
    | None => mret (inl FhgfsOpsErr_OUTOFMEM)
    | Some buf =>
        _ ← upd_held (hold_buf (rr_respBufType args));
        _ ← upd_args (fun a => set_buf a (Some buf));
        mret (inr bufLen)
    end.

(** The ends of an attempt with a connection: the response is in the arguments, or it
    is cleaned up and the connection is kept or closed. *)
Inductive CommEnd := CommSuccess | CommReuse (retVal : Z) | CommInvalidate (retVal : Z).

Definition receive_response (sock bufLen : Z) (group : option Z) (wasIndirect : bool)
    : R W (CommEnd * bool) :=
  respRes ← MessagingTk_recvMsgBuf sock bufLen;
  if respRes <=? 0 then mret (CommInvalidate FhgfsOpsErr_COMMUNICATION, wasIndirect) else
  args ← get_args;
  buf ← lift (of_option (rr_outRespBuf args));
  d ← env decode_choices;
  _ ← record (EvDecode buf respRes d);
  resp ← lift (decode buf respRes d);
  _ ← upd_args (fun a => set_msg a (Some resp));
  let type := msgType (snd resp) in
  if type =? NETMSGTYPE_AckNotifyResp then mret (CommInvalidate FhgfsOpsErr_COMMUNICATION, true)
  else if type =? NETMSGTYPE_GenericResponse then
    '(retVal, wasIndirect) ← __MessagingTk_handleGenericResponse resp group;
    mret (if retVal =? FhgfsOpsErr_INTERNAL then CommInvalidate retVal else CommReuse retVal,
          wasIndirect)
  else if negb (type =? rr_respMsgType args) then
    mret (CommInvalidate FhgfsOpsErr_INTERNAL, wasIndirect)
  else mret (CommSuccess, wasIndirect).

Definition exchange (sock : Z) (group : option Z) (wasIndirect : bool) : R W (CommEnd * bool) :=
  sendBufLen ← getMsgLength;
  r ← prepare_buffer sendBufLen;
  match r with
  | inl retVal => mret (CommInvalidate retVal, wasIndirect)
  | inr bufLen =>
      args ← get_args;
      buf ← lift (of_option (rr_outRespBuf args));
      '(_, h, buf) ← lift (NetMessage_serialize ops (rr_header args) payload buf 0 sendBufLen);
      _ ← upd_args (fun a => set_buf (set_header a h) (Some buf));
      bytes ← lift (read_block buf 0 sendBufLen);
      sendRes ← Socket_send sock bytes;
      if negb (sendRes =? sendBufLen) then mret (CommInvalidate FhgfsOpsErr_COMMUNICATION, wasIndirect)
      else receive_response sock bufLen group wasIndirect
  end.

Definition cleanup_no_socket : R W unit :=
  _ ← RequestResponseArgs_freeRespBuffers;
  upd_args (fun a => set_buf (set_msg a None) None).

Definition __MessagingTk_requestResponseWithRRArgsComm (group : option Z) (wasIndirect : bool)
    : R W (Z * bool) :=
  _ ← upd_args (fun a => set_buf (set_msg a None) None);
  args ← get_args;
  node ← lift (of_option (rr_node args));
  sock ← acquire_conn node;
  match sock with
  | None => mret (FhgfsOpsErr_COMMUNICATION, wasIndirect)
  | Some sock =>
      '(how, wasIndirect) ← exchange sock group wasIndirect;
      match how with
      | CommSuccess =>
          _ ← give_conn NodeConnPool_releaseStreamSocket node sock;
          mret (FhgfsOpsErr_SUCCESS, wasIndirect)
      | CommReuse retVal =>
          _ ← give_conn NodeConnPool_releaseStreamSocket node sock;
          _ ← cleanup_no_socket;
          mret (retVal, wasIndirect)
      | CommInvalidate retVal =>
          _ ← give_conn NodeConnPool_invalidateStreamSocket node sock;
          _ ← cleanup_no_socket;
          mret (retVal, wasIndirect)
      end
  end.

(** ** Retries *)

Definition MessagingTk_waitBeforeRetry (currentNumRetry : Z) : R W unit :=
  let retryWaitMS := MessagingTk_getRetryWaitMS currentNumRetry in
  if retryWaitMS =? 0 then mret tt else env_ (Thread_sleep retryWaitMS).

(** What follows an attempt, in both loops: stop with a result, or try again -- because
    the peer asked for it, or with one retry used up. *)
Inductive Decision := Stop (res : Z) | PeerAgain | Retry.

Definition after_attempt (commRes currentRetryNum : Z) : R W Decision :=
  if commRes =? FhgfsOpsErr_SUCCESS then mret (Stop FhgfsOpsErr_SUCCESS) else
  signal ← env fatal_signal_pending;
  if signal : bool then mret (Stop FhgfsOpsErr_INTERRUPTED) else
  args ← get_args;
  node ← lift (of_option (rr_node args));
  active ← env (Node_getIsActive node);
  if negb active then mret (Stop FhgfsOpsErr_UNKNOWNNODE)
  else if commRes =? FhgfsOpsErr_WOULDBLOCK then mret (Stop FhgfsOpsErr_COMMUNICATION) else
  again ← (if commRes =? FhgfsOpsErr_AGAIN then env App_getConnRetriesEnabled else mret false);
  if again : bool then
    _ ← env_ (Thread_sleep MSGTK_INFINITE_RETRY_WAIT_MS); mret PeerAgain
  else if negb (commRes =? FhgfsOpsErr_COMMUNICATION) then mret (Stop commRes) else
  enabled ← env App_getConnRetriesEnabled;
  if enabled && ((rr_numRetries args =? 0) || (currentRetryNum <? rr_numRetries args)) then
    _ ← MessagingTk_waitBeforeRetry currentRetryNum; mret Retry
  else mret (Stop FhgfsOpsErr_COMMUNICATION).

(** [fuel] bounds the number of attempts; [None]: it still goes on. *)
Fixpoint rr_loop (fuel : nat) (currentRetryNum : Z) (wasIndirect : bool) : R W (option Z) :=
  match fuel with
  | O => mret None
  | S fuel =>
      '(commRes, wasIndirect) ← __MessagingTk_requestResponseWithRRArgsComm None wasIndirect;
      d ← after_attempt commRes currentRetryNum;
      match d with
      | Stop res => mret (Some res)
      | PeerAgain => rr_loop fuel 0 wasIndirect
      | Retry => rr_loop fuel (u32 (currentRetryNum + 1)) wasIndirect
      end
  end.

Definition MessagingTk_requestResponseWithRRArgs (fuel : nat) : R W (option Z) := rr_loop fuel 0 false.

(** *** To a node that is looked up, or to a mirror group *)

Record RetryState := mkRetry {
  currentRetryNum : Z; seq_handle : option Z; seq_group : option Z; wasIndirectCommErr : bool }.

(** The target of the next attempt, after taking a sequence number if the request
    needs one; or the result to exit with. *)
Definition select_node (rrNode : RequestResponseNode) (rs : RetryState) : R W ((Z + Z) * RetryState) :=
  if negb (isMirrorGroup (peer rrNode)) then mret (inr (address (peer rrNode)), rs) else
  let group := u16 (address (peer rrNode)) in
  if negb (mirrorBuddies_ rrNode) then lift Fault else
  groups ← env mirrorBuddies;
  nodeID ← lift (MirrorBuddyGroupMapper_getPrimaryTargetID groups group);
  if nodeID =? 0 then mret (inl FhgfsOpsErr_UNKNOWNNODE, rs)
  else if negb (supportsSequenceNumbers ops) then mret (inr nodeID, rs) else
  _ ← upd_args (fun a => let h := rr_header a in
        set_header a (header_set_sequence h (Z.lor (msgFlags h) MSGHDRFLAG_HAS_SEQUENCE_NO)
                        (msgSequence h) (msgSequenceDone h)));
  args ← get_args;
  if negb (msgSequence (rr_header args) =? 0) then mret (inr nodeID, rs) else
  r ← env (MirrorBuddyGroupMapper_acquireSequenceNumber group);
  match r with
  | SeqError code g =>
      mret (inl (if code =? EINTR then FhgfsOpsErr_INTERRUPTED else FhgfsOpsErr_UNKNOWNNODE),
            mkRetry (currentRetryNum rs) (seq_handle rs)
              (match g with Some _ => g | None => seq_group rs end) (wasIndirectCommErr rs))
  | SeqUnset g =>
      mret (inr nodeID, mkRetry (currentRetryNum rs) None (Some g) (wasIndirectCommErr rs))
  | SeqNumber g a hd =>
      _ ← upd_held (hold_seq (g, hd));
      _ ← upd_args (fun args => let h := rr_header args in
            set_header args (header_set_sequence h
              (if aIsSelective a then Z.lor (msgFlags h) MSGHDRFLAG_IS_SELECTIVE_ACK else msgFlags h)
              (aSeqNo a) (aAcknowledgeSeq a)));
      mret (inr nodeID, mkRetry (currentRetryNum rs) (Some hd) (Some g) (wasIndirectCommErr rs))
  end.

(** The check of the target state: go on, wait and start over, or exit. *)
Inductive StateCheck := StateOk | StateWait | StateExit (res : Z).

Definition check_state (rrNode : RequestResponseNode) (nodeID : Z) : R W StateCheck :=
  if negb (targetStates_ rrNode) then mret StateOk else
  store ← env nodeStates;
  args ← get_args;
  let '(getStateRes, state) := TargetStateStore_getState store (u16 nodeID) in
  if negb getStateRes || negb (reachabilityState state =? TargetReachabilityState_ONLINE) ||
     (isMirrorGroup (peer rrNode) && negb (consistencyState state =? TargetConsistencyState_GOOD))
  then
    if reachabilityState state =? TargetReachabilityState_OFFLINE then
      mret (StateExit FhgfsOpsErr_COMMUNICATION)
    else if Z.land (rr_rrFlags args) REQUESTRESPONSEARGS_FLAG_ALLOWSTATESLEEP =? 0 then
      mret (StateExit FhgfsOpsErr_COMMUNICATION)
    else if mirrorBuddies_ rrNode then
      _ ← env_ (Thread_sleep MSGTK_STATE_SLEEP_MS);
      signal ← env fatal_signal_pending;
      mret (if signal : bool then StateExit FhgfsOpsErr_INTERRUPTED else StateWait)
    else mret StateOk
  else mret StateOk.

(** [nodeNeedsRelease], if the node is known. *)
Definition reference_node (nodeID : Z) : R W (option bool) :=
  args ← get_args;
  match rr_node args with
  | Some _ => mret (Some false)
  | None =>
      r ← env (NodeStoreEx_referenceNode nodeID);
      match r with
      | None => mret None
      | Some node =>
          _ ← upd_held (hold_node node);
          _ ← upd_args (fun a => set_node a (Some node));
          mret (Some true)
      end
  end.

Definition release_node (nodeNeedsRelease : bool) : R W unit :=
  if negb nodeNeedsRelease then mret tt else
  args ← get_args;
  node ← lift (of_option (rr_node args));
  _ ← upd_held (drop_node node);
  _ ← env_ (Node_put node);
  upd_args (fun a => set_node a None).

(** After an indirect communication error the next attempt takes a new number. *)
Definition renew_sequence (rs : RetryState) : R W RetryState :=
  match seq_handle rs with
  | Some handle =>
      if wasIndirectCommErr rs then
        group ← lift (of_option (seq_group rs));
        _ ← release_seq group handle;
        _ ← upd_args (fun a => let h := rr_header a in
              set_header a (header_set_sequence h (msgFlags h) 0 (msgSequenceDone h)));
        mret (mkRetry (currentRetryNum rs) None (seq_group rs) false)
      else mret rs
  | None => mret rs
  end.

(** One turn of the retry loop: the result, or the state for the next turn. *)
Definition node_turn (rrNode : RequestResponseNode) (rs : RetryState)
    : R W (option Z * RetryState) :=
  '(nodeID, rs) ← select_node rrNode rs;
  match nodeID with
  | inl res => mret (Some res, rs)
  | inr nodeID =>
  check ← check_state rrNode nodeID;
  let with_num n rs := mkRetry n (seq_handle rs) (seq_group rs) (wasIndirectCommErr rs) in
  match check with
  | StateExit res => mret (Some res, rs)
  | StateWait => mret (None, with_num 0 rs)
  | StateOk =>
  known ← reference_node nodeID;
  match known with
  | None => mret (Some FhgfsOpsErr_UNKNOWNNODE, rs)
  | Some nodeNeedsRelease =>
  '(commRes, indirect) ← __MessagingTk_requestResponseWithRRArgsComm (seq_group rs) (wasIndirectCommErr rs);
  let rs := mkRetry (currentRetryNum rs) (seq_handle rs) (seq_group rs) indirect in
  d ← after_attempt commRes (currentRetryNum rs);
  '(res, rs) ←
    (match d with
     | Stop res => mret (Some res, rs)
     | PeerAgain => mret (None, with_num 0 rs)
     | Retry =>
         rs ← renew_sequence (with_num (u32 (currentRetryNum rs + 1)) rs);
         mret (None, rs)
     end);
  _ ← release_node nodeNeedsRelease;
  mret (res, rs)
  end end end.

Definition node_exit (rs : RetryState) : R W unit :=
  match seq_handle rs with
  | Some handle => group ← lift (of_option (seq_group rs)); release_seq group handle
  | None => mret tt
  end.

Fixpoint node_loop (fuel : nat) (rrNode : RequestResponseNode) (rs : RetryState) : R W (option Z) :=
  match fuel with
  | O => mret None
  | S fuel =>
      '(res, rs) ← node_turn rrNode rs;
      match res with
      | Some commRes => _ ← node_exit rs; mret (Some commRes)
      | None => node_loop fuel rrNode rs
      end
  end.

Definition __MessagingTk_requestResponseNodeRetry (fuel : nat) (rrNode : RequestResponseNode)
    : R W (option Z) :=
  node_loop fuel rrNode (mkRetry 0 None None false).

(** ** The calls for clients *)

Definition MessagingTk_requestResponseNode (fuel : nat) (rrNode : RequestResponseNode) : R W (option Z) :=
  _ ← upd_args (fun a => set_mode a 1 0 MessagingTkBufType_BufStore);
  __MessagingTk_requestResponseNodeRetry fuel rrNode.

Definition MessagingTk_requestResponseNodeRetryAutoIntr (numCommRetries : Z) (fuel : nat)
    (rrNode : RequestResponseNode) : R W (option Z) :=
  _ ← upd_args (fun a => set_mode a numCommRetries REQUESTRESPONSEARGS_FLAG_ALLOWSTATESLEEP
                           MessagingTkBufType_BufStore);
  __MessagingTk_requestResponseNodeRetry fuel rrNode.

(** The next three take the node and build the arguments themselves; the out
    parameters are in the arguments afterwards. *)
Definition MessagingTk_requestResponse (fuel : nat) (node : Z) (h : NetMessageHeader) (respMsgType : Z)
    : R W (option Z) :=
  _ ← upd_args (fun _ => RequestResponseArgs_prepare (Some node) h respMsgType);
  MessagingTk_requestResponseWithRRArgs fuel.

Definition MessagingTk_requestResponseKMalloc (fuel : nat) (node : Z) (h : NetMessageHeader)
    (respMsgType : Z) : R W (option Z) :=
  _ ← upd_args (fun _ => let a := RequestResponseArgs_prepare (Some node) h respMsgType in
                         set_mode a (rr_numRetries a) (rr_rrFlags a) MessagingTkBufType_kmalloc);
  MessagingTk_requestResponseWithRRArgs fuel.

Definition MessagingTk_requestResponseRetry (numCommRetries : Z) (fuel : nat) (node : Z)
    (h : NetMessageHeader) (respMsgType : Z) : R W (option Z) :=
  _ ← upd_args (fun _ => let a := RequestResponseArgs_prepare (Some node) h respMsgType in
                         set_mode a numCommRetries (rr_rrFlags a) (rr_respBufType a));
  MessagingTk_requestResponseWithRRArgs fuel.

End Request.
End Machine.
