(* ===== verification/MessagingTkInv.v ===== *)
(** * Request and response: properties

    A program logic for the runs of [MessagingTk] ([rwp], with one rule per primitive),
    a specification of one attempt ([comm_spec]), and from it the properties of the two
    retry loops: what is held at the end, how many attempts there are, and which
    sequence number an attempt carries. *)

From stdpp Require Import gmap.
From S2P Require Import Prelude Serialization SerializationLists RBTree NetMessage Messages MessageFormat Responses.
From S2P Require Import TargetStateStore MirrorBuddyGroup MirrorBuddyGroupMapper CommKit CommKitInv CommKitLive.
From S2P Require Import CommKitOps MessagingTk.

(** ** Running *)

(** The only undefined behaviour: the message factory was given a buffer, the newest
    event of the trace, that it cannot decode (see [createFromBuf_safe]). *)
Definition decode_fault (t : list Event) : Prop :=
  exists b n d t', t = EvDecode b n d :: t' /\ decode b n d = Fault.

Definition rwp {W A} (m : R W A) (a : RequestResponseArgs) (h : Held) (t : list Event)
    (Q : A -> RequestResponseArgs -> Held -> list Event -> Prop) : Prop :=
  forall s, rargs s = a -> rheld s = h -> rtrace s = t ->
    match m s with
    | (Some x, s') => Q x (rargs s') (rheld s') (rtrace s')
    | (None, s') => decode_fault (rtrace s')
    end.

Section Rules.
Context {W : Type} `{!RPCEnv W}.
Implicit Types (a : RequestResponseArgs) (h : Held) (t : list Event).

Lemma rwp_ret {A} (x : A) a h t (Q : A -> RequestResponseArgs -> Held -> list Event -> Prop) :
  Q x a h t -> rwp (W := W) (mret x) a h t Q.
Proof. by intros HQ s <- <- <-. Qed.

Lemma rwp_bind {A B} (m : R W A) (f : A -> R W B) a h t Q :
  rwp m a h t (fun x a' h' t' => rwp (f x) a' h' t' Q) -> rwp (m ≫= f) a h t Q.
Proof.
  intros Hm s Ha Hh Ht. specialize (Hm s Ha Hh Ht). unfold mbind, R_bind.
  destruct (m s) as [[x|] s']; [by apply Hm|done].
Qed.

Lemma rwp_mono {A} (m : R W A) a h t (Q Q' : A -> RequestResponseArgs -> Held -> list Event -> Prop) :
  rwp m a h t Q -> (forall x a' h' t', Q x a' h' t' -> Q' x a' h' t') -> rwp m a h t Q'.
Proof.
  intros Hm HQ s Ha Hh Ht. specialize (Hm s Ha Hh Ht). destruct (m s) as [[x|] s']; [by apply HQ|done].
Qed.

Lemma rwp_env {A} (f : W -> A * W) a h t (Q : A -> RequestResponseArgs -> Held -> list Event -> Prop) :
  (forall w, Q (fst (f w)) a h t) -> rwp (env f) a h t Q.
Proof. intros HQ s <- <- <-. unfold env. specialize (HQ (rworld s)). by destruct (f (rworld s)). Qed.

Lemma rwp_env_ (f : W -> W) a h t (Q : unit -> RequestResponseArgs -> Held -> list Event -> Prop) :
  Q tt a h t -> rwp (env_ f) a h t Q.
Proof. intros HQ. by apply rwp_env. Qed.

Lemma rwp_args a h t (Q : RequestResponseArgs -> RequestResponseArgs -> Held -> list Event -> Prop) :
  Q a a h t -> rwp (W := W) get_args a h t Q.
Proof. by intros HQ s <- <- <-. Qed.

Lemma rwp_upd_args f a h t (Q : unit -> RequestResponseArgs -> Held -> list Event -> Prop) :
  Q tt (f a) h t -> rwp (W := W) (upd_args f) a h t Q.
Proof. by intros HQ s <- <- <-. Qed.

Lemma rwp_upd_held f a h h' t (Q : unit -> RequestResponseArgs -> Held -> list Event -> Prop) :
  f h = Some h' -> Q tt a h' t -> rwp (W := W) (upd_held f) a h t Q.
Proof. intros E HQ s <- <- <-. unfold upd_held. by rewrite E. Qed.

Lemma rwp_record e a h t (Q : unit -> RequestResponseArgs -> Held -> list Event -> Prop) :
  Q tt a h (e :: t) -> rwp (W := W) (record e) a h t Q.
Proof. by intros HQ s <- <- <-. Qed.

Lemma rwp_lift {A} (o : outcome A) x a h t (Q : A -> RequestResponseArgs -> Held -> list Event -> Prop) :
  o = Done x -> Q x a h t -> rwp (W := W) (lift o) a h t Q.
Proof. intros -> HQ s <- <- <-. done. Qed.

Lemma rwp_run {A} (m : R W A) s Q :
  rwp m (rargs s) (rheld s) (rtrace s) Q ->
  (exists x s', m s = (Some x, s') /\ Q x (rargs s') (rheld s') (rtrace s')) \/
  (exists s', m s = (None, s') /\ decode_fault (rtrace s')).
Proof. intros Hm. specialize (Hm s eq_refl eq_refl eq_refl). destruct (m s) as [[x|] s']; eauto. Qed.
End Rules.

(** ** The request on the wire *)

(** The payload does not depend on the sequence number fields of the header. *)
Class SeqWrites {P Q} (ops : NetMessageOps P Q) (h : NetMessageHeader) (p : P) (enc : mem) : Prop :=
  seq_writes f q d : PayloadWrites ops (header_set_sequence h f q d) p enc.

Lemma request_seq_writes h r :
  request_wf h r -> exists enc, SeqWrites (request_ops r) h r enc.
Proof.
  intros Hr. pose proof (sends_request h r Hr) as Hw. exists (encode (request_fields h r)).
  intros f q d len. destruct r; exact Hw.
Qed.

Section Wire.
Context {P Q : Type} (ops : NetMessageOps P Q) (h0 : NetMessageHeader) (payload : P) (enc : mem).
Context `{!SeqWrites ops h0 payload enc} (Hsmall : mlen enc + 40 < 2 ^ 32).
Notation total := (40 + mlen enc).

(** Headers of the same request: as it was made, but for the sequence number fields and
    the length, which is filled in when it is first needed. *)
Definition of_request (h : NetMessageHeader) : Prop :=
  exists l f q d, h = header_set_length (header_set_sequence h0 f q d) l /\ (l = 0 \/ l = total).

Definition wire (h : NetMessageHeader) : mem := enc_header total h ++ enc.

Lemma of_request_sequence h f q d : of_request h -> of_request (header_set_sequence h f q d).
Proof. intros (l & f' & q' & d' & -> & Hl). by exists l, f, q, d. Qed.

Lemma of_request_length h : of_request h -> of_request (header_set_length h total).
Proof. intros (l & f & q & d & -> & Hl). exists total, f, q, d. split; [done|by right]. Qed.

Lemma request_length h :
  of_request h -> NetMessage_getMsgLength ops h payload = Done (total, header_set_length h total).
Proof.
  intros (l & f & q & d & -> & [->| ->]).
  - assert (Hw : PayloadWrites ops (header_set_length (header_set_sequence h0 f q d) 0) payload enc)
      by (intros len; apply (seq_writes f q d len)).
    by apply (getMsgLength_run ops _ _ enc).
  - pose proof (mlen_nonneg enc). unfold NetMessage_getMsgLength. cbn [msgLength header_set_length].
    by destruct (Z.eqb_spec (40 + mlen enc) 0); [lia|].
Qed.

Lemma request_serialize h m :
  of_request h -> total <= mlen m ->
  NetMessage_serialize ops h payload m 0 total = Done (true, header_set_length h total, put m 0 (wire h)).
Proof.
  intros Hh Hm. pose proof (mlen_nonneg enc).
  assert (Hs : forall h1, msgLength h1 = 0 -> of_request h1 ->
    NetMessage_serialize ops h1 payload m 0 total =
      Done (true, header_set_length h1 total, put m 0 (wire h1))).
  { intros h1 H1 (l & f & q & d & -> & Hl). cbn [msgLength header_set_length] in H1. subst l.
    assert (Hw : PayloadWrites ops (header_set_length (header_set_sequence h0 f q d) 0) payload enc)
      by (intros len; apply (seq_writes f q d len)).
    rewrite (serialize_run ops _ _ enc) by (done || lia). cbv zeta.
    by destruct (Z.ltb_spec total total); [lia|]. }
  destruct Hh as (l & f & q & d & -> & [->| ->]).
  - apply Hs; [done|]. exists 0, f, q, d. auto.
  - pose proof (Hs (header_set_length (header_set_sequence h0 f q d) 0) eq_refl
      ltac:(exists 0, f, q, d; auto)) as E.
    unfold NetMessage_serialize in E |- *. rewrite request_length in E by (exists 0, f, q, d; auto).
    rewrite request_length by (exists total, f, q, d; auto). exact E.
Qed.

Lemma mlen_wire h : mlen (wire h) = total.
Proof. unfold wire. by rewrite mlen_app, mlen_enc_header. Qed.

Lemma wire_bytes h : Forall is_byte enc -> Forall is_byte (wire h).
Proof. intros He. apply Forall_app. split; [apply enc_header_bytes|done]. Qed.

Lemma wire_length h l : wire (header_set_length h l) = wire h.
Proof. done. Qed.

(** The sequence number of a message on the wire. *)
Definition sent_sequence (bytes : mem) : Z := word bytes 24 8.

Lemma wire_sequence h : in_u 64 (msgSequence h) -> sent_sequence (wire h) = msgSequence h.
Proof.
  intros Hq. unfold sent_sequence.
  assert (H : holds (wire h) 0 (enc_header total h ++ enc)).
  { unfold holds, wire. rewrite Z.add_0_l. split_and!; [done|lia|].
    unfold slice, mlen. rewrite Nat2Z.id. change (Z.to_nat 0) with 0%nat. rewrite drop_0. by rewrite firstn_all. }
  apply holds_app in H as [H _]. unfold enc_header, enc_header_fields in H.
  do 8 (apply holds_app in H as [_ H]). apply holds_app in H as [H _].
  rewrite !mlen_le2, !mlen_le4, !mlen_le8 in H. apply word_holds in H; [|done].
  change (mlen [u8 (msgCompatFeatureFlags h)]) with 1 in H. change (mlen [u8 (msgFlags h)]) with 1 in H.
  exact H.
Qed.
End Wire.

(** ** Answers *)

Definition reply (ev : Event) (msg : Message) : Prop :=
  match ev with EvDecode b n d => decode b n d = Done msg | EvSend _ _ _ => False end.

(** The peer asks to try again later; the peer reports that the operation failed
    because of somebody else. *)
Definition asks_again (ev : Event) : Prop :=
  exists s h, reply ev (Some (SimpleIntStringMsg GenericRespMsgCode_TRYAGAIN s), h) /\
    msgType h = NETMSGTYPE_GenericResponse.
Definition reports_indirect (ev : Event) : Prop :=
  exists q h, reply ev (q, h) /\
    (msgType h = NETMSGTYPE_AckNotifyResp \/
     msgType h = NETMSGTYPE_GenericResponse /\
     exists s, q = Some (SimpleIntStringMsg GenericRespMsgCode_INDIRECTCOMMERR s)).

Lemma decode_generic b n d q h :
  decode b n d = Done (q, h) -> msgType h = NETMSGTYPE_GenericResponse ->
  exists code s, q = Some (SimpleIntStringMsg code s).
Proof.
  unfold decode, NetMessageFactory_createFromBuf. intros E Ht.
  destruct (__NetMessage_deserializeHeader _ _ _) as [[hd ctx]|]; [|done]. cbn in E.
  unfold NetMessageFactory_createFromMsgType in E.
  destruct (factory_table (de_raw d) (de_ok1 d) (de_ok2 d) (msgType hd)) as [ops|] eqn:Et.
  2: { cbn in E. injection E as <- <-. discriminate Ht. }
  destruct (Z.eqb_spec (msgType (NetMessage_init (de_uid d) (msgType hd))) NETMSGTYPE_Invalid) as [E0|_].
  { injection E as <- <-. by rewrite E0 in Ht. }
  unfold __NetMessageFactory_deserializeRaw in E.
  destruct (negb _); [injection E as <- <-; discriminate Ht|].
  destruct (deserializePayload ops hd b ctx) as [[[p|] c]|] eqn:Ed; cbn in E; [| |done];
    injection E as <- <-; [|discriminate Ht].
  rewrite Ht in Et. change (factory_table _ _ _ NETMSGTYPE_GenericResponse) with (Some SimpleIntStringMsg_recv) in Et.
  injection Et as <-. clear Ht. unfold SimpleIntStringMsg_recv, simple_recv, recv_ops in Ed.
  cbn [deserializePayload SimpleIntStringMsg_Ops] in Ed. unfold mbind, Des_bind, mret, Des_ret in Ed.
  destruct (Serialization_deserializeInt b ctx) as [[[i|] c1]|]; try done.
  destruct (Serialization_deserializeStr b c1) as [[[v|] c2]|]; try done.
  injection Ed as <- _. by eexists _, _.
Qed.

(** ** One attempt *)

Lemma set_buf_self a b : rr_outRespBuf a = Some b -> set_buf a (Some b) = a.
Proof. destruct a. by intros [= ->]. Qed.

(** What an attempt leaves alone, and whether the length of the request is known. *)
Definition keeps_args (total : Z) (a a' : RequestResponseArgs) : Prop :=
  rr_node a' = rr_node a /\ rr_respMsgType a' = rr_respMsgType a /\ rr_numRetries a' = rr_numRetries a /\
  rr_rrFlags a' = rr_rrFlags a /\ rr_respBufType a' = rr_respBufType a /\
  (rr_header a' = rr_header a \/ rr_header a' = header_set_length (rr_header a) total).

Definition with_buf (t : Z) (h : Held) : Held := mkHeld (h_conn h) (h_node h) (Some t) (h_seq h).

Section Receiving.
Context {W : Type} `{!RPCEnv W} `{!RPCEnvLaws W}.

Lemma recv_loop_ok fuel sock off len missing a h t b
    (Q : Z -> RequestResponseArgs -> Held -> list Event -> Prop) :
  rr_outRespBuf a = Some b -> msg_wf b -> 0 <= off -> 0 < missing <= len -> off + len <= mlen b ->
  missing <= Z.of_nat fuel ->
  (forall r b', r <= 0 \/ r = len -> msg_wf b' -> mlen b' = mlen b -> Q r (set_buf a (Some b')) h t) ->
  rwp (W := W) (Socket_recvExactTEx fuel sock off len missing) a h t Q.
Proof.
  revert missing a b. induction fuel as [|fuel IH]; intros missing a b Ea Hb Ho Hm Hl Hf HQ; [lia|].
  cbn [Socket_recvExactTEx]. apply rwp_bind, rwp_env. intros w.
  pose proof (recv_error sock missing w) as Herr. pose proof (recv_bound sock missing w) as Hbd.
  destruct (fst (Socket_recvT sock missing w)) as [e|bytes].
  { apply rwp_ret. rewrite <- (set_buf_self a b Ea). apply HQ; [|done..]. left. specialize (Herr e eq_refl). lia. }
  destruct (Hbd bytes eq_refl) as [Hlen Hby].
  destruct bytes as [|x bytes']; [apply rwp_ret; rewrite <- (set_buf_self a b Ea); apply HQ; [by left|done..]|].
  set (bytes := x :: bytes') in *. assert (0 < mlen bytes) by (unfold bytes, mlen; cbn [length]; lia).
  apply rwp_bind, rwp_args. apply rwp_bind, (rwp_lift _ b); [by rewrite Ea|].
  apply rwp_bind. eapply rwp_lift; [apply write_block_Done; lia|]. apply rwp_bind, rwp_upd_args.
  set (b' := put b (off + (len - missing)) bytes).
  assert (Hm' : mlen b' = mlen b) by (apply mlen_put; lia).
  assert (Hb' : msg_wf b') by (split; [apply put_bytes; [apply Hb|done]|rewrite Hm'; apply Hb]).
  destruct (Z.eqb_spec (missing - mlen bytes) 0).
  - apply rwp_ret, HQ; auto.
  - apply (IH _ (set_buf a (Some b')) b'); try done; try lia.
    intros r b'' Hr Hw Hm''. apply (HQ r b''); [done|done|congruence].
Qed.

Lemma recv_exact_ok sock off len a h t b (Q : Z -> RequestResponseArgs -> Held -> list Event -> Prop) :
  rr_outRespBuf a = Some b -> msg_wf b -> 0 <= off -> 0 < len -> off + len <= mlen b ->
  (forall r b', r <= 0 \/ r = len -> msg_wf b' -> mlen b' = mlen b -> Q r (set_buf a (Some b')) h t) ->
  rwp (W := W) (recvExact sock off len) a h t Q.
Proof. intros. apply (recv_loop_ok _ _ _ _ _ _ _ _ b); try done; lia. Qed.

(** A received message lies in the buffer. *)
Lemma recv_msg_ok sock bufLen a h t b (Q : Z -> RequestResponseArgs -> Held -> list Event -> Prop) :
  rr_outRespBuf a = Some b -> msg_wf b -> NETMSG_MIN_LENGTH <= bufLen <= mlen b ->
  (forall r b', r <= bufLen -> msg_wf b' -> mlen b' = mlen b -> Q r (set_buf a (Some b')) h t) ->
  rwp (W := W) (MessagingTk_recvMsgBuf sock bufLen) a h t Q.
Proof.
  change NETMSG_MIN_LENGTH with 40. intros Ea Hb Hl HQ. unfold MessagingTk_recvMsgBuf.
  change NETMSG_MIN_LENGTH with 40.
  apply rwp_bind, (recv_exact_ok _ _ _ _ _ _ b); try done; try lia. intros r b1 Hr Hb1 Hm1.
  destruct (Z.leb_spec r 0); [apply rwp_ret, HQ; done || lia|].
  apply rwp_bind, rwp_args. apply rwp_bind, (rwp_lift _ b1); [done|].
  apply rwp_bind. eapply rwp_lift; [apply extract_word; lia|].
  pose proof (word_range b1 0 4 Hb1 ltac:(lia) ltac:(lia) ltac:(lia)) as [Hw _].
  destruct (Z.leb_spec (word b1 0 4) 40); [apply rwp_ret, HQ; done || lia|].
  destruct (Z.ltb_spec bufLen (word b1 0 4)); [apply rwp_ret, HQ; done || (unfold EMSGSIZE; lia)|].
  apply rwp_bind, (recv_exact_ok _ _ _ _ _ _ b1); try done; try lia. intros r2 b2 Hr2 Hb2 Hm2.
  apply rwp_ret. apply (HQ _ b2); [|done|congruence]. destruct (Z.leb_spec r2 0); lia.
Qed.

(** The ends of an attempt: [new] are its events, [req] the message it sends. *)
Definition fail_codes : list Z :=
  [FhgfsOpsErr_COMMUNICATION; FhgfsOpsErr_INTERNAL; FhgfsOpsErr_OUTOFMEM; FhgfsOpsErr_AGAIN].

Definition failed (res : Z) (new : list Event) : Prop :=
  res ∈ fail_codes /\ (res = FhgfsOpsErr_AGAIN -> Exists asks_again new).

(** The answer in the arguments is what the buffer decodes to, and has the right type. *)
Definition answered (a : RequestResponseArgs) (new : list Event) : Prop :=
  exists b n d msg new', new = EvDecode b n d :: new' /\ decode b n d = Done msg /\
    rr_outRespBuf a = Some b /\ rr_outRespMsg a = Some msg /\ msgType (snd msg) = rr_respMsgType a.

Definition end_ok (how : CommEnd) (a : RequestResponseArgs) (new : list Event) : Prop :=
  match how with
  | CommSuccess => answered a new
  | CommReuse r | CommInvalidate r => failed r new
  end.

Definition indirect_ok (ind ind' : bool) (new : list Event) : Prop :=
  ind' = true -> ind = true \/ Exists reports_indirect new.

Lemma handle_generic_ok resp group a h t (Q : Z * bool -> RequestResponseArgs -> Held -> list Event -> Prop) ev :
  reply ev resp -> msgType (snd resp) = NETMSGTYPE_GenericResponse ->
  (exists code s, fst resp = Some (SimpleIntStringMsg code s)) ->
  (forall r ind, failed r [ev] -> (ind = true -> reports_indirect ev) -> Q (r, ind) a h t) ->
  rwp (W := W) (__MessagingTk_handleGenericResponse resp group) a h t Q.
Proof.
  destruct resp as [q hd]. cbn [fst snd]. intros Hev Ht (code & s & ->) HQ.
  unfold __MessagingTk_handleGenericResponse.
  assert (Hf : forall r, r ∈ fail_codes -> r <> FhgfsOpsErr_AGAIN -> failed r [ev])
    by (intros r Hr Hne; split; [done|by intros ->]).
  destruct (Z.eqb_spec code GenericRespMsgCode_TRYAGAIN) as [->|].
  { apply rwp_ret, HQ; [|done]. split; [by repeat constructor|]. intros _. left. by exists s, hd. }
  destruct (Z.eqb_spec code GenericRespMsgCode_INDIRECTCOMMERR) as [->|].
  { apply rwp_ret, HQ; [apply Hf; [by repeat constructor|done]|]. intros _.
    exists (Some (SimpleIntStringMsg GenericRespMsgCode_INDIRECTCOMMERR s)), hd. split; [done|]. right; eauto. }
  destruct (Z.eqb_spec code GenericRespMsgCode_NEWSEQNOBASE) as [->|].
  - destruct group as [g|].
    + apply rwp_bind, rwp_env_, rwp_ret, HQ; [apply Hf; [by repeat constructor|done]|done].
    + apply rwp_ret, HQ; [apply Hf; [by repeat constructor|done]|done].
  - apply rwp_ret, HQ; [apply Hf; [by repeat constructor|done]|done].
Qed.

Definition decode_event (new : list Event) : Prop := new = [] \/ exists b n d, new = [EvDecode b n d].

Lemma failed_codes r new : r ∈ fail_codes -> r <> FhgfsOpsErr_AGAIN -> failed r new.
Proof. intros Hr Hne. split; [done|by intros ->]. Qed.

Lemma receive_ok sock bufLen group ind a h t b
    (Q : CommEnd * bool -> RequestResponseArgs -> Held -> list Event -> Prop) :
  rr_outRespBuf a = Some b -> msg_wf b -> NETMSG_MIN_LENGTH <= bufLen <= mlen b ->
  (forall how ind' b' m new, decode_event new -> indirect_ok ind ind' new ->
     end_ok how (set_msg (set_buf a (Some b')) m) new ->
     Q (how, ind') (set_msg (set_buf a (Some b')) m) h (new ++ t)) ->
  rwp (W := W) (receive_response sock bufLen group ind) a h t Q.
Proof.
  intros Ea Hb Hl HQ. unfold receive_response.
  assert (Hself : forall b', set_msg (set_buf a (Some b')) (rr_outRespMsg a) = set_buf a (Some b'))
    by (intros b'; by destruct a).
  apply rwp_bind, (recv_msg_ok _ _ _ _ _ b); [done..|]. intros r b1 Hr Hb1 Hm1.
  destruct (Z.leb_spec r 0).
  { apply rwp_ret. rewrite <- Hself. apply (HQ _ _ _ _ []); [by left|by intros ->; left|].
    by apply failed_codes; [repeat constructor|]. }
  apply rwp_bind, rwp_args. apply rwp_bind, (rwp_lift _ b1); [done|].
  apply rwp_bind, rwp_env. intros w. set (d := fst (decode_choices w)).
  apply rwp_bind, rwp_record. set (ev := EvDecode b1 r d). apply rwp_bind.
  destruct (decode b1 r d) as [[q hd]|] eqn:Ed.
  2: { intros s <- <- Ht. cbn. exists b1, r, d, t. by split. }
  eapply rwp_lift; [done|]. apply rwp_bind, rwp_upd_args. cbn [snd fst].
  assert (Hone : decode_event [ev]) by (right; by exists b1, r, d).
  assert (Hrep : reply ev (q, hd)) by done.
  destruct (Z.eqb_spec (msgType hd) NETMSGTYPE_AckNotifyResp) as [Et|_].
  { apply rwp_ret, (HQ _ _ _ _ [ev]); [done| |by apply failed_codes; [repeat constructor|]].
    intros _. right; left. exists q, hd. split; [done|by left]. }
  destruct (Z.eqb_spec (msgType hd) NETMSGTYPE_GenericResponse) as [Et|_].
  - apply rwp_bind, (handle_generic_ok _ _ _ _ _ _ ev); [done|done|by eapply decode_generic|].
    intros rv ind' Hrv Hind. apply rwp_ret.
    assert (Hi : indirect_ok ind ind' [ev]) by (intros Hi; right; left; auto).
    destruct (Z.eqb_spec rv FhgfsOpsErr_INTERNAL); by apply (HQ _ _ _ _ [ev]).
  - destruct (Z.eqb_spec (msgType hd) (rr_respMsgType (set_buf a (Some b1)))) as [Et|_]; cbn [negb]; apply rwp_ret;
      apply (HQ _ _ _ _ [ev]); try done; try (by intros ->; left); [|by apply failed_codes; [repeat constructor|]].
    exists b1, r, d, (q, hd), []. by split_and!.
Qed.
End Receiving.

(** The events of an attempt that sends [req]. *)
Definition attempt_events (req : mem) (new : list Event) : Prop :=
  new = [] \/ exists dec sock r, new = dec ++ [EvSend sock req r] /\ decode_event dec.

(** The buffer is accounted for. *)
Definition buf_held (a a' : RequestResponseArgs) (h h' : Held) : Prop :=
  (rr_outRespBuf a' = None /\ h' = h) \/
  (is_Some (rr_outRespBuf a') /\ h' = with_buf (rr_respBufType a) h).

Lemma end_ok_more how a new more : end_ok how a new -> end_ok how a (new ++ more).
Proof.
  destruct how; cbn.
  - intros (b & n & d & msg & new' & -> & H). exists b, n, d, msg, (new' ++ more). by split.
  - intros [? Hag]. split; [done|]. intros E. apply Exists_app. by left; apply Hag.
  - intros [? Hag]. split; [done|]. intros E. apply Exists_app. by left; apply Hag.
Qed.

Lemma indirect_ok_more ind ind' new more : indirect_ok ind ind' new -> indirect_ok ind ind' (new ++ more).
Proof. intros H E. destruct (H E); [by left|]. right. apply Exists_app. by left. Qed.

Section Attempt.
Context {W : Type} `{!RPCEnv W} `{!RPCEnvLaws W}.
Context {P Q : Type} (ops : NetMessageOps P Q) (h0 : NetMessageHeader) (payload : P) (enc : mem).
Context `{!SeqWrites ops h0 payload enc} (Hsmall : mlen enc + 40 < 2 ^ 32).
Notation total := (40 + mlen enc).
Notation of_request := (of_request h0 enc).
Notation wire := (wire enc).

Lemma prepare_buffer_ok len a h t (K : Z + Z -> RequestResponseArgs -> Held -> list Event -> Prop) :
  rr_outRespBuf a = None -> h_buf h = None -> 40 <= len < 2 ^ 32 ->
  (forall r, failed r [] -> K (inl r) a h t) ->
  (forall n b, msg_wf b -> len <= n <= mlen b ->
     K (inr n) (set_buf a (Some b)) (with_buf (rr_respBufType a) h) t) ->
  rwp (W := W) (prepare_buffer len) a h t K.
Proof.
  intros Ea Hh Hlen HF HK. unfold prepare_buffer. apply rwp_bind, rwp_args.
  assert (Hhold : hold_buf (rr_respBufType a) h = Some (with_buf (rr_respBufType a) h))
    by (unfold hold_buf; by rewrite Hh).
  destruct (rr_respBufType a =? MessagingTkBufType_BufStore).
  - apply rwp_bind, rwp_env. intros w. set (size := fst (NoAllocBufferStore_getBufSize w)).
    destruct (Z.ltb_spec (u32 size) len); [apply rwp_ret, HF, failed_codes; [by repeat constructor|done]|].
    apply rwp_bind, rwp_env. intros w'. destruct (store_size w w') as [Hb Hm]. fold size in Hm.
    eapply rwp_bind, rwp_upd_held; [done|]. apply rwp_bind, rwp_upd_args, rwp_ret, HK; [done|].
    split; [done|]. rewrite Hm. unfold u32, wrap. apply Z.mod_le; [|lia].
    rewrite <- Hm. apply mlen_nonneg.
  - apply rwp_bind, rwp_env. intros w.
    pose proof (kmalloc_size (Z.max MSGTK_KMALLOC_RECV_BUF_LEN len) w) as Hk.
    destruct (fst (os_kmalloc _ w)) as [b|].
    2: { apply rwp_ret, HF, failed_codes; [by repeat constructor|done]. }
    destruct (Hk b eq_refl) as [Hb Hm].
    eapply rwp_bind, rwp_upd_held; [done|]. apply rwp_bind, rwp_upd_args, rwp_ret, HK; [done|].
    rewrite Hm. lia.
Qed.

Lemma keeps_args_buf a b m :
  keeps_args total a (set_msg (set_buf (set_header a (header_set_length (rr_header a) total)) b) m).
Proof. repeat (split; [done|]). by right. Qed.

Lemma exchange_ok sock group ind a h t
    (K : CommEnd * bool -> RequestResponseArgs -> Held -> list Event -> Prop) :
  of_request (rr_header a) -> Forall is_byte enc ->
  rr_outRespBuf a = None -> rr_outRespMsg a = None -> h_buf h = None ->
  (forall how ind' a' h' new, attempt_events (wire (rr_header a)) new -> indirect_ok ind ind' new ->
     keeps_args total a a' -> end_ok how a' new -> buf_held a a' h h' ->
     K (how, ind') a' h' (new ++ t)) ->
  rwp (W := W) (exchange ops payload sock group ind) a h t K.
Proof.
  intros Hr He Eb Em Hh HK. unfold exchange, getMsgLength. pose proof (mlen_nonneg enc).
  apply rwp_bind, rwp_bind, rwp_args. apply rwp_bind. eapply rwp_lift; [by apply (request_length ops h0)|].
  apply rwp_bind, rwp_upd_args, rwp_ret. rewrite u32_id by (unfold in_u; lia).
  set (hd := header_set_length (rr_header a) total). set (a1 := set_header a hd).
  assert (Ea1 : forall b, set_msg (set_buf a1 b) None = set_buf a1 b) by (intros b; destruct a; cbn in *; by subst).
  assert (Hind : indirect_ok ind ind []) by (by left).
  apply rwp_bind, prepare_buffer_ok; [done|done|lia|..].
  { intros r Hf. apply rwp_ret. apply (HK _ _ _ _ []); try done; [by left| |by left].
    replace a1 with (set_msg (set_buf a1 None) None) by (destruct a; cbn in *; by subst). apply keeps_args_buf. }
  intros n b Hb Hn. apply rwp_bind, rwp_args. apply rwp_bind, (rwp_lift _ b); [done|].
  apply rwp_bind. eapply rwp_lift.
  { apply (request_serialize ops h0 payload enc Hsmall); [by apply (of_request_length h0 enc)|lia]. }
  cbn [rr_header set_header]. apply rwp_bind, rwp_upd_args.
  change (wire (rr_header (set_buf a1 (Some b)))) with (wire (rr_header a)). set (req := wire (rr_header a)). set (b1 := put b 0 req).
  assert (Hreq : mlen req = total) by apply mlen_wire.
  assert (Hb1 : msg_wf b1) by (apply put_msg_wf; [done|by apply wire_bytes|lia|lia]).
  assert (Hm1 : mlen b1 = mlen b) by (apply mlen_put; lia).
  apply rwp_bind, (rwp_lift _ req).
  { rewrite <- Hreq, read_block_Done by lia. unfold b1. by rewrite slice_put by lia. }
  apply rwp_bind. unfold Socket_send. apply rwp_bind, rwp_env. intros w.
  apply rwp_bind, rwp_record, rwp_ret. set (res := fst (CommKit.Socket_send sock req w)).
  set (ev := EvSend sock req res).
  assert (Hheld : forall b' m, buf_held a (set_msg (set_buf a1 (Some b')) m) h (with_buf (rr_respBufType a) h))
    by (intros; right; by split).
  change (set_buf (set_header (set_buf a1 (Some b)) (header_set_length (rr_header (set_buf a1 (Some b))) total))
            (Some b1)) with (set_buf a1 (Some b1)).
  destruct (Z.eqb_spec res total) as [_|_]; cbn [negb].
  - apply (receive_ok _ _ _ _ (set_buf a1 (Some b1)) _ _ b1); [done|done|change NETMSG_MIN_LENGTH with 40; lia|].
    intros how ind' b' m dec Hdec Hi Hend.
    change (dec ++ ev :: t) with (dec ++ [ev] ++ t). rewrite app_assoc. apply HK.
    + right. by exists dec, sock, res.
    + by apply indirect_ok_more.
    + apply keeps_args_buf.
    + by apply end_ok_more.
    + apply Hheld.
  - apply rwp_ret. rewrite <- Ea1. apply (HK _ _ _ _ [ev]); [|by left|apply keeps_args_buf| |apply Hheld].
    + right. exists [], sock, res. split; [done|by left].
    + by apply failed_codes; [repeat constructor|].
Qed.

Definition clear (a : RequestResponseArgs) : RequestResponseArgs := set_buf (set_msg a None) None.

(** What one attempt leaves behind. *)
Definition comm_post (a : RequestResponseArgs) (h : Held) (ind : bool) (res : Z) (ind' : bool)
    (a' : RequestResponseArgs) (h' : Held) (new : list Event) : Prop :=
  attempt_events (wire (rr_header a)) new /\ indirect_ok ind ind' new /\ keeps_args total a a' /\
  if decide (res = FhgfsOpsErr_SUCCESS) then answered a' new /\ h' = with_buf (rr_respBufType a) h
  else failed res new /\ a' = clear a' /\ h' = h.

Lemma failed_not_success r new : failed r new -> r <> FhgfsOpsErr_SUCCESS.
Proof.
  intros [Hr _] ->. unfold fail_codes in Hr. by rewrite !elem_of_cons, elem_of_nil in Hr; intuition discriminate.
Qed.

Lemma keeps_args_clear a a' : keeps_args total a a' -> keeps_args total a (clear a').
Proof. done. Qed.

(** Cleaning up after a failed attempt. *)
Lemma cleanup_ok a a' h h' t (K : unit -> RequestResponseArgs -> Held -> list Event -> Prop) :
  buf_held a a' h h' -> rr_respBufType a' = rr_respBufType a -> h_buf h = None ->
  K tt (clear a') h t -> rwp (W := W) cleanup_no_socket a' h' t K.
Proof.
  intros Hb Ht Hh HK. unfold cleanup_no_socket, RequestResponseArgs_freeRespBuffers.
  apply rwp_bind, rwp_bind, rwp_args. destruct Hb as [[E ->]|[[b E] ->]]; rewrite E.
  - by apply rwp_ret, rwp_upd_args.
  - apply rwp_bind. eapply rwp_upd_held.
    { rewrite Ht. unfold drop_buf, with_buf. cbn [h_buf]. by rewrite bool_decide_true. }
    cbn [h_conn h_node h_seq]. replace (mkHeld _ _ None _) with h by (destruct h; cbn in *; by subst).
    case_match; by apply rwp_env_, rwp_upd_args.
Qed.

Lemma comm_ok node group ind a h t (K : Z * bool -> RequestResponseArgs -> Held -> list Event -> Prop) :
  of_request (rr_header a) -> Forall is_byte enc -> rr_node a = Some node ->
  h_conn h = None -> h_buf h = None ->
  (forall res ind' a' h' new, comm_post a h ind res ind' a' h' new -> K (res, ind') a' h' (new ++ t)) ->
  rwp (W := W) (__MessagingTk_requestResponseWithRRArgsComm ops payload group ind) a h t K.
Proof.
  intros Hr He En Hc Hb HK. unfold __MessagingTk_requestResponseWithRRArgsComm, acquire_conn.
  apply rwp_bind, rwp_upd_args. fold (clear a). apply rwp_bind, rwp_args.
  apply rwp_bind, (rwp_lift _ node); [cbn; by rewrite En|].
  apply rwp_bind, rwp_bind, rwp_env. intros w.
  destruct (fst (NodeConnPool_acquireStreamSocketEx node true w)) as [sock|].
  2: { apply rwp_ret, rwp_ret, (HK _ _ _ _ []). split_and!; [by left|by left|by repeat (split; [done|]); left|].
       rewrite decide_False by done. split_and!; [|by destruct a|done].
       by apply failed_codes; [repeat constructor|]. }
  set (hc := mkHeld (Some (node, sock)) (h_node h) (h_buf h) (h_seq h)).
  eapply rwp_bind, (rwp_upd_held _ _ _ hc); [unfold hold_conn; by rewrite Hc|]. apply rwp_ret.
  apply rwp_bind, exchange_ok; [done..|]. intros how ind' a' h' new Hev Hi Hk Hend Hheld.
  assert (Hdrop : forall f (m : R W (Z * bool)) h2, (h' = hc -> h2 = h) ->
    (h' = with_buf (rr_respBufType a) hc -> h2 = with_buf (rr_respBufType a) h) ->
    rwp m a' h2 (new ++ t) K -> rwp (_ ← give_conn f node sock; m) a' h' (new ++ t) K).
  { intros f m h2 H1 H2 Hm. apply rwp_bind. unfold give_conn. apply rwp_bind.
    apply (rwp_upd_held _ _ _ h2); [|by apply rwp_env_].
    unfold drop_conn. destruct Hheld as [[_ E]|[_ E]]; rewrite E; cbn [h_conn with_buf];
      rewrite bool_decide_true by done; f_equal; [rewrite (H1 E)|rewrite (H2 E)];
      unfold with_buf; cbn; destruct h; cbn in *; by subst. }
  assert (Hfail : forall r, failed r new ->
    rwp (W := W) (_ ← cleanup_no_socket; mret (r, ind')) a'
      (match rr_outRespBuf a' with None => h | Some _ => with_buf (rr_respBufType a) h end) (new ++ t) K).
  { intros r Hf. apply rwp_bind. destruct Hk as (K1 & K2 & K3 & K4 & K5 & K6).
    apply (cleanup_ok a _ h); [|exact K5|done|].
    { destruct Hheld as [[E0 _]|[[b Eb] _]]; [rewrite E0; by left|]. rewrite Eb. right. split; [by eexists|done]. }
    apply rwp_ret, HK. split_and!; [done|done|by split_and!|].
    rewrite decide_False by (by eapply failed_not_success). split_and!; [done|by destruct a'|done]. }
  assert (Hsel : (h' = hc -> match rr_outRespBuf a' with None => h | Some _ => with_buf (rr_respBufType a) h end = h)
    /\ (h' = with_buf (rr_respBufType a) hc ->
       match rr_outRespBuf a' with None => h | Some _ => with_buf (rr_respBufType a) h end =
         with_buf (rr_respBufType a) h)).
  { destruct Hheld as [[-> Eh]|[[b ->] Eh]]; rewrite Eh; split; try done; intros E;
      unfold with_buf, hc in E; injection E; intros; unfold with_buf; destruct h; cbn in *; congruence. }
  destruct how as [|r|r].
  - destruct Hheld as [[Eb _]|[_ Eh]].
    { destruct Hend as (? & ? & ? & ? & ? & _ & _ & Eb' & _). congruence. }
    apply (Hdrop _ _ (with_buf (rr_respBufType a) h)); [|done|].
    { rewrite Eh. intros E. unfold with_buf, hc in *. injection E. cbn. intros. by rewrite Hb in *. }
    apply rwp_ret, HK. split_and!; [done|done|done|]. by rewrite decide_True.
  - eapply Hdrop; [by apply Hsel|by apply Hsel|by apply Hfail].
  - eapply Hdrop; [by apply Hsel|by apply Hsel|by apply Hfail].
Qed.
End Attempt.

(** ** The decision after an attempt *)

(** What the calls return besides success. *)
Definition result_codes : list Z :=
  [FhgfsOpsErr_INTERRUPTED; FhgfsOpsErr_UNKNOWNNODE; FhgfsOpsErr_COMMUNICATION; FhgfsOpsErr_INTERNAL;
   FhgfsOpsErr_OUTOFMEM; FhgfsOpsErr_AGAIN].

Definition signalled (W : Type) `{!RPCEnv W} : Prop := forall w : W, fst (fatal_signal_pending w) = true.

Definition decision_ok (W : Type) `{!RPCEnv W} (commRes cur : Z) (a : RequestResponseArgs) (d : Decision) : Prop :=
  match d with
  | Stop r => commRes <> FhgfsOpsErr_SUCCESS -> r ∈ result_codes
  | PeerAgain => commRes = FhgfsOpsErr_AGAIN
  | Retry => commRes <> FhgfsOpsErr_SUCCESS /\ (rr_numRetries a = 0 \/ cur < rr_numRetries a)
  end /\
  (commRes = FhgfsOpsErr_SUCCESS -> d = Stop FhgfsOpsErr_SUCCESS) /\
  (signalled W -> exists r, d = Stop r).

Lemma after_attempt_ok {W} `{!RPCEnv W} commRes cur a h t node
    (K : Decision -> RequestResponseArgs -> Held -> list Event -> Prop) :
  rr_node a = Some node -> commRes = FhgfsOpsErr_SUCCESS \/ commRes ∈ fail_codes ->
  (forall d, decision_ok W commRes cur a d -> K d a h t) ->
  rwp (W := W) (after_attempt commRes cur) a h t K.
Proof.
  intros En Hc HK. unfold after_attempt.
  destruct (Z.eqb_spec commRes FhgfsOpsErr_SUCCESS) as [->|Hne].
  { apply rwp_ret, HK. split; [done|]. split; [done|]. by eexists. }
  destruct Hc as [|Hc]; [done|]. apply rwp_bind, rwp_env. intros w1.
  assert (Hstop : forall r, r ∈ result_codes -> decision_ok W commRes cur a (Stop r))
    by (intros r Hr; split; [done|]; split; [done|]; by eexists).
  destruct (fst (fatal_signal_pending w1)) eqn:Es; [apply rwp_ret, HK, Hstop; by repeat constructor|].
  assert (Hns : ~ signalled W) by (intros Hs; by rewrite Hs in Es).
  apply rwp_bind, rwp_args. apply rwp_bind, (rwp_lift _ node); [by rewrite En|].
  apply rwp_bind, rwp_env. intros w2. destruct (fst (Node_getIsActive node w2)); cbn [negb].
  2: { apply rwp_ret, HK, Hstop. by repeat constructor. }
  destruct (Z.eqb_spec commRes FhgfsOpsErr_WOULDBLOCK) as [_|_]; [apply rwp_ret, HK, Hstop; by repeat constructor|].
  assert (Hrest : rwp (W := W)
    (if negb (commRes =? FhgfsOpsErr_COMMUNICATION) then mret (Stop commRes) else
     enabled ← env App_getConnRetriesEnabled;
     if enabled && ((rr_numRetries a =? 0) || (cur <? rr_numRetries a)) then
       _ ← MessagingTk_waitBeforeRetry cur; mret Retry
     else mret (Stop FhgfsOpsErr_COMMUNICATION)) a h t K).
  { destruct (Z.eqb_spec commRes FhgfsOpsErr_COMMUNICATION) as [->|_]; cbn [negb].
    2: { apply rwp_ret, HK, Hstop. unfold fail_codes, result_codes in *. set_solver. }
    apply rwp_bind, rwp_env. intros w3. destruct (fst (App_getConnRetriesEnabled w3)); cbn [andb].
    2: { apply rwp_ret, HK, Hstop. by repeat constructor. }
    destruct ((rr_numRetries a =? 0) || (cur <? rr_numRetries a)) eqn:Ec.
    2: { apply rwp_ret, HK, Hstop. by repeat constructor. }
    apply rwp_bind. unfold MessagingTk_waitBeforeRetry.
    assert (Hd : decision_ok W FhgfsOpsErr_COMMUNICATION cur a Retry).
    { rewrite orb_true_iff, Z.eqb_eq, Z.ltb_lt in Ec. split; [by split|]. split; [done|by intros Hs; destruct (Hns Hs)]. }
    case_match; [by apply rwp_ret, rwp_ret, HK|by apply rwp_env_, rwp_ret, HK]. }
  destruct (Z.eqb_spec commRes FhgfsOpsErr_AGAIN) as [->|_]; [|by apply rwp_bind, rwp_ret].
  apply rwp_bind, rwp_env. intros w3. destruct (fst (App_getConnRetriesEnabled w3)); [|exact Hrest].
  apply rwp_bind, rwp_env_, rwp_ret, HK.
  split; [done|]. split; [done|by intros Hs; destruct (Hns Hs)].
Qed.

(** ** The two retry loops *)

Definition same_options (a a' : RequestResponseArgs) : Prop :=
  rr_respMsgType a' = rr_respMsgType a /\ rr_numRetries a' = rr_numRetries a /\
  rr_rrFlags a' = rr_rrFlags a /\ rr_respBufType a' = rr_respBufType a.

#[export] Instance same_options_preorder : PreOrder same_options.
Proof.
  split; [by intros a; unfold same_options|]. intros a b c (A1 & A2 & A3 & A4) (B1 & B2 & B3 & B4).
  unfold same_options. split_and!; congruence.
Qed.

Lemma keeps_same total a a' : keeps_args total a a' -> same_options a a'.
Proof. intros (_ & ? & ? & ? & ? & _). by split_and!. Qed.

(** The end of a call, with result [res]: a response with its buffer, or neither. *)
Definition result_ok (res : Z) (a a' : RequestResponseArgs) (h h' : Held) (t' : list Event) : Prop :=
  if decide (res = FhgfsOpsErr_SUCCESS) then answered a' t' /\ h' = with_buf (rr_respBufType a) h
  else res ∈ result_codes /\ rr_outRespBuf a' = None /\ rr_outRespMsg a' = None /\ h' = h.

Lemma answered_more a new t : answered a new -> answered a (new ++ t).
Proof. intros (b & n & d & msg & new' & -> & H). exists b, n, d, msg, (new' ++ t). by split. Qed.

Lemma fail_codes_results r : r ∈ fail_codes -> r ∈ result_codes.
Proof. unfold fail_codes, result_codes. set_solver. Qed.

Section Loops.
Context {W : Type} `{!RPCEnv W} `{!RPCEnvLaws W}.
Context {P Q : Type} (ops : NetMessageOps P Q) (h0 : NetMessageHeader) (payload : P) (enc : mem).
Context `{!SeqWrites ops h0 payload enc} (Hsmall : mlen enc + 40 < 2 ^ 32) (Henc : Forall is_byte enc).
Notation total := (40 + mlen enc).
Notation of_request := (of_request h0 enc).
Notation wire := (wire enc).

(** The attempts that are left, if there is a limit and nobody asks for more. *)
Definition limited (a : RequestResponseArgs) (cur : Z) (fuel : nat) (t : list Event) : Prop :=
  Exists asks_again t \/ rr_numRetries a = 0 \/ cur + Z.of_nat fuel <= rr_numRetries a.

Lemma keeps_of_request a a' : keeps_args total a a' -> of_request (rr_header a) -> of_request (rr_header a').
Proof. intros (_ & _ & _ & _ & _ & [-> | ->]); [done|]. by apply of_request_length. Qed.

Lemma not_success_code r : r ∈ result_codes -> r <> FhgfsOpsErr_SUCCESS.
Proof. intros Hr ->. revert Hr. unfold result_codes. rewrite !elem_of_cons, elem_of_nil. intuition discriminate. Qed.

Definition rr_post (cur : Z) (fuel : nat) (a : RequestResponseArgs) (h : Held) (t : list Event)
    (res : option Z) (a' : RequestResponseArgs) (h' : Held) (t' : list Event) : Prop :=
  same_options a a' /\ rr_node a' = rr_node a /\ (exists more, t' = more ++ t) /\
  match res with
  | Some res => result_ok res a a' h h' t'
  | None => h' = h /\ limited a cur fuel t' /\ (signalled W -> fuel = 0%nat)
  end.

Lemma rr_loop_ok fuel cur ind a h t node :
  of_request (rr_header a) -> rr_node a = Some node -> h_conn h = None -> h_buf h = None ->
  0 <= rr_numRetries a < 2 ^ 32 -> 0 <= cur <= rr_numRetries a \/ rr_numRetries a = 0 ->
  rwp (W := W) (rr_loop ops payload fuel cur ind) a h t (rr_post cur fuel a h t).
Proof.
  revert cur ind a t. induction fuel as [|fuel IH]; intros cur ind a t Hr En Hc Hb Hn Hcur; cbn [rr_loop].
  { apply rwp_ret. split_and!; try done; [by exists []|]. unfold limited. lia. }
  apply rwp_bind, (comm_ok ops h0 payload enc Hsmall node); [done..|].
  intros res ind' a1 h1 new (Hev & Hi & Hk & Hend). pose proof (keeps_same _ _ _ Hk) as Hs.
  pose proof Hk as (En1 & _ & Hn1 & _ & Ht1 & _).
  apply rwp_bind, (after_attempt_ok _ _ _ _ _ node); [by rewrite En1| |].
  { destruct (decide _); [by left|right; apply Hend]. }
  intros d (Hd & Hsucc & Hsig).
  destruct (decide (res = FhgfsOpsErr_SUCCESS)) as [->|Hne].
  { rewrite (Hsucc eq_refl). destruct Hend as [Hans ->]. apply rwp_ret.
    split_and!; [apply Hs..|done|by exists new|].
    unfold result_ok. rewrite decide_True by done. split; [by apply answered_more|done]. }
  destruct Hend as (Hf & Eclear & ->).
  assert (Hgo : forall n, 0 <= n <= rr_numRetries a \/ rr_numRetries a = 0 ->
    (forall more, limited a n fuel (more ++ new ++ t) -> limited a cur (S fuel) (more ++ new ++ t)) ->
    (signalled W -> False) ->
    rwp (W := W) (rr_loop ops payload fuel n ind') a1 h (new ++ t) (rr_post cur (S fuel) a h t)).
  { intros n Hcur' Hlim Hns. eapply rwp_mono.
    { apply (IH n ind' a1 (new ++ t)); rewrite ?Hn1; try done; [by eapply keeps_of_request|by rewrite En1]. }
    intros r a2 h2 t2 (Hs2 & En2 & (more & ->) & Hpost).
    split_and!; [by etransitivity; [exact Hs|]|congruence|exists (more ++ new); by rewrite app_assoc|].
    destruct r as [r|].
    - revert Hpost. unfold result_ok. by rewrite Ht1.
    - destruct Hpost as (-> & Hl & _). split_and!; [done| |by intros Hx; destruct (Hns Hx)].
      apply Hlim. unfold limited in Hl |- *. by rewrite Hn1 in Hl. }
  destruct d as [r| |].
  - apply rwp_ret. split_and!; [apply Hs..|done|by exists new|]. unfold result_ok.
    rewrite decide_False by (by apply not_success_code, Hd). rewrite Eclear. split_and!; auto.
  - apply Hgo; [left; lia| |by intros Hx; destruct (Hsig Hx)].
    intros more _. left. apply Exists_app. right. apply Exists_app. left. by apply Hf.
  - destruct Hd as [_ Hlt]. rewrite Hn1 in Hlt. destruct (decide (rr_numRetries a = 0)) as [E0|Hne0].
    + apply Hgo; [by right|intros; by right; left|by intros Hx; destruct (Hsig Hx)].
    + rewrite u32_id by (unfold in_u; lia). apply Hgo; [lia| |by intros Hx; destruct (Hsig Hx)].
      intros more [Ha|[?|?]]; [by left|by right; left|right; right; lia].
Qed.

(** *** Sequence numbers *)

Definition sent (t : list Event) (b : mem) : Prop := exists sock r, EvSend sock b r ∈ t.

(** What is on the wire is the request, and nothing else. *)
Definition only_request (t : list Event) : Prop :=
  forall b, sent t b -> exists h, of_request h /\ b = wire h.

(** While nobody has reported an indirect error, all requests on the wire that carry a
    sequence number are the message as it is now. *)
Definition same_number (a : RequestResponseArgs) (rs : RetryState) (t : list Event) : Prop :=
  only_request t /\
  (Exists reports_indirect t \/
   wasIndirectCommErr rs = false /\
   forall b, sent t b -> sent_sequence b <> 0 -> b = wire (rr_header a)).

Definition seq_held (rs : RetryState) : option (Z * Z) :=
  match seq_handle rs with
  | Some hd => match seq_group rs with Some g => Some (g, hd) | None => None end
  | None => None
  end.

(** Between two turns of the loop, in a call with arguments [a0]. *)
Record turn_inv (a0 a : RequestResponseArgs) (h : Held) (rs : RetryState) (t : list Event) : Prop := {
  ti_request : of_request (rr_header a);
  ti_options : same_options a0 a;
  ti_node : rr_node a = rr_node a0;
  ti_outs : rr_outRespBuf a = None /\ rr_outRespMsg a = None;
  ti_held : h = mkHeld None None None (seq_held rs);
  ti_group : is_Some (seq_handle rs) -> is_Some (seq_group rs);
  ti_handle : seq_handle rs = None <-> msgSequence (rr_header a) = 0;
  ti_range : in_u 64 (msgSequence (rr_header a));
  ti_flag : msgSequence (rr_header a) <> 0 ->
    Z.lor (msgFlags (rr_header a)) MSGHDRFLAG_HAS_SEQUENCE_NO = msgFlags (rr_header a);
  ti_number : same_number a rs t }.

(** Without a sequence number the header may change. *)
Lemma same_number_unset a a' rs rs' t :
  same_number a rs t -> msgSequence (rr_header a) = 0 -> wasIndirectCommErr rs' = wasIndirectCommErr rs ->
  same_number a' rs' t.
Proof.
  intros [Ho [Hi|[Hw Hs]]] H0 Hrs; (split; [done|]); [by left|]. right. rewrite Hrs. split; [done|]. intros b Hb Hne.
  pose proof Hne as Hne'. destruct Hne. rewrite (Hs b Hb) by done. rewrite wire_sequence; [done|]. unfold in_u. rewrite H0. lia.
Qed.

Lemma header_sequence_self h : header_set_sequence h (msgFlags h) (msgSequence h) (msgSequenceDone h) = h.
Proof. by destruct h. Qed.

Lemma lor_twice x y : Z.lor (Z.lor x y) y = Z.lor x y.
Proof. by rewrite <- Z.lor_assoc, Z.lor_diag. Qed.

Lemma select_ok rrNode rs a0 a h t
    (K : (Z + Z) * RetryState -> RequestResponseArgs -> Held -> list Event -> Prop) :
  turn_inv a0 a h rs t -> (isMirrorGroup (peer rrNode) = true -> mirrorBuddies_ rrNode = true) ->
  (forall x rs' a' h', turn_inv a0 a' h' rs' t -> currentRetryNum rs' = currentRetryNum rs ->
     (forall r, x = inl r -> r ∈ result_codes) -> K (x, rs') a' h' t) ->
  rwp (W := W) (select_node ops rrNode rs) a h t K.
Proof.
  intros HI Hm HK. pose proof HI as [Hr Ho Hn Hb Hh Hg Hhd Hrg Hfl Hnum]. unfold select_node.
  destruct (isMirrorGroup (peer rrNode)); cbn [negb]; [|by apply rwp_ret, HK].
  rewrite (Hm eq_refl). cbn [negb]. apply rwp_bind, rwp_env. intros w1.
  destruct (getTargets_at (fst (mirrorBuddies w1)) (u16 (address (peer rrNode))) (buddies_wf w1)) as [E1 _].
  apply rwp_bind. eapply rwp_lift; [exact E1|].
  match goal with |- context [Z.eqb ?x 0] => generalize x end. intros nodeID.
  destruct (nodeID =? 0); [apply rwp_ret, HK; [done|done|intros r [= <-]; by repeat constructor]|].
  destruct (supportsSequenceNumbers ops); cbn [negb]; [|by apply rwp_ret, HK].
  apply rwp_bind, rwp_upd_args. set (hd := header_set_sequence (rr_header a) _ _ _).
  apply rwp_bind, rwp_args. cbn [rr_header set_header].
  assert (Hr1 : of_request hd) by (by apply (of_request_sequence h0 enc)).
  assert (Hlor : Z.lor (msgFlags hd) MSGHDRFLAG_HAS_SEQUENCE_NO = msgFlags hd) by apply lor_twice.
  destruct (Z.eqb_spec (msgSequence hd) 0) as [H0|Hne]; cbn [negb].
  2: { assert (hd = rr_header a) as -> by (unfold hd; rewrite Hfl by done; apply header_sequence_self).
       replace (set_header a (rr_header a)) with a by (by destruct a). by apply rwp_ret, HK. }
  change (msgSequence hd) with (msgSequence (rr_header a)) in H0.
  assert (Hnone : seq_handle rs = None) by (by apply Hhd).
  assert (Hself : forall g, turn_inv a0 (set_header a hd) h
    (mkRetry (currentRetryNum rs) None g (wasIndirectCommErr rs)) t).
  { intros g. split; try done.
    - rewrite Hh. unfold seq_held. by rewrite Hnone.
    - by intros [].
    - by eapply same_number_unset. }
  apply rwp_bind, rwp_env. intros w2.
  pose proof (seq_number (u16 (address (peer rrNode))) w2) as Hlaw.
  destruct (fst (MirrorBuddyGroupMapper_acquireSequenceNumber _ w2)) as [code g|g|g q hdl].
  - apply rwp_ret, HK; [|done|].
    + rewrite Hnone. destruct g as [g|]; apply Hself.
    + intros r [= <-]. destruct (code =? EINTR); by repeat constructor.
  - by apply rwp_ret, HK.
  - pose proof (Hlaw _ _ _ eq_refl) as Hq. eapply rwp_bind, rwp_upd_held.
    { unfold hold_seq. rewrite Hh. unfold seq_held. rewrite Hnone. cbn. done. }
    apply rwp_bind, rwp_upd_args, rwp_ret, HK; [|done|done]. cbn [rr_header set_header h_conn h_node h_buf].
    split; cbn; try done.
    + by apply (of_request_sequence h0 enc).
    + split; [done|lia].
    + unfold in_u. lia.
    + intros _. change (Z.lor (msgFlags (rr_header a)) MSGHDRFLAG_HAS_SEQUENCE_NO) with (msgFlags hd).
      destruct (aIsSelective q); [|done]. by rewrite <- Z.lor_assoc, (Z.lor_comm MSGHDRFLAG_IS_SELECTIVE_ACK),
        Z.lor_assoc, Hlor.
    + by eapply same_number_unset.
Qed.

(** *** A turn *)

Definition may_sleep (a : RequestResponseArgs) : Prop :=
  Z.land (rr_rrFlags a) REQUESTRESPONSEARGS_FLAG_ALLOWSTATESLEEP <> 0.

Lemma check_ok rrNode id a h t (K : StateCheck -> RequestResponseArgs -> Held -> list Event -> Prop) :
  (forall c, (forall r, c = StateExit r -> r ∈ result_codes) ->
     (c = StateWait -> may_sleep a /\ ~ signalled W) -> K c a h t) ->
  rwp (W := W) (check_state rrNode id) a h t K.
Proof.
  intros HK. unfold check_state.
  assert (Hok : K StateOk a h t) by (by apply HK).
  assert (Hex : forall r, r ∈ result_codes -> K (StateExit r) a h t) by (intros r Hr; apply HK; [by intros ? [= <-]|done]).
  destruct (targetStates_ rrNode); cbn [negb]; [|by apply rwp_ret].
  apply rwp_bind, rwp_env. intros w1. apply rwp_bind, rwp_args.
  destruct (TargetStateStore_getState _ _) as [known state].
  destruct (negb known || _ || _); [|by apply rwp_ret].
  destruct (_ =? TargetReachabilityState_OFFLINE); [apply rwp_ret, Hex; by repeat constructor|].
  destruct (Z.eqb_spec (Z.land (rr_rrFlags a) REQUESTRESPONSEARGS_FLAG_ALLOWSTATESLEEP) 0) as [_|Hs].
  { apply rwp_ret, Hex. by repeat constructor. }
  destruct (mirrorBuddies_ rrNode); [|by apply rwp_ret].
  apply rwp_bind, rwp_env_, rwp_bind, rwp_env. intros w2. apply rwp_ret.
  destruct (fst (fatal_signal_pending w2)) eqn:Es; [apply Hex; by repeat constructor|].
  apply HK; [done|]. intros _. split; [done|]. intros Hsig. by rewrite Hsig in Es.
Qed.

(** The counter of retries stays within its limit. *)
Definition count_ok (a : RequestResponseArgs) (cur : Z) : Prop :=
  0 <= cur <= rr_numRetries a \/ rr_numRetries a = 0.

Definition progress (a : RequestResponseArgs) (cur cur' : Z) (t : list Event) : Prop :=
  Exists asks_again t \/ may_sleep a \/ rr_numRetries a = 0 \/ cur' = cur + 1 /\ cur < rr_numRetries a.

Definition turn_post (a0 : RequestResponseArgs) (cur : Z) (t : list Event) (r : option Z * RetryState)
    (a' : RequestResponseArgs) (h' : Held) (t' : list Event) : Prop :=
  let '(res, rs') := r in
  (exists more, t' = more ++ t) /\
  match res with
  | None => turn_inv a0 a' h' rs' t' /\ ~ signalled W /\ count_ok a0 (currentRetryNum rs') /\
      progress a0 cur (currentRetryNum rs') t'
  | Some res => same_options a0 a' /\ rr_node a' = rr_node a0 /\ same_number a' rs' t' /\
      (is_Some (seq_handle rs') -> is_Some (seq_group rs')) /\
      result_ok res a0 a' (mkHeld None None None (seq_held rs')) h' t'
  end.

Lemma turn_stop a0 a h rs cur t r :
  turn_inv a0 a h rs t -> r ∈ result_codes -> turn_post a0 cur t (Some r, rs) a h t.
Proof.
  intros [Hr Ho Hn [Hb Hm] Hh Hg Hhd Hrg Hfl Hnum] Hc. split; [by exists []|]. split_and!; try done.
  unfold result_ok. rewrite decide_False by (by apply not_success_code). by split_and!.
Qed.

Lemma attempt_sent a t new :
  of_request (rr_header a) -> only_request t -> attempt_events (wire (rr_header a)) new ->
  only_request (new ++ t).
Proof.
  intros Hr Ho Hev b (sock & r & [Hin|Hin]%elem_of_app); [|apply Ho; by exists sock, r].
  destruct Hev as [-> |(dec & s & r' & -> & Hdec)]; [by apply elem_of_nil in Hin|].
  apply elem_of_app in Hin as [Hin|Hin].
  - destruct Hdec as [-> |(? & ? & ? & ->)]; [by apply elem_of_nil in Hin|].
    by apply list_elem_of_singleton in Hin.
  - apply list_elem_of_singleton in Hin. injection Hin as _ -> _. by eexists.
Qed.

(** The requests of an attempt carry the number of the message. *)
Lemma attempt_number a rs t new res ind' a1 h h1 :
  of_request (rr_header a) -> same_number a rs t ->
  comm_post enc a h (wasIndirectCommErr rs) res ind' a1 h1 new ->
  same_number a1 (mkRetry (currentRetryNum rs) (seq_handle rs) (seq_group rs) ind') (new ++ t).
Proof.
  intros Hr [Ho Hs] (Hev & Hi & (_ & _ & _ & _ & _ & Hhd) & _). split; [by eapply attempt_sent|].
  destruct Hs as [Hs|[Hw Hs]]; [left; apply Exists_app; by right|].
  destruct (decide (ind' = true)) as [E|E].
  { destruct (Hi E) as [?|?]; [congruence|]. left. apply Exists_app. by left. }
  right. split; [by destruct ind'|].
  assert (Hwire : wire (rr_header a1) = wire (rr_header a)) by (by destruct Hhd as [-> | ->]).
  intros b (sock & r & Hin) Hne. rewrite Hwire. apply elem_of_app in Hin as [Hin|Hin].
  - destruct Hev as [-> |(dec & s & r' & -> & Hdec)]; [by apply elem_of_nil in Hin|].
    apply elem_of_app in Hin as [Hin|Hin].
    + destruct Hdec as [-> |(? & ? & ? & ->)]; [by apply elem_of_nil in Hin|].
      by apply list_elem_of_singleton in Hin.
    + apply list_elem_of_singleton in Hin. by injection Hin as <- <- <-.
  - apply Hs; [by exists sock, r|done].
Qed.

(** In the middle of a turn a reference to the node may be held. *)
Definition mid (a0 a : RequestResponseArgs) (h : Held) (node : option Z) (rs : RetryState) (t : list Event) : Prop :=
  turn_inv a0 (set_node a (rr_node a0)) (mkHeld None None None (seq_held rs)) rs t /\
  h = mkHeld None node None (seq_held rs).

Lemma renew_ok a0 a h node rs t (K : RetryState -> RequestResponseArgs -> Held -> list Event -> Prop) :
  mid a0 a h node rs t -> (wasIndirectCommErr rs = true -> Exists reports_indirect t) ->
  (forall rs' a' h', mid a0 a' h' node rs' t -> rr_node a' = rr_node a ->
     currentRetryNum rs' = currentRetryNum rs -> K rs' a' h' t) ->
  rwp (W := W) (renew_sequence rs) a h t K.
Proof.
  intros [HI ->] Hind HK. unfold renew_sequence. pose proof HI as [Hr Ho Hn Hb _ Hg Hhd Hrg Hfl Hnum].
  cbn [rr_header rr_outRespBuf rr_outRespMsg set_node] in *.
  destruct (seq_handle rs) as [hd|] eqn:Eh; [|by apply rwp_ret, HK].
  destruct (wasIndirectCommErr rs) eqn:Ew; [|by apply rwp_ret, HK].
  destruct (Hg ltac:(by eexists)) as [g Eg]. apply rwp_bind, (rwp_lift _ g); [by rewrite Eg|].
  apply rwp_bind. unfold release_seq. eapply rwp_bind, rwp_upd_held.
  { unfold drop_seq, seq_held. rewrite Eh, Eg. cbn [h_seq]. by rewrite bool_decide_true. }
  apply rwp_env_. apply rwp_bind, rwp_upd_args, rwp_ret, HK; [|done|done].
  split; [|done]. split; cbn; try done.
  - by apply (of_request_sequence h0 enc).
  - split; [by apply Hnum|left; by apply Hind].
Qed.

Lemma put_node_ok a0 a h b node t (K : unit -> RequestResponseArgs -> Held -> list Event -> Prop) :
  (if b : bool then rr_node a0 = None /\ rr_node a = Some node /\ h_node h = Some node
   else rr_node a = rr_node a0 /\ h_node h = None) ->
  K tt (set_node a (rr_node a0)) (mkHeld (h_conn h) None (h_buf h) (h_seq h)) t ->
  rwp (W := W) (release_node b) a h t K.
Proof.
  intros Hb HK. unfold release_node. destruct b; cbn [negb].
  - destruct Hb as (E0 & Ea & Eh). apply rwp_bind, rwp_args. apply rwp_bind, (rwp_lift _ node); [by rewrite Ea|].
    eapply rwp_bind, rwp_upd_held; [unfold drop_node; by rewrite bool_decide_true|].
    apply rwp_bind, rwp_env_, rwp_upd_args. by rewrite E0 in HK.
  - destruct Hb as [Ea Eh]. apply rwp_ret. rewrite <- Ea in HK. destruct a, h; cbn in *. by rewrite Eh.
Qed.

Lemma count_next a cur :
  count_ok a cur -> 0 <= rr_numRetries a < 2 ^ 32 -> rr_numRetries a = 0 \/ cur < rr_numRetries a ->
  count_ok a (u32 (cur + 1)) /\
  (rr_numRetries a = 0 \/ u32 (cur + 1) = cur + 1 /\ cur < rr_numRetries a).
Proof.
  unfold count_ok. intros Hc Hn Hl. destruct (decide (rr_numRetries a = 0)); [by split; [right|left]|].
  rewrite u32_id by (unfold in_u; lia). lia.
Qed.

(** The second half of a turn: after the attempt. *)
Lemma turn_after a0 a h node b rs res cur t
    (K : option Z * RetryState -> RequestResponseArgs -> Held -> list Event -> Prop) :
  (if b : bool then rr_node a0 = None /\ rr_node a = Some node /\ h_node h = Some node
   else rr_node a = rr_node a0 /\ rr_node a = Some node /\ h_node h = None) ->
  mid a0 a h (h_node h) rs t -> failed res t -> cur = currentRetryNum rs ->
  (wasIndirectCommErr rs = true -> Exists reports_indirect t) ->
  count_ok a0 cur -> 0 <= rr_numRetries a0 < 2 ^ 32 ->
  (forall r a' h', turn_post a0 cur t r a' h' t -> K r a' h' t) ->
  rwp (W := W)
    (d ← after_attempt res (currentRetryNum rs);
     '(res, rs) ←
       (match d with
        | Stop res => mret (Some res, rs)
        | PeerAgain => mret (None, mkRetry 0 (seq_handle rs) (seq_group rs) (wasIndirectCommErr rs))
        | Retry =>
            rs ← renew_sequence (mkRetry (u32 (currentRetryNum rs + 1)) (seq_handle rs) (seq_group rs)
                                   (wasIndirectCommErr rs));
            mret (None, rs)
        end);
     _ ← release_node b;
     mret (res, rs)) a h t K.
Proof.
  intros Hnode Hmid Hf -> Hind Hcount Hlim HK.
  assert (Ea : rr_node a = Some node) by (by destruct b; destruct Hnode as (? & ? & ?)).
  pose proof (not_success_code _ (fail_codes_results _ (proj1 Hf))) as Hne.
  apply rwp_bind, (after_attempt_ok _ _ _ _ _ node); [done|right; apply Hf|].
  intros d (Hd & Hsucc & Hsig).
  assert (Hns : (exists r, d = Stop r) \/ ~ signalled W).
  { destruct d; [left; by eexists|right; intros Hs; by destruct (Hsig Hs)..]. }
  assert (Hrel : forall r rs' a' h', mid a0 a' h' (h_node h) rs' t -> rr_node a' = rr_node a ->
    (forall a1 h1, turn_inv a0 a1 h1 rs' t -> turn_post a0 (currentRetryNum rs) t (r, rs') a1 h1 t) ->
    rwp (W := W) (_ ← release_node b; mret (r, rs')) a' h' t K).
  { intros r rs' a' h' [HI' ->] En HP. apply rwp_bind, (put_node_ok a0 _ _ _ node).
    - rewrite En. cbn [h_node]. destruct b; intuition.
    - apply rwp_ret, HK, HP, HI'. }
  pose proof Hmid as [[_ (_ & Hopt & _) _ _ _ _ _ _ _ _] _]. cbn [rr_numRetries set_node] in Hopt.
  assert (Hcur : forall n, mid a0 a h (h_node h) (mkRetry n (seq_handle rs) (seq_group rs) (wasIndirectCommErr rs)) t).
  { intros n. destruct Hmid as [[] Eh]. split; [|exact Eh]. by split. }
  destruct d as [r| |].
  - apply rwp_bind, rwp_ret. apply Hrel; [exact Hmid|done|]. intros a1 h1 HI. by apply turn_stop; [|apply Hd].
  - destruct Hns as [[? [=]]|Hns]. apply rwp_bind, rwp_ret. apply Hrel; [apply Hcur|done|].
    intros a1 h1 HI. split; [by exists []|]. split_and!; [done|done|unfold count_ok; cbn; lia|].
    left. by apply Hf.
  - destruct Hns as [[? [=]]|Hns]. destruct Hd as [_ Hlt]. rewrite Hopt in Hlt.
    destruct (count_next a0 _ Hcount Hlim Hlt) as [Hcn Hpr].
    apply rwp_bind, rwp_bind. eapply renew_ok; [apply Hcur|done|]. intros rs' a' h' HM En Ec.
    cbn [currentRetryNum] in Ec. apply rwp_ret. apply Hrel; [done|done|].
    intros a1 h1 HI. split; [by exists []|]. rewrite Ec. split_and!; [done|done|done|].
    right; right. destruct Hpr as [?|[-> ?]]; [by left|by right].
Qed.

Lemma turn_post_frame a0 cur t new r a' h' :
  turn_post a0 cur (new ++ t) r a' h' (new ++ t) -> turn_post a0 cur t r a' h' (new ++ t).
Proof. destruct r as [res rs]. intros [_ H]. split; [by exists new|exact H]. Qed.

(** The attempt of a turn, with the node referenced. *)
Lemma turn_attempt a0 a h node b rs cur t :
  (if b : bool then rr_node a0 = None /\ rr_node a = Some node /\ h_node h = Some node
   else rr_node a = rr_node a0 /\ rr_node a = Some node /\ h_node h = None) ->
  mid a0 a h (h_node h) rs t -> cur = currentRetryNum rs ->
  count_ok a0 cur -> 0 <= rr_numRetries a0 < 2 ^ 32 ->
  rwp (W := W)
    ('(commRes, indirect) ← __MessagingTk_requestResponseWithRRArgsComm ops payload (seq_group rs)
                              (wasIndirectCommErr rs);
     let rs := mkRetry (currentRetryNum rs) (seq_handle rs) (seq_group rs) indirect in
     d ← after_attempt commRes (currentRetryNum rs);
     '(res, rs) ←
       (match d with
        | Stop res => mret (Some res, rs)
        | PeerAgain => mret (None, mkRetry 0 (seq_handle rs) (seq_group rs) (wasIndirectCommErr rs))
        | Retry =>
            rs ← renew_sequence (mkRetry (u32 (currentRetryNum rs + 1)) (seq_handle rs) (seq_group rs)
                                   (wasIndirectCommErr rs));
            mret (None, rs)
        end);
     _ ← release_node b;
     mret (res, rs)) a h t (turn_post a0 cur t).
Proof.
  intros Hnode Hmid -> Hcount Hlim. pose proof Hmid as [HI Eh].
  pose proof HI as [Hr Ho Hn [Hb Hm] _ Hg Hhd Hrg Hfl Hnum].
  cbn [rr_header rr_outRespBuf rr_outRespMsg set_node] in *.
  assert (Ea : rr_node a = Some node) by (by destruct b; destruct Hnode as (? & ? & ?)).
  apply rwp_bind, (comm_ok ops h0 payload enc Hsmall node); [done..|by rewrite Eh|by rewrite Eh|].
  intros res ind' a1 h1 new Hpost. pose proof Hpost as (Hev & Hi & Hk & Hend).
  pose proof (attempt_number a rs t new res ind' a1 h h1 Hr Hnum Hpost) as Hnum1.
  pose proof (keeps_same _ _ _ Hk) as Hs. pose proof Hk as (En1 & _ & _ & _ & _ & Eh1).
  set (rs1 := mkRetry (currentRetryNum rs) (seq_handle rs) (seq_group rs) ind') in *.
  cbv zeta. destruct (decide (res = FhgfsOpsErr_SUCCESS)) as [->|Hne].
  - destruct Hend as [Hans ->]. apply rwp_bind, (after_attempt_ok _ _ _ _ _ node); [by rewrite En1|by left|].
    intros d (_ & Hsucc & _). rewrite (Hsucc eq_refl). apply rwp_bind, rwp_ret, rwp_bind.
    apply (put_node_ok a0 _ _ _ node).
    { rewrite En1. cbn [h_node with_buf]. destruct b; intuition. }
    apply rwp_ret. split; [by exists new|]. split_and!; [|done|done|done|].
    { etransitivity; [exact Ho|]. exact Hs. }
    unfold result_ok. rewrite decide_True by done. split; [by apply answered_more|].
    rewrite Eh. destruct Ho as (_ & _ & _ & Ht). cbn [rr_respBufType set_node] in Ht. unfold with_buf. cbn. by rewrite Ht.
  - destruct Hend as (Hf & Eclear & ->).
    apply (turn_after a0 a1 h node b rs1 res (currentRetryNum rs1)); [| |split; [apply Hf|]|done| |done|done|].
    + rewrite En1. exact Hnode.
    + split; [|exact Eh]. rewrite Eclear.
      assert (Hh1 : msgSequence (rr_header a1) = msgSequence (rr_header a) /\
        msgFlags (rr_header a1) = msgFlags (rr_header a)) by (by destruct Eh1 as [-> | ->]).
      destruct Hh1 as [Hq Hfs]. split; cbn; rewrite ?Hq, ?Hfs; try done; [|by etransitivity; [exact Ho|]].
      eapply keeps_of_request; [exact Hk|done].
    + intros E. apply Exists_app. left. by apply Hf.
    + intros E. destruct Hnum1 as [_ [?|[Hfalse _]]]; [done|]. congruence.
    + intros r a' h'. apply turn_post_frame.
Qed.

Lemma node_turn_ok rrNode rs a0 a h t :
  turn_inv a0 a h rs t -> (isMirrorGroup (peer rrNode) = true -> mirrorBuddies_ rrNode = true) ->
  count_ok a0 (currentRetryNum rs) -> 0 <= rr_numRetries a0 < 2 ^ 32 ->
  rwp (W := W) (node_turn ops payload rrNode rs) a h t (turn_post a0 (currentRetryNum rs) t).
Proof.
  intros HI Hm Hcount Hlim. unfold node_turn. apply rwp_bind, (select_ok rrNode rs a0); [done..|].
  intros id rs1 a1 h1 HI1 Ecur Hcode. rewrite <- Ecur in *.
  destruct id as [res|id]; [apply rwp_ret, turn_stop; auto|].
  apply rwp_bind, check_ok. intros c Hc1 Hc2. destruct c as [| |res].
  - apply rwp_bind. unfold reference_node. apply rwp_bind, rwp_args.
    pose proof HI1 as [Hr Ho Hn Hb Hh Hg Hhd Hrg Hfl Hnum].
    destruct (rr_node a1) as [node|] eqn:En1.
    + apply rwp_ret. apply (turn_attempt a0 a1 h1 node false); try done.
      * rewrite Hh, En1. by split_and!.
      * split; [|by rewrite Hh]. replace (set_node a1 (rr_node a0)) with a1 by (rewrite <- Hn; by destruct a1; cbn in *; subst).
        by rewrite <- Hh.
    + apply rwp_bind, rwp_env. intros w. destruct (fst (NodeStoreEx_referenceNode id w)) as [node|].
      2: { apply rwp_ret, rwp_ret, turn_stop; [done|by repeat constructor]. }
      eapply rwp_bind, rwp_upd_held; [unfold hold_node; by rewrite Hh|].
      apply rwp_bind, rwp_upd_args, rwp_ret. rewrite Hh. cbn [h_conn h_node h_buf h_seq].
      by apply (turn_attempt a0 (set_node a1 (Some node)) (mkHeld None (Some node) None (seq_held rs1)) node true).
  - destruct (Hc2 eq_refl) as [Hsl Hns]. apply rwp_ret. split; [by exists []|].
    pose proof HI1 as [? (? & ? & Hfl & ?) ? ? ? ? ? ? ? ?].
    split_and!; [by split|done|unfold count_ok; cbn; lia|]. right; left. unfold may_sleep in *. by rewrite <- Hfl.
  - apply rwp_ret, turn_stop; [done|by apply Hc1].
Qed.

(** ** The whole call *)

Definition node_post (a0 : RequestResponseArgs) (cur : Z) (fuel : nat) (t : list Event) (res : option Z)
    (a' : RequestResponseArgs) (h' : Held) (t' : list Event) : Prop :=
  (exists more, t' = more ++ t) /\ same_options a0 a' /\ rr_node a' = rr_node a0 /\ only_request t' /\
  (Exists reports_indirect t' \/
   forall b b', sent t' b -> sent t' b' -> sent_sequence b <> 0 -> sent_sequence b' <> 0 -> b = b') /\
  match res with
  | Some res => result_ok res a0 a' (mkHeld None None None None) h' t'
  | None => h_conn h' = None /\ h_node h' = None /\ h_buf h' = None /\
      (limited a0 cur fuel t' \/ may_sleep a0) /\ (signalled W -> fuel = 0%nat)
  end.

Lemma same_number_pair a rs t :
  same_number a rs t -> Exists reports_indirect t \/
    forall b b', sent t b -> sent t b' -> sent_sequence b <> 0 -> sent_sequence b' <> 0 -> b = b'.
Proof.
  intros [_ [?|[_ Hs]]]; [by left|right]. intros b b' Hb Hb' Hn Hn'. by rewrite (Hs b Hb Hn), (Hs b' Hb' Hn').
Qed.

Lemma node_exit_ok rs res a0 a h t
    (K : unit -> RequestResponseArgs -> Held -> list Event -> Prop) :
  (is_Some (seq_handle rs) -> is_Some (seq_group rs)) ->
  result_ok res a0 a (mkHeld None None None (seq_held rs)) h t ->
  (forall h', result_ok res a0 a (mkHeld None None None None) h' t -> K tt a h' t) ->
  rwp (W := W) (node_exit rs) a h t K.
Proof.
  intros Hg Hres HK. unfold node_exit.
  destruct (seq_handle rs) as [hd|] eqn:Eh.
  2: { apply rwp_ret, HK. unfold seq_held in Hres. by rewrite Eh in Hres. }
  destruct (Hg ltac:(by eexists)) as [g Eg]. apply rwp_bind, (rwp_lift _ g); [by rewrite Eg|].
  unfold seq_held in Hres. rewrite Eh, Eg in Hres. unfold release_seq.
  apply rwp_bind, (rwp_upd_held _ _ _ (mkHeld (h_conn h) (h_node h) (h_buf h) None)).
  - unfold drop_seq. unfold result_ok in Hres.
    destruct (decide (res = FhgfsOpsErr_SUCCESS)); [destruct Hres as [_ ->]|destruct Hres as (_ & _ & _ & ->)];
      cbn [h_seq with_buf]; by rewrite bool_decide_true.
  - apply rwp_env_, HK. unfold result_ok in *.
    destruct (decide (res = FhgfsOpsErr_SUCCESS)); [destruct Hres as [? ->]|destruct Hres as (? & ? & ? & ->)]; by split_and!.
Qed.

Lemma node_loop_ok fuel rrNode rs a0 a h t :
  turn_inv a0 a h rs t -> (isMirrorGroup (peer rrNode) = true -> mirrorBuddies_ rrNode = true) ->
  count_ok a0 (currentRetryNum rs) -> 0 <= rr_numRetries a0 < 2 ^ 32 ->
  rwp (W := W) (node_loop ops payload fuel rrNode rs) a h t (node_post a0 (currentRetryNum rs) fuel t).
Proof.
  revert rs a h t. induction fuel as [|fuel IH]; intros rs a h t HI Hm Hcount Hlim; cbn [node_loop].
  { pose proof HI as [Hr Ho Hn Hb Hh Hg Hhd Hrg Hfl Hnum]. apply rwp_ret. unfold node_post.
    split_and!; [by exists []|apply Ho..|done|apply Hnum|by eapply same_number_pair|by rewrite Hh|by rewrite Hh|by rewrite Hh| |done].
    left. unfold limited, count_ok in *. lia. }
  eapply rwp_bind, rwp_mono; [by apply (node_turn_ok rrNode rs a0)|].
  intros [res rs1] a1 h1 t1 [(more & ->) Hpost]. destruct res as [res|].
  - destruct Hpost as (Ho & Hn & Hnum & Hg & Hres). apply rwp_bind. eapply node_exit_ok; [done|done|].
    intros h2 H2. apply rwp_ret. split; [by exists more|]. split_and!; [apply Ho..|done|apply Hnum|by eapply same_number_pair|done].
  - destruct Hpost as (HI1 & Hns & Hc1 & Hpr). eapply rwp_mono; [by apply (IH rs1 a1 h1 (more ++ t))|].
    intros r a2 h2 t2 ((more2 & ->) & Ho & Hn & Honly & Hnum & Hres).
    split; [exists (more2 ++ more); by rewrite app_assoc|]. split_and!; [apply Ho..|done|done|done|].
    destruct r as [r|]; [done|]. destruct Hres as (? & ? & ? & Hl & _). split_and!; try done.
    destruct Hl as [Hl|]; [|by right]. destruct Hpr as [Ha|[?|[E0|[Ec Hlt]]]].
    + left; left. apply Exists_app. by right.
    + by right.
    + left; right; by left.
    + left. rewrite Ec in Hl. destruct Hl as [?|[?|?]]; [by left|right; by left|right; right; lia].
Qed.
End Loops.
