(* ===== verification/MessagingTkProps.v ===== *)
(** * Request and response: theorems

    The properties of the calls of [MessagingTk], with a small world in which they are
    evaluated, and three sequences of events in which the handling of sequence
    numbers goes wrong. *)

From stdpp Require Import gmap.
From S2P Require Import Prelude Serialization SerializationLists RBTree EntryInfo NetMessage Messages Responses.
From S2P Require Import TargetStateStore MirrorBuddyGroup MirrorBuddyGroupMapper CommKit CommKitInv CommKitLive.
From S2P Require Import CommKitOps MessagingTk MessagingTkInv.

(** ** Properties *)

(** A call is made with a new request, without a response and with nothing held. *)
Record starting {W} (h0 : NetMessageHeader) (s : RPC W) : Prop := {
  st_header : rr_header (rargs s) = h0;
  st_length : msgLength h0 = 0;
  st_sequence : msgSequence h0 = 0;
  st_outs : rr_outRespBuf (rargs s) = None /\ rr_outRespMsg (rargs s) = None;
  st_held : rheld s = nothing;
  st_trace : rtrace s = [];
  st_retries : 0 <= rr_numRetries (rargs s) < 2 ^ 32 }.

(** The call has a result; if not, the peer has asked to try again, or the message
    factory was given what it cannot decode. *)
Definition settled {W} (r : option (option Z) * RPC W) : Prop :=
  match r with
  | (Some (Some _), _) => True
  | (Some None, s') => Exists asks_again (rtrace s')
  | (None, s') => decode_fault (rtrace s')
  end.

Section Properties.
Context {W : Type} `{!RPCEnv W} `{!RPCEnvLaws W}.
Context {P Q : Type} (ops : NetMessageOps P Q) (h0 : NetMessageHeader) (payload : P) (enc : mem).
Context `{!SeqWrites ops h0 payload enc} (Hsmall : mlen enc + 40 < 2 ^ 32) (Henc : Forall is_byte enc).

Lemma starting_request (s : RPC W) : starting h0 s -> of_request h0 enc (rr_header (rargs s)).
Proof.
  intros [E El _ _ _ _ _]. rewrite E. exists 0, (msgFlags h0), (msgSequence h0), (msgSequenceDone h0).
  split; [|by left]. destruct h0. cbn in *. by subst.
Qed.

Lemma starting_turn (s : RPC W) :
  starting h0 s -> turn_inv h0 enc (rargs s) (rargs s) (rheld s) (mkRetry 0 None None false) (rtrace s).
Proof.
  intros Hs. pose proof (starting_request s Hs) as Hr. destruct Hs as [E El Eq Eo Eh Et _].
  split; try done.
  - by rewrite E, Eq.
  - rewrite E, Eq. by split.
  - rewrite E, Eq. by intros [].
  - split; [|right; split; [done|]]; intros b (? & ? & Hin); rewrite Et in Hin; by apply elem_of_nil in Hin.
Qed.

Lemma node_call fuel rrNode (s : RPC W) :
  starting h0 s -> (isMirrorGroup (peer rrNode) = true -> mirrorBuddies_ rrNode = true) ->
  rwp (W := W) (__MessagingTk_requestResponseNodeRetry ops payload fuel rrNode) (rargs s) (rheld s) (rtrace s)
    (node_post (W := W) h0 enc (rargs s) 0 fuel (rtrace s)).
Proof.
  intros Hs Hm. apply (node_loop_ok ops h0 payload enc Hsmall Henc); [by apply starting_turn|done| |apply Hs].
  left. cbn. destruct (st_retries _ _ Hs). lia.
Qed.

(** C5: a remote call gives everything back and returns what it received.  For
    every behaviour of servers, network, stores and other threads, a call of
    [__MessagingTk_requestResponseNodeRetry] ends in undefined behaviour only if the
    last thing it did was to give the message factory a buffer that the factory
    cannot decode, as one with a string of length [2^32 - 1]; in that case nothing is
    said of what it holds.  With a result, it holds no connection, no node reference and no
    sequence number any more.  If the result is success, it holds the response buffer
    alone, and the message it returns is what that buffer decodes to and of the
    expected type; otherwise it holds nothing, returns neither buffer nor message, and
    the result is one of six error codes. *)
Theorem rpc_gives_back (fuel : nat) (rrNode : RequestResponseNode) (s : RPC W) :
  starting h0 s -> (isMirrorGroup (peer rrNode) = true -> mirrorBuddies_ rrNode = true) ->
  match __MessagingTk_requestResponseNodeRetry ops payload fuel rrNode s with
  | (Some (Some res), s') =>
      result_ok res (rargs s) (rargs s') nothing (rheld s') (rtrace s') /\
      rr_node (rargs s') = rr_node (rargs s)
  | (Some None, s') => h_conn (rheld s') = None /\ h_node (rheld s') = None /\ h_buf (rheld s') = None
  | (None, s') => decode_fault (rtrace s')
  end.
Proof.
  intros Hs Hm. pose proof (node_call fuel rrNode s Hs Hm s eq_refl eq_refl eq_refl) as H.
  destruct (__MessagingTk_requestResponseNodeRetry _ _ _ _ s) as [[[res|]|] s']; [|by split_and!; apply H|done].
  destruct H as (_ & _ & ? & _ & _ & ?). by split.
Qed.

(** C7: retries come to an end.  A call for one node with [numRetries = n > 0] makes
    at most [n + 1] attempts, [MessagingTk_requestResponseNode] at most two, unless a
    peer answers that it shall try again; and while a fatal signal is pending, every
    call ends with its first attempt, whatever the retry settings are. *)
Theorem rpc_ends (fuel : nat) (rrNode : RequestResponseNode) (s : RPC W) (node : Z) :
  starting h0 s -> (isMirrorGroup (peer rrNode) = true -> mirrorBuddies_ rrNode = true) ->
  (rr_node (rargs s) = Some node -> rr_numRetries (rargs s) <> 0 ->
   rr_numRetries (rargs s) < Z.of_nat fuel ->
   settled (MessagingTk_requestResponseWithRRArgs ops payload fuel s)) /\
  ((2 <= fuel)%nat -> settled (MessagingTk_requestResponseNode ops payload fuel rrNode s)) /\
  (signalled W -> (1 <= fuel)%nat ->
   forall s', __MessagingTk_requestResponseNodeRetry ops payload fuel rrNode s <> (Some None, s')).
Proof.
  intros Hs Hm. pose proof (st_retries _ _ Hs) as Hn. pose proof (st_held _ _ Hs) as Eh. split_and!.
  - intros En Hne Hf. unfold MessagingTk_requestResponseWithRRArgs.
    pose proof (rr_loop_ok ops h0 payload enc Hsmall Henc fuel 0 false (rargs s) (rheld s) (rtrace s) node
      (starting_request s Hs) En ltac:(by rewrite Eh) ltac:(by rewrite Eh) Hn ltac:(lia) s eq_refl eq_refl eq_refl) as H.
    destruct (rr_loop _ _ _ _ _ s) as [[[res|]|] s']; [done| |done].
    destruct H as (_ & _ & _ & _ & [Ha|[?|?]] & _); [exact Ha|lia|lia].
  - intros Hf. unfold MessagingTk_requestResponseNode, mbind, R_bind, upd_args. cbn.
    set (s1 := mkRPC _ _ _ _).
    assert (Hs1 : starting h0 s1) by (destruct Hs; by split).
    pose proof (node_call fuel rrNode s1 Hs1 Hm s1 eq_refl eq_refl eq_refl) as H.
    destruct (__MessagingTk_requestResponseNodeRetry _ _ _ _ s1) as [[[res|]|] s']; [done| |done].
    destruct H as (_ & _ & _ & _ & _ & _ & _ & _ & [[Ha|[E|E]]|E] & _); [exact Ha| | |].
    + discriminate E.
    + cbn [rargs s1 rr_numRetries set_mode] in E. cbn. lia.
    + by destruct E.
  - intros Hsig Hf s' E. pose proof (node_call fuel rrNode s Hs Hm s eq_refl eq_refl eq_refl) as H.
    rewrite E in H. destruct H as (_ & _ & _ & _ & _ & _ & _ & _ & _ & H0). specialize (H0 Hsig). lia.
Qed.

(** C6: a request is repeated under its number.  Unless a server reports an
    indirect communication error, all copies of a request that a call puts on the
    wire with a sequence number are the same bytes: the same number, acknowledgement
    and flags in every attempt, whatever happens in between -- so a server that has
    processed the request already can recognise it. *)
Theorem rpc_same_number (fuel : nat) (rrNode : RequestResponseNode) (s : RPC W) :
  starting h0 s -> (isMirrorGroup (peer rrNode) = true -> mirrorBuddies_ rrNode = true) ->
  let t' := rtrace (snd (__MessagingTk_requestResponseNodeRetry ops payload fuel rrNode s)) in
  fst (__MessagingTk_requestResponseNodeRetry ops payload fuel rrNode s) <> None ->
  ~ Exists reports_indirect t' ->
  forall b b', sent t' b -> sent t' b' -> sent_sequence b <> 0 -> sent_sequence b' <> 0 -> b = b'.
Proof.
  intros Hs Hm t'. pose proof (node_call fuel rrNode s Hs Hm s eq_refl eq_refl eq_refl) as H.
  unfold t'. destruct (__MessagingTk_requestResponseNodeRetry _ _ _ _ s) as [[res|] s']; [|done].
  intros _ Hi. destruct H as (_ & _ & _ & _ & [?|Hp] & _); [done|exact Hp].
Qed.
End Properties.

(** ** A small world

    Group 5 has primary target 11, which is online and good.  A request is answered
    with the next of [answers] ([None]: it cannot be sent; an empty message: the
    connection breaks before the answer); sequence numbers are taken from [numbers],
    with the acknowledgement and whether it is selective. *)

Module SmallRPC.
Record World := mkW { answers : list (option mem); inbox : mem; numbers : list (Z * Z * bool) }.

Definition comm (signal : bool) : CommEnv World := {|
  fatal_signal_pending w := (signal, w);
  Node_getIsActive _ w := (true, w);
  mempool_alloc _ w := (Some Small.buffer, w);
  storageBuddyGroups w := (MirrorBuddyGroupMapper_init ∅, w);
  targetStates w := (Small.target_store, w);
  NodeStoreEx_referenceNodeByTargetID _ w := (inr 7, w);
  Node_put _ w := w;
  NodeConnPool_acquireStreamSocketEx _ _ w := (Some 9, w);
  NodeConnPool_releaseStreamSocket _ _ w := w;
  NodeConnPool_invalidateStreamSocket _ _ w := w;
  CommKit.Socket_send _ bytes w :=
    match answers w with
    | Some a :: rest => (mlen bytes, mkW rest a (numbers w))
    | None :: rest => (-1, mkW rest [] (numbers w))
    | [] => (-1, w)
    end;
  Socket_recvT _ n w :=
    match inbox w with
    | [] => (inl (-1), w)
    | bytes => (inr (u8 <$> take (Z.to_nat n) bytes), mkW (answers w) (drop (Z.to_nat n) bytes) (numbers w))
    end;
  SocketTk_poll socks _ w := ((1, socks), w);
  App_getConnRetriesEnabled w := (true, w);
  Thread_sleep _ w := w |}.

Lemma comm_laws signal : CommEnvLaws (CommEnv0 := comm signal) World.
Proof.
  split; cbn -[Small.buffer]; try done.
  - intros _ _ b [= <-]. apply Small.buffer_ok.
  - intros _ n w b. destruct (inbox w) as [|x l]; [done|]. intros [= <-].
    split; [unfold mlen; rewrite length_fmap, length_take; lia|].
    apply Forall_fmap, Forall_true; intros y; apply u8_byte.
  - intros _ n w e. destruct (inbox w); [by intros [= <-]|done].
  - intros _ b w Hb. destruct (answers w) as [|[a|] r]; cbn; lia.
  - intros _. apply mapper_init_wf.
Qed.

Definition group_store : TargetStateStore :=
  mkStore (Node Leaf (mkTSI 11 (mkCTS TargetReachabilityState_ONLINE TargetConsistencyState_GOOD)) Leaf).

Definition env (signal : bool) : RPCEnv World := {|
  rpc_comm := comm signal;
  mirrorBuddies w := (mapper_ex, w);
  nodeStates w := (group_store, w);
  NodeStoreEx_referenceNode _ w := (Some 7, w);
  NoAllocBufferStore_getBufSize w := (4096, w);
  NoAllocBufferStore_waitForBuf w := (Small.buffer, w);
  NoAllocBufferStore_addBuf _ w := w;
  os_kmalloc n w := (if n =? 4096 then Some Small.buffer else None, w);
  kfree _ w := w;
  decode_choices w := (mkDecode 0 (mkRaw 0 0 0) (fun _ => true) (fun _ => true) (NetMessage_init 0 0), w);
  MirrorBuddyGroupMapper_acquireSequenceNumber _ w :=
    match numbers w with
    | [] => (SeqUnset 1, w)
    | (n, done, selective) :: rest =>
        (SeqNumber 1 (mkAcq (1 + u32 n) done selective) 3, mkW (answers w) (inbox w) rest)
    end;
  MirrorBuddyGroup_releaseSequenceNumber _ _ w := w;
  MirrorBuddyGroup_setSeqNoBase _ _ w := w |}.

Lemma rpc_world_laws signal : RPCEnvLaws (RPCEnv0 := env signal) World.
Proof.
  split.
  - exact (comm_laws signal).
  - intros w. exact mapper_ex_wf.
  - intros w w'. split; [split; [apply Small.buffer_ok|by vm_compute]|by vm_compute].
  - intros n w b. cbn -[Small.buffer]. destruct (Z.eqb_spec n 4096) as [->|]; [|done]. intros [= <-].
    split; [split; [apply Small.buffer_ok|by vm_compute]|by vm_compute].
  - intros i w code g. cbn. by destruct (numbers w) as [|[[? ?] ?] ?].
  - intros i w g a hd. cbn. destruct (numbers w) as [|[[n d] b] rest]; [done|]. intros [= <- <- <-]. cbn.
    pose proof (u32_range n) as []. lia.
Qed.

Definition entry : EntryInfo mem := mkEI (mkOwner 1 false) [48] [49] [97] 2 0.
Definition request : Request := RefreshEntryInfoMsg entry.
Definition header : NetMessageHeader := NetMessage_init 0 NETMSGTYPE_RefreshEntryInfo.
Definition enc : mem := enc_entryinfo entry.

Lemma request_writes : SeqWrites (request_ops request) header request enc.
Proof.
  intros f q d len. apply writes_entryinfo. unfold entryinfo_wf, in_u, in_s. vm_compute.
  intuition (congruence || discriminate).
Qed.
Lemma enc_bytes : Forall is_byte enc.
Proof. apply (bool_decide_unpack _). by vm_compute. Qed.

(** Success, and the report of an indirect error. *)
Definition good : mem := enc_header 44 (NetMessage_init 0 NETMSGTYPE_RefreshEntryInfoResp) ++ le_split 4 0.
Definition indirect : mem := enc_header 40 (NetMessage_init 0 NETMSGTYPE_AckNotifyResp).

Definition group : RequestResponseNode := mkRRN (RRPeer_group 5) true true.
Definition start (retries : Z) (answers : list (option mem)) (numbers : list (Z * Z * bool)) : RPC World :=
  mkRPC (mkW answers [] numbers)
    (set_mode (RequestResponseArgs_prepare None header NETMSGTYPE_RefreshEntryInfoResp) retries 0
       MessagingTkBufType_BufStore) nothing [].

Lemma start_ok retries a n : 0 <= retries < 2 ^ 32 -> starting header (start retries a n).
Proof. by split. Qed.

Definition call (signal : bool) (fuel : nat) (s : RPC World) : option (option Z) * RPC World :=
  __MessagingTk_requestResponseNodeRetry (RPCEnv0 := env signal) (request_ops request) request fuel group s.
End SmallRPC.

(** Connection lost, then an answer: two attempts with the same number. *)
Example small_rpc :
  let r := SmallRPC.call false 5 (SmallRPC.start 3 [Some []; Some SmallRPC.good] [(4, 2, true); (7, 0, false)]) in
  (fst r, (fun e => match e with EvSend _ b _ => sent_sequence b | _ => -1 end) <$> rtrace (snd r),
   h_buf (rheld (snd r))) = (Some (Some FhgfsOpsErr_SUCCESS), [-1; 5; 5], Some MessagingTkBufType_BufStore).
Proof. by vm_compute. Qed.

(** After an indirect error the request is sent with a new number, and still marked as
    having a selective acknowledgement ([MSGHDRFLAG_IS_SELECTIVE_ACK] is set, never
    cleared), although the new one is not: the peer then forgets the answer with number
    0 instead of all answers up to it. *)
Example stale_selective_flag :
  let r := SmallRPC.call false 5
    (SmallRPC.start 3 [Some SmallRPC.indirect; Some SmallRPC.good] [(4, 2, true); (7, 0, false)]) in
  (fst r, (fun e => match e with
                    | EvSend _ b _ => [word b 24 8; word b 32 8; Z.land (word b 7 1) MSGHDRFLAG_IS_SELECTIVE_ACK]
                    | _ => []
                    end) <$> rtrace (snd r)) =
  (Some (Some FhgfsOpsErr_SUCCESS),
   [[]; [8; 0; MSGHDRFLAG_IS_SELECTIVE_ACK]; []; [5; 2; MSGHDRFLAG_IS_SELECTIVE_ACK]]).
Proof. vm_compute. reflexivity. Qed.

(** ** The group of an answer with a new base *)

(** A call without a sequence number (the base is not known yet) keeps the address of
    the buddy group, to store the base that the answer brings. *)

Lemma put_groups_frees h l n g H :
  nodes_ok h l -> n ∈ l -> h !! gnPtr n = Some (g, H) -> refs g = 1 ->
  exists h', put_groups h l = Done h' /\ h' !! gnPtr n = None.
Proof.
  revert h. induction l as [|m l IH]; intros h Hok Hn Eg Hr; [by apply elem_of_nil in Hn|].
  destruct (put_groups_frame [m] h) as (h1 & E1 & Hfr & _).
  { destruct Hok as [Hf _]. apply Forall_cons in Hf as [Hm _]. split; [by constructor|apply NoDup_singleton]. }
  cbn [put_groups] in E1. cbn [put_groups].
  destruct (put_group h (gnPtr m)) as [h2|] eqn:E2; cbn [mbind outcome_bind] in E1 |- *; [|done].
  injection E1 as ->. destruct Hok as [Hf Hd]. apply Forall_cons in Hf as [_ Hf].
  cbn [fmap list_fmap] in Hd. apply NoDup_cons in Hd as [Hm Hd].
  assert (Hl : nodes_ok h1 l).
  { split; [|done]. rewrite Forall_forall in Hf |- *. intros x Hx. destruct (Hf x Hx) as (g' & H' & E & R).
    exists g', H'. rewrite Hfr; [done|]. cbn [fmap list_fmap]. intros Ex%list_elem_of_singleton.
    apply Hm. rewrite <- Ex. by apply list_elem_of_fmap_2. }
  destruct (decide (gnPtr n = gnPtr m)) as [En|Hne].
  - unfold put_group, load in E2. rewrite <- En, Eg in E2. cbn [of_option mbind outcome_bind] in E2.
    unfold MirrorBuddyGroup_put in E2. rewrite Hr in E2. cbn in E2. injection E2 as <-.
    destruct (put_groups_frame l _ Hl) as (h' & -> & Hfr' & _). exists h'. split; [done|].
    rewrite Hfr' by (by rewrite En). apply lookup_delete_eq.
  - apply elem_of_cons in Hn as [->|Hn]; [done|]. apply (IH h1 Hl Hn); [|done].
    rewrite Hfr; [done|]. cbn. by intros ?%list_elem_of_singleton.
Qed.

Lemma acquire_unset (st : MapperState) (id handle : Z) (n : GroupNode) g H :
  mapper_wf st -> rb_map gnGroupID (mirrorBuddyGroups st) !! id = Some n ->
  heap st !! gnPtr n = Some (g, H) -> sequence g = 0 -> slotsAvail g <> 0%nat -> refs g = 1 ->
  exists g' H', acquire_nowait st id handle =
      Done (AcqReturned 0 None (Some (gnPtr n)),
            mkMS (mirrorBuddyGroups st) (<[gnPtr n := (g', H')]> (heap st))) /\
    groupID g' = groupID g /\ refs g' = 1.
Proof.
  intros [Hs _] En Eg Hq Hsl Hr. unfold acquire_nowait. rewrite (rb_find_map gnGroupID) by done.
  rewrite En. unfold load. rewrite Eg. cbn [of_option mbind outcome_bind].
  unfold MirrorBuddyGroup_acquireSequenceNumber. destruct (slotsAvail g) as [|k]; [done|].
  cbn [sequence kref_get set_slots slotsAvail]. rewrite Hq. cbn [Z.eqb].
  unfold MirrorBuddyGroup_put. cbn [refs kref_get set_slots]. rewrite Hr. cbn.
  eexists _, _. split; [reflexivity|]. by split.
Qed.

(** Storing a new base uses a group without a reference.  If no base is known for
    a buddy group, [MirrorBuddyGroupMapper_acquireSequenceNumber] succeeds without a
    number and hands out the address of the group, but keeps no reference to it.  When
    the groups are synced with a list without that group before the answer arrives, the
    group is freed -- and [__MessagingTk_handleGenericResponse] then stores the base
    from the answer through that address. *)
Theorem seqno_base_use_after_free (K : KernelRBTree GroupNode gnGroupID) (cfg : Z)
    (alloc : nat -> bool * bool) (st : MapperState) (id handle : Z) (g : MirrorBuddyGroup) (H : gmap Z nat) :
  mapper_wf st -> group_at st id = Some (g, H) ->
  sequence g = 0 -> slotsAvail g <> 0%nat -> refs g = 1 ->
  exists p st1 st2,
    acquire_nowait st id handle = Done (AcqReturned 0 None (Some p), st1) /\
    MirrorBuddyGroupMapper_syncGroups cfg alloc st1 [] = Done st2 /\
    is_Some (heap st1 !! p) /\ load (heap st2) p = Fault.
Proof.
  intros Hw Ea Hq Hsl Hr. pose proof (group_at_wf st id Hw) as Hg.
  destruct (rb_map gnGroupID (mirrorBuddyGroups st) !! id) as [n|] eqn:En; [|by rewrite Ea in Hg].
  destruct Hg as (g1 & H1 & Eg & Ea' & Hk & Hid). rewrite Ea in Ea'. injection Ea' as <- <-.
  destruct (acquire_unset st id handle n g H Hw En Eg Hq Hsl Hr) as (g' & H' & E & Hg' & Hr').
  set (h := <[gnPtr n := (g', H')]> (heap st)) in *.
  destruct Hw as [Hs Hok]. apply rb_map_lookup in En as [Hn _]; [|done].
  assert (Hok' : nodes_ok h (rb_postorder (mirrorBuddyGroups st))).
  { eapply nodes_ok_perm; [symmetry; apply rb_postorder_elems|]. destruct Hok as [Hf Hd]. split; [|done].
    rewrite Forall_forall in Hf |- *. intros x Hx. destruct (decide (gnPtr x = gnPtr n)) as [Ex|Hne].
    - destruct (Hf x Hx) as (gx & Hx' & Exg & Hxid & _). rewrite Ex, Eg in Exg. injection Exg as <- <-.
      exists g', H'. unfold h. rewrite Ex, lookup_insert_eq. split_and!; [done|congruence|lia].
    - apply node_ok_ne; [by apply Hf|done]. }
  destruct (put_groups_frees h _ n g' H' Hok') as (h2 & E2 & Hfree);
    [by rewrite rb_postorder_elems|apply lookup_insert_eq|done|].
  exists (gnPtr n), (mkMS (mirrorBuddyGroups st) h), (mkMS Leaf h2). split_and!; [done| | |].
  - unfold MirrorBuddyGroupMapper_syncGroups, __MirrorBuddyGroupMapper_syncGroupsUnlocked,
      _MirrorBuddyGroupMapper_clear. cbn [sync_groups_loop mbind outcome_bind heap mirrorBuddyGroups].
    by rewrite E2.
  - cbn [heap]. unfold h. rewrite lookup_insert_eq. by eexists.
  - cbn [heap]. unfold load. by rewrite Hfree.
Qed.

Lemma seqno_base_use_after_free_witness :
  let K := chain_kernel GroupNode gnGroupID in
  exists st1 st2,
    acquire_nowait mapper_ex 5 1 = Done (AcqReturned 0 None (Some 0), st1) /\
    MirrorBuddyGroupMapper_syncGroups 8 (fun _ => (true, true)) st1 [] = Done st2 /\
    load (heap st2) 0 = Fault.
Proof.
  intros K. destruct (seqno_base_use_after_free K 8 (fun _ => (true, true)) mapper_ex 5 1
    (mkMBG 5 11 12 0 8 [] 0 8 [] 0 0 1) ∅ mapper_ex_wf ltac:(by vm_compute) ltac:(done) ltac:(done)
    ltac:(done)) as (p & st1 & st2 & E1 & E2 & _ & E3).
  assert (p = 0) as -> by (vm_compute in E1; congruence).
  by exists st1, st2.
Defined.

(** ** Witnesses *)

(** The request cannot be sent, and a signal is pending. *)
Example small_interrupted :
  fst (SmallRPC.call true 1 (SmallRPC.start 3 [None] [(4, 2, true)])) = Some (Some FhgfsOpsErr_INTERRUPTED).
Proof. by vm_compute. Qed.

Lemma rpc_gives_back_witness :
  let s := SmallRPC.start 3 [None] [(4, 2, true)] in
  match SmallRPC.call true 1 s with
  | (Some (Some res), s') => res = FhgfsOpsErr_INTERRUPTED /\ rheld s' = nothing /\ rr_outRespBuf (rargs s') = None
  | _ => False
  end.
Proof.
  intros s.
  pose proof (rpc_gives_back (RPCEnv0 := SmallRPC.env true) (RPCEnvLaws0 := SmallRPC.rpc_world_laws true)
    (request_ops SmallRPC.request) SmallRPC.header SmallRPC.request SmallRPC.enc
    (SeqWrites0 := SmallRPC.request_writes) ltac:(by vm_compute) SmallRPC.enc_bytes 1 SmallRPC.group s
    (SmallRPC.start_ok 3 _ _ ltac:(lia)) ltac:(done)) as Hg.
  pose proof small_interrupted as E. fold s in E. unfold SmallRPC.call in *.
  destruct (__MessagingTk_requestResponseNodeRetry _ _ _ _ s) as [[[res|]|] s']; [|done..].
  injection E as ->. destruct Hg as [(_ & Hr & _ & Hh) _]. by split_and!.
Defined.

Lemma rpc_ends_witness :
  let s := SmallRPC.start 3 [Some []; Some SmallRPC.good] [(4, 2, true)] in
  settled (MessagingTk_requestResponseNode (RPCEnv0 := SmallRPC.env false) (request_ops SmallRPC.request)
             SmallRPC.request 2 SmallRPC.group s) /\
  fst (MessagingTk_requestResponseNode (RPCEnv0 := SmallRPC.env false) (request_ops SmallRPC.request)
         SmallRPC.request 2 SmallRPC.group s) = Some (Some FhgfsOpsErr_SUCCESS).
Proof.
  intros s. split; [|by vm_compute].
  destruct (rpc_ends (RPCEnv0 := SmallRPC.env false) (RPCEnvLaws0 := SmallRPC.rpc_world_laws false)
    (request_ops SmallRPC.request) SmallRPC.header SmallRPC.request SmallRPC.enc
    (SeqWrites0 := SmallRPC.request_writes) ltac:(by vm_compute) SmallRPC.enc_bytes 2 SmallRPC.group s 7
    (SmallRPC.start_ok 3 _ _ ltac:(lia)) ltac:(done)) as (_ & H & _).
  exact (H (le_n 2)).
Defined.

(** The trace of [small_rpc]: no indirect error is reported, the number is sent twice. *)
Definition indirectb (ev : Event) : bool :=
  match ev with
  | EvDecode b n d =>
      match decode b n d with
      | Done (q, h) =>
          (msgType h =? NETMSGTYPE_AckNotifyResp) ||
          (msgType h =? NETMSGTYPE_GenericResponse) &&
          match q with
          | Some (SimpleIntStringMsg code _) => code =? GenericRespMsgCode_INDIRECTCOMMERR
          | _ => false
          end
      | Fault => false
      end
  | EvSend _ _ _ => false
  end.

Lemma indirectb_exists t : existsb indirectb t = false -> ~ Exists reports_indirect t.
Proof.
  intros E Hi. apply not_true_iff_false in E. apply E, existsb_exists.
  apply List.Exists_exists in Hi as (ev & Hin & q & h & Hr & Hc). exists ev. split; [done|].
  destruct ev as [|b n d]; [done|]. cbn in Hr. cbn. rewrite Hr.
  destruct Hc as [-> | [-> (s & ->)]]; [done|]. by rewrite Z.eqb_refl, orb_true_r.
Qed.

Definition sends (t : list Event) : list mem :=
  omap (fun e => match e with EvSend _ b _ => Some b | EvDecode _ _ _ => None end) t.

Lemma sends_sent t b : b ∈ sends t -> sent t b.
Proof. intros ([sock b' r|] & Hin & [= <-])%list_elem_of_omap. by exists sock, r. Qed.

Definition small_start : RPC SmallRPC.World :=
  SmallRPC.start 3 [Some []; Some SmallRPC.good] [(4, 2, true); (7, 0, false)].
Definition small_trace : list Event := rtrace (snd (SmallRPC.call false 5 small_start)).

Example small_sends : sent_sequence <$> sends small_trace = [5; 5].
Proof. by vm_compute. Qed.

Example small_direct : existsb indirectb small_trace = false.
Proof. by vm_compute. Qed.

Example small_result : fst (SmallRPC.call false 5 small_start) = Some (Some FhgfsOpsErr_SUCCESS).
Proof. by vm_compute. Qed.

Lemma rpc_same_number_witness :
  exists b b', sends small_trace = [b; b'] /\ sent_sequence b = 5 /\ b = b'.
Proof.
  pose proof (rpc_same_number (RPCEnv0 := SmallRPC.env false) (RPCEnvLaws0 := SmallRPC.rpc_world_laws false)
    (request_ops SmallRPC.request) SmallRPC.header SmallRPC.request SmallRPC.enc
    (SeqWrites0 := SmallRPC.request_writes) ltac:(by vm_compute) SmallRPC.enc_bytes 5 SmallRPC.group
    small_start (SmallRPC.start_ok 3 _ _ ltac:(lia)) ltac:(done)) as Hs. cbv zeta in Hs.
  change (__MessagingTk_requestResponseNodeRetry _ _ _ _ _) with (SmallRPC.call false 5 small_start) in Hs.
  change (rtrace _) with small_trace in Hs.
  rewrite small_result in Hs. specialize (Hs ltac:(done) (indirectb_exists _ small_direct)).
  pose proof small_sends as E. pose proof (sends_sent small_trace) as H.
  destruct (sends small_trace) as [|b [|b' [|]]]; [discriminate E..| |discriminate E].
  injection E as Eb Eb'. exists b, b'. split_and!; [done..|].
  apply Hs; [apply H; set_solver..|by rewrite Eb|by rewrite Eb'].
Defined.
