(* ===== verification/StorageErrors.v ===== *)
(** * Error codes

    [common/storage/StorageErrors.h/.c]: the codes the modelled functions do not return
    themselves (the others are in [Prelude]), and the table of names and system errors. *)

From Stdlib Require Import String.
From S2P Require Import Prelude.

(** ** Codes, and system errors *)

Definition FhgfsOpsErr_COMMTIMEDOUT : Z := 4.
Definition FhgfsOpsErr_NOTOWNER : Z := 6.
Definition FhgfsOpsErr_PATHNOTEXISTS : Z := 8.
Definition FhgfsOpsErr_DYNAMICATTRIBSOUTDATED : Z := 10.
Definition FhgfsOpsErr_PARENTTOSUBDIR : Z := 11.
Definition FhgfsOpsErr_NOTADIR : Z := 12.
Definition FhgfsOpsErr_NOTEMPTY : Z := 13.
Definition FhgfsOpsErr_NOSPACE : Z := 14.
Definition FhgfsOpsErr_INODENOTINLINED : Z := 17.
Definition FhgfsOpsErr_SAVEERROR : Z := 18.
Definition FhgfsOpsErr_TOOBIG : Z := 19.
Definition FhgfsOpsErr_STORAGE_SRV_CRASHED : Z := 23.
Definition FhgfsOpsErr_PERM : Z := 24.
Definition FhgfsOpsErr_DQUOT : Z := 25.
Definition FhgfsOpsErr_RANGE : Z := 27.
Definition FhgfsOpsErr_NODATA : Z := 28.
Definition FhgfsOpsErr_NOTSUPP : Z := 29.
Definition FhgfsOpsErr_TOOLONG : Z := 30.

(** The system errors are those of Linux. *)
Definition __FHGFSOPS_ERRLIST : list (string * Z) := [
  ("Success"%string, 0);
  ("Internal error"%string, 121);
  ("Interrupted system call"%string, 4);
  ("Communication error"%string, 70);
  ("Communication timeout"%string, 110);
  ("Unknown node"%string, 121);
  ("Node is not owner of entry"%string, 121);
  ("Entry exists already"%string, 17);
  ("Path does not exist"%string, 2);
  ("Entry is in use"%string, 16);
  ("Dynamic attributes of entry are outdated"%string, 121);
  ("Removed"%string, 999);
  ("Entry is not a directory"%string, 20);
  ("Directory is not empty"%string, 39);
  ("No space left"%string, 28);
  ("Unknown storage target"%string, 121);
  ("Operation would block"%string, 11);
  ("Inode not inlined"%string, 121);
  ("Underlying file system error"%string, 121);
  ("Argument too large"%string, 27);
  ("Invalid argument"%string, 22);
  ("Bad memory address"%string, 14);
  ("Try again"%string, 11);
  ("Potential cache loss for open file handle. (Server crash detected.)"%string, 121);
  ("Permission denied"%string, 1);
  ("Quota exceeded"%string, 122);
  ("Out of memory"%string, 12);
  ("Numerical result out of range"%string, 34);
  ("No data available"%string, 61);
  ("Operation not supported"%string, 95);
  ("Argument list too long"%string, 7)].

Definition EPERM : Z := 1.

(** The code is compared as [size_t], so a negative one is out of range. *)
Definition errlist_entry (errCode : Z) : option (string * Z) :=
  let unsignedErrCode := u64 errCode in
  if unsignedErrCode <? Z.of_nat (length __FHGFSOPS_ERRLIST)
  then __FHGFSOPS_ERRLIST !! Z.to_nat unsignedErrCode else None.

Definition FhgfsOpsErr_toErrString (errCode : Z) : string :=
  match errlist_entry errCode with Some (s, _) => s | None => "Unknown error code"%string end.

Definition FhgfsOpsErr_toSysErr (errCode : Z) : Z :=
  match errlist_entry errCode with Some (_, e) => - e | None => - EPERM end.

(** ** Properties *)

(** Every code becomes a system error.  For every 32 bit result, also one that is
    no [FhgfsOpsErr] at all (results are taken from messages as they are), the system
    error is 0 exactly for success and negative otherwise, above -1000; so a result of
    the file system is never taken for a count. *)
Theorem toSysErr_negative (errCode : Z) :
  in_s 32 errCode ->
  -1000 < FhgfsOpsErr_toSysErr errCode <= 0 /\
  (FhgfsOpsErr_toSysErr errCode = 0 <-> errCode = FhgfsOpsErr_SUCCESS).
Proof.
  intros Hr. unfold FhgfsOpsErr_toSysErr, errlist_entry, FhgfsOpsErr_SUCCESS, EPERM.
  destruct (Z.ltb_spec (u64 errCode) (Z.of_nat (length __FHGFSOPS_ERRLIST))) as [Hl|Hl].
  - assert (He : 0 <= errCode < 31).
    { change (Z.of_nat (length __FHGFSOPS_ERRLIST)) with 31 in Hl. unfold in_s in Hr.
      destruct (decide (0 <= errCode)) as [|Hn]; [unfold u64 in Hl; rewrite wrap_id in Hl by (unfold in_u; lia); lia|].
      unfold u64, wrap in Hl. replace errCode with (errCode + 2 ^ 64 + (-1) * 2 ^ 64) in Hl by lia.
      rewrite Z.mod_add, Z.mod_small in Hl by lia. lia. }
    unfold u64. rewrite wrap_id by (unfold in_u; lia).
    assert (Hc : Forall (fun i => -1000 < match __FHGFSOPS_ERRLIST !! i with Some (_, e) => - e | None => - 1 end <= 0 /\
      (match __FHGFSOPS_ERRLIST !! i with Some (_, e) => - e | None => - 1 end = 0 <-> i = 0%nat)) (seq 0 31)).
    { repeat (constructor; [cbn; lia|]). constructor. }
    rewrite Forall_forall in Hc. specialize (Hc (Z.to_nat errCode)). rewrite elem_of_seq in Hc.
    destruct (Hc ltac:(lia)) as [H1 H2]. split; [exact H1|]. rewrite H2. lia.
  - split; [lia|]. split; [lia|]. intros ->. change (Z.of_nat (length __FHGFSOPS_ERRLIST)) with 31 in Hl.
    change (u64 0) with 0 in Hl. lia.
Qed.

Lemma toSysErr_negative_witness : -1000 < FhgfsOpsErr_toSysErr (-7) <= 0 /\ FhgfsOpsErr_toSysErr (-7) = - EPERM.
Proof. split; [|by vm_compute]. apply (toSysErr_negative (-7)). unfold in_s. lia. Defined.
