(* ===== verification/Remoting.v ===== *)
(** * Metadata calls

    The calls of [net/filesystem/FhgfsOpsRemoting.c/.h] to metadata servers, each a
    request and its answer over [MessagingTk], with what they fill in:
    [common/storage/StatData.h], [filesystem/FsDirInfo.h], [common/toolkit/MetadataTk.h]
    and [LookupIntentInfoOut.h], [net/filesystem/RemotingIOInfo.h], and the calls with
    a later retry of [filesystem/FhgfsOpsHelper.h].

    Every call has its own arguments on the stack and gives back what it took
    ([frame]); out parameters are part of its result.  Copies of strings are assumed to
    be allocated; log messages are left out.  The result [None] of a call: it still
    goes on. *)

From stdpp Require Import gmap.
From S2P Require Import Prelude Serialization SerializationLists Vectors StripePattern BitStore EntryInfo.
From S2P Require Import NetMessage Messages Responses StorageErrors CommKit CommKitOps MessagingTk.

(** ** Message types and flags *)

Definition NETMSGTYPE_Stat : Z := 2015.
Definition NETMSGTYPE_ListDirFromOffset : Z := 2029.
Definition NETMSGTYPE_ListXAttr : Z := 2101.
Definition NETMSGTYPE_GetXAttr : Z := 2103.
Definition NETMSGTYPE_RemoveXAttr : Z := 2105.
Definition NETMSGTYPE_SetXAttr : Z := 2107.
Definition NETMSGTYPE_FLockEntry : Z := 3025.
Definition NETMSGTYPE_FLockRange : Z := 3027.
Definition NETMSGTYPE_FLockAppend : Z := 3029.
Definition NETMSGTYPE_GetFileVersion : Z := 3035.

Definition OPENFILEMSG_FLAG_USE_QUOTA : Z := 1.
Definition CLOSEFILEMSG_FLAG_EARLYRESPONSE : Z := 1.
Definition CLOSEFILEMSG_FLAG_CANCELAPPENDLOCKS : Z := 2.
Definition TRUNCFILEMSG_FLAG_USE_QUOTA : Z := 1.
Definition SETATTRMSG_FLAG_USE_QUOTA : Z := 1.
Definition SETATTR_CHANGE_USERID : Z := 2.
Definition SETATTR_CHANGE_GROUPID : Z := 4.
Definition LOOKUPINTENTMSG_FLAG_CREATEEXCLUSIVE : Z := 4.
Definition LOOKUPINTENTMSG_FLAG_STAT : Z := 16.
Definition LOOKUPINTENTMSG_FLAG_USE_QUOTA : Z := 1.
Definition ENTRYLOCKTYPE_NOWAIT : Z := 8.
Definition ENTRYLOCKTYPE_CANCEL : Z := 16.
Definition META_ROOTDIR_ID_STR : mem := [114; 111; 111; 116].
Definition __FHGFSOPS_REMOTING_MAX_XATTR_NAME_SIZE : Z := 245.
Definition __FHGFSOPS_REMOTING_MAX_XATTR_VALUE_SIZE : Z := 60000.

(** ** Data *)

(** The settings and the identity of the client. *)
Record App := mkApp {
  connNumCommRetries : Z; quotaEnabled : bool; tuneEarlyCloseResponse : bool;
  currentUserID : Z; localNodeNumID : Z; localNodeID : mem }.

(** Times are in seconds. *)
Record fhgfs_stat := mkOsStat {
  os_mode : Z; os_nlink : Z; os_uid : Z; os_gid : Z; os_size : Z; os_blocks : Z;
  os_atime : Z; os_mtime : Z; os_ctime : Z }.

(** [umode_t] has 16 bits, [loff_t] and [time_t] 64. *)
Definition StatData_getOsStat (this : StatData) : fhgfs_stat :=
  let a := st_settableFileAttribs this in
  mkOsStat (u16 (sa_mode a)) (st_nlink this) (sa_userID a) (sa_groupID a) (st_fileSize this)
    (st_numBlocks this) (sa_lastAccessTimeSecs a) (sa_modificationTimeSecs a) (st_attribChangeTimeSecs this).

Record FsDirInfo := mkDir {
  dirContents : list mem; dirContentsTypes : Vec; entryIDs : list mem; serverOffsets : list Z;
  dir_serverOffset : Z; currentContentsPos : Z; endOfDir : bool }.

Record CreateInfo := mkCreate {
  ci_entryName : mem; ci_userID : Z; ci_groupID : Z; ci_mode : Z; ci_umask : Z;
  ci_preferredMetaTargets : list Z; ci_preferredStorageTargets : list Z; ci_isExclusiveCreate : bool;
  ci_storagePoolId : Z; ci_fileEvent : option FileEvent }.

(** [in_openInfo]: the access flags. *)
Record LookupIntentInfoIn := mkLookupIn {
  in_parentEntryInfo : EntryInfo mem; in_entryInfoPtr : option (EntryInfo mem); in_entryName : mem;
  in_createInfo : option CreateInfo; in_isExclusiveCreate : bool; in_openInfo : option Z }.

Definition LookupIntentInfoIn_init (parentEntryInfo : EntryInfo mem) (entryName : mem)
    (uninit : bool) : LookupIntentInfoIn :=
  mkLookupIn parentEntryInfo None entryName None uninit None.
Definition LookupIntentInfoIn_addEntryInfo (this : LookupIntentInfoIn) (e : EntryInfo mem)
    : LookupIntentInfoIn :=
  mkLookupIn (in_parentEntryInfo this) (Some e) (in_entryName this) (in_createInfo this)
    (in_isExclusiveCreate this) (in_openInfo this).
Definition LookupIntentInfoIn_addOpenInfo (this : LookupIntentInfoIn) (accessFlags : Z)
    : LookupIntentInfoIn :=
  mkLookupIn (in_parentEntryInfo this) (in_entryInfoPtr this) (in_entryName this) (in_createInfo this)
    (in_isExclusiveCreate this) (Some accessFlags).
Definition LookupIntentInfoIn_addCreateInfo (this : LookupIntentInfoIn) (createInfo : option CreateInfo)
    : LookupIntentInfoIn :=
  mkLookupIn (in_parentEntryInfo this) (in_entryInfoPtr this) (in_entryName this) createInfo
    (match createInfo with Some c => ci_isExclusiveCreate c | None => in_isExclusiveCreate this end)
    (in_openInfo this).

(** An allocated string; a freed one may not be read or freed again. *)
Inductive KString := KNull | KAlloc (s : mem) | KFreed (s : mem).

Definition kstring (s : KString) : outcome mem :=
  match s with KAlloc s => Done s | _ => Fault end.
Definition kfree_string (s : KString) : outcome KString :=
  match s with KNull => Done KNull | KAlloc s => Done (KFreed s) | KFreed _ => Fault end.
(** [SAFE_KFREE]: frees what is not NULL, and sets it to NULL. *)
Definition safe_kfree (s : KString) : outcome KString :=
  match s with KNull => Done KNull | _ => _ ← kfree_string s; Done KNull end.

(** What the out structs hold after a lookup; [None]: not written. *)
Record LookupIntentInfoOut := mkLookupOut {
  lo_responseFlags : Z; lo_lookupRes : Z; lo_statRes : Z; lo_createRes : Z; lo_revalidateRes : Z;
  lo_openRes : Z; lo_fhgfsStat : option fhgfs_stat; lo_entryInfo : option (EntryInfo mem);
  lo_revalidateUpdatedFlags : option Z; lo_fileHandleID : option (Z * KString);
  lo_pathInfo : option (PathInfo mem); lo_stripePattern : option StripePattern }.

Definition LookupIntentInfoOut_prepare : LookupIntentInfoOut :=
  mkLookupOut 0 FhgfsOpsErr_INTERNAL FhgfsOpsErr_INTERNAL FhgfsOpsErr_INTERNAL FhgfsOpsErr_INTERNAL
    FhgfsOpsErr_INTERNAL None None None None None None.

(** Pointers are [None] when NULL; [needsAppendLockCleanup]: set, and pointing to true. *)
Record RemotingIOInfo := mkIOInfo {
  fileHandleID : KString; pattern : option StripePattern; pathInfo : option (PathInfo mem);
  accessFlags : Z; needsAppendLockCleanup : bool; maxUsedTargetIndex : option Z;
  firstWriteDone : option BitStore; io_userID : Z; io_groupID : Z }.

Definition RemotingIOInfo_initOpen (accessFlags : Z) (maxUsedTargetIndex : option Z)
    (pathInfo : option (PathInfo mem)) : RemotingIOInfo :=
  mkIOInfo KNull None pathInfo accessFlags false maxUsedTargetIndex None 0 0.
Definition RemotingIOInfo_initSpecialClose (fileHandleID : KString) (maxUsedTargetIndex : option Z)
    (accessFlags : Z) : RemotingIOInfo :=
  mkIOInfo fileHandleID None None accessFlags false maxUsedTargetIndex None 0 0.

Definition set_fileHandleID (i : RemotingIOInfo) (v : KString) : RemotingIOInfo :=
  mkIOInfo v (pattern i) (pathInfo i) (accessFlags i) (needsAppendLockCleanup i) (maxUsedTargetIndex i)
    (firstWriteDone i) (io_userID i) (io_groupID i).
Definition set_pattern (i : RemotingIOInfo) (v : option StripePattern) : RemotingIOInfo :=
  mkIOInfo (fileHandleID i) v (pathInfo i) (accessFlags i) (needsAppendLockCleanup i) (maxUsedTargetIndex i)
    (firstWriteDone i) (io_userID i) (io_groupID i).
Definition set_pathInfo (i : RemotingIOInfo) (v : option (PathInfo mem)) : RemotingIOInfo :=
  mkIOInfo (fileHandleID i) (pattern i) v (accessFlags i) (needsAppendLockCleanup i) (maxUsedTargetIndex i)
    (firstWriteDone i) (io_userID i) (io_groupID i).

(** The strings of the path info are freed, the record stays. *)
Definition RemotingIOInfo_freeVals (i : RemotingIOInfo) : outcome RemotingIOInfo :=
  id ← safe_kfree (fileHandleID i);
  Done (set_fileHandleID (set_pattern i None) id).

(** ** Copies out of a message *)

Definition copy_entryinfo (m : mem) (e : EntryInfo Z) : outcome (EntryInfo mem) :=
  parent ← cstring m (ei_parentEntryID e);
  id ← cstring m (ei_entryID e);
  name ← cstring m (ei_fileName e);
  Done (mkEI (ei_owner e) parent id name (ei_entryType e) (ei_featureFlags e)).

Definition copy_pathinfo (m : mem) (i : PathInfo Z) : outcome (PathInfo mem) :=
  match pi_origParentEntryID i with
  | Some p => s ← cstring m p; Done (mkPI (pi_flags i) (pi_origParentUID i) (Some s))
  | None => Done (mkPI (pi_flags i) (pi_origParentUID i) None)
  end.

(** At most [max] characters. *)
Fixpoint kstrndup (m : mem) (p : Z) (max : nat) : outcome mem :=
  match max with
  | O => Done []
  | S max =>
      b ← read8 m p;
      if b =? 0 then Done [] else s ← kstrndup m (p + 1) max; Done (b :: s)
  end.

Definition rrpeer_from_entryinfo (e : EntryInfo mem) : RRPeer :=
  if EntryInfo_getIsBuddyMirrored e then RRPeer_group (owner_group (ei_owner e))
  else RRPeer_target (owner_group (ei_owner e)).

(** [StatMsg_initFromEntryInfo] and its like, without optional parts. *)
Definition init_plain (app : App) (type : Z) : NetMessageHeader := NetMessage_init (currentUserID app) type.
Definition flag_if (b : bool) (flag : Z) (h : NetMessageHeader) : NetMessageHeader :=
  if b then NetMessage_addMsgHeaderFeatureFlag h flag else h.

(** ** The surroundings *)

Class RemotingEnv (W : Type) := {
  remoting_rpc : RPCEnv W;
  NodeStoreEx_referenceRootNode : W -> option (Z * NodeOrGroup) * W;
  InternodeSyncer_delayedCloseAdd : EntryInfo mem -> RemotingIOInfo -> option FileEvent -> W -> W;
  InternodeSyncer_delayedEntryUnlockAdd : EntryInfo mem -> RemotingIOInfo -> Z -> W -> W;
  InternodeSyncer_delayedRangeUnlockAdd : EntryInfo mem -> RemotingIOInfo -> Z -> W -> W;
  AcknowledgmentStore_registerWaitAcks : mem -> W -> W;
  AcknowledgmentStore_waitForAckCompletion : mem -> Z -> W -> bool * W;
  AcknowledgmentStore_unregisterWaitAcks : mem -> W -> W;
  receivedAcks_length : mem -> W -> Z * W;
  signal_pending : W -> bool * W;
  RWLock_readLock : Z -> W -> W;
  RWLock_readUnlock : Z -> W -> W;
  App_lockAckCounter_incAndRead : W -> Z * W;
  kasprintf_ok : W -> bool * W;
  uninit_featureFlags : W -> Z * W }.
#[export] Existing Instance remoting_rpc.

Section Calls.
Context {W : Type} `{!RemotingEnv W} (app : App).

(** A call with arguments of its own.  With a result, it must have given back what
    it took. *)
Definition frame {A} (m : R W (option A)) : R W (option A) := fun s =>
  let '(r, s') := m (mkRPC (rworld s) (rargs s) nothing []) in
  (match r with
   | Some (Some a) => if is_nothing (rheld s') then Some (Some a) else None
   | _ => r
   end, mkRPC (rworld s') (rargs s) (rheld s) (rtrace s' ++ rtrace s)).

(** Sends the request of header [h], and lets [handle] work on the answer before its
    buffer is given back: its result, or the error code of the request. *)
Definition remote_call {A} (fuel : nat) (peer : RRPeer) (h : NetMessageHeader) (r : Request)
    (respMsgType : Z) (allowRetries : bool) (handle : mem -> Received -> R W (option (Z * A)))
    : R W (option (Z * option A)) :=
  frame (
    _ ← upd_args (fun _ => RequestResponseArgs_prepare None h respMsgType);
    requestRes ← (if allowRetries
      then MessagingTk_requestResponseNodeRetryAutoIntr (request_ops r) r (connNumCommRetries app) fuel
             (mkRRN peer true true)
      else MessagingTk_requestResponseNode (request_ops r) r fuel (mkRRN peer true true));
    match requestRes with
    | None => mret None
    | Some requestRes =>
        if negb (requestRes =? FhgfsOpsErr_SUCCESS) then mret (Some (requestRes, None)) else
        args ← get_args;
        buf ← lift (of_option (rr_outRespBuf args));
        msg ← lift (of_option (rr_outRespMsg args));
        resp ← lift (of_option (fst msg));
        res ← handle buf resp;
        match res with
        | None => mret None
        | Some (retVal, a) =>
            _ ← RequestResponseArgs_freeRespBuffers;
            mret (Some (retVal, Some a))
        end
    end).

(** An answer that is one number.  A struct of another message is not one. *)
Definition value_result (_ : mem) (resp : Received) : R W (option (Z * unit)) :=
  match resp with SimpleIntMsg value => mret (Some (value, tt)) | _ => lift Fault end.

Definition simple_call (fuel : nat) (peer : RRPeer) (h : NetMessageHeader) (r : Request)
    (respMsgType : Z) (allowRetries : bool) : R W (option Z) :=
  res ← remote_call fuel peer h r respMsgType allowRetries value_result;
  mret (fst <$> res).

Definition done {A} (retVal : Z) (a : A) : R W (option (Z * A)) := mret (Some (retVal, a)).


Section Fuel.
Context (fuel : nat).

(** ** Directories and attributes *)

Definition FhgfsOpsRemoting_listdirFromOffset (entryInfo : EntryInfo mem) (dirInfo : FsDirInfo)
    (maxOutNames : Z) : R W (option (Z * option FsDirInfo)) :=
  remote_call fuel (rrpeer_from_entryinfo entryInfo) (init_plain app NETMSGTYPE_ListDirFromOffset)
    (ListDirFromOffsetMsg (dir_serverOffset dirInfo) maxOutNames entryInfo false)
    NETMSGTYPE_ListDirFromOffsetResp true
    (fun buf resp =>
      match resp with
      | ListDirFromOffsetRespMsg newServerOffset result offsets types ids names =>
          if negb (result =? FhgfsOpsErr_SUCCESS) then done result dirInfo else
          '(_, types) ← lift (Serialization_deserializeUInt8Vec buf types
                                (UInt8Vec_clear (dirContentsTypes dirInfo)));
          '(_, names) ← lift (Serialization_deserializeStrCpyVec buf names []);
          '(_, ids) ← lift (Serialization_deserializeStrCpyVec buf ids []);
          '(_, offsets) ← lift (Serialization_deserializeInt64CpyVec buf offsets []);
          let numTypes := UInt8Vec_length types in
          if negb (numTypes =? Z.of_nat (length names)) || negb (numTypes =? Z.of_nat (length ids)) ||
             negb (numTypes =? Z.of_nat (length offsets))
          then
            done FhgfsOpsErr_OUTOFMEM
              (mkDir [] (UInt8Vec_clear types) [] [] (dir_serverOffset dirInfo) 0 (endOfDir dirInfo))
          else
            done result
              (mkDir names types ids offsets newServerOffset 0 (Z.of_nat (length names) <? maxOutNames))
      | _ => lift Fault
      end).

(** [parentInfo]: the caller is interested in the parent. *)
Definition FhgfsOpsRemoting_statAndGetParentInfo (entryInfo : EntryInfo mem) (parentInfo : bool)
    : R W (option (Z * option (option (fhgfs_stat * option (Z * option mem))))) :=
  remote_call fuel (rrpeer_from_entryinfo entryInfo)
    (flag_if parentInfo STATMSG_FLAG_GET_PARENTINFO (init_plain app NETMSGTYPE_Stat)) (StatMsg entryInfo)
    NETMSGTYPE_StatResp true
    (fun buf resp =>
      match resp with
      | StatRespMsg result statData parent =>
          if negb (result =? FhgfsOpsErr_SUCCESS) then done result None else
          let stat := StatData_getOsStat statData in
          if parentInfo then
            match parent with
            | Some (parentEntryID, parentNodeID) =>
                id ← lift (cstring buf parentEntryID);
                done result (Some (stat, Some (parentNodeID, Some id)))
            | None => done result (Some (stat, Some (0, None)))
            end
          else done result (Some (stat, None))
      | _ => lift Fault
      end).

Definition FhgfsOpsRemoting_statDirect (entryInfo : EntryInfo mem)
    : R W (option (Z * option (option (fhgfs_stat * option (Z * option mem))))) :=
  FhgfsOpsRemoting_statAndGetParentInfo entryInfo false.

Definition FhgfsOpsRemoting_statRoot
    : R W (option (Z * option (option (fhgfs_stat * option (Z * option mem))))) :=
  node ← env NodeStoreEx_referenceRootNode;
  match node with
  | None => mret (Some (FhgfsOpsErr_UNKNOWNNODE, None))
  | Some (node, rootID) =>
      _ ← upd_held (hold_node node);
      let entryInfo := EntryInfo_init rootID [] META_ROOTDIR_ID_STR [] DirEntryType_DIRECTORY 0 in
      res ← FhgfsOpsRemoting_statDirect entryInfo;
      match res with
      | None => mret None
      | Some res =>
          _ ← upd_held (drop_node node);
          _ ← env_ (Node_put node);
          mret (Some res)
      end
  end.

Definition FhgfsOpsRemoting_setAttr (entryInfo : EntryInfo mem) (fhgfsAttr : SettableFileAttribs)
    (validAttribs : Z) (event : option FileEvent) : R W (option Z) :=
  let h := SetAttrMsg_initFromEntryInfo (currentUserID app) event in
  let h := flag_if (negb (Z.land validAttribs (Z.lor SETATTR_CHANGE_USERID SETATTR_CHANGE_GROUPID) =? 0) &&
                    quotaEnabled app) SETATTRMSG_FLAG_USE_QUOTA h in
  simple_call fuel (rrpeer_from_entryinfo entryInfo) h (SetAttrMsg validAttribs fhgfsAttr entryInfo event)
    NETMSGTYPE_SetAttrResp true.

(** ** Making, removing and renaming *)

(** The new entry, if the server made it. *)
Definition created (buf : mem) (result : Z) (entryInfo : option (EntryInfo Z))
    : R W (option (Z * option (EntryInfo mem))) :=
  if negb (result =? FhgfsOpsErr_SUCCESS) then done result None else
  e ← lift (of_option entryInfo);
  e ← lift (copy_entryinfo buf e);
  done result (Some e).

Definition FhgfsOpsRemoting_mkdir (parentInfo : EntryInfo mem) (c : CreateInfo)
    : R W (option (Z * option (option (EntryInfo mem)))) :=
  remote_call fuel (rrpeer_from_entryinfo parentInfo)
    (MkDirMsg_initFromEntryInfo (currentUserID app) (ci_fileEvent c))
    (MkDirMsg (ci_userID c) (ci_groupID c) (ci_mode c) (ci_umask c) parentInfo (ci_entryName c)
       (ci_preferredMetaTargets c) (ci_fileEvent c))
    NETMSGTYPE_MkDirResp true
    (fun buf resp =>
      match resp with MkDirRespMsg result e => created buf result e | _ => lift Fault end).

Definition FhgfsOpsRemoting_rmdir (parentInfo : EntryInfo mem) (entryName : mem)
    (event : option FileEvent) : R W (option Z) :=
  simple_call fuel (rrpeer_from_entryinfo parentInfo) (RmDirMsg_initFromEntryInfo (currentUserID app) event)
    (RmDirMsg parentInfo entryName event) NETMSGTYPE_RmDirResp true.

(** [out]: the caller wants the new entry. *)
Definition FhgfsOpsRemoting_mkfileWithStripeHints (parentInfo : EntryInfo mem) (c : CreateInfo)
    (numtargets chunksize : Z) (out : bool) : R W (option (Z * option (option (EntryInfo mem)))) :=
  let h := MkFileMsg_initFromEntryInfo (currentUserID app) (ci_storagePoolId c) (ci_fileEvent c) in
  let h := flag_if (negb (numtargets =? 0) || negb (chunksize =? 0)) MKFILEMSG_FLAG_STRIPEHINTS h in
  remote_call fuel (rrpeer_from_entryinfo parentInfo) h
    (MkFileMsg (ci_userID c) (ci_groupID c) (ci_mode c) (ci_umask c) numtargets chunksize
       (ci_storagePoolId c) parentInfo (ci_entryName c) (ci_preferredStorageTargets c) (ci_fileEvent c))
    NETMSGTYPE_MkFileResp true
    (fun buf resp =>
      match resp with
      | MkFileRespMsg result e => if out then created buf result e else done result None
      | _ => lift Fault
      end).

Definition FhgfsOpsRemoting_mkfile (parentInfo : EntryInfo mem) (c : CreateInfo) (out : bool)
    : R W (option (Z * option (option (EntryInfo mem)))) :=
  FhgfsOpsRemoting_mkfileWithStripeHints parentInfo c 0 0 out.

Definition FhgfsOpsRemoting_unlinkfile (parentInfo : EntryInfo mem) (entryName : mem)
    (event : option FileEvent) : R W (option Z) :=
  simple_call fuel (rrpeer_from_entryinfo parentInfo)
    (UnlinkFileMsg_initFromEntryInfo (currentUserID app) event)
    (UnlinkFileMsg parentInfo entryName event) NETMSGTYPE_UnlinkFileResp true.

Definition FhgfsOpsRemoting_rename (oldName : mem) (entryType : Z) (fromDirInfo : EntryInfo mem)
    (newName : mem) (toDirInfo : EntryInfo mem) (event : option FileEvent) : R W (option Z) :=
  simple_call fuel (rrpeer_from_entryinfo fromDirInfo)
    (RenameMsg_initFromEntryInfo (currentUserID app) event)
    (RenameMsg entryType fromDirInfo toDirInfo oldName newName event) NETMSGTYPE_RenameResp true.

Definition FhgfsOpsRemoting_hardlink (fromName : mem) (fromInfo fromDirInfo : EntryInfo mem)
    (toName : mem) (toDirInfo : EntryInfo mem) (event : option FileEvent) : R W (option Z) :=
  simple_call fuel (rrpeer_from_entryinfo fromDirInfo)
    (HardlinkMsg_initFromEntryInfo (currentUserID app) event)
    (HardlinkMsg fromInfo toDirInfo toName fromDirInfo fromName event) NETMSGTYPE_HardlinkResp true.

Definition FhgfsOpsRemoting_truncfile (entryInfo : EntryInfo mem) (size : Z) (event : option FileEvent)
    : R W (option Z) :=
  simple_call fuel (rrpeer_from_entryinfo entryInfo)
    (flag_if (quotaEnabled app) TRUNCFILEMSG_FLAG_USE_QUOTA
       (TruncFileMsg_initFromEntryInfo (currentUserID app) event))
    (TruncFileMsg size entryInfo event) NETMSGTYPE_TruncFileResp true.

Definition FhgfsOpsRemoting_refreshEntry (entryInfo : EntryInfo mem) : R W (option Z) :=
  simple_call fuel (rrpeer_from_entryinfo entryInfo) (init_plain app NETMSGTYPE_RefreshEntryInfo)
    (RefreshEntryInfoMsg entryInfo) NETMSGTYPE_RefreshEntryInfoResp true.

Definition FhgfsOpsRemoting_bumpFileVersion (entryInfo : EntryInfo mem) (persistent : bool)
    (event : option FileEvent) : R W (option Z) :=
  simple_call fuel (rrpeer_from_entryinfo entryInfo)
    (BumpFileVersionMsg_init (currentUserID app) persistent event)
    (BumpFileVersionMsg entryInfo event) NETMSGTYPE_BumpFileVersionResp true.

(** The version is set whatever the result is. *)
Definition FhgfsOpsRemoting_getFileVersion (entryInfo : EntryInfo mem) : R W (option (Z * option Z)) :=
  remote_call fuel (rrpeer_from_entryinfo entryInfo) (init_plain app NETMSGTYPE_GetFileVersion)
    (GetFileVersionMsg entryInfo) NETMSGTYPE_GetFileVersionResp true
    (fun _ resp =>
      match resp with GetFileVersionRespMsg result version => done result version | _ => lift Fault end).

(** ** Opening and closing *)

Definition FhgfsOpsRemoting_closefileEx (entryInfo : EntryInfo mem) (ioInfo : RemotingIOInfo)
    (allowRetries : bool) (event : option FileEvent) : R W (option Z) :=
  maxUsedTargetIndex ← lift (of_option (maxUsedTargetIndex ioInfo));
  id ← lift (kstring (fileHandleID ioInfo));
  let h := CloseFileMsg_initFromSession (currentUserID app) event in
  let h := flag_if (tuneEarlyCloseResponse app) CLOSEFILEMSG_FLAG_EARLYRESPONSE h in
  let h := flag_if (needsAppendLockCleanup ioInfo) CLOSEFILEMSG_FLAG_CANCELAPPENDLOCKS h in
  simple_call fuel (rrpeer_from_entryinfo entryInfo) h
    (CloseFileMsg (localNodeNumID app) id entryInfo maxUsedTargetIndex event)
    NETMSGTYPE_CloseFileResp allowRetries.

Definition FhgfsOpsRemoting_closefile (entryInfo : EntryInfo mem) (ioInfo : RemotingIOInfo)
    (event : option FileEvent) : R W (option Z) :=
  FhgfsOpsRemoting_closefileEx entryInfo ioInfo true event.

(** Whether the syncer shall try again later. *)
Definition later (res : Z) : bool :=
  (res =? FhgfsOpsErr_COMMUNICATION) || (res =? FhgfsOpsErr_INTERRUPTED).

Definition FhgfsOpsHelper_closefileWithAsyncRetry (entryInfo : EntryInfo mem) (ioInfo : RemotingIOInfo)
    (event : option FileEvent) : R W (option Z) :=
  closeRes ← FhgfsOpsRemoting_closefile entryInfo ioInfo event;
  match closeRes with
  | None => mret None
  | Some closeRes =>
      _ ← (if later closeRes then env_ (InternodeSyncer_delayedCloseAdd entryInfo ioInfo event)
           else mret tt);
      mret (Some closeRes)
  end.

(** The results: [ioInfo] and the version, if the caller wants it. *)
Definition store_opened (entryInfo : EntryInfo mem) (ioInfo : RemotingIOInfo) (outVersion : bool)
    (buf : mem) (result : Z) (handleID : Z * Z) (info : PathInfo Z) (pat : Z * Z) (version : Z)
    : R W (option (Z * (RemotingIOInfo * option Z))) :=
  id ← lift (cstring buf (snd handleID));
  let ioInfo := set_fileHandleID ioInfo (KAlloc id) in
  opened ←
    (match pattern ioInfo with
     | Some _ => mret (Some (result, ioInfo))
     | None =>
         p ← lift (StripePattern_createFromBuf buf (fst pat) (snd pat));
         if StripePattern_getPatternType p =? STRIPEPATTERN_Invalid then
           closeRes ← FhgfsOpsHelper_closefileWithAsyncRetry entryInfo ioInfo None;
           match closeRes with
           | None => mret None
           | Some _ =>
               freed ← lift (kfree_string (fileHandleID ioInfo));
               mret (Some (FhgfsOpsErr_INTERNAL, set_fileHandleID ioInfo freed))
           end
         else mret (Some (result, set_pattern ioInfo (Some p)))
     end);
  match opened with
  | None => mret None
  | Some (retVal, ioInfo) =>
      new ← lift (copy_pathinfo buf info);
      old ← lift (of_option (pathInfo ioInfo));
      done retVal (set_pathInfo ioInfo (Some (PathInfo_update old new)),
                   if outVersion then Some version else None)
  end.

Definition FhgfsOpsRemoting_openfile (entryInfo : EntryInfo mem) (ioInfo : RemotingIOInfo)
    (outVersion : bool) (event : option FileEvent) : R W (option (Z * (RemotingIOInfo * option Z))) :=
  let h := OpenFileMsg_initFromSession (currentUserID app) event in
  let h := flag_if (quotaEnabled app) OPENFILEMSG_FLAG_USE_QUOTA h in
  res ← remote_call fuel (rrpeer_from_entryinfo entryInfo) h
    (OpenFileMsg (localNodeNumID app) (accessFlags ioInfo) entryInfo event) NETMSGTYPE_OpenFileResp true
    (fun buf resp =>
      match resp with
      | OpenFileRespMsg result handleID info pat version =>
          if negb (result =? FhgfsOpsErr_SUCCESS) then done result (ioInfo, None)
          else store_opened entryInfo ioInfo outVersion buf result handleID info pat version
      | _ => lift Fault
      end);
  mret ((fun '(r, o) => (r, default (ioInfo, None) o)) <$> res).

(** ** Locks *)

(** [eiRLock]: the lock to be left while waiting. *)
Definition __FhgfsOpsRemoting_flockGenericEx (h : NetMessageHeader) (r : Request) (respMsgType : Z)
    (owner : NodeOrGroup) (isBuddyMirrored : bool) (lockTypeFlags : Z) (lockAckID : mem)
    (allowRetries : bool) (eiRLock : option Z) : R W (option Z) :=
  let resendIntervalMS := 5000 in
  let peer := if isBuddyMirrored then RRPeer_group (owner_group owner)
              else RRPeer_target (owner_group owner) in
  _ ← env_ (AcknowledgmentStore_registerWaitAcks lockAckID);
  res ← remote_call fuel peer h r respMsgType allowRetries value_result;
  match res with
  | None => mret None
  | Some (res, answered) =>
      retVal ←
        (if bool_decide (is_Some answered) && (res =? FhgfsOpsErr_WOULDBLOCK) &&
            (Z.land lockTypeFlags ENTRYLOCKTYPE_NOWAIT =? 0) then
           _ ← (match eiRLock with Some l => env_ (RWLock_readUnlock l) | None => mret tt end);
           waitRes ← env (AcknowledgmentStore_waitForAckCompletion lockAckID resendIntervalMS);
           _ ← (match eiRLock with Some l => env_ (RWLock_readLock l) | None => mret tt end);
           if waitRes : bool then mret FhgfsOpsErr_SUCCESS else
           pending ← env signal_pending;
           mret (if pending : bool then FhgfsOpsErr_INTERRUPTED else res)
         else mret res);
      _ ← env_ (AcknowledgmentStore_unregisterWaitAcks lockAckID);
      received ← (if retVal =? FhgfsOpsErr_INTERRUPTED then env (receivedAcks_length lockAckID) else mret 0);
      mret (Some (if negb (received =? 0) then FhgfsOpsErr_SUCCESS else retVal))
  end.

(** [do ... while] the lock is not granted, and the caller waits for it. *)
Fixpoint flock_loop (turns : nat) (attempt : R W (option Z)) (lockTypeFlags : Z) : R W (option Z) :=
  match turns with
  | O => mret None
  | S turns =>
      res ← attempt;
      match res with
      | None => mret None
      | Some lockRes =>
          if (lockRes =? FhgfsOpsErr_WOULDBLOCK) && (Z.land lockTypeFlags ENTRYLOCKTYPE_NOWAIT =? 0)
          then flock_loop turns attempt lockTypeFlags else mret (Some lockRes)
      end
  end.

(** [%X]: upper case hexadecimal digits, without leading zeros. *)
Definition hex_digit (d : Z) : Z := if d <? 10 then 48 + d else 55 + d.
Fixpoint hex_digits (n : nat) (v : Z) : mem :=
  match n with
  | O => []
  | S n => if v <? 16 then [hex_digit v] else hex_digits n (v / 16) ++ [hex_digit (v mod 16)]
  end.
Definition format_X (v : Z) : mem := hex_digits 8 (u32 v).

(** ["%X-%s-alck"] and its like: the [kind] is one character. *)
Definition lock_ack_id (kind counter : Z) (nodeID : mem) : mem :=
  format_X counter ++ [45] ++ nodeID ++ [45; kind; 108; 99; 107].

(** The part common to the three: an id, then attempts with it. *)
Definition with_lock_ack_id (kind : Z) (f : mem -> R W (option Z)) : R W (option Z) :=
  counter ← env App_lockAckCounter_incAndRead;
  ok ← env kasprintf_ok;
  if negb ok then mret (Some FhgfsOpsErr_INTERNAL) else f (lock_ack_id kind counter (localNodeID app)).

Definition FhgfsOpsRemoting_flockAppendEx (entryInfo : EntryInfo mem) (eiRLock : option Z)
    (fileHandleID : mem) (clientFD ownerPID lockTypeFlags : Z) (allowRetries : bool) : R W (option Z) :=
  with_lock_ack_id 97 (fun lockAckID =>
    flock_loop fuel
      (__FhgfsOpsRemoting_flockGenericEx (init_plain app NETMSGTYPE_FLockAppend)
         (FLockAppendMsg (localNodeNumID app) clientFD ownerPID lockTypeFlags entryInfo fileHandleID lockAckID)
         NETMSGTYPE_FLockAppendResp (ei_owner entryInfo) (EntryInfo_getIsBuddyMirrored entryInfo)
         lockTypeFlags lockAckID allowRetries eiRLock) lockTypeFlags).

Definition FhgfsOpsRemoting_flockEntryEx (entryInfo : EntryInfo mem) (eiRLock : option Z)
    (fileHandleID : mem) (clientFD ownerPID lockTypeFlags : Z) (allowRetries : bool) : R W (option Z) :=
  with_lock_ack_id 101 (fun lockAckID =>
    flock_loop fuel
      (__FhgfsOpsRemoting_flockGenericEx (init_plain app NETMSGTYPE_FLockEntry)
         (FLockEntryMsg (localNodeNumID app) clientFD ownerPID lockTypeFlags entryInfo fileHandleID lockAckID)
         NETMSGTYPE_FLockEntryResp (ei_owner entryInfo) (EntryInfo_getIsBuddyMirrored entryInfo)
         lockTypeFlags lockAckID allowRetries eiRLock) lockTypeFlags).

Definition FhgfsOpsRemoting_flockRangeEx (entryInfo : EntryInfo mem) (eiRLock : option Z)
    (fileHandleID : mem) (ownerPID lockTypeFlags start end_ : Z) (allowRetries : bool) : R W (option Z) :=
  with_lock_ack_id 114 (fun lockAckID =>
    flock_loop fuel
      (__FhgfsOpsRemoting_flockGenericEx (init_plain app NETMSGTYPE_FLockRange)
         (FLockRangeMsg (localNodeNumID app) start end_ ownerPID lockTypeFlags entryInfo fileHandleID lockAckID)
         NETMSGTYPE_FLockRangeResp (ei_owner entryInfo) (EntryInfo_getIsBuddyMirrored entryInfo)
         lockTypeFlags lockAckID allowRetries eiRLock) lockTypeFlags).

Definition FhgfsOpsHelper_unlockEntryWithAsyncRetry (entryInfo : EntryInfo mem) (eiRLock : option Z)
    (ioInfo : RemotingIOInfo) (clientFD : Z) : R W (option Z) :=
  id ← lift (kstring (fileHandleID ioInfo));
  res ← FhgfsOpsRemoting_flockEntryEx entryInfo eiRLock id clientFD 0 ENTRYLOCKTYPE_CANCEL true;
  match res with
  | None => mret None
  | Some unlockRes =>
      _ ← (if later unlockRes then env_ (InternodeSyncer_delayedEntryUnlockAdd entryInfo ioInfo clientFD)
           else mret tt);
      mret (Some unlockRes)
  end.

Definition FhgfsOpsHelper_unlockRangeWithAsyncRetry (entryInfo : EntryInfo mem) (eiRLock : option Z)
    (ioInfo : RemotingIOInfo) (ownerPID : Z) : R W (option Z) :=
  id ← lift (kstring (fileHandleID ioInfo));
  res ← FhgfsOpsRemoting_flockRangeEx entryInfo eiRLock id ownerPID ENTRYLOCKTYPE_CANCEL 0 (2 ^ 64 - 1) true;
  match res with
  | None => mret None
  | Some unlockRes =>
      _ ← (if later unlockRes then env_ (InternodeSyncer_delayedRangeUnlockAdd entryInfo ioInfo ownerPID)
           else mret tt);
      mret (Some unlockRes)
  end.

(** ** Extended attributes *)

(** What [listXAttr] and [getXAttr] do with the answer.  [outValue]: there is a buffer
    of [size] bytes.  The results: what is copied to the buffer, and the size. *)
Definition xattr_result (buf : mem) (outValue : bool) (size returnCode value xAttrSize : Z)
    : R W (option (Z * option (option mem * Z))) :=
  if negb (returnCode =? FhgfsOpsErr_SUCCESS) then done returnCode None
  else if outValue then
    if u64 xAttrSize <=? size then
      bytes ← lift (read_block buf value (u64 xAttrSize));
      done FhgfsOpsErr_SUCCESS (Some (Some bytes, xAttrSize))
    else done FhgfsOpsErr_RANGE None
  else done FhgfsOpsErr_SUCCESS (Some (None, xAttrSize)).

Definition FhgfsOpsRemoting_listXAttr (entryInfo : EntryInfo mem) (outValue : bool) (size : Z)
    : R W (option (Z * option (option (option mem * Z)))) :=
  remote_call fuel (rrpeer_from_entryinfo entryInfo) (init_plain app NETMSGTYPE_ListXAttr)
    (ListXAttrMsg entryInfo (s32 size)) NETMSGTYPE_ListXAttrResp true
    (fun buf resp =>
      match resp with
      | ListXAttrRespMsg _ valueBuf xAttrListSize returnCode =>
          xattr_result buf outValue size returnCode valueBuf xAttrListSize
      | _ => lift Fault
      end).

Definition FhgfsOpsRemoting_getXAttr (entryInfo : EntryInfo mem) (name : mem) (outValue : bool) (size : Z)
    : R W (option (Z * option (option (option mem * Z)))) :=
  remote_call fuel (rrpeer_from_entryinfo entryInfo) (init_plain app NETMSGTYPE_GetXAttr)
    (GetXAttrMsg entryInfo name (s32 size)) NETMSGTYPE_GetXAttrResp true
    (fun buf resp =>
      match resp with
      | GetXAttrRespMsg (_, valueBuf) xAttrSize returnCode =>
          xattr_result buf outValue size returnCode valueBuf xAttrSize
      | _ => lift Fault
      end).

Definition FhgfsOpsRemoting_removeXAttr (entryInfo : EntryInfo mem) (name : mem) : R W (option Z) :=
  simple_call fuel (rrpeer_from_entryinfo entryInfo) (init_plain app NETMSGTYPE_RemoveXAttr)
    (RemoveXAttrMsg entryInfo name) NETMSGTYPE_RemoveXAttrResp true.

Definition FhgfsOpsRemoting_setXAttr (entryInfo : EntryInfo mem) (name value : mem) (flags : Z)
    : R W (option Z) :=
  if __FHGFSOPS_REMOTING_MAX_XATTR_NAME_SIZE <? mlen name then mret (Some FhgfsOpsErr_RANGE)
  else if __FHGFSOPS_REMOTING_MAX_XATTR_VALUE_SIZE <? mlen value then mret (Some FhgfsOpsErr_TOOLONG)
  else
    simple_call fuel (rrpeer_from_entryinfo entryInfo) (init_plain app NETMSGTYPE_SetXAttr)
      (SetXAttrMsg entryInfo name value flags) NETMSGTYPE_SetXAttrResp true.

(** ** Lookup *)

(** [uninit]: what is in the entry info of a message that has none. *)
Definition LookupIntentInfoOut_initFromRespMsg (this : LookupIntentInfoOut) (buf : mem)
    (resp : LookupIntentResp) (uninit : Z) : outcome LookupIntentInfoOut :=
  let flag := resp_flag (responseFlags resp) in
  let ok code := code =? FhgfsOpsErr_SUCCESS in
  let '(statRes, stat) :=
    match respStat resp with
    | Some (res, data) => (res, if ok res then Some (StatData_getOsStat data) else lo_fhgfsStat this)
    | None => (lo_statRes this, lo_fhgfsStat this)
    end in
  '(revalidateRes, updated, entry) ←
    (match revalidateResult resp with
     | Some res =>
         Done (res, Some (match respEntryInfo resp with Some e => ei_featureFlags e | None => uninit end),
               lo_entryInfo this)
     | None =>
         if ok (lookupResult resp) || ok (createResult resp) then
           e ← of_option (respEntryInfo resp);
           e ← copy_entryinfo buf e;
           Done (lo_revalidateRes this, lo_revalidateUpdatedFlags this, Some e)
         else Done (lo_revalidateRes this, lo_revalidateUpdatedFlags this, lo_entryInfo this)
     end);
  let createRes := if flag LOOKUPINTENTRESPMSG_FLAG_CREATE then createResult resp else lo_createRes this in
  let out openRes id path pat :=
    mkLookupOut (responseFlags resp) (lookupResult resp) statRes createRes revalidateRes openRes stat entry
      updated id path pat in
  match respOpen resp with
  | Some o =>
      if ok (openResult o) then
        let '(len, pos) := openFileHandleID o in
        id ← kstrndup buf pos (Z.to_nat len);
        path ← copy_pathinfo buf (openPathInfo o);
        pat ← StripePattern_createFromBuf buf (fst (openPattern o)) (snd (openPattern o));
        Done (out (openResult o) (Some (len, KAlloc id)) (Some path) (Some pat))
      else Done (out (openResult o) (lo_fileHandleID this) (lo_pathInfo this) (lo_stripePattern this))
  | None => Done (out (lo_openRes this) (lo_fileHandleID this) (lo_pathInfo this) (lo_stripePattern this))
  end.

(** The request: the intents are added one by one. *)
Definition lookup_intents (i : LookupIntentInfoIn) : NetMessageHeader * Z :=
  let h := init_plain app NETMSGTYPE_LookupIntent in
  let intentFlags := match in_entryInfoPtr i with Some _ => LOOKUPINTENTMSG_FLAG_REVALIDATE | None => 0 end in
  let intentFlags := Z.lor intentFlags LOOKUPINTENTMSG_FLAG_STAT in
  let '(h, intentFlags) :=
    match in_createInfo i with
    | Some c =>
        let '(h, intentFlags) := LookupIntentMsg_addIntentCreate h intentFlags (ci_fileEvent c) in
        (h, if in_isExclusiveCreate i then Z.lor intentFlags LOOKUPINTENTMSG_FLAG_CREATEEXCLUSIVE
            else intentFlags)
    | None => (h, intentFlags)
    end in
  let intentFlags :=
    match in_openInfo i with Some _ => Z.lor intentFlags LOOKUPINTENTMSG_FLAG_OPEN | None => intentFlags end in
  (flag_if (quotaEnabled app) LOOKUPINTENTMSG_FLAG_USE_QUOTA h, intentFlags).

(** Fields without their intent are not set, and not sent. *)
Definition lookup_request (i : LookupIntentInfoIn) (intentFlags : Z) : Request :=
  let entry := default (in_parentEntryInfo i) (in_entryInfoPtr i) in
  let access := default 0 (in_openInfo i) in
  match in_createInfo i with
  | Some c =>
      LookupIntentMsg intentFlags (in_parentEntryInfo i) (in_entryName i) entry access (localNodeNumID app)
        (ci_userID c) (ci_groupID c) (ci_mode c) (ci_umask c) (ci_preferredStorageTargets c) (ci_fileEvent c)
  | None =>
      LookupIntentMsg intentFlags (in_parentEntryInfo i) (in_entryName i) entry access (localNodeNumID app)
        0 0 0 0 [] None
  end.

(** With an answer the call succeeds: the results of the parts are in [outInfo]. *)
Definition FhgfsOpsRemoting_lookupIntent (inInfo : LookupIntentInfoIn) (outInfo : LookupIntentInfoOut)
    : R W (option (Z * LookupIntentInfoOut)) :=
  let '(h, intentFlags) := lookup_intents inInfo in
  res ← remote_call fuel (rrpeer_from_entryinfo (in_parentEntryInfo inInfo)) h
    (lookup_request inInfo intentFlags) NETMSGTYPE_LookupIntentResp true
    (fun buf resp =>
      match resp with
      | LookupIntentRespMsg resp =>
          uninit ← env uninit_featureFlags;
          out ← lift (LookupIntentInfoOut_initFromRespMsg outInfo buf resp uninit);
          done FhgfsOpsErr_SUCCESS out
      | _ => lift Fault
      end);
  mret ((fun '(r, o) => (r, default outInfo o)) <$> res).

End Fuel.
End Calls.
