(* ===== verification/RemotingInv.v ===== *)
(** * Metadata calls: properties of their parts

    Which struct an answer has ([decoded_struct]), what holds at the end of every call
    ([remote_call_ok]), and the identifiers of lock requests. *)

From stdpp Require Import gmap.
From S2P Require Import Prelude Serialization SerializationLists Vectors StripePattern BitStore EntryInfo.
From S2P Require Import NetMessage Messages Responses StorageErrors CommKit CommKitInv CommKitOps.
From S2P Require Import MessagingTk MessagingTkInv MessagingTkProps Remoting.

(** ** The struct of an answer *)

Definition int_types : list Z := [NETMSGTYPE_LogResp; NETMSGTYPE_RemoveNodeResp; NETMSGTYPE_RmDirResp;
  NETMSGTYPE_RefreshEntryInfoResp; NETMSGTYPE_RenameResp; NETMSGTYPE_HardlinkResp; NETMSGTYPE_UnlinkFileResp;
  NETMSGTYPE_SetAttrResp; NETMSGTYPE_TruncFileResp; NETMSGTYPE_RemoveXAttrResp; NETMSGTYPE_SetXAttrResp;
  NETMSGTYPE_CloseFileResp; NETMSGTYPE_FLockAppendResp; NETMSGTYPE_FLockEntryResp;
  NETMSGTYPE_FLockRangeResp; NETMSGTYPE_BumpFileVersionResp].

(** The types of messages whose struct [q] is. *)
Definition types_of (q : Received) : list Z :=
  match q with
  | SimpleMsg => [NETMSGTYPE_HeartbeatRequest; NETMSGTYPE_AckNotifyResp]
  | SimpleIntMsg _ => int_types
  | SimpleInt64Msg _ => [NETMSGTYPE_WriteLocalFileResp; NETMSGTYPE_FSyncLocalFileResp]
  | SimpleStringMsg _ => [NETMSGTYPE_Ack]
  | SimpleIntStringMsg _ _ => [NETMSGTYPE_GenericResponse]
  | GetHostByNameRespMsg _ => [NETMSGTYPE_GetHostByNameResp]
  | GetNodesRespMsg _ _ _ => [NETMSGTYPE_GetNodesResp]
  | GetStatesAndBuddyGroupsRespMsg _ _ => [NETMSGTYPE_GetStatesAndBuddyGroupsResp]
  | GetTargetMappingsRespMsg _ => [NETMSGTYPE_GetTargetMappingsResp]
  | HeartbeatMsgEx _ _ _ _ _ _ _ _ _ _ _ => [NETMSGTYPE_Heartbeat]
  | MapTargetsMsgEx _ _ _ => [NETMSGTYPE_MapTargets]
  | RefreshTargetStatesMsgEx _ => [NETMSGTYPE_RefreshTargetStates]
  | RegisterNodeRespMsg _ => [NETMSGTYPE_RegisterNodeResp]
  | RemoveNodeMsgEx _ _ _ => [NETMSGTYPE_RemoveNode]
  | SetMirrorBuddyGroupMsgEx _ _ _ _ _ _ => [NETMSGTYPE_SetMirrorBuddyGroup]
  | LookupIntentRespMsg _ => [NETMSGTYPE_LookupIntentResp]
  | MkDirRespMsg _ _ => [NETMSGTYPE_MkDirResp]
  | MkFileRespMsg _ _ => [NETMSGTYPE_MkFileResp]
  | ListDirFromOffsetRespMsg _ _ _ _ _ _ => [NETMSGTYPE_ListDirFromOffsetResp]
  | StatRespMsg _ _ _ => [NETMSGTYPE_StatResp]
  | StatStoragePathRespMsg _ _ _ _ _ => [NETMSGTYPE_StatStoragePathResp]
  | ListXAttrRespMsg _ _ _ _ => [NETMSGTYPE_ListXAttrResp]
  | GetXAttrRespMsg _ _ _ => [NETMSGTYPE_GetXAttrResp]
  | OpenFileRespMsg _ _ _ _ _ => [NETMSGTYPE_OpenFileResp]
  | LockGrantedMsgEx _ _ _ => [NETMSGTYPE_LockGranted]
  | GetFileVersionRespMsg _ _ => [NETMSGTYPE_GetFileVersionResp]
  end.

(** [yields d P]: what [d] returns satisfies [P]. *)
Definition yields {A} (d : Des A) (P : A -> Prop) : Prop :=
  forall m c a c', d m c = Done (Some a, c') -> P a.

Lemma yields_ret {A} (a : A) (P : A -> Prop) : P a -> yields (mret a) P.
Proof. by intros Ha m c a' c' [= <- _]. Qed.
Lemma yields_fail {A} (P : A -> Prop) : yields des_fail P.
Proof. by intros m c a c'. Qed.
Lemma yields_bind {A B} (d : Des A) (f : A -> Des B) P : (forall a, yields (f a) P) -> yields (d ≫= f) P.
Proof.
  intros Hf m c b c'. unfold mbind, Des_bind. destruct (d m c) as [[[a|] c1]|]; try done. apply Hf.
Qed.
Lemma yields_if {A} (b : bool) (d1 d2 : Des A) P : yields d1 P -> yields d2 P -> yields (if b then d1 else d2) P.
Proof. by destruct b. Qed.

Ltac solve_yields :=
  repeat lazymatch goal with
    | |- yields (mret _) _ => apply yields_ret
    | |- yields des_fail _ => apply yields_fail
    | |- yields (if _ then _ else _) _ => apply yields_if
    | |- yields (_ ≫= _) _ => apply yields_bind; intros ?
    | |- yields (match ?x with (_, _) => _ end) _ => destruct x; cbn beta iota
    end.

Lemma payload_struct raw ok1 ok2 t ops h :
  factory_table raw ok1 ok2 t = Some ops -> yields (deserializePayload ops h) (fun q => t ∈ types_of q).
Proof.
  intros E. unfold factory_table in E.
  repeat match type of E with (if ?b then _ else _) = _ =>
    let H := fresh "Et" in destruct b eqn:H;
    [apply Z.eqb_eq in H; subst t; injection E as <- |] end; [..|done];
  cbn [deserializePayload recv_ops StatRespMsg_Ops SimpleMsg_recv SimpleIntMsg_recv SimpleInt64Msg_recv
       SimpleStringMsg_recv SimpleIntStringMsg_recv simple_recv];
  try (lazymatch goal with |- yields (_ ≫= _) _ => idtac | |- yields ?d _ => let f := head_of d in unfold f end);
  try unfold deserialize_created; solve_yields; cbn [types_of]; try (by left);
  repeat case_match; try (by left); apply (bool_decide_unpack _); by vm_compute.
Qed.

Lemma decode_types (buf : mem) (len : Z) (d : DecodeEnv) (q : Received) (h : NetMessageHeader) :
  decode buf len d = Done (Some q, h) -> msgType h ∈ types_of q.
Proof.
  unfold decode, NetMessageFactory_createFromBuf. intros E.
  destruct (__NetMessage_deserializeHeader _ _ _) as [[hd ctx]|]; [|done]. cbn in E.
  unfold NetMessageFactory_createFromMsgType in E.
  destruct (factory_table (de_raw d) (de_ok1 d) (de_ok2 d) (msgType hd)) as [ops|] eqn:Et; [|by cbn in E].
  destruct (msgType (NetMessage_init (de_uid d) (msgType hd)) =? NETMSGTYPE_Invalid); [by injection E|].
  unfold __NetMessageFactory_deserializeRaw in E. destruct (negb _); [by injection E|].
  destruct (deserializePayload ops hd buf ctx) as [[[p|] c]|] eqn:Ed; cbn in E; [|by injection E|done].
  injection E as <- <-. exact (payload_struct _ _ _ _ _ hd Et _ _ _ _ Ed).
Qed.

(** Without a decoded message the type is invalid. *)
Lemma decoded_none buf len d h : decode buf len d = Done (None, h) -> msgType h = NETMSGTYPE_Invalid.
Proof.
  unfold decode, NetMessageFactory_createFromBuf. intros E.
  destruct (__NetMessage_deserializeHeader _ _ _) as [[hd ctx]|]; [|done]. cbn in E.
  unfold NetMessageFactory_createFromMsgType in E.
  destruct (factory_table (de_raw d) (de_ok1 d) (de_ok2 d) (msgType hd)) as [ops|] eqn:Et;
    [|cbn in E; by injection E as <-].
  destruct (Z.eqb_spec (msgType (NetMessage_init (de_uid d) (msgType hd))) NETMSGTYPE_Invalid) as [E0|];
    [by injection E as <-|].
  unfold __NetMessageFactory_deserializeRaw in E. destruct (negb _); [by injection E as <-|].
  destruct (deserializePayload ops hd buf ctx) as [[[p|] c]|] eqn:Ed; cbn in E; [|by injection E as <-|done].
  by injection E.
Qed.

(** C10: an answer has the struct it is cast to.  Whatever bytes arrive, and whatever
    the factory finds in uninitialised memory: when it returns a decoded message whose
    header carries a type, the message is the struct that the code casts a message of
    this type to -- [SimpleIntMsg] for the sixteen answers that are one number, and so
    on for every type the client receives.  Without a message
    the header says that it is invalid. *)
Theorem decoded_struct (buf : mem) (len : Z) (d : DecodeEnv) (q : option Received) (h : NetMessageHeader) :
  decode buf len d = Done (q, h) ->
  match q with
  | Some q => msgType h ∈ types_of q
  | None => msgType h = NETMSGTYPE_Invalid
  end.
Proof. destruct q; [apply decode_types|apply decoded_none]. Qed.

Lemma decoded_struct_witness :
  let m := NetMessage.enc_header 44 (NetMessage_init 0 NETMSGTYPE_RmDirResp) ++ [9; 0; 0; 0] in
  let d := mkDecode 0 (mkRaw 0 0 0) (fun _ => true) (fun _ => true) (NetMessage_init 0 0) in
  exists h, decode m 44 d = Done (Some (SimpleIntMsg 9), h) /\ msgType h ∈ int_types.
Proof.
  intros m d.
  destruct (decode m 44 d) as [[[q|] h]|] eqn:E; [|vm_compute in E; discriminate E..].
  assert (q = SimpleIntMsg 9) as -> by (vm_compute in E; injection E; congruence).
  exists h. split; [done|]. exact (decoded_struct m 44 d (Some (SimpleIntMsg 9)) h E).
Defined.

(** ** The end of a call *)

Section CallSpec.
Context {W : Type} `{!RemotingEnv W} `{!RPCEnvLaws W}.

(** Whatever the state, a call leaves the arguments and the things held by its caller
    alone; [Q]: what holds of its result and its events; [F]: of its events when it
    ends in undefined behaviour. *)
Definition call_ok {A} (m : R W (option A)) (Q : A -> list Event -> Prop) (F : list Event -> Prop) : Prop :=
  forall s, exists new, rtrace (snd (m s)) = new ++ rtrace s /\
    match fst (m s) with
    | Some r => rargs (snd (m s)) = rargs s /\ rheld (snd (m s)) = rheld s /\
        match r with Some a => Q a new | None => True end
    | None => F new
    end.

Lemma call_ret {A} (a : A) (Q : A -> list Event -> Prop) F : Q a [] -> call_ok (mret (Some a)) Q F.
Proof. intros HQ s. exists []. by split_and!. Qed.

Lemma call_none {A} (Q : A -> list Event -> Prop) F : call_ok (mret None) Q F.
Proof. intros s. exists []. by split_and!. Qed.

Lemma call_mono {A} (m : R W (option A)) (Q Q' : A -> list Event -> Prop) (F F' : list Event -> Prop) :
  call_ok m Q F -> (forall a new, Q a new -> Q' a new) -> (forall new, F new -> F' new) -> call_ok m Q' F'.
Proof.
  intros Hm HQ HF s. destruct (Hm s) as (new & Ht & Hr). exists new. split; [done|].
  destruct (fst (m s)) as [[a|]|]; [|done|by apply HF]. destruct Hr as (? & ? & ?). split_and!; auto.
Qed.

Lemma call_map {A B} (m : R W (option A)) (g : A -> B) (Q : B -> list Event -> Prop) F :
  call_ok m (fun a => Q (g a)) F -> call_ok (r ← m; mret (g <$> r)) Q F.
Proof.
  intros Hm s. destruct (Hm s) as (new & Ht & Hr). exists new. unfold mbind, R_bind.
  destruct (m s) as [[[a|]|] s1]; cbn [fst snd] in *; by split.
Qed.

Lemma call_env {A B} (f : W -> A * W) (k : A -> R W (option B)) Q F :
  (forall w, call_ok (k (fst (f w))) Q F) -> call_ok (env f ≫= k) Q F.
Proof.
  intros Hk s. unfold env, mbind, R_bind. specialize (Hk (rworld s)). destruct (f (rworld s)) as [a w].
  exact (Hk (mkRPC w (rargs s) (rheld s) (rtrace s))).
Qed.

Lemma call_env_ {B} (f : W -> W) (k : unit -> R W (option B)) Q F :
  call_ok (k tt) Q F -> call_ok (env_ f ≫= k) Q F.
Proof. intros Hk. by apply call_env. Qed.

Lemma call_lift {A B} (o : outcome A) (k : A -> R W (option B)) Q (F : list Event -> Prop) :
  match o with Done a => call_ok (k a) Q F | Fault => F [] end -> call_ok (lift o ≫= k) Q F.
Proof.
  intros Hk s. unfold lift, mbind, R_bind. destruct o as [a|]; [apply Hk|]. by exists [].
Qed.

Lemma call_ext {A} (m m' : R W (option A)) Q F : (forall s, m' s = m s) -> call_ok m Q F -> call_ok m' Q F.
Proof. intros E Hm s. rewrite E. apply Hm. Qed.

Lemma call_assoc {A B C} (m : R W A) (f : A -> R W B) (g : B -> R W (option C)) Q F :
  call_ok (m ≫= (fun a => f a ≫= g)) Q F -> call_ok ((m ≫= f) ≫= g) Q F.
Proof. apply call_ext. intros s. unfold mbind, R_bind. by destruct (m s) as [[a|] s']. Qed.

Lemma call_mret {A B} (a : A) (f : A -> R W (option B)) Q F : call_ok (f a) Q F -> call_ok (mret a ≫= f) Q F.
Proof. by apply call_ext. Qed.

Lemma call_opt_env {A B} (x : option A) (g : A -> W -> W) (k : unit -> R W (option B)) Q F :
  call_ok (k tt) Q F -> call_ok (match x with Some a => env_ (g a) | None => mret tt end ≫= k) Q F.
Proof. destruct x; [apply call_env_|apply call_mret]. Qed.

(** A call within a call: what it returns, and its events, are known. *)
Lemma call_seq {A B} (m : R W (option A)) (f : option A -> R W (option B)) P (Q : B -> list Event -> Prop) F F' :
  call_ok m P F' -> (forall new, F' new -> F new) -> f None = mret None ->
  (forall a new, P a new -> call_ok (f (Some a)) (fun b more => Q b (more ++ new)) (fun more => F (more ++ new))) ->
  call_ok (m ≫= f) Q F.
Proof.
  intros Hm HF Hn Hf s. destruct (Hm s) as (new & Ht & Hr). unfold mbind, R_bind.
  destruct (m s) as [[[a|]|] s1]; cbn [fst snd] in *; [|rewrite Hn; exists new; by split_and!|exists new; split; [done|by apply HF]].
  destruct Hr as (Ha & Hh & HP). destruct (Hf a new HP s1) as (more & Ht' & Hr').
  exists (more ++ new). rewrite Ht', Ht, app_assoc. split; [done|].
  destruct (fst (f (Some a) s1)) as [r|]; [|done]. destruct Hr' as (-> & -> & ?). by split_and!.
Qed.

(** *** The request *)

(** The message [r] with header [h] is new, and is written as [enc]. *)
Record request_fits (h : NetMessageHeader) (r : Request) (enc : mem) : Prop := {
  rf_writes : SeqWrites (request_ops r) h r enc;
  rf_small : mlen enc + 40 < 2 ^ 32;
  rf_bytes : Forall is_byte enc;
  rf_length : msgLength h = 0;
  rf_sequence : msgSequence h = 0 }.

(** An answer of type [t] in the buffer [b] that says [q], and [more] events later. *)
Definition answer_in (t : Z) (new : list Event) (b : mem) (q : Received) (more : list Event) : Prop :=
  exists n d hd before, new = more ++ EvDecode b n d :: before /\ decode b n d = Done (Some q, hd) /\
    msgType hd = t.

(** The end of a request: an error code of [MessagingTk], or what [handle] makes of an
    answer. *)
Definition remote_result {A} (h : NetMessageHeader) (enc : mem) (t : Z)
    (H : mem -> Received -> Z -> A -> list Event -> Prop) (r : Z * option A) (new : list Event) : Prop :=
  match r with
  | (res, None) => res ∈ result_codes /\ only_request h enc new
  | (v, Some a) => exists b q more first, answer_in t new b q more /\ new = more ++ first /\
      only_request h enc first /\ H b q v a more
  end.

Definition remote_fault (t : Z) (F : mem -> Received -> list Event -> Prop) (new : list Event) : Prop :=
  decode_fault new \/ exists b q more, answer_in t new b q more /\ F b q more.

Context (app : App) (Hretries : 0 <= connNumCommRetries app < 2 ^ 32).

(** The request itself, on the stack of the call. *)
Lemma request_end fuel peer h r enc t retries (s : RPC W) :
  request_fits h r enc -> rargs s = RequestResponseArgs_prepare None h t -> rheld s = nothing -> rtrace s = [] ->
  rwp (W := W)
    (if retries : bool
     then MessagingTk_requestResponseNodeRetryAutoIntr (request_ops r) r (connNumCommRetries app) fuel
            (mkRRN peer true true)
     else MessagingTk_requestResponseNode (request_ops r) r fuel (mkRRN peer true true))
    (rargs s) (rheld s) (rtrace s)
    (fun res a' h' t' => only_request h enc t' /\
       match res with
       | Some res => result_ok res (RequestResponseArgs_prepare None h t) a' nothing h' t' /\
           rr_respMsgType a' = t /\ rr_respBufType a' = MessagingTkBufType_BufStore
       | None => True
       end).
Proof.
  intros [Hw Hs Hb Hl Hq] Ea Eh Et.
  assert (Hnode : forall s1 : RPC W, rr_header (rargs s1) = h -> rr_respMsgType (rargs s1) = t ->
    rr_respBufType (rargs s1) = MessagingTkBufType_BufStore -> rr_node (rargs s1) = None ->
    rr_outRespBuf (rargs s1) = None -> rr_outRespMsg (rargs s1) = None -> 0 <= rr_numRetries (rargs s1) < 2 ^ 32 ->
    rheld s1 = nothing -> rtrace s1 = [] ->
    rwp (W := W) (__MessagingTk_requestResponseNodeRetry (request_ops r) r fuel (mkRRN peer true true))
      (rargs s1) (rheld s1) (rtrace s1)
      (fun res a' h' t' => only_request h enc t' /\
         match res with
         | Some res => result_ok res (RequestResponseArgs_prepare None h t) a' nothing h' t' /\
             rr_respMsgType a' = t /\ rr_respBufType a' = MessagingTkBufType_BufStore
         | None => True
         end)).
  { intros s1 E1 E2 E3 E4 E5 E6 E7 E8 E9.
    eapply rwp_mono; [apply (node_call (request_ops r) h r enc Hs Hb fuel (mkRRN peer true true) s1); [by split|done]|].
    intros res a' h' t' (_ & (Ho1 & _ & _ & Ho2) & _ & Honly & _ & Hr). split; [done|].
    destruct res as [res|]; [|done]. rewrite Ho1, Ho2. split_and!; [|done|done].
    unfold result_ok in *. by rewrite E3 in Hr. }
  rewrite Ea. destruct retries.
  - unfold MessagingTk_requestResponseNodeRetryAutoIntr. apply rwp_bind, rwp_upd_args.
    match goal with |- rwp _ ?a _ _ _ => by apply (Hnode (mkRPC (rworld s) a (rheld s) (rtrace s))) end.
  - unfold MessagingTk_requestResponseNode. apply rwp_bind, rwp_upd_args.
    match goal with |- rwp _ ?a _ _ _ => by apply (Hnode (mkRPC (rworld s) a (rheld s) (rtrace s))) end.
Qed.

Lemma remote_call_ok {A} fuel peer h r enc t retries (handle : mem -> Received -> R W (option (Z * A))) H F :
  request_fits h r enc -> t <> NETMSGTYPE_Invalid ->
  (forall b q, t ∈ types_of q ->
     call_ok (handle b q) (fun '(v, a) more => H b q v a more) (F b q)) ->
  call_ok (remote_call app fuel peer h r t retries handle) (remote_result h enc t H) (remote_fault t F).
Proof.
  intros Hfit Ht Hh s. unfold remote_call, frame, mbind, R_bind, upd_args.
  cbn [rworld rargs rheld rtrace].
  set (s1 := mkRPC (rworld s) (RequestResponseArgs_prepare None h t) nothing []).
  pose proof (request_end fuel peer h r enc t retries s1 Hfit eq_refl eq_refl eq_refl s1 eq_refl eq_refl eq_refl) as Hr.
  set (m := if retries then _ else _) in *.
  destruct (m s1) as [[res|] s2]; clear m; cbn [fst snd rworld rargs rheld rtrace].
  2: { exists (rtrace s2). split; [done|by left]. }
  destruct Hr as [Honly Hr]. destruct res as [res|]; [|exists (rtrace s2); by split_and!].
  destruct Hr as (Hres & Etype & Ebuf). unfold result_ok in Hres.
  destruct (Z.eqb_spec res FhgfsOpsErr_SUCCESS) as [->|Hne]; cbn [negb].
  2: { rewrite decide_False in Hres by done. destruct Hres as (Hc & _ & _ & Eh). cbn.
       rewrite Eh. exists (rtrace s2). by split_and!. }
  rewrite decide_True in Hres by done. destruct Hres as [(b & n & d & [q hd] & before & Etr & Ed & Eb & Em & Eq) Eh].
  unfold get_args, lift. rewrite Eb, Em. cbn [of_option fst snd] in *. rewrite Etype in Eq.
  destruct q as [q|]; [|by rewrite (decoded_none _ _ _ _ Ed) in Eq]. cbn [of_option].
  destruct (Hh b q ltac:(rewrite <- Eq; by eapply decode_types) s2) as (more & Et & Hres).
  assert (Hans : forall x, answer_in t (x ++ rtrace s2) b q x).
  { intros x. exists n, d, hd, before. by rewrite Etr. }
  destruct (handle b q s2) as [[[[v a]|]|] s3]; cbn [fst snd rworld rargs rheld rtrace] in *.
  - destruct Hres as (Ea & Eh3 & HH).
    unfold RequestResponseArgs_freeRespBuffers, mbind, R_bind, get_args, upd_held. rewrite Ea, Eb, Eh3, Eh, Ebuf.
    unfold with_buf, drop_buf. cbn [rr_respBufType RequestResponseArgs_prepare h_buf nothing].
    rewrite bool_decide_true by done. cbn [h_conn h_node h_seq]. rewrite Z.eqb_refl.
    unfold env_, env, mret, R_ret. cbn [fst snd rworld rargs rheld rtrace is_nothing].
    exists (more ++ rtrace s2). split; [exact (f_equal (fun l => l ++ rtrace s) Et)|]. split_and!; [done|done|].
    exists b, q, more, (rtrace s2). split_and!; [apply Hans|done|done|done].
  - exists (more ++ rtrace s2). split; [exact (f_equal (fun l => l ++ rtrace s) Et)|by split_and!].
  - exists (more ++ rtrace s2). split; [exact (f_equal (fun l => l ++ rtrace s) Et)|]. right. exists b, q, more. split; [apply Hans|done].
Qed.
End CallSpec.
