(* ===== verification/RemotingProps.v ===== *)
(** * Metadata calls: theorems

    The calls whose answer is one number, locks and their identifiers, and what goes
    wrong when a file is opened with an invalid pattern or an extended attribute has a
    wrong size. *)

From stdpp Require Import gmap.
From S2P Require Import Prelude Serialization SerializationLists Vectors StripePattern BitStore EntryInfo.
From S2P Require Import RBTree NetMessage Messages Responses StorageErrors CommKit CommKitInv CommKitLive CommKitOps CommKitFile.
From S2P Require Import TargetStateStore MirrorBuddyGroup MirrorBuddyGroupMapper.
From S2P Require Import MessagingTk MessagingTkInv MessagingTkProps Remoting RemotingInv.

(** ** Calls answered by a number *)

Section Simple.
Context {W : Type} `{!RemotingEnv W} (app : App) (fuel : nat).

(** The calls, with header and payload of their request and the type of the answer. *)
Inductive simple_remote : R W (option Z) -> NetMessageHeader -> Request -> Z -> Prop :=
  | remote_setAttr e attr valid ev :
      simple_remote (FhgfsOpsRemoting_setAttr app fuel e attr valid ev)
        (flag_if (negb (Z.land valid (Z.lor SETATTR_CHANGE_USERID SETATTR_CHANGE_GROUPID) =? 0) &&
                  quotaEnabled app) SETATTRMSG_FLAG_USE_QUOTA
           (SetAttrMsg_initFromEntryInfo (currentUserID app) ev))
        (SetAttrMsg valid attr e ev) NETMSGTYPE_SetAttrResp
  | remote_rmdir e name ev :
      simple_remote (FhgfsOpsRemoting_rmdir app fuel e name ev)
        (RmDirMsg_initFromEntryInfo (currentUserID app) ev) (RmDirMsg e name ev) NETMSGTYPE_RmDirResp
  | remote_unlinkfile e name ev :
      simple_remote (FhgfsOpsRemoting_unlinkfile app fuel e name ev)
        (UnlinkFileMsg_initFromEntryInfo (currentUserID app) ev) (UnlinkFileMsg e name ev)
        NETMSGTYPE_UnlinkFileResp
  | remote_rename from ty fromDir to toDir ev :
      simple_remote (FhgfsOpsRemoting_rename app fuel from ty fromDir to toDir ev)
        (RenameMsg_initFromEntryInfo (currentUserID app) ev) (RenameMsg ty fromDir toDir from to ev)
        NETMSGTYPE_RenameResp
  | remote_hardlink from fromInfo fromDir to toDir ev :
      simple_remote (FhgfsOpsRemoting_hardlink app fuel from fromInfo fromDir to toDir ev)
        (HardlinkMsg_initFromEntryInfo (currentUserID app) ev) (HardlinkMsg fromInfo toDir to fromDir from ev)
        NETMSGTYPE_HardlinkResp
  | remote_truncfile e size ev :
      simple_remote (FhgfsOpsRemoting_truncfile app fuel e size ev)
        (flag_if (quotaEnabled app) TRUNCFILEMSG_FLAG_USE_QUOTA
           (TruncFileMsg_initFromEntryInfo (currentUserID app) ev))
        (TruncFileMsg size e ev) NETMSGTYPE_TruncFileResp
  | remote_refreshEntry e :
      simple_remote (FhgfsOpsRemoting_refreshEntry app fuel e)
        (NetMessage_init (currentUserID app) NETMSGTYPE_RefreshEntryInfo) (RefreshEntryInfoMsg e)
        NETMSGTYPE_RefreshEntryInfoResp
  | remote_bumpFileVersion e persistent ev :
      simple_remote (FhgfsOpsRemoting_bumpFileVersion app fuel e persistent ev)
        (BumpFileVersionMsg_init (currentUserID app) persistent ev) (BumpFileVersionMsg e ev)
        NETMSGTYPE_BumpFileVersionResp
  | remote_removeXAttr e name :
      simple_remote (FhgfsOpsRemoting_removeXAttr app fuel e name)
        (NetMessage_init (currentUserID app) NETMSGTYPE_RemoveXAttr) (RemoveXAttrMsg e name)
        NETMSGTYPE_RemoveXAttrResp
  | remote_setXAttr e name value flags :
      mlen name <= __FHGFSOPS_REMOTING_MAX_XATTR_NAME_SIZE ->
      mlen value <= __FHGFSOPS_REMOTING_MAX_XATTR_VALUE_SIZE ->
      simple_remote (FhgfsOpsRemoting_setXAttr app fuel e name value flags)
        (NetMessage_init (currentUserID app) NETMSGTYPE_SetXAttr) (SetXAttrMsg e name value flags)
        NETMSGTYPE_SetXAttrResp
  | remote_closefileEx e io allowRetries ev id maxIndex :
      fileHandleID io = KAlloc id -> maxUsedTargetIndex io = Some maxIndex ->
      simple_remote (FhgfsOpsRemoting_closefileEx app fuel e io allowRetries ev)
        (flag_if (needsAppendLockCleanup io) CLOSEFILEMSG_FLAG_CANCELAPPENDLOCKS
           (flag_if (tuneEarlyCloseResponse app) CLOSEFILEMSG_FLAG_EARLYRESPONSE
              (CloseFileMsg_initFromSession (currentUserID app) ev)))
        (CloseFileMsg (localNodeNumID app) id e maxIndex ev) NETMSGTYPE_CloseFileResp.

Lemma simple_is_call m h r t :
  simple_remote m h r t -> exists peer retries, forall s, m s = simple_call app fuel peer h r t retries s.
Proof.
  destruct 1; try (by eexists _, _; intros s; reflexivity).
  - exists (rrpeer_from_entryinfo e), true. intros s. unfold FhgfsOpsRemoting_setXAttr.
    destruct (Z.ltb_spec __FHGFSOPS_REMOTING_MAX_XATTR_NAME_SIZE (mlen name)); [lia|].
    destruct (Z.ltb_spec __FHGFSOPS_REMOTING_MAX_XATTR_VALUE_SIZE (mlen value)); [lia|done].
  - exists (rrpeer_from_entryinfo e), allowRetries. intros s. unfold FhgfsOpsRemoting_closefileEx.
    by rewrite H, H0.
Qed.

Lemma simple_type m h r t : simple_remote m h r t -> t ∈ int_types.
Proof. destruct 1; apply (bool_decide_unpack _); by vm_compute. Qed.
End Simple.

(** What a call answered by a number returns: an error code of the request, or the
    number in the answer that arrived last. *)
Definition value_of (t : Z) (v : Z) (new : list Event) : Prop :=
  v ∈ result_codes \/
  exists b n d hd before, new = EvDecode b n d :: before /\
    decode b n d = Done (Some (SimpleIntMsg v), hd) /\ msgType hd = t.

Lemma value_result_ok {W} `{!RemotingEnv W} t b q :
  t ∈ int_types -> t ∈ types_of q ->
  call_ok (W := W) (value_result b q) (fun '(v, _) more => q = SimpleIntMsg v /\ more = []) (fun _ => False).
Proof.
  intros Ht Hq. destruct q; try (by apply call_ret).
  all: exfalso; revert Ht Hq; unfold int_types; cbn [types_of]; rewrite !elem_of_cons, ?elem_of_nil;
    intros Ht Hq; destruct_or?; subst; done.
Qed.

Section SimpleSpec.
Context {W : Type} `{!RemotingEnv W} `{!RPCEnvLaws W} (app : App).
Context (Hretries : 0 <= connNumCommRetries app < 2 ^ 32).

Lemma simple_call_ok fuel peer h r enc t retries :
  request_fits h r enc -> t ∈ int_types ->
  call_ok (W := W) (simple_call app fuel peer h r t retries)
    (fun v new => only_request h enc new /\ value_of t v new) decode_fault.
Proof.
  intros Hfit Ht. unfold simple_call. apply call_map.
  eapply call_mono; [apply (remote_call_ok app Hretries fuel peer h r enc t retries value_result
    (fun b q v _ more => q = SimpleIntMsg v /\ more = []) (fun _ _ _ => False)); [done| |]| |].
  - intros ->. revert Ht. apply (bool_decide_unpack _). by vm_compute.
  - intros b q Hq. eapply call_mono; [by apply (value_result_ok t)|by intros [v a]|done].
  - intros [v [a|]] new; cbn [fst].
    + intros (b & q & more & first & (n & d & hd & before & Enew & Ed & Et) & Ef & Ho & -> & ->).
      simpl in Ef. subst. split; [exact Ho|]. right. by exists b, n, d, hd, before.
    + intros [Hc Ho]. split; [done|by left].
  - by intros new [?|(? & ? & ? & ? & [])].
Qed.

(** C8: a simple metadata call sends its request and returns its answer.  For the
    eleven calls whose answer is one number, and every behaviour of servers, network and
    client: a call that returns has put nothing but copies of its request on the wire,
    holds nothing that it did not hold before, and returns either one of the six error
    codes of [MessagingTk] or the number in the last message received, which is of the
    right type.  The other calls are those that did not return: the last thing they did
    was to give the message factory a buffer that it cannot decode, as one with a string
    of length [2^32 - 1]; of these nothing else is said. *)
Theorem remote_calls_answered (fuel : nat) (m : R W (option Z)) (h : NetMessageHeader) (r : Request)
    (t : Z) (enc : mem) (s : RPC W) :
  simple_remote app fuel m h r t -> request_fits h r enc ->
  exists new, rtrace (snd (m s)) = new ++ rtrace s /\
    match fst (m s) with
    | Some res =>
        rargs (snd (m s)) = rargs s /\ rheld (snd (m s)) = rheld s /\
        forall v, res = Some v -> only_request h enc new /\ value_of t v new
    | None => decode_fault new
    end.
Proof.
  intros Hm Hfit. destruct (simple_is_call app fuel m h r t Hm) as (peer & retries & E). rewrite !E.
  destruct (simple_call_ok fuel peer h r enc t retries Hfit (simple_type _ _ _ _ _ _ Hm) s) as (new & Et & Hr).
  exists new. split; [done|]. destruct (fst _) as [res|]; [|done]. destruct Hr as (? & ? & Hv).
  split_and!; [done|done|]. by intros v ->.
Qed.
End SimpleSpec.

(** ** Identifiers of lock requests *)

Definition unhex (d : Z) : Z := if d <? 58 then d - 48 else d - 55.
Definition hex_value (s : mem) : Z := foldl (fun a d => 16 * a + unhex d) 0 s.

Lemma hex_value_digits n v : 0 <= v < 16 ^ Z.of_nat n -> hex_value (hex_digits n v) = v.
Proof.
  assert (Hd : forall d, 0 <= d < 16 -> unhex (hex_digit d) = d).
  { intros d Hd. unfold unhex, hex_digit.
    destruct (Z.ltb_spec d 10); [destruct (Z.ltb_spec (48 + d) 58)|destruct (Z.ltb_spec (55 + d) 58)]; lia. }
  revert v. induction n as [|n IH]; intros v Hv; [change (16 ^ Z.of_nat 0) with 1 in Hv; cbn; lia|].
  cbn [hex_digits]. destruct (Z.ltb_spec v 16); [cbn; rewrite Hd; lia|].
  unfold hex_value in *. rewrite foldl_app. cbn [foldl]. rewrite IH, Hd.
  - pose proof (Z.div_mod v 16 ltac:(lia)). lia.
  - apply Z.mod_pos_bound. lia.
  - rewrite Nat2Z.inj_succ, Z.pow_succ_r in Hv by lia. split; [apply Z.div_pos; lia|].
    apply Z.div_lt_upper_bound; lia.
Qed.

Lemma hex_digits_no_dash n v : 0 <= v -> 45 ∉ hex_digits n v.
Proof.
  assert (Hd : forall d, 0 <= d -> hex_digit d <> 45) by (intros d Hd; unfold hex_digit; destruct (Z.ltb_spec d 10); lia).
  revert v. induction n as [|n IH]; intros v Hv; cbn [hex_digits]; [apply not_elem_of_nil|].
  pose proof (Z.mod_pos_bound v 16 ltac:(lia)).
  destruct (v <? 16); rewrite ?not_elem_of_app; [|split; [apply IH, Z.div_pos; lia|]];
    intros ?%list_elem_of_singleton; eapply Hd; [|done| |done]; lia.
Qed.

Lemma split_at_dash a b x y : 45 ∉ a -> 45 ∉ b -> a ++ 45 :: x = b ++ 45 :: y -> a = b /\ x = y.
Proof.
  revert b. induction a as [|c a IH]; intros [|d b] Ha Hb E; cbn in E; injection E; try (by split);
    rewrite ?not_elem_of_cons in *; intros; subst; try (by intuition).
  destruct (IH b) as [-> ->]; intuition.
Qed.

(** Identifiers of lock requests are globally unique.  The three calls for locks
    make the identifier of a request from a counter, the id of the client and a letter
    for the kind of lock.  Two requests have the same identifier only if they are of
    the same kind, from clients with the same id, and made with the same 32 bits of the
    counter; so a grant is never taken for the grant of another request, as long as a
    client has made fewer than [2^32] lock requests in between. *)
Theorem lock_ack_id_unique (kind kind' counter counter' : Z) (node node' : mem) :
  lock_ack_id kind counter node = lock_ack_id kind' counter' node' <->
  kind = kind' /\ u32 counter = u32 counter' /\ node = node'.
Proof.
  split; [|intros (-> & E & ->); unfold lock_ack_id, format_X; by rewrite E].
  unfold lock_ack_id, format_X. intros E. pose proof (u32_range counter). pose proof (u32_range counter').
  unfold in_u in *. cbn [app] in E. apply split_at_dash in E as [E1 E2]; [|apply hex_digits_no_dash; lia..].
  apply app_inj_2 in E2 as [-> [= ->]]; [|done]. split_and!; [done| |done].
  rewrite <- (hex_value_digits 8 (u32 counter)), E1 by (change (16 ^ Z.of_nat 8) with (2 ^ 32); lia).
  apply hex_value_digits. change (16 ^ Z.of_nat 8) with (2 ^ 32). lia.
Qed.

Example lock_ack_id_ex : lock_ack_id 101 (-1) [65] =
  [70; 70; 70; 70; 70; 70; 70; 70; 45; 65; 45; 101; 108; 99; 107].
Proof. by vm_compute. Qed.

(** ** Locks *)

Section Locks.
Context {W : Type} `{!RemotingEnv W} `{!RPCEnvLaws W} (app : App).
Context (Hretries : 0 <= connNumCommRetries app < 2 ^ 32).

(** The answer, or the acknowledgement for the identifier, says that the lock is granted. *)
Definition granted (t : Z) (id : mem) (new : list Event) : Prop :=
  value_of t FhgfsOpsErr_SUCCESS new \/
  (exists ms w, fst (AcknowledgmentStore_waitForAckCompletion id ms w) = true) \/
  (exists w, fst (receivedAcks_length id w) <> 0).

Lemma granted_more t id new more : granted t id more -> granted t id (more ++ new).
Proof.
  intros [[Hc|(b & n & d & hd & before & -> & H)]|H]; [|left; right|by right].
  - exfalso. revert Hc. by apply (bool_decide_unpack _).
  - exists b, n, d, hd, (before ++ new). by split.
Qed.

Lemma flock_generic_ok fuel h r enc t owner mirrored flags id retries lock :
  request_fits h r enc -> t ∈ int_types ->
  call_ok (W := W) (__FhgfsOpsRemoting_flockGenericEx app fuel h r t owner mirrored flags id retries lock)
    (fun v new => only_request h enc new /\ (v = FhgfsOpsErr_SUCCESS -> granted t id new)) decode_fault.
Proof.
  intros Hfit Ht. unfold __FhgfsOpsRemoting_flockGenericEx. apply call_env_.
  eapply (call_seq _ _ (fun r new => only_request h enc new /\ value_of t (fst r) new)); [| |done|].
  - eapply call_mono; [apply (remote_call_ok app Hretries fuel _ h r enc t retries value_result
      (fun b q v _ more => q = SimpleIntMsg v /\ more = []) (fun _ _ _ => False)); [done| |]| |].
    + intros ->. revert Ht. apply (bool_decide_unpack _). by vm_compute.
    + intros b q Hq. eapply call_mono; [by apply (value_result_ok t)|by intros [v a]|done].
    + intros [v [a|]] new; cbn [fst]; [|intros [? ?]; split; [done|by left]].
      intros (b & q & more & first & (n & d & hd & before & Enew & Ed & Et) & Ef & Ho & -> & ->).
      simpl in Ef. subst. split; [exact Ho|]. right. by exists b, n, d, hd, before.
    + by intros new [?|(? & ? & ? & ? & [])].
  - done.
  - intros [v a] new [Ho Hv]. cbn [fst] in Hv.
    assert (Hend : forall v', (v' = FhgfsOpsErr_SUCCESS -> granted t id new) ->
      call_ok (W := W)
        (_ ← env_ (AcknowledgmentStore_unregisterWaitAcks id);
         received ← (if v' =? FhgfsOpsErr_INTERRUPTED then env (receivedAcks_length id) else mret 0);
         mret (Some (if negb (received =? 0) then FhgfsOpsErr_SUCCESS else v')))
        (fun v more => only_request h enc (more ++ new) /\ (v = FhgfsOpsErr_SUCCESS -> granted t id (more ++ new)))
        (fun more => decode_fault (more ++ new))).
    { intros v' Hv'. apply call_env_. destruct (v' =? FhgfsOpsErr_INTERRUPTED); [|by apply call_ret].
      apply call_env. intros w. apply call_ret. split; [done|].
      destruct (Z.eqb_spec (fst (receivedAcks_length id w)) 0); cbn [negb]; [done|].
      intros _. right; right. by exists w. }
    destruct (bool_decide (is_Some a) && (v =? FhgfsOpsErr_WOULDBLOCK) && _).
    + apply call_assoc, call_opt_env, call_assoc, call_env. intros w. apply call_assoc, call_opt_env.
      destruct (fst (AcknowledgmentStore_waitForAckCompletion id 5000 w)) eqn:Ew.
      * apply call_mret, Hend. intros _. right; left. by exists 5000, w.
      * apply call_assoc, call_env. intros w'. apply call_mret, Hend.
        destruct (fst (signal_pending w')); [done|]. intros ->. by left.
    + apply call_mret, Hend. intros ->. by left.
Qed.

Lemma flock_loop_ok turns attempt flags h enc t id :
  call_ok (W := W) attempt (fun v new => only_request h enc new /\ (v = FhgfsOpsErr_SUCCESS -> granted t id new))
    decode_fault ->
  call_ok (W := W) (flock_loop turns attempt flags)
    (fun v new => only_request h enc new /\ (v = FhgfsOpsErr_SUCCESS -> granted t id new)) decode_fault.
Proof.
  intros Ha. induction turns as [|turns IH]; cbn [flock_loop]; [apply call_none|].
  eapply call_seq; [exact Ha|done|done|]. intros v new [Ho Hv].
  destruct ((v =? FhgfsOpsErr_WOULDBLOCK) && _); [|by apply call_ret].
  eapply call_mono; [exact IH| |].
  - intros v' more [Ho' Hv']. split; [|intros E; by apply granted_more, Hv'].
    intros b (sock & r & [Hin|Hin]%elem_of_app); [apply Ho'|apply Ho]; by exists sock, r.
  - intros more (b & n & d & t' & -> & E). exists b, n, d, (t' ++ new). by split.
Qed.

(** The three calls for locks, with their kind and the message of a request. *)
Inductive lock_call (fuel : nat) : R W (option Z) -> Z -> (mem -> Request) -> Z -> Z -> Prop :=
  | lock_append e lock fh fd pid flags retries :
      lock_call fuel (FhgfsOpsRemoting_flockAppendEx app fuel e lock fh fd pid flags retries) 97
        (FLockAppendMsg (localNodeNumID app) fd pid flags e fh) NETMSGTYPE_FLockAppend NETMSGTYPE_FLockAppendResp
  | lock_entry e lock fh fd pid flags retries :
      lock_call fuel (FhgfsOpsRemoting_flockEntryEx app fuel e lock fh fd pid flags retries) 101
        (FLockEntryMsg (localNodeNumID app) fd pid flags e fh) NETMSGTYPE_FLockEntry NETMSGTYPE_FLockEntryResp
  | lock_range e lock fh pid flags start end_ retries :
      lock_call fuel (FhgfsOpsRemoting_flockRangeEx app fuel e lock fh pid flags start end_ retries) 114
        (FLockRangeMsg (localNodeNumID app) start end_ pid flags e fh) NETMSGTYPE_FLockRange
        NETMSGTYPE_FLockRangeResp.

(** C9: a lock that is reported is granted.  A call for an append, entry or range lock
    that returns success has received the answer that the lock is granted, or an
    acknowledgement for the identifier of this very request has arrived; all it put on
    the wire are copies of its request.  When the server lets it wait, it neither takes
    the end of the wait nor a signal for a grant. *)
Theorem lock_granted (fuel : nat) (m : R W (option Z)) (kind : Z) (r : mem -> Request) (type t : Z)
    (s : RPC W) :
  lock_call fuel m kind r type t ->
  (forall counter, exists enc, request_fits (NetMessage_init (currentUserID app) type)
     (r (lock_ack_id kind counter (localNodeID app))) enc) ->
  exists new, rtrace (snd (m s)) = new ++ rtrace s /\
    match fst (m s) with
    | Some res =>
        rargs (snd (m s)) = rargs s /\ rheld (snd (m s)) = rheld s /\
        (res = Some FhgfsOpsErr_SUCCESS ->
         exists counter enc, let id := lock_ack_id kind counter (localNodeID app) in
         request_fits (NetMessage_init (currentUserID app) type) (r id) enc /\
         only_request (NetMessage_init (currentUserID app) type) enc new /\ granted t id new)
    | None => decode_fault new
    end.
Proof.
  intros Hm Hfit.
  assert (Hok : call_ok (W := W) m (fun v new => v = FhgfsOpsErr_SUCCESS ->
    exists counter enc, let id := lock_ack_id kind counter (localNodeID app) in
      request_fits (NetMessage_init (currentUserID app) type) (r id) enc /\
      only_request (NetMessage_init (currentUserID app) type) enc new /\ granted t id new) decode_fault).
  { destruct Hm.
    all: apply call_env; intros w; apply call_env; intros w'.
    all: destruct (fst (kasprintf_ok w')); cbn [negb]; [|by apply call_ret].
    all: destruct (Hfit (fst (App_lockAckCounter_incAndRead w))) as [enc He].
    all: eapply call_mono; [eapply flock_loop_ok, flock_generic_ok; [exact He|]| |done];
      [apply (bool_decide_unpack _); by vm_compute|].
    all: intros v new [Ho Hv] E; eexists _, enc; cbv zeta; split_and!; [exact He|exact Ho|by apply Hv]. }
  destruct (Hok s) as (new & Et & Hr). exists new. split; [done|].
  destruct (fst (m s)) as [res|]; [|done]. destruct Hr as (? & ? & Hv). split_and!; [done|done|].
  intros ->. by apply Hv.
Qed.
End Locks.

(** ** Extended attributes *)

(** The size of an extended attribute is not checked.  The answer to
    [FhgfsOpsRemoting_getXAttr] holds the value, with its length, and a size, and only
    the size is compared with the buffer of the caller.  When the size is larger than
    the value, the memory behind the value -- what is left in the receive buffer from
    earlier messages -- is returned to the caller as part of the attribute; and when it
    reaches behind the buffer, memory behind the buffer is read. *)
Theorem xattr_overread {W : Type} (buf : mem) (size len value xAttrSize : Z) (s : RPC W) :
  0 <= value -> 0 <= len < xAttrSize -> value + len <= mlen buf -> xAttrSize <= size -> xAttrSize < 2 ^ 31 ->
  (value + xAttrSize <= mlen buf ->
   xattr_result buf true size FhgfsOpsErr_SUCCESS value xAttrSize s =
     (Some (Some (FhgfsOpsErr_SUCCESS,
        Some (Some (slice buf value len ++ slice buf (value + len) (xAttrSize - len)), xAttrSize))), s)) /\
  (mlen buf < value + xAttrSize ->
   xattr_result buf true size FhgfsOpsErr_SUCCESS value xAttrSize s = (None, s)).
Proof.
  intros Hv Hl Hb Hs Hx. unfold xattr_result. cbn [Z.eqb negb FhgfsOpsErr_SUCCESS].
  assert (E : u64 xAttrSize = xAttrSize) by (unfold u64; rewrite wrap_id; [done|unfold in_u; lia]).
  rewrite E. destruct (Z.leb_spec xAttrSize size); [|lia].
  unfold lift, mbind, R_bind. split; intros Hm.
  - rewrite read_block_Done by lia. unfold done, mret, R_ret. do 5 f_equal.
    rewrite <- slice_add by lia. do 3 f_equal. lia.
  - unfold read_block. destruct (in_range buf value xAttrSize) eqn:Ei; [|done].
    apply in_range_true in Ei. lia.
Qed.

(** ** A small world

    That of [SmallRPC], with the entry on node 11; locks are granted at once, or not. *)

Module SmallRemote.
Definition app : App := mkApp 3 false false 0 3 [65].
Definition env : RemotingEnv SmallRPC.World := {|
  remoting_rpc := SmallRPC.env false;
  NodeStoreEx_referenceRootNode w := (Some (7, mkOwner 11 false), w);
  InternodeSyncer_delayedCloseAdd _ _ _ w := w;
  InternodeSyncer_delayedEntryUnlockAdd _ _ _ w := w;
  InternodeSyncer_delayedRangeUnlockAdd _ _ _ w := w;
  AcknowledgmentStore_registerWaitAcks _ w := w;
  AcknowledgmentStore_waitForAckCompletion _ _ w := (false, w);
  AcknowledgmentStore_unregisterWaitAcks _ w := w;
  receivedAcks_length _ w := (0, w);
  signal_pending w := (true, w);
  RWLock_readLock _ w := w;
  RWLock_readUnlock _ w := w;
  App_lockAckCounter_incAndRead w := (17, w);
  kasprintf_ok w := (true, w);
  uninit_featureFlags w := (0, w) |}.

Definition laws : RPCEnvLaws (RPCEnv0 := @remoting_rpc _ env) SmallRPC.World := SmallRPC.rpc_world_laws false.

(** The next answers of the server. *)
Definition start (answers : list mem) : RPC SmallRPC.World :=
  mkRPC (SmallRPC.mkW (Some <$> answers) [] [])
    (RequestResponseArgs_prepare None (NetMessage_init 0 0) 0) nothing [].

Definition answer (type : Z) (payload : mem) : mem :=
  NetMessage.enc_header (40 + mlen payload) (NetMessage_init 0 type) ++ payload.

Definition entry : EntryInfo mem := mkEI (mkOwner 11 false) [48] [49] [97] 2 0.
End SmallRemote.

Example small_refresh :
  fst (FhgfsOpsRemoting_refreshEntry (RemotingEnv0 := SmallRemote.env) SmallRemote.app 5 SmallRemote.entry
         (SmallRemote.start [SmallRemote.answer NETMSGTYPE_RefreshEntryInfoResp [6; 0; 0; 0]])) =
  Some (Some FhgfsOpsErr_NOTOWNER).
Proof. by vm_compute. Qed.

Lemma small_refresh_fits :
  request_fits SmallRPC.header (RefreshEntryInfoMsg SmallRemote.entry) (enc_entryinfo SmallRemote.entry).
Proof.
  split; [|by vm_compute|apply (bool_decide_unpack _); by vm_compute|done|done].
  intros f q d len. apply writes_entryinfo. unfold entryinfo_wf, in_u, in_s. vm_compute.
  intuition (congruence || discriminate).
Qed.

Lemma remote_calls_answered_witness :
  let s := SmallRemote.start [SmallRemote.answer NETMSGTYPE_RefreshEntryInfoResp [6; 0; 0; 0]] in
  exists new, rtrace (snd (FhgfsOpsRemoting_refreshEntry (RemotingEnv0 := SmallRemote.env) SmallRemote.app 5
                             SmallRemote.entry s)) = new ++ rtrace s /\
    value_of NETMSGTYPE_RefreshEntryInfoResp FhgfsOpsErr_NOTOWNER new.
Proof.
  intros s.
  destruct (remote_calls_answered (RemotingEnv0 := SmallRemote.env) (RPCEnvLaws0 := SmallRemote.laws)
    SmallRemote.app ltac:(by vm_compute) 5 _ SmallRPC.header (RefreshEntryInfoMsg SmallRemote.entry) _
    (enc_entryinfo SmallRemote.entry) s
    (remote_refreshEntry SmallRemote.app 5 SmallRemote.entry) small_refresh_fits) as (new & Et & Hr).
  exists new. split; [exact Et|]. pose proof small_refresh as E. fold s in E.
  rewrite E in Hr. destruct Hr as (_ & _ & Hr). exact (proj2 (Hr _ eq_refl)).
Defined.

Lemma fits_request h r n : (forall h, fits (request_serializePayload h r) n) -> n + 40 < 2 ^ 32 ->
  msgLength h = 0 -> msgSequence h = 0 ->
  (forall h h' m c, request_serializePayload h r m c = request_serializePayload h' r m c) ->
  exists enc, request_fits h r enc.
Proof.
  intros Hf Hn Hl Hq Hh. destruct (Hf h) as (enc & Hw & Hm & Hb). exists enc. split; [|lia|done..].
  intros f q d len. change (serializePayload (request_ops r)) with request_serializePayload.
  eapply writes_ext; [|exact Hw]. intros m c. apply Hh.
Qed.

Lemma small_id_short counter : short_bytes (lock_ack_id 101 counter [65]).
Proof.
  unfold lock_ack_id, format_X.
  assert (H : forall n v, 0 <= v -> Forall is_byte (hex_digits n v) /\ mlen (hex_digits n v) <= Z.of_nat n).
  { induction n as [|n IH]; intros v Hv; cbn [hex_digits]; [by split; [constructor|]|].
    assert (Hd : forall d, 0 <= d < 16 -> is_byte (hex_digit d)).
    { intros d Hd. unfold hex_digit, is_byte, in_u. destruct (Z.ltb_spec d 10); lia. }
    destruct (Z.ltb_spec v 16); [split; [by constructor; [apply Hd|]|unfold mlen; cbn [length]; lia]|].
    destruct (IH (v / 16) ltac:(apply Z.div_pos; lia)) as [H1 H2]. split.
    - apply Forall_app_2; [done|]. constructor; [apply Hd, Z.mod_pos_bound; lia|constructor].
    - rewrite mlen_app. unfold mlen at 2. cbn [length]. lia. }
  pose proof (u32_range counter). unfold in_u in *.
  destruct (H 8%nat (u32 counter) ltac:(lia)) as [H1 H2]. split.
  - apply Forall_app_2; [done|]. by repeat (constructor; [unfold is_byte, in_u; lia|]).
  - rewrite mlen_app. change (mlen ([45] ++ [65] ++ [45; 101; 108; 99; 107])) with 7. lia.
Qed.

Definition small_lock : R SmallRPC.World (option Z) :=
  FhgfsOpsRemoting_flockEntryEx (RemotingEnv0 := SmallRemote.env) SmallRemote.app 5 SmallRemote.entry (Some 1)
    [49] 0 0 2 true.

(** The lock is granted at once; the server lets the client wait, and a signal arrives. *)
Example small_lock_granted :
  fst (small_lock (SmallRemote.start [SmallRemote.answer NETMSGTYPE_FLockEntryResp [0; 0; 0; 0]])) =
  Some (Some FhgfsOpsErr_SUCCESS).
Proof. by vm_compute. Qed.
Example small_lock_interrupted :
  fst (small_lock (SmallRemote.start [SmallRemote.answer NETMSGTYPE_FLockEntryResp [16; 0; 0; 0]])) =
  Some (Some FhgfsOpsErr_INTERRUPTED).
Proof. by vm_compute. Qed.

Lemma small_lock_fits counter : exists enc, request_fits (NetMessage_init 0 NETMSGTYPE_FLockEntry)
  (FLockEntryMsg 3 0 0 2 SmallRemote.entry [49] (lock_ack_id 101 counter [65])) enc.
Proof.
  assert (Hb : short_bytes [48] /\ short_bytes [49] /\ short_bytes [97]).
  { split_and!; (split; [by repeat (constructor; [unfold is_byte, in_u; lia|])|by vm_compute]). }
  destruct Hb as (H1 & H2 & H3). pose proof (small_id_short counter) as H4.
  apply (fits_request _ _ 10000); [|by vm_compute|done|done|done].
  intros h. unfold request_serializePayload, FLockEntryMsg_serializePayload, EntryInfo_serialize.
  cbn [SmallRemote.entry ei_entryType ei_featureFlags ei_parentEntryID ei_entryID ei_fileName ei_owner owner_group].
  eapply fits_weaken; [fit|done].
Qed.

Lemma lock_granted_witness :
  let s := SmallRemote.start [SmallRemote.answer NETMSGTYPE_FLockEntryResp [0; 0; 0; 0]] in
  exists new counter, rtrace (snd (small_lock s)) = new ++ rtrace s /\
    granted (RemotingEnv0 := SmallRemote.env) NETMSGTYPE_FLockEntryResp (lock_ack_id 101 counter [65]) new.
Proof.
  intros s.
  destruct (lock_granted (RemotingEnv0 := SmallRemote.env) (RPCEnvLaws0 := SmallRemote.laws) SmallRemote.app
    ltac:(by vm_compute) 5 small_lock 101 _ NETMSGTYPE_FLockEntry NETMSGTYPE_FLockEntryResp s
    (lock_entry SmallRemote.app 5 SmallRemote.entry (Some 1) [49] 0 0 2 true) small_lock_fits)
    as (new & Et & Hr).
  pose proof small_lock_granted as E. fold s in E. rewrite E in Hr. destruct Hr as (_ & _ & Hr).
  destruct (Hr eq_refl) as (counter & enc & _ & _ & Hg). exists new, counter. split; [exact Et|exact Hg].
Defined.

Lemma xattr_overread_witness :
  xattr_result [1; 2; 3; 4; 5; 6] true 100 FhgfsOpsErr_SUCCESS 2 3
    (SmallRemote.start []) =
    (Some (Some (FhgfsOpsErr_SUCCESS, Some (Some [3; 4; 5], 3))), SmallRemote.start []) /\
  xattr_result [1; 2; 3; 4; 5; 6] true 100 FhgfsOpsErr_SUCCESS 2 50
    (SmallRemote.start []) = (None, SmallRemote.start []).
Proof.
  split.
  - destruct (xattr_overread [1; 2; 3; 4; 5; 6] 100 2 2 3 (SmallRemote.start [])
      ltac:(lia) ltac:(lia) ltac:(vm_compute; discriminate) ltac:(lia) ltac:(lia)) as [H _].
    exact (H ltac:(vm_compute; discriminate)).
  - destruct (xattr_overread [1; 2; 3; 4; 5; 6] 100 2 2 50 (SmallRemote.start [])
      ltac:(lia) ltac:(lia) ltac:(vm_compute; discriminate) ltac:(lia) ltac:(lia)) as [_ H].
    exact (H ltac:(by vm_compute)).
Defined.
