(* ===== verification/FhgfsOpsHelper.v ===== *)
(** * Symbolic links and access without an open file

    [FhgfsOpsHelper_symlink], [_readlink], [_readStateless] and [_writeStateless] of
    [filesystem/FhgfsOpsHelper.c]: a file is opened, read or written, and closed again.
    Reading and writing are those of [StripeIO]; here they are what class [FileIO]
    gives.  [bs] is the block size of the bit stores. *)

From stdpp Require Import gmap.
From S2P Require Import Prelude Serialization SerializationLists Vectors StripePattern BitStore EntryInfo.
From S2P Require Import RBTree NetMessage Messages Responses StorageErrors CommKit CommKitInv CommKitLive CommKitOps.
From S2P Require Import MessagingTk MessagingTkInv MessagingTkProps Remoting RemotingInv RemotingProps.

Definition OPENFILE_ACCESS_READ : Z := 1.
Definition OPENFILE_ACCESS_WRITE : Z := 2.

(** Reading gives a count or a negative error, the data, and the new
    [maxUsedTargetIndex]; writing the same without data. *)
Class FileIO (W : Type) := {
  fio_remoting : RemotingEnv W;
  FhgfsOpsRemoting_readfile : Z -> Z -> RemotingIOInfo -> W -> (Z * mem * Z) * W;
  FhgfsOpsRemoting_writefile : mem -> Z -> RemotingIOInfo -> W -> (Z * Z) * W }.
#[export] Existing Instance fio_remoting.

Definition set_io (i : RemotingIOInfo) (bits : BitStore) (uid gid : Z) : RemotingIOInfo :=
  mkIOInfo (fileHandleID i) (pattern i) (pathInfo i) (accessFlags i) (needsAppendLockCleanup i)
    (maxUsedTargetIndex i) (Some bits) uid gid.
Definition set_maxUsedTargetIndex (i : RemotingIOInfo) (v : Z) : RemotingIOInfo :=
  mkIOInfo (fileHandleID i) (pattern i) (pathInfo i) (accessFlags i) (needsAppendLockCleanup i) (Some v)
    (firstWriteDone i) (io_userID i) (io_groupID i).

Section Helper.
Context {W : Type} `{!FileIO W} (app : App) (bs : Z) (uninit : BitStore) (fuel : nat).

(** After opening: the bits for the targets. *)
Definition prepare_io (i : RemotingIOInfo) (uid gid : Z) : R W RemotingIOInfo :=
  p ← lift (of_option (pattern i));
  targetIDs ← lift (of_option (getStripeTargetIDs p));
  bits ← lift (BitStore_initWithSizeAndReset bs uninit (UInt16Vec_length targetIDs));
  mret (set_io i bits uid gid).

Definition clean_up_open {A} (i : RemotingIOInfo) (retVal : A) : R W (option A) :=
  _ ← lift (RemotingIOInfo_freeVals i);
  mret (Some retVal).

(** Common to reading and writing: [op] is the transfer, with what it hands out. *)
Definition stateless {A} (accessFlags uid gid : Z) (none : A)
    (op : RemotingIOInfo -> W -> (Z * A * Z) * W) (entryInfo : EntryInfo mem) : R W (option (Z * A)) :=
  let ioInfo := RemotingIOInfo_initOpen accessFlags (Some (-1)) (Some (mkPI 0 0 None)) in
  opened ← FhgfsOpsRemoting_openfile app fuel entryInfo ioInfo false None;
  match opened with
  | None => mret None
  | Some (openRes, (ioInfo, _)) =>
      if negb (openRes =? FhgfsOpsErr_SUCCESS) then
        clean_up_open ioInfo (FhgfsOpsErr_toSysErr openRes, none)
      else
        ioInfo ← prepare_io ioInfo uid gid;
        '(res, out, maxIndex) ← env (op ioInfo);
        let ioInfo := set_maxUsedTargetIndex ioInfo maxIndex in
        closed ← FhgfsOpsHelper_closefileWithAsyncRetry app fuel entryInfo ioInfo None;
        match closed with
        | None => mret None
        | Some closeRes =>
            clean_up_open ioInfo
              (if res <? 0 then FhgfsOpsErr_toSysErr (- res)
               else if negb (closeRes =? FhgfsOpsErr_SUCCESS) then FhgfsOpsErr_toSysErr closeRes
               else s32 res, out)
        end
  end.

Definition FhgfsOpsHelper_readStateless (entryInfo : EntryInfo mem) (size offset : Z)
    : R W (option (Z * mem)) :=
  stateless OPENFILE_ACCESS_READ 0 0 [] (FhgfsOpsRemoting_readfile size offset) entryInfo.

Definition FhgfsOpsHelper_writeStateless (entryInfo : EntryInfo mem) (buf : mem) (offset uid gid : Z)
    : R W (option (Z * unit)) :=
  stateless OPENFILE_ACCESS_WRITE uid gid tt
    (fun i w => let '((res, maxIndex), w) := FhgfsOpsRemoting_writefile buf offset i w in
                ((res, tt, maxIndex), w)) entryInfo.

Definition FhgfsOpsHelper_readlink (entryInfo : EntryInfo mem) (size : Z) : R W (option (Z * mem)) :=
  FhgfsOpsHelper_readStateless entryInfo size 0.

(** Removes the new file again, whatever the result. *)
Definition unlink_new (parentInfo : EntryInfo mem) (c : CreateInfo) {A} (next : R W (option A))
    : R W (option A) :=
  r ← FhgfsOpsRemoting_unlinkfile app fuel parentInfo (ci_entryName c) None;
  match r with None => mret None | Some _ => next end.

Definition without_event (c : CreateInfo) : CreateInfo :=
  mkCreate (ci_entryName c) (ci_userID c) (ci_groupID c) (ci_mode c) (ci_umask c)
    (ci_preferredMetaTargets c) (ci_preferredStorageTargets c) (ci_isExclusiveCreate c)
    (ci_storagePoolId c) None.

(** The result, and the new entry; it is freed again in case of an error. *)
Definition FhgfsOpsHelper_symlink (parentInfo : EntryInfo mem) (to : mem) (c : CreateInfo)
    : R W (option (Z * option (EntryInfo mem))) :=
  made ← FhgfsOpsRemoting_mkfile app fuel parentInfo (without_event c) true;
  match made with
  | None => mret None
  | Some (mkRes, e) =>
  if negb (mkRes =? FhgfsOpsErr_SUCCESS) then mret (Some (FhgfsOpsErr_toSysErr mkRes, None)) else
  entryInfo ← lift (of_option (e ≫= id));
  let ioInfo := RemotingIOInfo_initOpen OPENFILE_ACCESS_WRITE (Some (-1)) (Some (mkPI 0 0 None)) in
  opened ← FhgfsOpsRemoting_openfile app fuel entryInfo ioInfo false None;
  match opened with
  | None => mret None
  | Some (openRes, (ioInfo, _)) =>
  if negb (openRes =? FhgfsOpsErr_SUCCESS) then
    unlink_new parentInfo c (clean_up_open ioInfo (FhgfsOpsErr_toSysErr openRes, None))
  else
    ioInfo ← prepare_io ioInfo (ci_userID c) (ci_groupID c);
    '(writeRes, maxIndex) ← env (FhgfsOpsRemoting_writefile to 0 ioInfo);
    let ioInfo := set_maxUsedTargetIndex ioInfo maxIndex in
    if writeRes <? mlen to then
      closed ← FhgfsOpsHelper_closefileWithAsyncRetry app fuel entryInfo ioInfo None;
      match closed with
      | None => mret None
      | Some _ =>
          unlink_new parentInfo c
            (clean_up_open ioInfo
               (if writeRes <? 0 then FhgfsOpsErr_toSysErr (- writeRes) else FhgfsOpsErr_INTERNAL, None))
      end
    else
      closed ← FhgfsOpsHelper_closefileWithAsyncRetry app fuel entryInfo ioInfo (ci_fileEvent c);
      match closed with
      | None => mret None
      | Some closeRes =>
          clean_up_open ioInfo
            (if negb (closeRes =? FhgfsOpsErr_SUCCESS) then (FhgfsOpsErr_toSysErr closeRes, None)
             else (0, Some entryInfo))
      end
  end end.
End Helper.

(** ** Opening with an invalid pattern *)

Lemma remote_call_value {W} `{!RemotingEnv W} {A} (app : App) fuel peer h r t retries
    (handle : mem -> Received -> R W (option (Z * A))) (s s' : RPC W) v a :
  remote_call app fuel peer h r t retries handle s = (Some (Some (v, Some a)), s') ->
  exists buf resp s1 s2, handle buf resp s1 = (Some (Some (v, a)), s2).
Proof.
  unfold remote_call, frame, mbind, R_bind, upd_args. cbn [rworld rargs rheld rtrace].
  match goal with |- context [if retries then ?x else ?y] => destruct ((if retries then x else y) _) as [[[res|]|] s1] end;
    [|done..].
  destruct (negb (res =? FhgfsOpsErr_SUCCESS)).
  { unfold mret, R_ret. cbn. by destruct (is_nothing _). }
  unfold get_args, lift. destruct (rr_outRespBuf (rargs s1)) as [buf|]; [|done]. cbn [of_option].
  destruct (rr_outRespMsg (rargs s1)) as [[[resp|] hd]|]; [|done..]. cbn [of_option fst].
  destruct (handle buf resp s1) as [[[[v' a']|]|] s2] eqn:E; [|done..].
  destruct (RequestResponseArgs_freeRespBuffers s2) as [[[]|] s3]; [|done].
  unfold mret, R_ret. destruct (is_nothing _); intros [= <- <- _]; eauto 6.
Qed.

Lemma remote_call_error {W} `{!RemotingEnv W} {A} (app : App) fuel peer h r t retries
    (handle : mem -> Received -> R W (option (Z * A))) (s s' : RPC W) v :
  remote_call app fuel peer h r t retries handle s = (Some (Some (v, None)), s') -> v <> FhgfsOpsErr_SUCCESS.
Proof.
  unfold remote_call, frame, mbind, R_bind, upd_args. cbn [rworld rargs rheld rtrace].
  match goal with |- context [if retries then ?x else ?y] => destruct ((if retries then x else y) _) as [[[res|]|] s1] end;
    [|done..].
  destruct (Z.eqb_spec res FhgfsOpsErr_SUCCESS) as [->|Hne]; cbn [negb].
  2: { unfold mret, R_ret. cbn. destruct (is_nothing _); [|done]. by intros [= <- _]. }
  unfold get_args, lift. destruct (rr_outRespBuf (rargs s1)) as [buf|]; [|done]. cbn [of_option].
  destruct (rr_outRespMsg (rargs s1)) as [[[resp|] hd]|]; [|done..]. cbn [of_option fst].
  destruct (handle buf resp s1) as [[[[v' a']|]|] s2] eqn:E; [|done..].
  destruct (RequestResponseArgs_freeRespBuffers s2) as [[[]|] s3]; [|done].
  unfold mret, R_ret. by destruct (is_nothing _).
Qed.

(** Whether the answer to an open request says success, with an invalid pattern. *)
Definition invalid_pattern (buf : mem) (resp : Received) (id : mem) : Prop :=
  exists handleID info pat version p,
    resp = OpenFileRespMsg FhgfsOpsErr_SUCCESS handleID info pat version /\ cstring buf (snd handleID) = Done id /\
    StripePattern_createFromBuf buf (fst pat) (snd pat) = Done p /\
    StripePattern_getPatternType p = STRIPEPATTERN_Invalid.

Section Opened.
Context {W : Type} `{!FileIO W} (app : App) (bs : Z) (uninit : BitStore) (fuel : nat).

Lemma store_opened_new e flags idx pi outVersion buf resp handleID info pat version (s s' : RPC W) v io ver :
  resp = OpenFileRespMsg FhgfsOpsErr_SUCCESS handleID info pat version ->
  store_opened app fuel e (RemotingIOInfo_initOpen flags idx pi) outVersion buf FhgfsOpsErr_SUCCESS handleID info
    pat version s = (Some (Some (v, (io, ver))), s') ->
  v = FhgfsOpsErr_SUCCESS \/
  v = FhgfsOpsErr_INTERNAL /\ exists id, fileHandleID io = KFreed id /\ invalid_pattern buf resp id.
Proof.
  intros Er. unfold store_opened, lift, mbind, R_bind.
  destruct (cstring buf (snd handleID)) as [id|] eqn:Ei; [|done].
  cbn [pattern set_fileHandleID RemotingIOInfo_initOpen].
  destruct (StripePattern_createFromBuf buf (fst pat) (snd pat)) as [p|] eqn:Ep; [|done].
  destruct (Z.eqb_spec (StripePattern_getPatternType p) STRIPEPATTERN_Invalid) as [Et|Et].
  - destruct (FhgfsOpsHelper_closefileWithAsyncRetry _ _ _ _ _ _) as [[[?|]|] s1]; [|done..].
    cbn [kfree_string fileHandleID set_fileHandleID RemotingIOInfo_initOpen]. unfold mret, R_ret.
    destruct (copy_pathinfo buf info) as [new|]; [|done].
    destruct pi as [old|]; [|done]. cbn [pathInfo set_fileHandleID RemotingIOInfo_initOpen of_option].
    intros [= <- <- _ _]. right. split; [done|]. exists id. split; [done|]. by exists handleID, info, pat, version, p.
  - unfold mret, R_ret.
    destruct (copy_pathinfo buf info) as [new|]; [|done].
    destruct pi as [old|]; [|done]. cbn [pathInfo set_fileHandleID set_pattern RemotingIOInfo_initOpen of_option].
    intros [= <- _ _ _]. by left.
Qed.

(** Without success nothing is open: there is no handle, or it is freed already. *)
Lemma openfile_failed e flags idx pi outVersion ev (s s' : RPC W) v io ver :
  FhgfsOpsRemoting_openfile app fuel e (RemotingIOInfo_initOpen flags idx pi) outVersion ev s =
    (Some (Some (v, (io, ver))), s') -> v <> FhgfsOpsErr_SUCCESS ->
  fileHandleID io = KNull \/
  v = FhgfsOpsErr_INTERNAL /\ exists buf resp id, fileHandleID io = KFreed id /\ invalid_pattern buf resp id.
Proof.
  unfold FhgfsOpsRemoting_openfile. unfold mbind at 1. unfold R_bind.
  match goal with |- context [remote_call ?a ?b ?c ?d ?e ?f ?g ?h ?s] => destruct (remote_call a b c d e f g h s) as [[r|] s1] eqn:E end;
    [|done].
  unfold mret, R_ret. destruct r as [[r [[io' ver']|]]|]; [| |done]; cbn; intros [= <- <- _ _] Hv.
  - apply remote_call_value in E as (buf & resp & t1 & t2 & E). destruct resp; try done.
    destruct (Z.eqb_spec result FhgfsOpsErr_SUCCESS) as [->|Hne]; cbn [negb] in E.
    + edestruct store_opened_new as [?|[-> (id & ? & ?)]]; [done|exact E|done|]. right. eauto 6.
    + injection E as <- <- _ _. by left.
  - by left.
Qed.

(** An invalid pattern has the file handle freed twice.  When the server answers
    an open request with success but with an invalid stripe pattern,
    [FhgfsOpsRemoting_openfile] frees the handle, leaves the pointer in place and
    reports an internal error; reading or writing without an open file, as for a
    symbolic link, then cleans up with [RemotingIOInfo_freeVals] and frees it again.
    After every other failure to open the clean-up is right, and the call reports
    the error. *)
Theorem invalid_pattern_double_free {A} (flags uid gid : Z) (none : A)
    (op : RemotingIOInfo -> W -> (Z * A * Z) * W) (e : EntryInfo mem) (s s' : RPC W) v io ver :
  FhgfsOpsRemoting_openfile app fuel e (RemotingIOInfo_initOpen flags (Some (-1)) (Some (mkPI 0 0 None))) false None s =
    (Some (Some (v, (io, ver))), s') -> v <> FhgfsOpsErr_SUCCESS ->
  stateless app bs uninit fuel flags uid gid none op e s =
    (match fileHandleID io with
     | KFreed _ => None
     | _ => Some (Some (FhgfsOpsErr_toSysErr v, none))
     end, s') /\
  (fileHandleID io = KNull \/
   v = FhgfsOpsErr_INTERNAL /\ exists buf resp id, fileHandleID io = KFreed id /\ invalid_pattern buf resp id).
Proof.
  intros E Hv. pose proof (openfile_failed _ _ _ _ _ _ _ _ _ _ _ E Hv) as Hf. split; [|done].
  unfold stateless. unfold mbind at 1, R_bind at 1. rewrite E.
  destruct (Z.eqb_spec v FhgfsOpsErr_SUCCESS); [done|]. cbn [negb].
  unfold clean_up_open, mbind, R_bind, lift, RemotingIOInfo_freeVals.
  by destruct Hf as [->|[-> (buf & resp & id & -> & ?)]].
Qed.
End Opened.

(** ** Symbolic links *)

Lemma toSysErr_le e : FhgfsOpsErr_toSysErr e <= 0.
Proof.
  unfold FhgfsOpsErr_toSysErr, errlist_entry, EPERM. destruct (_ <? _); [|lia].
  destruct (_ !! _) as [[m v]|] eqn:E; [|lia]. apply list_elem_of_lookup_2 in E.
  assert (H : Forall (fun x : String.string * Z => 0 <= snd x) __FHGFSOPS_ERRLIST)
    by (repeat (constructor; [cbn; lia|]); constructor).
  rewrite Forall_forall in H. specialize (H _ E). cbn in H. lia.
Qed.

(** All that a call returns has the property. *)
Definition returns {W A} (m : R W (option A)) (P : A -> Prop) : Prop :=
  forall s a s', m s = (Some (Some a), s') -> P a.

Lemma returns_bind {W A B} (m : R W A) (k : A -> R W (option B)) P :
  (forall a, returns (k a) P) -> returns (m ≫= k) P.
Proof. intros Hk s b s'. unfold mbind, R_bind. destruct (m s) as [[a|] s1]; [apply Hk|done]. Qed.

Lemma returns_ret {W A} (a : A) (P : A -> Prop) : P a -> returns (W := W) (mret (Some a)) P.
Proof. by intros HP s b s' [= <- _]. Qed.

Lemma returns_none {W A} (P : A -> Prop) : returns (W := W) (mret None) P.
Proof. done. Qed.

Lemma returns_env {W A B} (f : W -> A * W) (k : A -> R W (option B)) P :
  (forall w, returns (k (fst (f w))) P) -> returns (env f ≫= k) P.
Proof.
  intros Hk s b s'. unfold env, mbind, R_bind. specialize (Hk (rworld s)).
  destruct (f (rworld s)) as [a w]. apply Hk.
Qed.

Ltac returns :=
  repeat (first [apply returns_none | apply returns_env; intros ? | apply returns_bind; intros ?; cbv beta | progress case_match]).

Section Symlink.
Context {W : Type} `{!FileIO W} (app : App) (bs : Z) (uninit : BitStore) (fuel : nat).

(** A symbolic link that is not written completely is not reported as an error
    of the system.  Whatever [FhgfsOpsHelper_symlink] returns, it is 0, with the new
    entry, or a negative error, or +1: the latter is [FhgfsOpsErr_INTERNAL], which is not
    translated when the server wrote fewer bytes than the link has; the file is removed
    again in that case. *)
Theorem symlink_result (parentInfo : EntryInfo mem) (to : mem) (c : CreateInfo) (s s' : RPC W)
    (r : Z) (e : option (EntryInfo mem)) :
  FhgfsOpsHelper_symlink app bs uninit fuel parentInfo to c s = (Some (Some (r, e)), s') ->
  (r <= 0 \/ r = FhgfsOpsErr_INTERNAL) /\ (is_Some e -> r = 0) /\
  (r = FhgfsOpsErr_INTERNAL -> exists io w n, fst (fst (FhgfsOpsRemoting_writefile to 0 io w)) = n /\ 0 <= n < mlen to).
Proof.
  revert s s'.
  assert (returns (FhgfsOpsHelper_symlink app bs uninit fuel parentInfo to c) (fun '(r, e) =>
    (r <= 0 \/ r = FhgfsOpsErr_INTERNAL) /\ (is_Some e -> r = 0) /\
    (r = FhgfsOpsErr_INTERNAL -> exists io w n, fst (fst (FhgfsOpsRemoting_writefile to 0 io w)) = n /\ 0 <= n < mlen to))).
  { unfold FhgfsOpsHelper_symlink, unlink_new, clean_up_open.
    assert (Herr : forall v (Q : Prop), (FhgfsOpsErr_toSysErr v <= 0 \/ FhgfsOpsErr_toSysErr v = FhgfsOpsErr_INTERNAL) /\
      (is_Some (@None (EntryInfo mem)) -> FhgfsOpsErr_toSysErr v = 0) /\ (FhgfsOpsErr_toSysErr v = FhgfsOpsErr_INTERNAL -> Q)).
    { intros v Q. pose proof (toSysErr_le v). unfold FhgfsOpsErr_INTERNAL.
      split_and!; [by left|by intros []|lia]. }
    returns. all: try (apply returns_ret; apply Herr).
    - apply returns_ret. split_and!; [by right|by intros []|]. intros _.
      match goal with E : fst (FhgfsOpsRemoting_writefile _ _ ?io ?w) = _ |- _ => exists io, w; rewrite E end.
      eexists. split; [reflexivity|]. cbn [fst]. lia.
    - apply returns_ret. split_and!; [by left|done|done]. }
  intros s s' E. exact (H s (r, e) s' E).
Qed.
End Symlink.

(** ** In the small world *)

Module SmallHelper.
Definition io (short : Z) : FileIO SmallRPC.World := {|
  fio_remoting := SmallRemote.env;
  FhgfsOpsRemoting_readfile size _ _ w := ((size, replicate (Z.to_nat size) 7, 0), w);
  FhgfsOpsRemoting_writefile b _ _ w := ((mlen b - short, 0), w) |}.

(** Handle "h", no path info, a pattern of the given type with target 7. *)
Definition open_answer (patternType : Z) : mem :=
  SmallRemote.answer NETMSGTYPE_OpenFileResp
    ([0; 0; 0; 0] ++ [1; 0; 0; 0; 104; 0; 0; 0] ++ [0; 0; 0; 0] ++
     [28; 0; 0; 0; patternType; 0; 0; 0; 0; 0; 8; 0; 1; 0; 1; 0; 0; 0; 10; 0; 0; 0; 1; 0; 0; 0; 7; 0] ++
     [0; 0; 0; 0; 0; 0; 0; 0]).
Definition close_answer (result : Z) : mem := SmallRemote.answer NETMSGTYPE_CloseFileResp [result; 0; 0; 0].
End SmallHelper.

Example small_readlink :
  fst (FhgfsOpsHelper_readlink (FileIO0 := SmallHelper.io 0) SmallRemote.app 8 (mkBS 0 None None) 5 SmallRemote.entry 3
         (SmallRemote.start [SmallHelper.open_answer 1; SmallHelper.close_answer 0])) =
  Some (Some (3, [7; 7; 7])).
Proof. by vm_compute. Qed.

(** The same with a pattern of type 9: the kernel memory is freed twice. *)
Lemma invalid_pattern_double_free_witness :
  fst (FhgfsOpsHelper_readStateless (FileIO0 := SmallHelper.io 0) SmallRemote.app 8 (mkBS 0 None None) 5
         SmallRemote.entry 3 0 (SmallRemote.start [SmallHelper.open_answer 9; SmallHelper.close_answer 0])) = None.
Proof.
  set (s := SmallRemote.start [SmallHelper.open_answer 9; SmallHelper.close_answer 0]).
  assert (E : exists io s', FhgfsOpsRemoting_openfile (RemotingEnv0 := SmallRemote.env) SmallRemote.app 5 SmallRemote.entry
    (RemotingIOInfo_initOpen 1 (Some (-1)) (Some (mkPI 0 0 None))) false None s =
      (Some (Some (FhgfsOpsErr_INTERNAL, (io, None))), s') /\ fileHandleID io = KFreed [104]).
  { eexists _, _. split; [vm_compute; reflexivity|by vm_compute]. }
  destruct E as (io & s' & E & Ef).
  destruct (invalid_pattern_double_free (FileIO0 := SmallHelper.io 0) SmallRemote.app 8 (mkBS 0 None None) 5
    OPENFILE_ACCESS_READ 0 0 [] (FhgfsOpsRemoting_readfile (FileIO := SmallHelper.io 0) 3 0) SmallRemote.entry s s' _ io None E
    ltac:(done)) as [H _].
  unfold FhgfsOpsHelper_readStateless. rewrite Ef in H. exact (f_equal fst H).
Defined.

Notation small_symlink short answers :=
  (FhgfsOpsHelper_symlink (FileIO0 := SmallHelper.io short) SmallRemote.app 8 (mkBS 0 None None) 5 SmallRemote.entry
    [120; 121; 122] (mkCreate [108] 0 0 0 0 [] [] true 0 None) (SmallRemote.start answers)).
Definition mkfile_answer : mem :=
  SmallRemote.answer NETMSGTYPE_MkFileResp ([0; 0; 0; 0] ++ enc_entryinfo SmallRemote.entry).

Example small_symlink_made :
  fst (small_symlink 0 [mkfile_answer; SmallHelper.open_answer 1; SmallHelper.close_answer 0]) =
  Some (Some (0, Some SmallRemote.entry)).
Proof. by vm_compute. Qed.

(** A short write: the result is +1. *)
Definition short_answers : list mem :=
  [mkfile_answer; SmallHelper.open_answer 1; SmallHelper.close_answer 0;
   SmallRemote.answer NETMSGTYPE_UnlinkFileResp [0; 0; 0; 0]].

Lemma small_symlink_short : fst (small_symlink 1 short_answers) = Some (Some (FhgfsOpsErr_INTERNAL, None)).
Proof. by vm_compute. Qed.

Lemma of_fst {A B} (p : A * B) a : fst p = a -> p = (a, snd p).
Proof. destruct p. by intros <-. Qed.

Lemma symlink_result_witness :
  exists e s', small_symlink 1 short_answers = (Some (Some (FhgfsOpsErr_INTERNAL, e)), s') /\ ~ is_Some e.
Proof.
  exists None, (snd (small_symlink 1 short_answers)).
  split; [exact (of_fst _ _ small_symlink_short)|]. intros He.
  destruct (symlink_result (FileIO0 := SmallHelper.io 1) _ _ _ _ _ _ _ _ _ _ _
    (of_fst _ _ small_symlink_short)) as (_ & H & _).
  discriminate (H He).
Defined.
