(* ===== verification/FileCache.v ===== *)
(** * Buffered file access

    The cache buffer of an inode ([filesystem/FhgfsInode.h], [FsFileInfo.h/.c]) and the
    functions of [filesystem/FhgfsOpsHelper.c] that read and write through it, flush it
    and append to a file.  Each definition below is what runs under one hold of the cache
    lock; [readCached_shared] and [readCached_exclusive] are the two of a read.  Writing
    to a kernel buffer behind its end is a [Fault]. *)

From S2P Require Import Prelude StripePattern StorageErrors MessagingTk Remoting FhgfsOpsHelper.

Definition FSFILEINFO_CACHE_HITS_INITIAL : Z := 3.
Definition FSFILEINFO_CACHE_HITS_THRESHOLD : Z := 5.
Definition FSFILEINFO_CACHE_MISS_THRESHOLD : Z := -5.
Definition FSFILEINFO_CACHE_SLOWSTART_READLEN : Z := 64 * 1024.
Definition ENTRYLOCKTYPE_UNLOCK : Z := 1.
Definition ENTRYLOCKTYPE_EXCLUSIVE : Z := 2.

(** ** The state *)

Inductive FileBufferType := FileBufferType_NONE | FileBufferType_READ | FileBufferType_WRITE.

Record CacheBuffer := mkCB {
  cb_buf : option mem; cb_bufUsageLen : Z; cb_bufUsageMaxLen : Z; cb_fileOffset : Z;
  cb_bufType : FileBufferType }.

Record FsFileInfo := mkFI {
  fi_accessFlags : Z; fi_handleType : Z; fi_appending : bool; fi_cacheHits : Z; fi_allowCaching : bool;
  fi_lastReadOffset : Z; fi_lastWriteOffset : Z; fi_usedEntryLocking : bool }.

Definition FsFileInfo_init (accessFlags handleType : Z) : FsFileInfo :=
  mkFI accessFlags handleType false FSFILEINFO_CACHE_HITS_INITIAL true 0 0 false.

Definition set_cacheHits (this : FsFileInfo) (v : Z) : FsFileInfo :=
  mkFI (fi_accessFlags this) (fi_handleType this) (fi_appending this) v (fi_allowCaching this)
    (fi_lastReadOffset this) (fi_lastWriteOffset this) (fi_usedEntryLocking this).
Definition FsFileInfo_incCacheHits (this : FsFileInfo) : FsFileInfo :=
  if fi_cacheHits this <? FSFILEINFO_CACHE_HITS_THRESHOLD then set_cacheHits this (s64 (fi_cacheHits this + 1))
  else this.
Definition FsFileInfo_decCacheHits (this : FsFileInfo) : FsFileInfo :=
  if FSFILEINFO_CACHE_MISS_THRESHOLD <? fi_cacheHits this then set_cacheHits this (s64 (fi_cacheHits this - 1))
  else this.

(** What the cache needs: the remote calls, the handles of the inode, the stores of
    buffers and inodes, copies from and to user memory (the number of bytes that can be
    copied), mappings, other readers, and the lock when it is only tried. *)
Class CacheEnv (W : Type) := {
  FhgfsOpsRemoting_readfile : Z -> Z -> RemotingIOInfo -> W -> (Z * mem) * W;
  FhgfsOpsRemoting_writefile : mem -> Z -> RemotingIOInfo -> W -> Z * W;
  FhgfsOpsRemoting_flockAppendEx : RemotingIOInfo -> Z -> W -> Z * W;
  FhgfsOpsRemoting_statDirect : W -> (Z * Z) * W;
  set_needsAppendLockCleanup : RemotingIOInfo -> W -> W;
  FhgfsInode_referenceHandle : Z -> W -> (Z * Z) * W;
  FhgfsInode_getRefIOInfo : Z -> W -> RemotingIOInfo * W;
  FhgfsInode_releaseHandle : Z -> W -> Z * W;
  NoAllocBufferStore_getBufSize : Z;
  NoAllocBufferStore_instantBuf : W -> option mem * W;
  NoAllocBufferStore_addBuf : mem -> W -> W;
  InodeRefStore_addAndReferenceInode : W -> W;
  InodeRefStore_removeAndReleaseInode : W -> W;
  copy_user : Z -> W -> Z * W;
  congfs_hasMappings : W -> bool * W;
  FhgfsInode_getIsFileOpenByMultipleReaders : W -> bool * W;
  fileCacheExclusiveTryLock : W -> bool * W }.

(** ** Steps *)

Record St (W : Type) := mkSt { st_world : W; st_cache : CacheBuffer; st_info : FsFileInfo }.
Arguments mkSt {W}. Arguments st_world {W}. Arguments st_cache {W}. Arguments st_info {W}.

Definition C (W A : Type) : Type := St W -> outcome (A * St W).
#[export] Instance C_ret {W} : MRet (C W) := fun A a s => Done (a, s).
#[export] Instance C_bind {W} : MBind (C W) :=
  fun A B f m s => match m s with Done (a, s') => f a s' | Fault => Fault end.

Section Steps.
Context {W : Type}.

Definition lift {A} (o : outcome A) : C W A :=
  fun s => match o with Done a => Done (a, s) | Fault => Fault end.
Definition env {A} (f : W -> A * W) : C W A :=
  fun s => let '(a, w) := f (st_world s) in Done (a, mkSt w (st_cache s) (st_info s)).
Definition env_ (f : W -> W) : C W unit := env (fun w => (tt, f w)).
Definition get_cache : C W CacheBuffer := fun s => Done (st_cache s, s).
Definition set_cache (c : CacheBuffer) : C W unit := fun s => Done (tt, mkSt (st_world s) c (st_info s)).
Definition get_info : C W FsFileInfo := fun s => Done (st_info s, s).
Definition upd_info (f : FsFileInfo -> FsFileInfo) : C W unit :=
  fun s => Done (tt, mkSt (st_world s) (st_cache s) (f (st_info s))).
End Steps.

Section Cache.
Context {W : Type} `{!CacheEnv W}.

(** ** Appending *)

Definition FhgfsOpsHelper_getAppendLock (ioInfo : RemotingIOInfo) : C W Z :=
  lockRes ← env (FhgfsOpsRemoting_flockAppendEx ioInfo ENTRYLOCKTYPE_EXCLUSIVE);
  _ ← (if negb (lockRes =? FhgfsOpsErr_SUCCESS) then env_ (set_needsAppendLockCleanup ioInfo) else mret tt);
  mret lockRes.

Definition FhgfsOpsHelper_releaseAppendLock (ioInfo : RemotingIOInfo) : C W Z :=
  unlockRes ← env (FhgfsOpsRemoting_flockAppendEx ioInfo ENTRYLOCKTYPE_UNLOCK);
  _ ← (if negb (unlockRes =? FhgfsOpsErr_SUCCESS) then env_ (set_needsAppendLockCleanup ioInfo) else mret tt);
  mret unlockRes.

(** The loop over the vectors: the last result, and the size. *)
Fixpoint append_loop (data : list mem) (size writeRes : Z) (ioInfo : RemotingIOInfo) : C W (Z * Z) :=
  match data with
  | [] => mret (writeRes, size)
  | d :: data =>
      writeRes ← env (FhgfsOpsRemoting_writefile d size ioInfo);
      if writeRes <? 0 then mret (writeRes, size)
      else append_loop data (s64 (size + writeRes)) writeRes ioInfo
  end.

(** Second result: the new offset, when it is set. *)
Definition FhgfsOpsHelper_appendfileVecOffset (data : list mem) (ioInfo : RemotingIOInfo)
    (offsetFromEnd : Z) : C W (Z * option Z) :=
  lockRes ← FhgfsOpsHelper_getAppendLock ioInfo;
  if negb (lockRes =? FhgfsOpsErr_SUCCESS) then mret (- lockRes, None) else
  '(statRes, size) ← env FhgfsOpsRemoting_statDirect;
  if negb (statRes =? FhgfsOpsErr_SUCCESS) then
    _ ← FhgfsOpsHelper_releaseAppendLock ioInfo;
    mret (- statRes, None)
  else
    '(writeRes, size) ← append_loop data (s64 (size + offsetFromEnd)) 0 ioInfo;
    _ ← FhgfsOpsHelper_releaseAppendLock ioInfo;
    mret (writeRes, Some size).

Definition FhgfsOpsHelper_appendfile (buf : mem) (ioInfo : RemotingIOInfo) : C W (Z * option Z) :=
  FhgfsOpsHelper_appendfileVecOffset [buf] ioInfo 0.

Definition FhgfsOpsHelper_writefileEx (buf : mem) (offset : Z) (ioInfo : RemotingIOInfo) : C W Z :=
  if offset =? -1 then
    '(writeRes, _) ← FhgfsOpsHelper_appendfile buf ioInfo;
    mret writeRes
  else env (FhgfsOpsRemoting_writefile buf offset ioInfo).

Definition FhgfsOpsHelper_writeStatelessInode (buf : mem) (offset : Z) : C W Z :=
  '(referenceRes, handleType) ← env (FhgfsInode_referenceHandle OPENFILE_ACCESS_WRITE);
  if negb (referenceRes =? FhgfsOpsErr_SUCCESS) then mret (- referenceRes) else
  ioInfo ← env (FhgfsInode_getRefIOInfo handleType);
  writeRes ← FhgfsOpsHelper_writefileEx buf offset ioInfo;
  releaseRes ← env (FhgfsInode_releaseHandle handleType);
  if writeRes <? 0 then mret writeRes
  else if negb (releaseRes =? FhgfsOpsErr_SUCCESS) then mret (- releaseRes)
  else mret writeRes.

(** ** Flushing *)

Definition __FhgfsOpsHelper_discardCache : C W unit :=
  c ← get_cache;
  buf ← lift (of_option (cb_buf c));
  _ ← env_ (NoAllocBufferStore_addBuf buf);
  _ ← set_cache (mkCB None (cb_bufUsageLen c) (cb_bufUsageMaxLen c) (cb_fileOffset c) FileBufferType_NONE);
  env_ InodeRefStore_removeAndReleaseInode.

Definition __FhgfsOpsHelper_flushCacheUnlocked (discardCacheOnError : bool) : C W Z :=
  c ← get_cache;
  match cb_bufType c with
  | FileBufferType_NONE => mret FhgfsOpsErr_SUCCESS
  | FileBufferType_READ =>
      _ ← __FhgfsOpsHelper_discardCache;
      mret FhgfsOpsErr_SUCCESS
  | FileBufferType_WRITE =>
      buf ← lift (of_option (cb_buf c));
      data ← lift (read_block buf 0 (cb_bufUsageLen c));
      writeRes ← FhgfsOpsHelper_writeStatelessInode data (cb_fileOffset c);
      if writeRes <? s64 (cb_bufUsageLen c) then
        _ ← (if discardCacheOnError then __FhgfsOpsHelper_discardCache else mret tt);
        mret (if 0 <? writeRes then FhgfsOpsErr_NOSPACE else - writeRes)
      else
        _ ← __FhgfsOpsHelper_discardCache;
        mret FhgfsOpsErr_SUCCESS
  end.

Definition FhgfsOpsHelper_flushCache (discardCacheOnError : bool) : C W Z :=
  __FhgfsOpsHelper_flushCacheUnlocked discardCacheOnError.

Definition FhgfsOpsHelper_flushCacheNoWait (discardCacheOnError : bool) : C W Z :=
  gotLock ← env fileCacheExclusiveTryLock;
  if gotLock : bool then __FhgfsOpsHelper_flushCacheUnlocked discardCacheOnError
  else mret FhgfsOpsErr_INUSE.

(** ** Access with an empty cache *)

(** Copies from user memory into [buf] at [pos]: the buffer, and whether all was copied. *)
Definition copy_from_user (buf : mem) (pos : Z) (data : mem) : C W (mem * bool) :=
  n ← env (copy_user (mlen data));
  let data' := take (Z.to_nat n) data in
  buf ← lift (write_block buf pos data');
  mret (buf, mlen data' =? mlen data).

(** Copies to user memory: what arrives there, and whether that is all. *)
Definition copy_to_user (data : mem) : C W (mem * bool) :=
  n ← env (copy_user (mlen data));
  let data' := take (Z.to_nat n) data in
  mret (data', mlen data' =? mlen data).

Definition __FhgfsOpsHelper_writeCacheFlushed (buf : mem) (offset : Z) (ioInfo : RemotingIOInfo) : C W Z :=
  let size := mlen buf in
  let isAppendWrite := offset =? -1 in
  info ← get_info;
  if negb (fi_allowCaching info) || (negb isAppendWrite && (fi_cacheHits info <=? 0)) then
    FhgfsOpsHelper_writefileEx buf offset ioInfo
  else
    maxCacheLen ←
      (if isAppendWrite then mret NoAllocBufferStore_getBufSize
       else
         p ← lift (of_option (pattern ioInfo));
         let currentChunkSize := u64 (StripePattern_getChunkEnd p offset - offset + 1) in
         mret (Z.min currentChunkSize NoAllocBufferStore_getBufSize));
    if maxCacheLen <=? size then FhgfsOpsHelper_writefileEx buf offset ioInfo else
    c ← get_cache;
    newBuf ← env NoAllocBufferStore_instantBuf;
    match newBuf with
    | None =>
        _ ← set_cache (mkCB None (cb_bufUsageLen c) (cb_bufUsageMaxLen c) (cb_fileOffset c) (cb_bufType c));
        FhgfsOpsHelper_writefileEx buf offset ioInfo
    | Some b =>
        '(b, copied) ← copy_from_user b 0 buf;
        if negb copied then
          _ ← set_cache (mkCB (Some b) (cb_bufUsageLen c) (cb_bufUsageMaxLen c) (cb_fileOffset c)
                           FileBufferType_WRITE);
          _ ← __FhgfsOpsHelper_discardCache;
          mret (- FhgfsOpsErr_ADDRESSFAULT)
        else
          _ ← set_cache (mkCB (Some b) size maxCacheLen offset FileBufferType_WRITE);
          _ ← env_ InodeRefStore_addAndReferenceInode;
          mret size
    end.

(** The results of reading: the return value, and what is stored in the user's buffer. *)
Definition __FhgfsOpsHelper_readCacheFlushed (size offset : Z) (ioInfo : RemotingIOInfo) : C W (Z * mem) :=
  info ← get_info;
  cached ←
    (if negb (fi_allowCaching info) || (fi_cacheHits info <=? 0) then mret false
     else multiple ← env FhgfsInode_getIsFileOpenByMultipleReaders; mret (negb multiple));
  if negb (cached : bool) then env (FhgfsOpsRemoting_readfile size offset ioInfo) else
  p ← lift (of_option (pattern ioInfo));
  let currentChunkSize := u64 (StripePattern_getChunkEnd p offset - offset + 1) in
  let maxCacheLen := Z.min currentChunkSize NoAllocBufferStore_getBufSize in
  if maxCacheLen <=? size then env (FhgfsOpsRemoting_readfile size offset ioInfo) else
  c ← get_cache;
  newBuf ← env NoAllocBufferStore_instantBuf;
  match newBuf with
  | None =>
      _ ← set_cache (mkCB None (cb_bufUsageLen c) (cb_bufUsageMaxLen c) (cb_fileOffset c) (cb_bufType c));
      env (FhgfsOpsRemoting_readfile size offset ioInfo)
  | Some b =>
      let maxCacheLen :=
        if (offset =? 0) && (size <? FSFILEINFO_CACHE_SLOWSTART_READLEN)
        then FSFILEINFO_CACHE_SLOWSTART_READLEN else maxCacheLen in
      '(readRes, data) ← env (FhgfsOpsRemoting_readfile maxCacheLen offset ioInfo);
      b ← lift (write_block b 0 data);
      let filled := mkCB (Some b) (cb_bufUsageLen c) (cb_bufUsageMaxLen c) (cb_fileOffset c) FileBufferType_READ in
      if readRes <=? 0 then
        _ ← set_cache filled;
        _ ← __FhgfsOpsHelper_discardCache;
        mret (readRes, [])
      else
        part ← lift (read_block b 0 (Z.min size readRes));
        '(out, copied) ← copy_to_user part;
        if negb (copied : bool) then
          _ ← set_cache filled;
          _ ← __FhgfsOpsHelper_discardCache;
          mret (- FhgfsOpsErr_ADDRESSFAULT, out)
        else
          _ ← set_cache (mkCB (Some b) readRes maxCacheLen offset FileBufferType_READ);
          _ ← env_ InodeRefStore_addAndReferenceInode;
          mret (Z.min size readRes, out)
  end.

(** ** Buffered writing *)

(** Flushes, and goes on with [next] after success. *)
Definition flushed {A} (next : C W A) (fail : Z -> A) : C W A :=
  flushRes ← __FhgfsOpsHelper_flushCacheUnlocked false;
  if negb (flushRes =? FhgfsOpsErr_SUCCESS) then mret (fail (- flushRes)) else next.

(** The hits when there is no buffer: as if there was one behind the last access. *)
Definition guess_hit (hit : bool) (this : FsFileInfo) : FsFileInfo :=
  if hit then FsFileInfo_incCacheHits this else FsFileInfo_decCacheHits this.

Definition writeCached_locked (buf : mem) (offset : Z) (ioInfo : RemotingIOInfo) : C W Z :=
  let size := mlen buf in
  let isAppendWrite := offset =? -1 in
  c ← get_cache;
  match cb_bufType c with
  | FileBufferType_NONE =>
      info ← get_info;
      let virtualCacheStart := fi_lastWriteOffset info in
      let virtualCacheEnd := s64 (virtualCacheStart + NoAllocBufferStore_getBufSize - 1) in
      _ ← upd_info (guess_hit (isAppendWrite ||
                                ((virtualCacheStart <=? offset) && (offset <=? virtualCacheEnd))));
      __FhgfsOpsHelper_writeCacheFlushed buf offset ioInfo
  | FileBufferType_READ =>
      _ ← upd_info FsFileInfo_decCacheHits;
      _ ← __FhgfsOpsHelper_discardCache;
      __FhgfsOpsHelper_writeCacheFlushed buf offset ioInfo
  | FileBufferType_WRITE =>
      let isAppendCacheBuf := cb_fileOffset c =? -1 in
      let currentCacheEndOffset := s64 (cb_fileOffset c + cb_bufUsageLen c) in
      let bufLenLeft := u64 (cb_bufUsageMaxLen c - cb_bufUsageLen c) in
      if negb (Bool.eqb isAppendWrite isAppendCacheBuf) ||
         (negb isAppendWrite && negb (offset =? currentCacheEndOffset)) || (bufLenLeft <? size) then
        _ ← upd_info FsFileInfo_decCacheHits;
        flushed (__FhgfsOpsHelper_writeCacheFlushed buf offset ioInfo) id
      else
        _ ← upd_info FsFileInfo_incCacheHits;
        b ← lift (of_option (cb_buf c));
        '(b, copied) ← copy_from_user b (cb_bufUsageLen c) buf;
        let used := if copied : bool then u64 (cb_bufUsageLen c + size) else cb_bufUsageLen c in
        _ ← set_cache (mkCB (Some b) used (cb_bufUsageMaxLen c) (cb_fileOffset c) (cb_bufType c));
        if negb copied then mret (- FhgfsOpsErr_ADDRESSFAULT) else
        if u64 (cb_bufUsageMaxLen c - used) =? 0 then flushed (mret size) id
        else mret size
  end.

(** With coherent buffers and a mapping, the cache is passed by. *)
Definition FhgfsOpsHelper_writeCached (tuneCoherentBuffers : bool) (buf : mem) (offset : Z)
    (ioInfo : RemotingIOInfo) : C W Z :=
  mapped ← (if tuneCoherentBuffers then env congfs_hasMappings else mret false);
  if mapped : bool then
    _ ← upd_info FsFileInfo_decCacheHits;
    FhgfsOpsHelper_writefileEx buf offset ioInfo
  else writeCached_locked buf offset ioInfo.

(** ** Buffered reading *)

(** The part of a read that overlaps a read cache [c] with buffer [b]. *)
Definition read_overlap (b : mem) (c : CacheBuffer) (size offset : Z) (ioInfo : RemotingIOInfo)
    : C W (Z * mem) :=
  let readEndOffset := s64 (offset + size - 1) in
  let cacheEndOffset := s64 (cb_fileOffset c + cb_bufUsageLen c - 1) in
  let before := offset <? cb_fileOffset c in
  let remoteReadSize := if before then s64 (cb_fileOffset c - offset) else 0 in
  '(readRes, data) ← (if before then env (FhgfsOpsRemoting_readfile remoteReadSize offset ioInfo)
                      else mret (0, []));
  if before && (readRes <? remoteReadSize) then
    _ ← __FhgfsOpsHelper_discardCache;
    mret (readRes, data)
  else
    let cacheCopyOffset := if offset <=? cb_fileOffset c then 0 else s64 (offset - cb_fileOffset c) in
    let cacheCopySize := u64 (Z.min (u64 (cb_fileOffset c + cb_bufUsageLen c)) (u64 (offset + size)) -
                              (cb_fileOffset c + cacheCopyOffset)) in
    part ← lift (read_block b cacheCopyOffset cacheCopySize);
    '(out, copied) ← copy_to_user part;
    if negb (copied : bool) then mret (- FhgfsOpsErr_ADDRESSFAULT, data ++ out) else
    if cacheEndOffset <? readEndOffset then
      let remainderFileOffset := s64 (cacheEndOffset + 1) in
      let remainderSize := u64 (readEndOffset - cacheEndOffset) in
      _ ← __FhgfsOpsHelper_discardCache;
      '(remainderRes, rest) ← __FhgfsOpsHelper_readCacheFlushed remainderSize remainderFileOffset ioInfo;
      if remainderRes <? 0 then mret (remainderRes, data ++ out ++ rest)
      else mret (s64 (remoteReadSize + cacheCopySize + remainderRes), data ++ out ++ rest)
    else mret (s64 size, data ++ out).

Definition readCached_exclusive (size offset : Z) (ioInfo : RemotingIOInfo) : C W (Z * mem) :=
  let readEndOffset := s64 (offset + size - 1) in
  c ← get_cache;
  let cacheEndOffset := s64 (cb_fileOffset c + cb_bufUsageLen c - 1) in
  let flush_and_read :=
    _ ← upd_info FsFileInfo_decCacheHits;
    flushed (__FhgfsOpsHelper_readCacheFlushed size offset ioInfo) (fun e => (e, [])) in
  match cb_bufType c with
  | FileBufferType_NONE =>
      info ← get_info;
      let virtualCacheStart := fi_lastReadOffset info in
      let virtualCacheEnd := s64 (virtualCacheStart + NoAllocBufferStore_getBufSize - 1) in
      _ ← upd_info (guess_hit ((offset <=? virtualCacheEnd) && (virtualCacheStart <=? readEndOffset)));
      __FhgfsOpsHelper_readCacheFlushed size offset ioInfo
  | FileBufferType_WRITE => flush_and_read
  | FileBufferType_READ =>
      if (cacheEndOffset <? offset) || (readEndOffset <? cb_fileOffset c) then flush_and_read
      else
        _ ← upd_info FsFileInfo_incCacheHits;
        b ← lift (of_option (cb_buf c));
        read_overlap b c size offset ioInfo
  end.

(** The fast path under the shared lock; [None]: take the exclusive lock. *)
Definition readCached_shared (size offset : Z) (ioInfo : RemotingIOInfo) : C W (option (Z * mem)) :=
  info ← get_info;
  multiple ← env FhgfsInode_getIsFileOpenByMultipleReaders;
  if (multiple : bool) || negb (fi_allowCaching info) then
    c ← get_cache;
    match cb_bufType c with
    | FileBufferType_NONE =>
        res ← env (FhgfsOpsRemoting_readfile size offset ioInfo);
        mret (Some res)
    | _ => mret None
    end
  else mret None.

Definition FhgfsOpsHelper_readCached (tuneCoherentBuffers : bool) (size offset : Z) (ioInfo : RemotingIOInfo)
    : C W (Z * mem) :=
  mapped ← (if tuneCoherentBuffers then env congfs_hasMappings else mret false);
  if mapped : bool then
    _ ← upd_info FsFileInfo_decCacheHits;
    env (FhgfsOpsRemoting_readfile size offset ioInfo)
  else
    res ← readCached_shared size offset ioInfo;
    match res with
    | Some res => mret res
    | None => readCached_exclusive size offset ioInfo
    end.
End Cache.
