(* ===== verification/FileCacheInv.v ===== *)
(** * Buffered file access: refinement

    With servers that do as they are asked, access through the cache buffer is access to
    a file: [logical] is what the user sees, the file on the servers with the data
    buffered for writing. *)

From S2P Require Import Prelude Serialization StripePattern StorageErrors MessagingTk Remoting FhgfsOpsHelper FileCache.

(** ** Files *)

Definition fread (F : mem) (offset size : Z) : mem := slice F offset size.

Definition fwrite (F : mem) (offset : Z) (data : mem) : mem :=
  match data with
  | [] => F
  | _ => take (Z.to_nat offset) F ++ replicate (Z.to_nat offset - length F) 0 ++ data ++
         drop (Z.to_nat offset + length data) F
  end.

(** At a place, or at the end for -1. *)
Definition fapply (F : mem) (offset : Z) (data : mem) : mem :=
  if offset =? -1 then F ++ data else fwrite F offset data.

Lemma mlen_fwrite F o d : 0 <= o -> d <> [] -> mlen (fwrite F o d) = Z.max (mlen F) (o + mlen d).
Proof.
  intros Ho Hd. destruct d as [|x d]; [done|]. unfold fwrite, mlen.
  rewrite !length_app, length_take, length_replicate, length_drop. cbn [length]. lia.
Qed.

Lemma fwrite_app F o a b : 0 <= o -> fwrite (fwrite F o a) (o + mlen a) b = fwrite F o (a ++ b).
Proof.
  intros Ho. destruct a as [|x a]; [by rewrite mlen_nil, Z.add_0_r|].
  destruct b as [|y b]; [by rewrite app_nil_r|]. unfold fwrite at 1 3. cbn [app].
  change (x :: a ++ y :: b) with ((x :: a) ++ (y :: b)).
  set (A := x :: a). set (B := y :: b). unfold fwrite. cbn [A].
  set (Z0 := replicate (Z.to_nat o - length F) 0).
  assert (Ha : length (take (Z.to_nat o) F ++ Z0 ++ A) = (Z.to_nat o + length A)%nat).
  { unfold Z0. rewrite !length_app, length_take, length_replicate. lia. }
  assert (E : Z.to_nat (o + mlen A) = (Z.to_nat o + length A)%nat) by (unfold mlen; lia).
  rewrite E. set (T := take (Z.to_nat o) F) in *.
  replace (T ++ Z0 ++ A ++ drop (Z.to_nat o + length A) F) with ((T ++ Z0 ++ A) ++ drop (Z.to_nat o + length A) F)
    by (by rewrite <- !app_assoc).
  assert (Hlen : (Z.to_nat o + length A - length ((T ++ Z0 ++ A) ++ drop (Z.to_nat o + length A) F) = 0)%nat)
    by (rewrite !length_app in *; lia).
  rewrite Hlen, take_app_length', drop_app_ge, drop_drop by lia. rewrite Ha. cbn [replicate app].
  rewrite <- !app_assoc. unfold B. cbn [app]. rewrite length_app. do 2 f_equal.
  unfold A. cbn [app]. do 2 f_equal. f_equal. f_equal. f_equal. lia.
Qed.

Lemma mlen_fread F o n : 0 <= o -> 0 <= n -> mlen (fread F o n) = Z.max 0 (Z.min n (mlen F - o)).
Proof. intros Ho Hn. unfold fread, slice, mlen. rewrite length_take, length_drop. lia. Qed.

Lemma fread_all F o n : 0 <= o -> 0 <= n -> mlen F <= o + n -> fread F o n = fread F o (Z.max 0 (mlen F - o)).
Proof.
  intros Ho Hn Hl. unfold fread, slice, mlen in *. rewrite !take_ge; [done|..]; rewrite length_drop; lia.
Qed.

Lemma slice_slice m p n i k : 0 <= p -> 0 <= i -> 0 <= k -> i + k <= n -> slice (slice m p n) i k = slice m (p + i) k.
Proof.
  intros Hp Hi Hk Hn. unfold slice. rewrite skipn_firstn_comm, take_take, drop_drop.
  f_equal; [lia|]. f_equal. lia.
Qed.

Lemma slice_prefix m k n : k <= n -> slice m 0 k = slice (slice m 0 n) 0 k.
Proof. intros H. unfold slice. rewrite !drop_0, take_take. f_equal. lia. Qed.

Lemma put_slice_next m p a : 0 <= p -> p + mlen a <= mlen m -> slice (put m p a) 0 (p + mlen a) = slice m 0 p ++ a.
Proof.
  intros Hp Hl. unfold put, slice, mlen in *. cbn [drop]. change (Z.to_nat 0) with 0%nat. rewrite !drop_0.
  rewrite app_assoc, take_app_length'; [done|]. rewrite length_app, length_take. lia.
Qed.

(** ** Servers that do as they are asked *)

(** [content]: the file on the servers; [bufs]: the number of buffers that are taken. *)
Class ReliableFile (W : Type) `{!CacheEnv W} := {
  content : W -> mem;
  bufs : W -> Z;
  same (w w' : W) : Prop := content w' = content w /\ bufs w' = bufs w;
  rl_read size offset io w : 0 <= size -> 0 <= offset ->
    let d := fread (content w) offset size in
    fst (FhgfsOpsRemoting_readfile size offset io w) = (mlen d, d) /\
    same w (snd (FhgfsOpsRemoting_readfile size offset io w));
  rl_write data offset io w : 0 <= offset ->
    let w' := snd (FhgfsOpsRemoting_writefile data offset io w) in
    fst (FhgfsOpsRemoting_writefile data offset io w) = mlen data /\
    content w' = fwrite (content w) offset data /\ bufs w' = bufs w;
  rl_lock io f w : fst (FhgfsOpsRemoting_flockAppendEx io f w) = FhgfsOpsErr_SUCCESS /\
    same w (snd (FhgfsOpsRemoting_flockAppendEx io f w));
  rl_stat w : fst (FhgfsOpsRemoting_statDirect w) = (FhgfsOpsErr_SUCCESS, mlen (content w)) /\
    same w (snd (FhgfsOpsRemoting_statDirect w));
  rl_reference f w : fst (fst (FhgfsInode_referenceHandle f w)) = FhgfsOpsErr_SUCCESS /\
    same w (snd (FhgfsInode_referenceHandle f w));
  rl_ioinfo t w : same w (snd (FhgfsInode_getRefIOInfo t w));
  rl_release t w : fst (FhgfsInode_releaseHandle t w) = FhgfsOpsErr_SUCCESS /\
    same w (snd (FhgfsInode_releaseHandle t w));
  rl_instant w :
    let w' := snd (NoAllocBufferStore_instantBuf w) in
    content w' = content w /\
    match fst (NoAllocBufferStore_instantBuf w) with
    | Some b => mlen b = NoAllocBufferStore_getBufSize /\ bufs w' = bufs w + 1
    | None => bufs w' = bufs w
    end;
  rl_add b w : content (NoAllocBufferStore_addBuf b w) = content w /\
    bufs (NoAllocBufferStore_addBuf b w) = bufs w - 1;
  rl_ref w : same w (InodeRefStore_addAndReferenceInode w);
  rl_unref w : same w (InodeRefStore_removeAndReleaseInode w);
  rl_copy n w : fst (copy_user n w) = n /\ same w (snd (copy_user n w));
  rl_multiple w : same w (snd (FhgfsInode_getIsFileOpenByMultipleReaders w));
  rl_trylock w : same w (snd (fileCacheExclusiveTryLock w)) }.

Section Refinement.
Context {W : Type} `{!CacheEnv W} `{!ReliableFile W}.

(** A buffer takes a whole first read-ahead, see [slow_start_overrun]. *)
Context (Hbuf : FSFILEINFO_CACHE_SLOWSTART_READLEN <= NoAllocBufferStore_getBufSize < 2 ^ 63).

(** ** A small program logic *)

Definition cwp {A} (m : C W A) (s : St W) (Q : A -> St W -> Prop) : Prop :=
  match m s with Done (a, s') => Q a s' | Fault => False end.

Lemma cwp_ret {A} (a : A) s Q : Q a s -> cwp (mret a) s Q.
Proof. done. Qed.

Lemma cwp_bind {A B} (m : C W A) (f : A -> C W B) s Q :
  cwp m s (fun a s' => cwp (f a) s' Q) -> cwp (m ≫= f) s Q.
Proof. unfold cwp, mbind, C_bind. by destruct (m s) as [[a s']|]. Qed.

Lemma cwp_mono {A} (m : C W A) s (P Q : A -> St W -> Prop) :
  cwp m s P -> (forall a s', P a s' -> Q a s') -> cwp m s Q.
Proof. unfold cwp. destruct (m s) as [[a s']|]; auto. Qed.

Lemma cwp_env {A} (f : W -> A * W) s Q :
  Q (fst (f (st_world s))) (mkSt (snd (f (st_world s))) (st_cache s) (st_info s)) -> cwp (env f) s Q.
Proof. unfold cwp, env. by destruct (f (st_world s)). Qed.

Lemma cwp_env_ (f : W -> W) s Q : Q tt (mkSt (f (st_world s)) (st_cache s) (st_info s)) -> cwp (env_ f) s Q.
Proof. done. Qed.

Lemma cwp_lift {A} (o : outcome A) a s Q : o = Done a -> Q a s -> cwp (lift o) s Q.
Proof. by intros ->. Qed.

(** ** The invariant *)

Definition logical (s : St W) : mem :=
  let c := st_cache s in let F := content (st_world s) in
  match cb_bufType c, cb_buf c with
  | FileBufferType_WRITE, Some b => fapply F (cb_fileOffset c) (slice b 0 (cb_bufUsageLen c))
  | _, _ => F
  end.

(** [base]: the buffers that others hold. *)
Definition cache_inv (base : Z) (s : St W) : Prop :=
  let c := st_cache s in let F := content (st_world s) in
  let fo := cb_fileOffset c in let used := cb_bufUsageLen c in
  bufs (st_world s) = base + (if cb_buf c then 1 else 0) /\ mlen F < 2 ^ 63 /\
  match cb_bufType c with
  | FileBufferType_NONE => cb_buf c = None
  | FileBufferType_READ => exists b, cb_buf c = Some b /\ mlen b = NoAllocBufferStore_getBufSize /\
      0 <= fo /\ 0 < used <= NoAllocBufferStore_getBufSize /\ fo + used <= mlen F /\ slice b 0 used = slice F fo used
  | FileBufferType_WRITE => exists b, cb_buf c = Some b /\ mlen b = NoAllocBufferStore_getBufSize /\
      0 <= used <= cb_bufUsageMaxLen c /\ cb_bufUsageMaxLen c <= NoAllocBufferStore_getBufSize /\
      (fo = -1 \/ 0 <= fo /\ fo + used < 2 ^ 63)
  end.

(** Remote calls leave the cache alone; [F]: the file afterwards. *)
Definition remote (s : St W) (F : mem) (s' : St W) : Prop :=
  content (st_world s') = F /\ bufs (st_world s') = bufs (st_world s) /\ st_cache s' = st_cache s /\
  st_info s' = st_info s.

Definition offset_ok (offset size : Z) : Prop := offset = -1 \/ 0 <= offset /\ offset + size < 2 ^ 63.

(** ** The parts *)

Lemma wp_remote {A} (f : W -> A * W) s (Q : A -> St W -> Prop) :
  same (st_world s) (snd (f (st_world s))) ->
  (forall s', remote s (content (st_world s)) s' -> Q (fst (f (st_world s))) s') -> cwp (env f) s Q.
Proof. intros [E1 E2] HQ. apply cwp_env, HQ. by split_and!. Qed.

Lemma remote_trans s s1 s2 F F' : remote s F s1 -> remote s1 F' s2 -> remote s F' s2.
Proof. intros (? & ? & ? & ?) (? & ? & ? & ?). split_and!; congruence. Qed.

Lemma wp_append buf io s :
  mlen (content (st_world s) ++ buf) < 2 ^ 63 ->
  cwp (FhgfsOpsHelper_appendfile buf io) s
    (fun r s' => fst r = mlen buf /\ remote s (content (st_world s) ++ buf) s').
Proof.
  intros Hl. rewrite mlen_app in Hl. pose proof (mlen_nonneg (content (st_world s))).
  pose proof (mlen_nonneg buf). set (F := content (st_world s)) in *.
  unfold FhgfsOpsHelper_appendfile, FhgfsOpsHelper_appendfileVecOffset, FhgfsOpsHelper_getAppendLock.
  apply cwp_bind, cwp_bind. eapply wp_remote; [apply rl_lock|]. intros s1 H1.
  rewrite (proj1 (rl_lock _ _ _)). cbn [Z.eqb negb FhgfsOpsErr_SUCCESS]. apply cwp_bind, cwp_ret, cwp_ret.
  cbn [Z.eqb negb]. apply cwp_bind. eapply wp_remote; [apply rl_stat|]. intros s2 H2.
  rewrite (proj1 (rl_stat _)). cbn [Z.eqb negb FhgfsOpsErr_SUCCESS]. apply cwp_bind.
  destruct H1 as (E1 & B1 & C1 & I1). fold F in E1. rewrite E1 in *.
  rewrite Z.add_0_r, s64_id by lia. cbn [append_loop]. apply cwp_bind, cwp_env.
  destruct (rl_write buf (mlen F) io (st_world s2) ltac:(lia)) as (-> & E3 & B3).
  destruct H2 as (E2 & B2 & C2 & I2). rewrite E2 in E3.
  destruct (Z.ltb_spec (mlen buf) 0); [lia|]. apply cwp_ret.
  unfold FhgfsOpsHelper_releaseAppendLock. apply cwp_bind, cwp_bind.
  eapply wp_remote; [apply rl_lock|]. intros s4 (E4 & B4 & C4 & I4). cbn [st_world st_cache st_info] in *.
  rewrite (proj1 (rl_lock _ _ _)). cbn [Z.eqb negb FhgfsOpsErr_SUCCESS]. apply cwp_bind, cwp_ret, cwp_ret, cwp_ret.
  split; [done|]. split_and!; try congruence. rewrite E4, E3. unfold fwrite, mlen. rewrite Nat2Z.id.
  destruct buf; [by rewrite app_nil_r|]. rewrite firstn_all, Nat.sub_diag, drop_ge, app_nil_r by lia. done.
Qed.

Lemma wp_writefileEx buf offset io s :
  offset = -1 \/ 0 <= offset -> mlen (fapply (content (st_world s)) offset buf) < 2 ^ 63 ->
  cwp (FhgfsOpsHelper_writefileEx buf offset io) s
    (fun r s' => r = mlen buf /\ remote s (fapply (content (st_world s)) offset buf) s').
Proof.
  unfold FhgfsOpsHelper_writefileEx, fapply. intros Ho Hl.
  destruct (Z.eqb_spec offset (-1)) as [->|Hne].
  - apply cwp_bind. eapply cwp_mono; [by apply wp_append|]. intros [r o] s' [Hr Hs]. by apply cwp_ret.
  - apply cwp_env. destruct (rl_write buf offset io (st_world s) ltac:(lia)) as (-> & E & B).
    split; [done|]. by split_and!.
Qed.

Lemma wp_writeStatelessInode buf offset s :
  offset = -1 \/ 0 <= offset -> mlen (fapply (content (st_world s)) offset buf) < 2 ^ 63 ->
  cwp (FhgfsOpsHelper_writeStatelessInode buf offset) s
    (fun r s' => r = mlen buf /\ remote s (fapply (content (st_world s)) offset buf) s').
Proof.
  intros Ho Hl. unfold FhgfsOpsHelper_writeStatelessInode. pose proof (mlen_nonneg buf).
  apply cwp_bind. eapply wp_remote; [apply rl_reference|]. intros s1 H1.
  pose proof (proj1 (rl_reference OPENFILE_ACCESS_WRITE (st_world s))) as E.
  destruct (fst (FhgfsInode_referenceHandle _ _)) as [res ht]. cbn [fst] in E. subst res.
  cbn [Z.eqb negb FhgfsOpsErr_SUCCESS]. apply cwp_bind. eapply wp_remote; [apply rl_ioinfo|]. intros s2 H2.
  pose proof (remote_trans _ _ _ _ _ H1 H2) as H12. destruct H12 as (E2 & _). rewrite (proj1 H1) in E2.
  apply cwp_bind. eapply cwp_mono; [apply wp_writefileEx; [done|by rewrite E2]|].
  intros r s3 [-> H3]. rewrite E2 in H3. apply cwp_bind. eapply wp_remote; [apply rl_release|]. intros s4 H4.
  rewrite (proj1 (rl_release _ _)). destruct (Z.ltb_spec (mlen buf) 0); [lia|]. cbn [Z.eqb negb FhgfsOpsErr_SUCCESS].
  apply cwp_ret. split; [done|]. rewrite (proj1 H3) in H4. eauto using remote_trans.
Qed.

(** ** Flushing *)

Definition emptied (base : Z) (F : mem) (s s' : St W) : Prop :=
  cache_inv base s' /\ cb_bufType (st_cache s') = FileBufferType_NONE /\ content (st_world s') = F /\
  st_info s' = st_info s.

Lemma wp_discard base s b :
  cb_buf (st_cache s) = Some b -> bufs (st_world s) = base + 1 -> mlen (content (st_world s)) < 2 ^ 63 ->
  cwp __FhgfsOpsHelper_discardCache s (fun _ s' => emptied base (content (st_world s)) s s').
Proof.
  intros Eb Hb Hl. unfold __FhgfsOpsHelper_discardCache, get_cache, set_cache. apply cwp_bind. cbn [cwp].
  apply cwp_bind. eapply cwp_lift; [by rewrite Eb|]. apply cwp_bind, cwp_env_, cwp_bind. cbn [cwp].
  apply cwp_env_. cbn [st_world st_cache st_info].
  destruct (rl_unref (NoAllocBufferStore_addBuf b (st_world s))) as [E1 B1].
  destruct (rl_add b (st_world s)) as [E2 B2].
  split_and!; cbn [st_world st_cache st_info cb_buf cb_bufType]; [|done|congruence|done].
  unfold cache_inv. cbn [st_world st_cache cb_buf cb_bufType]. split_and!; [lia|congruence|done].
Qed.

Lemma logical_fits base s : cache_inv base s -> mlen (content (st_world s)) < 2 ^ 63.
Proof. by intros (_ & ? & _). Qed.

Lemma wp_flush base discard s :
  cache_inv base s -> mlen (logical s) < 2 ^ 63 ->
  cwp (__FhgfsOpsHelper_flushCacheUnlocked discard) s
    (fun r s' => r = FhgfsOpsErr_SUCCESS /\ emptied base (logical s) s s').
Proof.
  intros Hinv Hl. pose proof Hinv as (Hb & HF & Hc). unfold __FhgfsOpsHelper_flushCacheUnlocked, get_cache.
  apply cwp_bind. cbn [cwp]. unfold logical in *. destruct (cb_bufType (st_cache s)) eqn:Et.
  - apply cwp_ret. by split_and!.
  - destruct Hc as (b & Eb & _). apply cwp_bind.
    eapply cwp_mono; [apply (wp_discard base s b); [done|by rewrite Eb in Hb|done]|]. intros ? s' H. by apply cwp_ret.
  - destruct Hc as (b & Eb & Hlen & Hu & Hm & Ho). rewrite Eb in *. set (d := slice b 0 _) in *.
    apply cwp_bind. eapply cwp_lift; [reflexivity|]. apply cwp_bind.
    eapply cwp_lift; [apply read_block_Done; lia|]. fold d. apply cwp_bind.
    assert (Hd : mlen d = cb_bufUsageLen (st_cache s)) by (apply mlen_slice; lia).
    eapply cwp_mono; [apply wp_writeStatelessInode; [lia|done]|]. intros r s1 [-> (E1 & B1 & C1 & I1)].
    rewrite Hd, s64_id by lia. destruct (Z.ltb_spec (cb_bufUsageLen (st_cache s)) (cb_bufUsageLen (st_cache s))); [lia|].
    apply cwp_bind. eapply cwp_mono; [apply (wp_discard base s1 b); [congruence|lia|by rewrite E1]|].
    intros ? s2 (H2 & T2 & E2 & I2). apply cwp_ret. split; [done|]. split_and!; congruence.
Qed.

(** ** Access with an empty cache *)

Lemma wp_copy_from_user b pos d s (Q : mem * bool -> St W -> Prop) :
  0 <= pos -> pos + mlen d <= mlen b ->
  (forall s', remote s (content (st_world s)) s' -> Q (put b pos d, true) s') ->
  cwp (copy_from_user b pos d) s Q.
Proof.
  intros Hp Hl HQ. unfold copy_from_user. apply cwp_bind. eapply wp_remote; [apply rl_copy|]. intros s' Hs.
  rewrite (proj1 (rl_copy _ _)). rewrite take_ge by (unfold mlen; lia). apply cwp_bind.
  eapply cwp_lift; [unfold write_block; by rewrite (proj2 (in_range_true _ _ _)) by (pose proof (mlen_nonneg d); lia)|].
  apply cwp_ret. rewrite Z.eqb_refl. by apply HQ.
Qed.

Lemma wp_copy_to_user d s (Q : mem * bool -> St W -> Prop) :
  (forall s', remote s (content (st_world s)) s' -> Q (d, true) s') -> cwp (copy_to_user d) s Q.
Proof.
  intros HQ. unfold copy_to_user. apply cwp_bind. eapply wp_remote; [apply rl_copy|]. intros s' Hs.
  rewrite (proj1 (rl_copy _ _)). rewrite take_ge by (unfold mlen; lia). apply cwp_ret. rewrite Z.eqb_refl. by apply HQ.
Qed.

(** What a write leaves. *)
Definition written (base : Z) (F' : mem) (n r : Z) (s' : St W) : Prop :=
  r = n /\ cache_inv base s' /\ logical s' = F'.

Lemma logical_none s : cb_bufType (st_cache s) = FileBufferType_NONE -> logical s = content (st_world s).
Proof. unfold logical. by intros ->. Qed.

Lemma inv_none base s :
  cache_inv base s -> cb_bufType (st_cache s) = FileBufferType_NONE ->
  cb_buf (st_cache s) = None /\ bufs (st_world s) = base.
Proof. intros (Hb & _ & Hc) Et. rewrite Et in Hc. rewrite Hc in Hb. split; [done|lia]. Qed.

Lemma none_inv base s :
  cb_bufType (st_cache s) = FileBufferType_NONE -> cb_buf (st_cache s) = None -> bufs (st_world s) = base ->
  mlen (content (st_world s)) < 2 ^ 63 -> cache_inv base s.
Proof. intros Et Eb B H. unfold cache_inv. rewrite Et, Eb. split_and!; [lia|done|done]. Qed.

Lemma wp_write_through base buf offset io s :
  cache_inv base s -> cb_bufType (st_cache s) = FileBufferType_NONE -> offset = -1 \/ 0 <= offset ->
  mlen (fapply (content (st_world s)) offset buf) < 2 ^ 63 ->
  cwp (FhgfsOpsHelper_writefileEx buf offset io) s
    (written base (fapply (content (st_world s)) offset buf) (mlen buf)).
Proof.
  intros Hi Et Ho Hl. destruct (inv_none _ _ Hi Et) as [Eb B].
  eapply cwp_mono; [by apply wp_writefileEx|]. intros r s' [-> (E & B' & C' & I')].
  split_and!; [done| |].
  - apply none_inv; [congruence..|by rewrite E].
  - rewrite logical_none by congruence. done.
Qed.

Lemma wp_writeCacheFlushed base buf offset io s :
  is_Some (pattern io) -> offset_ok offset (mlen buf) -> cache_inv base s ->
  cb_bufType (st_cache s) = FileBufferType_NONE -> mlen (fapply (content (st_world s)) offset buf) < 2 ^ 63 ->
  cwp (__FhgfsOpsHelper_writeCacheFlushed buf offset io) s
    (written base (fapply (content (st_world s)) offset buf) (mlen buf)).
Proof.
  intros [p Ep] Ho Hi Et Hl. pose proof (mlen_nonneg buf).
  assert (Ho' : offset = -1 \/ 0 <= offset) by (destruct Ho; [by left|right; tauto]).
  destruct (inv_none _ _ Hi Et) as [Eb B].
  unfold __FhgfsOpsHelper_writeCacheFlushed, get_info, get_cache. apply cwp_bind. cbn [cwp].
  destruct (_ || _); [by apply wp_write_through|].
  assert (exists maxCacheLen, maxCacheLen <= NoAllocBufferStore_getBufSize /\
    (if offset =? -1 then mret NoAllocBufferStore_getBufSize
     else p ← lift (of_option (pattern io));
          mret (Z.min (u64 (StripePattern_getChunkEnd p offset - offset + 1)) NoAllocBufferStore_getBufSize)) s =
      Done (maxCacheLen, s)) as (maxCacheLen & Hm & Em).
  { destruct (offset =? -1); [by eexists; split; [|reflexivity]|]. rewrite Ep.
    eexists. split; [|reflexivity]. lia. }
  apply cwp_bind. unfold cwp at 1. rewrite Em. clear Em.
  destruct (Z.leb_spec maxCacheLen (mlen buf)); [by apply wp_write_through|].
  apply cwp_bind. cbn [cwp]. apply cwp_bind, cwp_env.
  destruct (rl_instant (st_world s)) as [E1 H1]. set (w := snd (NoAllocBufferStore_instantBuf _)) in *.
  destruct (fst (NoAllocBufferStore_instantBuf _)) as [b|].
  2: { apply cwp_bind. unfold set_cache. cbn [cwp st_world st_info]. rewrite <- E1 in Hl |- *.
       apply (wp_write_through base buf offset io (mkSt w _ _)); [|done|done|done].
       apply none_inv; cbn [st_world st_cache cb_buf cb_bufType]; [done|done|congruence|].
       rewrite E1. eauto using logical_fits. }
  destruct H1 as [Hb B1]. apply cwp_bind, wp_copy_from_user; [lia|lia|].
  intros s2 (E2 & B2 & C2 & I2). cbn [st_world st_cache st_info] in *. cbn [negb].
  apply cwp_bind. unfold set_cache. cbn [cwp]. apply cwp_bind, cwp_env_, cwp_ret. cbn [st_world st_cache st_info].
  destruct (rl_ref (st_world s2)) as [E3 B3].
  assert (Es : slice (put b 0 buf) 0 (mlen buf) = buf) by (apply slice_put; lia).
  split_and!; [done| |].
  - unfold cache_inv. cbn [st_world st_cache cb_buf cb_bufType cb_bufUsageLen cb_bufUsageMaxLen cb_fileOffset].
    split_and!; [lia|rewrite E3, E2, E1; eauto using logical_fits|].
    exists (put b 0 buf). split_and!; [done|rewrite mlen_put; lia|lia..|]. destruct Ho; [by left|right; lia].
  - unfold logical. cbn [st_world st_cache cb_buf cb_bufType cb_bufUsageLen cb_fileOffset].
    by rewrite Es, E3, E2, E1.
Qed.

(** What a read leaves. *)
Definition was_read (base : Z) (F : mem) (offset size : Z) (r : Z * mem) (s' : St W) : Prop :=
  r = (mlen (fread F offset size), fread F offset size) /\ cache_inv base s' /\ logical s' = F.

Lemma wp_read_through base size offset io s :
  cache_inv base s -> cb_bufType (st_cache s) = FileBufferType_NONE -> 0 <= offset -> 0 <= size ->
  cwp (env (FhgfsOpsRemoting_readfile size offset io)) s
    (was_read base (content (st_world s)) offset size).
Proof.
  intros Hi Et Ho Hs. destruct (inv_none _ _ Hi Et) as [Eb B].
  destruct (rl_read size offset io (st_world s) Hs Ho) as [E1 Hsame].
  eapply wp_remote; [done|]. intros s' (E & B' & C' & I'). rewrite E1. split_and!; [done| |].
  - apply none_inv; [congruence..|rewrite E; eauto using logical_fits].
  - rewrite logical_none by congruence. done.
Qed.

Lemma wp_readCacheFlushed base size offset io s :
  is_Some (pattern io) -> 0 <= offset -> 0 <= size -> cache_inv base s ->
  cb_bufType (st_cache s) = FileBufferType_NONE ->
  cwp (__FhgfsOpsHelper_readCacheFlushed size offset io) s
    (was_read base (content (st_world s)) offset size).
Proof.
  intros [p Ep] Ho Hs Hi Et. destruct (inv_none _ _ Hi Et) as [Eb B]. pose proof (logical_fits _ _ Hi) as HF.
  unfold __FhgfsOpsHelper_readCacheFlushed, get_info, get_cache. apply cwp_bind. cbn [cwp].
  apply cwp_bind. eapply (cwp_mono _ _ (fun _ s' => remote s (content (st_world s)) s')).
  { destruct (_ || _); [by apply cwp_ret; split_and!|]. apply cwp_bind.
    eapply wp_remote; [apply rl_multiple|]. intros s' Hs'. by apply cwp_ret. }
  intros cached s1 (E1 & B1 & C1 & I1).
  assert (Hi1 : cache_inv base s1) by (apply none_inv; congruence).
  assert (Et1 : cb_bufType (st_cache s1) = FileBufferType_NONE) by congruence.
  rewrite <- E1. destruct (negb cached); [by apply wp_read_through|].
  apply cwp_bind. eapply cwp_lift; [by rewrite Ep|].
  destruct (Z.leb_spec (Z.min (u64 (StripePattern_getChunkEnd p offset - offset + 1)) NoAllocBufferStore_getBufSize) size) as [|Hm];
    [by apply wp_read_through|].
  set (chunk := Z.min _ _) in *. apply cwp_bind. cbn [cwp]. apply cwp_bind, cwp_env.
  destruct (rl_instant (st_world s1)) as [E2 H2]. set (w := snd (NoAllocBufferStore_instantBuf _)) in *.
  destruct (fst (NoAllocBufferStore_instantBuf _)) as [b|].
  2: { apply cwp_bind. unfold set_cache. cbn [cwp st_world st_info]. rewrite <- E2.
       apply (wp_read_through base size offset io (mkSt w _ _)); [|done|done|done].
       apply none_inv; cbn [st_world st_cache cb_buf cb_bufType]; [done|done|congruence|congruence]. }
  destruct H2 as [Hb B2].
  set (maxCacheLen := if (offset =? 0) && (size <? FSFILEINFO_CACHE_SLOWSTART_READLEN) then _ else _).
  assert (Hmax : size < maxCacheLen <= mlen b).
  { unfold maxCacheLen. destruct (Z.eqb_spec offset 0); [destruct (Z.ltb_spec size FSFILEINFO_CACHE_SLOWSTART_READLEN)|];
      cbn [andb]; lia. }
  destruct (rl_read maxCacheLen offset io w ltac:(lia) Ho) as [E3 Hsame].
  apply cwp_bind. eapply wp_remote; [done|]. cbn [st_world]. rewrite E3. rewrite E2, E1 in *.
  set (F := content (st_world s)) in *. set (d := fread F offset maxCacheLen) in *.
  assert (Hd : mlen d = Z.max 0 (Z.min maxCacheLen (mlen F - offset))) by (apply mlen_fread; lia).
  intros s3 (E4 & B4 & C4 & I4). cbn [st_world st_cache st_info] in *.
  apply cwp_bind. eapply cwp_lift; [unfold write_block; by rewrite (proj2 (in_range_true _ _ _)) by lia|].
  assert (Es : slice (put b 0 d) 0 (mlen d) = d) by (apply slice_put; lia).
  destruct (Z.leb_spec (mlen d) 0).
  - assert (Hnil : fread F offset size = []).
    { apply nil_length_inv. pose proof (mlen_fread F offset size ltac:(lia) ltac:(lia)). unfold mlen in *. lia. }
    apply cwp_bind. unfold set_cache. cbn [cwp]. apply cwp_bind.
    eapply cwp_mono; [eapply (wp_discard base); cbn; [reflexivity|lia|by rewrite E4]|].
    cbn [st_world]. intros ? s5 (H5 & T5 & E5 & I5). apply cwp_ret. unfold was_read. rewrite Hnil.
    split_and!; [rewrite mlen_nil; do 2 f_equal; lia|done|]. rewrite logical_none by done. congruence.
  - apply cwp_bind. eapply cwp_lift; [apply read_block_Done; rewrite ?mlen_put by lia; lia|].
    assert (Epart : slice (put b 0 d) 0 (Z.min size (mlen d)) = fread F offset size).
    { rewrite (slice_prefix _ _ (mlen d)), Es by lia. unfold d at 1. unfold fread at 1. rewrite slice_slice, Z.add_0_r by lia.
      destruct (decide (size <= mlen d)); [by rewrite Z.min_l by lia|]. rewrite Z.min_r by lia.
      transitivity (fread F offset (Z.max 0 (mlen F - offset))); [unfold fread; f_equal; lia|].
      symmetry. apply fread_all; lia. }
    rewrite Epart. apply cwp_bind, wp_copy_to_user. intros s5 (E5 & B5 & C5 & I5). cbn [negb].
    apply cwp_bind. unfold set_cache. cbn [cwp]. apply cwp_bind, cwp_env_, cwp_ret. cbn [st_world st_cache st_info].
    destruct (rl_ref (st_world s5)) as [E6 B6].
    assert (Ec : content (InodeRefStore_addAndReferenceInode (st_world s5)) = F) by congruence.
    split_and!.
    + f_equal. rewrite mlen_fread by lia. lia.
    + unfold cache_inv. cbn [st_world st_cache cb_buf cb_bufType cb_bufUsageLen cb_bufUsageMaxLen cb_fileOffset].
      rewrite Ec. split_and!; [lia|done|].
      exists (put b 0 d). split_and!; [done|rewrite mlen_put; lia|lia..|].
      rewrite Es. change (slice F offset (mlen d)) with (fread F offset (mlen d)). unfold d at 1.
      rewrite Hd. destruct (decide (maxCacheLen <= mlen F - offset)); [f_equal; lia|].
      rewrite fread_all by lia. f_equal. lia.
    + done.
Qed.

(** ** Buffered access *)

Lemma fapply_longer F o d : o = -1 \/ 0 <= o -> mlen F <= mlen (fapply F o d).
Proof.
  intros Ho. unfold fapply. destruct (Z.eqb_spec o (-1)); [rewrite mlen_app; pose proof (mlen_nonneg d); lia|].
  destruct d; [done|]. rewrite mlen_fwrite by (done || lia). lia.
Qed.

Lemma wp_flushed {A} base (next : C W A) fail s (Q : A -> St W -> Prop) :
  cache_inv base s -> mlen (logical s) < 2 ^ 63 ->
  (forall s', emptied base (logical s) s s' -> cwp next s' Q) -> cwp (flushed next fail) s Q.
Proof.
  intros Hi Hl Hn. unfold flushed. apply cwp_bind. eapply cwp_mono; [by apply (wp_flush base)|].
  intros r s' [-> Hs]. cbn. by apply Hn.
Qed.

Lemma wp_writeCached base buf offset io s :
  is_Some (pattern io) -> offset_ok offset (mlen buf) -> cache_inv base s ->
  mlen (fapply (logical s) offset buf) < 2 ^ 63 ->
  cwp (writeCached_locked buf offset io) s (written base (fapply (logical s) offset buf) (mlen buf)).
Proof.
  intros Hp Ho Hi Hl. pose proof Hi as (Hb & HF & Hc). pose proof (mlen_nonneg buf).
  assert (Ho' : offset = -1 \/ 0 <= offset) by (destruct Ho; [by left|right; tauto]).
  pose proof (fapply_longer (logical s) offset buf Ho').
  unfold writeCached_locked, get_cache, get_info, upd_info. apply cwp_bind. cbn [cwp].
  destruct (cb_bufType (st_cache s)) eqn:Et.
  - apply cwp_bind. cbn [cwp]. apply cwp_bind. cbn [cwp]. rewrite (logical_none _ Et) in *.
    by apply (wp_writeCacheFlushed base buf offset io (mkSt (st_world s) (st_cache s) _)).
  - destruct Hc as (b & Eb & _). apply cwp_bind. cbn [cwp]. apply cwp_bind.
    eapply cwp_mono; [apply (wp_discard base _ b); cbn [st_world st_cache]; [done|by rewrite Eb in Hb|done]|].
    cbn [st_world st_cache]. intros ? s1 (H1 & T1 & E1 & _).
    assert (logical s = content (st_world s)) as E by (unfold logical; by rewrite Et). rewrite E in *.
    rewrite <- E1. apply wp_writeCacheFlushed; [done..|congruence].
  - destruct Hc as (b & Eb & Hlen & Hu & Hm & Hfo). rewrite Eb in Hb. set (c := st_cache s) in *.
    set (d := slice b 0 (cb_bufUsageLen c)).
    assert (Hd : mlen d = cb_bufUsageLen c) by (apply mlen_slice; lia).
    assert (El : logical s = fapply (content (st_world s)) (cb_fileOffset c) d) by (unfold logical; fold c; by rewrite Et, Eb).
    rewrite (u64_id (cb_bufUsageMaxLen c - cb_bufUsageLen c)), (s64_id (_ + _)) by lia.
    destruct (_ || _) eqn:Efit.
    + apply cwp_bind. cbn [cwp]. apply (wp_flushed base); [done|change (mlen (logical s) < 2 ^ 63); lia|].
      cbn [st_cache st_world]. intros s1 (H1 & T1 & E1 & _).
      assert (content (st_world s1) = logical s) as E by (rewrite E1; reflexivity). rewrite <- E.
      apply wp_writeCacheFlushed; [done..|congruence].
    + apply orb_false_iff in Efit as [Efit Hsz]. apply orb_false_iff in Efit as [Ek Eo].
      apply negb_false_iff, eqb_prop in Ek. apply Z.ltb_ge in Hsz.
      apply cwp_bind. cbn [cwp]. apply cwp_bind. eapply cwp_lift; [by rewrite Eb|].
      apply cwp_bind, wp_copy_from_user; [lia..|]. cbn [st_world]. intros s1 (E1 & B1 & C1 & I1).
      cbn [st_world st_cache st_info negb] in *. rewrite (u64_id (cb_bufUsageLen c + mlen buf)) by lia. set (used := cb_bufUsageLen c + mlen buf).
      assert (Es : slice (put b (cb_bufUsageLen c) buf) 0 used = d ++ buf) by (apply put_slice_next; lia).
      set (s2 := mkSt (st_world s1) (mkCB (Some (put b (cb_bufUsageLen c) buf)) used (cb_bufUsageMaxLen c)
        (cb_fileOffset c) FileBufferType_WRITE) (st_info s1)).
      assert (Hlog : logical s2 = fapply (logical s) offset buf).
      { unfold logical at 1. cbn [s2 st_world st_cache cb_buf cb_bufType cb_bufUsageLen cb_fileOffset].
        rewrite Es, El, E1. unfold fapply. rewrite <- Ek.
        destruct (Z.eqb_spec offset (-1)) as [->|Hne]; [by rewrite app_assoc|].
        cbn [negb andb] in Eo. apply negb_false_iff, Z.eqb_eq in Eo. rewrite Eo, <- Hd. rewrite fwrite_app; [done|].
        destruct (Z.eqb_spec (cb_fileOffset c) (-1)); [done|lia]. }
      assert (Hi2 : cache_inv base s2).
      { unfold cache_inv. cbn [s2 st_world st_cache cb_buf cb_bufType cb_bufUsageLen cb_bufUsageMaxLen cb_fileOffset].
        split_and!; [lia|by rewrite E1|]. eexists. split_and!; [done|rewrite mlen_put; lia|unfold used; lia..|].
        destruct (Z.eqb_spec offset (-1)) as [->|Hne]; [symmetry in Ek; apply Z.eqb_eq in Ek; by left|].
        cbn [negb andb] in Eo. apply negb_false_iff, Z.eqb_eq in Eo. symmetry in Ek. apply Z.eqb_neq in Ek.
        right. unfold used. destruct Ho; [done|]. lia. }
      apply cwp_bind. unfold set_cache. cbn [cwp]. fold s2.
      destruct (_ =? 0).
      * apply (wp_flushed base); [exact Hi2|by rewrite Hlog|]. rewrite Hlog. intros s3 (H3 & T3 & E3 & _). apply cwp_ret.
        split_and!; [done|done|]. by rewrite logical_none.
      * apply cwp_ret. by split_and!.
Qed.

Lemma fread_split F o a n : 0 <= o -> 0 <= a <= n -> fread F o n = fread F o a ++ fread F (o + a) (n - a).
Proof. intros. unfold fread. rewrite <- slice_add by lia. f_equal. lia. Qed.

Lemma fread_full F o n : 0 <= o -> 0 <= n -> o + n <= mlen F -> mlen (fread F o n) = n.
Proof. intros. rewrite mlen_fread; lia. Qed.

Lemma wp_read_overlap base b size offset io s :
  let c := st_cache s in let F := content (st_world s) in
  is_Some (pattern io) -> 0 <= offset -> 0 <= size -> offset + size < 2 ^ 63 -> cache_inv base s ->
  cb_bufType c = FileBufferType_READ -> cb_buf c = Some b ->
  offset <= cb_fileOffset c + cb_bufUsageLen c - 1 -> cb_fileOffset c <= offset + size - 1 ->
  cwp (read_overlap b c size offset io) s (was_read base F offset size).
Proof.
  intros c F Hp Ho Hs Hos Hi Et Eb Hlo Hhi. pose proof Hi as (HB & HF & Hc). fold c F in HB, HF, Hc.
  rewrite Et in Hc. destruct Hc as (b' & Eb' & Hlen & Hfo & Hu & Hend & Hsl). rewrite Eb in Eb', HB. injection Eb' as <-.
  set (fo := cb_fileOffset c) in *. set (u := cb_bufUsageLen c) in *.
  unfold read_overlap. fold fo u. rewrite !s64_id by lia. rewrite (u64_id (fo + u)), (u64_id (offset + size)) by lia.
  set (remote_size := if offset <? fo then fo - offset else 0).
  set (start := Z.max offset fo). set (stop := Z.min (fo + u) (offset + size)).
  assert (Hr : remote_size = start - offset) by (unfold remote_size, start; destruct (Z.ltb_spec offset fo); lia).
  apply cwp_bind. eapply (cwp_mono _ _ (fun r s' => r = (remote_size, fread F offset remote_size) /\ remote s F s')).
  { unfold remote_size in *. destruct (Z.ltb_spec offset fo).
    - destruct (rl_read (fo - offset) offset io (st_world s) ltac:(lia) Ho) as [E Hsame].
      eapply wp_remote; [done|]. intros s' Hs'. rewrite E. fold F. rewrite fread_full by lia. done.
    - apply cwp_ret. split; [done|by split_and!]. }
  intros [r data] s1 [[= -> ->] (E1 & B1 & C1 & I1)].
  rewrite Z.ltb_irrefl, andb_false_r.
  assert (Eoff : (if offset <=? fo then 0 else offset - fo) = start - fo)
    by (unfold start; destruct (Z.leb_spec offset fo); lia).
  rewrite Eoff. replace (fo + (start - fo)) with start by lia. rewrite (u64_id (stop - start)) by lia.
  assert (Hpart : slice b (start - fo) (stop - start) = fread F start (stop - start)).
  { replace (slice b (start - fo) (stop - start)) with (slice (slice b 0 u) (start - fo) (stop - start))
      by (rewrite slice_slice by lia; f_equal; lia).
    rewrite Hsl, slice_slice by lia. unfold fread. f_equal. lia. }
  apply cwp_bind. eapply cwp_lift; [apply read_block_Done; lia|]. rewrite Hpart.
  apply cwp_bind, wp_copy_to_user. intros s2 (E2 & B2 & C2 & I2). cbn [negb].
  assert (Hdata : fread F offset remote_size ++ fread F start (stop - start) = fread F offset (stop - offset)).
  { rewrite (fread_split F offset remote_size (stop - offset)) by lia. do 2 f_equal; lia. }
  destruct (Z.ltb_spec (fo + u - 1) (offset + size - 1)) as [Hmore|Hdone].
  - apply cwp_bind. eapply cwp_mono; [apply (wp_discard base s2 b); [by rewrite C2, C1|lia|by rewrite E2, E1]|].
    intros ? s3 (H3 & T3 & E3 & _). apply cwp_bind. rewrite (u64_id (_ - _)) by lia.
    eapply cwp_mono; [apply (wp_readCacheFlushed base); [done|lia|lia|done..]|].
    assert (content (st_world s3) = F) as -> by congruence.
    intros [r rest] s4 ([= -> ->] & H4 & L4).
    set (rest := fread F _ _). pose proof (mlen_nonneg rest).
    destruct (Z.ltb_spec (mlen rest) 0); [lia|]. apply cwp_ret.
    assert (Erest : fread F offset (stop - offset) ++ rest = fread F offset size).
    { rewrite (fread_split F offset (stop - offset) size) by lia. unfold rest. do 2 f_equal; lia. }
    rewrite app_assoc, Hdata, Erest. split_and!; [|done|done]. f_equal. rewrite <- Erest, mlen_app, fread_full by lia.
    assert (mlen rest <= size - (stop - offset)).
    { unfold rest. rewrite mlen_fread by lia. lia. }
    rewrite s64_id by lia. lia.
  - apply cwp_ret. rewrite Hdata. assert (stop - offset = size) as -> by lia. split_and!.
    + f_equal. rewrite fread_full by lia. done.
    + unfold cache_inv. rewrite E2, B2, C2, E1, B1, C1. fold c F fo u. rewrite Et, Eb. split_and!; [lia|done|].
      exists b. split_and!; done || lia.
    + unfold logical. rewrite E2, C2, E1, C1. fold c. by rewrite Et.
Qed.

Lemma wp_readCached_exclusive base size offset io s :
  is_Some (pattern io) -> 0 <= offset -> 0 <= size -> offset + size < 2 ^ 63 -> cache_inv base s ->
  mlen (logical s) < 2 ^ 63 ->
  cwp (readCached_exclusive size offset io) s (was_read base (logical s) offset size).
Proof.
  intros Hp Ho Hs Hos Hi Hl. pose proof Hi as (HB & HF & Hc).
  assert (Hflush : forall s1, s1 = mkSt (st_world s) (st_cache s) (FsFileInfo_decCacheHits (st_info s)) ->
    cwp (flushed (__FhgfsOpsHelper_readCacheFlushed size offset io) (fun e => (e, []))) s1
      (was_read base (logical s) offset size)).
  { intros s1 ->. apply (wp_flushed base); [done|done|]. intros s2 (H2 & T2 & E2 & _).
    assert (content (st_world s2) = logical s) as E by (rewrite E2; done). rewrite <- E.
    by apply wp_readCacheFlushed. }
  unfold readCached_exclusive, get_cache, get_info, upd_info. apply cwp_bind. cbn [cwp].
  destruct (cb_bufType (st_cache s)) eqn:Et.
  - apply cwp_bind. cbn [cwp]. apply cwp_bind. cbn [cwp]. rewrite (logical_none _ Et).
    by apply (wp_readCacheFlushed base size offset io (mkSt (st_world s) (st_cache s) _)).
  - destruct Hc as (b & Eb & Hlen & Hfo & Hu & Hend & Hsl).
    rewrite (s64_id (cb_fileOffset _ + _ - 1)), (s64_id (offset + _ - 1)) by lia.
    destruct (_ || _) eqn:Ev; [apply cwp_bind; cbn [cwp]; by apply Hflush|].
    apply orb_false_iff in Ev as [E1%Z.ltb_ge E2%Z.ltb_ge].
    apply cwp_bind. cbn [cwp]. apply cwp_bind. eapply cwp_lift; [by rewrite Eb|].
    assert (logical s = content (st_world s)) as -> by (unfold logical; by rewrite Et).
    apply (wp_read_overlap base b size offset io (mkSt (st_world s) (st_cache s) _)); cbn [st_cache]; done || lia.
  - apply cwp_bind. cbn [cwp]. by apply Hflush.
Qed.

Lemma wp_readCached_shared base size offset io s :
  0 <= offset -> 0 <= size -> cache_inv base s ->
  cwp (readCached_shared size offset io) s
    (fun r s' => match r with
                 | Some r => was_read base (logical s) offset size r s'
                 | None => cache_inv base s' /\ logical s' = logical s
                 end).
Proof.
  intros Ho Hs Hi. unfold readCached_shared, get_info, get_cache. apply cwp_bind. cbn [cwp]. apply cwp_bind.
  eapply wp_remote; [apply rl_multiple|]. intros s1 (E1 & B1 & C1 & I1).
  assert (Hi1 : cache_inv base s1) by (unfold cache_inv in *; by rewrite E1, B1, C1).
  assert (El : logical s1 = logical s) by (unfold logical; by rewrite E1, C1).
  destruct (_ || _); [|by apply cwp_ret]. apply cwp_bind. cbn [cwp].
  destruct (cb_bufType (st_cache s1)) eqn:Et; [|by apply cwp_ret..].
  apply cwp_bind. rewrite <- El, (logical_none _ Et).
  eapply cwp_mono; [by apply (wp_read_through base)|]. intros r s2 H2. by apply cwp_ret.
Qed.
End Refinement.
