(* ===== verification/FileCacheProps.v ===== *)
(** * Buffered file access: theorems

    Any interleaving of reads, writes and flushes through the buffer is the same sequence
    of accesses to a file; what a short write of the servers and a small buffer do. *)

From S2P Require Import Prelude Serialization StripePattern StorageErrors MessagingTk Remoting FhgfsOpsHelper.
From S2P Require Import FileCache FileCacheInv.

(** ** Sequences of accesses

    What one hold of the lock does; processes and open files, each with an [FsFileInfo]
    of its own, take turns in any order. *)

Inductive CacheOp :=
  | OpWrite (info : FsFileInfo) (buf : mem) (offset : Z) (ioInfo : RemotingIOInfo)
  | OpReadShared (info : FsFileInfo) (size offset : Z) (ioInfo : RemotingIOInfo)
  | OpReadExclusive (info : FsFileInfo) (size offset : Z) (ioInfo : RemotingIOInfo)
  | OpFlush (discardCacheOnError : bool)
  | OpFlushNoWait (discardCacheOnError : bool).

(** [ResAgain]: the fast path of a read does not apply. *)
Inductive CacheRes :=
  | ResWrite (r : Z)
  | ResRead (r : Z) (data : mem)
  | ResAgain
  | ResFlush (r : Z).

Definition with_info {W A} (info : FsFileInfo) (m : C W A) : C W A := fun s => m (mkSt (st_world s) (st_cache s) info).

Definition run_op {W} `{!CacheEnv W} (op : CacheOp) : C W CacheRes :=
  match op with
  | OpWrite info buf offset io => r ← with_info info (writeCached_locked buf offset io); mret (ResWrite r)
  | OpReadShared info size offset io =>
      r ← with_info info (readCached_shared size offset io);
      mret (match r with Some (r, d) => ResRead r d | None => ResAgain end)
  | OpReadExclusive info size offset io =>
      '(r, d) ← with_info info (readCached_exclusive size offset io); mret (ResRead r d)
  | OpFlush discard => r ← FhgfsOpsHelper_flushCache discard; mret (ResFlush r)
  | OpFlushNoWait discard => r ← FhgfsOpsHelper_flushCacheNoWait discard; mret (ResFlush r)
  end.

Fixpoint run_ops {W} `{!CacheEnv W} (ops : list CacheOp) : C W (list CacheRes) :=
  match ops with
  | [] => mret []
  | op :: ops => r ← run_op op; rs ← run_ops ops; mret (r :: rs)
  end.

(** The same on a file without a buffer. *)
Definition spec_file (op : CacheOp) (F : mem) : mem :=
  match op with OpWrite _ buf offset _ => fapply F offset buf | _ => F end.

Definition spec_res (op : CacheOp) (F : mem) (r : CacheRes) : Prop :=
  match op with
  | OpWrite _ buf _ _ => r = ResWrite (mlen buf)
  | OpReadShared _ size offset _ => r = ResRead (mlen (fread F offset size)) (fread F offset size) \/ r = ResAgain
  | OpReadExclusive _ size offset _ => r = ResRead (mlen (fread F offset size)) (fread F offset size)
  | OpFlush _ => r = ResFlush FhgfsOpsErr_SUCCESS
  | OpFlushNoWait _ => r = ResFlush FhgfsOpsErr_SUCCESS \/ r = ResFlush FhgfsOpsErr_INUSE
  end.

Fixpoint spec_run (ops : list CacheOp) (F : mem) (rs : list CacheRes) (F' : mem) : Prop :=
  match ops, rs with
  | [], [] => F' = F
  | op :: ops, r :: rs => spec_res op F r /\ spec_run ops (spec_file op F) rs F'
  | _, _ => False
  end.

(** Files and positions are below [2^63]. *)
Definition op_ok (F : mem) (op : CacheOp) : Prop :=
  match op with
  | OpWrite _ buf offset io =>
      is_Some (pattern io) /\ offset_ok offset (mlen buf) /\ mlen (fapply F offset buf) < 2 ^ 63
  | OpReadShared _ size offset io | OpReadExclusive _ size offset io =>
      is_Some (pattern io) /\ 0 <= offset /\ 0 <= size /\ offset + size < 2 ^ 63
  | _ => True
  end.

Fixpoint ops_ok (F : mem) (ops : list CacheOp) : Prop :=
  match ops with
  | [] => True
  | op :: ops => op_ok F op /\ ops_ok (spec_file op F) ops
  end.

Definition is_flush (op : CacheOp) : bool := match op with OpFlush _ => true | _ => false end.

Section Refines.
Context {W : Type} `{!CacheEnv W} `{!ReliableFile W}.
Context (Hbuf : FSFILEINFO_CACHE_SLOWSTART_READLEN <= NoAllocBufferStore_getBufSize < 2 ^ 63).

Lemma inv_info base s i : cache_inv base s -> cache_inv base (mkSt (st_world s) (st_cache s) i).
Proof. done. Qed.

Lemma wp_op base op s :
  cache_inv base s -> mlen (logical s) < 2 ^ 63 -> op_ok (logical s) op ->
  cwp (run_op op) s (fun r s' => spec_res op (logical s) r /\ cache_inv base s' /\
    logical s' = spec_file op (logical s) /\ mlen (logical s') < 2 ^ 63 /\
    (is_flush op = true -> content (st_world s') = logical s')).
Proof.
  intros Hi Hl Hok.
  destruct op as [info buf offset io|info size offset io|info size offset io|discard|discard]; cbn [run_op op_ok spec_res spec_file] in *.
  - destruct Hok as (Hp & Ho & Hf). apply cwp_bind.
    eapply cwp_mono; [by apply (wp_writeCached Hbuf base buf offset io (mkSt (st_world s) (st_cache s) info))|].
    intros r s' (-> & H' & L'). apply cwp_ret. change (logical (mkSt _ _ _)) with (logical s) in L'. rewrite L'. by split_and!.
  - destruct Hok as (Hp & Ho & Hs & Hos). apply cwp_bind.
    eapply cwp_mono; [by apply (wp_readCached_shared base size offset io (mkSt (st_world s) (st_cache s) info))|].
    intros [r|] s'; [intros (-> & H' & L')|intros (H' & L')]; apply cwp_ret;
      change (logical (mkSt _ _ _)) with (logical s) in *; rewrite L'; split_and!; auto; done.
  - destruct Hok as (Hp & Ho & Hs & Hos). apply cwp_bind.
    eapply cwp_mono; [by apply (wp_readCached_exclusive Hbuf base size offset io (mkSt (st_world s) (st_cache s) info))|].
    intros r s' (-> & H' & L'). apply cwp_ret. change (logical (mkSt _ _ _)) with (logical s) in *. rewrite L'. by split_and!.
  - apply cwp_bind. eapply cwp_mono; [by apply (wp_flush Hbuf base)|].
    intros r s' (-> & H' & T' & E' & _). apply cwp_ret. rewrite (logical_none _ T'), E'. by split_and!.
  - unfold FhgfsOpsHelper_flushCacheNoWait. apply cwp_bind, cwp_bind.
    eapply wp_remote; [apply rl_trylock|]. intros s1 (E1 & B1 & C1 & I1).
    assert (Hi1 : cache_inv base s1) by (unfold cache_inv in *; by rewrite E1, B1, C1).
    assert (El : logical s1 = logical s) by (unfold logical; by rewrite E1, C1).
    destruct (fst (fileCacheExclusiveTryLock _)).
    + eapply cwp_mono; [apply (wp_flush Hbuf base); [done|by rewrite El]|].
      intros r s' (-> & H' & T' & E' & _). apply cwp_ret. rewrite (logical_none _ T'), E', El. split_and!; auto; done.
    + apply cwp_ret, cwp_ret. rewrite El. split_and!; auto; done.
Qed.

(** C16: the cache buffer is transparent.  Let the cache buffers have at least 64 KiB
    ([Hbuf]; [slow_start_overrun] shows what a smaller [tuneFileCacheBufSize] does).  With
    servers that do as they are asked, and accesses that stay within offsets of 63 bits
    ([ops_ok]), any sequence of locked accesses -- writes and appends, reads on the fast path and with
    the exclusive lock, flushes, by any number of open files with any hit counters -- ends
    without fault and returns what the same sequence of accesses to a plain file returns;
    what the user sees afterwards is that file.  The number of buffers taken stays right,
    and after a flush the servers have everything. *)
Theorem cache_refines_file (base : Z) (ops : list CacheOp) (s : St W) :
  cache_inv base s -> mlen (logical s) < 2 ^ 63 -> ops_ok (logical s) ops ->
  exists rs s', run_ops ops s = Done (rs, s') /\ spec_run ops (logical s) rs (logical s') /\ cache_inv base s' /\
    (forall op, last ops = Some op -> is_flush op = true -> content (st_world s') = logical s').
Proof.
  revert s. induction ops as [|op ops IH]; intros s Hi Hl Hok.
  { exists [], s. by split_and!. }
  destruct Hok as [Hop Hok]. pose proof (wp_op base op s Hi Hl Hop) as H1. unfold cwp in H1.
  cbn [run_ops]. unfold mbind at 1, C_bind at 1. destruct (run_op op s) as [[r s1]|]; [|done].
  destruct H1 as (Hr & H1 & L1 & Hl1 & Hf). rewrite <- L1 in Hok.
  destruct (IH s1 H1 Hl1 Hok) as (rs & s2 & E2 & Hrun & H2 & Hlast).
  exists (r :: rs), s2. unfold mbind, C_bind. rewrite E2. split; [done|]. rewrite L1 in Hrun. split; [by split|]. split; [done|].
  intros op' Hop' Hfl. destruct ops as [|op2 ops]; [|by apply (Hlast op')].
  cbn in Hop'. injection Hop' as <-. unfold mret, C_ret in E2. cbn in E2. injection E2 as _ <-. by apply Hf.
Qed.
End Refines.

(** ** Short writes *)

Section Short.
Context {W : Type} `{!CacheEnv W}.

(** Remote calls leave the cache alone, whatever the servers do. *)
Definition keeps {A} (m : C W A) : Prop := forall s a s', m s = Done (a, s') -> st_cache s' = st_cache s.

Lemma keeps_cache_ret {A} (a : A) : keeps (mret a).
Proof. by intros s a' s' [= _ <-]. Qed.

Lemma keeps_cache_bind {A B} (m : C W A) (f : A -> C W B) : keeps m -> (forall a, keeps (f a)) -> keeps (m ≫= f).
Proof.
  intros Hm Hf s b s'. unfold mbind, C_bind. destruct (m s) as [[a s1]|] eqn:E; [|done].
  intros Ef. by rewrite (Hf _ _ _ _ Ef), (Hm _ _ _ E).
Qed.

Lemma keeps_cache_env {A} (f : W -> A * W) : keeps (env f).
Proof. intros s a s'. unfold env. destruct (f (st_world s)). by intros [= _ <-]. Qed.

Lemma keeps_append_loop data size r io : keeps (append_loop data size r io).
Proof.
  revert size r. induction data as [|d data IH]; intros size r; cbn [append_loop]; [apply keeps_cache_ret|].
  apply keeps_cache_bind; [apply keeps_cache_env|]. intros n. destruct (n <? 0); [apply keeps_cache_ret|apply IH].
Qed.

Lemma keeps_writeStatelessInode buf offset : keeps (FhgfsOpsHelper_writeStatelessInode buf offset).
Proof.
  unfold FhgfsOpsHelper_writeStatelessInode, FhgfsOpsHelper_writefileEx, FhgfsOpsHelper_appendfile,
    FhgfsOpsHelper_appendfileVecOffset, FhgfsOpsHelper_getAppendLock, FhgfsOpsHelper_releaseAppendLock, env_.
  repeat (first [apply keeps_cache_ret | apply keeps_cache_env | apply keeps_append_loop
                | apply keeps_cache_bind; [|intros ?; cbv beta] | case_match]).
Qed.

(** A short write loses data or repeats it.  When the servers take only [k] of the
    buffered bytes, a flush leaves the cache as it is.  With [k = 0] it nevertheless
    reports success, so that a caller which goes on to fill the cache overwrites it;
    with [k > 0] it reports that there is no space, and the next flush sends the whole
    buffer again -- which, for data to be appended, puts the first [k] bytes into the
    file twice. *)
Theorem flush_short_write (s s1 : St W) (b : mem) (k : Z) :
  let c := st_cache s in
  cb_bufType c = FileBufferType_WRITE -> cb_buf c = Some b -> 0 <= cb_bufUsageLen c <= mlen b ->
  cb_bufUsageLen c < 2 ^ 63 -> 0 <= k < cb_bufUsageLen c ->
  FhgfsOpsHelper_writeStatelessInode (slice b 0 (cb_bufUsageLen c)) (cb_fileOffset c) s = Done (k, s1) ->
  FhgfsOpsHelper_flushCache false s =
    Done (if 0 <? k then FhgfsOpsErr_NOSPACE else FhgfsOpsErr_SUCCESS, s1) /\
  st_cache s1 = st_cache s /\
  forall s2, FhgfsOpsHelper_writeStatelessInode (slice b 0 (cb_bufUsageLen c)) (cb_fileOffset c) s1 =
      Done (cb_bufUsageLen c, s2) ->
    exists s3, FhgfsOpsHelper_flushCache false s1 = Done (FhgfsOpsErr_SUCCESS, s3) /\
      st_world s3 = InodeRefStore_removeAndReleaseInode (NoAllocBufferStore_addBuf b (st_world s2)).
Proof.
  intros c Et Eb Hu Hm Hk Ew. pose proof (keeps_writeStatelessInode _ _ _ _ _ Ew) as Ec.
  unfold FhgfsOpsHelper_flushCache. split_and!; [|done|].
  - unfold __FhgfsOpsHelper_flushCacheUnlocked, mbind, C_bind, get_cache, lift. fold c. rewrite Et, Eb.
    cbn [of_option]. rewrite read_block_Done, Ew, s64_id by lia. destruct (Z.ltb_spec k (cb_bufUsageLen c)); [|lia].
    unfold mret, C_ret. destruct (Z.ltb_spec 0 k); [done|]. by replace (- k) with 0 by lia.
  - intros s2 Ew2. pose proof (keeps_writeStatelessInode _ _ _ _ _ Ew2) as Ec2.
    unfold __FhgfsOpsHelper_flushCacheUnlocked, __FhgfsOpsHelper_discardCache, mbind, C_bind, get_cache, set_cache, lift.
    rewrite Ec. fold c. rewrite Et, Eb. cbn [of_option]. rewrite read_block_Done, Ew2, s64_id by lia.
    rewrite Z.ltb_irrefl, Ec2, Ec. fold c. rewrite Eb. cbn. eexists. by split.
Qed.

(** The first read-ahead does not look at the size of the buffer.  A small read at the
    start of a file reads 64 KiB into the cache buffer, whatever its size: with a
    smaller [tuneFileCacheBufSize] the kernel memory behind the buffer is overwritten
    as soon as the file is larger than the buffer. *)
Theorem slow_start_overrun (size : Z) (io : RemotingIOInfo) (p : StripePattern) (s : St W) (b d : mem) (r : Z)
    (w1 w2 w3 : W) :
  fi_allowCaching (st_info s) = true -> 0 < fi_cacheHits (st_info s) ->
  FhgfsInode_getIsFileOpenByMultipleReaders (st_world s) = (false, w1) -> pattern io = Some p ->
  0 <= size < u64 (StripePattern_getChunkEnd p 0 - 0 + 1) -> size < NoAllocBufferStore_getBufSize ->
  NoAllocBufferStore_getBufSize < FSFILEINFO_CACHE_SLOWSTART_READLEN ->
  NoAllocBufferStore_instantBuf w1 = (Some b, w2) -> mlen b = NoAllocBufferStore_getBufSize ->
  FhgfsOpsRemoting_readfile FSFILEINFO_CACHE_SLOWSTART_READLEN 0 io w2 = ((r, d), w3) -> mlen b < mlen d ->
  __FhgfsOpsHelper_readCacheFlushed size 0 io s = Fault.
Proof.
  intros Ha Hh Em Ep Hs1 Hs2 Hb Ei Hlb Er Hd.
  unfold __FhgfsOpsHelper_readCacheFlushed, mbind, C_bind, get_info, get_cache, lift, env.
  rewrite Ha. destruct (Z.leb_spec (fi_cacheHits (st_info s)) 0); [lia|]. cbn [negb orb]. rewrite Em.
  cbn [mret C_ret st_world negb]. rewrite Ep. cbn [of_option].
  destruct (Z.leb_spec (Z.min (u64 (StripePattern_getChunkEnd p 0 - 0 + 1)) NoAllocBufferStore_getBufSize) size); [lia|].
  cbn [st_world]. rewrite Ei. cbn [Z.eqb andb]. destruct (Z.ltb_spec size FSFILEINFO_CACHE_SLOWSTART_READLEN); [|lia].
  cbn [st_world]. rewrite Er. unfold write_block. destruct (in_range b 0 (mlen d)) eqn:E; [|done].
  apply in_range_true in E. lia.
Qed.
End Short.

(** ** A small world

    A file on the servers; the numbers of bytes that the next writes are cut to. *)

Module SmallCache.
Record World := mkW { w_file : mem; w_bufs : Z; w_limits : list Z }.

Definition write (data : mem) (offset : Z) (w : World) : Z * World :=
  match w_limits w with
  | [] => (mlen data, mkW (fwrite (w_file w) offset data) (w_bufs w) [])
  | k :: limits =>
      let data := take (Z.to_nat k) data in
      (mlen data, mkW (fwrite (w_file w) offset data) (w_bufs w) limits)
  end.

Definition pattern_ex : StripePattern := Raid0Pattern (mkSP 1 (2 ^ 19) 0) vec_ex 1.
Definition io_ex : RemotingIOInfo := mkIOInfo KNull (Some pattern_ex) None 0 false None None 0 0.

Definition env (bufSize : Z) : CacheEnv World := {|
  FhgfsOpsRemoting_readfile size offset _ w := ((mlen (fread (w_file w) offset size), fread (w_file w) offset size), w);
  FhgfsOpsRemoting_writefile data offset _ w := write data offset w;
  FhgfsOpsRemoting_flockAppendEx _ _ w := (0, w);
  FhgfsOpsRemoting_statDirect w := ((0, mlen (w_file w)), w);
  set_needsAppendLockCleanup _ w := w;
  FhgfsInode_referenceHandle _ w := ((0, 1), w);
  FhgfsInode_getRefIOInfo _ w := (io_ex, w);
  FhgfsInode_releaseHandle _ w := (0, w);
  NoAllocBufferStore_getBufSize := bufSize;
  NoAllocBufferStore_instantBuf w :=
    (Some (replicate (Z.to_nat bufSize) 0), mkW (w_file w) (w_bufs w + 1) (w_limits w));
  NoAllocBufferStore_addBuf _ w := mkW (w_file w) (w_bufs w - 1) (w_limits w);
  InodeRefStore_addAndReferenceInode w := w;
  InodeRefStore_removeAndReleaseInode w := w;
  copy_user n w := (n, w);
  congfs_hasMappings w := (false, w);
  FhgfsInode_getIsFileOpenByMultipleReaders w := (false, w);
  fileCacheExclusiveTryLock w := (true, w) |}.

Definition start (file : mem) (limits : list Z) : St World :=
  mkSt (mkW file 0 limits) (mkCB None 0 0 0 FileBufferType_NONE) (FsFileInfo_init 0 0).
End SmallCache.

(** Without cut writes, the world of the refinement: a server that does as it is asked. *)
Module ReliableCache.
Import SmallCache.
Definition env : CacheEnv World := {|
  FhgfsOpsRemoting_readfile := @FhgfsOpsRemoting_readfile _ (SmallCache.env 65536);
  FhgfsOpsRemoting_writefile data offset _ w := (mlen data, mkW (fwrite (w_file w) offset data) (w_bufs w) []);
  FhgfsOpsRemoting_flockAppendEx _ _ w := (0, w);
  FhgfsOpsRemoting_statDirect w := ((0, mlen (w_file w)), w);
  set_needsAppendLockCleanup _ w := w;
  FhgfsInode_referenceHandle _ w := ((0, 1), w);
  FhgfsInode_getRefIOInfo _ w := (io_ex, w);
  FhgfsInode_releaseHandle _ w := (0, w);
  NoAllocBufferStore_getBufSize := 65536;
  NoAllocBufferStore_instantBuf := @NoAllocBufferStore_instantBuf _ (SmallCache.env 65536);
  NoAllocBufferStore_addBuf _ w := mkW (w_file w) (w_bufs w - 1) (w_limits w);
  InodeRefStore_addAndReferenceInode w := w;
  InodeRefStore_removeAndReleaseInode w := w;
  copy_user n w := (n, w);
  congfs_hasMappings w := (false, w);
  FhgfsInode_getIsFileOpenByMultipleReaders w := (false, w);
  fileCacheExclusiveTryLock w := (true, w) |}.

#[refine] Definition reliable : ReliableFile (CacheEnv0 := env) World := {| content := w_file; bufs := w_bufs |}.
Proof.
  all: try (intros; by repeat split).
Defined.
End ReliableCache.

(** Two writes that are buffered together, a read that flushes them, an append. *)
Definition ops_ex : list CacheOp :=
  let i := FsFileInfo_init 0 0 in
  [OpWrite i [1; 2; 3] 0 SmallCache.io_ex; OpWrite i [4] 3 SmallCache.io_ex; OpReadExclusive i 8 1 SmallCache.io_ex;
   OpWrite i [9] (-1) SmallCache.io_ex; OpFlush false].

Lemma cache_refines_file_witness :
  exists s', run_ops (CacheEnv0 := ReliableCache.env) ops_ex (SmallCache.start [] []) =
    Done ([ResWrite 3; ResWrite 1; ResRead 3 [2; 3; 4]; ResWrite 1; ResFlush 0], s') /\
    SmallCache.w_file (st_world s') = [1; 2; 3; 4; 9].
Proof.
  destruct (cache_refines_file (ReliableFile0 := ReliableCache.reliable) ltac:(cbn; unfold FSFILEINFO_CACHE_SLOWSTART_READLEN; lia)
    0 ops_ex (SmallCache.start [] [])) as (rs & s' & Er & Hrun & _ & Hf).
  - by split_and!.
  - by vm_compute.
  - assert (Hs : is_Some (pattern SmallCache.io_ex)) by (by eexists).
    cbn [ops_ok ops_ex op_ok]. unfold offset_ok. split_and!; try done; try (by vm_compute); try (by left); right; by vm_compute.
  - exists s'. pose proof (Hf (OpFlush false) eq_refl eq_refl) as Hc. cbn in Hc. rewrite Er, Hc.
    clear - Hrun. destruct rs as [|r1 [|r2 [|r3 [|r4 [|r5 [|r6 rs]]]]]]; cbn [spec_run ops_ex] in Hrun;
      [by destruct_and? Hrun..| |by destruct_and? Hrun].
    destruct Hrun as (H1 & H2 & H3 & H4 & H5 & H6). cbn [spec_res] in *. rewrite H1, H2, H3, H4, H5, H6.
    split; by vm_compute.
Defined.

(** Both failures with buffers of 8 bytes.  A write of three bytes at 0 is buffered; the
    flush for a write at 10 stores nothing, the new data replace the old, and one
    buffer is lost. *)
Definition run_small (limits : list Z) (ops : list CacheOp) : option (list CacheRes * mem * Z) :=
  match run_ops (CacheEnv0 := SmallCache.env 8) ops (SmallCache.start [] limits) with
  | Done (rs, s) => Some (rs, SmallCache.w_file (st_world s), SmallCache.w_bufs (st_world s))
  | Fault => None
  end.

Example buffered_data_lost :
  let i := FsFileInfo_init 0 0 in
  run_small [0] [OpWrite i [1; 2; 3] 0 SmallCache.io_ex; OpWrite i [4] 10 SmallCache.io_ex; OpFlush false] =
  Some ([ResWrite 3; ResWrite 1; ResFlush 0], replicate 10 0 ++ [4], 1).
Proof. by vm_compute. Qed.

(** Three bytes to be appended, of which the first flush stores two. *)
Example appended_twice :
  let i := FsFileInfo_init 0 0 in
  run_small [2] [OpWrite i [1; 2; 3] (-1) SmallCache.io_ex; OpFlush false; OpFlush false] =
  Some ([ResWrite 3; ResFlush FhgfsOpsErr_NOSPACE; ResFlush 0], [1; 2; 1; 2; 3], 0).
Proof. by vm_compute. Qed.

Lemma flush_short_write_witness :
  let c := mkCB (Some [1; 2; 3; 0]) 3 4 (-1) FileBufferType_WRITE in
  let s := mkSt (SmallCache.mkW [] 1 [2]) c (FsFileInfo_init 0 0) in
  FhgfsOpsHelper_flushCache (CacheEnv0 := SmallCache.env 4) false s =
    Done (FhgfsOpsErr_NOSPACE, mkSt (SmallCache.mkW [1; 2] 1 []) c (FsFileInfo_init 0 0)).
Proof.
  intros c s.
  apply (flush_short_write (CacheEnv0 := SmallCache.env 4) s (mkSt (SmallCache.mkW [1; 2] 1 []) c (FsFileInfo_init 0 0))
    [1; 2; 3; 0] 2 eq_refl eq_refl); [by vm_compute..|reflexivity].
Defined.

Lemma slow_start_overrun_witness :
  __FhgfsOpsHelper_readCacheFlushed (CacheEnv0 := SmallCache.env 4) 2 0 SmallCache.io_ex
    (SmallCache.start [1; 2; 3; 4; 5] []) = Fault.
Proof.
  eapply (slow_start_overrun (CacheEnv0 := SmallCache.env 4) 2 SmallCache.io_ex SmallCache.pattern_ex
    (SmallCache.start [1; 2; 3; 4; 5] []) [0; 0; 0; 0] [1; 2; 3; 4; 5]); try reflexivity; by vm_compute.
Defined.
