(* ===== verification/DirListing.v ===== *)
(** * Listing a directory

    [FhgfsOpsHelper_refreshDirInfoIncremental] of [filesystem/FhgfsOpsHelper.c], and opening,
    seeking and iterating of [filesystem/FhgfsOpsFile.c]: names are fetched page by page
    and handed out one by one, as long as the caller takes them.  The state of an open
    directory is its [FsDirInfo] and the file position. *)

From S2P Require Import Prelude Serialization Vectors StorageErrors Remoting.

Definition EINVAL : Z := 22.
Definition SEEK_SET : Z := 0.

Definition DT_UNKNOWN : Z := 0.
Definition DT_FIFO : Z := 1.
Definition DT_CHR : Z := 2.
Definition DT_DIR : Z := 4.
Definition DT_BLK : Z := 6.
Definition DT_REG : Z := 8.
Definition DT_LNK : Z := 10.
Definition DT_SOCK : Z := 12.

Definition DirEntryType_DIRECTORY : Z := 1.
Definition DirEntryType_REGULARFILE : Z := 2.
Definition DirEntryType_SYMLINK : Z := 3.
Definition DirEntryType_BLOCKDEV : Z := 4.
Definition DirEntryType_CHARDEV : Z := 5.
Definition DirEntryType_FIFO : Z := 6.
Definition DirEntryType_SOCKET : Z := 7.

Definition OsTypeConv_dirEntryTypeToOS (entryType : Z) : Z :=
  if entryType =? DirEntryType_DIRECTORY then DT_DIR
  else if entryType =? DirEntryType_REGULARFILE then DT_REG
  else if entryType =? DirEntryType_SYMLINK then DT_LNK
  else if entryType =? DirEntryType_BLOCKDEV then DT_BLK
  else if entryType =? DirEntryType_CHARDEV then DT_CHR
  else if entryType =? DirEntryType_FIFO then DT_FIFO
  else if entryType =? DirEntryType_SOCKET then DT_SOCK
  else DT_UNKNOWN.

Definition FsDirInfo_init : FsDirInfo := mkDir [] UInt8Vec_init [] [] 0 0 false.

Definition set_dirContents (d : FsDirInfo) (v : list mem) : FsDirInfo :=
  mkDir v (dirContentsTypes d) (entryIDs d) (serverOffsets d) (dir_serverOffset d) (currentContentsPos d) (endOfDir d).
Definition FsDirInfo_setServerOffset (d : FsDirInfo) (v : Z) : FsDirInfo :=
  mkDir (dirContents d) (dirContentsTypes d) (entryIDs d) (serverOffsets d) v (currentContentsPos d) (endOfDir d).
Definition FsDirInfo_setCurrentContentsPos (d : FsDirInfo) (v : Z) : FsDirInfo :=
  mkDir (dirContents d) (dirContentsTypes d) (entryIDs d) (serverOffsets d) (dir_serverOffset d) v (endOfDir d).
Definition FsDirInfo_setEndOfDir (d : FsDirInfo) (v : bool) : FsDirInfo :=
  mkDir (dirContents d) (dirContentsTypes d) (entryIDs d) (serverOffsets d) (dir_serverOffset d) (currentContentsPos d) v.

(** What is handed out: name, inode number, type. *)
Record Emitted := mkEmitted { em_name : mem; em_ino : Z; em_type : Z }.

(** The request for names, [dir_emit], and the facts about the inode. *)
Class DirEnv (W : Type) := {
  FhgfsOpsRemoting_listdirFromOffset : FsDirInfo -> Z -> W -> (Z * FsDirInfo) * W;
  dir_emit : Emitted -> W -> bool * W;
  FhgfsInode_generateInodeID : mem -> Z;
  i_ino : Z;
  parent_ino : Z;
  is_32bit_api : bool }.

Record Dir (W : Type) := mkDirState { d_world : W; d_info : FsDirInfo; d_pos : Z }.
Arguments mkDirState {W}. Arguments d_world {W}. Arguments d_info {W}. Arguments d_pos {W}.

Section Listing.
Context {W : Type} `{!DirEnv W}.

Definition FhgfsOpsHelper_refreshDirInfoIncremental (dirInfo : FsDirInfo) (forceUpdate : bool) (w : W)
    : Z * FsDirInfo * W :=
  let maxNames := 100 in
  let dirContentsLen := Z.of_nat (length (dirContents dirInfo)) in
  let contentsPos := currentContentsPos dirInfo in
  let '((listRes, dirInfo), w) :=
    if forceUpdate then FhgfsOpsRemoting_listdirFromOffset dirInfo maxNames w
    else if endOfDir dirInfo && (dirContentsLen <=? contentsPos) then ((FhgfsOpsErr_SUCCESS, set_dirContents dirInfo []), w)
    else if contentsPos <? dirContentsLen then ((FhgfsOpsErr_SUCCESS, dirInfo), w)
    else FhgfsOpsRemoting_listdirFromOffset dirInfo maxNames w in
  if negb (listRes =? FhgfsOpsErr_SUCCESS) then
    (FhgfsOpsErr_toSysErr listRes, FsDirInfo_setCurrentContentsPos (set_dirContents dirInfo []) 0, w)
  else (0, dirInfo, w).

Definition FhgfsOps_opendirIncremental (w : W) : Dir W := mkDirState w FsDirInfo_init 0.

(** [seekRes]: the result of the kernel's function, which sets the position. *)
Definition FhgfsOps_llseekdir (s : Dir W) (offset origin seekRes : Z) : Z * Dir W :=
  if negb (origin =? SEEK_SET) then (- EINVAL, s) else
  if 0 <=? seekRes then
    let d := FsDirInfo_setCurrentContentsPos (set_dirContents (d_info s) []) 0 in
    (seekRes, mkDirState (d_world s) (FsDirInfo_setEndOfDir (FsDirInfo_setServerOffset d offset) false) seekRes)
  else (seekRes, s).

Definition of_index {A} (l : list A) (i : Z) : outcome A :=
  if i <? 0 then Fault else of_option (l !! Z.to_nat i).

(** The entry at a position of the local contents. *)
Definition entry_at (d : FsDirInfo) (contentsPos : Z) : outcome Emitted :=
  currentName ← of_index (dirContents d) contentsPos;
  currentEntryType ← UInt8Vec_at (dirContentsTypes d) contentsPos;
  currentIno ←
    (if bool_decide (currentName = [46]) then Done i_ino
     else if bool_decide (currentName = [46; 46]) then Done parent_ino
     else id ← of_index (entryIDs d) contentsPos; Done (FhgfsInode_generateInodeID id));
  let currentIno := if is_32bit_api && (2 ^ 32 - 1 <? currentIno) then Z.shiftr currentIno 32 else currentIno in
  Done (mkEmitted currentName currentIno (OsTypeConv_dirEntryTypeToOS currentEntryType)).

(** The results: the return value, what was taken, the new state. *)
Fixpoint FhgfsOps_iterateIncremental (fuel : nat) (s : Dir W) : outcome (Z * list Emitted * Dir W) :=
  match fuel with
  | O => Fault
  | S fuel =>
      let '((refreshRes, d), w) := FhgfsOpsHelper_refreshDirInfoIncremental (d_info s) false (d_world s) in
      if negb (refreshRes =? 0) then Done (refreshRes, [], mkDirState w d (d_pos s)) else
      if Z.of_nat (length (dirContents d)) =? 0 then Done (0, [], mkDirState w d (d_pos s)) else
      let contentsPos := currentContentsPos d in
      e ← entry_at d contentsPos;
      let '(taken, w) := dir_emit e w in
      if negb (taken : bool) then Done (0, [], mkDirState w d (d_pos s)) else
      pos ← of_index (serverOffsets d) contentsPos;
      '(r, out, s) ← FhgfsOps_iterateIncremental fuel
        (mkDirState w (FsDirInfo_setCurrentContentsPos d (u64 (contentsPos + 1))) pos);
      Done (r, e :: out, s)
  end.
End Listing.

(** ** A directory on a server *)

Record Entry := mkEntry { e_offset : Z; e_name : mem; e_type : Z; e_id : mem }.

Section Complete.
Context {W : Type} `{!DirEnv W} (E : list Entry).

(** The offset behind the first [k] entries. *)
Definition boundary (k : nat) : Z := match k with O => 0 | S i => from_option e_offset 0 (E !! i) end.

Definition page (i j : nat) : list Entry := take (j - i) (drop i E).

(** [k]: as many entries are handed out.  The local contents, if there are any, are a
    page around that place. *)
Definition listing (k : nat) (s : Dir W) : Prop :=
  let d := d_info s in
  (k <= length E)%nat /\ d_pos s = boundary k /\ vec_wf (dirContentsTypes d) /\ 0 <= currentContentsPos d /\
  exists i j : nat, (i <= k <= j)%nat /\ (j <= length E)%nat /\ dir_serverOffset d = boundary j /\
    (endOfDir d = true -> j = length E) /\
    (dirContents d = [] /\ k = j \/
     dirContents d = e_name <$> page i j /\ vlist (dirContentsTypes d) = e_type <$> page i j /\
     entryIDs d = e_id <$> page i j /\ serverOffsets d = e_offset <$> page i j /\
     currentContentsPos d = Z.of_nat (k - i)).

(** The server hands out what comes behind the offset of the request. *)
Definition lists_directory : Prop := forall d max w k,
  (k <= length E)%nat -> 0 < max -> dir_serverOffset d = boundary k -> vec_wf (dirContentsTypes d) ->
  let j := Nat.min (k + Z.to_nat max) (length E) in
  exists types w', FhgfsOpsRemoting_listdirFromOffset d max w =
      ((FhgfsOpsErr_SUCCESS,
        mkDir (e_name <$> page k j) types (e_id <$> page k j) (e_offset <$> page k j) (boundary j) 0
          (Z.of_nat (length (page k j)) <? max)), w') /\
    vec_wf types /\ vlist types = e_type <$> page k j.

Context (Hserver : lists_directory).

Lemma length_page i j : (i <= j <= length E)%nat -> length (page i j) = (j - i)%nat.
Proof. intros H. unfold page. rewrite length_take, length_drop. lia. Qed.

Lemma lookup_page i j k : (i <= k < j)%nat -> page i j !! (k - i)%nat = E !! k.
Proof. intros H. unfold page. rewrite lookup_take, lookup_drop by lia. destruct (decide _); [f_equal; lia|lia]. Qed.

Definition emitted_of (e : Entry) : Emitted :=
  let ino := if bool_decide (e_name e = [46]) then i_ino
             else if bool_decide (e_name e = [46; 46]) then parent_ino
             else FhgfsInode_generateInodeID (e_id e) in
  mkEmitted (e_name e) (if is_32bit_api && (2 ^ 32 - 1 <? ino) then Z.shiftr ino 32 else ino)
    (OsTypeConv_dirEntryTypeToOS (e_type e)).

Lemma of_index_fmap {A B} (f : A -> B) (l : list A) (n : nat) x :
  l !! n = Some x -> of_index (f <$> l) (Z.of_nat n) = Done (f x).
Proof.
  intros H. unfold of_index. destruct (Z.ltb_spec (Z.of_nat n) 0); [lia|].
  by rewrite Nat2Z.id, list_lookup_fmap, H.
Qed.

Lemma entry_at_page d i j k e :
  vec_wf (dirContentsTypes d) -> (i <= k < j)%nat -> E !! k = Some e ->
  dirContents d = e_name <$> page i j -> vlist (dirContentsTypes d) = e_type <$> page i j ->
  entryIDs d = e_id <$> page i j -> entry_at d (Z.of_nat (k - i)) = Done (emitted_of e).
Proof.
  intros Hv Hk He Hn Ht Hi. assert (Hp : page i j !! (k - i)%nat = Some e) by (by rewrite lookup_page).
  unfold entry_at. rewrite Hn, (of_index_fmap _ _ _ e Hp). cbn [mbind outcome_bind].
  assert (Et : UInt8Vec_at (dirContentsTypes d) (Z.of_nat (k - i)) = Done (e_type e)).
  { change UInt8Vec_at with UInt16Vec_at. assert (El : vlist (dirContentsTypes d) !! (k - i)%nat = Some (e_type e))
      by (by rewrite Ht, list_lookup_fmap, Hp).
    destruct (at_wf _ (k - i)%nat Hv) as [->|Hlen]; [by rewrite El|]. apply lookup_lt_Some in El. lia. }
  rewrite Et. cbn [mbind outcome_bind]. unfold emitted_of. destruct (bool_decide (e_name e = [46])); [done|].
  destruct (bool_decide (e_name e = [46; 46])); [done|]. by rewrite Hi, (of_index_fmap _ _ _ e Hp).
Qed.

(** After a refresh the place is inside of the local contents, or these are empty, and
    then everything is handed out. *)
Lemma refresh_listing k s :
  listing k s ->
  exists d w, FhgfsOpsHelper_refreshDirInfoIncremental (d_info s) false (d_world s) = (0, d, w) /\
    listing k (mkDirState w d (d_pos s)) /\
    ((dirContents d = [] /\ k = length E) \/
     (k < length E)%nat /\ dirContents d <> [] /\
    exists i j, (i <= k < j)%nat /\ dirContents d = e_name <$> page i j /\
    vlist (dirContentsTypes d) = e_type <$> page i j /\ entryIDs d = e_id <$> page i j /\
    serverOffsets d = e_offset <$> page i j /\ currentContentsPos d = Z.of_nat (k - i)).
Proof.
  intros (Hk & Hpos & Hv & Hc0 & i & j & Hij & Hj & Hoff & Hend & Hc). set (d := d_info s) in *.
  unfold FhgfsOpsHelper_refreshDirInfoIncremental.
  assert (Hout : Z.of_nat (length (dirContents d)) <=? currentContentsPos d = true -> k = j).
  { intros Hle%Z.leb_le. destruct Hc as [[_ ?]|(Hn & _ & _ & _ & Hp)]; [done|].
    rewrite Hn, length_fmap, length_page in Hle by lia. lia. }
  assert (Hfetch : k = j -> exists d' w', FhgfsOpsRemoting_listdirFromOffset d 100 (d_world s) = ((FhgfsOpsErr_SUCCESS, d'), w') /\
    listing k (mkDirState w' d' (d_pos s)) /\
    ((dirContents d' = [] /\ k = length E) \/ (k < length E)%nat /\ dirContents d' <> [] /\
    exists i j, (i <= k < j)%nat /\ dirContents d' = e_name <$> page i j /\
    vlist (dirContentsTypes d') = e_type <$> page i j /\ entryIDs d' = e_id <$> page i j /\
    serverOffsets d' = e_offset <$> page i j /\ currentContentsPos d' = Z.of_nat (k - i))).
  { intros ->. destruct (Hserver d 100 (d_world s) j Hj ltac:(lia) Hoff Hv) as (types & w' & El & Hv' & Ht).
    set (j' := Nat.min (j + Z.to_nat 100) (length E)) in *. eexists _, w'. split; [exact El|].
    assert (Hlen : length (page j j') = (j' - j)%nat) by (apply length_page; lia). split.
    - split_and!; [done|done|done|done|]. exists j, j'. cbn [d_info dir_serverOffset endOfDir dirContents dirContentsTypes entryIDs serverOffsets currentContentsPos].
      split_and!; [lia..|done| |right; split_and!; [done..|lia]]. rewrite Hlen. intros Hlt%Z.ltb_lt. lia.
    - cbn [dirContents dirContentsTypes entryIDs serverOffsets currentContentsPos].
      destruct (decide (j = length E)) as [Ej|Ej].
      + left. split; [|done]. apply nil_length_inv. rewrite length_fmap. lia.
      + right. split_and!; [lia| |].
        * intros Hn%(f_equal length). rewrite length_fmap, Hlen in Hn. cbn in Hn. lia.
        * exists j, j'. split_and!; [lia..|done|done|done|done|lia]. }
  destruct (endOfDir d && _) eqn:Eend; [|destruct (Z.ltb_spec (currentContentsPos d) (Z.of_nat (length (dirContents d)))) as [Hlt|Hge]].
  - apply andb_true_iff in Eend as [Eend Hle]. cbn. specialize (Hout Hle). specialize (Hend Eend). subst j. rewrite <- Hout in Hoff.
    eexists _, _. split; [reflexivity|]. split; [|by left].
    split_and!; [done|done|done|done|]. exists i, k. split_and!; try done; try lia. by left.
  - cbn. eexists _, _. split; [reflexivity|]. split.
    { split_and!; [done|done|done|done|]. exists i, j. split_and!; try done; lia. }
    right. destruct Hc as [[Hn _]|(Hn & Ht & Hi & Ho & Hp)]; [rewrite Hn in Hlt; cbn in Hlt; lia|].
    rewrite Hn, length_fmap, length_page in Hlt by lia. split_and!; [lia| |].
    + rewrite Hn. intros Hn'%(f_equal length). rewrite length_fmap, length_page in Hn' by lia. cbn in Hn'. lia.
    + exists i, j. split_and!; try done; lia.
  - destruct (Hfetch (Hout (proj2 (Z.leb_le _ _) Hge))) as (d' & w' & -> & Hl & Hr). cbn. by eexists _, _.
Qed.

Lemma iterate_listing fuel k s :
  (length E - k < fuel)%nat -> Z.of_nat (length E) < 2 ^ 63 -> listing k s ->
  exists n s', FhgfsOps_iterateIncremental fuel s = Done (0, emitted_of <$> page k (k + n), s') /\
    listing (k + n) s' /\
    ((k + n)%nat = length E \/
     exists e w w', E !! (k + n)%nat = Some e /\ dir_emit (emitted_of e) w = (false, w')).
Proof.
  revert k s. induction fuel as [|fuel IH]; intros k s Hfuel Hsize Hl; [lia|]. cbn [FhgfsOps_iterateIncremental].
  destruct (refresh_listing k s Hl) as (d & w & -> & Hl' & Hr). cbn [Z.eqb negb].
  assert (Hstop : page k (k + 0) = []) by (unfold page; by rewrite Nat.add_0_r, Nat.sub_diag).
  destruct Hr as [[Hnil Hk]|(Hk & Hne & i & j & Hij & Hn & Ht & Hi & Ho & Hp)].
  - rewrite Hnil. cbn [length Z.of_nat Z.eqb]. exists 0%nat, (mkDirState w d (d_pos s)).
    rewrite Hstop, Nat.add_0_r. split_and!; [done|done|by left].
  - destruct (Z.eqb_spec (Z.of_nat (length (dirContents d))) 0) as [H0|_].
    { exfalso. apply Hne. apply nil_length_inv. lia. }
    destruct (lookup_lt_is_Some_2 E k Hk) as [e He]. rewrite Hp.
    destruct Hl' as (_ & _ & Hv & _ & i' & j' & Hij' & Hj' & Hoff & Hend & Hc). cbn [d_info] in *.
    rewrite (entry_at_page d i j k e) by done. cbn [mbind outcome_bind].
    destruct (dir_emit (emitted_of e) w) as [taken w'] eqn:Ee. destruct taken; cbn [negb].
    2: { exists 0%nat, (mkDirState w' d (d_pos s)). rewrite Hstop, Nat.add_0_r. split_and!; [done| |right; by exists e, w, w'].
         destruct Hl as (? & ? & _). split_and!; [done|done|done|cbn [d_info]; lia|]. by exists i', j'. }
    assert (Hpage : page i j !! (k - i)%nat = Some e) by (by rewrite lookup_page).
    rewrite Ho, (of_index_fmap _ _ _ e Hpage). cbn [mbind outcome_bind].
    set (s1 := mkDirState w' _ _).
    assert (Hl1 : listing (S k) s1).
    { destruct Hc as [[? _]|(Hn' & Ht' & Hi' & Ho' & Hp')]; [done|]. assert (i' = i) as -> by lia.
      assert (Hk' : (k < j')%nat).
      { destruct (decide (k < j')%nat); [done|]. assert (Hlen : length (page i j) = length (page i j'))
          by (rewrite <- (length_fmap e_name (page i j)), <- (length_fmap e_name (page i j')); congruence).
        apply lookup_lt_Some in Hpage. rewrite Hlen, length_page in Hpage by lia. lia. }
      unfold s1. split_and!; cbn [d_info d_pos dirContentsTypes currentContentsPos FsDirInfo_setCurrentContentsPos].
      - lia.
      - cbn. by rewrite He.
      - done.
      - unfold u64, wrap. apply Z.mod_pos_bound. lia.
      - exists i, j'. cbn [dir_serverOffset endOfDir dirContents entryIDs serverOffsets currentContentsPos dirContentsTypes].
        split_and!; [lia..|done|done|]. right. split_and!; [done..|].
        rewrite u64_id by lia. lia. }
    destruct (IH (S k) s1 ltac:(lia) Hsize Hl1) as (n & s2 & -> & Hl2 & Hend2). cbn [mbind outcome_bind].
    exists (S n), s2. rewrite <- Nat.add_succ_comm. split_and!; [|done|done]. do 3 f_equal.
    unfold page. replace (S k + n - k)%nat with (S n) by lia. replace (S k + n - S k)%nat with n by lia.
    rewrite (drop_S E e k He). done.
Qed.

(** C17: listing a directory hands out every entry once.  With a server that lists a
    directory in pages: an open directory stands behind its first [k] entries, at first
    with [k = 0].  Whatever the caller takes, iterating ends without error and has handed
    out the following entries in their order, without gap or repetition, until the end of
    the directory or the first entry that the caller did not take, and the directory then
    stands right behind them.  Seeking to the position behind any entry makes it stand
    there. *)
Theorem directory_listed :
  (forall w, listing 0 (FhgfsOps_opendirIncremental w)) /\
  (forall fuel k s, (length E - k < fuel)%nat -> Z.of_nat (length E) < 2 ^ 63 -> listing k s ->
   exists n s', FhgfsOps_iterateIncremental fuel s = Done (0, emitted_of <$> page k (k + n), s') /\
     listing (k + n) s' /\
     ((k + n)%nat = length E \/
      exists e w w', E !! (k + n)%nat = Some e /\ dir_emit (emitted_of e) w = (false, w'))) /\
  (forall k k' s, (k' <= length E)%nat -> 0 <= boundary k' -> listing k s ->
   fst (FhgfsOps_llseekdir s (boundary k') SEEK_SET (boundary k')) = boundary k' /\
   listing k' (snd (FhgfsOps_llseekdir s (boundary k') SEEK_SET (boundary k')))).
Proof.
  split_and!; [|exact iterate_listing|].
  - intros w. split_and!; [lia|done|exact vec_wf_init|cbn; lia|]. exists 0%nat, 0%nat.
    split_and!; [lia..|done|done|by left].
  - intros k k' s Hk Hb (_ & _ & Hv & _). unfold FhgfsOps_llseekdir. cbn [Z.eqb negb SEEK_SET].
    destruct (Z.leb_spec 0 (boundary k')); [|lia]. cbn [fst snd]. split; [done|].
    split_and!; [done|done|done|cbn; lia|]. exists k', k'. split_and!; [lia..|done|done|by left].
Qed.
End Complete.

(** ** A small directory

    Three entries; the caller has room for some of them. *)

Module SmallDir.
Definition entries : list Entry :=
  [mkEntry 1 [46] 1 [48]; mkEntry 2 [97] 2 [49]; mkEntry 3 [98] 3 [50]].

Definition vec_of (l : list Z) : Vec := mkVec l ((Some <$> l) ++ replicate 4 None) (Z.of_nat (length l) + 4).

Definition list_names (d : FsDirInfo) (max : Z) (room : nat) : (Z * FsDirInfo) * nat :=
  let k := Z.to_nat (dir_serverOffset d) in
  let p := page entries k (Nat.min (k + Z.to_nat max) 3) in
  ((0, mkDir (e_name <$> p) (vec_of (e_type <$> p)) (e_id <$> p) (e_offset <$> p)
         (Z.of_nat (Nat.min (k + Z.to_nat max) 3)) 0 (Z.of_nat (length p) <? max)), room).

#[export] Instance env : DirEnv nat := {|
  FhgfsOpsRemoting_listdirFromOffset := list_names;
  dir_emit _ room := match room with O => (false, O) | S room => (true, room) end;
  FhgfsInode_generateInodeID id := 1000 + hd 0 id;
  i_ino := 7; parent_ino := 5; is_32bit_api := false |}.

Lemma boundary_id k : (k <= 3)%nat -> boundary entries k = Z.of_nat k.
Proof. intros H. destruct k as [|[|[|[|k]]]]; [done..|lia]. Qed.

Lemma server : lists_directory entries.
Proof.
  intros d max w k Hk Hm Hoff Hv j. change (length entries) with 3%nat in *. rewrite boundary_id in Hoff by done.
  assert (Ek : Z.to_nat (dir_serverOffset d) = k) by lia.
  exists (vec_of (e_type <$> page entries k j)), w. split_and!.
  - cbn [FhgfsOpsRemoting_listdirFromOffset env]. unfold list_names. rewrite Ek. unfold j.
    rewrite boundary_id by lia. done.
  - unfold vec_wf, vec_of. cbn [vlist vecArray vecArrayLen]. rewrite length_app, !length_fmap, length_replicate.
    assert (Hlen : (length (page entries k j) <= 3)%nat).
    { unfold page. rewrite length_take, length_drop. change (length entries) with 3%nat. lia. }
    split_and!; [lia..|]. apply take_app_length'. by rewrite !length_fmap.
  - done.
Qed.
End SmallDir.

#[local] Existing Instance SmallDir.env.

(** Room for two entries, then for more. *)
Lemma directory_listed_witness :
  exists s s', FhgfsOps_iterateIncremental 9 (FhgfsOps_opendirIncremental 2%nat) =
      Done (0, [mkEmitted [46] 7 DT_DIR; mkEmitted [97] 1049 DT_REG], s) /\ d_pos s = 2 /\
    FhgfsOps_iterateIncremental 9 (mkDirState 5%nat (d_info s) (d_pos s)) = Done (0, [mkEmitted [98] 1050 DT_LNK], s').
Proof.
  destruct (directory_listed SmallDir.entries SmallDir.server) as (H0 & Hit & _).
  destruct (Hit 9%nat 0%nat (FhgfsOps_opendirIncremental 2%nat) ltac:(cbn; lia) ltac:(by vm_compute) (H0 _))
    as (n & s & E & Hl & _).
  assert (n = 2%nat) as -> by (destruct n as [|[|[|n]]]; vm_compute in E; (done || by injection E)).
  destruct (Hit 9%nat 2%nat (mkDirState 5%nat (d_info s) (d_pos s)) ltac:(cbn; lia) ltac:(by vm_compute) Hl)
    as (n' & s' & E' & _ & _).
  exists s, s'. split; [exact E|]. split; [by destruct Hl as (_ & -> & _)|].
  rewrite E'. vm_compute in E. injection E as <-. vm_compute in E'. injection E' as E1 _. vm_compute.
  by rewrite <- E1.
Defined.
