(* ===== verification/StateMonad.v ===== *)
(** * Computations with a state that may fault

    The monad of the components whose functions change a state: inodes, buffer stores.
    [swp m Q s]: run on [s], [m] ends without [Fault], in a result and a state with [Q]. *)

From S2P Require Import Prelude.

Definition ST (S A : Type) : Type := S -> outcome (A * S).

#[export] Instance ST_ret {S} : MRet (ST S) := fun A a s => Done (a, s).
#[export] Instance ST_bind {S} : MBind (ST S) :=
  fun A B f m s => match m s with Done (a, s') => f a s' | Fault => Fault end.

Section Steps.
Context {S : Type}.

Definition st_get : ST S S := fun s => Done (s, s).
Definition st_put (s : S) : ST S unit := fun _ => Done (tt, s).
Definition st_mod (f : S -> S) : ST S unit := fun s => Done (tt, f s).
Definition st_lift {A} (o : outcome A) : ST S A :=
  fun s => match o with Done a => Done (a, s) | Fault => Fault end.

Definition swp {A} (m : ST S A) (Q : A -> S -> Prop) (s : S) : Prop :=
  match m s with Done (a, s') => Q a s' | Fault => False end.

Lemma swp_run {A} (m : ST S A) Q s : swp m Q s <-> exists a s', m s = Done (a, s') /\ Q a s'.
Proof.
  unfold swp. destruct (m s) as [[a s']|]; split; [by eauto| |done|by intros (? & ? & ? & _)].
  by intros (? & ? & [= <- <-] & ?).
Qed.
Lemma swp_ret {A} (a : A) (Q : A -> S -> Prop) s : Q a s -> swp (mret a) Q s.
Proof. done. Qed.
Lemma swp_bind {A B} (m : ST S A) (f : A -> ST S B) Q s :
  swp m (fun a => swp (f a) Q) s -> swp (m ≫= f) Q s.
Proof. unfold swp, mbind, ST_bind. by destruct (m s) as [[a s']|]. Qed.
Lemma swp_get (Q : S -> S -> Prop) s : Q s s -> swp st_get Q s.
Proof. done. Qed.
Lemma swp_put (Q : unit -> S -> Prop) s s' : Q tt s' -> swp (st_put s') Q s.
Proof. done. Qed.
Lemma swp_mod (f : S -> S) (Q : unit -> S -> Prop) s : Q tt (f s) -> swp (st_mod f) Q s.
Proof. done. Qed.
Lemma swp_lift {A} (o : outcome A) a (Q : A -> S -> Prop) s : o = Done a -> Q a s -> swp (st_lift o) Q s.
Proof. by intros ->. Qed.
Lemma swp_mono {A} (m : ST S A) (Q Q' : A -> S -> Prop) s :
  swp m Q s -> (forall a s', Q a s' -> Q' a s') -> swp m Q' s.
Proof. unfold swp. destruct (m s) as [[a s']|]; auto. Qed.
End Steps.

(** Runs the steps up to the next call. *)
Ltac sstep :=
  repeat first
    [ progress cbn beta iota
    | apply swp_bind
    | apply swp_get
    | apply swp_mod
    | apply swp_put ].
