(* ===== verification/FhgfsInode.v ===== *)
(** * Inodes and their file handles

    [filesystem/FhgfsInode.h/.c]: the state that an inode adds to the kernel's, the open
    files on the metadata server that its users share (one for each kind of access), the
    processes that lock ranges, and the hints for the size of the file.  The mutexes of
    these parts are held throughout a call, so a call is one step.  The calls to servers
    are the class [InodeEnv]. *)

From stdpp Require Import functions.
From S2P Require Import Prelude StateMonad Serialization Vectors StripePattern BitStore EntryInfo StorageErrors NodeConnPool.
From S2P Require Import Remoting FhgfsOpsHelper FileCache.

Definition CONGFS_INODE_ROOT_INO : Z := 2.
Definition CONGFS_INODE_MAXRESERVED_INO : Z := CONGFS_INODE_ROOT_INO.
Definition CONGFS_INODE_FLAG_WRITE_ERROR : Z := 1.
Definition CONGFS_INODE_FLAG_PAGED : Z := 2.

Definition OPENFILE_ACCESS_READWRITE : Z := 4.
Definition OPENFILE_ACCESS_TRUNC : Z := 16.
Definition OPENFILE_ACCESS_MASK_RW : Z :=
  Z.lor (Z.lor OPENFILE_ACCESS_READ OPENFILE_ACCESS_WRITE) OPENFILE_ACCESS_READWRITE.

Definition EventLogMask_TRUNC : Z := 2.
Definition EventLogMask_CLOSE : Z := 8.
Definition EventLogMask_READ : Z := 32.

Definition FileEventType_TRUNCATE : Z := 1.
Definition FileEventType_CLOSE_WRITE : Z := 3.
Definition FileEventType_READ : Z := 12.

(** ** The state *)

Inductive FileHandleType := FileHandleType_READ | FileHandleType_RW | FileHandleType_WRITE.

#[export] Instance FileHandleType_eq_dec : EqDecision FileHandleType.
Proof. solve_decision. Defined.

Record FhgfsInodeFileHandle := mkHandle {
  h_fileHandleID : KString; h_refCount : Z; h_needsAppendLockCleanup : bool;
  h_maxUsedTargetIndex : Z; h_firstWriteDone : BitStore }.

(** [i_...]: fields of the kernel's inode. *)
Record FhgfsInode := mkInode {
  i_ino : Z; i_uid : Z; i_gid : Z; i_mode : Z;
  in_entryInfo : EntryInfo mem; in_parentNodeID : Z; in_pathInfo : PathInfo mem; in_dataCacheTime : timespec;
  in_fileHandles : FileHandleType -> FhgfsInodeFileHandle; in_pattern : option StripePattern;
  in_numRangeLockPIDs : Z; in_rangeLockPIDs : gset Z;
  in_fileCacheBuffer : CacheBuffer; in_numPageCacheDirtyPages : Z; in_writeBackCounter : Z;
  in_lastWriteBackEndOrIsizeWriteTime : Z; in_noRemoteIsizeDecrease : Z;
  in_flags : Z; in_version : Z; in_modified : Z }.

Definition set_entryInfo (this : FhgfsInode) (v : EntryInfo mem) : FhgfsInode :=
  let 'mkInode ino u g m _ pn pi dt fh pat nr rl cb nd wb lw ni fl ve mo := this in
  mkInode ino u g m v pn pi dt fh pat nr rl cb nd wb lw ni fl ve mo.
Definition set_inodePathInfo (this : FhgfsInode) (v : PathInfo mem) : FhgfsInode :=
  let 'mkInode ino u g m ei pn _ dt fh pat nr rl cb nd wb lw ni fl ve mo := this in
  mkInode ino u g m ei pn v dt fh pat nr rl cb nd wb lw ni fl ve mo.
Definition set_dataCacheTime (this : FhgfsInode) (v : timespec) : FhgfsInode :=
  let 'mkInode ino u g m ei pn pi _ fh pat nr rl cb nd wb lw ni fl ve mo := this in
  mkInode ino u g m ei pn pi v fh pat nr rl cb nd wb lw ni fl ve mo.
Definition set_handle (t : FileHandleType) (h : FhgfsInodeFileHandle) (this : FhgfsInode) : FhgfsInode :=
  let 'mkInode ino u g m ei pn pi dt fh pat nr rl cb nd wb lw ni fl ve mo := this in
  mkInode ino u g m ei pn pi dt (<[t := h]> fh) pat nr rl cb nd wb lw ni fl ve mo.
Definition set_inodePattern (this : FhgfsInode) (v : option StripePattern) : FhgfsInode :=
  let 'mkInode ino u g m ei pn pi dt fh _ nr rl cb nd wb lw ni fl ve mo := this in
  mkInode ino u g m ei pn pi dt fh v nr rl cb nd wb lw ni fl ve mo.
Definition set_rangeLocks (this : FhgfsInode) (n : Z) (pids : gset Z) : FhgfsInode :=
  let 'mkInode ino u g m ei pn pi dt fh pat _ _ cb nd wb lw ni fl ve mo := this in
  mkInode ino u g m ei pn pi dt fh pat n pids cb nd wb lw ni fl ve mo.
Definition set_numDirty (this : FhgfsInode) (v : Z) : FhgfsInode :=
  let 'mkInode ino u g m ei pn pi dt fh pat nr rl cb _ wb lw ni fl ve mo := this in
  mkInode ino u g m ei pn pi dt fh pat nr rl cb v wb lw ni fl ve mo.
Definition set_writeBack (this : FhgfsInode) (v : Z) : FhgfsInode :=
  let 'mkInode ino u g m ei pn pi dt fh pat nr rl cb nd _ lw ni fl ve mo := this in
  mkInode ino u g m ei pn pi dt fh pat nr rl cb nd v lw ni fl ve mo.
Definition set_noDecrease (this : FhgfsInode) (v : Z) : FhgfsInode :=
  let 'mkInode ino u g m ei pn pi dt fh pat nr rl cb nd wb lw _ fl ve mo := this in
  mkInode ino u g m ei pn pi dt fh pat nr rl cb nd wb lw v fl ve mo.
Definition set_flags (this : FhgfsInode) (v : Z) : FhgfsInode :=
  let 'mkInode ino u g m ei pn pi dt fh pat nr rl cb nd wb lw ni _ ve mo := this in
  mkInode ino u g m ei pn pi dt fh pat nr rl cb nd wb lw ni v ve mo.

Section Init.
Context (bs : Z).

Definition FhgfsInode_initHandle : FhgfsInodeFileHandle :=
  mkHandle KNull 0 false (-1) (BitStore_init bs (mkBS 0 (Some 0) None) false).

(** [emptyInfo]: an [EntryInfo] of zeroes, [now]: the clock.  The struct may be recycled:
    [this] is what is left in it, whose set of processes is empty. *)
Definition FhgfsInode_allocInit (emptyInfo : EntryInfo mem) (now : timespec) (this : FhgfsInode) : FhgfsInode :=
  mkInode (i_ino this) (i_uid this) (i_gid this) (i_mode this)
    emptyInfo 0 (mkPI 0 0 None) now (fun _ => FhgfsInode_initHandle) None
    0 (in_rangeLockPIDs this)
    (let c := in_fileCacheBuffer this in
     mkCB None (cb_bufUsageLen c) (cb_bufUsageMaxLen c) (cb_fileOffset c) FileBufferType_NONE)
    0 0 0 0 0 0 0.
End Init.

(** ** Kinds of access *)

Definition __FhgfsInode_openFlagsToHandleType (openFlags : Z) : FileHandleType :=
  let rw := Z.land openFlags OPENFILE_ACCESS_MASK_RW in
  if rw =? OPENFILE_ACCESS_WRITE then FileHandleType_WRITE
  else if rw =? OPENFILE_ACCESS_READWRITE then FileHandleType_RW
  else FileHandleType_READ.

Definition FhgfsInode_handleTypeToOpenFlags (handleType : FileHandleType) : Z :=
  match handleType with
  | FileHandleType_WRITE => OPENFILE_ACCESS_WRITE
  | FileHandleType_RW => OPENFILE_ACCESS_READWRITE
  | FileHandleType_READ => OPENFILE_ACCESS_READ
  end.

(** ** File events

    [dentry]: how the kernel writes the path of the file to the end of a buffer of a given
    size: position and bytes, or an error. *)

Definition Dentry : Type := Z -> option (Z * mem).

(** [page]: whether the buffer could be allocated. *)
Definition FileEvent_init (PAGE_SIZE : Z) (page : bool) (eventType : Z) (dentry : option Dentry)
    : outcome FileEvent :=
  match dentry with
  | None => Done (mkEvent eventType None None)
  | Some dentry_path_raw =>
      if negb page then Done (mkEvent eventType None None) else
      match dentry_path_raw PAGE_SIZE with
      | None => Done (mkEvent eventType None None)
      | Some (pos, path) =>
          buf ← write_block (replicate 4096 0) pos (path ++ [0]);
          path ← read_block buf pos (mlen path);
          Done (mkEvent eventType (Some path) None)
      end
  end.

(** ** What an inode calls *)

Class InodeEnv (W : Type) := {
  FhgfsOpsRemoting_openfile : EntryInfo mem -> RemotingIOInfo -> bool -> option FileEvent -> W ->
    (Z * (RemotingIOInfo * option Z)) * W;
  FhgfsOpsHelper_closefileWithAsyncRetry : EntryInfo mem -> RemotingIOInfo -> option FileEvent -> W ->
    outcome (Z * W);
  FhgfsOpsRemoting_truncfile : EntryInfo mem -> Z -> option FileEvent -> W -> Z * W;
  FhgfsOpsRemoting_getFileVersion : EntryInfo mem -> W -> (Z * option Z) * W;
  NodeStoreEx_getRootOwner : W -> NodeOrGroup * W;
  FhgfsOps_getHasRootEntryInfo : W -> bool * W;
  FhgfsOps_setHasRootEntryInfo : bool -> W -> W;
  kmalloc_page : W -> bool * W;
  PAGE_SIZE : Z;
  eventLogMask : Z;
  BITSTORE_BLOCK_SIZE : Z }.

Section Inode.
Context {W : Type} `{!InodeEnv W}.

Definition I : Type -> Type := ST (W * FhgfsInode).
#[local] Instance I_ret : MRet I := ST_ret.
#[local] Instance I_bind : MBind I := ST_bind.

Definition env {A} (f : W -> A * W) : I A := fun '(w, this) => let '(a, w) := f w in Done (a, (w, this)).
Definition get_inode : I FhgfsInode := fun s => Done (snd s, s).
Definition upd_inode (f : FhgfsInode -> FhgfsInode) : I unit := fun '(w, this) => Done (tt, (w, f this)).
Definition lift {A} (o : outcome A) : I A := st_lift o.

(** ** The entry info of the root *)

Definition MetadataTk_getRootEntryInfoCopy : I (bool * EntryInfo mem) :=
  rootOwner ← env NodeStoreEx_getRootOwner;
  mret (NodeOrGroup_valid rootOwner,
        EntryInfo_init rootOwner [] META_ROOTDIR_ID_STR [] EntryInfo.DirEntryType_DIRECTORY 0).

Definition _FhgfsInode_initRootEntryInfo : I unit :=
  this ← get_inode;
  hasRootInfo ← env FhgfsOps_getHasRootEntryInfo;
  if negb hasRootInfo && (i_ino this =? CONGFS_INODE_ROOT_INO) then
    hasRootInfo ← env FhgfsOps_getHasRootEntryInfo;
    if hasRootInfo : bool then mret tt else
    '(isSuccess, entryInfo) ← MetadataTk_getRootEntryInfoCopy;
    _ ← upd_inode (fun this => set_entryInfo this entryInfo);
    if isSuccess : bool then env (fun w => (tt, FhgfsOps_setHasRootEntryInfo true w)) else mret tt
  else mret tt.

(** The entry info, after taking the lock for reading. *)
Definition FhgfsInode_entryInfoReadLock : I (EntryInfo mem) :=
  _ ← _FhgfsInode_initRootEntryInfo;
  this ← get_inode;
  mret (in_entryInfo this).

(** The event for a call, when the configuration asks for it. *)
Definition event_for (wanted : bool) (eventType : Z) (dentry : option Dentry) : I (option FileEvent) :=
  if negb wanted then mret None else
  page ← (match dentry with Some _ => env kmalloc_page | None => mret false end);
  event ← lift (FileEvent_init PAGE_SIZE page eventType dentry);
  mret (Some event).

Definition logs (mask : Z) : bool := negb (Z.land eventLogMask mask =? 0).

(** ** File handles *)

Definition __FhgfsInode_referenceTrunc (openFlags : Z) (dentry : option Dentry) : I Z :=
  if Z.land openFlags OPENFILE_ACCESS_TRUNC =? 0 then mret FhgfsOpsErr_SUCCESS else
  entryInfo ← FhgfsInode_entryInfoReadLock;
  event ← event_for (logs EventLogMask_TRUNC) FileEventType_TRUNCATE dentry;
  env (FhgfsOpsRemoting_truncfile entryInfo 0 event).

(** Pointers into the handle are passed as what they point to. *)
Definition __FhgfsInode_initOpenIOInfo (this : FhgfsInode) (fileHandle : FhgfsInodeFileHandle)
    (accessFlags : Z) (pathInfo : option (PathInfo mem)) : RemotingIOInfo :=
  mkIOInfo (h_fileHandleID fileHandle) (in_pattern this) pathInfo accessFlags
    (h_needsAppendLockCleanup fileHandle) (Some (h_maxUsedTargetIndex fileHandle)) None
    (i_uid this) (i_gid this).

Definition FhgfsInode_getRefIOInfo (this : FhgfsInode) (handleType : FileHandleType) (accessFlags : Z)
    : RemotingIOInfo :=
  let fileHandle := in_fileHandles this handleType in
  let io := __FhgfsInode_initOpenIOInfo this fileHandle accessFlags (Some (in_pathInfo this)) in
  mkIOInfo (fileHandleID io) (pattern io) (pathInfo io) (Remoting.accessFlags io) (needsAppendLockCleanup io)
    (maxUsedTargetIndex io) (Some (h_firstWriteDone fileHandle)) (io_userID io) (io_groupID io).

Definition FhgfsInode_getStripeCount (this : FhgfsInode) : outcome Z :=
  p ← of_option (in_pattern this);
  ids ← of_option (getStripeTargetIDs p);
  Done (s32 (UInt16Vec_length ids)).

Definition ref_handle (t : FileHandleType) (this : FhgfsInode) : FhgfsInode :=
  let h := in_fileHandles this t in
  set_handle t (mkHandle (h_fileHandleID h) (u32 (h_refCount h + 1)) (h_needsAppendLockCleanup h)
                  (h_maxUsedTargetIndex h) (h_firstWriteDone h)) this.

(** A handle that is open already: truncates and asks for the version, as the flags say. *)
Definition reference_existing (t : FileHandleType) (openFlags : Z) (dentry : option Dentry) (outVersion : bool)
    : I (Z * option Z) :=
  retVal ← __FhgfsInode_referenceTrunc openFlags dentry;
  '(retVal, version) ←
    (if (retVal =? FhgfsOpsErr_SUCCESS) && outVersion then
       this ← get_inode;
       env (FhgfsOpsRemoting_getFileVersion (in_entryInfo this))
     else mret (retVal, None));
  _ ← (if retVal =? FhgfsOpsErr_SUCCESS then upd_inode (ref_handle t) else mret tt);
  mret (retVal, version).

(** The open file becomes the handle of type [t]. *)
Definition store_handle (t : FileHandleType) (id : KString) (pat : option StripePattern) : I unit :=
  _ ← upd_inode (fun this =>
        let h := in_fileHandles this t in
        set_handle t (mkHandle id (h_refCount h) (h_needsAppendLockCleanup h) (h_maxUsedTargetIndex h)
                        (h_firstWriteDone h)) (set_inodePattern this pat));
  this ← get_inode;
  stripeCount ← lift (FhgfsInode_getStripeCount this);
  let h := in_fileHandles this t in
  bits ← lift (BitStore_clearBits BITSTORE_BLOCK_SIZE
                 (BitStore_setSize BITSTORE_BLOCK_SIZE (h_firstWriteDone h) (u32 stripeCount)));
  upd_inode (fun this =>
    ref_handle t (set_handle t (mkHandle (h_fileHandleID h) (h_refCount h) (h_needsAppendLockCleanup h)
                                  (h_maxUsedTargetIndex h) bits) this)).

(** The results: error code, handle type, and the version if it is set. *)
Definition FhgfsInode_referenceHandle (dentry : option Dentry) (openFlags : Z) (allowRWHandle : bool)
    (lookupInfo : option LookupIntentInfoOut) (outVersion : bool) : I (Z * (FileHandleType * option Z)) :=
  let t := __FhgfsInode_openFlagsToHandleType openFlags in
  this ← get_inode;
  if negb (h_refCount (in_fileHandles this t) =? 0) then
    '(retVal, version) ← reference_existing t openFlags dentry outVersion;
    mret (retVal, (t, version))
  else if allowRWHandle && negb (h_refCount (in_fileHandles this FileHandleType_RW) =? 0) then
    '(retVal, version) ← reference_existing FileHandleType_RW openFlags dentry outVersion;
    mret (retVal, (if retVal =? FhgfsOpsErr_SUCCESS then FileHandleType_RW else t, version))
  else match lookupInfo with
  | Some l =>
      '(_, id) ← lift (of_option (lo_fileHandleID l));
      info ← lift (of_option (lo_pathInfo l));
      _ ← upd_inode (fun this => set_inodePathInfo this (PathInfo_update (in_pathInfo this) info));
      _ ← store_handle t id (lo_stripePattern l);
      mret (FhgfsOpsErr_SUCCESS, (t, None))
  | None =>
      let ioInfo := __FhgfsInode_initOpenIOInfo this (in_fileHandles this t) openFlags (Some (in_pathInfo this)) in
      entryInfo ← FhgfsInode_entryInfoReadLock;
      event ←
        (if negb (Z.land openFlags OPENFILE_ACCESS_READ =? 0) && logs EventLogMask_READ then
           event_for true FileEventType_READ dentry
         else event_for (negb (Z.land openFlags OPENFILE_ACCESS_TRUNC =? 0) && logs EventLogMask_TRUNC)
                FileEventType_TRUNCATE dentry);
      '(retVal, (ioInfo, version)) ← env (FhgfsOpsRemoting_openfile entryInfo ioInfo outVersion event);
      _ ← upd_inode (fun this => set_inodePathInfo this (default (in_pathInfo this) (pathInfo ioInfo)));
      _ ← (if retVal =? FhgfsOpsErr_SUCCESS then store_handle t (fileHandleID ioInfo) (pattern ioInfo)
           else mret tt);
      mret (retVal, (t, version))
  end.

(** The last reference [h] to a handle is gone: closes the file on the server. *)
Definition close_handle (handleType : FileHandleType) (h : FhgfsInodeFileHandle) (dentry : option Dentry) : I Z :=
  this ← get_inode;
  let openFlags := FhgfsInode_handleTypeToOpenFlags handleType in
  let ioInfo := __FhgfsInode_initOpenIOInfo this h openFlags None in
  entryInfo ← FhgfsInode_entryInfoReadLock;
  event ← event_for (negb (bool_decide (handleType = FileHandleType_READ)) && logs EventLogMask_CLOSE)
            FileEventType_CLOSE_WRITE dentry;
  retVal ← (fun '(w, this) =>
              '(r, w) ← FhgfsOpsHelper_closefileWithAsyncRetry entryInfo ioInfo event w;
              Done (r, (w, this)));
  freed ← lift (kfree_string (h_fileHandleID h));
  _ ← upd_inode (set_handle handleType
        (mkHandle freed (h_refCount h) false (-1) (BitStore_setSize BITSTORE_BLOCK_SIZE (h_firstWriteDone h) 0)));
  mret retVal.

(** A release without reference is a [BUG], here a [Fault]. *)
Definition FhgfsInode_releaseHandle (handleType : FileHandleType) (dentry : option Dentry) : I Z :=
  this ← get_inode;
  let h := in_fileHandles this handleType in
  if h_refCount h =? 0 then lift Fault else
  let h := mkHandle (h_fileHandleID h) (h_refCount h - 1) (h_needsAppendLockCleanup h)
             (h_maxUsedTargetIndex h) (h_firstWriteDone h) in
  _ ← upd_inode (set_handle handleType h);
  if negb (h_refCount h =? 0) then mret FhgfsOpsErr_SUCCESS
  else close_handle handleType h dentry.

Definition FhgfsInode_hasWriteHandle (this : FhgfsInode) : bool :=
  if negb (h_refCount (in_fileHandles this FileHandleType_WRITE) =? 0) then true
  else negb (h_refCount (in_fileHandles this FileHandleType_RW) =? 0).

Definition FhgfsInode_getIsFileOpen (this : FhgfsInode) : bool :=
  existsb (fun t => negb (h_refCount (in_fileHandles this t) =? 0))
    [FileHandleType_READ; FileHandleType_RW; FileHandleType_WRITE].

Definition FhgfsInode_getIsFileOpenByMultipleReaders (this : FhgfsInode) : bool :=
  let numReaders := u32 (h_refCount (in_fileHandles this FileHandleType_READ) +
                         h_refCount (in_fileHandles this FileHandleType_RW)) in
  1 <? numReaders.
End Inode.

(** ** Range locks *)

Definition FhgfsInode_addRangeLockPID (this : FhgfsInode) (pid : Z) : FhgfsInode :=
  if bool_decide (pid ∈ in_rangeLockPIDs this) then this
  else set_rangeLocks this (s32 (in_numRangeLockPIDs this + 1)) ({[pid]} ∪ in_rangeLockPIDs this).

Definition FhgfsInode_removeRangeLockPID (this : FhgfsInode) (pid : Z) : bool * FhgfsInode :=
  let pidExisted := bool_decide (pid ∈ in_rangeLockPIDs this) in
  (pidExisted,
   if pidExisted then set_rangeLocks this (s32 (in_numRangeLockPIDs this - 1)) (in_rangeLockPIDs this ∖ {[pid]})
   else this).

(** ** Names *)

(** The strings are compared with [strcmp]; that an inode has no ID yet is only logged. *)
Definition FhgfsInode_compareEntryID (this : FhgfsInode) (otherEntryID : mem) : bool :=
  if i_ino this =? CONGFS_INODE_ROOT_INO then bool_decide (otherEntryID = META_ROOTDIR_ID_STR)
  else bool_decide (otherEntryID = ei_entryID (in_entryInfo this)).

Definition FhgfsInode_updateEntryInfoOnRenameUnlocked (this : FhgfsInode) (newParentInfo : EntryInfo mem)
    (newName : mem) : FhgfsInode :=
  let e := EntryInfo_updateFileName
             (EntryInfo_updateParentEntryID (in_entryInfo this) (ei_entryID newParentInfo)) newName in
  set_entryInfo this
    (if negb (ei_entryType e =? EntryInfo.DirEntryType_DIRECTORY) then
       mkEI (ei_owner newParentInfo) (ei_parentEntryID e) (ei_entryID e) (ei_fileName e) (ei_entryType e)
         (if owner_isGroup (ei_owner newParentInfo)
          then Z.lor (ei_featureFlags e) ENTRYINFO_FEATURE_BUDDYMIRRORED
          else Z.ldiff (ei_featureFlags e) ENTRYINFO_FEATURE_BUDDYMIRRORED)
     else e).

Definition FhgfsInode_updateEntryInfoUnlocked (this : FhgfsInode) (newEntryInfo : EntryInfo mem) : FhgfsInode :=
  set_entryInfo this (EntryInfo_update (in_entryInfo this) newEntryInfo).

(** ** Cache validity *)

Definition S_IFMT : Z := 61440.
Definition S_ISDIR (mode : Z) : bool := Z.land mode S_IFMT =? 16384.
Definition S_ISREG (mode : Z) : bool := Z.land mode S_IFMT =? 32768.

Definition FhgfsInode_isCacheValid (this : FhgfsInode) (mode : Z)
    (tuneDirSubentryCacheValidityMS tuneFileSubentryCacheValidityMS : Z) (now : timespec) : bool :=
  let cacheValidityMS := if S_ISDIR mode then tuneDirSubentryCacheValidityMS
                         else tuneFileSubentryCacheValidityMS in
  if cacheValidityMS =? 0 then false
  else Time_elapsedSinceMS now (in_dataCacheTime this) <? cacheValidityMS.

Definition FhgfsInode_invalidateCache (this : FhgfsInode) : FhgfsInode :=
  set_dataCacheTime this (mkTime 0 0).

(** ** Dirty pages and the size of the file *)

Definition FhgfsInode_incNumDirtyPages (this : FhgfsInode) : FhgfsInode :=
  set_numDirty this (u64 (in_numPageCacheDirtyPages this + 1)).
Definition FhgfsInode_decNumDirtyPages (this : FhgfsInode) : FhgfsInode :=
  set_numDirty this (u64 (in_numPageCacheDirtyPages this - 1)).
Definition FhgfsInode_getHasDirtyPages (this : FhgfsInode) : bool :=
  negb (in_numPageCacheDirtyPages this =? 0).

Definition FhgfsInode_incWriteBackCounter (this : FhgfsInode) : FhgfsInode :=
  set_writeBack this (s32 (in_writeBackCounter this + 1)).
Definition FhgfsInode_decWriteBackCounter (this : FhgfsInode) : FhgfsInode :=
  set_writeBack this (s32 (in_writeBackCounter this - 1)).

(** What the kernel knows about the mapping of the inode. *)
Record Mapping := mkMapping { tagged_dirty : bool; tagged_writeback : bool; writably_mapped : bool }.

Definition pages_outstanding (this : FhgfsInode) (mapping : Mapping) : bool :=
  FhgfsInode_getHasDirtyPages this || tagged_dirty mapping || tagged_writeback mapping || writably_mapped mapping.

Definition FhgfsInode_setNoIsizeDecrease (this : FhgfsInode) : FhgfsInode := set_noDecrease this 1.

Definition FhgfsInode_unsetNoIsizeDecrease (this : FhgfsInode) (mapping : Mapping) : FhgfsInode :=
  if in_noRemoteIsizeDecrease this =? 0 then this
  else if negb (in_writeBackCounter this =? 0) then this
  else if pages_outstanding this mapping then this
  else set_noDecrease this 0.

Record FhgfsIsizeHints := mkHints { hint_ignoreIsize : bool; hint_timeBeforeRemoteStat : Z }.

(** [None] for [this]: NULL. *)
Definition FhgfsInode_initIsizeHints (this : option (FhgfsInode * Mapping)) (jiffies : Z)
    (outISizeHints : FhgfsIsizeHints) : FhgfsIsizeHints :=
  match this with
  | Some (this, mapping) =>
      if negb (S_ISREG (i_mode this)) then outISizeHints
      else mkHints (negb (in_writeBackCounter this =? 0) || pages_outstanding this mapping) jiffies
  | None => mkHints false jiffies
  end.

(** ** Flags *)

Definition FhgfsInode_getHasPageWriteFlag (this : FhgfsInode) : Z := Z.land (in_flags this) CONGFS_INODE_FLAG_PAGED.
Definition FhgfsInode_setPageWriteFlag (this : FhgfsInode) : FhgfsInode :=
  if FhgfsInode_getHasPageWriteFlag this =? 0 then set_flags this (Z.lor (in_flags this) CONGFS_INODE_FLAG_PAGED)
  else this.
Definition FhgfsInode_setWritePageError (this : FhgfsInode) : FhgfsInode :=
  set_flags this (Z.lor (in_flags this) CONGFS_INODE_FLAG_WRITE_ERROR).
Definition FhgfsInode_clearWritePageError (this : FhgfsInode) : FhgfsInode :=
  set_flags this (Z.ldiff (in_flags this) CONGFS_INODE_FLAG_WRITE_ERROR).
Definition FhgfsInode_getHasWritePageError (this : FhgfsInode) : Z :=
  Z.land (in_flags this) CONGFS_INODE_FLAG_WRITE_ERROR.
