(* ===== verification/FhgfsInodeInv.v ===== *)
(** * Inodes: open files are accounted for

    The invariant of the file handles of an inode, against any interleaving of opening
    (with and without a file that a lookup has opened already), releasing and IO, and the
    theorems about [FhgfsInode]. *)

From stdpp Require Import functions.
From S2P Require Import Prelude StateMonad Serialization Vectors StripePattern BitStore EntryInfo StorageErrors NodeConnPool.
From S2P Require Import Remoting FhgfsOpsHelper FileCache FhgfsInode.

Definition pattern_ok (p : StripePattern) : Prop :=
  exists v, getStripeTargetIDs p = Some v /\ UInt16Vec_length v < 2 ^ 31.

(** The kernel writes the path of a file into the buffer. *)
Definition dentry_ok (d : option Dentry) : Prop :=
  forall f n pos p, d = Some f -> f n = Some (pos, p) -> 0 <= pos /\ pos + mlen p + 1 <= n.

(** An account of open files, by their IDs, that opening adds to and closing takes from.
    [Ledger] below is the one that the client itself could keep, for any servers. *)
Class InodeLaws (W : Type) `{!InodeEnv W} := {
  sessions : W -> list mem;
  law_openfile e io v ev w : forall r io' ver w',
    FhgfsOpsRemoting_openfile e io v ev w = ((r, (io', ver)), w') ->
    if r =? FhgfsOpsErr_SUCCESS then
      exists s p, fileHandleID io' = KAlloc s /\ pattern io' = Some p /\ pattern_ok p /\
        sessions w' ≡ₚ s :: sessions w
    else sessions w' ≡ₚ sessions w;
  law_closefile e io ev w s :
    fileHandleID io = KAlloc s -> s ∈ sessions w ->
    exists r w', FhgfsOpsHelper_closefileWithAsyncRetry e io ev w = Done (r, w') /\
      sessions w ≡ₚ s :: sessions w';
  law_truncfile e n ev w : sessions (snd (FhgfsOpsRemoting_truncfile e n ev w)) ≡ₚ sessions w;
  law_getFileVersion e w : sessions (snd (FhgfsOpsRemoting_getFileVersion e w)) ≡ₚ sessions w;
  law_getRootOwner w : sessions (snd (NodeStoreEx_getRootOwner w)) ≡ₚ sessions w;
  law_getHasRoot w : sessions (snd (FhgfsOps_getHasRootEntryInfo w)) ≡ₚ sessions w;
  law_setHasRoot b w : sessions (FhgfsOps_setHasRootEntryInfo b w) ≡ₚ sessions w;
  law_kmalloc w : sessions (snd (kmalloc_page w)) ≡ₚ sessions w;
  law_pagesize : 0 <= PAGE_SIZE <= 4096;
  law_blocksize : BITSTORE_BLOCK_SIZE = 4 \/ BITSTORE_BLOCK_SIZE = 8 }.

Section Inv.
Context {W : Type} `{!InodeEnv W} `{!InodeLaws W}.

Definition all_types : list FileHandleType := [FileHandleType_READ; FileHandleType_RW; FileHandleType_WRITE].

Definition id_of (h : FhgfsInodeFileHandle) : list mem :=
  if h_refCount h =? 0 then [] else match h_fileHandleID h with KAlloc s => [s] | _ => [] end.
Definition open_ids (this : FhgfsInode) : list mem := mjoin ((fun t => id_of (in_fileHandles this t)) <$> all_types).

(** [refs]: how many users hold a handle. *)
Definition handle_ok (refs : nat) (h : FhgfsInodeFileHandle) : Prop :=
  h_refCount h = Z.of_nat refs /\ (exists n, shape BITSTORE_BLOCK_SIZE n (h_firstWriteDone h)) /\
  (refs <> 0%nat -> exists s, h_fileHandleID h = KAlloc s).

(** [lost]: open files that nobody will close. *)
Definition inode_inv (base lost : list mem) (refs : FileHandleType -> nat) (s : W * FhgfsInode) : Prop :=
  (forall t, handle_ok (refs t) (in_fileHandles (snd s) t)) /\
  (forall p, in_pattern (snd s) = Some p -> pattern_ok p) /\
  (forall t, refs t <> 0%nat -> is_Some (in_pattern (snd s))) /\
  sessions (fst s) ≡ₚ open_ids (snd s) ++ lost ++ base.

(** ** What calls leave alone *)

Definition same_handles (s s' : W * FhgfsInode) : Prop :=
  sessions (fst s') ≡ₚ sessions (fst s) /\ in_fileHandles (snd s') = in_fileHandles (snd s) /\
  in_pattern (snd s') = in_pattern (snd s).

Lemma same_refl s : same_handles s s.
Proof. by split_and!. Qed.
Lemma same_trans s1 s2 s3 : same_handles s1 s2 -> same_handles s2 s3 -> same_handles s1 s3.
Proof. intros (H1 & H2 & H3) (H1' & H2' & H3'). split_and!; [by rewrite H1'|congruence..]. Qed.

Definition quiet {A} (m : I A) : Prop := forall s, swp m (fun _ => same_handles s) s.

Lemma quiet_ret {A} (a : A) : quiet (mret a : ST _ A).
Proof. intros s. apply swp_ret, same_refl. Qed.
Lemma quiet_bind {A B} (m : I A) (f : A -> I B) : quiet m -> (forall a, quiet (f a)) -> quiet (m ≫= f : ST _ B).
Proof.
  intros Hm Hf s. apply swp_bind. eapply swp_mono; [apply Hm|]. intros a s' H. cbn in H.
  eapply swp_mono; [apply Hf|]. cbn. intros ? s'' ?. by eapply same_trans.
Qed.
Lemma quiet_env {A} (f : W -> A * W) : (forall w, sessions (snd (f w)) ≡ₚ sessions w) -> quiet (env f).
Proof. intros H [w this]. unfold swp, env. specialize (H w). destruct (f w) as [a w']. by split_and!. Qed.
Lemma quiet_get : quiet get_inode.
Proof. intros s. apply same_refl. Qed.
Lemma quiet_entryInfo e : quiet (upd_inode (fun this => set_entryInfo this e)).
Proof. intros [w this]. unfold swp. cbn. destruct this. by split_and!. Qed.
Lemma quiet_if {A} (b : bool) (m m' : I A) : quiet m -> quiet m' -> quiet (if b then m else m').
Proof. by destruct b. Qed.

Lemma quiet_rootInfo : quiet MetadataTk_getRootEntryInfoCopy.
Proof. apply quiet_bind; [apply quiet_env, law_getRootOwner|]. intros. apply quiet_ret. Qed.
Lemma quiet_readLock : quiet FhgfsInode_entryInfoReadLock.
Proof.
  apply quiet_bind; [|intros; apply quiet_bind; intros; [apply quiet_get|apply quiet_ret]].
  apply quiet_bind; [apply quiet_get|]. intros this. apply quiet_bind; [apply quiet_env, law_getHasRoot|].
  intros has. apply quiet_if; [|apply quiet_ret]. apply quiet_bind; [apply quiet_env, law_getHasRoot|].
  intros has'. apply quiet_if; [apply quiet_ret|]. apply quiet_bind; [apply quiet_rootInfo|]. intros [ok e].
  apply quiet_bind; [apply quiet_entryInfo|]. intros ?. apply quiet_if; [|apply quiet_ret].
  apply quiet_env. intros. apply law_setHasRoot.
Qed.

(** The path of the file fits into the page that is allocated for it. *)
Lemma event_init_Done page type d : dentry_ok d -> exists e, FileEvent_init PAGE_SIZE page type d = Done e.
Proof.
  intros Hd. unfold FileEvent_init. destruct d as [f|]; [|by eexists]. destruct page; cbn [negb]; [|by eexists].
  destruct (f PAGE_SIZE) as [[pos p]|] eqn:E; [|by eexists]. destruct (Hd f _ _ _ eq_refl E) as [H0 Hlen].
  pose proof law_pagesize as Hps. pose proof (mlen_nonneg p).
  assert (Hm : mlen (replicate 4096 0) = 4096) by (unfold mlen; by rewrite length_replicate).
  assert (Ha : mlen (p ++ [0]) = mlen p + 1) by (by rewrite mlen_app).
  unfold write_block. rewrite (proj2 (in_range_true _ _ _)) by (rewrite Ha, Hm; lia).
  cbn [mbind outcome_bind]. rewrite read_block_Done; [by eexists|lia..|].
  rewrite mlen_put; lia.
Qed.

Lemma quiet_event wanted type d : dentry_ok d -> quiet (event_for wanted type d).
Proof.
  intros Hd. apply quiet_if; [apply quiet_ret|]. apply quiet_bind.
  { destruct d; [apply quiet_env, law_kmalloc|apply quiet_ret]. }
  intros page. apply quiet_bind; [|intros; apply quiet_ret].
  intros s. destruct (event_init_Done page type d Hd) as [e E]. by eapply swp_lift; [exact E|apply same_refl].
Qed.

Lemma quiet_trunc fl d : dentry_ok d -> quiet (__FhgfsInode_referenceTrunc fl d).
Proof.
  intros Hd. apply quiet_if; [apply quiet_ret|]. apply quiet_bind; [apply quiet_readLock|]. intros e.
  apply quiet_bind; [by apply quiet_event|]. intros ev. apply quiet_env. intros. apply law_truncfile.
Qed.

(** ** References *)

Definition bump (t : FileHandleType) (refs : FileHandleType -> nat) : FileHandleType -> nat :=
  <[t := S (refs t)]> refs.
Definition drop1 (t : FileHandleType) (refs : FileHandleType -> nat) : FileHandleType -> nat :=
  <[t := pred (refs t)]> refs.

Lemma inv_same base lost refs s s' : inode_inv base lost refs s -> same_handles s s' -> inode_inv base lost refs s'.
Proof.
  intros (H1 & H2 & H3 & H4) (E1 & E2 & E3). unfold inode_inv, open_ids. rewrite E1, E2, E3. by split_and!.
Qed.

Lemma handles_set t h this : in_fileHandles (set_handle t h this) = <[t := h]> (in_fileHandles this).
Proof. by destruct this. Qed.
Lemma pattern_set t h this : in_pattern (set_handle t h this) = in_pattern this.
Proof. by destruct this. Qed.

(** Only the ID of the handle that changes matters to the IDs that are open. *)
Lemma open_ids_set t h this :
  id_of h = id_of (in_fileHandles this t) -> open_ids (set_handle t h this) = open_ids this.
Proof.
  intros H. unfold open_ids. rewrite handles_set. f_equal. apply list_fmap_ext. intros i x _.
  destruct (decide (t = x)) as [->|Hne]; [by rewrite fn_lookup_insert|by rewrite fn_lookup_insert_ne].
Qed.
Lemma open_ids_add t h this s :
  id_of (in_fileHandles this t) = [] -> id_of h = [s] -> open_ids (set_handle t h this) ≡ₚ s :: open_ids this.
Proof.
  intros H0 H1. unfold open_ids. rewrite handles_set. unfold all_types.
  destruct t; cbn [fmap list_fmap mjoin list_join]; rewrite fn_lookup_insert, H0, H1, ?fn_lookup_insert_ne by done;
    cbn; solve_Permutation.
Qed.
Lemma open_ids_del t h this s :
  id_of (in_fileHandles this t) = [s] -> id_of h = [] -> open_ids this ≡ₚ s :: open_ids (set_handle t h this).
Proof.
  intros H0 H1. unfold open_ids. rewrite handles_set. unfold all_types.
  destruct t; cbn [fmap list_fmap mjoin list_join]; rewrite fn_lookup_insert, H0, H1, ?fn_lookup_insert_ne by done;
    cbn; solve_Permutation.
Qed.

Lemma handles_ref t this u :
  in_fileHandles (ref_handle t this) u =
    if decide (u = t) then
      let h := in_fileHandles this t in
      mkHandle (h_fileHandleID h) (u32 (h_refCount h + 1)) (h_needsAppendLockCleanup h)
        (h_maxUsedTargetIndex h) (h_firstWriteDone h)
    else in_fileHandles this u.
Proof.
  unfold ref_handle. rewrite handles_set. destruct (decide (u = t)) as [->|].
  - by rewrite fn_lookup_insert.
  - by rewrite fn_lookup_insert_ne.
Qed.

Lemma bump_at t refs u : bump t refs u = if decide (u = t) then S (refs t) else refs u.
Proof.
  unfold bump. destruct (decide (u = t)) as [->|]; [by rewrite fn_lookup_insert|by rewrite fn_lookup_insert_ne].
Qed.
Lemma drop1_at t refs u : drop1 t refs u = if decide (u = t) then pred (refs t) else refs u.
Proof.
  unfold drop1. destruct (decide (u = t)) as [->|]; [by rewrite fn_lookup_insert|by rewrite fn_lookup_insert_ne].
Qed.

(** One more user of an open handle. *)
Lemma inv_ref base lost refs w this t :
  inode_inv base lost refs (w, this) -> refs t <> 0%nat -> Z.of_nat (refs t) + 1 < 2 ^ 32 ->
  inode_inv base lost (bump t refs) (w, ref_handle t this).
Proof.
  intros (Hh & Hp & Hs & Hc) Ht Hm. destruct (Hh t) as (Er & Hb & Hid). cbn [snd fst] in *.
  assert (Eu : u32 (h_refCount (in_fileHandles this t) + 1) = Z.of_nat (S (refs t))) by (rewrite Er, u32_id; lia).
  split_and!; cbn [snd fst].
  - intros u. rewrite handles_ref, bump_at. destruct (decide (u = t)) as [->|]; [|apply Hh].
    split_and!; cbn; [done|done|]. intros _. by apply Hid.
  - intros p E. apply Hp. by destruct this.
  - intros u. rewrite bump_at. unfold ref_handle. rewrite pattern_set. intros _. by apply (Hs t).
  - unfold ref_handle. rewrite open_ids_set; [done|]. unfold id_of. cbn [h_refCount h_fileHandleID].
    rewrite Eu, Er. destruct (Z.eqb_spec (Z.of_nat (S (refs t))) 0); [lia|].
    destruct (Z.eqb_spec (Z.of_nat (refs t)) 0); [lia|done].
Qed.

Lemma reference_existing_inv t fl d v base lost refs s :
  dentry_ok d -> inode_inv base lost refs s -> refs t <> 0%nat -> Z.of_nat (refs t) + 1 < 2 ^ 32 ->
  swp (reference_existing t fl d v) (fun '(r, _) s' =>
    inode_inv base lost (if r =? FhgfsOpsErr_SUCCESS then bump t refs else refs) s') s.
Proof.
  intros Hd Hi Ht Hm. unfold reference_existing. apply swp_bind.
  eapply swp_mono; [by apply quiet_trunc|]. intros r s1 H1. cbn beta in H1 |- *.
  apply swp_bind. eapply (swp_mono _ (fun _ s2 => same_handles s1 s2)).
  { apply quiet_if; [|apply quiet_ret]. apply quiet_bind; [apply quiet_get|]. intros this.
    apply quiet_env, law_getFileVersion. }
  intros [r' ver] s2 H2. apply (inv_same _ _ _ _ s2) in Hi; [|by eapply same_trans].
  apply swp_bind. destruct (r' =? FhgfsOpsErr_SUCCESS) eqn:E.
  - destruct s2 as [w this]. unfold upd_inode, swp. cbn. rewrite E. by apply inv_ref.
  - cbn. unfold swp, mret, ST_ret. cbn. by rewrite E.
Qed.

Lemma store_handle_inv t id p base lost refs w this :
  (forall u, handle_ok (refs u) (in_fileHandles this u)) -> refs t = 0%nat -> pattern_ok p ->
  sessions w ≡ₚ id :: open_ids this ++ lost ++ base ->
  swp (store_handle t (KAlloc id) (Some p)) (fun _ s' => inode_inv base lost (bump t refs) s') (w, this).
Proof.
  intros Hh Ht (v & Ev & Hv) Hs. destruct (Hh t) as (Er & (n & Hb) & _). rewrite Ht in Er.
  set (h0 := in_fileHandles this t) in *. unfold store_handle. apply swp_bind. unfold upd_inode at 1. unfold swp at 1.
  cbn beta iota. apply swp_bind. unfold get_inode, swp at 1. cbn beta iota.
  assert (Ei : forall i, in_pattern (set_handle t i (set_inodePattern this (Some p))) = Some p) by (by destruct this).
  assert (Eh : forall i, in_fileHandles (set_handle t i (set_inodePattern this (Some p))) = <[t := i]> (in_fileHandles this))
    by (by destruct this).
  apply swp_bind. eapply swp_lift.
  { unfold FhgfsInode_getStripeCount. cbn [snd]. rewrite Ei. cbn [of_option mbind outcome_bind]. by rewrite Ev. }
  assert (Hv0 : 0 <= UInt16Vec_length v) by (unfold UInt16Vec_length; lia).
  unfold s32. rewrite swrap_id, u32_id by (unfold in_s; lia). cbn [snd]. rewrite Eh, fn_lookup_insert. fold h0. cbn [h_fileHandleID h_refCount h_firstWriteDone].
  pose proof law_blocksize as Hbs.
  destruct (setSize_shape BITSTORE_BLOCK_SIZE Hbs n (h_firstWriteDone h0) (UInt16Vec_length v) Hb) as (Hsh & _ & _).
  { destruct Hbs as [-> | ->]; lia. }
  apply swp_bind. eapply swp_lift; [by eapply clearBits_blocks|].
  unfold upd_inode, swp. cbn [fst snd]. set (bits := of_blocks _ _).
  assert (Hbits : exists n', shape BITSTORE_BLOCK_SIZE n' bits).
  { eexists. apply shape_of_blocks, zero_blocks_wf; destruct Hsh as (? & ? & _); lia. }
  set (this2 := ref_handle _ _).
  assert (Eh2 : forall u, in_fileHandles this2 u =
    if decide (u = t) then mkHandle (KAlloc id) 1 (h_needsAppendLockCleanup h0) (h_maxUsedTargetIndex h0) bits
    else in_fileHandles this u).
  { assert (E0 : in_fileHandles (set_inodePattern this (Some p)) = in_fileHandles this) by (by destruct this).
    intros u. unfold this2. rewrite handles_ref, !handles_set, E0. destruct (decide (u = t)) as [->|Hne].
    - rewrite !fn_lookup_insert. cbn. by rewrite Er.
    - by rewrite !fn_lookup_insert_ne. }
  assert (Ep : in_pattern (set_inodePattern this (Some p)) = Some p) by (by destruct this).
  split_and!; cbn [fst snd].
  - intros u. rewrite Eh2, bump_at. destruct (decide (u = t)) as [->|]; [|done].
    split_and!; cbn; [by rewrite Ht|done|]. intros _. by eexists.
  - intros q. unfold this2, ref_handle. rewrite !pattern_set, Ep. intros [= <-]. by exists v.
  - intros u _. unfold this2, ref_handle. rewrite !pattern_set, Ep. by eexists.
  - rewrite Hs.
    assert (Eo : open_ids this2 = open_ids (set_handle t (in_fileHandles this2 t) this)).
    { unfold open_ids. f_equal. apply list_fmap_ext. intros i u _. rewrite handles_set, Eh2.
      destruct (decide (u = t)) as [->|]; [by rewrite fn_lookup_insert, Eh2, decide_True|by rewrite fn_lookup_insert_ne]. }
    rewrite Eo, (open_ids_add t _ this id); [done| |].
    + unfold id_of. fold h0. by rewrite Er.
    + by rewrite Eh2, decide_True.
Qed.

Definition fits (refs : FileHandleType -> nat) : Prop := forall t, Z.of_nat (refs t) + 1 < 2 ^ 32.

Lemma refs_zero base lost refs s t :
  inode_inv base lost refs s -> (h_refCount (in_fileHandles (snd s) t) =? 0) = bool_decide (refs t = 0%nat).
Proof.
  intros (Hh & _). destruct (Hh t) as (-> & _).
  destruct (Z.eqb_spec (Z.of_nat (refs t)) 0), (bool_decide_reflect (refs t = 0%nat)); done || lia.
Qed.

(** The handle that a call without a lookup returns, and whether it was open. *)
Definition chosen (fl : Z) (rw : bool) (refs : FileHandleType -> nat) : FileHandleType :=
  let t := __FhgfsInode_openFlagsToHandleType fl in
  if decide (refs t = 0%nat) then
    if rw && negb (bool_decide (refs FileHandleType_RW = 0%nat)) then FileHandleType_RW else t
  else t.

Lemma reference_inv d fl rw v base lost refs s :
  dentry_ok d -> inode_inv base lost refs s -> fits refs ->
  swp (FhgfsInode_referenceHandle d fl rw None v) (fun '(r, (t, _)) s' =>
    if r =? FhgfsOpsErr_SUCCESS then t = chosen fl rw refs /\ inode_inv base lost (bump t refs) s'
    else inode_inv base lost refs s') s.
Proof.
  intros Hd Hi Hf. unfold FhgfsInode_referenceHandle, chosen. set (t := __FhgfsInode_openFlagsToHandleType fl).
  apply swp_bind. unfold get_inode, swp at 1. cbn beta iota. rewrite !(refs_zero base lost refs s) by done.
  destruct (bool_decide_reflect (refs t = 0%nat)) as [Et|Et]; cbn [negb].
  2: { rewrite decide_False by done. apply swp_bind.
       eapply swp_mono; [by apply reference_existing_inv|]. intros [r ver] s' H. apply swp_ret.
       by destruct (r =? FhgfsOpsErr_SUCCESS). }
  rewrite decide_True by done. destruct (rw && _) eqn:Erw.
  { apply andb_true_iff in Erw as [-> Hrw%negb_true_iff%bool_decide_eq_false]. apply swp_bind.
    eapply swp_mono; [by apply reference_existing_inv|]. intros [r ver] s' H. apply swp_ret.
    by destruct (r =? FhgfsOpsErr_SUCCESS). }
  destruct s as [w this]. cbn [snd]. apply swp_bind. eapply swp_mono; [apply quiet_readLock|]. intros e s1 H1.
  cbn beta in H1. apply swp_bind. eapply (swp_mono _ (fun _ s2 => same_handles s1 s2)).
  { apply quiet_if; by apply quiet_event. }
  intros ev [w2 this2] H2. assert (H : same_handles (w, this) (w2, this2)) by (by eapply same_trans).
  destruct (inv_same _ _ _ _ _ Hi H) as (Hh & Hp & Hpat & Hs). cbn [fst snd] in *.
  apply swp_bind. unfold env, swp at 1.
  destruct (FhgfsOpsRemoting_openfile e _ v ev w2) as [[r [io' ver]] w3] eqn:Eo. apply law_openfile in Eo.
  cbn beta iota. apply swp_bind. unfold upd_inode, swp at 1. cbn beta iota. apply swp_bind.
  set (this3 := set_inodePathInfo this2 _).
  assert (Eh3 : in_fileHandles this3 = in_fileHandles this2 /\ in_pattern this3 = in_pattern this2) by (by destruct this2).
  destruct Eh3 as [Eh3 Ep3].
  assert (Eo3 : open_ids this3 = open_ids this2) by (unfold open_ids; by rewrite Eh3).
  destruct (r =? FhgfsOpsErr_SUCCESS) eqn:E.
  - destruct Eo as (id & p & -> & -> & Hok & Hs3). eapply swp_mono.
    { apply (store_handle_inv t id p base lost refs); [by rewrite Eh3|done|done|].
      by rewrite Hs3, Hs, Eo3. }
    intros ? s' H'. cbn. unfold swp, mret, ST_ret. cbn. by rewrite E.
  - unfold swp, mret, ST_ret. cbn. rewrite E. split_and!; cbn [fst snd]; rewrite ?Eh3, ?Ep3; [done..|].
    by rewrite Eo, Hs, Eo3.
Qed.

(** With a file that a lookup has opened: it becomes the handle, unless there is one
    already.  In that case nobody takes the new file. *)
Lemma reference_lookup_inv d fl l v n id info p base lost refs w this :
  dentry_ok d -> fits refs -> lo_fileHandleID l = Some (n, KAlloc id) -> lo_pathInfo l = Some info ->
  lo_stripePattern l = Some p -> pattern_ok p ->
  inode_inv base (id :: lost) refs (w, this) ->
  let t := __FhgfsInode_openFlagsToHandleType fl in
  swp (FhgfsInode_referenceHandle d fl false (Some l) v) (fun '(r, (t', _)) s' =>
    t' = t /\
    if r =? FhgfsOpsErr_SUCCESS
    then inode_inv base (if decide (refs t = 0%nat) then lost else id :: lost) (bump t refs) s'
    else refs t <> 0%nat /\ inode_inv base (id :: lost) refs s') (w, this).
Proof.
  intros Hd Hf Eid Einfo Epat Hok Hi t. unfold FhgfsInode_referenceHandle. fold t.
  apply swp_bind. unfold get_inode, swp at 1. cbn beta iota. rewrite (refs_zero _ _ _ _ t Hi).
  destruct (bool_decide_reflect (refs t = 0%nat)) as [Et|Et]; cbn [negb].
  2: { rewrite decide_False by done. apply swp_bind.
       eapply swp_mono; [by apply reference_existing_inv|]. intros [r ver] s' H. apply swp_ret.
       by destruct (r =? FhgfsOpsErr_SUCCESS). }
  rewrite decide_True by done. cbn [andb]. rewrite Eid, Einfo, Epat. apply swp_bind. eapply swp_lift; [done|].
  cbn beta iota. apply swp_bind. eapply swp_lift; [done|]. apply swp_bind. unfold upd_inode, swp at 1. cbn beta iota.
  set (this3 := set_inodePathInfo this _).
  assert (Eh3 : in_fileHandles this3 = in_fileHandles this) by (by destruct this).
  assert (Eo3 : open_ids this3 = open_ids this) by (unfold open_ids; by rewrite Eh3).
  destruct Hi as (Hh & Hp & Hpat & Hs). cbn [fst snd] in *. apply swp_bind. eapply swp_mono.
  { apply (store_handle_inv t id p base lost refs); [by rewrite Eh3|done|done|].
    rewrite Hs, Eo3. solve_Permutation. }
  intros ? s' H'. apply swp_ret. by split.
Qed.

(** A handle without users is closed on the server, and its ID freed. *)
Lemma close_handle_inv t h d id base lost refs w this :
  dentry_ok d -> h_refCount h = 0 -> h_fileHandleID h = KAlloc id ->
  (exists n, shape BITSTORE_BLOCK_SIZE n (h_firstWriteDone h)) -> in_fileHandles this t = h ->
  (forall u, u <> t -> handle_ok (refs u) (in_fileHandles this u)) -> refs t = 0%nat ->
  (forall p, in_pattern this = Some p -> pattern_ok p) -> (forall u, refs u <> 0%nat -> is_Some (in_pattern this)) ->
  sessions w ≡ₚ id :: open_ids this ++ lost ++ base ->
  swp (close_handle t h d) (fun _ s' => inode_inv base lost refs s') (w, this).
Proof.
  intros Hd E0 Eid (n & Hb) Eh Hh Ht Hp Hpat Hs. unfold close_handle. apply swp_bind. unfold get_inode, swp at 1.
  cbn beta iota. cbn [snd]. apply swp_bind. eapply swp_mono; [apply quiet_readLock|]. intros e s1 H1. cbn beta in H1.
  apply swp_bind. eapply swp_mono; [apply quiet_event, Hd|]. intros ev [w2 this2] H2. cbn beta in H2.
  destruct (same_trans _ _ _ H1 H2) as (Hs2 & Eh2 & Ep2). cbn [fst snd] in *. clear H1 H2.
  set (io := __FhgfsInode_initOpenIOInfo _ _ _ _).
  destruct (law_closefile e io ev w2 id) as (r & w3 & Ec & Hs3); [done| |].
  { rewrite Hs2, Hs. left. }
  apply swp_bind. unfold swp at 1. rewrite Ec. cbn [mbind outcome_bind]. cbn beta iota.
  apply swp_bind. eapply swp_lift; [by rewrite Eid|].
  apply swp_bind. unfold upd_inode, swp at 1. cbn beta iota. apply swp_ret.
  set (h2 := mkHandle _ _ _ _ _). split_and!; cbn [fst snd]; rewrite ?pattern_set, ?Ep2; [|done|done|].
  - intros u. rewrite handles_set, Eh2. destruct (decide (u = t)) as [->|Hne].
    + rewrite fn_lookup_insert. pose proof law_blocksize as Hbs. split_and!; cbn; [by rewrite Ht| |done].
      eexists. by apply (setSize_shape BITSTORE_BLOCK_SIZE Hbs n _ 0 Hb); destruct Hbs as [-> | ->].
    + rewrite fn_lookup_insert_ne by done. by apply Hh.
  - assert (Eo : open_ids (set_handle t h2 this2) = open_ids this).
    { unfold open_ids. f_equal. apply list_fmap_ext. intros i u _. rewrite handles_set, Eh2.
      destruct (decide (u = t)) as [->|Hne]; [|by rewrite fn_lookup_insert_ne].
      rewrite fn_lookup_insert, Eh. unfold id_of, h2. cbn [h_refCount]. by rewrite E0. }
    rewrite Eo. apply (Permutation_cons_inv (a := id)). by rewrite <- Hs3, Hs2, Hs.
Qed.

Lemma release_inv t d base lost refs s :
  dentry_ok d -> inode_inv base lost refs s -> refs t <> 0%nat ->
  swp (FhgfsInode_releaseHandle t d) (fun _ s' => inode_inv base lost (drop1 t refs) s') s.
Proof.
  intros Hd Hi Ht. unfold FhgfsInode_releaseHandle. apply swp_bind. unfold get_inode, swp at 1. cbn beta iota.
  rewrite (refs_zero _ _ _ _ t Hi). rewrite bool_decide_false by done.
  destruct s as [w this]. destruct Hi as (Hh & Hp & Hpat & Hs). cbn [fst snd] in *.
  destruct (Hh t) as (Er & (n & Hb) & Hid). destruct (Hid Ht) as [id Eid]. set (h0 := in_fileHandles this t) in *.
  apply swp_bind. unfold upd_inode at 1, swp at 1. cbn beta iota. cbn [h_refCount].
  set (h1 := mkHandle _ (h_refCount h0 - 1) _ _ _). set (this1 := set_handle t h1 this).
  destruct (refs t) as [|k] eqn:Ek; [done|].
  assert (Eh1 : forall u, in_fileHandles this1 u = if decide (u = t) then h1 else in_fileHandles this u).
  { intros u. unfold this1. rewrite handles_set.
    destruct (decide (u = t)) as [->|]; [by rewrite fn_lookup_insert|by rewrite fn_lookup_insert_ne]. }
  assert (Ep1 : in_pattern this1 = in_pattern this) by apply pattern_set.
  assert (Hpat' : forall u, drop1 t refs u <> 0%nat -> is_Some (in_pattern this)).
  { intros u Hu. apply (Hpat t). by rewrite Ek. }
  destruct (Z.eqb_spec (h_refCount h0 - 1) 0) as [E0|E0]; cbn [negb].
  - assert (k = 0%nat) as -> by lia. apply (close_handle_inv t h1 d id); rewrite ?Ep1; try done.
    + by exists n.
    + by rewrite Eh1, decide_True.
    + intros u Hu. rewrite Eh1, drop1_at, !decide_False by done. apply Hh.
    + by rewrite drop1_at, decide_True, Ek.
    + rewrite Hs, (open_ids_del t h1 this id); [done| |]; unfold id_of; fold h0; cbn [h_refCount h_fileHandleID h1].
      * by rewrite Er, Eid.
      * by rewrite E0.
  - apply swp_ret. split_and!; cbn [fst snd]; rewrite ?Ep1; [|done|done|].
    + intros u. rewrite Eh1, drop1_at. destruct (decide (u = t)) as [->|]; [|done].
      split_and!; cbn; [rewrite Er, Ek; lia|by eexists|]. intros _. by eexists.
    + unfold this1. rewrite open_ids_set; [done|]. unfold id_of. fold h0. cbn [h_refCount h_fileHandleID h1].
      rewrite Er. destruct (Z.eqb_spec (Z.of_nat (S k) - 1) 0); [lia|]. by destruct (Z.eqb_spec (Z.of_nat (S k)) 0).
Qed.

(** ** Any use of an inode *)

(** The inode with its surroundings; how many users hold each handle; the files that a
    lookup opened and that no handle took. *)
Record Users := mkUsers { u_state : W * FhgfsInode; u_refs : FileHandleType -> nat; u_lost : list mem }.

(** What an inode is used for.  IO changes what a handle points to, other inodes have
    files of their own, and a file that could not be referenced is closed by its opener. *)
Inductive ustep : Users -> Users -> Prop :=
| U_reference d fl rw v r t ver s s' refs lost :
    dentry_ok d -> fits refs ->
    FhgfsInode_referenceHandle d fl rw None v s = Done ((r, (t, ver)), s') ->
    ustep (mkUsers s refs lost)
      (mkUsers s' (if r =? FhgfsOpsErr_SUCCESS then bump t refs else refs) lost)
| U_lookup d fl v l n id info p w w' this t ver s' refs lost :
    dentry_ok d -> fits refs -> lo_fileHandleID l = Some (n, KAlloc id) -> lo_pathInfo l = Some info ->
    lo_stripePattern l = Some p -> pattern_ok p -> sessions w' ≡ₚ id :: sessions w ->
    FhgfsInode_referenceHandle d fl false (Some l) v (w', this) = Done ((FhgfsOpsErr_SUCCESS, (t, ver)), s') ->
    ustep (mkUsers (w, this) refs lost)
      (mkUsers s' (bump t refs) (if decide (refs t = 0%nat) then lost else id :: lost))
| U_lookup_failed d fl v l n id info p w w' this r t ver w2 w3 this2 refs lost :
    dentry_ok d -> fits refs -> lo_fileHandleID l = Some (n, KAlloc id) -> lo_pathInfo l = Some info ->
    lo_stripePattern l = Some p -> pattern_ok p -> sessions w' ≡ₚ id :: sessions w ->
    FhgfsInode_referenceHandle d fl false (Some l) v (w', this) = Done ((r, (t, ver)), (w2, this2)) ->
    r <> FhgfsOpsErr_SUCCESS -> sessions w2 ≡ₚ id :: sessions w3 ->
    ustep (mkUsers (w, this) refs lost) (mkUsers (w3, this2) refs lost)
| U_release t d r s s' refs lost :
    dentry_ok d -> refs t <> 0%nat -> FhgfsInode_releaseHandle t d s = Done (r, s') ->
    ustep (mkUsers s refs lost) (mkUsers s' (drop1 t refs) lost)
| U_io t clean maxIdx bits w this refs lost :
    (exists n, shape BITSTORE_BLOCK_SIZE n bits) ->
    let h := in_fileHandles this t in
    ustep (mkUsers (w, this) refs lost)
      (mkUsers (w, set_handle t (mkHandle (h_fileHandleID h) (h_refCount h) clean maxIdx bits) this) refs lost)
| U_elsewhere w w' this refs lost :
    sessions w' ≡ₚ sessions w -> ustep (mkUsers (w, this) refs lost) (mkUsers (w', this) refs lost).

Definition accounted (base : list mem) (u : Users) : Prop := inode_inv base (u_lost u) (u_refs u) (u_state u).

Lemma ustep_accounted base u u' : accounted base u -> ustep u u' -> accounted base u'.
Proof.
  unfold accounted. intros Hi Hstep.
  destruct Hstep as [d fl rw v r t ver s s' refs lost Hd Hf E
    |d fl v l n id info p w w' this t ver s' refs lost Hd Hf Ei Ein Ep Hok Hs E
    |d fl v l n id info p w w' this r t ver w2 w3 this2 refs lost Hd Hf Ei Ein Ep Hok Hs E Hr Hs3
    |t d r s s' refs lost Hd Ht E|t clean maxIdx bits w this refs lost Hb h|w w' this refs lost Hs];
    cbn [u_lost u_refs u_state] in *.
  - pose proof (reference_inv d fl rw v base lost refs s Hd Hi Hf) as H. unfold swp in H. rewrite E in H.
    destruct (r =? FhgfsOpsErr_SUCCESS); [by destruct H|done].
  - assert (Hi' : inode_inv base (id :: lost) refs (w', this)).
    { destruct Hi as (H1 & H2 & H3 & H4). split_and!; [done..|]. cbn [fst snd] in *. rewrite Hs, H4. solve_Permutation. }
    pose proof (reference_lookup_inv d fl l v n id info p base lost refs w' this Hd Hf Ei Ein Ep Hok Hi') as H.
    unfold swp in H. rewrite E in H. by destruct H as [-> H].
  - assert (Hi' : inode_inv base (id :: lost) refs (w', this)).
    { destruct Hi as (H1 & H2 & H3 & H4). split_and!; [done..|]. cbn [fst snd] in *. rewrite Hs, H4. solve_Permutation. }
    pose proof (reference_lookup_inv d fl l v n id info p base lost refs w' this Hd Hf Ei Ein Ep Hok Hi') as H.
    unfold swp in H. rewrite E in H. destruct H as [_ H]. destruct (Z.eqb_spec r FhgfsOpsErr_SUCCESS); [done|].
    destruct H as (_ & H1 & H2 & H3 & H4). split_and!; [done..|]. cbn [fst snd] in *.
    apply (Permutation_cons_inv (a := id)). rewrite <- Hs3, H4. solve_Permutation.
  - pose proof (release_inv t d base lost refs s Hd Hi Ht) as H. unfold swp in H. by rewrite E in H.
  - destruct Hi as (H1 & H2 & H3 & H4). split_and!; cbn [fst snd] in *; rewrite ?pattern_set; [|done|done|].
    + intros u. rewrite handles_set. destruct (decide (u = t)) as [->|Hne]; [|rewrite fn_lookup_insert_ne by done; apply H1].
      rewrite fn_lookup_insert. destruct (H1 t) as (? & _ & ?). by split_and!.
    + by rewrite open_ids_set.
  - destruct Hi as (H1 & H2 & H3 & H4). split_and!; [done..|]. cbn [fst snd] in *. by rewrite Hs.
Qed.

Lemma init_accounted bsz emptyInfo now this w : bsz = BITSTORE_BLOCK_SIZE ->
  accounted (sessions w) (mkUsers (w, FhgfsInode_allocInit bsz emptyInfo now this) (fun _ => 0%nat) []).
Proof.
  intros ->. split_and!; cbn [fst snd]; [|done|done|done]. intros t. split_and!; [done| |done].
  exists 1. apply init_shape, law_blocksize.
Qed.

(** From a new inode on, in every sequence of uses, any account of the open files has the
    handles of the inode, the files of others, and those that no handle took. *)
Lemma inode_accounted (emptyInfo : EntryInfo mem) (now : timespec) (this0 : FhgfsInode) (w0 : W) (u : Users) :
  rtc ustep (mkUsers (w0, FhgfsInode_allocInit BITSTORE_BLOCK_SIZE emptyInfo now this0) (fun _ => 0%nat) []) u ->
  let w := fst (u_state u) in let this := snd (u_state u) in
  (forall t, h_refCount (in_fileHandles this t) = Z.of_nat (u_refs u t) /\
     (u_refs u t <> 0%nat -> (exists id, h_fileHandleID (in_fileHandles this t) = KAlloc id) /\ is_Some (in_pattern this))) /\
  sessions w ≡ₚ open_ids this ++ u_lost u ++ sessions w0 /\
  (FhgfsInode_getIsFileOpen this = false -> sessions w ≡ₚ u_lost u ++ sessions w0) /\
  (forall d fl rw v, dentry_ok d -> fits (u_refs u) -> exists a s, FhgfsInode_referenceHandle d fl rw None v (u_state u) = Done (a, s)) /\
  (forall t d, dentry_ok d -> u_refs u t <> 0%nat -> exists a s, FhgfsInode_releaseHandle t d (u_state u) = Done (a, s)).
Proof.
  intros Hr. assert (Hi : accounted (sessions w0) u).
  { remember (mkUsers _ _ _) as u0 eqn:E. assert (H0 : accounted (sessions w0) u0) by (subst; by apply init_accounted).
    clear E. induction Hr as [|u1 u2 u3 H12 H23 IH]; [done|]. apply IH. by eapply ustep_accounted. }
  unfold accounted in Hi. destruct u as [[w this] refs lost]. cbn [u_state u_refs u_lost] in *.
  pose proof Hi as (Hh & _ & Hp & Hs). cbn [fst snd] in *. split_and!.
  - intros t. destruct (Hh t) as (H1 & _ & H3). split; [done|]. intros Ht. split; [by apply H3|by apply (Hp t)].
  - done.
  - intros Ho. rewrite Hs. replace (open_ids this) with (@nil mem); [done|]. unfold FhgfsInode_getIsFileOpen in Ho.
    cbn [existsb] in Ho. apply orb_false_iff in Ho as [H1%negb_false_iff Ho]. apply orb_false_iff in Ho as [H2%negb_false_iff Ho].
    apply orb_false_iff in Ho as [H3%negb_false_iff _]. unfold open_ids, id_of, all_types. cbn [fmap list_fmap mjoin list_join]. by rewrite H1, H2, H3.
  - intros d fl rw v Hd Hf. pose proof (reference_inv d fl rw v _ _ _ _ Hd Hi Hf) as H. apply swp_run in H as (a & s & E & _). by eexists _, _.
  - intros t d Hd Ht. pose proof (release_inv t d _ _ _ _ Hd Hi Ht) as H. apply swp_run in H as (a & s & E & _). by eexists _, _.
Qed.

Lemma ustep_lost u u' : ustep u u' -> u_lost u ⊆ u_lost u'.
Proof. intros H. destruct H; cbn; try done. case_decide; [done|]. set_solver. Qed.

(** A file that a lookup opened is lost when there is a handle.  A call that finds an
    open handle does not look at what it gets from the lookup: it runs as it does without
    one.  So when a file that is open already is opened again through a lookup, the
    server keeps the new file open whatever happens to the inode later, also when all its
    users are gone. *)
Theorem lookup_handle_lost (d : option Dentry) (fl : Z) (v : bool) (l : LookupIntentInfoOut) (n : Z) (id : mem)
    (info : PathInfo mem) (p : StripePattern) (base : list mem) (u u' : Users) (w' : W) (ver : option Z) (s' : W * FhgfsInode) :
  let t := __FhgfsInode_openFlagsToHandleType fl in
  let this := snd (u_state u) in
  accounted base u -> u_refs u t <> 0%nat -> dentry_ok d -> fits (u_refs u) ->
  lo_fileHandleID l = Some (n, KAlloc id) -> lo_pathInfo l = Some info -> lo_stripePattern l = Some p -> pattern_ok p ->
  sessions w' ≡ₚ id :: sessions (fst (u_state u)) ->
  FhgfsInode_referenceHandle d fl false (Some l) v (w', this) = Done ((FhgfsOpsErr_SUCCESS, (t, ver)), s') ->
  FhgfsInode_referenceHandle d fl false None v (w', this) = Done ((FhgfsOpsErr_SUCCESS, (t, ver)), s') /\
  (rtc ustep (mkUsers s' (bump t (u_refs u)) (id :: u_lost u)) u' -> id ∈ sessions (fst (u_state u'))).
Proof.
  intros t this Hi Ht Hd Hf Ei Ein Ep Hok Hs E. split.
  - rewrite <- E. unfold FhgfsInode_referenceHandle, mbind, I_bind, ST_bind, get_inode. cbn [snd]. fold t.
    pose proof (refs_zero _ _ _ _ t Hi) as Hz. fold this in Hz. rewrite Hz. by rewrite bool_decide_false.
  - destruct u as [[w this'] refs lost]. cbn [u_state u_refs u_lost fst snd] in *.
    assert (Hstep : ustep (mkUsers (w, this) refs lost) (mkUsers s' (bump t refs) (id :: lost))).
    { pose proof (U_lookup d fl v l n id info p w w' this t ver s' refs lost Hd Hf Ei Ein Ep Hok Hs E) as H.
      by rewrite decide_False in H. }
    apply (ustep_accounted base) in Hstep; [|done]. intros Hr.
    assert (H : accounted base u' /\ id ∈ u_lost u').
    { remember (mkUsers s' _ _) as u0 eqn:E0. assert (H0 : id ∈ u_lost u0) by (subst; left). clear E0 E.
      induction Hr as [|u1 u2 u3 H12 H23 IH]; [done|].
      apply IH; [by eapply ustep_accounted|by eapply ustep_lost]. }
    destruct H as [(_ & _ & _ & Hs') Hl]. rewrite Hs'. apply elem_of_app. right. apply elem_of_app. by left.
Qed.

(** The path of an event is written behind its page.  [FileEvent_init] allocates 4096
    bytes and lets the kernel put the path at the end of [PAGE_SIZE] bytes: with larger
    pages, as on some machines, each event with a path overwrites memory behind. *)
Theorem event_path_overrun (ps type : Z) (f : Dentry) (p : mem) :
  4096 < ps -> f ps = Some (ps - mlen p - 1, p) -> FileEvent_init ps true type (Some f) = Fault.
Proof.
  intros Hps E. unfold FileEvent_init. cbn [negb]. rewrite E. unfold write_block.
  destruct (in_range _ _ _) eqn:Hr; [|done]. apply in_range_true in Hr as (_ & _ & Hr).
  assert (Hm : mlen (replicate 4096 0) = 4096) by (unfold mlen; by rewrite length_replicate).
  rewrite Hm, mlen_app in Hr. change (mlen [0]) with 1 in Hr. lia.
Qed.
End Inv.

(** ** The ledger of the client

    What the client knows of its open files, next to surroundings [W] that answer as they
    like: the IDs that it got from successful openings and that it has not yet asked to
    close.  To ask for it includes leaving the request to the syncer; what becomes of the
    request is not the inode's business. *)

(** All that is needed of the calls: a successful opening delivers an ID and a stripe
    pattern, and the request to close a file that has an ID returns. *)
Class InodeCalls (W : Type) `{!InodeEnv W} := {
  call_openfile e io v ev (w : W) : forall io' ver w',
    FhgfsOpsRemoting_openfile e io v ev w = ((FhgfsOpsErr_SUCCESS, (io', ver)), w') ->
    exists s p, fileHandleID io' = KAlloc s /\ pattern io' = Some p /\ pattern_ok p;
  call_closefile e io ev (w : W) s : fileHandleID io = KAlloc s ->
    exists r w', FhgfsOpsHelper_closefileWithAsyncRetry e io ev w = Done (r, w');
  call_pagesize : 0 <= PAGE_SIZE <= 4096;
  call_blocksize : BITSTORE_BLOCK_SIZE = 4 \/ BITSTORE_BLOCK_SIZE = 8 }.

Fixpoint close_id (id : mem) (l : list mem) : list mem :=
  match l with [] => [] | x :: l => if decide (x = id) then l else x :: close_id id l end.

Lemma close_id_Permutation id l : id ∈ l -> l ≡ₚ id :: close_id id l.
Proof.
  induction l as [|x l IH]; cbn; [by intros ?%elem_of_nil|]. intros H. case_decide as E; [by subst|].
  apply elem_of_cons in H as [->|H]; [done|]. rewrite (IH H) at 1. solve_Permutation.
Qed.

Module Ledger.
Section Ledger.
Context {W : Type} `{!InodeEnv W}.

Definition pass {A} (f : W -> A * W) (wl : W * list mem) : A * (W * list mem) :=
  let '(a, w) := f (fst wl) in (a, (w, snd wl)).

Definition opened (r : Z) (io : RemotingIOInfo) (l : list mem) : list mem :=
  if r =? FhgfsOpsErr_SUCCESS then match fileHandleID io with KAlloc s => s :: l | _ => l end else l.
Definition closed (io : RemotingIOInfo) (l : list mem) : list mem :=
  match fileHandleID io with KAlloc s => close_id s l | _ => l end.

(** The calls of [W], which are written down. *)
#[export] Instance env : InodeEnv (W * list mem) := {|
  FhgfsOpsRemoting_openfile e io v ev wl :=
    let '((r, (io', ver)), w) := FhgfsOpsRemoting_openfile e io v ev (fst wl) in
    ((r, (io', ver)), (w, opened r io' (snd wl)));
  FhgfsOpsHelper_closefileWithAsyncRetry e io ev wl :=
    '(r, w) ← FhgfsOpsHelper_closefileWithAsyncRetry e io ev (fst wl);
    Done (r, (w, closed io (snd wl)));
  FhgfsOpsRemoting_truncfile e n ev := pass (FhgfsOpsRemoting_truncfile e n ev);
  FhgfsOpsRemoting_getFileVersion e := pass (FhgfsOpsRemoting_getFileVersion e);
  NodeStoreEx_getRootOwner := pass NodeStoreEx_getRootOwner;
  FhgfsOps_getHasRootEntryInfo := pass FhgfsOps_getHasRootEntryInfo;
  FhgfsOps_setHasRootEntryInfo b wl := (FhgfsOps_setHasRootEntryInfo b (fst wl), snd wl);
  kmalloc_page := pass kmalloc_page;
  PAGE_SIZE := PAGE_SIZE (W := W);
  eventLogMask := eventLogMask (W := W);
  BITSTORE_BLOCK_SIZE := BITSTORE_BLOCK_SIZE (W := W) |}.

Lemma pass_ledger {A} (f : W -> A * W) wl : snd (snd (pass f wl)) = snd wl.
Proof. unfold pass. by destruct (f (fst wl)). Qed.

#[export] Instance laws `{!InodeCalls W} : InodeLaws (W * list mem).
Proof.
  refine {| sessions := snd |}; try (intros; cbn; by rewrite pass_ledger).
  - intros e io v ev [w l] r io' ver [w' l']. cbn.
    destruct (FhgfsOpsRemoting_openfile e io v ev w) as [[r0 [io0 v0]] w0] eqn:E.
    intros [= <- <- <- <- <-]. unfold opened. destruct (Z.eqb_spec r0 FhgfsOpsErr_SUCCESS) as [->|]; [|done].
    apply call_openfile in E as (s & p & E1 & E2 & E3). exists s, p. by rewrite E1.
  - intros e io ev [w l] s Es Hin. cbn. destruct (call_closefile e io ev w s Es) as (r & w' & ->).
    eexists r, (w', _). split; [done|]. cbn. unfold closed. rewrite Es. by apply close_id_Permutation.
  - done.
  - exact (call_pagesize (W := W)).
  - exact (call_blocksize (W := W)).
Defined.
(** The ledger is only written down: without it, the code does the same. *)
Definition erase {A} (o : outcome (A * ((W * list mem) * FhgfsInode))) : outcome (A * (W * FhgfsInode)) :=
  '(a, (wl, this)) ← o; Done (a, (fst wl, this)).

Definition erases {A} (m : ST ((W * list mem) * FhgfsInode) A) (m' : ST (W * FhgfsInode) A) : Prop :=
  forall wl this, m' (fst wl, this) = erase (m (wl, this)).

Lemma erases_ret {A} (a : A) : erases (mret a) (mret a).
Proof. done. Qed.
Lemma erases_bind {A B} m m' (f : A -> ST ((W * list mem) * FhgfsInode) B) f' :
  erases m m' -> (forall a, erases (f a) (f' a)) -> erases (m ≫= f) (m' ≫= f').
Proof.
  intros Hm Hf wl this. unfold mbind, ST_bind. rewrite Hm. unfold erase.
  destruct (m (wl, this)) as [[a [wl' this']]|]; [|done]. apply Hf.
Qed.
Lemma erases_pass {A} (f : W -> A * W) : erases (FhgfsInode.env (pass f)) (FhgfsInode.env f).
Proof. intros [w l] this. unfold FhgfsInode.env, pass. cbn. by destruct (f w). Qed.
Lemma erases_lift {A} (o : outcome A) : erases (lift o) (lift o).
Proof. intros wl this. unfold lift, st_lift. by destruct o. Qed.
Lemma erases_get : erases get_inode get_inode.
Proof. done. Qed.
Lemma erases_upd f : erases (upd_inode f) (upd_inode f).
Proof. done. Qed.
Lemma erases_if {A} (b : bool) m1 m2 m1' m2' :
  erases (A := A) m1 m1' -> erases m2 m2' -> erases (if b then m1 else m2) (if b then m1' else m2').
Proof. by destruct b. Qed.

Lemma erases_open e io v ev :
  erases (FhgfsInode.env (FhgfsOpsRemoting_openfile (W := W * list mem) e io v ev))
    (FhgfsInode.env (FhgfsOpsRemoting_openfile e io v ev)).
Proof.
  intros [w l] this. unfold FhgfsInode.env. cbn.
  by destruct (FhgfsOpsRemoting_openfile e io v ev w) as [[r [io' ver]] w'].
Qed.

Lemma erases_hasRoot b :
  erases (FhgfsInode.env (fun wl : W * list mem => (tt, FhgfsOps_setHasRootEntryInfo b wl)))
    (FhgfsInode.env (fun w : W => (tt, FhgfsOps_setHasRootEntryInfo b w))).
Proof. done. Qed.

Ltac erases :=
  repeat first
    [ solve [eauto 2 with erases nocore]
    | apply erases_ret | apply erases_pass | apply erases_lift | apply erases_get | apply erases_upd
    | apply erases_open | apply erases_hasRoot
    | apply erases_if | apply erases_bind; [|intros ?]
    | match goal with
      | |- erases (let '(_, _) := ?x in _) _ => destruct x
      | |- erases (match ?x with Some _ => _ | None => _ end) _ => destruct x
      end ].

Lemma erases_readLock : erases FhgfsInode_entryInfoReadLock FhgfsInode_entryInfoReadLock.
Proof.
  apply erases_bind; [|intros; erases]. unfold _FhgfsInode_initRootEntryInfo, MetadataTk_getRootEntryInfoCopy.
  erases.
Qed.
#[local] Hint Resolve erases_readLock : erases.

Lemma erases_event wanted type d : erases (event_for wanted type d) (event_for wanted type d).
Proof. unfold event_for. erases. Qed.
#[local] Hint Resolve erases_event : erases.

Lemma erases_existing t fl d v : erases (reference_existing t fl d v) (reference_existing t fl d v).
Proof. unfold reference_existing, __FhgfsInode_referenceTrunc. erases. Qed.

Lemma erases_store t id p : erases (store_handle t id p) (store_handle t id p).
Proof. unfold store_handle. erases. Qed.
#[local] Hint Resolve erases_existing erases_store : erases.

Lemma erases_reference d fl rw lk v :
  erases (FhgfsInode_referenceHandle d fl rw lk v) (FhgfsInode_referenceHandle d fl rw lk v).
Proof. unfold FhgfsInode_referenceHandle. erases. Qed.

Lemma erases_release t d : erases (FhgfsInode_releaseHandle t d) (FhgfsInode_releaseHandle t d).
Proof.
  unfold FhgfsInode_releaseHandle, close_handle. erases.
  intros [w l] this. unfold erase. cbn.
  by destruct (FhgfsOpsHelper_closefileWithAsyncRetry _ _ _ w) as [[r w']|].
Qed.
End Ledger.
End Ledger.

Section Sessions.
Context {W : Type} `{!InodeEnv W} `{!InodeCalls W}.
#[local] Existing Instances Ledger.env Ledger.laws.

(** C18: the files that an inode keeps open are accounted for.  Take any servers, in any
    state [w0]; of the calls it is only assumed that a successful opening delivers an ID
    and a stripe pattern, that a request to close returns (with any result: answers may be
    lost, closing may fail), that pages have at most 4096 bytes and words 4 or 8.  Let the
    client write down the IDs that it gets from successful openings, and cross them out
    when it asks to close them, itself or by leaving that to the syncer.  From a new inode
    on, in every sequence of openings, lookups that open, releases and IO: the reference
    count of each handle is the number of its users, and a used handle has an ID and the
    inode a stripe pattern; the IDs that are not crossed out are the handles of the inode,
    those of others, and those that a lookup opened although there was a handle.  So
    each file is asked to be closed once and no handle that is asked to be closed is used;
    once there are no users, that has happened to all of the inode's files but those that
    no handle took.  The next opening and release (of a handle that has a user) return:
    they do not free a handle's ID twice or fault in another way. *)
Theorem inode_sessions (emptyInfo : EntryInfo mem) (now : timespec) (this0 : FhgfsInode) (w0 : W)
    (ids0 : list mem) (u : Users (W := W * list mem)) :
  rtc ustep (mkUsers ((w0, ids0), FhgfsInode_allocInit BITSTORE_BLOCK_SIZE emptyInfo now this0) (fun _ => 0%nat) []) u ->
  let '((w, ids), this) := u_state u in
  (forall t, h_refCount (in_fileHandles this t) = Z.of_nat (u_refs u t) /\
     (u_refs u t <> 0%nat -> (exists id, h_fileHandleID (in_fileHandles this t) = KAlloc id) /\ is_Some (in_pattern this))) /\
  ids ≡ₚ open_ids this ++ u_lost u ++ ids0 /\
  (FhgfsInode_getIsFileOpen this = false -> ids ≡ₚ u_lost u ++ ids0) /\
  (forall d fl rw v, dentry_ok d -> fits (u_refs u) -> exists a s, FhgfsInode_referenceHandle d fl rw None v (w, this) = Done (a, s)) /\
  (forall t d, dentry_ok d -> u_refs u t <> 0%nat -> exists a s, FhgfsInode_releaseHandle t d (w, this) = Done (a, s)).
Proof.
  intros Hr. pose proof (inode_accounted emptyInfo now this0 (w0, ids0) u Hr) as (H1 & H2 & H3 & H4 & H5).
  destruct u as [[[w ids] this] refs lost]. cbn [u_state u_refs u_lost fst snd] in *. split_and!; [done..| |].
  - intros d fl rw v Hd Hf. rewrite (Ledger.erases_reference d fl rw None v (w, ids) this).
    destruct (H4 d fl rw v Hd Hf) as (a & [wl this'] & ->). by eexists _, _.
  - intros t d Hd Ht. rewrite (Ledger.erases_release t d (w, ids) this).
    destruct (H5 t d Hd Ht) as (a & [wl this'] & ->). by eexists _, _.
Qed.
End Sessions.

(** ** A small server

    It numbers the files it opens. *)

Module SmallInode.
Definition pattern : StripePattern := Raid0Pattern (mkSP STRIPEPATTERN_Raid0 65536 0) (mkVec [1; 2] [Some 1; Some 2; None; None] 4) 0.

Record Server := mkServer { srv_next : Z; srv_open : list mem }.

Definition open_file (io : RemotingIOInfo) (s : Server) : (Z * (RemotingIOInfo * option Z)) * Server :=
  let id := [srv_next s] in
  ((FhgfsOpsErr_SUCCESS,
    (set_pattern (set_fileHandleID io (KAlloc id)) (Some pattern), None)), mkServer (srv_next s + 1) (id :: srv_open s)).

Definition close_file (io : RemotingIOInfo) (s : Server) : outcome (Z * Server) :=
  id ← kstring (fileHandleID io);
  Done (FhgfsOpsErr_SUCCESS, mkServer (srv_next s) (close_id id (srv_open s))).

#[export] Instance env : InodeEnv Server := {|
  FhgfsOpsRemoting_openfile _ io _ _ := open_file io;
  FhgfsOpsHelper_closefileWithAsyncRetry _ io _ := close_file io;
  FhgfsOpsRemoting_truncfile _ _ _ s := (FhgfsOpsErr_SUCCESS, s);
  FhgfsOpsRemoting_getFileVersion _ s := ((FhgfsOpsErr_SUCCESS, Some 1), s);
  NodeStoreEx_getRootOwner s := (mkOwner 1 false, s);
  FhgfsOps_getHasRootEntryInfo s := (true, s);
  FhgfsOps_setHasRootEntryInfo _ s := s;
  kmalloc_page s := (true, s);
  PAGE_SIZE := 4096; eventLogMask := 255; BITSTORE_BLOCK_SIZE := 8 |}.

Lemma pattern_is_ok : pattern_ok pattern.
Proof. eexists. split; [done|]. by vm_compute. Qed.

#[export] Instance laws : InodeLaws Server.
Proof.
  refine {| sessions := srv_open |}; try done; try (by left); try (by right).
  - intros e io v ev w r io' ver w' [= <- <- <- <-]. cbn. eexists _, pattern. split_and!; [done..| |done].
    apply pattern_is_ok.
  - intros e io ev w s E Hs. cbn. unfold close_file. rewrite E. cbn. eexists _, _. split; [done|].
    by apply close_id_Permutation.
Defined.

(** The same server, when each answer to closing is lost. *)
Definition deaf : InodeEnv Server := {|
  FhgfsOpsRemoting_openfile _ io _ _ := open_file io;
  FhgfsOpsHelper_closefileWithAsyncRetry _ _ _ s := Done (FhgfsOpsErr_COMMUNICATION, s);
  FhgfsOpsRemoting_truncfile _ _ _ s := (FhgfsOpsErr_COMMUNICATION, s);
  FhgfsOpsRemoting_getFileVersion _ s := ((FhgfsOpsErr_COMMUNICATION, None), s);
  NodeStoreEx_getRootOwner s := (mkOwner 1 false, s);
  FhgfsOps_getHasRootEntryInfo s := (true, s);
  FhgfsOps_setHasRootEntryInfo _ s := s;
  kmalloc_page s := (true, s);
  PAGE_SIZE := 4096; eventLogMask := 255; BITSTORE_BLOCK_SIZE := 8 |}.

Lemma deaf_calls : InodeCalls (InodeEnv0 := deaf) Server.
Proof.
  split.
  - intros e io v ev w io' ver w' [= <- <- <-]. eexists _, pattern. split_and!; [done..|apply pattern_is_ok].
  - intros e io ev w s _. by eexists _, _.
  - done.
  - by right.
Qed.

Definition entry : EntryInfo mem := mkEI (mkOwner 1 false) [97] [98] [99] 2 0.
Definition fresh : FhgfsInode :=
  mkInode 7 0 0 33188 entry 0 (mkPI 0 0 None) (mkTime 0 0) (fun _ => FhgfsInode_initHandle 8) None 0 ∅
    (mkCB None 0 0 0 FileBufferType_NONE) 0 0 0 0 0 0 0.
Definition path : Dentry := fun n => if n <? 3 then None else Some (n - 3, [47; 97]).

Lemma path_ok : dentry_ok (Some path).
Proof. intros f n pos p [= <-]. unfold path. destruct (Z.ltb_spec n 3); [done|]. intros [= <- <-]. change (mlen [47; 97]) with 2. lia. Qed.

Definition start : Server * FhgfsInode := (mkServer 1 [[50]], FhgfsInode_allocInit 8 entry (mkTime 3 4) fresh).
Definition of_run {A} (o : outcome (A * (Server * FhgfsInode))) : Server * FhgfsInode :=
  match o with Done (_, s) => s | Fault => start end.

(** Opened for reading; opened for writing as well; opened for reading through a lookup
    that got the file 60; closed by both readers. *)
Definition opened : Server * FhgfsInode :=
  of_run (FhgfsInode_referenceHandle (Some path) OPENFILE_ACCESS_READ false None false start).
Definition opened2 : Server * FhgfsInode :=
  of_run (FhgfsInode_referenceHandle (Some path) OPENFILE_ACCESS_WRITE false None false opened).
Definition looked_up : LookupIntentInfoOut :=
  mkLookupOut 0 0 0 0 0 0 None None None (Some (1, KAlloc [60])) (Some (mkPI 0 0 None)) (Some pattern).
Definition after_lookup : Server := mkServer 2 [[60]; [1]; [50]].
Definition twice : Server * FhgfsInode :=
  of_run (FhgfsInode_referenceHandle (Some path) OPENFILE_ACCESS_READ false (Some looked_up) false (after_lookup, snd opened)).
Definition closed1 : Server * FhgfsInode := of_run (FhgfsInode_releaseHandle FileHandleType_READ None twice).
Definition closed2 : Server * FhgfsInode := of_run (FhgfsInode_releaseHandle FileHandleType_READ None closed1).

Definition nobody : FileHandleType -> nat := fun _ => 0%nat.
End SmallInode.

#[local] Existing Instances SmallInode.env SmallInode.laws.

Lemma none_ok : dentry_ok None.
Proof. intros f n pos p [=]. Qed.

Lemma fits_small refs : (forall t, (refs t <= 9)%nat) -> fits refs.
Proof. intros H t. specialize (H t). lia. Qed.

Lemma step_opened : ustep (mkUsers SmallInode.start SmallInode.nobody [])
  (mkUsers SmallInode.opened (bump FileHandleType_READ SmallInode.nobody) []).
Proof.
  apply (U_reference (Some SmallInode.path) OPENFILE_ACCESS_READ false false FhgfsOpsErr_SUCCESS FileHandleType_READ None);
    [apply SmallInode.path_ok| |by vm_compute]. apply fits_small. intros t. unfold SmallInode.nobody. lia.
Qed.

(** Two users of a file whose server does not answer to closing. *)
Section Deaf.
#[local] Existing Instances SmallInode.deaf SmallInode.deaf_calls Ledger.env Ledger.laws.
Notation S := ((SmallInode.Server * list mem) * FhgfsInode)%type.

Definition deaf_start : S := ((SmallInode.mkServer 1 [[50]], [[50]]), snd SmallInode.start).
Definition deaf_run {A} (o : outcome (A * S)) : S := match o with Done (_, s) => s | Fault => deaf_start end.
Definition deaf_opened : S :=
  deaf_run (FhgfsInode_referenceHandle (Some SmallInode.path) OPENFILE_ACCESS_READ false None false deaf_start).
Definition deaf_opened2 : S :=
  deaf_run (FhgfsInode_referenceHandle (Some SmallInode.path) OPENFILE_ACCESS_WRITE false None false deaf_opened).
Definition deaf_closed : S := deaf_run (FhgfsInode_releaseHandle FileHandleType_WRITE None deaf_opened2).
Definition one : FileHandleType -> nat := bump FileHandleType_READ SmallInode.nobody.
Definition two : FileHandleType -> nat := bump FileHandleType_WRITE one.

Lemma deaf_steps : rtc ustep (mkUsers deaf_start SmallInode.nobody [])
  (mkUsers deaf_closed (drop1 FileHandleType_WRITE two) []).
Proof.
  eapply rtc_l.
  { apply (U_reference (Some SmallInode.path) OPENFILE_ACCESS_READ false false FhgfsOpsErr_SUCCESS
      FileHandleType_READ None _ deaf_opened); [apply SmallInode.path_ok| |by vm_compute].
    apply fits_small. intros t. unfold SmallInode.nobody. lia. }
  eapply rtc_l.
  { apply (U_reference (Some SmallInode.path) OPENFILE_ACCESS_WRITE false false FhgfsOpsErr_SUCCESS
      FileHandleType_WRITE None _ deaf_opened2); [apply SmallInode.path_ok| |by vm_compute].
    apply fits_small. intros []; vm_compute; lia. }
  eapply rtc_l; [|apply rtc_refl].
  by apply (U_release FileHandleType_WRITE None FhgfsOpsErr_COMMUNICATION); [apply none_ok|vm_compute..].
Qed.

(** Opened twice, closed once: one ID is left besides that of another inode, though the
    server still has all three files open. *)
Lemma inode_sessions_witness :
  let '((w, ids), this) := deaf_closed in
  ids ≡ₚ open_ids this ++ [[50]] /\ open_ids this = [[1]] /\ SmallInode.srv_open w = [[2]; [1]; [50]] /\
  exists a s, FhgfsInode_releaseHandle FileHandleType_READ None (w, this) = Done (a, s).
Proof.
  pose proof (inode_sessions SmallInode.entry (mkTime 3 4) SmallInode.fresh (SmallInode.mkServer 1 [[50]]) [[50]] _
    deaf_steps) as H.
  destruct deaf_closed as [[w ids] this] eqn:E. cbn [u_state u_refs u_lost] in H.
  destruct H as (_ & H2 & _ & _ & H5). split; [exact H2|].
  destruct (H5 FileHandleType_READ None none_ok) as (a & s & Hrel); [by vm_compute|].
  vm_compute in E. injection E as <- <- <-. split; [by vm_compute|]. split; [reflexivity|].
  exists a, s. exact Hrel.
Defined.
End Deaf.

Lemma step_closed1 : ustep
  (mkUsers SmallInode.twice (bump FileHandleType_READ (bump FileHandleType_READ SmallInode.nobody)) [[60]])
  (mkUsers SmallInode.closed1 (drop1 FileHandleType_READ (bump FileHandleType_READ (bump FileHandleType_READ SmallInode.nobody))) [[60]]).
Proof. by apply (U_release FileHandleType_READ None FhgfsOpsErr_SUCCESS); [apply none_ok|vm_compute..]. Qed.
Lemma step_closed2 : ustep
  (mkUsers SmallInode.closed1 (drop1 FileHandleType_READ (bump FileHandleType_READ (bump FileHandleType_READ SmallInode.nobody))) [[60]])
  (mkUsers SmallInode.closed2 (drop1 FileHandleType_READ (drop1 FileHandleType_READ
     (bump FileHandleType_READ (bump FileHandleType_READ SmallInode.nobody)))) [[60]]).
Proof. by apply (U_release FileHandleType_READ None FhgfsOpsErr_SUCCESS); [apply none_ok|vm_compute..]. Qed.

(** A file is opened, opened again through a lookup, and closed by both: the inode has no
    open file, but the server has. *)
Lemma lookup_handle_lost_witness :
  FhgfsInode_getIsFileOpen (snd SmallInode.closed2) = false /\
  SmallInode.srv_open (fst SmallInode.closed2) = [[60]; [50]] /\ [60] ∈ sessions (fst SmallInode.closed2).
Proof.
  split; [by vm_compute|]. split; [by vm_compute|].
  refine (proj2 (lookup_handle_lost (Some SmallInode.path) OPENFILE_ACCESS_READ false SmallInode.looked_up 1 [60] (mkPI 0 0 None)
    SmallInode.pattern [[50]] (mkUsers SmallInode.opened (bump FileHandleType_READ SmallInode.nobody) [])
    (mkUsers SmallInode.closed2 (drop1 FileHandleType_READ (drop1 FileHandleType_READ
     (bump FileHandleType_READ (bump FileHandleType_READ SmallInode.nobody)))) [[60]])
    SmallInode.after_lookup None SmallInode.twice _ _ _ _ _ _ _ _ _ _) _).
  - eapply ustep_accounted; [|exact step_opened]. exact (init_accounted 8 SmallInode.entry (mkTime 3 4) SmallInode.fresh (fst SmallInode.start) eq_refl).
  - by vm_compute.
  - apply SmallInode.path_ok.
  - apply fits_small. intros []; vm_compute; lia.
  - done.
  - done.
  - done.
  - apply SmallInode.pattern_is_ok.
  - done.
  - by vm_compute.
  - eapply rtc_l; [exact step_closed1|]. eapply rtc_l; [exact step_closed2|apply rtc_refl].
Defined.

(** With pages of 64 KiB. *)
Lemma event_path_overrun_witness :
  FileEvent_init 65536 true FileEventType_READ (Some (fun n => Some (n - 3, [47; 97]))) = Fault.
Proof. by apply (event_path_overrun 65536 FileEventType_READ _ [47; 97]). Defined.
