(* ===== verification/HashTk.v ===== *)
(** * Hashes, and the numbers of inodes

    [common/toolkit/HashTk.h/.c] and [FhgfsInode_generateInodeID] of
    [filesystem/FhgfsInode.c].  A string is a block of bytes and an address in it; a
    [char] is signed, a word has 32 bits, reading behind the block is a [Fault]. *)

From S2P Require Import Prelude Serialization.

Definition Hashtk_HALFMD4_IN_BUF_SIZE : Z := 8.
Definition HashTk_HALFMD4_OUT_BUF_SIZE : Z := 4.
Definition HashTk_INT_BYTES : Z := 4.
Definition HashTk_HALFMD4_MAJOR_BUFPOS : nat := 1.
Definition HashTk_HALFMD4_MINOR_BUFPOS : nat := 2.

Inductive HashTkHashTypes := HASHTK_HSIEHHASH32 | HASHTK_HALFMD4.

Section Hashes.
Context (m : mem).

(** ** Hsieh's hash *)

Definition get16bits (d : Z) : outcome Z :=
  lo ← read8 m d; hi ← read8 m (d + 1); Done (Z.lor lo (Z.shiftl hi 8)).

Definition char_at (d : Z) : outcome Z := b ← read8 m d; Done (s8 b).

Fixpoint hsieh_loop (len : nat) (data hash : Z) : outcome (Z * Z) :=
  match len with
  | O => Done (data, hash)
  | S len =>
      lo ← get16bits data;
      let hash := u32 (hash + lo) in
      hi ← get16bits (data + 2);
      let tmp := Z.lxor (Z.shiftl hi 11) hash in
      let hash := Z.lxor (u32 (Z.shiftl hash 16)) tmp in
      hsieh_loop len (data + 4) (u32 (hash + Z.shiftr hash 11))
  end.

Definition hsieh_rest (rem data hash : Z) : outcome Z :=
  if rem =? 3 then
    lo ← get16bits data;
    let hash := u32 (hash + lo) in
    let hash := Z.lxor hash (u32 (Z.shiftl hash 16)) in
    c ← char_at (data + 2);
    let hash := Z.lxor hash (u32 (Z.shiftl c 18)) in
    Done (u32 (hash + Z.shiftr hash 11))
  else if rem =? 2 then
    lo ← get16bits data;
    let hash := u32 (hash + lo) in
    let hash := Z.lxor hash (u32 (Z.shiftl hash 11)) in
    Done (u32 (hash + Z.shiftr hash 17))
  else if rem =? 1 then
    c ← char_at data;
    let hash := u32 (hash + c) in
    let hash := Z.lxor hash (u32 (Z.shiftl hash 10)) in
    Done (u32 (hash + Z.shiftr hash 1))
  else Done hash.

Definition hsieh_final (hash : Z) : Z :=
  let hash := Z.lxor hash (u32 (Z.shiftl hash 3)) in
  let hash := u32 (hash + Z.shiftr hash 5) in
  let hash := Z.lxor hash (u32 (Z.shiftl hash 4)) in
  let hash := u32 (hash + Z.shiftr hash 17) in
  let hash := Z.lxor hash (u32 (Z.shiftl hash 25)) in
  u32 (hash + Z.shiftr hash 6).

Definition HashTk_HsiehHash32 (data len : Z) : outcome Z :=
  let hash := u32 len in
  if len <=? 0 then Done 0 else
  let rem := Z.land len 3 in
  '(data, hash) ← hsieh_loop (Z.to_nat (Z.shiftr len 2)) data hash;
  hash ← hsieh_rest rem data hash;
  Done (hsieh_final hash).

(** ** Half MD4, as in ext4 *)

(** The words that have been stored, in order: [num] is the room that is left. *)
Fixpoint string2HashBuf_loop (n : nat) (i msg pad val num : Z) (buf : list Z) : outcome (Z * Z * list Z) :=
  match n with
  | O => Done (val, num, buf)
  | S n =>
      let val := if i mod 4 =? 0 then pad else val in
      c ← char_at (msg + i);
      let val := u32 (c + u32 (Z.shiftl val 8)) in
      if i mod 4 =? 3 then
        if num <=? 0 then Fault
        else string2HashBuf_loop n (i + 1) msg pad pad (num - 1) (buf ++ [val])
      else string2HashBuf_loop n (i + 1) msg pad val num buf
  end.

Definition HashTk_string2HashBufSigned (msg len num : Z) : outcome (list Z) :=
  let pad := Z.lor (u32 len) (u32 (Z.shiftl (u32 len) 8)) in
  let pad := Z.lor pad (u32 (Z.shiftl pad 16)) in
  let len := if num * 4 <? len then num * 4 else len in
  '(val, num, buf) ← string2HashBuf_loop (Z.to_nat len) 0 msg pad pad num [];
  Done (if 0 <=? num - 1 then buf ++ val :: replicate (Z.to_nat (num - 1)) pad else buf).

Definition rol32 (word shift : Z) : Z := Z.lor (u32 (Z.shiftl word shift)) (Z.shiftr word (32 - shift)).

Definition F (x y z : Z) : Z := Z.lxor z (Z.land x (Z.lxor y z)).
Definition G (x y z : Z) : Z := u32 (Z.land x y + Z.land (Z.lxor x y) z).
Definition H (x y z : Z) : Z := Z.lxor (Z.lxor x y) z.

Definition K1 : Z := 0.
Definition K2 : Z := 1518500249.
Definition K3 : Z := 1859775393.

Definition ROUND (f : Z -> Z -> Z -> Z) (a b c d x s : Z) : Z := rol32 (u32 (a + f b c d + x)) s.

(** [buf] has four words, [in_] has eight. *)
Definition half_md4_rounds (buf : Z * Z * Z * Z) (in_ : list Z) : Z * Z * Z * Z :=
  let i k := nth k in_ 0 in
  let '(a0, b0, c0, d0) := buf in
  let a := ROUND F a0 b0 c0 d0 (i 0%nat + K1) 3 in
  let d := ROUND F d0 a b0 c0 (i 1%nat + K1) 7 in
  let c := ROUND F c0 d a b0 (i 2%nat + K1) 11 in
  let b := ROUND F b0 c d a (i 3%nat + K1) 19 in
  let a := ROUND F a b c d (i 4%nat + K1) 3 in
  let d := ROUND F d a b c (i 5%nat + K1) 7 in
  let c := ROUND F c d a b (i 6%nat + K1) 11 in
  let b := ROUND F b c d a (i 7%nat + K1) 19 in
  let a := ROUND G a b c d (i 1%nat + K2) 3 in
  let d := ROUND G d a b c (i 3%nat + K2) 5 in
  let c := ROUND G c d a b (i 5%nat + K2) 9 in
  let b := ROUND G b c d a (i 7%nat + K2) 13 in
  let a := ROUND G a b c d (i 0%nat + K2) 3 in
  let d := ROUND G d a b c (i 2%nat + K2) 5 in
  let c := ROUND G c d a b (i 4%nat + K2) 9 in
  let b := ROUND G b c d a (i 6%nat + K2) 13 in
  let a := ROUND H a b c d (i 3%nat + K3) 3 in
  let d := ROUND H d a b c (i 7%nat + K3) 9 in
  let c := ROUND H c d a b (i 2%nat + K3) 11 in
  let b := ROUND H b c d a (i 6%nat + K3) 15 in
  let a := ROUND H a b c d (i 1%nat + K3) 3 in
  let d := ROUND H d a b c (i 5%nat + K3) 9 in
  let c := ROUND H c d a b (i 0%nat + K3) 11 in
  let b := ROUND H b c d a (i 4%nat + K3) 15 in
  (a, b, c, d).
Definition half_md4_transform (buf : Z * Z * Z * Z) (in_ : list Z) : Z * Z * Z * Z :=
  let '(a0, b0, c0, d0) := buf in
  let '(a, b, c, d) := half_md4_rounds buf in_ in
  (u32 (a0 + a), u32 (b0 + b), u32 (c0 + c), u32 (d0 + d)).

(** One turn per 32 bytes. *)
Fixpoint halfMD4_loop (fuel : nat) (dataPtr remainingLen len : Z) (outBuf : Z * Z * Z * Z)
    : outcome (Z * Z * Z * Z) :=
  if remainingLen <=? 0 then Done outBuf else
  match fuel with
  | O => Fault
  | S fuel =>
      let maxMD4StrLen := Hashtk_HALFMD4_IN_BUF_SIZE * HashTk_INT_BYTES in
      inBuf ← HashTk_string2HashBufSigned dataPtr len Hashtk_HALFMD4_IN_BUF_SIZE;
      halfMD4_loop fuel (dataPtr + maxMD4StrLen) (remainingLen - maxMD4StrLen) len
        (half_md4_transform outBuf inBuf)
  end.

Definition HashTk_halfMD4 (data len : Z) : outcome (Z * Z * Z * Z) :=
  halfMD4_loop (Z.to_nat len) data len len (1732584193, 4023233417, 2562383102, 271733878).

Definition HashTk_hash32 (hashType : HashTkHashTypes) (data len : Z) : outcome Z :=
  match hashType with
  | HASHTK_HSIEHHASH32 => HashTk_HsiehHash32 data len
  | HASHTK_HALFMD4 => '(_, majHash, _, _) ← HashTk_halfMD4 data len; Done majHash
  end.

Definition HashTk_hash64 (hashType : HashTkHashTypes) (data len : Z) : outcome Z :=
  match hashType with
  | HASHTK_HSIEHHASH32 =>
      let len1stHalf := Z.quot len 2 in
      let len2ndHalf := len - len1stHalf in
      high ← HashTk_HsiehHash32 data len1stHalf;
      low ← HashTk_HsiehHash32 (data + len1stHalf) len2ndHalf;
      Done (Z.lor (u64 (Z.shiftl high 32)) low)
  | HASHTK_HALFMD4 =>
      '(_, majHash, minHash, _) ← HashTk_halfMD4 data len;
      Done (Z.lor (u64 (Z.shiftl majHash 32)) minHash)
  end.

Definition HashTk_hash (hashType : HashTkHashTypes) (hashSize data len : Z) : outcome Z :=
  if hashSize =? 64 then HashTk_hash64 hashType data len else HashTk_hash32 hashType data len.
End Hashes.

(** ** The numbers of inodes *)

Inductive InodeIDStyle :=
  INODEIDSTYLE_Hash32Hsieh | INODEIDSTYLE_Hash32MD4 | INODEIDSTYLE_Hash64HSieh | INODEIDSTYLE_Hash64MD4.

Definition CONGFS_INODE_MAXRESERVED_INO : Z := 2.

(** A second attempt takes the terminating zero as well. *)
Definition unless_reserved (hash : Z -> outcome Z) (entryIDLen : Z) : outcome Z :=
  hashRes ← hash entryIDLen;
  if hashRes <=? CONGFS_INODE_MAXRESERVED_INO then hash (entryIDLen + 1) else Done hashRes.

(** [sizeof_ino]: [sizeof(ino_t)]. *)
Definition FhgfsInode_generateInodeID (sizeof_ino : Z) (inodeIDStyle : InodeIDStyle) (m : mem)
    (entryID entryIDLen : Z) : outcome Z :=
  let hashBits := if 8 <=? sizeof_ino then 64 else 32 in
  match inodeIDStyle with
  | INODEIDSTYLE_Hash64HSieh => unless_reserved (HashTk_hash m HASHTK_HSIEHHASH32 hashBits entryID) entryIDLen
  | INODEIDSTYLE_Hash64MD4 => unless_reserved (HashTk_hash m HASHTK_HALFMD4 hashBits entryID) entryIDLen
  | INODEIDSTYLE_Hash32MD4 => unless_reserved (HashTk_hash32 m HASHTK_HALFMD4 entryID) entryIDLen
  | INODEIDSTYLE_Hash32Hsieh => unless_reserved (HashTk_hash32 m HASHTK_HSIEHHASH32 entryID) entryIDLen
  end.

(** ** Reference definitions

    The hashes of a list of bytes. *)

Definition le16 (a b : Z) : Z := Z.lor a (Z.shiftl b 8).

Definition hsieh_mix (a b c d hash : Z) : Z :=
  let hash := u32 (hash + le16 a b) in
  let hash := Z.lxor (u32 (Z.shiftl hash 16)) (Z.lxor (Z.shiftl (le16 c d) 11) hash) in
  u32 (hash + Z.shiftr hash 11).

Fixpoint hsieh_spec (s : mem) (hash : Z) : Z :=
  match s with
  | a :: b :: c :: d :: s => hsieh_spec s (hsieh_mix a b c d hash)
  | [a; b; c] =>
      let hash := u32 (hash + le16 a b) in
      let hash := Z.lxor (Z.lxor hash (u32 (Z.shiftl hash 16))) (u32 (Z.shiftl (s8 c) 18)) in
      u32 (hash + Z.shiftr hash 11)
  | [a; b] =>
      let hash := u32 (hash + le16 a b) in
      let hash := Z.lxor hash (u32 (Z.shiftl hash 11)) in
      u32 (hash + Z.shiftr hash 17)
  | [a] =>
      let hash := u32 (hash + s8 a) in
      let hash := Z.lxor hash (u32 (Z.shiftl hash 10)) in
      u32 (hash + Z.shiftr hash 1)
  | [] => hash
  end.

Definition hsieh_of (s : mem) : Z := match s with [] => 0 | _ => hsieh_final (hsieh_spec s (u32 (mlen s))) end.

Definition md4_pad (len : Z) : Z :=
  let pad := Z.lor (u32 len) (u32 (Z.shiftl (u32 len) 8)) in Z.lor pad (u32 (Z.shiftl pad 16)).
Definition md4_word (pad : Z) (s : mem) : Z := foldl (fun val c => u32 (s8 c + u32 (Z.shiftl val 8))) pad s.

(** Four bytes each in a word, filled up to [num] words. *)
Fixpoint md4_words (pad : Z) (num : nat) (s : mem) : list Z :=
  match num, s with
  | O, _ => []
  | S num, a :: b :: c :: d :: s => md4_word pad [a; b; c; d] :: md4_words pad num s
  | S num, s => md4_word pad s :: replicate num pad
  end.

(** Of at most 32 bytes. *)
Definition halfMD4_of (s : mem) : Z * Z * Z * Z :=
  let seed := (1732584193, 4023233417, 2562383102, 271733878) in
  match s with [] => seed | _ => half_md4_transform seed (md4_words (md4_pad (mlen s)) 8 s) end.

Definition hash32_of (hashType : HashTkHashTypes) (s : mem) : Z :=
  match hashType with HASHTK_HSIEHHASH32 => hsieh_of s | HASHTK_HALFMD4 => (halfMD4_of s).1.1.2 end.
Definition hash64_of (hashType : HashTkHashTypes) (s : mem) : Z :=
  match hashType with
  | HASHTK_HSIEHHASH32 =>
      let n := (length s / 2)%nat in Z.lor (u64 (Z.shiftl (hsieh_of (take n s)) 32)) (hsieh_of (drop n s))
  | HASHTK_HALFMD4 => Z.lor (u64 (Z.shiftl (halfMD4_of s).1.1.2 32)) (halfMD4_of s).1.2
  end.

(** The bytes [s] are in the block at [p]. *)
Definition holds (m : mem) (p : Z) (s : mem) : Prop := exists pre post, m = pre ++ s ++ post /\ p = mlen pre.

Lemma holds_cons m p a s : holds m p (a :: s) -> read8 m p = Done a /\ holds m (p + 1) s.
Proof.
  intros (pre & post & -> & ->). split.
  - unfold read8. pose proof (mlen_nonneg pre). destruct (Z.leb_spec 0 (mlen pre)); [|lia].
    unfold mlen. by rewrite Nat2Z.id, lookup_app_r, Nat.sub_diag by lia.
  - exists (pre ++ [a]), post. split; [by rewrite <- app_assoc|]. by rewrite mlen_app.
Qed.
Lemma block_holds_app m p s s' : holds m p (s ++ s') -> holds m p s /\ holds m (p + mlen s) s'.
Proof.
  intros (pre & post & -> & ->). split.
  - exists pre, (s' ++ post). by rewrite <- app_assoc.
  - exists (pre ++ s), post. split; [by rewrite <- !app_assoc|]. by rewrite mlen_app.
Qed.

Lemma get16bits_holds m p a b s : holds m p (a :: b :: s) -> get16bits m p = Done (le16 a b).
Proof.
  intros [Ea [Eb _]%holds_cons]%holds_cons. unfold get16bits. rewrite Ea. cbn [mbind outcome_bind]. by rewrite Eb.
Qed.
Lemma char_at_holds m p a s : holds m p (a :: s) -> char_at m p = Done (s8 a).
Proof. intros [Ea _]%holds_cons. unfold char_at. by rewrite Ea. Qed.
Lemma char_at_nth m p s i c : holds m p s -> s !! i = Some c -> char_at m (p + Z.of_nat i) = Done (s8 c).
Proof.
  intros Hs Hi. rewrite <- (take_drop_middle s i c Hi) in Hs. apply block_holds_app in Hs as [_ Hs].
  replace (mlen (take i s)) with (Z.of_nat i) in Hs; [by eapply char_at_holds|].
  unfold mlen. rewrite length_take. apply lookup_lt_Some in Hi. lia.
Qed.
Lemma holds_skip m p a b s : holds m p (a :: b :: s) -> holds m (p + 2) s.
Proof. intros [_ [_ H]%holds_cons]%holds_cons. by replace (p + 2) with (p + 1 + 1) by lia. Qed.

(** Induction by four elements. *)
Lemma list_four_ind {A} (P : list A -> Prop) :
  P [] -> (forall a, P [a]) -> (forall a b, P [a; b]) -> (forall a b c, P [a; b; c]) ->
  (forall a b c d s, P s -> P (a :: b :: c :: d :: s)) -> forall s, P s.
Proof.
  intros H0 H1 H2 H3 H4. fix IH 1. intros [|a [|b [|c [|d s]]]]; [done|apply H1|apply H2|apply H3|apply H4, IH].
Qed.

Lemma hsieh_loop_step m p a b c d s n hash :
  holds m p (a :: b :: c :: d :: s) ->
  hsieh_loop m (S n) p hash = hsieh_loop m n (p + 4) (hsieh_mix a b c d hash) /\ holds m (p + 4) s.
Proof.
  intros H0. pose proof (holds_skip _ _ _ _ _ H0) as H2. pose proof (holds_skip _ _ _ _ _ H2) as H4.
  replace (p + 2 + 2) with (p + 4) in H4 by lia. split; [|done]. cbn [hsieh_loop].
  rewrite (get16bits_holds _ _ _ _ _ H0). cbn [mbind outcome_bind]. rewrite (get16bits_holds _ _ _ _ _ H2).
  cbn [mbind outcome_bind]. unfold hsieh_mix. do 2 f_equal.
Qed.

Lemma hsieh_list m s : forall p hash, holds m p s ->
  ('(data, hash) ← hsieh_loop m (length s / 4) p hash; hsieh_rest m (Z.of_nat (length s mod 4)) data hash) =
  Done (hsieh_spec s hash).
Proof.
  induction s as [|a|a b|a b c|a b c d s IH] using list_four_ind; intros p hash Hs.
  - done.
  - cbn -[char_at]. unfold hsieh_rest. cbn -[char_at]. by rewrite (char_at_holds _ _ _ _ Hs).
  - cbn -[get16bits]. unfold hsieh_rest. cbn -[get16bits]. by rewrite (get16bits_holds _ _ _ _ _ Hs).
  - cbn -[char_at get16bits]. unfold hsieh_rest. cbn -[char_at get16bits]. rewrite (get16bits_holds _ _ _ _ _ Hs). cbn [mbind outcome_bind].
    by rewrite (char_at_holds _ _ _ _ (holds_skip _ _ _ _ _ Hs)).
  - replace (length (a :: b :: c :: d :: s)) with (length s + 1 * 4)%nat by (cbn; lia).
    rewrite Nat.div_add, Nat.Div0.mod_add, Nat.add_1_r by done.
    destruct (hsieh_loop_step m p a b c d s (length s / 4) hash Hs) as [-> Hs'].
    by rewrite IH.
Qed.

Lemma hsieh_holds m p s : holds m p s -> mlen s < 2 ^ 31 -> HashTk_HsiehHash32 m p (mlen s) = Done (hsieh_of s).
Proof.
  intros Hs Hl. unfold HashTk_HsiehHash32, hsieh_of. destruct s as [|a s]; [done|].
  destruct (Z.leb_spec (mlen (a :: s)) 0) as [Hz|_]; [rewrite mlen_cons in Hz; pose proof (mlen_nonneg s); lia|].
  pose proof (hsieh_list m (a :: s) p (u32 (mlen (a :: s))) Hs) as H.
  change 3 with (Z.ones 2). rewrite Z.land_ones, Z.shiftr_div_pow2 by lia. unfold mlen at 1 2 3.
  change (2 ^ 2) with (Z.of_nat 4). rewrite <- Nat2Z.inj_div, <- Nat2Z.inj_mod, Nat2Z.id.
  destruct (hsieh_loop m _ p _) as [[data h]|]; [|done]. cbn [mbind outcome_bind] in *. by rewrite H.
Qed.

(** ** The words of MD4 *)

Lemma mod4 k r : 0 <= r < 4 -> (4 * k + r) mod 4 = r.
Proof. intros. rewrite Z.add_comm, Z.mul_comm, Z.mod_add by lia. by apply Z.mod_small. Qed.

Lemma string2HashBuf_turn m n k r msg pad val num buf c :
  0 <= r < 3 -> char_at m (msg + (4 * k + r)) = Done c ->
  string2HashBuf_loop m (S n) (4 * k + r) msg pad val num buf =
  string2HashBuf_loop m n (4 * k + (r + 1)) msg pad (u32 (c + u32 (Z.shiftl (if r =? 0 then pad else val) 8))) num buf.
Proof.
  intros Hr Ec. cbn [string2HashBuf_loop]. rewrite Ec. cbn [mbind outcome_bind]. rewrite mod4 by lia.
  destruct (Z.eqb_spec r 3); [lia|]. by replace (4 * k + r + 1) with (4 * k + (r + 1)) by lia.
Qed.
Lemma string2HashBuf_last m n k msg pad val num buf c :
  0 < num -> char_at m (msg + (4 * k + 3)) = Done c ->
  string2HashBuf_loop m (S n) (4 * k + 3) msg pad val num buf =
  string2HashBuf_loop m n (4 * (k + 1) + 0) msg pad pad (num - 1) (buf ++ [u32 (c + u32 (Z.shiftl val 8))]).
Proof.
  intros Hn Ec. cbn [string2HashBuf_loop]. rewrite Ec. cbn [mbind outcome_bind]. rewrite mod4 by lia. cbn [Z.eqb Pos.eqb].
  destruct (Z.leb_spec num 0); [lia|]. by replace (4 * k + 3 + 1) with (4 * (k + 1) + 0) by lia.
Qed.

Lemma at_char m msg k s i c :
  holds m (msg + 4 * k) s -> s !! i = Some c -> char_at m (msg + (4 * k + Z.of_nat i)) = Done (s8 c).
Proof. intros Hs Hi. rewrite Z.add_assoc. exact (char_at_nth _ _ _ _ _ Hs Hi). Qed.

(** The words that are stored, and the last one, which is not. *)
Lemma string2HashBuf_list m msg pad s : forall k (num : nat) val buf,
  holds m (msg + 4 * k) s -> (length s <= 4 * num)%nat -> (s = [] -> val = pad) ->
  exists val' num' buf', string2HashBuf_loop m (length s) (4 * k + 0) msg pad val (Z.of_nat num) buf =
      Done (val', Z.of_nat num', buf') /\
    buf' ++ match num' with O => [] | S n => val' :: replicate n pad end = buf ++ md4_words pad num s.
Proof.
  induction s as [|a|a b|a b c|a b c d s IH] using list_four_ind; intros k num val buf Hs Hl Hv.
  - exists val, num, buf. split; [done|]. rewrite (Hv eq_refl). by destruct num.
  - destruct num as [|num]; [cbn in Hl; lia|]. cbn [length].
    rewrite (string2HashBuf_turn m _ k 0 msg _ _ _ _ (s8 a)) by (lia || exact (at_char _ _ _ _ 0 _ Hs eq_refl)).
    eexists _, (S num), buf. by split.
  - destruct num as [|num]; [cbn in Hl; lia|]. cbn [length].
    rewrite (string2HashBuf_turn m _ k 0 msg _ _ _ _ (s8 a)) by (lia || exact (at_char _ _ _ _ 0 _ Hs eq_refl)).
    rewrite (string2HashBuf_turn m _ k 1 msg _ _ _ _ (s8 b)) by (lia || exact (at_char _ _ _ _ 1 _ Hs eq_refl)).
    eexists _, (S num), buf. by split.
  - destruct num as [|num]; [cbn in Hl; lia|]. cbn [length].
    rewrite (string2HashBuf_turn m _ k 0 msg _ _ _ _ (s8 a)) by (lia || exact (at_char _ _ _ _ 0 _ Hs eq_refl)).
    rewrite (string2HashBuf_turn m _ k 1 msg _ _ _ _ (s8 b)) by (lia || exact (at_char _ _ _ _ 1 _ Hs eq_refl)).
    rewrite (string2HashBuf_turn m _ k 2 msg _ _ _ _ (s8 c)) by (lia || exact (at_char _ _ _ _ 2 _ Hs eq_refl)).
    eexists _, (S num), buf. by split.
  - destruct num as [|num]; [cbn in Hl; lia|]. cbn [length].
    rewrite (string2HashBuf_turn m _ k 0 msg _ _ _ _ (s8 a)) by (lia || exact (at_char _ _ _ _ 0 _ Hs eq_refl)).
    rewrite (string2HashBuf_turn m _ k 1 msg _ _ _ _ (s8 b)) by (lia || exact (at_char _ _ _ _ 1 _ Hs eq_refl)).
    rewrite (string2HashBuf_turn m _ k 2 msg _ _ _ _ (s8 c)) by (lia || exact (at_char _ _ _ _ 2 _ Hs eq_refl)).
    change (4 * k + (2 + 1)) with (4 * k + 3).
    rewrite (string2HashBuf_last m _ k msg _ _ _ _ (s8 d)) by (lia || exact (at_char _ _ _ _ 3 _ Hs eq_refl)).
    replace (Z.of_nat (S num) - 1) with (Z.of_nat num) by lia.
    destruct (IH (k + 1) num pad (buf ++ [md4_word pad [a; b; c; d]])) as (val' & num' & buf' & E & Eb).
    + replace (msg + 4 * (k + 1)) with (msg + 4 * k + mlen [a; b; c; d]) by (change (mlen [a; b; c; d]) with 4; lia).
      by apply (block_holds_app m _ [a; b; c; d] s).
    + cbn in Hl. lia.
    + done.
    + exists val', num', buf'. split; [exact E|]. rewrite Eb, <- app_assoc. done.
Qed.

Lemma string2HashBuf_holds m p s :
  holds m p s -> mlen s <= 32 ->
  HashTk_string2HashBufSigned m p (mlen s) 8 = Done (md4_words (md4_pad (mlen s)) 8 s).
Proof.
  intros Hs Hl. unfold HashTk_string2HashBufSigned. fold (md4_pad (mlen s)). set (pad := md4_pad (mlen s)).
  destruct (Z.ltb_spec (8 * 4) (mlen s)); [lia|]. unfold mlen at 1. rewrite Nat2Z.id.
  destruct (string2HashBuf_list m p pad s 0 8 pad []) as (val & num & buf & E & Eb);
    [by rewrite Z.mul_0_r, Z.add_0_r|unfold mlen in Hl; lia|done|].
  change (4 * 0 + 0) with 0 in E. change (Z.of_nat 8) with 8 in E. rewrite E. cbn [mbind outcome_bind]. f_equal.
  rewrite app_nil_l in Eb. rewrite <- Eb. destruct num as [|n]; [by rewrite app_nil_r|].
  destruct (Z.leb_spec 0 (Z.of_nat (S n) - 1)); [|lia]. do 3 f_equal. lia.
Qed.

Lemma halfMD4_holds m p s : holds m p s -> mlen s <= 32 -> HashTk_halfMD4 m p (mlen s) = Done (halfMD4_of s).
Proof.
  intros Hs Hl. unfold HashTk_halfMD4, halfMD4_of. destruct s as [|a s]; [done|].
  assert (Hp : 1 <= mlen (a :: s)) by (rewrite mlen_cons; pose proof (mlen_nonneg s); lia).
  destruct (Z.to_nat (mlen (a :: s))) as [|n] eqn:En; [lia|]. cbn [halfMD4_loop].
  destruct (Z.leb_spec (mlen (a :: s)) 0); [lia|]. rewrite string2HashBuf_holds by done.
  cbn [mbind outcome_bind]. unfold Hashtk_HALFMD4_IN_BUF_SIZE, HashTk_INT_BYTES.
  destruct n; cbn [halfMD4_loop]; destruct (Z.leb_spec (mlen (a :: s) - 8 * 4) 0); (done || lia).
Qed.

Definition short_for (hashType : HashTkHashTypes) (s : mem) : Prop :=
  match hashType with HASHTK_HSIEHHASH32 => mlen s < 2 ^ 31 | HASHTK_HALFMD4 => mlen s <= 32 end.

Lemma hash32_holds m p s t :
  holds m p s -> short_for t s -> HashTk_hash32 m t p (mlen s) = Done (hash32_of t s).
Proof.
  intros Hs Ht. destruct t; cbn [short_for HashTk_hash32 hash32_of] in *; [by apply hsieh_holds|].
  rewrite halfMD4_holds by done. cbn [mbind outcome_bind]. by destruct (halfMD4_of s) as [[[? ?] ?] ?].
Qed.

Lemma hash64_holds m p s t :
  holds m p s -> short_for t s -> HashTk_hash64 m t p (mlen s) = Done (hash64_of t s).
Proof.
  intros Hs Ht. destruct t; cbn [short_for HashTk_hash64 hash64_of] in *.
  - set (n := (length s / 2)%nat). rewrite <- (take_drop n s) in Hs. apply block_holds_app in Hs as [H1 H2].
    pose proof (Nat.Div0.div_le_upper_bound (length s) 2 (length s) ltac:(lia)) as Hn. fold n in Hn.
    assert (El : Z.quot (mlen s) 2 = mlen (take n s)).
    { unfold mlen. rewrite Z.quot_div_nonneg, length_take by lia. change 2 with (Z.of_nat 2) at 1.
      rewrite <- Nat2Z.inj_div. fold n. lia. }
    assert (Er : mlen s - mlen (take n s) = mlen (drop n s)) by (unfold mlen; rewrite length_take, length_drop; lia).
    rewrite El, Er. pose proof (mlen_nonneg (take n s)). pose proof (mlen_nonneg (drop n s)).
    rewrite !hsieh_holds by (done || lia). done.
  - rewrite halfMD4_holds by done. cbn [mbind outcome_bind]. by destruct (halfMD4_of s) as [[[? ?] ?] ?].
Qed.

Lemma hsieh_range s : 0 <= hsieh_of s < 2 ^ 32.
Proof. unfold hsieh_of. destruct s; [lia|]. apply wrap_range. lia. Qed.
Lemma half_md4_range buf words :
  0 <= (half_md4_transform buf words).1.1.2 < 2 ^ 32 /\ 0 <= (half_md4_transform buf words).1.2 < 2 ^ 32.
Proof.
  unfold half_md4_transform. destruct buf as [[[? ?] ?] ?]. destruct (half_md4_rounds _ _) as [[[? ?] ?] ?]. cbn [fst snd].
  split; apply (wrap_range 32); lia.
Qed.
Lemma halfMD4_range s : 0 <= (halfMD4_of s).1.1.2 < 2 ^ 32 /\ 0 <= (halfMD4_of s).1.2 < 2 ^ 32.
Proof. unfold halfMD4_of. destruct s; [cbn; lia|apply half_md4_range]. Qed.
Lemma hash32_range t s : 0 <= hash32_of t s < 2 ^ 32.
Proof. destruct t; [apply hsieh_range|apply halfMD4_range]. Qed.
Lemma lor_range n a b : 0 <= n -> 0 <= a < 2 ^ n -> 0 <= b < 2 ^ n -> 0 <= Z.lor a b < 2 ^ n.
Proof.
  intros Hn [Ha0 Ha] [Hb0 Hb]. assert (H0 : 0 <= Z.lor a b) by (by apply Z.lor_nonneg). split; [done|].
  pose proof (proj1 (Z.bounded_iff_bits_nonneg n a Hn Ha0) Ha) as Ha'.
  pose proof (proj1 (Z.bounded_iff_bits_nonneg n b Hn Hb0) Hb) as Hb'.
  apply Z.bounded_iff_bits_nonneg; [done..|]. intros l Hl. by rewrite Z.lor_spec, Ha', Hb'.
Qed.
Lemma hash64_range t s : 0 <= hash64_of t s < 2 ^ 64.
Proof.
  assert (H : forall a b, 0 <= b < 2 ^ 32 -> 0 <= Z.lor (u64 a) b < 2 ^ 64).
  { intros a b Hb. apply lor_range; [lia|apply (wrap_range 64); lia|lia]. }
  destruct t; apply H; [apply hsieh_range|apply halfMD4_range].
Qed.

(** The number of an inode by its entry ID. *)
Definition style_type (style : InodeIDStyle) : HashTkHashTypes :=
  match style with
  | INODEIDSTYLE_Hash32Hsieh | INODEIDSTYLE_Hash64HSieh => HASHTK_HSIEHHASH32
  | INODEIDSTYLE_Hash32MD4 | INODEIDSTYLE_Hash64MD4 => HASHTK_HALFMD4
  end.
Definition style_64 (sizeof_ino : Z) (style : InodeIDStyle) : bool :=
  match style with
  | INODEIDSTYLE_Hash32Hsieh | INODEIDSTYLE_Hash32MD4 => false
  | INODEIDSTYLE_Hash64HSieh | INODEIDSTYLE_Hash64MD4 => 8 <=? sizeof_ino
  end.
Definition inode_number (sizeof_ino : Z) (style : InodeIDStyle) (s : mem) : Z :=
  let hash := (if style_64 sizeof_ino style then hash64_of else hash32_of) (style_type style) in
  if hash s <=? CONGFS_INODE_MAXRESERVED_INO then hash (s ++ [0]) else hash s.

Lemma unless_reserved_holds m p s t (f : Z -> outcome Z) (h : mem -> Z) :
  holds m p (s ++ [0]) -> short_for t (s ++ [0]) ->
  (forall s, holds m p s -> short_for t s -> f (mlen s) = Done (h s)) ->
  unless_reserved f (mlen s) = Done (if h s <=? CONGFS_INODE_MAXRESERVED_INO then h (s ++ [0]) else h s).
Proof.
  intros Hs Ht Hf. assert (Ht' : short_for t s) by (destruct t; cbn in *; rewrite mlen_app in Ht; change (mlen [0]) with 1 in Ht; lia).
  unfold unless_reserved. rewrite (Hf s) by (done || by eapply block_holds_app). cbn [mbind outcome_bind].
  destruct (_ <=? _); [|done]. replace (mlen s + 1) with (mlen (s ++ [0])) by (by rewrite mlen_app). by apply Hf.
Qed.

(** C30: the number of an inode depends on its entry ID only.  For every style, on machines
    with 4- and 8-byte numbers: an entry ID that is at most 31 bytes long (for Hsieh's
    hash: of any length) gets the number that the reference definition gives for its
    bytes, whatever is around it in memory; nothing else is read, and the number fits
    its type. *)
Theorem inode_id_reproducible (sizeof_ino : Z) (style : InodeIDStyle) (m : mem) (p : Z) (s : mem) :
  holds m p (s ++ [0]) -> short_for (style_type style) (s ++ [0]) ->
  FhgfsInode_generateInodeID sizeof_ino style m p (mlen s) = Done (inode_number sizeof_ino style s) /\
  0 <= inode_number sizeof_ino style s < (if style_64 sizeof_ino style then 2 ^ 64 else 2 ^ 32).
Proof.
  intros Hs Ht. split.
  - unfold FhgfsInode_generateInodeID, inode_number, HashTk_hash.
    destruct style; cbn [style_64 style_type] in *; try destruct (8 <=? sizeof_ino); cbn [Z.eqb Pos.eqb];
      apply (unless_reserved_holds m p s _ _ _ Hs Ht); intros s' Hs' Ht'; by (apply hash32_holds || apply hash64_holds).
  - unfold inode_number. destruct (style_64 sizeof_ino style), (_ <=? _); apply hash64_range || apply hash32_range.
Qed.

(** The same ID at two places. *)
Lemma inode_id_reproducible_witness :
  FhgfsInode_generateInodeID 8 INODEIDSTYLE_Hash64MD4 ([1; 2] ++ [49; 45; 50; 65; 45; 49; 0] ++ [7]) 2 6 =
  FhgfsInode_generateInodeID 8 INODEIDSTYLE_Hash64MD4 [49; 45; 50; 65; 45; 49; 0] 0 6 /\
  inode_number 8 INODEIDSTYLE_Hash64MD4 [49; 45; 50; 65; 45; 49] < 2 ^ 64.
Proof.
  destruct (inode_id_reproducible 8 INODEIDSTYLE_Hash64MD4 ([1; 2] ++ [49; 45; 50; 65; 45; 49; 0] ++ [7]) 2
    [49; 45; 50; 65; 45; 49]) as [E H]; [by exists [1; 2], [7]|by vm_compute|].
  split; [|apply H]. etransitivity; [exact E|]. by vm_compute.
Defined.

(** ** IDs of more than 32 bytes *)

Lemma read8_lt m d b : read8 m d = Done b -> 0 <= d < mlen m.
Proof.
  unfold read8. destruct (Z.leb_spec 0 d); [|done]. destruct (m !! Z.to_nat d) eqn:E; [|done]. intros _.
  apply lookup_lt_Some in E. unfold mlen. lia.
Qed.

Lemma string2HashBuf_reads m msg pad n : forall i val num buf r,
  string2HashBuf_loop m n i msg pad val num buf = Done r -> n = 0%nat \/ msg + i + Z.of_nat n <= mlen m.
Proof.
  induction n as [|n IH]; [by left|]. intros i val num buf r. cbn [string2HashBuf_loop].
  destruct (char_at m (msg + i)) as [c|] eqn:Ec; [|done]. cbn [mbind outcome_bind].
  unfold char_at in Ec. destruct (read8 m (msg + i)) as [b|] eqn:Eb; [|done]. apply read8_lt in Eb. intros H. right.
  destruct (i mod 4 =? 3); [destruct (num <=? 0); [done|]|]; apply IH in H as [->|H]; lia.
Qed.

Lemma halfMD4_reads m len fuel : 32 <= len -> forall d rem out r,
  halfMD4_loop m fuel d rem len out = Done r -> 0 < rem -> d + 32 * ((rem + 31) / 32) <= mlen m.
Proof.
  intros Hl. induction fuel as [|fuel IH]; intros d rem out r; cbn [halfMD4_loop]; destruct (Z.leb_spec rem 0); try lia; [done|].
  destruct (HashTk_string2HashBufSigned m d len Hashtk_HALFMD4_IN_BUF_SIZE) as [buf|] eqn:E; [|done].
  cbn [mbind outcome_bind]. unfold HashTk_string2HashBufSigned, Hashtk_HALFMD4_IN_BUF_SIZE in E.
  replace (if 8 * 4 <? len then 8 * 4 else len) with 32 in E by (destruct (Z.ltb_spec (8 * 4) len); lia).
  destruct (string2HashBuf_loop _ _ _ _ _ _ _ _) as [x|] eqn:El; [|done]. apply string2HashBuf_reads in El.
  change (Z.of_nat (Z.to_nat 32)) with 32 in El. destruct El as [?|El]; [done|]. intros Hr _.
  change (Hashtk_HALFMD4_IN_BUF_SIZE * HashTk_INT_BYTES) with 32 in Hr.
  destruct (Z_le_gt_dec rem 32) as [Hle|Hgt].
  - replace ((rem + 31) / 32) with 1; [lia|]. apply Z.div_unique with (rem + 31 - 32); lia.
  - apply IH in Hr; [|lia]. replace ((rem + 31) / 32) with ((rem - 32 + 31) / 32 + 1); [lia|].
    rewrite <- Z.div_add by lia. f_equal. lia.
Qed.

(** Half MD4 reads behind long strings.  All parts of a string are taken to be as long
    as the string: one of more than 32 bytes is read up to the next multiple of 32,
    which is a fault when the memory ends before, and makes the number of an inode depend
    on what is behind its entry ID when it does not. *)
Theorem long_id_overread (m : mem) (p len : Z) :
  32 < len -> mlen m < p + 32 * ((len + 31) / 32) -> HashTk_halfMD4 m p len = Fault.
Proof.
  intros Hl Hm. destruct (HashTk_halfMD4 m p len) as [r|] eqn:E; [|done].
  unfold HashTk_halfMD4 in E. apply halfMD4_reads in E; lia.
Qed.

(** An ID of 33 bytes, at the end of its memory; and the same with other bytes behind. *)
Lemma long_id_overread_witness :
  HashTk_halfMD4 (replicate 33 65 ++ [0]) 0 33 = Fault /\
  FhgfsInode_generateInodeID 8 INODEIDSTYLE_Hash64MD4 (replicate 33 65 ++ [0] ++ replicate 30 1) 0 33 <>
  FhgfsInode_generateInodeID 8 INODEIDSTYLE_Hash64MD4 (replicate 33 65 ++ [0] ++ replicate 30 2) 0 33.
Proof. split; [by apply long_id_overread|]. by vm_compute. Defined.
