(* ===== verification/PointerTree.v ===== *)
(** * Maps with pointers or integers as keys

    [common/toolkit/tree/PointerRBTree.h/.c], [PointerRBTreeIter.h], [IntMap.h/.c]: search
    trees on the kernel's red-black trees, whose rebalancing is the class [KernelRBTree] of
    [RBTree].  An element is its key and its value, an iterator the key of the element it
    points to, or none; moving an iterator whose element is gone is a [Fault]. *)

From stdpp Require Import sorting.
From S2P Require Import Prelude Serialization RBTree.

(** The comparators of integer and pointer keys: the sign is that of the comparison of
    two keys.  (Maps of strings have [strcmp] as comparator; AckStore.v models theirs.) *)
Class KeyComparator (compare : Z -> Z -> Z) : Prop := {
  compare_lt a b : (compare a b <? 0) = (a <? b);
  compare_gt a b : (0 <? compare a b) = (b <? a) }.

Definition PointerRBTree_keyCompare (a b : Z) : Z := if a <? b then -1 else if a =? b then 0 else 1.
Definition __InodeRefStore_keyComparator (key1 key2 : Z) : Z := if key1 <? key2 then -1 else if key2 <? key1 then 1 else 0.

#[export] Instance keyCompare_ok : KeyComparator PointerRBTree_keyCompare.
Proof.
  split; intros a b; unfold PointerRBTree_keyCompare;
    destruct (Z.ltb_spec a b), (Z.eqb_spec a b), (Z.ltb_spec b a); (done || lia).
Qed.
#[export] Instance inodeCompare_ok : KeyComparator __InodeRefStore_keyComparator.
Proof.
  split; intros a b; unfold __InodeRefStore_keyComparator;
    destruct (Z.ltb_spec a b), (Z.ltb_spec b a); (done || lia).
Qed.

Section Tree.
Context {V : Type}.

Context `{!KernelRBTree (Z * V) fst} (compareTreeElems : Z -> Z -> Z).

Record RBTree := mkRBTree { treeroot : rbtree (Z * V); rb_length : Z }.

Definition PointerRBTree_init : RBTree := mkRBTree Leaf 0.

Fixpoint find_elem (node : rbtree (Z * V)) (searchKey : Z) : option (Z * V) :=
  match node with
  | Leaf => None
  | Node l treeElem r =>
      let compRes := compareTreeElems searchKey (fst treeElem) in
      if compRes <? 0 then find_elem l searchKey
      else if 0 <? compRes then find_elem r searchKey else Some treeElem
  end.
Definition _PointerRBTree_findElem (this : RBTree) (searchKey : Z) : option (Z * V) :=
  find_elem (treeroot this) searchKey.

(** The walk to the place of the new element; [None]: the key exists. *)
Fixpoint link_elem (node : rbtree (Z * V)) (newElem : Z * V) : option (rbtree (Z * V)) :=
  match node with
  | Leaf => Some (Node Leaf newElem Leaf)
  | Node l treeElem r =>
      let compRes := compareTreeElems (fst newElem) (fst treeElem) in
      if compRes <? 0 then l' ← link_elem l newElem; Some (Node l' treeElem r)
      else if 0 <? compRes then r' ← link_elem r newElem; Some (Node l treeElem r')
      else None
  end.
Definition PointerRBTree_insert (this : RBTree) (newKey : Z) (newValue : V) : bool * RBTree :=
  match link_elem (treeroot this) (newKey, newValue) with
  | None => (false, this)
  | Some t => (true, mkRBTree (rb_insert_color t) (u64 (rb_length this + 1)))
  end.

Definition PointerRBTree_erase (this : RBTree) (eraseKey : Z) : bool * RBTree :=
  match _PointerRBTree_findElem this eraseKey with
  | None => (false, this)
  | Some treeElem => (true, mkRBTree (rb_erase (fst treeElem) (treeroot this)) (u64 (rb_length this - 1)))
  end.

Definition PointerRBTree_length (this : RBTree) : Z := rb_length this.

Fixpoint PointerRBTree_clear (fuel : nat) (this : RBTree) : outcome RBTree :=
  if rb_length this =? 0 then Done this else
  match fuel, treeroot this with
  | S fuel, Node _ root _ => PointerRBTree_clear fuel (snd (PointerRBTree_erase this (fst root)))
  | _, _ => Fault
  end.

(** ** Iterators *)

Definition RBTreeIter : Type := option (Z * V).

Definition PointerRBTree_find (this : RBTree) (searchKey : Z) : RBTreeIter := _PointerRBTree_findElem this searchKey.
Definition PointerRBTree_begin (this : RBTree) : RBTreeIter := head (rb_iter (treeroot this)).

(** [rb_next] of the element with key [k]. *)
Fixpoint elem_after (k : Z) (l : list (Z * V)) : outcome RBTreeIter :=
  match l with
  | [] => Fault
  | e :: l => if fst e =? k then Done (head l) else elem_after k l
  end.
Definition PointerRBTreeIter_next (tree : RBTree) (this : RBTreeIter) : outcome RBTreeIter :=
  e ← of_option this;
  elem_after (fst e) (rb_iter (treeroot tree)).

(** ** The map *)

Context `{!KeyComparator compareTreeElems}.

Definition map_of (this : RBTree) : gmap Z (Z * V) := rb_map fst (treeroot this).
Definition tree_wf (this : RBTree) : Prop :=
  rb_sorted fst (treeroot this) /\ rb_length this = Z.of_nat (size (map_of this)) /\ Z.of_nat (size (map_of this)) < 2 ^ 64.

Lemma cmp_lt_same a b : (rb_keycmp_lt_integral a b <? 0) = (a <? b).
Proof. unfold rb_keycmp_lt_integral. destruct (Z.ltb_spec a b), (Z.eqb_spec a b); (done || lia). Qed.
Lemma cmp_gt_same a b : (0 <? rb_keycmp_lt_integral a b) = (b <? a).
Proof. unfold rb_keycmp_lt_integral. destruct (Z.ltb_spec a b), (Z.eqb_spec a b), (Z.ltb_spec b a); (done || lia). Qed.

Lemma find_elem_rb t k : find_elem t k = rb_find fst t k.
Proof.
  induction t as [|l IHl e r IHr]; cbn [find_elem rb_find]; [done|].
  by rewrite compare_lt, compare_gt, cmp_lt_same, cmp_gt_same, IHl, IHr.
Qed.
Lemma link_elem_rb t e : link_elem t e = rb_link fst t e.
Proof.
  induction t as [|l IHl x r IHr]; cbn [link_elem rb_link]; [done|].
  by rewrite compare_lt, compare_gt, cmp_lt_same, cmp_gt_same, IHl, IHr.
Qed.

Lemma find_map this k : tree_wf this -> _PointerRBTree_findElem this k = map_of this !! k.
Proof. intros (Hs & _). unfold _PointerRBTree_findElem. by rewrite find_elem_rb, rb_find_map. Qed.

Lemma wf_init : tree_wf PointerRBTree_init.
Proof. split_and!; [constructor|done|done]. Qed.

Lemma insert_wf this k v : tree_wf this -> Z.of_nat (size (map_of this)) + 1 < 2 ^ 64 ->
  let '(ok, this') := PointerRBTree_insert this k v in
  tree_wf this' /\
  match map_of this !! k with
  | Some _ => ok = false /\ this' = this
  | None => ok = true /\ map_of this' = <[k := (k, v)]> (map_of this)
  end.
Proof.
  intros (Hs & Hl & Hm) Hm1. unfold PointerRBTree_insert. rewrite link_elem_rb.
  destruct (rb_insert_map fst (treeroot this) (k, v) Hs) as [Hs' Hi]. unfold rb_insert in *. cbn [fst] in *.
  change (rb_map fst (treeroot this)) with (map_of this) in Hi.
  destruct (rb_link fst (treeroot this) (k, v)) as [t|] eqn:El; cbn [fst snd] in *.
  - destruct (map_of this !! k) as [e|] eqn:Ek; [done|]. destruct Hi as [_ Hi].
    assert (Em : map_of (mkRBTree (rb_insert_color t) (u64 (rb_length this + 1))) = <[k := (k, v)]> (map_of this)) by done.
    split; [|by split]. unfold tree_wf. rewrite Em, map_size_insert_None by done.
    split_and!; [done|cbn [rb_length]; rewrite u64_id; lia|lia].
  - destruct (map_of this !! k) as [e|] eqn:Ek; by destruct Hi.
Qed.

Lemma erase_wf this k : tree_wf this ->
  let '(ok, this') := PointerRBTree_erase this k in
  tree_wf this' /\ ok = bool_decide (is_Some (map_of this !! k)) /\ map_of this' = delete k (map_of this).
Proof.
  intros Hw. pose proof Hw as (Hs & Hl & Hm). unfold PointerRBTree_erase. rewrite find_map by done.
  destruct (map_of this !! k) as [e|] eqn:Ek.
  - assert (Hk : fst e = k) by (by apply (rb_map_lookup fst) in Ek as [_ ?]).
    destruct (rb_erase_map fst (treeroot this) e Hs) as [Hs' He]. unfold rb_erase_elem in *. rewrite Hk in *.
    assert (Em : map_of (mkRBTree (rb_erase k (treeroot this)) (u64 (rb_length this - 1))) = delete k (map_of this)) by done.
    assert (Hsz : size (delete k (map_of this)) = pred (size (map_of this))) by (by rewrite map_size_delete, Ek).
    assert (Hpos : size (map_of this) <> 0%nat).
    { intros H0%map_size_empty_iff. by rewrite H0, lookup_empty in Ek. }
    split_and!; [|by rewrite bool_decide_true|done]. unfold tree_wf. rewrite Em, Hsz.
    split_and!; [done|cbn [rb_length]; rewrite u64_id; lia|lia].
  - split_and!; [done|by rewrite bool_decide_false by (by intros [? ?])|by rewrite delete_id].
Qed.

(** ** Iterating: the smallest key, and the next larger one *)

Definition least (m : gmap Z (Z * V)) (P : Z -> Prop) (o : RBTreeIter) : Prop :=
  match o with
  | Some e => m !! fst e = Some e /\ P (fst e) /\ forall k, is_Some (m !! k) -> P k -> fst e <= k
  | None => forall k, is_Some (m !! k) -> ~ P k
  end.

Lemma sorted_head_least (l : list (Z * V)) :
  StronglySorted (lt_key fst) l -> forall e, head l = Some e -> forall x, x ∈ l -> fst e <= fst x.
Proof.
  intros Hs e He x Hx. destruct l as [|y l]; [done|]. injection He as ->. inversion Hs as [|? ? _ Hf]; subst.
  apply elem_of_cons in Hx as [->|Hx]; [lia|]. rewrite Forall_forall in Hf. specialize (Hf x Hx). unfold lt_key in Hf. lia.
Qed.

Lemma begin_least this : tree_wf this -> least (map_of this) (fun _ => True) (PointerRBTree_begin this).
Proof.
  intros (Hs & _). destruct (rb_iter_map fst (treeroot this) Hs) as [Hi Hm]. unfold PointerRBTree_begin, least.
  destruct (head _) as [e|] eqn:E.
  - split_and!; [|done|].
    + apply Hm. apply head_Some_elem_of in E. done.
    + intros k [x Hx] _. assert (Ek : fst x = k) by (by apply (rb_map_lookup fst) in Hx as [_ ?]).
      rewrite <- Ek. eapply sorted_head_least; [exact Hi|done|]. apply Hm. by rewrite Ek.
  - intros k [x Hx] _. assert (Ek : fst x = k) by (by apply (rb_map_lookup fst) in Hx as [_ ?]).
    assert (Hx' : x ∈ rb_iter (treeroot this)) by (apply Hm; by rewrite Ek).
    destruct (rb_iter (treeroot this)); [by apply not_elem_of_nil in Hx'|done].
Qed.

Lemma elem_after_spec (l : list (Z * V)) e :
  StronglySorted (lt_key fst) l -> e ∈ l ->
  exists l2, elem_after (fst e) l = Done (head l2) /\ StronglySorted (lt_key fst) l2 /\
    forall x, x ∈ l2 <-> x ∈ l /\ fst e < fst x.
Proof.
  induction 1 as [|y l Hs IH Hf]; [by intros ?%not_elem_of_nil|]. rewrite Forall_forall in Hf.
  unfold lt_key in Hf. intros [->|He]%elem_of_cons; cbn [elem_after].
  - rewrite Z.eqb_refl. exists l. split_and!; [done..|]. intros x. rewrite elem_of_cons. split.
    + intros Hx. split; [by right|by apply Hf].
    + intros [[->|Hx] Hlt]; [lia|done].
  - pose proof (Hf e He). destruct (Z.eqb_spec (fst y) (fst e)); [lia|].
    destruct (IH He) as (l2 & -> & Hs2 & H2). exists l2. split_and!; [done..|]. intros x. rewrite H2, elem_of_cons.
    split; [intros [? ?]; auto|]. intros [[->|Hx] Hlt]; [lia|done].
Qed.

Lemma next_least this k e : tree_wf this -> map_of this !! k = Some e ->
  exists o, PointerRBTreeIter_next this (Some e) = Done o /\ least (map_of this) (fun k' => k < k') o.
Proof.
  intros (Hs & _) He. assert (Ek : fst e = k) by (by apply (rb_map_lookup fst) in He as [_ ?]). subst k.
  destruct (rb_iter_map fst (treeroot this) Hs) as [Hi Hm].
  destruct (elem_after_spec (rb_iter (treeroot this)) e Hi ltac:(by apply Hm)) as (l2 & E & Hs2 & H2).
  exists (head l2). split; [done|].
  assert (Hin : forall k', is_Some (map_of this !! k') -> fst e < k' -> exists x, x ∈ l2 /\ fst x = k').
  { intros k' [x Hx] Hlt. assert (Ek : fst x = k') by (by apply (rb_map_lookup fst) in Hx as [_ ?]).
    exists x. split; [|done]. apply H2. split; [apply Hm; by rewrite Ek|lia]. }
  unfold least. destruct l2 as [|x l2]; cbn [head].
  - intros k' Hk' Hlt. destruct (Hin k' Hk' Hlt) as (x & Hx & _). by apply not_elem_of_nil in Hx.
  - assert (Hx : x ∈ x :: l2) by left. apply H2 in Hx as [Hx Hlt]. split_and!; [by apply Hm|done|].
    intros k' Hk' Hlt'. destruct (Hin k' Hk' Hlt') as (y & Hy & <-). by eapply sorted_head_least.
Qed.

Lemma root_in_map this l e r : tree_wf this -> treeroot this = Node l e r -> map_of this !! fst e = Some e.
Proof. intros (Hs & _) Et. apply (rb_map_lookup fst); [done|]. rewrite Et. cbn [inorder]. split; [set_solver|done]. Qed.
Lemma empty_leaf this : tree_wf this -> map_of this = ∅ -> treeroot this = Leaf.
Proof.
  intros Hw He. destruct (treeroot this) as [|l e r] eqn:Et; [done|]. pose proof (root_in_map this l e r Hw Et) as H.
  by rewrite He, lookup_empty in H.
Qed.

Lemma clear_wf fuel this : tree_wf this -> (size (map_of this) <= fuel)%nat ->
  exists this', PointerRBTree_clear fuel this = Done this' /\ tree_wf this' /\ map_of this' = ∅.
Proof.
  revert this. induction fuel as [|fuel IH]; intros this Hw Hf; pose proof Hw as (Hs & Hl & Hm);
    cbn [PointerRBTree_clear]; destruct (Z.eqb_spec (rb_length this) 0) as [E|E].
  1, 3: exists this; split_and!; [done|done|apply map_size_empty_iff; lia].
  - lia.
  - destruct (treeroot this) as [|l e r] eqn:Et.
    { exfalso. apply E. rewrite Hl. unfold map_of. by rewrite Et. }
    pose proof (root_in_map this l e r Hw Et) as Hx.
    pose proof (erase_wf this (fst e) Hw) as He. destruct (PointerRBTree_erase this (fst e)) as [ok this'].
    destruct He as (Hw' & _ & Em). cbn [snd]. apply IH; [done|]. rewrite Em, map_size_delete, Hx. lia.
Qed.

(** C29: the trees with pointer keys are maps that are iterated in the order of their keys.
    For every comparator that orders its keys as the integers or pointers that they are,
    as those of [IntMap] and [InodeRefStore] do (the maps with strings as keys, whose
    comparator is [strcmp], are not instances), and any kernel that keeps its promises: lookup,
    insertion (which refuses a key that exists), erasure and length are those of a finite
    map, [begin] is its least key, and moving an iterator whose element is in the tree
    leads to the next larger one; clearing ends, with the empty tree.  All of them keep
    the tree a search tree with the right length. *)
Theorem pointer_tree_refines (this : RBTree) (k : Z) (v : V) : tree_wf this ->
  _PointerRBTree_findElem this k = map_of this !! k /\
  PointerRBTree_length this = Z.of_nat (size (map_of this)) /\
  (Z.of_nat (size (map_of this)) + 1 < 2 ^ 64 ->
   let '(ok, this') := PointerRBTree_insert this k v in
   tree_wf this' /\ ok = bool_decide (map_of this !! k = None) /\
   map_of this' = if ok then <[k := (k, v)]> (map_of this) else map_of this) /\
  (let '(ok, this') := PointerRBTree_erase this k in
   tree_wf this' /\ ok = bool_decide (is_Some (map_of this !! k)) /\ map_of this' = delete k (map_of this)) /\
  least (map_of this) (fun _ => True) (PointerRBTree_begin this) /\
  (forall e, map_of this !! k = Some e ->
   exists o, PointerRBTreeIter_next this (PointerRBTree_find this k) = Done o /\ least (map_of this) (fun k' => k < k') o) /\
  (exists this', PointerRBTree_clear (size (map_of this)) this = Done this' /\ tree_wf this' /\ map_of this' = ∅).
Proof.
  intros Hw. split_and!.
  - by apply find_map.
  - apply Hw.
  - intros Hm. pose proof (insert_wf this k v Hw Hm) as H. destruct (PointerRBTree_insert this k v) as [ok this'].
    destruct H as [Hw' H]. split; [done|]. destruct (map_of this !! k) as [e|]; destruct H as [-> H].
    + rewrite bool_decide_false by done. by subst this'.
    + by rewrite bool_decide_true.
  - by apply erase_wf.
  - by apply begin_least.
  - intros e He. unfold PointerRBTree_find. rewrite find_map, He by done. by apply next_least.
  - by apply clear_wf.
Qed.
End Tree.

(** ** Maps of integers *)

Section IntMap.
Context `{!KernelRBTree (Z * Z) fst}.

Definition IntMap : Type := RBTree (V := Z).
Definition IntMap_init : IntMap := PointerRBTree_init.
Definition IntMap_insert (this : IntMap) (newKey newValue : Z) : bool * IntMap :=
  PointerRBTree_insert PointerRBTree_keyCompare this (u64 newKey) newValue.
Definition IntMap_erase (this : IntMap) (eraseKey : Z) : bool * IntMap :=
  PointerRBTree_erase PointerRBTree_keyCompare this (u64 eraseKey).
Definition IntMap_length (this : IntMap) : Z := PointerRBTree_length this.
Definition IntMap_find (this : IntMap) (searchKey : Z) : RBTreeIter :=
  _PointerRBTree_findElem PointerRBTree_keyCompare this (u64 searchKey).
Definition IntMap_begin (this : IntMap) : RBTreeIter := PointerRBTree_begin this.
Definition IntMapIter_key (this : RBTreeIter (V := Z)) : outcome Z := e ← of_option this; Done (s32 (fst e)).
Definition IntMapIter_value (this : RBTreeIter (V := Z)) : outcome Z := e ← of_option this; Done (snd e).

(** Negative keys come behind the others, and are themselves again when they are read. *)
Lemma IntMap_key_again (this : IntMap) (k v : Z) :
  tree_wf this -> Z.of_nat (size (map_of this)) + 1 < 2 ^ 64 -> - 2 ^ 31 <= k < 2 ^ 31 ->
  IntMap_find this k = None ->
  let this' := snd (IntMap_insert this k v) in
  fst (IntMap_insert this k v) = true /\
  IntMapIter_key (IntMap_find this' k) = Done k /\ IntMapIter_value (IntMap_find this' k) = Done v.
Proof.
  intros Hw Hm Hk Hn. unfold IntMap_find, IntMap_insert in *.
  rewrite (find_map PointerRBTree_keyCompare this (u64 k) Hw) in Hn.
  pose proof (insert_wf PointerRBTree_keyCompare this (u64 k) v Hw Hm) as H.
  destruct (PointerRBTree_insert PointerRBTree_keyCompare this (u64 k) v) as [ok this'].
  destruct H as [Hw' H]. rewrite Hn in H. destruct H as [-> Em]. cbn [fst snd].
  rewrite (find_map PointerRBTree_keyCompare this' (u64 k) Hw'), Em, lookup_insert_eq. split_and!; [done| |done]. cbn. f_equal.
  assert (E : s32 (u64 k) = s32 k).
  { unfold s32, swrap, u64, wrap. rewrite Z.mod_mod_divide; [done|]. by exists (2 ^ 32). }
  rewrite E. apply swrap_id; [lia|]. unfold in_s. lia.
Qed.
End IntMap.

(** ** An example: three keys, inserted, searched and erased *)

Module SmallTree.
#[export] Instance kernel : KernelRBTree (Z * Z) fst := chain_kernel (Z * Z) fst.

Definition three : RBTree :=
  foldl (fun t k => snd (PointerRBTree_insert PointerRBTree_keyCompare t k (10 * k))) PointerRBTree_init [5; 3; 9].
End SmallTree.

#[local] Existing Instance SmallTree.kernel.

Lemma three_wf : tree_wf SmallTree.three.
Proof.
  unfold SmallTree.three. cbn [foldl].
  do 3 (match goal with |- tree_wf (snd (PointerRBTree_insert ?c ?t ?k ?v)) =>
    let H := fresh in assert (H : tree_wf t); [|pose proof (insert_wf c t k v H ltac:(by vm_compute));
      destruct (PointerRBTree_insert c t k v); tauto] end).
  apply wf_init.
Qed.

Lemma pointer_tree_refines_witness :
  _PointerRBTree_findElem PointerRBTree_keyCompare SmallTree.three 3 = Some (3, 30) /\
  PointerRBTreeIter_next SmallTree.three (PointerRBTree_find PointerRBTree_keyCompare SmallTree.three 3) = Done (Some (5, 50)) /\
  least (map_of SmallTree.three) (fun _ => True) (PointerRBTree_begin SmallTree.three) /\
  PointerRBTree_begin SmallTree.three = Some (3, 30).
Proof.
  destruct (pointer_tree_refines PointerRBTree_keyCompare SmallTree.three 3 0 three_wf) as (E & _ & _ & _ & Hb & Hn & _).
  split; [rewrite E; by vm_compute|]. destruct (Hn (3, 30)) as (o & Eo & Ho); [by vm_compute|].
  split; [|split; [exact Hb|by vm_compute]]. rewrite Eo. vm_compute in Eo. by injection Eo as <-.
Defined.
