(* ===== verification/BufferStores.v ===== *)
(** * The store of cache buffers

    [toolkit/NoAllocBufferStore.c]: a fixed number of buffers, which threads take, wait for
    and give back.  A call holds the mutex of the store; waiting releases it, so a waiting
    call is cut there. *)

From S2P Require Import Prelude Serialization.

(** ** Buffers

    A buffer is its address; a free place of the array holds 0 or an old address. *)

Record NoAllocBufferStore := mkStore {
  bufArray : list Z; numBufs : Z; bufSize : Z; numAvailable : Z }.

(** Allocation: the address of the array, and that of the [i]th buffer, 0 when there is no
    memory.  The result: whether all went well, and the blocks that are still allocated. *)
Fixpoint init_loop (bufs : list Z) (taken : list Z) (numAvailable : Z) : bool * list Z * Z :=
  match bufs with
  | [] => (true, taken, numAvailable)
  | buf :: bufs => if buf =? 0 then (false, taken, numAvailable)
                   else init_loop bufs (taken ++ [buf]) (u64 (numAvailable + 1))
  end.

Definition __NoAllocBufferStore_initBuffers (this : NoAllocBufferStore) (os_kzalloc : Z) (vmalloc : nat -> Z)
    : bool * list Z * NoAllocBufferStore :=
  let array := if numBufs this =? 0 then 0 else os_kzalloc in
  if (array =? 0) && negb (numBufs this =? 0) then (false, [], this) else
  let array_block := if array =? 0 then [] else [array] in
  let bufs := vmalloc <$> seq 0 (Z.to_nat (numBufs this)) in
  let '(ok, taken, n) := init_loop bufs [] (numAvailable this) in
  let cells := taken ++ replicate (length bufs - length taken) 0 in
  if ok : bool then (true, array_block ++ taken, mkStore cells (numBufs this) (bufSize this) n)
  else (false, array_block, mkStore cells (numBufs this) (bufSize this) n).

Definition NoAllocBufferStore_init (numBufs bufSize os_kzalloc : Z) (vmalloc : nat -> Z)
    : bool * list Z * NoAllocBufferStore :=
  __NoAllocBufferStore_initBuffers (mkStore [] numBufs bufSize 0) os_kzalloc vmalloc.

(** The last of the available buffers. *)
Definition take_last (this : NoAllocBufferStore) : outcome (Z * NoAllocBufferStore) :=
  let i := u64 (numAvailable this - 1) in
  buf ← of_option (bufArray this !! Z.to_nat i);
  Done (buf, mkStore (bufArray this) (numBufs this) (bufSize this) i).

(** One turn of the loop; [None]: go to sleep. *)
Definition NoAllocBufferStore_waitForBuf (this : NoAllocBufferStore) : outcome (option Z * NoAllocBufferStore) :=
  if numAvailable this =? 0 then Done (None, this)
  else '(buf, this) ← take_last this; Done (Some buf, this).

Definition NoAllocBufferStore_instantBuf (this : NoAllocBufferStore) : outcome (option Z * NoAllocBufferStore) :=
  if numAvailable this =? 0 then Done (None, this)
  else '(buf, this) ← take_last this; Done (Some buf, this).

(** [NULL] is a bug that the code reports. *)
Definition NoAllocBufferStore_addBuf (this : NoAllocBufferStore) (buf : Z) : outcome NoAllocBufferStore :=
  if buf =? 0 then Fault
  else if numAvailable this <? Z.of_nat (length (bufArray this)) then
    Done (mkStore (<[Z.to_nat (numAvailable this) := buf]> (bufArray this)) (numBufs this) (bufSize this)
            (u64 (numAvailable this + 1)))
  else Fault.

(** The buffers that are freed. *)
Definition NoAllocBufferStore_uninit (this : NoAllocBufferStore) : list Z :=
  take (Z.to_nat (numAvailable this)) (bufArray this).

Definition NoAllocBufferStore_getNumAvailable (this : NoAllocBufferStore) : Z := numAvailable this.
Definition NoAllocBufferStore_getBufSize (this : NoAllocBufferStore) : Z := bufSize this.

(** *** Threads

    The store, the buffers that threads have, how many threads sleep, and how many have been
    woken up and did not run since. *)
Record Pool := mkPool { p_store : NoAllocBufferStore; p_held : list Z; p_sleepers : nat; p_woken : nat }.

Definition got (r : option Z) (held : list Z) : list Z := match r with Some b => b :: held | None => held end.
Definition sleeps (r : option Z) : nat := match r with Some _ => 0 | None => 1 end.

Inductive pstep : Pool -> Pool -> Prop :=
| P_instant s s' r h sl wk :
    NoAllocBufferStore_instantBuf s = Done (r, s') -> pstep (mkPool s h sl wk) (mkPool s' (got r h) sl wk)
| P_wait s s' r h sl wk :
    NoAllocBufferStore_waitForBuf s = Done (r, s') ->
    pstep (mkPool s h sl wk) (mkPool s' (got r h) (sl + sleeps r) wk)
| P_run s s' r h sl wk :
    NoAllocBufferStore_waitForBuf s = Done (r, s') ->
    pstep (mkPool s h sl (S wk)) (mkPool s' (got r h) (sl + sleeps r) wk)
| P_add s s' b h h' sl wk :
    h ≡ₚ b :: h' -> NoAllocBufferStore_addBuf s b = Done s' ->
    pstep (mkPool s h sl wk) (mkPool s' h' (pred sl) (wk + Nat.min sl 1))
| P_spurious s h sl wk : pstep (mkPool s h (S sl) wk) (mkPool s h sl (S wk)).

Definition available (s : NoAllocBufferStore) : list Z := take (Z.to_nat (numAvailable s)) (bufArray s).

Definition pool_inv (bufs : list Z) (p : Pool) : Prop :=
  let s := p_store p in
  length (bufArray s) = length bufs /\ 0 <= numAvailable s <= Z.of_nat (length bufs) /\
  available s ++ p_held p ≡ₚ bufs /\ (p_sleepers p <> 0%nat -> numAvailable s <= Z.of_nat (p_woken p)).

Lemma init_loop_spec bufs taken n : Forall (fun b => b <> 0) bufs -> 0 <= n -> n + Z.of_nat (length bufs) < 2 ^ 64 ->
  init_loop bufs taken n = (true, taken ++ bufs, n + Z.of_nat (length bufs)).
Proof.
  intros Hb. revert taken n. induction Hb as [|b l Hb Hl IH]; intros taken n H0 Hn; cbn [init_loop length] in *.
  - by rewrite app_nil_r, Z.add_0_r.
  - destruct (Z.eqb_spec b 0); [done|]. rewrite u64_id by lia. rewrite IH by lia.
    rewrite <- app_assoc. cbn [app]. f_equal. lia.
Qed.

Section Pool.
Context (bufs : list Z) (Hbufs : Forall (fun b => b <> 0) bufs) (Hlen : Z.of_nat (length bufs) < 2 ^ 63).

Lemma take_last_spec s h :
  length (bufArray s) = length bufs -> 0 < numAvailable s <= Z.of_nat (length bufs) -> available s ++ h ≡ₚ bufs ->
  exists b s', take_last s = Done (b, s') /\ bufArray s' = bufArray s /\ numAvailable s' = numAvailable s - 1 /\
    available s' ++ b :: h ≡ₚ bufs.
Proof.
  intros Hl Hn Hp. unfold take_last. rewrite u64_id by lia.
  destruct (lookup_lt_is_Some_2 (bufArray s) (Z.to_nat (numAvailable s - 1))) as [b Hb]; [lia|].
  rewrite Hb. cbn [of_option mbind outcome_bind]. eexists b, _. split_and!; [done..|].
  unfold available in *. cbn [bufArray numAvailable]. rewrite <- Hp.
  replace (Z.to_nat (numAvailable s)) with (S (Z.to_nat (numAvailable s - 1))) by lia.
  by rewrite (take_S_r _ _ _ Hb), <- app_assoc.
Qed.

Lemma take_turn_spec s h sl wk : pool_inv bufs (mkPool s h sl wk) ->
  exists r s', NoAllocBufferStore_waitForBuf s = Done (r, s') /\ bufArray s' = bufArray s /\
    available s' ++ got r h ≡ₚ bufs /\
    match r with Some _ => 0 < numAvailable s /\ numAvailable s' = numAvailable s - 1
               | None => numAvailable s = 0 /\ numAvailable s' = 0 end.
Proof.
  intros (Hl & Hn & Hp & _). cbn [p_store p_held] in *. unfold NoAllocBufferStore_waitForBuf.
  destruct (Z.eqb_spec (numAvailable s) 0) as [E|E].
  - exists None, s. by split_and!.
  - destruct (take_last_spec s h Hl ltac:(lia) Hp) as (b & s' & -> & Ha & Hn' & Hp').
    exists (Some b), s'. split_and!; (done || lia).
Qed.

Lemma pstep_inv p p' : pool_inv bufs p -> pstep p p' -> pool_inv bufs p'.
Proof.
  intros Hi Hs. destruct Hs as [s s' r h sl wk E|s s' r h sl wk E|s s' r h sl wk E|s s' b h h' sl wk Eh E|s h sl wk].
  1-3: pose proof Hi as (Hl & Hn & _ & Hw); destruct (take_turn_spec _ _ _ _ Hi) as (r2 & s2 & E2 & Ha & Hp & Hr);
    cbn [p_store p_held p_sleepers p_woken] in *.
  - change (NoAllocBufferStore_instantBuf s) with (NoAllocBufferStore_waitForBuf s) in E. rewrite E2 in E. injection E as <- <-.
    split_and!; cbn [p_store p_held p_sleepers p_woken]; [by rewrite Ha|destruct r2; lia|destruct r2; lia|done|]. intros Hsl. specialize (Hw Hsl). destruct r2; lia.
  - rewrite E2 in E. injection E as <- <-.
    split_and!; cbn [p_store p_held p_sleepers p_woken]; [by rewrite Ha|destruct r2; lia|destruct r2; lia|done|].
    destruct r2; cbn [sleeps]; [|lia]. intros Hsl. assert (Hsl' : sl <> 0%nat) by lia. specialize (Hw Hsl'). lia.
  - rewrite E2 in E. injection E as <- <-.
    split_and!; cbn [p_store p_held p_sleepers p_woken]; [by rewrite Ha|destruct r2; lia|destruct r2; lia|done|].
    destruct r2; cbn [sleeps]; [|lia]. intros Hsl. assert (Hsl' : sl <> 0%nat) by lia. specialize (Hw Hsl'). lia.
  - destruct Hi as (Hl & Hn & Hp & Hw). cbn [p_store p_held p_sleepers p_woken] in *.
    unfold NoAllocBufferStore_addBuf in E. destruct (Z.eqb_spec b 0); [done|].
    destruct (Z.ltb_spec (numAvailable s) (Z.of_nat (length (bufArray s)))); [|done]. injection E as <-.
    split_and!; cbn [p_store p_held p_sleepers p_woken bufArray numAvailable].
    + by rewrite length_insert.
    + rewrite u64_id; lia.
    + rewrite u64_id; lia.
    + rewrite <- Hp, Eh. unfold available. cbn [bufArray numAvailable]. rewrite u64_id by lia.
      replace (Z.to_nat (numAvailable s + 1)) with (S (Z.to_nat (numAvailable s))) by lia.
      rewrite (take_S_r _ _ b) by (apply list_lookup_insert_eq; lia).
      rewrite take_insert, decide_False by lia. by rewrite <- app_assoc.
    + intros Hsl. assert (Hsl' : sl <> 0%nat) by lia. specialize (Hw Hsl'). rewrite u64_id by lia. lia.
  - destruct Hi as (Hl & Hn & Hp & Hw). cbn [p_store p_held p_sleepers p_woken] in *.
    split_and!; cbn [p_store p_held p_sleepers p_woken]; [done|lia|lia|done|]. intros _. specialize (Hw ltac:(done)). lia.
Qed.

End Pool.

(** The buffers that are allocated for a store. *)
Definition allocated_bufs (n : Z) (vmalloc : nat -> Z) : list Z := vmalloc <$> seq 0 (Z.to_nat n).

(** The store after initialisation: all buffers are available. *)
Lemma init_inv n size array vmalloc : 0 <= n < 2 ^ 63 -> array <> 0 -> Forall (fun b => b <> 0) (allocated_bufs n vmalloc) ->
  exists blocks s, NoAllocBufferStore_init n size array vmalloc = (true, blocks, s) /\
    pool_inv (allocated_bufs n vmalloc) (mkPool s [] 0 0).
Proof.
  intros Hn Ha Hb. unfold NoAllocBufferStore_init, __NoAllocBufferStore_initBuffers. cbn [numBufs numAvailable bufSize].
  fold (allocated_bufs n vmalloc). assert (Hl : Z.of_nat (length (allocated_bufs n vmalloc)) = n).
  { unfold allocated_bufs. rewrite length_fmap, length_seq. lia. }
  destruct (allocated_bufs n vmalloc) as [|b0 bs] eqn:Eb; [cbn in Hl; subst n|]; [|rewrite <- Eb in *; clear Eb b0 bs].
  - cbn. eexists _, _. split; [done|]. by split_and!.
  - assert (E0 : ((if n =? 0 then 0 else array) =? 0) && negb (n =? 0) = false).
    { destruct (Z.eqb_spec n 0); [done|]. by destruct (Z.eqb_spec array 0). }
    rewrite E0, (init_loop_spec _ [] 0) by (done || lia). cbn beta iota. eexists _, _. split; [done|].
    split_and!; cbn [p_store p_held p_sleepers p_woken bufArray numAvailable]; rewrite ?app_nil_l, ?Nat.sub_diag.
    + by rewrite app_nil_r.
    + lia.
    + lia.
    + rewrite app_nil_r. unfold available. cbn [bufArray numAvailable]. rewrite ?app_nil_l, ?Nat.sub_diag. cbn [replicate].
      rewrite ?app_nil_r, take_ge by lia. done.
    + done.
Qed.

Lemma wait_not_fault bufs p : Z.of_nat (length bufs) < 2 ^ 63 -> pool_inv bufs p ->
  exists r, NoAllocBufferStore_waitForBuf (p_store p) = Done r.
Proof. destruct p as [s h sl wk]. intros Hl Hi. destruct (take_turn_spec bufs Hl s h sl wk Hi) as (r & s' & E & _). by exists (r, s'). Qed.

(** C28: the buffer store loses and doubles no buffer, and does not let threads sleep in vain.
    From its initialisation with distinct buffers on, in every interleaving of threads that
    take buffers, wait for them and give back what they have: the buffers that are
    available and those that threads have are the buffers of the store, each once; nothing
    is stored outside of the array and no call faults; and when a thread sleeps, then for
    each available buffer another one has been woken up and is about to take it, so that
    as soon as no such thread is left, sleeping means that there is no buffer. *)
Theorem buffer_store_safe (n size array : Z) (vmalloc : nat -> Z) (p : Pool) :
  0 <= n < 2 ^ 63 -> array <> 0 ->
  let bufs := allocated_bufs n vmalloc in
  Forall (fun b => b <> 0) bufs -> NoDup bufs ->
  let '(ok, _, s) := NoAllocBufferStore_init n size array vmalloc in
  ok = true /\
  (rtc pstep (mkPool s [] 0 0) p ->
   NoDup (available (p_store p) ++ p_held p) /\ available (p_store p) ++ p_held p ≡ₚ bufs /\
   (p_sleepers p <> 0%nat -> numAvailable (p_store p) <= Z.of_nat (p_woken p)) /\
   (exists r, NoAllocBufferStore_instantBuf (p_store p) = Done r) /\
   (exists r, NoAllocBufferStore_waitForBuf (p_store p) = Done r) /\
   (forall b, b ∈ p_held p -> exists s', NoAllocBufferStore_addBuf (p_store p) b = Done s')).
Proof.
  intros Hrange Ha bufs Hb Hn. assert (Hl : Z.of_nat (length bufs) < 2 ^ 63).
  { unfold bufs, allocated_bufs. rewrite length_fmap, length_seq. lia. }
  destruct (init_inv n size array vmalloc Hrange Ha Hb) as (blocks & s & -> & Hi). split; [done|].
  intros Hr. assert (Hp : pool_inv bufs p).
  { remember (mkPool s [] 0 0) as p0 eqn:E0. clear E0. induction Hr as [|p1 p2 p3 H12 H23 IH]; [done|].
    apply IH. by eapply pstep_inv. }
  pose proof Hp as (Hal & Hav & Hperm & Hw). split_and!; [by rewrite Hperm|done|done|by apply (wait_not_fault bufs)..|].
  intros b Hin. unfold NoAllocBufferStore_addBuf.
  assert (Hlen : (length (available (p_store p)) + length (p_held p))%nat = length bufs) by (by rewrite <- length_app, Hperm).
  assert (Hb0 : b <> 0) by (rewrite Forall_forall in Hb; apply Hb; rewrite <- Hperm; set_solver).
  destruct (Z.eqb_spec b 0); [done|]. destruct (Z.ltb_spec (numAvailable (p_store p)) (Z.of_nat (length (bufArray (p_store p))))); [by eexists|].
  exfalso. unfold available in Hlen. rewrite length_take in Hlen.
  destruct (p_held p); [by apply not_elem_of_nil in Hin|]. cbn [length] in Hlen. lia.
Qed.

Lemma buffer_store_safe_witness :
  exists p, p_held p = [200] /\ p_sleepers p = 0%nat /\ available (p_store p) ++ p_held p ≡ₚ [100; 200].
Proof.
  pose (vmalloc := fun i => nth i [100; 200] 0).
  pose (s0 := snd (NoAllocBufferStore_init 2 4096 50 vmalloc)).
  pose (s1 := mkStore [100; 200] 2 4096 1). exists (mkPool s1 [200] 0 0). split; [done|]. split; [done|].
  destruct (buffer_store_safe 2 4096 50 vmalloc (mkPool s1 [200] 0 0)) as [_ H];
    [lia|done|repeat constructor; by vm_compute|by apply (bool_decide_unpack _); vm_compute|].
  apply H. eapply rtc_l; [|apply rtc_refl]. by apply (P_wait s0 s1 (Some 200)).
Defined.

(** An allocation that fails leaks the array.  When a buffer cannot be allocated, the
    buffers that could are freed, but not the array of their addresses; the caller frees
    the store itself, so nobody can free the array later. *)
Theorem failed_init_leaks_array (n size array : Z) (vmalloc : nat -> Z) :
  array <> 0 -> 0 ∈ allocated_bufs n vmalloc ->
  let '(ok, allocated, _) := NoAllocBufferStore_init n size array vmalloc in ok = false /\ allocated = [array].
Proof.
  intros Ha H0. unfold NoAllocBufferStore_init, __NoAllocBufferStore_initBuffers. cbn [numBufs numAvailable].
  fold (allocated_bufs n vmalloc).
  assert (Hn : n <> 0) by (intros ->; by apply not_elem_of_nil in H0).
  assert (E0 : ((if n =? 0 then 0 else array) =? 0) = false) by (destruct (Z.eqb_spec n 0); [done|]; by destruct (Z.eqb_spec array 0)).
  rewrite E0. cbn [andb].
  assert (H : forall bufs, 0 ∈ bufs -> forall taken k, fst (fst (init_loop bufs taken k)) = false).
  { clear. induction bufs as [|b l IH]; [by intros ?%not_elem_of_nil|]. intros H0 taken k. cbn [init_loop].
    destruct (Z.eqb_spec b 0) as [->|Hb]; [done|]. apply elem_of_cons in H0 as [E|H0]; [by rewrite E in Hb|by apply IH]. }
  specialize (H _ H0 [] 0). destruct (init_loop _ [] 0) as [[ok taken] k]. cbn [fst] in H. subst ok.
  split; [done|]. by destruct (Z.eqb_spec n 0).
Qed.

Lemma failed_init_leaks_array_witness :
  fst (NoAllocBufferStore_init 2 4096 50 (fun i => nth i [100; 0] 0)) = (false, [50]).
Proof.
  pose proof (failed_init_leaks_array 2 4096 50 (fun i => nth i [100; 0] 0) ltac:(done) ltac:(by apply (bool_decide_unpack _); vm_compute)) as H.
  destruct (NoAllocBufferStore_init 2 4096 50 _) as [[ok alloc] s]. destruct H as [-> ->]. done.
Defined.
