(* ===== verification/InodeRefStore.v ===== *)
(** * The inodes that have a cache buffer, and the thread that writes these buffers out

    [toolkit/InodeRefStore.h/.c]: the inodes that have a buffer, with one reference each.
    [components/Flusher.c]: takes one after the other, flushes its buffer, and drops the
    reference or puts the inode back.  A call of the store holds its mutex; what other
    threads do between the calls of the flusher is part of the calls of [FlushEnv]. *)

From stdpp Require Import functions sorting.
From S2P Require Import Prelude StateMonad Serialization StorageErrors RBTree PointerTree.

Section RefStore.
Context `{!KernelRBTree (Z * unit) fst} {X : Type}.

(** The tree of the store, the reference counters of all inodes ([i_count] of the kernel's
    [struct inode]), and the rest of the world.  [NULL] is 0. *)
Record RefState := mkRef { r_tree : RBTree (V := unit); r_refs : Z -> Z; r_other : X }.

Definition set_tree (t : RBTree) : ST RefState unit := st_mod (fun s => mkRef t (r_refs s) (r_other s)).
Definition set_refs (inode n : Z) : ST RefState unit :=
  st_mod (fun s => mkRef (r_tree s) (<[inode := n]> (r_refs s)) (r_other s)).

(** The kernel's [ihold] and [iput]; without a reference the inode may be gone. *)
Definition ihold (inode : Z) : ST RefState unit :=
  s ← st_get; if 0 <? r_refs s inode then set_refs inode (r_refs s inode + 1) else st_lift Fault.
Definition iput (inode : Z) : ST RefState unit :=
  s ← st_get; if 0 <? r_refs s inode then set_refs inode (r_refs s inode - 1) else st_lift Fault.

Definition insert (inode : Z) : ST RefState bool :=
  s ← st_get;
  let r := PointerRBTree_insert __InodeRefStore_keyComparator (r_tree s) inode tt in
  _ ← set_tree (snd r); mret (fst r).
Definition erase (inode : Z) : ST RefState bool :=
  s ← st_get;
  let r := PointerRBTree_erase __InodeRefStore_keyComparator (r_tree s) inode in
  _ ← set_tree (snd r); mret (fst r).
Definition find (inode : Z) : ST RefState (RBTreeIter (V := unit)) :=
  s ← st_get; mret (PointerRBTree_find __InodeRefStore_keyComparator (r_tree s) inode).
Definition next (iter : RBTreeIter (V := unit)) : ST RefState (RBTreeIter (V := unit)) :=
  s ← st_get; st_lift (PointerRBTreeIter_next (r_tree s) iter).

(** ** The store *)

Definition InodeRefStore_addAndReferenceInode (inode : Z) : ST RefState unit :=
  inserted ← insert inode; if inserted : bool then ihold inode else mret tt.

Definition InodeRefStore_addOrPutInode (inode : Z) : ST RefState unit :=
  inserted ← insert inode; if inserted : bool then mret tt else iput inode.

(** Takes the element of the iterator out of the tree. *)
Definition remove_at (iter : RBTreeIter (V := unit)) : ST RefState Z :=
  match iter with
  | None => mret 0
  | Some e => _ ← erase (fst e); mret (fst e)
  end.

Definition InodeRefStore_getAndRemoveFirstInode : ST RefState Z :=
  s ← st_get; remove_at (PointerRBTree_begin (r_tree s)).

Definition InodeRefStore_getAndRemoveNextInode (oldInode : Z) : ST RefState Z :=
  iter ← find oldInode;
  match iter with
  | Some _ =>
      iter ← next iter;
      remove_at iter
  | None =>
      _ ← insert oldInode;
      iter ← find oldInode;
      iter ← next iter;
      nextInode ← remove_at iter;
      _ ← erase oldInode;
      mret nextInode
  end.

Definition InodeRefStore_removeAndReleaseInode (inode : Z) : ST RefState bool :=
  eraseRes ← erase inode;
  _ ← (if eraseRes : bool then iput inode else mret tt);
  mret eraseRes.

Definition InodeRefStore_getSize : ST RefState Z := s ← st_get; mret (PointerRBTree_length (r_tree s)).

Fixpoint uninit_loop (fuel : nat) (iter : RBTreeIter (V := unit)) : ST RefState unit :=
  match iter, fuel with
  | None, _ => mret tt
  | Some e, S fuel =>
      _ ← iput (fst e);
      iter ← next iter;
      uninit_loop fuel iter
  | Some _, O => st_lift Fault
  end.
Definition InodeRefStore_uninit (fuel : nat) : ST RefState unit :=
  s ← st_get;
  _ ← uninit_loop fuel (PointerRBTree_begin (r_tree s));
  s ← st_get;
  t ← st_lift (PointerRBTree_clear __InodeRefStore_keyComparator fuel (r_tree s));
  set_tree t.

(** ** The flusher *)

(** Flushing the buffer of an inode, with and without waiting for its lock, whether its
    file is open, and whether the thread is to end.  While such a call runs other threads
    do, too: [users] are the references that they hold. *)
Class FlushEnv := {
  flushCacheNoWait : Z -> bool -> ST RefState Z;
  flushCache : Z -> bool -> ST RefState Z;
  getIsFileOpen : Z -> ST RefState bool;
  getSelfTerminate : ST RefState bool;
  users : X -> Z -> Z }.
Context `{Env : !FlushEnv}.

Definition flush_inode (inode : Z) : ST RefState unit :=
  flushRes ← flushCacheNoWait inode false;
  if flushRes =? FhgfsOpsErr_SUCCESS then iput inode
  else if flushRes =? FhgfsOpsErr_INUSE then InodeRefStore_addOrPutInode inode
  else
    discard ← (if negb (flushRes =? FhgfsOpsErr_COMMUNICATION) then mret true
               else isOpen ← getIsFileOpen inode; mret (negb isOpen));
    if discard : bool then
      finalFlushRes ← flushCache inode true;
      iput inode
    else InodeRefStore_addOrPutInode inode.

(** The result: the inodes in the order in which they were flushed. *)
Fixpoint flush_loop (fuel : nat) (inode : Z) : ST RefState (list Z) :=
  if inode =? 0 then mret []
  else match fuel with
  | O => st_lift Fault
  | S fuel =>
      _ ← flush_inode inode;
      stop ← getSelfTerminate;
      if stop : bool then mret [inode]
      else
        inode' ← InodeRefStore_getAndRemoveNextInode inode;
        rest ← flush_loop fuel inode';
        mret (inode :: rest)
  end.
Definition __Flusher_flushBuffers (fuel : nat) : ST RefState (list Z) :=
  inode ← InodeRefStore_getAndRemoveFirstInode;
  flush_loop fuel inode.
End RefStore.
Arguments RefState X : clear implicits.
Arguments FlushEnv X : clear implicits.

(** ** What the calls do to the map of the tree and to the counters *)

Section Specs.
Context `{!KernelRBTree (Z * unit) fst} {X : Type}.
Notation State := (RefState X).
Implicit Types s : State.

Definition in_store s : gmap Z (Z * unit) := map_of (r_tree s).
Definition stored s (i : Z) : Z := if decide (is_Some (in_store s !! i)) then 1 else 0.

(** [s'] is [s] with the map [m] and the counters [refs]. *)
Definition becomes s (m : gmap Z (Z * unit)) (refs : Z -> Z) (s' : State) : Prop :=
  tree_wf (r_tree s') /\ in_store s' = m /\ r_refs s' = refs /\ r_other s' = r_other s.

(** [i] is the least inode of [s] with [P], or 0 when there is none, and [s'] is [s] without it. *)
Definition took (P : Z -> Prop) s (i : Z) (s' : State) : Prop :=
  becomes s (if decide (i = 0) then in_store s else delete i (in_store s)) (r_refs s) s' /\
  (if decide (i = 0) then forall k, is_Some (in_store s !! k) -> ~ P k
   else is_Some (in_store s !! i) /\ P i /\ forall k, is_Some (in_store s !! k) -> P k -> i <= k).

Definition fits s : Prop := tree_wf (r_tree s) /\ Z.of_nat (size (in_store s)) + 1 < 2 ^ 64.

Lemma iput_spec i s : 0 < r_refs s i ->
  swp (iput i) (fun _ s' => s' = mkRef (r_tree s) (<[i := r_refs s i - 1]> (r_refs s)) (r_other s)) s.
Proof. intros H. unfold iput. sstep. destruct (Z.ltb_spec 0 (r_refs s i)); [by unfold set_refs; sstep|lia]. Qed.
Lemma ihold_spec i s : 0 < r_refs s i ->
  swp (ihold i) (fun _ s' => s' = mkRef (r_tree s) (<[i := r_refs s i + 1]> (r_refs s)) (r_other s)) s.
Proof. intros H. unfold ihold. sstep. destruct (Z.ltb_spec 0 (r_refs s i)); [by unfold set_refs; sstep|lia]. Qed.

Lemma insert_spec i s : fits s ->
  swp (insert i) (fun ok s' => ok = bool_decide (in_store s !! i = None) /\
    becomes s (<[i := (i, tt)]> (in_store s)) (r_refs s) s') s.
Proof.
  intros (Hw & Hz). unfold insert. sstep. unfold set_tree. sstep. apply swp_ret.
  pose proof (insert_wf __InodeRefStore_keyComparator (r_tree s) i tt Hw Hz) as H.
  destruct (PointerRBTree_insert _ _ _ _) as [ok t]. destruct H as [Hw' H]. cbn [fst snd].
  unfold becomes, in_store. cbn [r_tree r_refs r_other].
  destruct (map_of (r_tree s) !! i) as [[k []]|] eqn:E; destruct H as [-> H].
  - subst t. rewrite bool_decide_false by done. split_and!; [done|done| |done|done].
    assert (k = i) as -> by (by apply (rb_map_lookup fst) in E as [_ ?]; [|apply Hw]). by rewrite insert_id.
  - by rewrite bool_decide_true.
Qed.
Lemma erase_spec i s : tree_wf (r_tree s) ->
  swp (erase i) (fun ok s' => ok = bool_decide (is_Some (in_store s !! i)) /\
    becomes s (delete i (in_store s)) (r_refs s) s') s.
Proof.
  intros Hw. unfold erase. sstep. unfold set_tree. sstep. apply swp_ret.
  pose proof (erase_wf __InodeRefStore_keyComparator (r_tree s) i Hw) as H.
  destruct (PointerRBTree_erase _ _ _) as [ok t]. destruct H as (Hw' & -> & Em). by cbn [fst snd].
Qed.

Lemma remove_at_spec P o s : tree_wf (r_tree s) -> in_store s !! 0 = None -> least (in_store s) P o ->
  swp (remove_at o) (fun i s' => took P s i s') s.
Proof.
  intros Hw H0 Hl. unfold remove_at, took. destruct o as [[i []]|]; cbn [least fst] in *.
  - destruct Hl as (Hi & Hp & Hmin). apply swp_bind. eapply swp_mono; [by apply erase_spec|].
    intros ok s' (_ & Hb). apply swp_ret. rewrite decide_False by (intros ->; congruence).
    rewrite decide_False by (intros ->; congruence). split_and!; [done|by eexists|done|done].
  - apply swp_ret. by split_and!.
Qed.

Lemma first_spec s : tree_wf (r_tree s) -> in_store s !! 0 = None ->
  swp InodeRefStore_getAndRemoveFirstInode (fun i s' => took (fun _ => True) s i s') s.
Proof. intros Hw H0. unfold InodeRefStore_getAndRemoveFirstInode. sstep. apply remove_at_spec; [done..|by apply begin_least]. Qed.

(** Whether the old inode is in the store or not, it is afterwards what it was. *)
Lemma next_spec old s : fits s -> in_store s !! 0 = None -> old <> 0 ->
  swp (InodeRefStore_getAndRemoveNextInode old) (fun i s' => took (fun k => old < k) s i s') s.
Proof.
  intros Hf H0 Ho. pose proof Hf as [Hw Hz]. unfold InodeRefStore_getAndRemoveNextInode, find, next. sstep. apply swp_ret.
  unfold PointerRBTree_find. rewrite (find_map __InodeRefStore_keyComparator) by done. change (map_of (r_tree s)) with (in_store s).
  destruct (in_store s !! old) as [e|] eqn:Eo.
  - sstep. destruct (next_least (r_tree s) old e Hw Eo) as (o & E & Hl). eapply swp_lift; [exact E|]. by apply remove_at_spec.
  - apply swp_bind. eapply swp_mono; [by apply insert_spec|]. intros ok s1 (_ & Hw1 & Em1 & Er1 & Eo1).
    sstep. apply swp_ret. unfold PointerRBTree_find. rewrite (find_map __InodeRefStore_keyComparator) by done. change (map_of (r_tree s1)) with (in_store s1).
    assert (E1 : in_store s1 !! old = Some (old, tt)) by (by rewrite Em1, lookup_insert_eq). rewrite E1. sstep.
    destruct (next_least (r_tree s1) old (old, tt) Hw1 E1) as (o & E & Hl). eapply swp_lift; [exact E|]. sstep.
    eapply swp_mono; [apply (remove_at_spec (fun k => old < k)); [done|by rewrite Em1, lookup_insert_ne|exact Hl]|].
    intros i s2 ((Hw2 & Em2 & Er2 & Eo2) & Hi). sstep. eapply swp_mono; [by apply erase_spec|].
    intros ok2 s3 (_ & Hw3 & Em3 & Er3 & Eo3). apply swp_ret. unfold took, becomes.
    rewrite Em3, Em2, Er3, Er2, Er1, Eo3, Eo2, Eo1. rewrite Em1 in Hi |- *. destruct (decide (i = 0)) as [->|Hn].
    + rewrite delete_insert_id by done. split; [done|]. intros k Hk Hlt.
      apply (Hi k); [by rewrite lookup_insert_ne by lia|done].
    + destruct Hi as (Hi & Hlt & Hmin). rewrite lookup_insert_ne in Hi by lia.
      rewrite delete_delete, delete_insert_id by done. split_and!; [done..|].
      intros k Hk Hlt'. apply Hmin; [by rewrite lookup_insert_ne by lia|done].
Qed.
End Specs.

(** ** Who holds the references

    [inodes]: the addresses of the inodes of the file system.  [mine]: the references that
    the running thread holds.  Every inode has one reference of the store when it is in it,
    those of its users, and those of the running thread. *)

Section References.
Context `{!KernelRBTree (Z * unit) fst} {X : Type} `{Env : !FlushEnv X}.
Context (inodes : gset Z).
Notation State := (RefState X).
Implicit Types s : State.

Definition addresses : Prop := (forall i, i ∈ inodes -> 0 < i < 2 ^ 64) /\ Z.of_nat (size inodes) + 1 < 2 ^ 64.

Definition balanced (mine : Z -> Z) s : Prop :=
  tree_wf (r_tree s) /\ (forall i, is_Some (in_store s !! i) -> i ∈ inodes) /\
  forall i, 0 <= users (r_other s) i /\ 0 <= mine i /\ r_refs s i = users (r_other s) i + stored s i + mine i.

Definition none : Z -> Z := fun _ => 0.
Definition one (i : Z) : Z -> Z := <[i := 1]> none.

(** What the flusher relies on: the calls, and other threads while they run, keep every
    reference accounted for, and those of the flusher are its own. *)
Class FlushLaws : Prop := {
  fl_noWait mine i b s : 0 < mine i -> balanced mine s -> swp (flushCacheNoWait i b) (fun _ => balanced mine) s;
  fl_flush mine i b s : 0 < mine i -> balanced mine s -> swp (flushCache i b) (fun _ => balanced mine) s;
  fl_open mine i s : 0 < mine i -> balanced mine s -> swp (getIsFileOpen i) (fun _ => balanced mine) s;
  fl_stop mine s : balanced mine s -> swp getSelfTerminate (fun _ => balanced mine) s }.

Context (Hin : addresses).

Lemma balanced_fits mine s : balanced mine s -> fits s.
Proof.
  intros (Hw & Hd & _). split; [done|]. destruct Hin as [_ Hz].
  assert (H : (size (in_store s) <= size inodes)%nat); [|lia].
  rewrite <- size_dom. apply subseteq_size. intros i Hi%elem_of_dom. by apply Hd.
Qed.
Lemma balanced_null mine s : balanced mine s -> in_store s !! 0 = None.
Proof.
  intros (_ & Hd & _). destruct (in_store s !! 0) as [e|] eqn:E; [|done]. destruct Hin as [Hr _].
  specialize (Hr 0 (Hd 0 ltac:(by eexists))). lia.
Qed.

Lemma stored_insert s s' i e : in_store s' = <[i := e]> (in_store s) -> forall k, stored s' k = if decide (k = i) then 1 else stored s k.
Proof.
  intros E k. unfold stored. rewrite E. destruct (decide (k = i)) as [->|Hk].
  - rewrite lookup_insert_eq, decide_True; [done|by eexists].
  - by rewrite lookup_insert_ne.
Qed.
Lemma stored_delete s s' i : in_store s' = delete i (in_store s) -> forall k, stored s' k = if decide (k = i) then 0 else stored s k.
Proof.
  intros E k. unfold stored. rewrite E. destruct (decide (k = i)) as [->|Hk].
  - rewrite lookup_delete_eq, decide_False; [done|by intros [? ?]].
  - by rewrite lookup_delete_ne.
Qed.

(** Giving one's reference to the store, or taking that of the store. *)
Lemma addOrPut_balanced mine i s : i ∈ inodes -> 0 < mine i -> balanced mine s ->
  swp (InodeRefStore_addOrPutInode i) (fun _ => balanced (<[i := mine i - 1]> mine)) s.
Proof.
  intros Hi Hm Hb. pose proof (balanced_fits _ _ Hb) as Hf. destruct Hb as (Hw & Hd & Hr).
  unfold InodeRefStore_addOrPutInode. apply swp_bind. eapply swp_mono; [by apply insert_spec|].
  intros ok s1 (-> & Hw1 & Em & Er & Eo).
  assert (Hd1 : forall k, is_Some (in_store s1 !! k) -> k ∈ inodes).
  { intros k. rewrite Em, lookup_insert_is_Some'. intros [<-|Hk]; [done|by apply Hd]. }
  pose proof (stored_insert _ _ _ _ Em) as Hs.
  destruct (bool_decide_reflect (in_store s !! i = None)) as [En|En].
  - apply swp_ret. split_and!; [done..|]. intros k. specialize (Hr k). specialize (Hs k). rewrite Er, Eo.
    assert (Hs0 : stored s i = 0) by (unfold stored; rewrite En, decide_False; [done|by intros [? ?]]).
    unfold base.insert, fn_insert. destruct (decide (i = k)) as [<-|]; [rewrite decide_True in Hs by done; lia|].
    rewrite decide_False in Hs by done. lia.
  - assert (Hpos : 0 < r_refs s1 i) by (rewrite Er; specialize (Hr i); unfold stored in Hr; destruct (decide _); lia).
    eapply swp_mono; [by apply iput_spec|]. intros _ s2 ->. split_and!; [done..|]. intros k. cbn [r_refs r_other].
    specialize (Hr k). specialize (Hs k). rewrite Er, Eo. change (stored (mkRef _ _ _) k) with (stored s1 k).
    assert (Hs1 : stored s i = 1) by (unfold stored; rewrite decide_True; [done|by apply not_eq_None_Some]).
    unfold base.insert, fn_insert. destruct (decide (i = k)) as [<-|]; [rewrite decide_True in Hs by done; lia|].
    rewrite decide_False in Hs by done. lia.
Qed.

Lemma iput_balanced mine i s : 0 < mine i -> balanced mine s ->
  swp (iput i) (fun _ => balanced (<[i := mine i - 1]> mine)) s.
Proof.
  intros Hm (Hw & Hd & Hr).
  assert (Hs0 : 0 <= stored s i) by (unfold stored; destruct (decide _); lia).
  eapply swp_mono; [apply iput_spec; specialize (Hr i); lia|]. intros _ s2 ->. split_and!; [done..|]. intros k. cbn [r_refs r_other].
  specialize (Hr k). change (stored (mkRef _ _ _) k) with (stored s k).
  unfold base.insert, fn_insert. destruct (decide (i = k)) as [<-|]; lia.
Qed.

Lemma took_balanced P mine s i s' : balanced mine s -> took P s i s' ->
  if decide (i = 0) then balanced mine s' else i ∈ inodes /\ P i /\ balanced (<[i := mine i + 1]> mine) s'.
Proof.
  intros (Hw & Hd & Hr) ((Hw' & Em & Er & Eo) & Hi). destruct (decide (i = 0)) as [->|Hn].
  - split_and!; [done|by rewrite Em|]. intros k. specialize (Hr k). unfold stored in *. by rewrite Em, Er, Eo.
  - destruct Hi as (Hi & Hp & _). split_and!; [by apply Hd|done|]. pose proof (stored_delete _ _ _ Em) as Hs.
    split_and!; [done|intros k; rewrite Em, lookup_delete_is_Some; intros [_ Hk]; by apply Hd|].
    intros k. specialize (Hr k). specialize (Hs k). rewrite Er, Eo.
    assert (Hs1 : stored s i = 1) by (unfold stored; by rewrite decide_True).
    unfold base.insert, fn_insert. destruct (decide (i = k)) as [<-|]; [rewrite decide_True in Hs by done; lia|].
    rewrite decide_False in Hs by done. lia.
Qed.

Lemma one_none i : <[i := none i + 1]> none = one i.
Proof. done. Qed.
Lemma balanced_done i s : balanced (<[i := one i i - 1]> (one i)) s -> balanced none s.
Proof.
  intros (Hw & Hd & Hr). split_and!; [done..|]. intros k. specialize (Hr k). revert Hr. unfold one, base.insert, fn_insert, none.
  destruct (decide (i = k)); [rewrite decide_True by done|]; lia.
Qed.

Context `{!FlushLaws}.

Lemma flush_inode_balanced i s : i ∈ inodes -> balanced (one i) s -> swp (flush_inode i) (fun _ => balanced none) s.
Proof.
  intros Hi Hb. assert (H1 : 0 < one i i) by (unfold one; rewrite fn_lookup_insert; lia).
  assert (Hadd : forall s, balanced (one i) s -> swp (InodeRefStore_addOrPutInode i) (fun _ => balanced none) s).
  { intros s0 H0. eapply swp_mono; [by apply addOrPut_balanced|]. intros ? s'. apply balanced_done. }
  assert (Hput : forall s, balanced (one i) s -> swp (iput i) (fun _ => balanced none) s).
  { intros s0 H0. eapply swp_mono; [by apply iput_balanced|]. intros ? s'. apply balanced_done. }
  unfold flush_inode. apply swp_bind. eapply swp_mono; [by apply fl_noWait|]. intros r s1 Hb1.
  destruct (r =? FhgfsOpsErr_SUCCESS); [by apply Hput|]. destruct (r =? FhgfsOpsErr_INUSE); [by apply Hadd|].
  apply swp_bind. eapply (swp_mono _ (fun _ => balanced (one i))).
  { destruct (negb _); [by apply swp_ret|]. apply swp_bind. eapply swp_mono; [by apply fl_open|]. intros b s2 H2. by apply swp_ret. }
  intros [|] s2 Hb2; [|by apply Hadd]. apply swp_bind. eapply swp_mono; [by apply fl_flush|]. intros ? s3 Hb3. by apply Hput.
Qed.

Lemma flush_loop_balanced fuel i s :
  (if decide (i = 0) then balanced none s else i ∈ inodes /\ balanced (one i) s) -> (Z.to_nat (2 ^ 64 - i) <= fuel)%nat ->
  swp (flush_loop fuel i) (fun l s' => balanced none s' /\ StronglySorted Z.lt l /\ Forall (fun k => i <= k) l) s.
Proof.
  revert i s. induction fuel as [|fuel IH]; intros i s Hs Hf; cbn [flush_loop];
    destruct (Z.eqb_spec i 0) as [->|Hn].
  1, 3: apply swp_ret; split_and!; [done|constructor|constructor].
  - rewrite decide_False in Hs by done. destruct Hs as [Hi _]. destruct Hin as [Hr _]. specialize (Hr i Hi). lia.
  - rewrite decide_False in Hs by done. destruct Hs as [Hi Hb]. pose proof (proj1 Hin i Hi) as Hir.
    apply swp_bind. eapply swp_mono; [by apply flush_inode_balanced|]. intros ? s1 Hb1.
    apply swp_bind. eapply swp_mono; [by apply (fl_stop none)|]. intros stop s2 Hb2. destruct stop.
    { apply swp_ret. split_and!; [done|by repeat constructor|by repeat constructor; lia]. }
    apply swp_bind. eapply swp_mono; [apply next_spec; [by eapply balanced_fits|by eapply balanced_null|done]|].
    intros i' s3 Ht. apply (took_balanced _ none) in Ht; [|done]. apply swp_bind.
    destruct (decide (i' = 0)) as [->|Hn'].
    + destruct fuel; cbn [flush_loop Z.eqb]; apply swp_ret; apply swp_ret;
        (split_and!; [done|by repeat constructor|by repeat constructor; lia]).
    + destruct Ht as (Hi' & Hlt & Hb3). eapply swp_mono; [apply IH; [by rewrite decide_False|lia]|].
      intros l s4 (Hb4 & Hsl & Hl). apply swp_ret. split_and!; [done| |].
      * constructor; [done|]. eapply Forall_impl; [exact Hl|]. cbn. lia.
      * constructor; [lia|]. eapply Forall_impl; [exact Hl|]. cbn. lia.
Qed.
End References.

(** ** The flusher *)

(** C26: the flusher keeps the references of inodes in balance, and ends, whatever
    other threads do meanwhile.  When every inode has one reference of the store if it is in
    it and those of its users, and other threads keep it that way: a pass ends without a
    fault (in particular no inode is touched without a reference to it), it flushes inodes
    in the order of their addresses, none twice, and afterwards the flusher has no
    reference left, nor lost one. *)
Theorem flusher_references `{!KernelRBTree (Z * unit) fst} {X} `{Env : !FlushEnv X} (inodes : gset Z)
    `{!FlushLaws inodes} (s : RefState X) :
  addresses inodes -> balanced inodes none s ->
  exists fuel flushed s', __Flusher_flushBuffers fuel s = Done (flushed, s') /\
    StronglySorted Z.lt flushed /\ balanced inodes none s'.
Proof.
  intros Hin Hb. exists (Z.to_nat (2 ^ 64)).
  enough (swp (__Flusher_flushBuffers (Z.to_nat (2 ^ 64))) (fun l s' => StronglySorted Z.lt l /\ balanced inodes none s') s)
    as (l & s' & E & H)%swp_run by (by exists l, s').
  unfold __Flusher_flushBuffers. apply swp_bind. pose proof Hb as (Hw & _).
  eapply swp_mono; [apply first_spec; [done|by eapply balanced_null]|]. intros i s1 Ht.
  apply (took_balanced inodes _ none) in Ht; [|done].
  eapply swp_mono; [apply (flush_loop_balanced inodes Hin)|by intros l s2 (H2 & Hs & _)].
  - destruct (decide (i = 0)) as [->|Hn]; [done|]. by destruct Ht as (Hi & _ & Hb1).
  - destruct (decide (i = 0)) as [->|Hn]; [lia|]. destruct Ht as (Hi & _). destruct Hin as [Hr _]. specialize (Hr i Hi). lia.
Qed.

Section Quiet.
Context `{!KernelRBTree (Z * unit) fst} {X : Type} `{Env : !FlushEnv X} (code : Z -> Z) (isOpen : Z -> bool).
Notation State := (RefState X).
Implicit Types s : State.

Definition same_refs s s' : Prop := r_tree s' = r_tree s /\ r_refs s' = r_refs s.

(** No other thread touches the store or a reference during the pass, the thread is not
    asked to end, and flushing ends with [code]. *)
Definition quiet : Prop :=
  (forall i b s, swp (flushCacheNoWait i b) (fun r s' => r = code i /\ same_refs s s') s) /\
  (forall i b s, swp (flushCache i b) (fun _ s' => same_refs s s') s) /\
  (forall i s, swp (getIsFileOpen i) (fun b s' => b = isOpen i /\ same_refs s s') s) /\
  (forall s, swp getSelfTerminate (fun b s' => b = false /\ same_refs s s') s).

(** Whether the inode is put back. *)
Definition again (i : Z) : bool :=
  (code i =? FhgfsOpsErr_INUSE) || ((code i =? FhgfsOpsErr_COMMUNICATION) && isOpen i).

(** [s] is [s0] after all inodes below [b] were flushed. *)
Definition flushed_below s0 (b : Z) s : Prop :=
  tree_wf (r_tree s) /\
  (forall k, is_Some (in_store s !! k) <-> is_Some (in_store s0 !! k) /\ (k < b -> again k)) /\
  (forall k, r_refs s k = if decide (is_Some (in_store s0 !! k) /\ k < b /\ ~ again k) then r_refs s0 k - 1 else r_refs s0 k).

(** The same, with the inode [b] taken out. *)
Definition flushing s0 (b : Z) s : Prop :=
  tree_wf (r_tree s) /\ is_Some (in_store s0 !! b) /\
  (forall k, is_Some (in_store s !! k) <-> is_Some (in_store s0 !! k) /\ k <> b /\ (k < b -> again k)) /\
  (forall k, r_refs s k = if decide (is_Some (in_store s0 !! k) /\ k < b /\ ~ again k) then r_refs s0 k - 1 else r_refs s0 k).

Context (Hq : quiet) (s0 : State).
Context (Hf0 : fits s0) (Hpos : forall k, is_Some (in_store s0 !! k) -> 0 < k < 2 ^ 64 /\ 0 < r_refs s0 k).

Lemma flushing_same b s s' : same_refs s s' -> flushing s0 b s -> flushing s0 b s'.
Proof. intros (Et & Er). unfold flushing, in_store. by rewrite Et, Er. Qed.
Lemma flushed_same b s s' : same_refs s s' -> flushed_below s0 b s -> flushed_below s0 b s'.
Proof. intros (Et & Er). unfold flushed_below, in_store. by rewrite Et, Er. Qed.

Lemma subset_fits s : tree_wf (r_tree s) -> (forall k, is_Some (in_store s !! k) -> is_Some (in_store s0 !! k)) ->
  fits s /\ in_store s !! 0 = None.
Proof.
  intros Hw Hsub. split.
  - split; [done|]. destruct Hf0 as [_ Hz]. assert (H : (size (in_store s) <= size (in_store s0))%nat); [|lia].
    rewrite <- !size_dom. apply subseteq_size. intros i Hi%elem_of_dom. apply elem_of_dom. auto.
  - apply eq_None_not_Some. intros H. specialize (Hpos 0 (Hsub 0 H)). lia.
Qed.

Lemma refs_next b k : is_Some (in_store s0 !! b) -> k <> b ->
  (is_Some (in_store s0 !! k) /\ k < b /\ ~ again k) <-> (is_Some (in_store s0 !! k) /\ k < b + 1 /\ ~ again k).
Proof. intros Hb Hk. assert (k < b <-> k < b + 1) by lia. tauto. Qed.

Lemma put_back b s : again b -> flushing s0 b s ->
  swp (InodeRefStore_addOrPutInode b) (fun _ => flushed_below s0 (b + 1)) s.
Proof.
  intros Ha (Hw & Hb & Hs & Hr). unfold InodeRefStore_addOrPutInode. apply swp_bind.
  eapply swp_mono; [apply insert_spec, subset_fits; [done|intros k Hk; by apply Hs]|]. intros ok s1 (-> & Hw1 & Em & Er & Eo).
  assert (En : in_store s !! b = None) by (apply eq_None_not_Some; intros H%Hs; tauto).
  rewrite bool_decide_true by done. apply swp_ret. split_and!; [done| |].
  - intros k. rewrite Em, lookup_insert_is_Some, Hs. destruct (decide (b = k)) as [<-|Hk].
    + split; [intros _; by split|by left].
    + assert (k < b <-> k < b + 1) by lia. split; [intros [?|[_ (? & _ & ?)]]; [done|]; split; [done|tauto]|].
      intros (? & ?). right. split_and!; [done|done|done|tauto].
  - intros k. rewrite Er, Hr. apply decide_ext. destruct (decide (k = b)) as [->|Hk]; [tauto|by apply refs_next].
Qed.

Lemma drop b s : ~ again b -> flushing s0 b s -> swp (iput b) (fun _ => flushed_below s0 (b + 1)) s.
Proof.
  intros Ha (Hw & Hb & Hs & Hr). pose proof (Hr b) as Hrb. rewrite decide_False in Hrb by lia.
  pose proof (Hpos b Hb) as [_ Hp]. eapply swp_mono; [apply iput_spec; by rewrite Hrb|]. intros ? s1 ->.
  split_and!; [done| |].
  - intros k. change (in_store (mkRef _ _ _)) with (in_store s). rewrite Hs. destruct (decide (k = b)) as [->|Hk].
    + split; [tauto|]. intros [_ H]. destruct Ha. apply H. lia.
    + assert (k < b <-> k < b + 1) by lia. tauto.
  - intros k. cbn [r_refs]. unfold base.insert, fn_insert. destruct (decide (b = k)) as [<-|Hk].
    + rewrite Hrb, decide_True; [done|]. split_and!; [done|lia|done].
    + rewrite Hr. by apply decide_ext, refs_next.
Qed.

Lemma flush_inode_quiet b s : flushing s0 b s -> swp (flush_inode b) (fun _ => flushed_below s0 (b + 1)) s.
Proof.
  destruct Hq as (Hnw & Hfl & Hop & _). intros Hb. unfold flush_inode. apply swp_bind.
  eapply swp_mono; [apply Hnw|]. intros r s1 (-> & Hs1). apply (flushing_same _ _ _ Hs1) in Hb. clear s Hs1.
  pose proof (put_back b) as Hput. pose proof (drop b) as Hdrop. unfold again in Hput, Hdrop.
  destruct (Z.eqb_spec (code b) FhgfsOpsErr_SUCCESS) as [E|E]; [apply Hdrop; [rewrite E; by intros []|done]|].
  destruct (Z.eqb_spec (code b) FhgfsOpsErr_INUSE) as [E2|E2]; [by apply Hput|].
  apply swp_bind. eapply (swp_mono _ (fun d s' => d = negb (again b) /\ flushing s0 b s')).
  { unfold again. destruct (Z.eqb_spec (code b) FhgfsOpsErr_COMMUNICATION) as [E3|E3]; cbn [negb].
    - apply swp_bind. eapply swp_mono; [apply Hop|]. intros o s2 (-> & Hs2). apply swp_ret.
      split; [destruct (Z.eqb_spec (code b) FhgfsOpsErr_INUSE); [done|by destruct (isOpen b)]|by eapply flushing_same].
    - apply swp_ret. split; [by destruct (Z.eqb_spec (code b) FhgfsOpsErr_INUSE)|done]. }
  intros d s2 (-> & Hb2). unfold again. destruct (Z.eqb_spec (code b) FhgfsOpsErr_INUSE); [done|]. cbn [orb] in *.
  destruct (_ && _) in Hput, Hdrop |- *; cbn [negb]; [by apply Hput|]. apply swp_bind. eapply swp_mono; [apply Hfl|].
  intros ? s3 Hs3. apply Hdrop; [by intros []|exact (flushing_same b s2 s3 Hs3 Hb2)].
Qed.

(** [l]: the inodes of the store from [b] on. *)
Definition from (b : Z) (l : list Z) : Prop :=
  StronglySorted Z.lt l /\ forall k, k ∈ l <-> is_Some (in_store s0 !! k) /\ b <= k.

Lemma flush_loop_quiet fuel b s : flushing s0 b s -> (Z.to_nat (2 ^ 64 - b) <= fuel)%nat ->
  swp (flush_loop fuel b) (fun l s' => from b l /\ flushed_below s0 (2 ^ 64) s') s.
Proof.
  revert b s. induction fuel as [|fuel IH]; intros b s Hb Hfuel; pose proof Hb as (_ & Hbin & _);
    pose proof (Hpos b Hbin) as [Hbr _]; cbn [flush_loop]; destruct (Z.eqb_spec b 0); [lia|lia|lia|].
  destruct Hq as (_ & _ & _ & Hst). apply swp_bind. eapply swp_mono; [by apply flush_inode_quiet|]. intros ? s1 Hb1.
  apply swp_bind. eapply swp_mono; [apply Hst|]. intros ? s2 (-> & Hs2). apply (flushed_same _ _ _ Hs2) in Hb1.
  pose proof Hb1 as (Hw & Hs & Hr). destruct (subset_fits s2 Hw) as [Hf2 H02]; [intros k Hk; by apply Hs|].
  apply swp_bind. eapply swp_mono; [by apply next_spec|]. intros b' s3 ((Hw3 & Em & Er & _) & Hb'). apply swp_bind.
  destruct (decide (b' = 0)) as [->|Hn].
  - assert (Hlast : forall k, is_Some (in_store s0 !! k) -> k <= b).
    { intros k Hk. destruct (decide (k <= b)); [done|]. exfalso. apply (Hb' k); [apply Hs; split; [done|lia]|lia]. }
    destruct fuel; cbn [flush_loop Z.eqb]; apply swp_ret; apply swp_ret.
    all: split; [split; [by repeat constructor|]|split_and!; [done| |]].
    1, 4: intros k; rewrite list_elem_of_singleton; split; [intros ->; split; [done|lia]|intros [Hk Hle]; specialize (Hlast k Hk); lia].
    1, 3: intros k; rewrite Em, Hs; split; intros [Hk Ha]; (split; [done|]); specialize (Hlast k Hk); intros _; apply Ha; specialize (Hpos k Hk); lia.
    all: intros k; rewrite Er, Hr; apply decide_ext; split; intros (Hk & _ & Ha); specialize (Hlast k Hk);
      (split_and!; [done|specialize (Hpos k Hk); lia|done]).
  - destruct Hb' as (Hb' & Hlt & Hmin). pose proof (proj1 (proj1 (Hs b') Hb')) as Hb0.
    assert (Hgap : forall k, is_Some (in_store s0 !! k) -> b < k -> b' <= k).
    { intros k Hk Hlt'. apply Hmin; [|done]. apply Hs. split; [done|lia]. }
    eapply swp_mono; [apply IH; [|lia]|].
    + split_and!; [done|done| |].
      * intros k. rewrite Em, lookup_delete_is_Some, Hs. split.
        -- intros (? & Hk & Ha). split_and!; [done|done|]. intros Hkb. apply Ha.
           destruct (decide (k <= b)); [lia|]. specialize (Hgap k Hk). lia.
        -- intros (Hk & ? & Ha). split_and!; [done|done|]. intros Hkb. apply Ha. lia.
      * intros k. rewrite Er, Hr. apply decide_ext. split; intros (Hk & Hkb & Ha); (split_and!; [done| |done]); [lia|].
        destruct (decide (k <= b)); [lia|]. specialize (Hgap k Hk). lia.
    + intros l s4 ([Hsl Hl] & H4). apply swp_ret. split; [|done]. split.
      * constructor; [done|]. apply Forall_forall. intros k [_ Hk]%Hl. lia.
      * intros k. rewrite elem_of_cons, Hl. split.
        -- intros [->|[Hk Hle]]; split; (done || lia).
        -- intros [Hk Hle]. destruct (decide (k = b)) as [->|]; [by left|right]. split; [done|apply Hgap; [done|lia]].
Qed.
End Quiet.

(** C27: what a pass of the flusher does when it is alone.  When no other thread touches the
    store meanwhile, a pass flushes exactly the inodes that are in the store, each
    once, in the order of their addresses.  Those that are left in it are those whose lock
    was busy and those that had a communication error while their file is open; of
    all the others the reference of the store, and no other, is gone. *)
Theorem flusher_pass `{!KernelRBTree (Z * unit) fst} {X} `{Env : !FlushEnv X} (code : Z -> Z) (isOpen : Z -> bool) (s : RefState X) :
  quiet code isOpen -> fits s -> (forall k, is_Some (in_store s !! k) -> 0 < k < 2 ^ 64 /\ 0 < r_refs s k) ->
  exists fuel flushed s', __Flusher_flushBuffers fuel s = Done (flushed, s') /\
    StronglySorted Z.lt flushed /\ (forall k, k ∈ flushed <-> is_Some (in_store s !! k)) /\
    (forall k, is_Some (in_store s' !! k) <-> is_Some (in_store s !! k) /\ again code isOpen k) /\
    (forall k, r_refs s' k = if decide (is_Some (in_store s !! k) /\ ~ again code isOpen k) then r_refs s k - 1 else r_refs s k).
Proof.
  intros Hq Hf Hpos. exists (Z.to_nat (2 ^ 64)).
  enough (swp (__Flusher_flushBuffers (Z.to_nat (2 ^ 64))) (fun l s' => from s 0 l /\ flushed_below code isOpen s (2 ^ 64) s') s)
    as (l & s' & E & [Hsl Hl] & _ & Hs & Hr)%swp_run.
  { exists l, s'. assert (Hk : forall k, is_Some (in_store s !! k) -> 0 <= k /\ k < 2 ^ 64) by (intros k Hk; specialize (Hpos k Hk); lia).
    split_and!; [done|done| | |].
    - intros k. rewrite Hl. split; [tauto|]. intros H. split; [done|by apply Hk].
    - intros k. rewrite Hs. split; intros [H Ha]; (split; [done|]); [by apply Ha, Hk|done].
    - intros k. rewrite Hr. apply decide_ext. specialize (Hk k). tauto. }
  destruct (subset_fits s Hf Hpos s ltac:(apply Hf) ltac:(done)) as [_ H0]. pose proof Hf as [Hw _].
  unfold __Flusher_flushBuffers. apply swp_bind. eapply swp_mono; [by apply first_spec|].
  intros i s1 ((Hw1 & Em & Er & _) & Hi). destruct (decide (i = 0)) as [->|Hn].
  - assert (He : forall k, ~ is_Some (in_store s !! k)) by (intros k Hk; by apply (Hi k)).
    assert (Hsome : forall k, is_Some (in_store s !! k) <-> False) by (intros k; split; [apply He|done]).
    assert (Hlp : forall fuel s2, @flush_loop _ X _ fuel 0 s2 = Done ([], s2)) by (by intros []).
    unfold swp. rewrite Hlp. split; [split; [constructor|]|split_and!; [done| |]].
    + intros k. rewrite Hsome. split; [by intros ?%not_elem_of_nil|tauto].
    + intros k. rewrite Em, Hsome. tauto.
    + intros k. rewrite Er, decide_False; [done|]. intros [Hk _]. by apply (He k).
  - destruct Hi as (Hi & _ & Hmin). pose proof (Hpos i Hi) as [Hr _].
    eapply swp_mono; [apply (flush_loop_quiet code isOpen Hq s Hf Hpos)|].
    + split_and!; [done|done| |].
      * intros k. rewrite Em, lookup_delete_is_Some. split.
        -- intros [? Hk]. split_and!; [done|done|]. specialize (Hmin k Hk). lia.
        -- intros (? & ? & _). by split.
      * intros k. rewrite Er, decide_False; [done|]. intros (Hk & Hlt & _). specialize (Hmin k Hk). lia.
    + lia.
    + intros l s2 ([Hsl Hl] & H2). split; [split; [done|]|done]. intros k. rewrite Hl. split; intros [Hk ?]; (split; [done|]).
      * lia.
      * by apply Hmin.
Qed.

(** An error other than that of the connection: the buffer is discarded, and the file is not
    asked whether it is still open. *)
Lemma discarded_though_open `{!KernelRBTree (Z * unit) fst} {X} `{Env : !FlushEnv X} (inode r : Z) (s s1 : RefState X) :
  flushCacheNoWait inode false s = Done (r, s1) ->
  r <> FhgfsOpsErr_SUCCESS -> r <> FhgfsOpsErr_INUSE -> r <> FhgfsOpsErr_COMMUNICATION ->
  flush_inode inode s = (_ ← flushCache inode true; iput inode) s1.
Proof.
  intros E H1 H2 H3. unfold flush_inode, mbind, ST_bind. rewrite E.
  destruct (Z.eqb_spec r FhgfsOpsErr_SUCCESS), (Z.eqb_spec r FhgfsOpsErr_INUSE), (Z.eqb_spec r FhgfsOpsErr_COMMUNICATION); done.
Qed.

(** ** An example: three inodes, whose flushes succeed, find the lock busy, and lose the
    connection; and a thread that gives the store a fourth one during each flush *)

Module SmallStore.
#[export] Instance kernel : KernelRBTree (Z * unit) fst := chain_kernel (Z * unit) fst.

Definition code (i : Z) : Z := if i =? 8 then 0 else if i =? 16 then 9 else 3.
Definition alone : FlushEnv unit := {|
  flushCacheNoWait i _ := mret (code i); flushCache i _ := mret (code i);
  getIsFileOpen _ := mret true; getSelfTerminate := mret false; users _ _ := 0 |}.

Definition add32 : ST (RefState (Z -> Z)) unit :=
  s ← st_get; if 0 <? r_other s 32 then InodeRefStore_addAndReferenceInode 32 else mret tt.
Definition busy : FlushEnv (Z -> Z) := {|
  flushCacheNoWait i _ := _ ← add32; mret (code i); flushCache i _ := mret (code i);
  getIsFileOpen _ := mret true; getSelfTerminate := mret false; users x i := Z.max 0 (x i) |}.

Definition three {X} (x : X) (refs : Z -> Z) : RefState X :=
  mkRef (foldl (fun t k => snd (PointerRBTree_insert __InodeRefStore_keyComparator t k tt)) PointerRBTree_init [16; 8; 24]) refs x.
End SmallStore.

#[local] Existing Instance SmallStore.kernel.

Lemma three_inodes {X} (x : X) refs : tree_wf (r_tree (SmallStore.three x refs)) /\
  in_store (SmallStore.three x refs) = <[24 := (24, tt)]> (<[8 := (8, tt)]> (<[16 := (16, tt)]> ∅)).
Proof.
  split; [|by vm_compute]. unfold SmallStore.three. cbn [r_tree foldl].
  do 3 (match goal with |- tree_wf (snd (PointerRBTree_insert ?c ?t ?k ?v)) =>
    let H := fresh in assert (H : tree_wf t); [|pose proof (insert_wf c t k v H ltac:(by vm_compute));
      destruct (PointerRBTree_insert c t k v); tauto] end).
  apply wf_init.
Qed.
Lemma three_keys {X} (x : X) refs k : is_Some (in_store (SmallStore.three x refs) !! k) <-> k = 24 \/ k = 8 \/ k = 16.
Proof.
  rewrite (proj2 (three_inodes x refs)), !lookup_insert_is_Some', lookup_empty. split; [intros [?|[?|[?|[? ?]]]]; [auto..|done]|intros [?|[?|?]]; auto].
Qed.

Lemma flusher_pass_witness :
  exists fuel flushed s', __Flusher_flushBuffers (Env := SmallStore.alone) fuel (SmallStore.three tt (fun _ => 1)) = Done (flushed, s') /\
    (16 ∈ flushed) /\ is_Some (in_store s' !! 24) /\ r_refs s' 8 = 0 /\ r_refs s' 16 = 1.
Proof.
  destruct (@flusher_pass _ unit SmallStore.alone SmallStore.code (fun _ => true) (SmallStore.three tt (fun _ => 1)))
    as (fuel & l & s' & E & _ & Hl & Hs & Hr).
  - split_and!; [intros i b s; by apply swp_ret..|intros i s; by apply swp_ret|intros s; by apply swp_ret].
  - split; [apply three_inodes|]. by vm_compute.
  - intros k [->|[->| ->]]%three_keys; by vm_compute.
  - exists fuel, l, s'. split; [done|]. split; [apply Hl, three_keys; auto|]. split; [apply Hs; split; [apply three_keys; auto|done]|].
    split; rewrite Hr.
    + rewrite decide_True; [done|]. split; [apply three_keys; auto|by intros []].
    + rewrite decide_False; [done|]. intros [_ []]. done.
Defined.

Lemma add32_balanced mine s : balanced (Env := SmallStore.busy) (list_to_set [8; 16; 24; 32]) mine s ->
  swp SmallStore.add32 (fun _ => balanced (Env := SmallStore.busy) (list_to_set [8; 16; 24; 32]) mine) s.
Proof.
  intros Hb. pose proof Hb as (Hw & Hd & Hr). unfold SmallStore.add32. sstep.
  destruct (Z.ltb_spec 0 (r_other s 32)) as [Hp|]; [|by apply swp_ret].
  assert (Hf : fits s). { eapply balanced_fits; [|exact Hb]. split; [|by vm_compute]. set_solver by lia. }
  unfold InodeRefStore_addAndReferenceInode. apply swp_bind. eapply swp_mono; [by apply insert_spec|].
  intros ok s1 (-> & Hw1 & Em & Er & Eo).
  assert (Hd1 : forall k, is_Some (in_store s1 !! k) -> k ∈ (list_to_set [8; 16; 24; 32] : gset Z)).
  { intros k. rewrite Em, lookup_insert_is_Some'. intros [<-|Hk]; [set_solver|by apply Hd]. }
  pose proof (stored_insert _ _ _ _ Em) as Hs. cbn [users SmallStore.busy] in Hr.
  destruct (bool_decide_reflect (in_store s !! 32 = None)) as [En|En].
  - assert (Hs0 : stored s 32 = 0) by (unfold stored; rewrite En, decide_False; [done|by intros [? ?]]).
    eapply swp_mono; [apply ihold_spec; rewrite Er; specialize (Hr 32); lia|]. intros ? s2 ->. split_and!; [done..|].
    intros k. specialize (Hr k). specialize (Hs k). cbn [r_refs r_other users SmallStore.busy]. rewrite Er, Eo.
    change (stored (mkRef _ _ _) k) with (stored s1 k). unfold base.insert, fn_insert.
    destruct (decide (32 = k)) as [<-|]; [rewrite decide_True in Hs by done; lia|]. rewrite decide_False in Hs by done. lia.
  - apply swp_ret. split_and!; [done..|]. intros k. specialize (Hr k). specialize (Hs k). cbn [users SmallStore.busy]. rewrite Er, Eo.
    assert (Hs1 : stored s 32 = 1) by (unfold stored; rewrite decide_True; [done|by apply not_eq_None_Some]).
    destruct (decide (k = 32)) as [->|]; lia.
Qed.

#[local] Instance busy_laws : FlushLaws (Env := SmallStore.busy) (list_to_set [8; 16; 24; 32]).
Proof.
  split.
  - intros mine i b s _ Hb. apply swp_bind. eapply swp_mono; [by apply add32_balanced|]. intros ? s1 H1. by apply swp_ret.
  - intros mine i b s _ Hb. by apply swp_ret.
  - intros mine i s _ Hb. by apply swp_ret.
  - intros mine s Hb. by apply swp_ret.
Qed.

Lemma flusher_references_witness :
  let s := SmallStore.three (fun i => if i =? 32 then 1 else 0) (fun i => if bool_decide (i ∈ [8; 16; 24; 32]) then 1 else 0) in
  exists fuel flushed s', __Flusher_flushBuffers (Env := SmallStore.busy) fuel s = Done (flushed, s') /\
    StronglySorted Z.lt flushed /\ balanced (Env := SmallStore.busy) (list_to_set [8; 16; 24; 32]) none s'.
Proof.
  intros s. apply (@flusher_references _ _ SmallStore.busy (list_to_set [8; 16; 24; 32]) busy_laws s).
  - split; [|by vm_compute]. set_solver by lia.
  - split_and!; [apply three_inodes|intros i [->|[->| ->]]%three_keys; set_solver|].
    intros i. cbn [users SmallStore.busy r_other r_refs s SmallStore.three none]. unfold stored. unfold s.
    destruct (Z.eqb_spec i 32) as [->|]; [by vm_compute|].
    destruct (decide (is_Some _)) as [H|H].
    + apply three_keys in H. rewrite bool_decide_true by (destruct H as [->|[->| ->]]; set_solver). unfold none. lia.
    + rewrite three_keys in H. rewrite bool_decide_false; [unfold none; lia|]. set_solver.
Defined.
