(* ===== verification/NodeStore.v ===== *)
(** * The servers that are known

    [common/nodes/Node.h/.c], [NodeTree.h/.c], [nodes/NodeStoreEx.h/.c]: the nodes are
    objects with a reference counter; a store has a search tree of them by numeric ID, with
    one reference each, and learns from the management node which ones there are.  The
    lock of a store is held throughout a call, so a call is one step; waiting for the first
    node, and synchronising, are cut where the lock is given back. *)

From stdpp Require Import sorting strings pretty.
From S2P Require Import Prelude StateMonad Serialization SerializationLists EntryInfo StorageErrors RBTree.
From S2P Require Import TargetMapper MirrorBuddyGroup MirrorBuddyGroupMapper NodeConnPool.

Definition NODETYPE_Invalid : Z := 0.
Definition NODETYPE_Meta : Z := 1.
Definition NODETYPE_Storage : Z := 2.
Definition NODETYPE_Client : Z := 3.
Definition NODETYPE_Mgmt : Z := 4.
Definition NODETYPE_Helperd : Z := 5.

(** ** Nodes

    [nd_connPool]: the connection pool, and what its threads are about to do.
    [changeCond] has no waiters. *)

Record NodeObject := mkNodeObj {
  nd_id : string; nd_numID : Z; nd_nodeType : Z; nd_nodeIDWithTypeStr : option string;
  nd_connPool : World; nd_portUDP : Z; nd_lastHeartbeatT : timespec; nd_isActive : bool;
  nd_references : Z }.

Definition Node_init (cfgMaxConns cfgExpirationSecs cfgMaxAttempts : Z) (now : timespec)
    (nodeID : string) (nodeNumID portUDP portTCP : Z) (nics : list NicAddress) : NodeObject :=
  mkNodeObj nodeID nodeNumID NODETYPE_Invalid None
    (mkWorld (mkPoolState (NodeConnPool_init cfgMaxConns cfgExpirationSecs cfgMaxAttempts portTCP nics) ∅) [])
    portUDP now false 1.

Definition Node_updateLastHeartbeatT (now : timespec) (this : NodeObject) : NodeObject :=
  let 'mkNodeObj i n t s p u _ a r := this in mkNodeObj i n t s p u now a r.
Definition Node_setIsActive (isActive : bool) (this : NodeObject) : NodeObject :=
  let 'mkNodeObj i n t s p u h _ r := this in mkNodeObj i n t s p u h isActive r.
Definition Node_setNumID (numID : Z) (this : NodeObject) : NodeObject :=
  let 'mkNodeObj i _ t s p u h a r := this in mkNodeObj i numID t s p u h a r.
Definition Node_setNodeType (nodeType : Z) (this : NodeObject) : NodeObject :=
  let 'mkNodeObj i n _ _ p u h a r := this in mkNodeObj i n nodeType None p u h a r.
Definition set_connPool (p : World) (this : NodeObject) : NodeObject :=
  let 'mkNodeObj i n t s _ u h a r := this in mkNodeObj i n t s p u h a r.
Definition set_portUDP (u : Z) (this : NodeObject) : NodeObject :=
  let 'mkNodeObj i n t s p _ h a r := this in mkNodeObj i n t s p u h a r.
Definition set_references (r : Z) (this : NodeObject) : NodeObject :=
  let 'mkNodeObj i n t s p u h a _ := this in mkNodeObj i n t s p u h a r.

Definition Node_getPortTCP (this : NodeObject) : Z := streamPort (pool (state (nd_connPool this))).
Definition Node_getNicList (this : NodeObject) : list NicAddress := nicList (pool (state (nd_connPool this))).

(** When the port changed, the pool has to drop its connections, see [NodeConnPool]. *)
Definition Node_updateInterfaces (portUDP portTCP : Z) (nics : list NicAddress) (this : NodeObject)
    : outcome (bool * NodeObject) :=
  let changedUDP := negb (portUDP =? 0) && negb (portUDP =? nd_portUDP this) in
  let this := if changedUDP then set_portUDP portUDP this else this in
  '(st, todo, _) ← NodeConnPool_updateInterfaces portTCP nics (state (nd_connPool this));
  let w := mkWorld st (ops (nd_connPool this) ++ option_list todo) in
  Done (changedUDP || match todo with Some _ => true | None => false end, set_connPool w this).

Definition Node_nodeTypeToStr (nodeType : Z) : string :=
  if nodeType =? NODETYPE_Invalid then "<undefined/invalid>"
  else if nodeType =? NODETYPE_Meta then "congfs-meta"
  else if nodeType =? NODETYPE_Storage then "congfs-storage"
  else if nodeType =? NODETYPE_Client then "congfs-client"
  else if nodeType =? NODETYPE_Mgmt then "congfs-mgmtd"
  else if nodeType =? NODETYPE_Helperd then "congfs-helperd"
  else "<unknown>".
Definition Node_getNodeTypeStr (this : NodeObject) : string := Node_nodeTypeToStr (nd_nodeType this).
Definition NumNodeID_str (this : Z) : string := pretty (Z.to_N (u32 this)).

(** The string is kept until the type of the node is set. *)
Definition Node_getNodeIDWithTypeStr (this : NodeObject) : string * NodeObject :=
  match nd_nodeIDWithTypeStr this with
  | Some s => (s, this)
  | None =>
      let s := if nd_nodeType this =? NODETYPE_Client
               then (Node_getNodeTypeStr this ++ " " ++ nd_id this)%string
               else (Node_getNodeTypeStr this ++ " " ++ nd_id this ++ " [ID: " ++ NumNodeID_str (nd_numID this) ++ "]")%string in
      (s, let 'mkNodeObj i n t _ p u h a r := this in mkNodeObj i n t (Some s) p u h a r)
  end.

Definition NIC_supportsSDP (l : list NicAddress) : bool := existsb (fun n => nicType n =? NICADDRTYPE_SDP) l.
Definition NIC_supportsRDMA (l : list NicAddress) : bool := existsb (fun n => nicType n =? NICADDRTYPE_RDMA) l.
Definition NIC_supportedCapabilities (l : list NicAddress) : bool * bool := (NIC_supportsSDP l, NIC_supportsRDMA l).

(** ** The store

    An element of the tree is the ID and the address of a node.  [ns_nodes]: the nodes
    that exist, those of the store and others; the completion that [newNodeAppeared] points
    to, and those that were completed. *)

Record NodeStoreEx := mkNodeStore {
  ns_nodes : gmap Z NodeObject; ns_tree : rbtree (Z * Z); ns_size : Z;
  ns_newNodeAppeared : option Z; ns_completed : gset Z; ns_rootOwner : NodeOrGroup; ns_storeType : Z }.

Definition set_nodes (h : gmap Z NodeObject) (this : NodeStoreEx) : NodeStoreEx :=
  let 'mkNodeStore _ t n a c o ty := this in mkNodeStore h t n a c o ty.
Definition set_nodeTree (t : rbtree (Z * Z)) (n : Z) (this : NodeStoreEx) : NodeStoreEx :=
  let 'mkNodeStore h _ _ a c o ty := this in mkNodeStore h t n a c o ty.
Definition set_newNodeAppeared (a : option Z) (this : NodeStoreEx) : NodeStoreEx :=
  let 'mkNodeStore h t n _ c o ty := this in mkNodeStore h t n a c o ty.
Definition set_completed (c : gset Z) (this : NodeStoreEx) : NodeStoreEx :=
  let 'mkNodeStore h t n a _ o ty := this in mkNodeStore h t n a c o ty.
Definition set_rootOwner (o : NodeOrGroup) (this : NodeStoreEx) : NodeStoreEx :=
  let 'mkNodeStore h t n a c _ ty := this in mkNodeStore h t n a c o ty.

Definition NST (A : Type) : Type := ST NodeStoreEx A.

(** Access to the node at [p], which must still exist. *)
Definition get_node (p : Z) : NST NodeObject := s ← st_get; st_lift (of_option (ns_nodes s !! p)).
Definition put_node (p : Z) (nd : NodeObject) : NST unit := st_mod (fun s => set_nodes (<[p := nd]> (ns_nodes s)) s).
Definition on_node (p : Z) (f : NodeObject -> NodeObject) : NST unit := nd ← get_node p; put_node p (f nd).

Definition Node_get (p : Z) : NST unit := on_node p (fun nd => set_references (nd_references nd + 1) nd).
Definition Node_put (p : Z) : NST unit :=
  nd ← get_node p;
  if nd_references nd =? 1 then st_mod (fun s => set_nodes (delete p (ns_nodes s)) s)
  else put_node p (set_references (nd_references nd - 1) nd).

Section Store.
Context `{K : KernelRBTree (Z * Z) fst}.

Definition NodeTree_init : rbtree (Z * Z) * Z := (Leaf, 0).

Fixpoint find_node (h : gmap Z NodeObject) (node : rbtree (Z * Z)) (nodeNumID : Z) : outcome (option Z) :=
  match node with
  | Leaf => Done None
  | Node l elem r =>
      nd ← of_option (h !! snd elem);
      let elemID := nd_numID nd in
      if nodeNumID <? elemID then find_node h l nodeNumID
      else if elemID <? nodeNumID then find_node h r nodeNumID
      else Done (Some (snd elem))
  end.
Definition NodeTree_find (nodeNumID : Z) : NST (option Z) :=
  s ← st_get; st_lift (find_node (ns_nodes s) (ns_tree s) nodeNumID).

(** The walk to the place of the new node; [None]: there is a node with this ID. *)
Fixpoint link_node (h : gmap Z NodeObject) (node : rbtree (Z * Z)) (nodeNumID p : Z) : outcome (option (rbtree (Z * Z))) :=
  match node with
  | Leaf => Done (Some (Node Leaf (nodeNumID, p) Leaf))
  | Node l elem r =>
      nd ← of_option (h !! snd elem);
      let elemID := nd_numID nd in
      if nodeNumID <? elemID then
        l' ← link_node h l nodeNumID p; Done (l' ← l'; Some (Node l' elem r))
      else if elemID <? nodeNumID then
        r' ← link_node h r nodeNumID p; Done (r' ← r'; Some (Node l elem r'))
      else Done None
  end.
Definition NodeTree_insert (nodeNumID p : Z) : NST bool :=
  s ← st_get;
  t ← st_lift (link_node (ns_nodes s) (ns_tree s) nodeNumID p);
  match t with
  | None => mret false
  | Some t => _ ← st_mod (set_nodeTree (rb_insert_color t) (u32 (ns_size s + 1))); mret true
  end.

Definition NodeTree_erase (nodeNumID : Z) : NST bool :=
  node ← NodeTree_find nodeNumID;
  match node with
  | None => mret false
  | Some p =>
      _ ← st_mod (fun s => set_nodeTree (rb_erase nodeNumID (ns_tree s)) (u32 (ns_size s - 1)) s);
      _ ← Node_put p;
      mret true
  end.

(** The kernel's [rb_next]: the links of a node that is not in the tree any more lead
    anywhere. *)
Fixpoint node_after (p : Z) (l : list (Z * Z)) : outcome (option (Z * Z)) :=
  match l with
  | [] => Fault
  | e :: l => if snd e =? p then Done (head l) else node_after p l
  end.
Definition NodeTree_getNext (p : Z) : NST (option Z) :=
  s ← st_get;
  e ← st_lift (node_after p (rb_iter (ns_tree s)));
  mret (snd <$> e).

Fixpoint each_node {A} (l : list A) (f : A -> NST unit) : NST unit :=
  match l with
  | [] => mret tt
  | x :: l => _ ← f x; each_node l f
  end.

Definition NodeTree_uninit : NST unit :=
  s ← st_get; each_node (rb_postorder (ns_tree s)) (fun e => Node_put (snd e)).

(** ** Operations of the store *)

Definition NodeStoreEx_init (h : gmap Z NodeObject) (storeType : Z) : NodeStoreEx :=
  mkNodeStore h (fst NodeTree_init) (snd NodeTree_init) None ∅ (NodeOrGroup_fromGroup 0) storeType.
Definition NodeStoreEx_uninit : NST unit := NodeTree_uninit.

Definition NodeStoreEx_addOrUpdateNode (now : timespec) (p : Z) : NST bool :=
  nd ← get_node p;
  let nodeNumID := nd_numID nd in
  if nodeNumID =? 0 then _ ← Node_put p; mret false
  else
    active ← NodeTree_find nodeNumID;
    match active with
    | Some a =>
        old ← get_node a;
        _ ← (if bool_decide (nd_id nd = nd_id old) then
               '(_, old) ← st_lift (Node_updateInterfaces (nd_portUDP nd) (Node_getPortTCP nd) (Node_getNicList nd)
                                      (Node_updateLastHeartbeatT now old));
               put_node a old
             else mret tt);
        _ ← Node_put p;
        mret false
    | None =>
        _ ← NodeTree_insert nodeNumID p;
        s ← st_get;
        _ ← on_node p (fun nd => Node_setNodeType (ns_storeType s) (Node_setIsActive true nd));
        _ ← match ns_newNodeAppeared s with
            | Some c => st_mod (fun s => set_completed ({[c]} ∪ ns_completed s) s)
            | None => mret tt
            end;
        mret true
    end.

Definition reference (node : option Z) : NST (option Z) :=
  match node with Some p => _ ← Node_get p; mret node | None => mret None end.

Definition NodeStoreEx_referenceNode (id : Z) : NST (option Z) := node ← NodeTree_find id; reference node.

Definition NodeStoreEx_referenceRootNode (metaBuddyGroupMapper : MapperState) : NST (option Z * NodeOrGroup) :=
  s ← st_get;
  let owner := ns_rootOwner s in
  nodeID ← (if owner_isGroup owner
            then st_lift (MirrorBuddyGroupMapper_getPrimaryTargetID metaBuddyGroupMapper (owner_group owner))
            else mret (owner_group owner));
  node ← NodeTree_find nodeID;
  node ← reference node;
  mret (node, owner).

Definition NodeStoreEx_referenceNodeByTargetID (targetID : Z) (targetMapper : TargetMapper) : NST (option Z * Z) :=
  let nodeID := TargetMapper_getNodeID targetMapper targetID in
  if nodeID =? 0 then mret (None, FhgfsOpsErr_UNKNOWNTARGET)
  else
    node ← NodeStoreEx_referenceNode nodeID;
    mret (node, match node with None => FhgfsOpsErr_UNKNOWNNODE | Some _ => FhgfsOpsErr_SUCCESS end).

Definition NodeStoreEx_deleteNode (nodeID : Z) : NST bool := NodeTree_erase nodeID.

Definition NodeStoreEx_getSize : NST Z := s ← st_get; mret (ns_size s).

Definition NodeStoreEx_referenceFirstNode : NST (option Z) :=
  s ← st_get; reference (snd <$> head (rb_iter (ns_tree s))).

Definition NodeStoreEx_referenceNextNodeAndReleaseOld (oldNode : Z) : NST (option Z) :=
  result ← NodeTree_getNext oldNode;
  result ← reference result;
  _ ← Node_put oldNode;
  mret result.

Definition NodeStoreEx_getRootOwner : NST NodeOrGroup := s ← st_get; mret (ns_rootOwner s).

Definition NodeStoreEx_setRootOwner (owner : NodeOrGroup) (ignoreExistingRoot : bool) : NST bool :=
  if (owner_group owner =? 0) && negb ignoreExistingRoot then mret false
  else
    s ← st_get;
    if negb (NodeOrGroup_valid (ns_rootOwner s)) then _ ← st_mod (set_rootOwner owner); mret true
    else if negb ignoreExistingRoot then mret false
    else _ ← st_mod (set_rootOwner owner); mret true.

(** Waiting for the first node, with the completion [cond]: the steps before and after the
    waiting.  [true] from the first: nothing to wait for. *)
Definition waitForFirstNode_check : NST bool := s ← st_get; mret (0 <? ns_size s).
Definition waitForFirstNode_register (cond : Z) : NST unit :=
  st_mod (fun s => set_completed (ns_completed s ∖ {[cond]}) (set_newNodeAppeared (Some cond) s)).
Definition waitForFirstNode_finish : NST bool :=
  _ ← st_mod (set_newNodeAppeared None); s ← st_get; mret (0 <? ns_size s).

(** *** Synchronising with the list of the management node

    The first phase: the nodes of the store in the order of their IDs, and those of the
    list; the IDs that are new, those that are gone, and the nodes to be added. *)
Fixpoint sync_merge (h : gmap Z NodeObject) (active : list (Z * Z)) : list Z -> outcome (list Z * list Z * list Z) :=
  fix go (masterList : list Z) :=
    match active, masterList with
    | [], [] => Done ([], [], [])
    | [], m :: masterList' =>
        nd ← of_option (h !! m);
        '(added, removed, later) ← go masterList'; Done (nd_numID nd :: added, removed, m :: later)
    | a :: active', [] =>
        nd ← of_option (h !! snd a);
        '(added, removed, later) ← sync_merge h active' []; Done (added, nd_numID nd :: removed, later)
    | a :: active', m :: masterList' =>
        an ← of_option (h !! snd a);
        mn ← of_option (h !! m);
        let currentActive := nd_numID an in
        let currentMaster := nd_numID mn in
        if currentMaster <? currentActive then
          '(added, removed, later) ← go masterList'; Done (currentMaster :: added, removed, m :: later)
        else if currentActive <? currentMaster then
          '(added, removed, later) ← sync_merge h active' masterList; Done (added, currentActive :: removed, later)
        else
          '(added, removed, later) ← sync_merge h active' masterList'; Done (added, removed, m :: later)
    end.
Definition syncNodes_phase1 (masterList : list Z) : NST (list Z * list Z * list Z) :=
  s ← st_get; st_lift (sync_merge (ns_nodes s) (rb_iter (ns_tree s)) masterList).

Definition set_localNicCaps (caps : bool * bool) (this : NodeObject) : NodeObject :=
  let w := nd_connPool this in
  set_connPool (mkWorld (with_pool (state w) (NodeConnPool_setLocalNicCaps (pool (state w)) (fst caps) (snd caps))) (ops w)) this.

Definition add_later (now : timespec) (localNode : option NodeObject) (p : Z) : NST unit :=
  _ ← match localNode with
      | Some local => on_node p (set_localNicCaps (NIC_supportedCapabilities (Node_getNicList local)))
      | None => mret tt
      end;
  _ ← NodeStoreEx_addOrUpdateNode now p;
  mret tt.

Definition remove_node (id : Z) : NST unit := _ ← NodeStoreEx_deleteNode id; mret tt.

(** The result: the lists of the caller, with the IDs that were added and removed. *)
Definition NodeStoreEx_syncNodes (now : timespec) (masterList outAddedIDs outRemovedIDs : list Z)
    (appLocalNode : option NodeObject) : NST (list Z * list Z) :=
  r ← syncNodes_phase1 masterList;
  let '(added, removed, addLaterNodes) := r in
  let outRemovedIDs := outRemovedIDs ++ removed in
  _ ← each_node outRemovedIDs remove_node;
  _ ← each_node addLaterNodes (add_later now appLocalNode);
  mret (outAddedIDs ++ added, outRemovedIDs).
End Store.
