(* ===== verification/NodeStoreInv.v ===== *)
(** * The node stores: references, and what synchronising does

    The invariant [store_ok] of [NodeStore.v], that every operation keeps it, and the
    effect of the operations on the map from IDs to nodes. *)

From stdpp Require Import sorting functions.
From S2P Require Import Prelude StateMonad Serialization SerializationLists EntryInfo StorageErrors RBTree.
From S2P Require Import TargetMapper NodeConnPool NodeStore.

Section Store.
Context `{K : KernelRBTree (Z * Z) fst}.
Implicit Types s : NodeStoreEx.

(** The nodes of the store by their IDs. *)
Definition by_id s : gmap Z (Z * Z) := rb_map fst (ns_tree s).
Definition node_of s (id : Z) : option Z := snd <$> by_id s !! id.
Definition of_store s (p : Z) : Z := if decide (p ∈ snd <$> inorder (ns_tree s)) then 1 else 0.

(** [ext]: the references to each node that do not belong to the store. *)
Record store_ok (ext : Z -> Z) s : Prop := mkOk {
  ok_sorted : rb_sorted fst (ns_tree s);
  ok_size : ns_size s = Z.of_nat (length (inorder (ns_tree s)));
  ok_ids : forall e, e ∈ inorder (ns_tree s) ->
    0 < fst e < 2 ^ 32 /\ exists nd, ns_nodes s !! snd e = Some nd /\ nd_numID nd = fst e;
  ok_ext : forall p, 0 <= ext p;
  ok_refs : forall p nd, ns_nodes s !! p = Some nd -> 0 < nd_references nd /\ nd_references nd = ext p + of_store s p;
  ok_free : forall p, ns_nodes s !! p = None -> ext p = 0 }.

(** Nodes may go, and new IDs do not come. *)
Definition keeps_ids s s' : Prop :=
  forall p nd', ns_nodes s' !! p = Some nd' -> exists nd, ns_nodes s !! p = Some nd /\ nd_numID nd' = nd_numID nd.

Lemma keeps_refl s : keeps_ids s s.
Proof. intros p nd H. by exists nd. Qed.
Lemma keeps_trans s1 s2 s3 : keeps_ids s1 s2 -> keeps_ids s2 s3 -> keeps_ids s1 s3.
Proof. intros H1 H2 p nd H. destruct (H2 p nd H) as (nd2 & E2 & ->). by apply H1. Qed.

Lemma ok_pointwise ext ext' s : (forall p, ext p = ext' p) -> store_ok ext s -> store_ok ext' s.
Proof.
  intros E [H1 H2 H3 H4 H5 H6]. constructor; [done..| | |]; intros p; rewrite <- E; auto.
Qed.

(** ** Searching *)

Lemma find_node_rb h t id :
  (forall e, e ∈ inorder t -> exists nd, h !! snd e = Some nd /\ nd_numID nd = fst e) ->
  find_node h t id = Done (snd <$> rb_find fst t id).
Proof.
  induction t as [|l IHl e r IHr]; cbn [find_node rb_find inorder]; intros H; [done|].
  destruct (H e) as (nd & E & En); [set_solver|]. rewrite E. cbn [of_option mbind outcome_bind]. rewrite En.
  rewrite IHl, IHr by set_solver. destruct (keycmp_spec id (fst e)) as [[Hlt ->]|[[-> ->]|[Hgt ->]]]; cbn.
  - by destruct (Z.ltb_spec id (fst e)); [|lia].
  - by rewrite Z.ltb_irrefl.
  - by destruct (Z.ltb_spec id (fst e)), (Z.ltb_spec (fst e) id); [lia|lia| |lia].
Qed.
Lemma link_node_rb h t id p :
  (forall e, e ∈ inorder t -> exists nd, h !! snd e = Some nd /\ nd_numID nd = fst e) ->
  link_node h t id p = Done (rb_link fst t (id, p)).
Proof.
  induction t as [|l IHl e r IHr]; cbn [link_node rb_link inorder]; intros H; [done|].
  destruct (H e) as (nd & E & En); [set_solver|]. rewrite E. cbn [of_option mbind outcome_bind]. rewrite En.
  rewrite IHl, IHr by set_solver. cbn [fst]. destruct (keycmp_spec id (fst e)) as [[Hlt ->]|[[-> ->]|[Hgt ->]]]; cbn.
  - by destruct (Z.ltb_spec id (fst e)); [|lia].
  - by rewrite Z.ltb_irrefl.
  - by destruct (Z.ltb_spec id (fst e)), (Z.ltb_spec (fst e) id); [lia|lia| |lia].
Qed.

Lemma by_id_in ext s k e : store_ok ext s -> by_id s !! k = Some e <-> e ∈ inorder (ns_tree s) /\ fst e = k.
Proof. intros H. apply rb_map_lookup, H. Qed.

Lemma node_of_in ext s k p : store_ok ext s -> node_of s k = Some p <-> (k, p) ∈ inorder (ns_tree s).
Proof.
  intros H. unfold node_of. rewrite fmap_Some. split.
  - intros ([k' p'] & E & ->). apply (by_id_in ext) in E as [Hin Hk]; [|done]. by cbn in *; subst.
  - intros Hin. exists (k, p). split; [|done]. by apply (by_id_in ext).
Qed.

Lemma node_of_node ext s k p : store_ok ext s -> node_of s k = Some p ->
  0 < k < 2 ^ 32 /\ of_store s p = 1 /\ exists nd, ns_nodes s !! p = Some nd /\ nd_numID nd = k.
Proof.
  intros H Hk%(node_of_in ext); [|done]. destruct (ok_ids ext s H _ Hk) as (Hb & nd & E & En). cbn [fst snd] in *.
  split_and!; [lia|lia| |by exists nd]. unfold of_store. rewrite decide_True; [done|].
  apply list_elem_of_fmap. by exists (k, p).
Qed.
Lemma of_store_in ext s p : store_ok ext s -> of_store s p = 1 -> exists k, node_of s k = Some p.
Proof.
  intros H. unfold of_store. case_decide as Hd; [|done]. intros _. apply list_elem_of_fmap in Hd as ([k p'] & -> & Hin).
  exists k. by apply (node_of_in ext).
Qed.

Lemma find_spec ext id s : store_ok ext s -> swp (NodeTree_find id) (fun r s' => r = node_of s id /\ s' = s) s.
Proof.
  intros H. unfold NodeTree_find. sstep. eapply swp_lift; [apply find_node_rb|].
  - intros e He. apply (ok_ids ext s H e He).
  - split; [|done]. unfold node_of, by_id. by rewrite rb_find_map by apply H.
Qed.

(** ** References *)

Lemma exists_of_ext ext s p : store_ok ext s -> 0 < ext p -> exists nd, ns_nodes s !! p = Some nd.
Proof.
  intros H Hp. destruct (ns_nodes s !! p) as [nd|] eqn:E; [by exists nd|]. pose proof (ok_free ext s H p E). lia.
Qed.

(** Replacing a node by one with the same ID. *)
Lemma replace_node_ok ext ext' s p nd nd' : store_ok ext s -> ns_nodes s !! p = Some nd -> nd_numID nd' = nd_numID nd ->
  (forall q, q <> p -> ext' q = ext q) -> 0 <= ext' p -> 0 < nd_references nd' -> nd_references nd' = ext' p + of_store s p ->
  let s' := set_nodes (<[p := nd']> (ns_nodes s)) s in store_ok ext' s' /\ keeps_ids s s'.
Proof.
  intros [H1 H2 H3 H4 H5 H6] E En Hext Hp Hr0 Hr. destruct s as [h t n a c o ty]; cbn [ns_nodes ns_tree ns_size set_nodes] in *.
  split; [constructor|]; cbn [ns_nodes ns_tree ns_size]; try done.
  - intros e He. destruct (H3 e He) as (Hb & nd0 & E0 & Ek). split; [done|]. destruct (decide (snd e = p)) as [Hs|Hs].
    + exists nd'. rewrite Hs in *. rewrite lookup_insert_eq. split; [done|]. congruence.
    + exists nd0. by rewrite lookup_insert_ne.
  - intros q. destruct (decide (q = p)) as [->|Hq]; [done|]. rewrite Hext by done. apply H4.
  - intros q x. destruct (decide (q = p)) as [->|Hq].
    + rewrite lookup_insert_eq. intros [= <-]. split; [done|exact Hr].
    + rewrite lookup_insert_ne by done. intros Ex. rewrite Hext by done. by apply H5.
  - intros q. destruct (decide (q = p)) as [->|Hq]; [by rewrite lookup_insert_eq|].
    rewrite lookup_insert_ne by done. intros Ex. rewrite Hext by done. by apply H6.
  - intros q x. cbn [ns_nodes]. destruct (decide (q = p)) as [->|Hq].
    + rewrite lookup_insert_eq. intros [= <-]. by exists nd.
    + rewrite lookup_insert_ne by done. intros Ex. by exists x.
Qed.

Lemma set_references_id n nd : nd_numID (set_references n nd) = nd_numID nd.
Proof. by destruct nd. Qed.
Lemma set_references_eq n nd : nd_references (set_references n nd) = n.
Proof. by destruct nd. Qed.

Definition same_tree s s' : Prop := ns_tree s' = ns_tree s /\ ns_rootOwner s' = ns_rootOwner s /\
  ns_newNodeAppeared s' = ns_newNodeAppeared s /\ ns_storeType s' = ns_storeType s.
Lemma same_set_nodes h s : same_tree s (set_nodes h s).
Proof. by destruct s. Qed.
Lemma same_node_of s s' : same_tree s s' -> forall k, node_of s' k = node_of s k.
Proof. intros (E & _) k. unfold node_of, by_id. by rewrite E. Qed.

Lemma Node_get_spec ext p s : store_ok ext s -> 0 < ext p + of_store s p -> is_Some (ns_nodes s !! p) ->
  swp (Node_get p) (fun _ s' => store_ok (<[p := ext p + 1]> ext) s' /\ keeps_ids s s' /\ same_tree s s') s.
Proof.
  intros H Hp [nd E]. unfold Node_get, on_node, get_node, put_node. sstep. eapply swp_lift; [by rewrite E|]. sstep.
  pose proof (ok_refs ext s H p nd E) as [_ Hr]. pose proof (ok_ext ext s H p).
  destruct (replace_node_ok ext (<[p := ext p + 1]> ext) s p nd (set_references (nd_references nd + 1) nd)) as [H1 H2];
    [done|done|by apply set_references_id|intros q Hq; by rewrite fn_lookup_insert_ne|
     rewrite ?set_references_eq, ?fn_lookup_insert; lia..|].
  split_and!; [done|done|apply same_set_nodes].
Qed.

Lemma Node_put_spec ext p s : store_ok ext s -> 0 < ext p ->
  swp (Node_put p) (fun _ s' => store_ok (<[p := ext p - 1]> ext) s' /\ keeps_ids s s' /\ same_tree s s') s.
Proof.
  intros H Hp. destruct (exists_of_ext ext s p H Hp) as [nd E]. unfold Node_put, get_node, put_node. sstep.
  eapply swp_lift; [by rewrite E|]. sstep. pose proof (ok_refs ext s H p nd E) as [_ Hr].
  destruct (Z.eqb_spec (nd_references nd) 1) as [E1|E1]; sstep; (split; [|split; [|apply same_set_nodes]]).
  3, 4: destruct (replace_node_ok ext (<[p := ext p - 1]> ext) s p nd (set_references (nd_references nd - 1) nd)) as [H1 H2];
    [done|done|by apply set_references_id|intros q Hq; by rewrite fn_lookup_insert_ne|
     rewrite ?set_references_eq, ?fn_lookup_insert; pose proof (ok_refs ext s H p nd E); lia..|done].
  - assert (H0 : ext p = 1 /\ of_store s p = 0) by (unfold of_store in *; case_decide; lia). destruct H0 as [He H0].
    pose proof H as [H1 H2 H3 H4 H5 H6]. destruct s as [h t n a c o ty]; cbn [ns_nodes ns_tree ns_size set_nodes] in *.
    constructor; cbn [ns_nodes ns_tree ns_size]; try done.
    + intros e Hin. destruct (H3 e Hin) as (Hb & nd0 & E0 & Ek). split; [done|]. exists nd0.
      rewrite lookup_delete_ne; [done|]. intros ->. unfold of_store in H0. cbn [ns_tree] in H0.
      rewrite decide_True in H0; [done|]. apply list_elem_of_fmap. by exists e.
    + intros q. unfold base.insert, fn_insert. destruct (decide (p = q)) as [<-|]; [lia|apply H4].
    + intros q x [Hq Ex]%lookup_delete_Some. rewrite fn_lookup_insert_ne by done. by apply H5.
    + intros q. rewrite lookup_delete_None. unfold base.insert, fn_insert. destruct (decide (p = q)) as [<-|Hq]; [lia|].
      intros [?|Eq]; [done|by apply H6].
  - intros q x. destruct s as [h t n a c o ty]; cbn [ns_nodes set_nodes]. intros [Hq Ex]%lookup_delete_Some. by exists x.
Qed.

(** ** Changing the tree *)

Lemma sorted_NoDup (l : list (Z * Z)) : StronglySorted (lt_key fst) l -> NoDup (fst <$> l).
Proof.
  induction 1 as [|e l Hs IH Hf]; cbn; [constructor|]. constructor; [|done]. intros (x & Ex & Hx)%list_elem_of_fmap.
  rewrite Forall_forall in Hf. specialize (Hf x Hx). unfold lt_key in Hf. lia.
Qed.
Lemma ids_bound (l : list Z) : NoDup l -> (forall x, x ∈ l -> 0 < x < 2 ^ 32) -> Z.of_nat (length l) < 2 ^ 32.
Proof.
  intros Hn Hb. assert (H : (length l <= length (seqZ 1 (2 ^ 32 - 1)))%nat).
  { apply submseteq_length, NoDup_submseteq; [done|]. intros x Hx%Hb. apply elem_of_seqZ. lia. }
  rewrite length_seqZ in H. lia.
Qed.

(** The tree becomes [t], with the elements that [s] had, plus or minus one. *)
Lemma set_tree_ok ext ext' s t : store_ok ext s -> rb_sorted fst t ->
  (forall e, e ∈ inorder t -> 0 < fst e < 2 ^ 32 /\ exists nd, ns_nodes s !! snd e = Some nd /\ nd_numID nd = fst e) ->
  (forall p, 0 <= ext' p) ->
  (forall p, ext' p + (if decide (p ∈ snd <$> inorder t) then 1 else 0) = ext p + of_store s p) ->
  let s' := set_nodeTree t (u32 (Z.of_nat (length (inorder t)))) s in
  store_ok ext' s' /\ keeps_ids s s'.
Proof.
  intros [H1 H2 H3 H4 H5 H6] Hs Hids Hext Hrefs. destruct s as [h t0 n a c o ty]. cbn [set_nodeTree ns_nodes] in *.
  split; [constructor|]; cbn [ns_nodes ns_tree ns_size]; try done.
  - rewrite u32_id; [done|]. unfold in_u. split; [lia|]. rewrite <- (length_fmap fst). apply ids_bound; [by apply sorted_NoDup|].
    intros x (e & -> & He)%list_elem_of_fmap. by apply Hids.
  - intros p nd E. change (of_store (mkNodeStore h t _ a c o ty) p) with (if decide (p ∈ snd <$> inorder t) then 1 else 0).
    rewrite Hrefs. by apply H5.
  - intros p E. specialize (H6 p E). specialize (Hext p). specialize (Hrefs p).
    assert (H0 : of_store (mkNodeStore h t0 n a c o ty) p = 0).
    { unfold of_store. rewrite decide_False; [done|]. intros (e & -> & He)%list_elem_of_fmap.
      destruct (H3 e He) as (_ & nd & E' & _). congruence. }
    case_decide; lia.
  - intros p nd E. by exists nd.
Qed.

Lemma insert_ok ext p nd s : store_ok ext s -> 0 < ext p -> ns_nodes s !! p = Some nd -> 0 < nd_numID nd < 2 ^ 32 ->
  node_of s (nd_numID nd) = None ->
  swp (NodeTree_insert (nd_numID nd) p) (fun _ s' => store_ok (<[p := ext p - 1]> ext) s' /\ keeps_ids s s' /\
    ns_nodes s' = ns_nodes s /\ ns_rootOwner s' = ns_rootOwner s /\
    forall k, node_of s' k = if decide (k = nd_numID nd) then Some p else node_of s k) s.
Proof.
  intros H Hp E Hid Hn. unfold NodeTree_insert. sstep. eapply swp_lift; [apply link_node_rb; intros e He; apply (ok_ids ext s H e He)|].
  pose proof (rb_link_spec fst (ns_tree s) (nd_numID nd, p) (ok_sorted ext s H)) as HL.
  assert (Hnew : forall e, e ∈ inorder (ns_tree s) -> fst e <> nd_numID nd).
  { intros [k q] He Ek. cbn in Ek. subst k. apply (node_of_in ext) in He; [|done]. congruence. }
  destruct (rb_link fst (ns_tree s) _) as [t|]; [|destruct HL as (e & He & Ek); by destruct (Hnew e He)].
  destruct HL as (Hst & Hperm & _). sstep. apply swp_ret.
  assert (Hpn : p ∉ snd <$> inorder (ns_tree s)).
  { intros ([k q] & -> & He)%list_elem_of_fmap. destruct (ok_ids ext s H _ He) as (_ & nd' & E' & Ek). cbn [fst snd] in *.
    assert (nd' = nd) as -> by congruence. by destruct (Hnew (k, q) He). }
  assert (Hin : forall e, e ∈ inorder (rb_insert_color t) <-> e = (nd_numID nd, p) \/ e ∈ inorder (ns_tree s)).
  { intros e. rewrite rb_insert_color_inorder, Hperm. apply elem_of_cons. }
  assert (Hlen : Z.of_nat (length (inorder (rb_insert_color t))) = ns_size s + 1).
  { rewrite rb_insert_color_inorder, Hperm, (ok_size ext s H). cbn [length]. lia. }
  assert (Hs' : rb_sorted fst (rb_insert_color t)) by (unfold rb_sorted; by rewrite rb_insert_color_inorder).
  rewrite <- Hlen. destruct (set_tree_ok ext (<[p := ext p - 1]> ext) s (rb_insert_color t) H Hs') as [Hok Hk].
  - intros e [->|He]%Hin; [split; [done|by exists nd]|by apply (ok_ids ext s H)].
  - intros q. unfold base.insert, fn_insert. destruct (decide (p = q)) as [<-|]; [lia|apply (ok_ext ext s H)].
  - intros q. assert (Hq : q ∈ snd <$> inorder (rb_insert_color t) <-> q = p \/ q ∈ snd <$> inorder (ns_tree s)).
    { rewrite rb_insert_color_inorder, Hperm, fmap_cons. apply elem_of_cons. }
    unfold of_store, base.insert, fn_insert. destruct (decide (p = q)) as [<-|Hpq].
    + rewrite decide_True, decide_False by tauto. lia.
    + f_equal. apply decide_ext. rewrite Hq. split; [intros [?|?]; [congruence|done]|by right].
  - split_and!; [done|done|by destruct s|by destruct s|]. intros k. apply option_eq. intros q.
    rewrite (node_of_in (<[p := ext p - 1]> ext)) by done. destruct s as [h t0 n a c o ty]. cbn [ns_tree set_nodeTree] in *.
    rewrite Hin. destruct (decide (k = nd_numID nd)) as [->|Hk'].
    + split; [intros [[= ->]|He]; [done|by destruct (Hnew _ He)]|intros [= ->]; by left].
    + rewrite (node_of_in ext) by done. cbn [ns_tree]. split; [intros [[=]|?]; [congruence|done]|by right].
Qed.

Lemma erase_ok ext id s : store_ok ext s ->
  swp (NodeTree_erase id) (fun ok s' => store_ok ext s' /\ keeps_ids s s' /\ ok = bool_decide (is_Some (node_of s id)) /\
    ns_rootOwner s' = ns_rootOwner s /\ forall k, node_of s' k = if decide (k = id) then None else node_of s k) s.
Proof.
  intros H. unfold NodeTree_erase. apply swp_bind. eapply swp_mono; [by apply (find_spec ext)|]. intros ? s0 (-> & ->).
  destruct (node_of s id) as [p|] eqn:En.
  2:{ apply swp_ret. split_and!; [done|apply keeps_refl|by rewrite bool_decide_false by (by intros [? ?])|done|].
      intros k. by destruct (decide (k = id)) as [->|]. }
  destruct (node_of_node ext s id p H En) as (Hid & Hof & nd & E & Enid).
  pose proof En as Hin. apply (node_of_in ext) in Hin; [|done].
  destruct (rb_erase_map fst (ns_tree s) (id, p) (ok_sorted ext s H)) as [Hs' _]. unfold rb_erase_elem in Hs'. cbn [fst] in Hs'.
  assert (Hels : forall e, e ∈ inorder (rb_erase id (ns_tree s)) <-> fst e <> id /\ e ∈ inorder (ns_tree s)).
  { intros e. by rewrite rb_erase_inorder, list_elem_of_filter. }
  assert (Hperm : inorder (ns_tree s) ≡ₚ (id, p) :: inorder (rb_erase id (ns_tree s))).
  { apply NoDup_Permutation.
    - eapply NoDup_fmap_1, sorted_NoDup, H.
    - constructor; [rewrite Hels; by intros [? _]|eapply NoDup_fmap_1, sorted_NoDup, Hs'].
    - intros [k q]. rewrite elem_of_cons, Hels. cbn [fst]. split; [|by intros [[= -> ->]|[_ ?]]].
      intros He. destruct (decide (k = id)) as [->|]; [left|by right]. f_equal.
      apply (node_of_in ext) in He; [|done]. congruence. }
  assert (Hlen : Z.of_nat (length (inorder (rb_erase id (ns_tree s)))) = ns_size s - 1).
  { pose proof (f_equal Z.of_nat (Permutation_length Hperm)) as Hl. cbn [length] in Hl. rewrite (ok_size ext s H). lia. }
  apply swp_bind, swp_mod. cbn beta. apply swp_bind. rewrite <- Hlen.
  destruct (set_tree_ok ext (<[p := ext p + 1]> ext) s (rb_erase id (ns_tree s)) H Hs') as [Hok Hk].
  - intros e [_ He]%Hels. by apply (ok_ids ext s H).
  - intros q. pose proof (ok_ext ext s H q). unfold base.insert, fn_insert. destruct (decide (p = q)) as [<-|]; lia.
  - assert (Hnp : p ∉ snd <$> inorder (rb_erase id (ns_tree s))).
    { intros ([k q] & -> & [Hk He]%Hels)%list_elem_of_fmap. destruct (ok_ids ext s H _ He) as (_ & nd' & E' & Ek).
      cbn [fst snd] in *. congruence. }
    intros q. assert (Hq : q ∈ snd <$> inorder (ns_tree s) <-> q = p \/ q ∈ snd <$> inorder (rb_erase id (ns_tree s))).
    { rewrite Hperm at 1. rewrite fmap_cons. apply elem_of_cons. }
    unfold of_store, base.insert, fn_insert. destruct (decide (p = q)) as [<-|Hpq].
    + rewrite (decide_False (P := p ∈ snd <$> inorder (rb_erase id (ns_tree s)))) by done. rewrite decide_True by tauto. lia.
    + f_equal. apply decide_ext. rewrite Hq. split; [by right|intros [?|?]; [congruence|done]].
  - eapply swp_mono; [apply (Node_put_spec _ p _ Hok); rewrite fn_lookup_insert; pose proof (ok_ext ext s H p); lia|].
    intros ? s2 (Hok2 & Hk2 & Hst). apply swp_ret. split_and!.
    + eapply ok_pointwise; [|exact Hok2]. intros q. unfold base.insert, fn_insert.
      destruct (decide (p = q)) as [<-|]; [|done]. rewrite decide_True by done. lia.
    + eapply keeps_trans; [exact Hk|exact Hk2].
    + by rewrite bool_decide_true.
    + destruct Hst as (_ & -> & _). by destruct s.
    + intros k. rewrite (same_node_of _ _ Hst). apply option_eq. intros q.
      rewrite (node_of_in (<[p := ext p + 1]> ext)) by done. destruct s as [h t0 n ap c o ty]. cbn [ns_tree set_nodeTree] in *.
      rewrite Hels. cbn [fst]. destruct (decide (k = id)) as [->|Hk']; [split; [tauto|done]|].
      rewrite (node_of_in ext) by done. tauto.
Qed.

(** ** The operations *)

Lemma on_node_ok ext p f s : store_ok ext s -> is_Some (ns_nodes s !! p) ->
  (forall nd, nd_numID (f nd) = nd_numID nd /\ nd_references (f nd) = nd_references nd) ->
  swp (on_node p f) (fun _ s' => store_ok ext s' /\ keeps_ids s s' /\ same_tree s s') s.
Proof.
  intros H [nd E] Hf. unfold on_node, get_node, put_node. sstep. eapply swp_lift; [by rewrite E|]. sstep.
  destruct (Hf nd) as [H1 H2]. pose proof (ok_refs ext s H p nd E) as [Hr0 Hr].
  destruct (replace_node_ok ext ext s p nd (f nd)) as [Hok Hk]; [done|done|done|done|by apply (ok_ext ext s H)|lia|lia|].
  split_and!; [done|done|apply same_set_nodes].
Qed.

Lemma updateInterfaces_keeps u t nics nd :
  exists r, Node_updateInterfaces u t nics nd = Done r /\ nd_numID (snd r) = nd_numID nd /\ nd_references (snd r) = nd_references nd.
Proof.
  unfold Node_updateInterfaces, NodeConnPool_updateInterfaces. cbn [mbind outcome_bind]. eexists. split; [done|]. cbn [snd].
  destruct nd as [i n ty st p pu h a r]. cbn. by destruct (negb _ && negb _).
Qed.

Definition added_to s (nd : NodeObject) (p k : Z) : Prop := k = nd_numID nd /\ k <> 0 /\ node_of s k = None.

#[local] Instance added_dec s nd p k : Decision (added_to s nd p k).
Proof. unfold added_to. apply _. Defined.

Lemma addOrUpdate_ok now ext p nd s : store_ok ext s -> 0 < ext p -> ns_nodes s !! p = Some nd -> 0 <= nd_numID nd < 2 ^ 32 ->
  swp (NodeStoreEx_addOrUpdateNode now p) (fun r s' => store_ok (<[p := ext p - 1]> ext) s' /\ keeps_ids s s' /\
    ns_rootOwner s' = ns_rootOwner s /\ r = bool_decide (added_to s nd p (nd_numID nd)) /\
    forall k, node_of s' k = if decide (added_to s nd p k) then Some p else node_of s k) s.
Proof.
  intros H Hp E Hid. unfold NodeStoreEx_addOrUpdateNode. apply swp_bind. unfold get_node at 1. sstep. eapply swp_lift; [by rewrite E|].
  assert (Hrefuse : node_of s (nd_numID nd) <> None \/ nd_numID nd = 0 -> forall k, ~ added_to s nd p k).
  { intros Hr k (-> & Hk0 & Hk). by destruct Hr. }
  destruct (Z.eqb_spec (nd_numID nd) 0) as [E0|E0].
  { apply swp_bind. eapply swp_mono; [by apply Node_put_spec|]. intros ? s1 (H1 & Hk1 & Hst). apply swp_ret.
    split_and!; [done|done|apply Hst|by rewrite bool_decide_false by auto|]. intros k. rewrite decide_False by auto. by apply same_node_of. }
  apply swp_bind. eapply swp_mono; [by apply (find_spec ext)|]. intros ? s0 (-> & ->).
  destruct (node_of s (nd_numID nd)) as [a|] eqn:En.
  - destruct (node_of_node ext s _ a H En) as (_ & Hof & old & Ea & Eid). apply swp_bind. unfold get_node at 1. sstep.
    eapply swp_lift; [by rewrite Ea|]. apply swp_bind.
    eapply (swp_mono _ (fun _ s' => store_ok ext s' /\ keeps_ids s s' /\ same_tree s s')).
    { case_bool_decide as Hsame; [|apply swp_ret; split_and!; [done|apply keeps_refl|done..]].
      destruct (updateInterfaces_keeps (nd_portUDP nd) (Node_getPortTCP nd) (Node_getNicList nd) (Node_updateLastHeartbeatT now old))
        as ([ch old'] & Eu & Hn & Hr). cbn [snd] in Hn, Hr. apply swp_bind. eapply swp_lift; [exact Eu|]. cbn beta iota.
      assert (Hn' : nd_numID old' = nd_numID old) by (rewrite Hn; by destruct old).
      assert (Hr' : nd_references old' = nd_references old) by (rewrite Hr; by destruct old).
      pose proof (ok_refs ext s H a old Ea) as [Hr0 Hra]. unfold put_node. apply swp_mod.
      destruct (replace_node_ok ext ext s a old old') as [Hok Hk]; [done..|by apply (ok_ext ext s H)|lia|lia|].
      split_and!; [done|done|apply same_set_nodes]. }
    intros ? s1 (H1 & Hk1 & Hst1). apply swp_bind. eapply swp_mono; [by apply Node_put_spec|].
    intros ? s2 (H2 & Hk2 & Hst2). apply swp_ret.
    split_and!; [done|by eapply keeps_trans|destruct Hst1 as (_ & <- & _), Hst2 as (_ & <- & _); done| |].
    + rewrite bool_decide_false; [done|]. apply Hrefuse. by left.
    + intros k. rewrite decide_False by (apply Hrefuse; by left). by rewrite (same_node_of _ _ Hst2), (same_node_of _ _ Hst1).
  - apply swp_bind. eapply swp_mono; [apply insert_ok; [done|done|done|lia|done]|].
    intros ? s1 (H1 & Hk1 & Enodes & Eown & Hnode). apply swp_bind, swp_get. apply swp_bind.
    eapply swp_mono; [apply (on_node_ok (<[p := ext p - 1]> ext) p); [exact H1|rewrite Enodes; by eexists|intros x; by destruct x]|].
    intros ? s2 (H2 & Hk2 & Hst2). apply swp_bind.
    eapply (swp_mono _ (fun _ s' => store_ok (<[p := ext p - 1]> ext) s' /\ keeps_ids s2 s' /\ ns_tree s' = ns_tree s2 /\ ns_rootOwner s' = ns_rootOwner s2)).
    { destruct (ns_newNodeAppeared s1) as [c|]; [apply swp_mod|apply swp_ret]; [|split_and!; [done|apply keeps_refl|done..]].
      destruct s2 as [h t n ap co o ty]. destruct H2. cbn [set_completed]. split_and!; [by constructor|intros q x Hx; by exists x|done..]. }
    intros ? s3 (H3 & Hk3 & Et & Eo). apply swp_ret. split_and!.
    + done.
    + eapply keeps_trans; [exact Hk1|]. by eapply keeps_trans.
    + destruct Hst2 as (_ & Eo2 & _). congruence.
    + rewrite bool_decide_true; [done|]. by split_and!.
    + intros k. unfold node_of at 1, by_id. rewrite Et. fold (by_id s2). fold (node_of s2 k). rewrite (same_node_of _ _ Hst2), Hnode.
      unfold added_to. destruct (decide (k = nd_numID nd)) as [->|Hk]; [by rewrite decide_True|].
      rewrite decide_False; [done|]. by intros [? _].
Qed.

Definition ext_add (ext : Z -> Z) (r : option Z) : Z -> Z :=
  match r with Some p => <[p := ext p + 1]> ext | None => ext end.

Lemma reference_ok ext r s : store_ok ext s -> (forall p, r = Some p -> exists k, node_of s k = Some p) ->
  swp (reference r) (fun r' s' => r' = r /\ store_ok (ext_add ext r) s' /\ keeps_ids s s' /\ same_tree s s') s.
Proof.
  intros H Hr. unfold reference. destruct r as [p|]; [|apply swp_ret; split_and!; [done|done|apply keeps_refl|done..]].
  destruct (Hr p eq_refl) as [k Hk]. destruct (node_of_node ext s k p H Hk) as (_ & Hof & nd & E & _).
  apply swp_bind. eapply swp_mono; [apply Node_get_spec; [exact H|pose proof (ok_ext ext s H p); lia|by eexists]|].
  intros ? s1 (H1 & Hk1 & Hst). apply swp_ret. by split_and!.
Qed.

Lemma referenceNode_ok ext id s : store_ok ext s ->
  swp (NodeStoreEx_referenceNode id) (fun r s' => r = node_of s id /\ store_ok (ext_add ext r) s' /\ keeps_ids s s' /\ same_tree s s') s.
Proof.
  intros H. unfold NodeStoreEx_referenceNode. apply swp_bind. eapply swp_mono; [by apply (find_spec ext)|]. intros ? s0 (-> & ->).
  eapply swp_mono; [apply reference_ok; [exact H|intros p Hp; by exists id]|]. intros r s1 (-> & Hr). by split.
Qed.

Definition first_node s (P : Z -> Prop) (r : option Z) : Prop :=
  match r with
  | Some p => exists k, node_of s k = Some p /\ P k /\ forall j, is_Some (node_of s j) -> P j -> k <= j
  | None => forall j, is_Some (node_of s j) -> ~ P j
  end.

Lemma sorted_first ext s (l : list (Z * Z)) (P : Z -> Prop) : store_ok ext s -> StronglySorted (lt_key fst) l ->
  (forall e, e ∈ l <-> e ∈ inorder (ns_tree s) /\ P (fst e)) -> first_node s P (snd <$> head l).
Proof.
  intros H Hs Hl. destruct l as [|[k p] l]; cbn [head fmap option_fmap option_map first_node].
  - intros j [q Hq%(node_of_in ext)] HP; [|done]. eapply not_elem_of_nil, Hl. by split.
  - destruct (proj1 (Hl (k, p))) as [Hin HP]; [by left|]. exists k. split_and!; [by apply (node_of_in ext)|done|].
    intros j [q Hq%(node_of_in ext)] HP'; [|done]. assert (Hj : (j, q) ∈ (k, p) :: l) by (apply Hl; by split).
    apply elem_of_cons in Hj as [[= -> _]|Hj]; [lia|]. inversion Hs as [|? ? _ Hf]; subst. rewrite Forall_forall in Hf.
    specialize (Hf _ Hj). unfold lt_key in Hf. cbn in Hf. lia.
Qed.

Lemma first_ok ext s : store_ok ext s ->
  swp NodeStoreEx_referenceFirstNode (fun r s' => first_node s (fun _ => True) r /\ store_ok (ext_add ext r) s' /\ keeps_ids s s' /\ same_tree s s') s.
Proof.
  intros H. unfold NodeStoreEx_referenceFirstNode. apply swp_bind, swp_get. rewrite rb_iter_inorder.
  assert (Hf : first_node s (fun _ => True) (snd <$> head (inorder (ns_tree s)))) by (eapply sorted_first; [exact H|apply H|naive_solver]).
  eapply swp_mono; [apply reference_ok; [exact H|]|].
  - intros p Ep. rewrite Ep in Hf. destruct Hf as (k & Hk & _). by exists k.
  - intros r s1 (-> & Hr). by split.
Qed.

Lemma node_after_spec (k p : Z) (l : list (Z * Z)) : StronglySorted (lt_key fst) l -> (k, p) ∈ l ->
  (forall e, e ∈ l -> snd e = p -> fst e = k) ->
  exists l2, node_after p l = Done (head l2) /\ StronglySorted (lt_key fst) l2 /\ forall e, e ∈ l2 <-> e ∈ l /\ k < fst e.
Proof.
  induction 1 as [|y l Hs IH Hf]; [by intros ?%not_elem_of_nil|]. rewrite Forall_forall in Hf. unfold lt_key in Hf.
  intros Hin Hinj. cbn [node_after]. destruct (Z.eqb_spec (snd y) p) as [Ey|Ey].
  - assert (Eyk : fst y = k) by (apply Hinj; [by left|done]). exists l. split_and!; [done..|]. intros e. rewrite elem_of_cons. split.
    + intros He. split; [by right|]. rewrite <- Eyk. by apply Hf.
    + intros [[->|He] Hlt]; [lia|done].
  - apply elem_of_cons in Hin as [<-|Hin]; [done|]. destruct IH as (l2 & -> & Hs2 & H2); [done|intros e He; apply Hinj; by right|].
    exists l2. split_and!; [done..|]. intros e. rewrite H2, elem_of_cons. split; [intros [? ?]; auto|].
    intros [[->|He] Hlt]; [specialize (Hf _ Hin); cbn in Hf; lia|done].
Qed.

Lemma next_ok ext k old s : store_ok ext s -> node_of s k = Some old -> 0 < ext old ->
  swp (NodeStoreEx_referenceNextNodeAndReleaseOld old) (fun r s' => first_node s (fun j => k < j) r /\
    store_ok (<[old := ext_add ext r old - 1]> (ext_add ext r)) s' /\ keeps_ids s s' /\ same_tree s s') s.
Proof.
  intros H Hk Hp. unfold NodeStoreEx_referenceNextNodeAndReleaseOld, NodeTree_getNext.
  apply swp_bind. apply swp_bind, swp_get. apply swp_bind. rewrite rb_iter_inorder.
  destruct (node_after_spec k old (inorder (ns_tree s))) as (l2 & E & Hs2 & Hl2); [apply H|by apply (node_of_in ext)| |].
  { intros [k' q] He Eq. cbn in Eq. subst q. destruct (ok_ids ext s H _ He) as (_ & nd & Ee & Ek).
    destruct (node_of_node ext s k old H Hk) as (_ & _ & nd' & E' & Ek'). cbn in *. congruence. }
  eapply swp_lift; [exact E|]. apply swp_ret. pose proof (sorted_first ext s l2 (fun j => k < j) H Hs2 Hl2) as Hf.
  apply swp_bind. eapply swp_mono; [apply reference_ok; [exact H|]|].
  { intros p Ep. rewrite Ep in Hf. destruct Hf as (k' & Hk' & _). by exists k'. }
  intros r s1 (-> & H1 & Hk1 & Hst1). apply swp_bind.
  eapply swp_mono; [apply Node_put_spec; [exact H1|]|].
  { unfold ext_add. destruct (snd <$> head l2) as [p|]; [|done]. unfold base.insert, fn_insert. destruct (decide (p = old)) as [->|]; lia. }
  intros ? s2 (H2 & Hk2 & Hst2). apply swp_ret. unfold same_tree in *. split_and!; [done|done|by eapply keeps_trans|..];
    destruct Hst1 as (? & ? & ? & ?), Hst2 as (? & ? & ? & ?); congruence.
Qed.
End Store.
