(* ===== verification/NodeStoreProps.v ===== *)
(** * The node stores: synchronisation, and all interleavings of their users *)

From stdpp Require Import sorting functions strings.
From S2P Require Import Prelude StateMonad Serialization SerializationLists EntryInfo StorageErrors RBTree.
From S2P Require Import TargetMapper MirrorBuddyGroupMapper NodeConnPool NodeStore NodeStoreInv.

Lemma filter_iff_in {A} (P Q : A -> Prop) `{!forall x, Decision (P x)} `{!forall x, Decision (Q x)} (l : list A) :
  (forall x, x ∈ l -> P x <-> Q x) -> filter P l = filter Q l.
Proof.
  induction l as [|x l IH]; intros Hiff; [done|]. rewrite !filter_cons.
  rewrite IH by (intros y Hy; apply Hiff; by right). pose proof (Hiff x ltac:(by left)). do 2 case_decide; tauto.
Qed.

Section Sync.
Context `{K : KernelRBTree (Z * Z) fst}.
Implicit Types s : NodeStoreEx.

Definition has_id (h : gmap Z NodeObject) (p id : Z) : Prop := exists nd, h !! p = Some nd /\ nd_numID nd = id.

(** ** The first phase *)

Lemma lt_not_in (i : Z) (l : list Z) : (forall k, k ∈ l -> i < k) -> i ∉ l.
Proof. intros H Hi%H. lia. Qed.

Lemma sync_merge_spec h (active : list (Z * Z)) (masterList ids : list Z) :
  StronglySorted (lt_key fst) active -> Forall (fun e => has_id h (snd e) (fst e)) active ->
  Forall2 (has_id h) masterList ids -> StronglySorted Z.lt ids ->
  sync_merge h active masterList =
    Done (filter (.∉ fst <$> active) ids, filter (.∉ ids) (fst <$> active), masterList).
Proof.
  intros Hs Ha. revert masterList ids. induction Hs as [|a active Hs IH Hlt]; intros masterList ids Hm Hi.
  - induction Hm as [|m i masterList ids (nd & E & En) Hm IHm]; [done|]. inversion Hi as [|? ? Hi' _]; subst.
    cbn [sync_merge] in *. rewrite E. cbn [of_option mbind outcome_bind]. rewrite IHm by done. cbn [mbind outcome_bind fmap list_fmap].
    by rewrite filter_cons_True by apply not_elem_of_nil.
  - inversion Ha as [|? ? (an & Ea & Ean) Ha']; subst. specialize (IH Ha').
    assert (Hkeys : forall k, k ∈ fst <$> active -> fst a < k).
    { intros k (e & -> & He)%list_elem_of_fmap. rewrite Forall_forall in Hlt. by apply (Hlt e). }
    induction Hm as [|m i masterList ids (nd & E & En) Hm IHm].
    + cbn [sync_merge]. rewrite Ea. cbn [of_option mbind outcome_bind]. rewrite (IH [] []) by constructor. cbn [mbind outcome_bind].
      rewrite fmap_cons, filter_cons_True by apply not_elem_of_nil. by rewrite Ean.
    + inversion Hi as [|? ? Hi' Hil]; subst. rewrite Forall_forall in Hil. specialize (IHm Hi').
      change (sync_merge h (a :: active) (m :: masterList)) with
        (an ← of_option (h !! snd a);
         mn ← of_option (h !! m);
         if nd_numID mn <? nd_numID an then
           '(added, removed, later) ← sync_merge h (a :: active) masterList; Done (nd_numID mn :: added, removed, m :: later)
         else if nd_numID an <? nd_numID mn then
           '(added, removed, later) ← sync_merge h active (m :: masterList); Done (added, nd_numID an :: removed, later)
         else '(added, removed, later) ← sync_merge h active masterList; Done (added, removed, m :: later)).
      rewrite Ea, E. cbn [of_option mbind outcome_bind]. rewrite Ean.
      destruct (Z.ltb_spec (nd_numID nd) (fst a)) as [H1|H1]; [|destruct (Z.ltb_spec (fst a) (nd_numID nd)) as [H2|H2]].
      * rewrite IHm. cbn [mbind outcome_bind].
        assert (Hni : nd_numID nd ∉ fst <$> a :: active).
        { apply lt_not_in. intros k [->|Hk%Hkeys]%elem_of_cons; lia. }
        rewrite filter_cons_True by done. do 3 f_equal. apply filter_iff_in. intros k Hk.
        rewrite not_elem_of_cons. split; [intros ?; split; [by intros ->|done]|tauto].
      * rewrite (IH (m :: masterList) (nd_numID nd :: ids)); [|constructor; [by exists nd|done]|done]. cbn [mbind outcome_bind].
        assert (Hni : fst a ∉ nd_numID nd :: ids).
        { apply lt_not_in. intros k [->|Hk%Hil]%elem_of_cons; lia. }
        rewrite fmap_cons, (filter_cons_True (.∉ nd_numID nd :: ids)) by done. do 3 f_equal. apply filter_iff_in. intros k Hk.
        rewrite not_elem_of_cons. split; [intros ?; split; [by intros ->|done]|tauto].
      * assert (Hx : nd_numID nd = fst a) by lia. rewrite (IH masterList ids) by done. cbn [mbind outcome_bind].
        rewrite fmap_cons, Hx, filter_cons_False by (rewrite not_elem_of_cons; tauto).
        rewrite (filter_cons_False (.∉ fst a :: ids)) by (rewrite not_elem_of_cons; tauto). do 3 f_equal.
        -- apply filter_iff_in. intros k Hk. specialize (Hil k Hk). rewrite not_elem_of_cons. split; [intros ?; split; [lia|done]|tauto].
        -- apply filter_iff_in. intros k Hk. specialize (Hkeys k Hk). rewrite not_elem_of_cons. split; [intros ?; split; [lia|done]|tauto].
Qed.

(** ** The second phase *)

Lemma remove_all ext (ids : list Z) s : store_ok ext s ->
  swp (each_node ids remove_node) (fun _ s' => store_ok ext s' /\ keeps_ids s s' /\ ns_rootOwner s' = ns_rootOwner s /\
    forall k, node_of s' k = if decide (k ∈ ids) then None else node_of s k) s.
Proof.
  revert s. induction ids as [|id ids IH]; intros s H; cbn [each_node].
  - apply swp_ret. split_and!; [done|apply keeps_refl|done|]. intros k. by rewrite decide_False by apply not_elem_of_nil.
  - apply swp_bind. unfold remove_node at 1. apply swp_bind. eapply swp_mono; [by apply (erase_ok ext)|].
    intros ? s1 (H1 & Hk1 & _ & Ho1 & Hn1). apply swp_ret. eapply swp_mono; [by apply IH|].
    intros ? s2 (H2 & Hk2 & Ho2 & Hn2). split_and!; [done|by eapply keeps_trans|congruence|].
    intros k. rewrite Hn2, Hn1. destruct (decide (k ∈ ids)); [by rewrite decide_True by (by right)|].
    destruct (decide (k = id)) as [->|]; [by rewrite decide_True by (by left)|]. by rewrite decide_False by (rewrite not_elem_of_cons; tauto).
Qed.

Definition minus (ext : Z -> Z) (l : list Z) (p : Z) : Z := ext p - if decide (p ∈ l) then 1 else 0.

Lemma has_id_kept ext s s' p id : store_ok ext s' -> keeps_ids s s' -> 0 < ext p ->
  has_id (ns_nodes s) p id -> has_id (ns_nodes s') p id.
Proof.
  intros H Hk Hp (nd & E & En). destruct (exists_of_ext ext s' p H Hp) as [nd' E']. exists nd'. split; [done|].
  destruct (Hk p nd' E') as (nd2 & E2 & ->). congruence.
Qed.

Lemma add_later_ok now localNode ext p id s : store_ok ext s -> 0 < ext p -> has_id (ns_nodes s) p id -> 0 < id < 2 ^ 32 ->
  swp (add_later now localNode p) (fun _ s' => store_ok (<[p := ext p - 1]> ext) s' /\ keeps_ids s s' /\
    ns_rootOwner s' = ns_rootOwner s /\
    forall k, node_of s' k = if decide (k = id /\ node_of s id = None) then Some p else node_of s k) s.
Proof.
  intros H Hp Hid Hr. unfold add_later. apply swp_bind.
  eapply (swp_mono _ (fun _ s' => store_ok ext s' /\ keeps_ids s s' /\ same_tree s s')).
  { destruct localNode as [local|]; [|apply swp_ret; split_and!; [done|apply keeps_refl|done..]].
    apply on_node_ok; [done|destruct Hid as (nd & E & _); by eexists|]. intros nd. by destruct nd. }
  intros ? s1 (H1 & Hk1 & Hst). destruct (has_id_kept ext s s1 p id H1 Hk1 Hp Hid) as (nd & E & En). apply swp_bind.
  eapply swp_mono; [apply addOrUpdate_ok; [exact H1|done|exact E|lia]|].
  intros ? s2 (H2 & Hk2 & Ho & _ & Hn). apply swp_ret. split_and!; [done|by eapply keeps_trans|destruct Hst as (_ & <- & _); done|].
  intros k. rewrite Hn, (same_node_of _ _ Hst).
  assert (Hiff : added_to s1 nd p k <-> k = id /\ node_of s id = None).
  { unfold added_to. rewrite En, (same_node_of _ _ Hst). split; [intros (-> & _ & ?); done|].
    intros (-> & ?). split_and!; [done|lia|done]. }
  destruct (decide (added_to s1 nd p k)) as [Ha|Ha]; [rewrite decide_True by tauto|rewrite decide_False by tauto]; done.
Qed.

Lemma add_all now localNode (later ids : list Z) ext s : store_ok ext s -> Forall2 (has_id (ns_nodes s)) later ids ->
  NoDup ids -> (forall p, p ∈ later -> 0 < ext p) -> (forall i, i ∈ ids -> 0 < i < 2 ^ 32) ->
  swp (each_node later (add_later now localNode)) (fun _ s' => store_ok (minus ext later) s' /\ keeps_ids s s' /\
    ns_rootOwner s' = ns_rootOwner s /\
    (forall k, k ∉ ids -> node_of s' k = node_of s k) /\
    (forall n p i, later !! n = Some p -> ids !! n = Some i -> node_of s' i = Some (default p (node_of s i)))) s.
Proof.
  revert ids ext s. induction later as [|p later IH]; intros ids ext s H Hf Hn Hext Hr; cbn [each_node].
  - apply swp_ret. split_and!; [|apply keeps_refl|done|done|done]. eapply ok_pointwise; [|exact H]. intros q. unfold minus.
    rewrite decide_False by apply not_elem_of_nil. lia.
  - inversion Hf as [|? i ? ids' Hid Hf']; subst. apply NoDup_cons in Hn as [Hni Hn'].
    assert (Hpl : p ∉ later).
    { intros [n E]%list_elem_of_lookup. destruct (Forall2_lookup_l _ _ _ _ _ Hf' E) as (i' & E' & Hid').
      destruct Hid as (nd & E1 & <-), Hid' as (nd' & E2 & <-). assert (nd' = nd) as -> by congruence.
      apply Hni, list_elem_of_lookup. by exists n. }
    apply swp_bind. eapply swp_mono; [apply (add_later_ok now localNode ext p i); [done|apply Hext; by left|done|apply Hr; by left]|].
    intros ? s1 (H1 & Hk1 & Ho1 & Hn1).
    assert (Hext1 : forall q, q ∈ later -> 0 < (<[p := ext p - 1]> ext : Z -> Z) q).
    { intros q Hq. rewrite fn_lookup_insert_ne by (by intros ->). apply Hext. by right. }
    eapply swp_mono; [apply (IH ids'); [exact H1| |done|done|intros j Hj; apply Hr; by right]|].
    { apply Forall2_same_length_lookup_2; [by eapply Forall2_length|]. intros n q j Eq Ej.
      eapply has_id_kept; [exact H1|done|apply Hext1, list_elem_of_lookup; by exists n|]. by eapply Forall2_lookup_lr. }
    intros ? s2 (H2 & Hk2 & Ho2 & Ha & Hb). split_and!.
    + eapply ok_pointwise; [|exact H2]. intros q. unfold minus. destruct (decide (p = q)) as [<-|Hpq].
      * rewrite fn_lookup_insert, decide_False, decide_True; [lia|by left|done].
      * rewrite fn_lookup_insert_ne by done. f_equal. apply decide_ext. rewrite elem_of_cons. split; [by right|intros [?|?]; [congruence|done]].
    + by eapply keeps_trans.
    + congruence.
    + intros k [Hk Hk']%not_elem_of_cons. rewrite Ha, Hn1 by done. by rewrite decide_False by tauto.
    + intros [|n] q j Eq Ej; cbn in Eq, Ej.
      * injection Eq as <-. injection Ej as <-. rewrite Ha, Hn1 by done. destruct (node_of s i) as [x|]; cbn.
        -- by rewrite decide_False by naive_solver.
        -- by rewrite decide_True.
      * rewrite (Hb n q j Eq Ej), Hn1. assert (Hji : j <> i) by (intros ->; apply Hni, list_elem_of_lookup; by exists n).
        by rewrite decide_False by tauto.
Qed.

Lemma keys_of ext s k : store_ok ext s -> k ∈ fst <$> inorder (ns_tree s) <-> is_Some (node_of s k).
Proof.
  intros H. split.
  - intros ([k' p] & -> & He)%list_elem_of_fmap. exists p. by apply (node_of_in ext).
  - intros [p Hp%(node_of_in ext)]; [|done]. apply list_elem_of_fmap. by exists (k, p).
Qed.
End Sync.

(** C19: synchronising makes the store the list of the management node.  For a
    list that is ordered by its IDs, whose nodes belong to the caller: the IDs that are reported as
    added are those of the list that were not in the store, those reported as removed
    are those of the store that are not in the list; afterwards the store has exactly the IDs of
    the list, a node that was in it already is still the same object, and the
    others are those of the list.  Each reference of the list was used up, and the counters of
    all nodes are right, so nodes that are gone from the store live as long as others use them. *)
Theorem node_sync `{K : KernelRBTree (Z * Z) fst} (now : timespec) (localNode : option NodeObject)
    (ext : Z -> Z) (s : NodeStoreEx) (masterList ids outAddedIDs : list Z) :
  store_ok ext s -> Forall2 (has_id (ns_nodes s)) masterList ids -> StronglySorted Z.lt ids ->
  (forall i, i ∈ ids -> 0 < i < 2 ^ 32) -> (forall p, p ∈ masterList -> 0 < ext p) ->
  exists removed s',
    NodeStoreEx_syncNodes now masterList outAddedIDs [] localNode s =
      Done ((outAddedIDs ++ filter (fun i => node_of s i = None) ids, removed), s') /\
    StronglySorted Z.lt removed /\ (forall i, i ∈ removed <-> is_Some (node_of s i) /\ i ∉ ids) /\
    (forall i, i ∉ ids -> node_of s' i = None) /\
    (forall n p i, masterList !! n = Some p -> ids !! n = Some i -> node_of s' i = Some (default p (node_of s i))) /\
    store_ok (minus ext masterList) s'.
Proof.
  intros H Hm Hs Hr Hext.
  assert (E : syncNodes_phase1 masterList s = Done ((filter (fun i => node_of s i = None) ids,
      filter (.∉ ids) (fst <$> inorder (ns_tree s)), masterList), s)).
  { unfold syncNodes_phase1, mbind, ST_bind. cbn [st_get]. unfold st_lift. rewrite rb_iter_inorder.
    rewrite (sync_merge_spec _ _ _ ids); [|apply H| |done|done].
    - do 4 f_equal. apply filter_iff_in. intros i _. rewrite (keys_of ext) by done. by rewrite eq_None_not_Some.
    - apply Forall_forall. intros e He. by apply (ok_ids ext s H). }
  assert (Hkeys : StronglySorted Z.lt (fst <$> inorder (ns_tree s))).
  { pose proof (ok_sorted ext s H) as Hso. unfold rb_sorted in Hso. clear -Hso. induction Hso as [|e l Hl IH Hf]; cbn; constructor; [done|].
    apply Forall_fmap. eapply Forall_impl; [exact Hf|]. done. }
  exists (filter (.∉ ids) (fst <$> inorder (ns_tree s))).
  enough (swp (NodeStoreEx_syncNodes now masterList outAddedIDs [] localNode) (fun r s' =>
      r = (outAddedIDs ++ filter (fun i => node_of s i = None) ids, filter (.∉ ids) (fst <$> inorder (ns_tree s))) /\
      store_ok (minus ext masterList) s' /\ (forall i, i ∉ ids -> node_of s' i = None) /\
      (forall n p i, masterList !! n = Some p -> ids !! n = Some i -> node_of s' i = Some (default p (node_of s i)))) s)
    as (r & s' & E' & -> & H1 & H2 & H3)%swp_run.
  { exists s'. split_and!; [done| | |done|done|done].
    - clear -Hkeys. induction Hkeys as [|k l Hl IH Hf]; [constructor|]. rewrite filter_cons. case_decide; [|done].
      constructor; [done|]. rewrite Forall_forall in *. intros x [_ Hx]%list_elem_of_filter. by apply Hf.
    - intros i. rewrite list_elem_of_filter, (keys_of ext) by done. tauto. }
  unfold NodeStoreEx_syncNodes. apply swp_bind. unfold swp at 1. rewrite E. cbn beta iota. fold (swp (S := NodeStoreEx) (A := list Z * list Z)).
  rewrite app_nil_l. apply swp_bind. eapply swp_mono; [by apply (remove_all ext)|]. intros ? s1 (H1 & Hk1 & _ & Hn1).
  apply swp_bind. eapply swp_mono; [apply (add_all now localNode masterList ids); [exact H1| | |done|done]|].
  - apply Forall2_same_length_lookup_2; [by eapply Forall2_length|]. intros n q j Eq Ej.
    eapply has_id_kept; [exact H1|done|apply Hext, list_elem_of_lookup; by exists n|]. by eapply Forall2_lookup_lr.
  - clear -Hs. induction Hs as [|i l Hl IH Hf]; constructor; [|done]. rewrite Forall_forall in Hf. intros Hi%Hf. lia.
  - intros ? s2 (H2 & _ & _ & Ha & Hb). apply swp_ret. split_and!; [done|done| |].
    + intros i Hi. rewrite Ha, Hn1 by done. destruct (decide _) as [|Hd]; [done|]. rewrite list_elem_of_filter, (keys_of ext) in Hd by done.
      destruct (node_of s i) as [q|]; [|done]. destruct Hd. split; [done|by eexists].
    + intros n p i Ep Ei. rewrite (Hb n p i Ep Ei), Hn1. rewrite decide_False; [done|].
      rewrite list_elem_of_filter. intros [Hi _]. apply Hi, list_elem_of_lookup. by exists n.
Qed.

(** ** The users of a store

    A call, the condition under which the code makes it, what it does, and the references
    of others to nodes afterwards.  A node that is given to the store, or released, is one that the
    caller has a reference to; iterating goes on from a node that is still in the store. *)

Inductive Call :=
| C_add (now : timespec) (node : Z)
| C_reference (id : Z)
| C_root (mapper : MapperState)
| C_target (targetID : Z) (targetMapper : TargetMapper)
| C_delete (id : Z)
| C_first
| C_next (id oldNode : Z)
| C_release (node : Z)
| C_setRoot (owner : NodeOrGroup) (ignoreExistingRoot : bool)
| C_wait (cond : Z)
| C_waited.

Section Users.
Context `{K : KernelRBTree (Z * Z) fst} `{KT : KernelRBTree TargetMapping tmTargetID}.
Implicit Types s : NodeStoreEx.

Definition allowed (ext : Z -> Z) s (c : Call) : Prop :=
  match c with
  | C_add _ p | C_release p => 0 < ext p
  | C_root mapper => exists t, MirrorBuddyGroupMapper_getPrimaryTargetID mapper (owner_group (ns_rootOwner s)) = Done t
  | C_next id p => node_of s id = Some p /\ 0 < ext p
  | _ => True
  end.

Definition perform (c : Call) : NST (option Z) :=
  match c with
  | C_add now p => _ ← NodeStoreEx_addOrUpdateNode now p; mret None
  | C_reference id => NodeStoreEx_referenceNode id
  | C_root mapper => r ← NodeStoreEx_referenceRootNode mapper; mret (fst r)
  | C_target id tm => r ← NodeStoreEx_referenceNodeByTargetID id tm; mret (fst r)
  | C_delete id => _ ← NodeStoreEx_deleteNode id; mret None
  | C_first => NodeStoreEx_referenceFirstNode
  | C_next _ p => NodeStoreEx_referenceNextNodeAndReleaseOld p
  | C_release p => _ ← Node_put p; mret None
  | C_setRoot owner ignore => _ ← NodeStoreEx_setRootOwner owner ignore; mret None
  | C_wait cond => _ ← waitForFirstNode_register cond; mret None
  | C_waited => _ ← waitForFirstNode_finish; mret None
  end.

Definition refs_after (ext : Z -> Z) (c : Call) (r : option Z) : Z -> Z :=
  match c with
  | C_add _ p | C_release p => <[p := ext p - 1]> ext
  | C_next _ p => <[p := ext_add ext r p - 1]> (ext_add ext r)
  | _ => ext_add ext r
  end.

Inductive nstep : (Z -> Z) * NodeStoreEx -> (Z -> Z) * NodeStoreEx -> Prop :=
| N_construct ext s p nd :
    ns_nodes s !! p = None -> nd_references nd = 1 -> 0 <= nd_numID nd < 2 ^ 32 ->
    nstep (ext, s) (<[p := 1]> ext, set_nodes (<[p := nd]> (ns_nodes s)) s)
| N_call ext s c r s' :
    allowed ext s c -> perform c s = Done (r, s') -> nstep (ext, s) (refs_after ext c r, s').

Definition numbered s : Prop := forall p nd, ns_nodes s !! p = Some nd -> 0 <= nd_numID nd < 2 ^ 32.

Lemma numbered_kept s s' : keeps_ids s s' -> numbered s -> numbered s'.
Proof. intros Hk Hn p nd E. destruct (Hk p nd E) as (nd0 & E0 & ->). by apply (Hn p). Qed.

Lemma ok_frame ext s s' : ns_nodes s' = ns_nodes s -> ns_tree s' = ns_tree s -> ns_size s' = ns_size s ->
  store_ok ext s -> store_ok ext s' /\ keeps_ids s s'.
Proof.
  intros En Et Es [H1 H2 H3 H4 H5 H6]. destruct s as [h t n a c o ty], s' as [h' t' n' a' c' o' ty'].
  cbn [ns_nodes ns_tree ns_size] in *. subst. split; [by constructor|]. intros p nd E. by exists nd.
Qed.

Lemma perform_ok ext s c : store_ok ext s -> numbered s -> allowed ext s c ->
  swp (perform c) (fun r s' => store_ok (refs_after ext c r) s' /\ keeps_ids s s') s.
Proof.
  intros H Hn Ha. destruct c as [now p|id|mapper|id tm|id| |id p|p|owner ignore|cond|]; cbn [perform allowed refs_after] in *.
  - destruct (exists_of_ext ext s p H Ha) as [nd E]. apply swp_bind.
    eapply swp_mono; [apply addOrUpdate_ok; [exact H|done|exact E|by apply (Hn p)]|]. intros ? s1 (H1 & Hk & _). by apply swp_ret.
  - eapply swp_mono; [by apply (referenceNode_ok ext)|]. intros r s1 (-> & H1 & Hk & _). by split.
  - destruct Ha as [t Et]. apply swp_bind. unfold NodeStoreEx_referenceRootNode. apply swp_bind, swp_get. apply swp_bind.
    eapply (swp_mono _ (fun _ s' => s' = s)).
    { destruct (owner_isGroup _); [|by apply swp_ret]. by eapply swp_lift. }
    intros id ? ->. apply swp_bind. eapply swp_mono; [by apply (find_spec ext)|]. intros ? s0 (-> & ->). apply swp_bind.
    eapply swp_mono; [apply (reference_ok ext); [done|intros p Hp; by exists id]|]. intros r s1 (-> & H1 & Hk & _). apply swp_ret. by apply swp_ret.
  - apply swp_bind. unfold NodeStoreEx_referenceNodeByTargetID. destruct (_ =? 0).
    + apply swp_ret. apply swp_ret. split; [done|apply keeps_refl].
    + apply swp_bind. eapply swp_mono; [by apply (referenceNode_ok ext)|]. intros r s1 (-> & H1 & Hk & _). apply swp_ret. by apply swp_ret.
  - apply swp_bind. eapply swp_mono; [by apply (erase_ok ext)|]. intros ? s1 (H1 & Hk & _). by apply swp_ret.
  - eapply swp_mono; [by apply (first_ok ext)|]. intros r s1 (_ & H1 & Hk & _). by split.
  - destruct Ha as [Hid Hp]. eapply swp_mono; [by apply (next_ok ext id)|]. intros r s1 (_ & H1 & Hk & _). by split.
  - apply swp_bind. eapply swp_mono; [by apply (Node_put_spec ext)|]. intros ? s1 (H1 & Hk & _). by apply swp_ret.
  - apply swp_bind. unfold NodeStoreEx_setRootOwner. destruct (_ && _); [apply swp_ret, swp_ret; split; [done|apply keeps_refl]|].
    apply swp_bind, swp_get. destruct (negb (NodeOrGroup_valid _)); [|destruct (negb ignore)].
    2: apply swp_ret, swp_ret; split; [done|apply keeps_refl].
    all: apply swp_bind, swp_mod; cbn beta; apply swp_ret, swp_ret; apply ok_frame; [by destruct s..|done].
  - apply swp_bind. unfold waitForFirstNode_register. apply swp_mod. apply swp_ret. apply ok_frame; [by destruct s..|done].
  - apply swp_bind. unfold waitForFirstNode_finish. apply swp_bind, swp_mod. cbn beta. apply swp_bind, swp_get. apply swp_ret, swp_ret.
    apply ok_frame; [by destruct s..|done].
Qed.

Lemma construct_ok ext s p nd : store_ok ext s -> ns_nodes s !! p = None -> nd_references nd = 1 ->
  store_ok (<[p := 1]> ext) (set_nodes (<[p := nd]> (ns_nodes s)) s).
Proof.
  intros H E Hr. pose proof H as [H1 H2 H3 H4 H5 H6].
  assert (Hnp : of_store s p = 0).
  { unfold of_store. rewrite decide_False; [done|]. intros (e & -> & He)%list_elem_of_fmap.
    destruct (H3 e He) as (_ & nd' & E' & _). congruence. }
  destruct s as [h t n a c o ty]. cbn [ns_nodes ns_tree ns_size set_nodes] in *. constructor; cbn [ns_nodes ns_tree ns_size]; try done.
  - intros e He. destruct (H3 e He) as (Hb & nd0 & E0 & Ek). split; [done|]. exists nd0. rewrite lookup_insert_ne; [done|congruence].
  - intros q. unfold base.insert, fn_insert. destruct (decide (p = q)); [lia|apply H4].
  - intros q x. unfold base.insert at 2, fn_insert. destruct (decide (p = q)) as [<-|Hq].
    + rewrite lookup_insert_eq. intros [= <-]. change (of_store (mkNodeStore _ t n a c o ty) p) with (of_store (mkNodeStore h t n a c o ty) p). lia.
    + rewrite lookup_insert_ne by done. intros Ex. by apply H5.
  - intros q. unfold base.insert at 2, fn_insert. destruct (decide (p = q)) as [<-|Hq]; [by rewrite lookup_insert_eq|].
    rewrite lookup_insert_ne by done. apply H6.
Qed.

Lemma nstep_ok c c' : nstep c c' -> store_ok (fst c) (snd c) /\ numbered (snd c) -> store_ok (fst c') (snd c') /\ numbered (snd c').
Proof.
  intros Hs (H & Hn). destruct Hs as [ext s p nd E Hr Hid|ext s c r s' Ha E]; cbn [fst snd] in *.
  - split; [by apply construct_ok|]. intros q x. destruct s as [h t n a c o ty]. cbn [set_nodes ns_nodes].
    destruct (decide (p = q)) as [<-|Hq]; [rewrite lookup_insert_eq; by intros [= <-]|rewrite lookup_insert_ne by done; apply (Hn q)].
  - pose proof (perform_ok ext s c H Hn Ha) as Hp. unfold swp in Hp. rewrite E in Hp. destruct Hp as [H1 Hk].
    split; [done|by eapply numbered_kept].
Qed.
End Users.

(** C20: in every interleaving of its users a node store is safe.  From an empty
    store on, however threads construct, add, reference, find by target or as the root,
    delete, iterate over, wait for and release nodes, as long as they only release
    references they have and only iterate from a node that is still in the store
    ([allowed]; [iteration_after_delete] shows the fault otherwise): the store is a search
    tree without duplicates, every node has as many references as the store and the
    threads hold, so no node is freed while it is in use and none is kept that is not,
    and no call faults; one that iterates gets the node with the next larger ID. *)
Theorem node_store_safe `{K : KernelRBTree (Z * Z) fst} `{KT : KernelRBTree TargetMapping tmTargetID}
    (storeType : Z) (ext : Z -> Z) (s : NodeStoreEx) :
  rtc nstep (fun _ => 0, NodeStoreEx_init ∅ storeType) (ext, s) ->
  store_ok ext s /\
  (forall c, allowed ext s c -> exists r s', perform c s = Done (r, s') /\ store_ok (refs_after ext c r) s') /\
  (forall id p, allowed ext s (C_next id p) -> exists r s', perform (C_next id p) s = Done (r, s') /\ first_node s (fun j => id < j) r).
Proof.
  intros Hr. assert (H : store_ok ext s /\ numbered s).
  { change (store_ok (fst (ext, s)) (snd (ext, s)) /\ numbered (snd (ext, s))). revert Hr. generalize (ext, s). intros c Hr.
    remember (fun _ => 0, NodeStoreEx_init ∅ storeType) as c0 eqn:E0.
    assert (H0 : store_ok (fst c0) (snd c0) /\ numbered (snd c0)).
    { subst c0. split; [|by intros p nd]. constructor; cbn; [constructor|done|by intros e ?%not_elem_of_nil|done|by intros p nd|done]. }
    clear E0. induction Hr as [|c1 c2 c3 H12 H23 IH]; [done|]. by apply IH, (nstep_ok c1). }
  destruct H as [H Hn]. split_and!; [done| |].
  - intros c Ha. destruct (proj1 (swp_run _ _ _) (perform_ok ext s c H Hn Ha)) as (r & s' & E & H1 & _). by exists r, s'.
  - intros id p [Hid Hp]. destruct (proj1 (swp_run _ _ _) (next_ok ext id p s H Hid Hp)) as (r & s' & E & H1 & _). by exists r, s'.
Qed.

(** Iterating over a store breaks when the node it has come to is deleted.  A
    thread has a reference to a node of the store; another one deletes this node from the store.
    The node lives on, but the next step of the iteration starts from its links into the
    tree, which are not valid any more. *)
Theorem iteration_after_delete `{K : KernelRBTree (Z * Z) fst} (ext : Z -> Z) (s : NodeStoreEx) (id p : Z) :
  store_ok ext s -> node_of s id = Some p ->
  exists s1, (r ← NodeStoreEx_referenceNode id; _ ← NodeStoreEx_deleteNode id; mret r) s = Done (Some p, s1) /\
    store_ok (ext_add ext (Some p)) s1 /\ is_Some (ns_nodes s1 !! p) /\
    NodeStoreEx_referenceNextNodeAndReleaseOld p s1 = Fault.
Proof.
  intros H Hid. destruct (node_of_node ext s id p H Hid) as (_ & _ & nd & E & En).
  enough (swp (r ← NodeStoreEx_referenceNode id; _ ← NodeStoreEx_deleteNode id; mret r)
    (fun r s1 => r = Some p /\ store_ok (ext_add ext (Some p)) s1 /\ keeps_ids s s1 /\ node_of s1 id = None) s)
    as (r & s1 & E1 & -> & H1 & Hk1 & Hn1)%swp_run.
  - exists s1. assert (Hp : 0 < ext_add ext (Some p) p) by (cbn; rewrite fn_lookup_insert; pose proof (ok_ext ext s H p); lia).
    destruct (exists_of_ext _ s1 p H1 Hp) as [nd1 E2]. split_and!; [done|done|by eexists|].
    unfold NodeStoreEx_referenceNextNodeAndReleaseOld, NodeTree_getNext, mbind, ST_bind. cbn [st_get]. unfold st_lift.
    rewrite rb_iter_inorder. replace (node_after p (inorder (ns_tree s1))) with (@Fault (option (Z * Z))); [done|].
    assert (Hnot : forall e, e ∈ inorder (ns_tree s1) -> snd e <> p).
    { intros e He Ep. destruct (ok_ids _ s1 H1 e He) as (_ & nd2 & E3 & E4). rewrite Ep in E3. assert (nd2 = nd1) as -> by congruence.
      destruct (Hk1 p nd1 E2) as (nd0 & E5 & E6). assert (Hke : fst e = id) by congruence.
      destruct e as [k q]. cbn in *. subst. apply (node_of_in (ext_add ext (Some p))) in He; [|done]. cbn in Hn1. congruence. }
    induction (inorder (ns_tree s1)) as [|e l IH]; [done|]. cbn [node_after].
    destruct (Z.eqb_spec (snd e) p) as [Ep|_]; [by destruct (Hnot e ltac:(by left))|]. apply IH. intros e' He'. apply Hnot. by right.
  - apply swp_bind. eapply swp_mono; [by apply (referenceNode_ok ext)|]. intros r s1 (-> & H1 & Hk1 & _). rewrite Hid in *.
    apply swp_bind. eapply swp_mono; [by apply (erase_ok (ext_add ext (Some p)))|]. intros ? s2 (H2 & Hk2 & _ & _ & Hn2).
    apply swp_ret. split_and!; [done|done|by eapply keeps_trans|]. by rewrite Hn2, decide_True.
Qed.

(** A node that comes between the first look at the store and the registration of the
    completion is not signalled: the thread sleeps until its time is over. *)
Lemma first_node_not_signalled `{K : KernelRBTree (Z * Z) fst} now ext s p nd cond :
  store_ok ext s -> ns_size s = 0 -> 0 < ext p -> ns_nodes s !! p = Some nd -> 0 < nd_numID nd < 2 ^ 32 ->
  exists s1 s2, waitForFirstNode_check s = Done (false, s) /\ NodeStoreEx_addOrUpdateNode now p s = Done (true, s1) /\
    waitForFirstNode_register cond s1 = Done (tt, s2) /\ 0 < ns_size s2 /\ cond ∉ ns_completed s2.
Proof.
  intros H Hz Hp E Hid.
  assert (Hnone : node_of s (nd_numID nd) = None).
  { destruct (node_of s _) as [q|] eqn:Eq; [|done]. apply (node_of_in ext) in Eq; [|done]. rewrite (ok_size ext s H) in Hz.
    destruct (inorder (ns_tree s)); [by apply not_elem_of_nil in Eq|done]. }
  pose proof (addOrUpdate_ok now ext p nd s H Hp E ltac:(lia)) as (r & s1 & E1 & H1 & _ & _ & Er & Hn1)%swp_run.
  rewrite bool_decide_true in Er by (split_and!; [done|lia|done]). subst r.
  eexists s1, _. split; [unfold waitForFirstNode_check, mbind, ST_bind; cbn [st_get]; by rewrite Hz|]. split; [done|]. split; [done|].
  specialize (Hn1 (nd_numID nd)). rewrite decide_True in Hn1 by (split_and!; [done|lia|done]).
  apply (node_of_in (<[p := ext p - 1]> ext)) in Hn1; [|done]. pose proof (ok_size _ s1 H1) as Hs1.
  destruct s1 as [h t n a c o ty]. cbn in *. split; [|set_solver].
  destruct (inorder t); [by apply not_elem_of_nil in Hn1|cbn in Hs1; lia].
Qed.

(** ** An example: the nodes 1 and 3 are known, the management node reports 2 and 3 *)

Module SmallNodes.
#[export] Instance kernel : KernelRBTree (Z * Z) fst := chain_kernel (Z * Z) fst.
#[export] Instance target_kernel : KernelRBTree TargetMapping tmTargetID := chain_kernel TargetMapping tmTargetID.

Definition server (numID : Z) : NodeObject := Node_init 8 600 4 (mkTime 0 0) "server"%string numID 8005 8005 [].
Definition known : NodeStoreEx :=
  mkNodeStore (<[10 := server 1]> (<[30 := server 3]> (<[20 := server 2]> (<[31 := server 3]> ∅))))
    (RBTree.Node Leaf (1, 10) (RBTree.Node Leaf (3, 30) Leaf)) 2 None ∅ (NodeOrGroup_fromGroup 0) NODETYPE_Meta.
Definition caller (p : Z) : Z := if (p =? 20) || (p =? 31) then 1 else 0.
End SmallNodes.

#[local] Existing Instance SmallNodes.kernel.
#[local] Existing Instance SmallNodes.target_kernel.

Lemma known_ok : store_ok SmallNodes.caller SmallNodes.known.
Proof.
  constructor.
  - unfold rb_sorted, lt_key. cbn. repeat constructor; cbn; lia.
  - done.
  - intros e He. cbn in He. apply elem_of_cons in He as [->|He]; [|apply list_elem_of_singleton in He as ->]; cbn [fst snd];
      (split; [lia|]); by eexists.
  - intros p. unfold SmallNodes.caller. destruct (_ || _); lia.
  - intros p nd. cbn [ns_nodes SmallNodes.known]. rewrite !lookup_insert_Some, lookup_empty.
    intros [[<- <-]|[_ [[<- <-]|[_ [[<- <-]|[_ [[<- <-]|[_ ?]]]]]]]]; by vm_compute.
  - intros p. cbn [ns_nodes SmallNodes.known]. rewrite !lookup_insert_None, lookup_empty. intros Hp.
    unfold SmallNodes.caller. destruct (Z.eqb_spec p 20), (Z.eqb_spec p 31); naive_solver.
Qed.

Lemma node_sync_witness :
  exists removed s', NodeStoreEx_syncNodes (mkTime 5 0) [20; 31] [] [] None SmallNodes.known = Done (([2], removed), s') /\
    node_of s' 2 = Some 20 /\ node_of s' 3 = Some 30 /\ node_of s' 1 = None.
Proof.
  destruct (node_sync (mkTime 5 0) None SmallNodes.caller SmallNodes.known [20; 31] [2; 3] [] known_ok)
    as (removed & s' & E & _ & _ & Hout & Hin & _).
  - repeat constructor; by eexists.
  - repeat constructor; lia.
  - set_solver by lia.
  - intros p. rewrite elem_of_cons, list_elem_of_singleton. by intros [->| ->].
  - exists removed, s'. split; [exact E|]. split; [exact (Hin 0%nat 20 2 eq_refl eq_refl)|].
    split; [exact (Hin 1%nat 31 3 eq_refl eq_refl)|]. apply Hout. set_solver by lia.
Defined.

Lemma iteration_after_delete_witness :
  exists s1, NodeStoreEx_referenceNextNodeAndReleaseOld 10 s1 = Fault /\ is_Some (ns_nodes s1 !! 10).
Proof.
  destruct (iteration_after_delete SmallNodes.caller SmallNodes.known 1 10 known_ok ltac:(by vm_compute)) as (s1 & _ & _ & He & Hf).
  by exists s1.
Defined.

Lemma node_store_safe_witness :
  exists ext s r s', perform (C_next 7 10) s = Done (r, s') /\ first_node s (fun j => 7 < j) r /\ ext 10 = 1.
Proof.
  pose (s0 := NodeStoreEx_init ∅ NODETYPE_Meta).
  pose (s1 := set_nodes (<[10 := SmallNodes.server 7]> (ns_nodes s0)) s0).
  pose (r2 := perform (C_add (mkTime 5 0) 10) s1).
  pose (s2 := match r2 with Done (_, s) => s | Fault => s1 end).
  pose (s3 := match perform (C_reference 7) s2 with Done (_, s) => s | Fault => s2 end).
  pose (e1 := <[10 := 1]> (fun _ => 0) : Z -> Z). pose (e2 := refs_after e1 (C_add (mkTime 5 0) 10) None).
  pose (e3 := refs_after e2 (C_reference 7) (Some 10)).
  exists e3, s3. destruct (node_store_safe NODETYPE_Meta e3 s3) as (_ & _ & H).
  - eapply rtc_l; [by apply (N_construct (fun _ => 0) s0 10 (SmallNodes.server 7))|].
    eapply rtc_l; [by apply (N_call e1 s1 (C_add (mkTime 5 0) 10) None s2); vm_compute|].
    eapply rtc_l; [by apply (N_call e2 s2 (C_reference 7) (Some 10) s3); vm_compute|]. apply rtc_refl.
  - destruct (H 7 10) as (r & s' & E & Hf); [by vm_compute|]. by exists r, s'.
Defined.
