(* ===== verification/AckStore.v ===== *)
(** * Waiting for acknowledgments

    [common/toolkit/ackstore/AcknowledgmentStore.h/.c], [AckStoreMap.h/.c],
    [WaitAckMap.h/.c]: a thread registers the IDs of the acks that it expects, in a map of
    its own; the listener moves what arrives to its map of received acks and wakes it up;
    in the end the thread takes its IDs back.  The maps belong to the threads, the store
    has only pointers to them.  A call holds the mutex of the store or of the
    notifier, so it is one step; waiting is cut where the mutex is given back. *)

From S2P Require Import Prelude StateMonad Serialization.

(** [WaitAckMap] and [AckStoreMap]: search trees ([PointerTree]) ordered by [strcmp]; the
    values of the first are the private data of the waiting thread. *)
Abbreviation WaitAckMap := (gmap mem Z) (only parsing).

Record AckStoreEntry := mkEntry { ase_waitMap : Z; ase_receivedMap : Z; ase_notifier : Z }.

(** The store, the maps by their addresses, and the notifiers that were signalled. *)
Record AckState := mkAckState {
  as_storeMap : gmap mem AckStoreEntry; as_maps : gmap Z WaitAckMap; as_signalled : gset Z }.

Definition set_storeMap (m : gmap mem AckStoreEntry) (s : AckState) : AckState :=
  mkAckState m (as_maps s) (as_signalled s).
Definition set_map (p : Z) (m : WaitAckMap) (s : AckState) : AckState :=
  mkAckState (as_storeMap s) (<[p := m]> (as_maps s)) (as_signalled s).
Definition set_signalled (n : Z) (s : AckState) : AckState :=
  mkAckState (as_storeMap s) (as_maps s) ({[n]} ∪ as_signalled s).

Definition WaitAckMap_at (p : Z) : ST AckState WaitAckMap := s ← st_get; st_lift (of_option (as_maps s !! p)).

(** An ID that exists already is not inserted. *)
Definition AckStoreMap_insert (newKey : mem) (newValue : AckStoreEntry) : ST AckState bool :=
  s ← st_get;
  match as_storeMap s !! newKey with
  | Some _ => mret false
  | None => _ ← st_mod (set_storeMap (<[newKey := newValue]> (as_storeMap s))); mret true
  end.
Definition AckStoreMap_erase (eraseKey : mem) : ST AckState unit :=
  st_mod (fun s => set_storeMap (delete eraseKey (as_storeMap s)) s).
Definition WaitAckMap_insert (p : Z) (newKey : mem) (newValue : Z) : ST AckState unit :=
  m ← WaitAckMap_at p;
  st_mod (set_map p (match m !! newKey with Some _ => m | None => <[newKey := newValue]> m end)).
Definition WaitAckMap_erase (p : Z) (eraseKey : mem) : ST AckState unit :=
  m ← WaitAckMap_at p; st_mod (set_map p (delete eraseKey m)).

Fixpoint register_loop (keys : list mem) (entry : AckStoreEntry) : ST AckState unit :=
  match keys with
  | [] => mret tt
  | k :: keys => _ ← AckStoreMap_insert k entry; register_loop keys entry
  end.
Definition AcknowledgmentStore_registerWaitAcks (waitAcks receivedAcks notifier : Z) : ST AckState unit :=
  m ← WaitAckMap_at waitAcks;
  register_loop (map_to_list m).*1 (mkEntry waitAcks receivedAcks notifier).

(** An entry that is not in the store would be a null pointer. *)
Fixpoint unregister_loop (keys : list mem) : ST AckState unit :=
  match keys with
  | [] => mret tt
  | k :: keys =>
      s ← st_get;
      _ ← st_lift (of_option (as_storeMap s !! k));
      _ ← AckStoreMap_erase k;
      unregister_loop keys
  end.
Definition AcknowledgmentStore_unregisterWaitAcks (waitAcks : Z) : ST AckState unit :=
  m ← WaitAckMap_at waitAcks; unregister_loop (map_to_list m).*1.

Definition AcknowledgmentStore_receivedAck (ackID : mem) : ST AckState bool :=
  s ← st_get;
  match as_storeMap s !! ackID with
  | None => mret false
  | Some storeEntry =>
      waitMap ← WaitAckMap_at (ase_waitMap storeEntry);
      retVal ← match waitMap !! ackID with
               | None => mret false
               | Some waitAck =>
                   _ ← WaitAckMap_insert (ase_receivedMap storeEntry) ackID waitAck;
                   _ ← WaitAckMap_erase (ase_waitMap storeEntry) ackID;
                   left ← WaitAckMap_at (ase_waitMap storeEntry);
                   _ ← (if bool_decide (left = ∅) then st_mod (set_signalled (ase_notifier storeEntry)) else mret tt);
                   mret true
               end;
      _ ← AckStoreMap_erase ackID;
      mret retVal
  end.

(** Before and after the wait; the first tells whether to wait at all. *)
Definition waitForAckCompletion_check (waitAcks : Z) : ST AckState bool :=
  m ← WaitAckMap_at waitAcks; mret (bool_decide (m <> ∅)).
Definition waitForAckCompletion_result (waitAcks : Z) : ST AckState bool :=
  m ← WaitAckMap_at waitAcks; mret (bool_decide (m = ∅)).

(** ** Waiting threads

    A thread between its registration and its deregistration: its maps, its notifier,
    and the acks that it registered. *)
Record Waiter := mkWaiter { w_wait : Z; w_received : Z; w_notifier : Z; w_acks : WaitAckMap }.

#[export] Instance Waiter_eq_dec : EqDecision Waiter.
Proof. solve_decision. Defined.

Definition entry_of (w : Waiter) : AckStoreEntry := mkEntry (w_wait w) (w_received w) (w_notifier w).
Definition maps_of (w : Waiter) : list Z := [w_wait w; w_received w].

(** What is known of a waiting thread: it has each of its acks either in the one map or
    in the other. *)
Definition waiter_ok (s : AckState) (w : Waiter) : Prop :=
  exists wait received, as_maps s !! w_wait w = Some wait /\ as_maps s !! w_received w = Some received /\
    wait ##ₘ received /\ wait ∪ received = w_acks w /\
    (wait = ∅ -> w_acks w <> ∅ -> w_notifier w ∈ as_signalled s).

Definition waits_for (s : AckState) (w : Waiter) (k : mem) : Prop :=
  exists wait, as_maps s !! w_wait w = Some wait /\ is_Some (wait !! k).

Record acks_ok (ws : list Waiter) (s : AckState) : Prop := mkAcksOk {
  ao_waiters : forall w, w ∈ ws -> waiter_ok s w;
  ao_entries : forall k e, as_storeMap s !! k = Some e <-> exists w, w ∈ ws /\ e = entry_of w /\ waits_for s w k;
  ao_maps : NoDup (mjoin (maps_of <$> ws));
  ao_ids : forall w w' k, w ∈ ws -> w' ∈ ws -> is_Some (w_acks w !! k) -> is_Some (w_acks w' !! k) -> w = w' }.

(** Registration: with maps that no other thread uses, nothing received yet, and IDs that no other
    thread is waiting for. *)
Definition may_register (ws : list Waiter) (s : AckState) (w : Waiter) : Prop :=
  as_maps s !! w_wait w = Some (w_acks w) /\ as_maps s !! w_received w = Some ∅ /\
  NoDup (mjoin (maps_of <$> w :: ws)) /\ w_notifier w ∉ as_signalled s /\
  forall w' k, w' ∈ ws -> is_Some (w_acks w' !! k) -> w_acks w !! k = None.

(** Maps are made and dropped by the threads when they are not registered. *)
Inductive astep : list Waiter * AckState -> list Waiter * AckState -> Prop :=
| A_maps ws s p m : p ∉ mjoin (maps_of <$> ws) -> astep (ws, s) (ws, set_map p m s)
| A_register ws s s' w : may_register ws s w ->
    AcknowledgmentStore_registerWaitAcks (w_wait w) (w_received w) (w_notifier w) s = Done (tt, s') -> astep (ws, s) (w :: ws, s')
| A_unregister ws ws' s s' w : ws ≡ₚ w :: ws' ->
    AcknowledgmentStore_unregisterWaitAcks (w_wait w) s = Done (tt, s') -> astep (ws, s) (ws', s')
| A_notifier ws s n : n ∉ w_notifier <$> ws ->
    astep (ws, s) (ws, mkAckState (as_storeMap s) (as_maps s) (as_signalled s ∖ {[n]}))
| A_received ws s s' k r : AcknowledgmentStore_receivedAck k s = Done (r, s') -> astep (ws, s) (ws, s').

(** ** The loops *)

Lemma register_loop_spec keys entry s :
  swp (register_loop keys entry) (fun _ s' => as_maps s' = as_maps s /\ as_signalled s' = as_signalled s /\
    forall k, as_storeMap s' !! k = match as_storeMap s !! k with
                                    | Some e => Some e
                                    | None => if decide (k ∈ keys) then Some entry else None end) s.
Proof.
  revert s. induction keys as [|key keys IH]; intros s; cbn [register_loop].
  - apply swp_ret. split_and!; [done..|]. intros k. destruct (_ !! k); [done|]. by rewrite decide_False by apply not_elem_of_nil.
  - apply swp_bind. unfold AckStoreMap_insert. apply swp_bind, swp_get.
    destruct (as_storeMap s !! key) as [e|] eqn:E.
    + apply swp_ret. eapply swp_mono; [apply IH|]. intros ? s' (Em & Es & Hk). split_and!; [done..|]. intros k. rewrite Hk.
      destruct (as_storeMap s !! k) eqn:Ek; [done|]. apply decide_ext. rewrite elem_of_cons. split; [by right|intros [->|?]; [congruence|done]].
    + apply swp_bind, swp_mod. cbn beta. apply swp_ret. eapply swp_mono; [apply IH|]. intros ? s' (Em & Es & Hk).
      split_and!; [done..|]. intros k. rewrite Hk. cbn [set_storeMap as_storeMap]. destruct (decide (k = key)) as [->|Hne].
      * rewrite lookup_insert_eq, E, decide_True; [done|by left].
      * rewrite lookup_insert_ne by done. destruct (as_storeMap s !! k); [done|]. apply decide_ext. rewrite elem_of_cons. tauto.
Qed.

Lemma unregister_loop_spec keys s : NoDup keys -> (forall k, k ∈ keys -> is_Some (as_storeMap s !! k)) ->
  swp (unregister_loop keys) (fun _ s' => as_maps s' = as_maps s /\ as_signalled s' = as_signalled s /\
    forall k, as_storeMap s' !! k = if decide (k ∈ keys) then None else as_storeMap s !! k) s.
Proof.
  intros Hn. revert s. induction Hn as [|key keys Hni Hn IH]; intros s Hk; cbn [unregister_loop].
  - apply swp_ret. split_and!; [done..|]. intros k. by rewrite decide_False by apply not_elem_of_nil.
  - apply swp_bind, swp_get, swp_bind. destruct (Hk key ltac:(by left)) as [e E]. eapply swp_lift; [by rewrite E|].
    apply swp_bind. unfold AckStoreMap_erase. apply swp_mod. eapply swp_mono; [apply IH|].
    + intros k Hin. cbn [set_storeMap as_storeMap]. rewrite lookup_delete_ne by (by intros ->). apply Hk. by right.
    + intros ? s' (Em & Es & Hs). split_and!; [done..|]. intros k. rewrite Hs. cbn [set_storeMap as_storeMap].
      destruct (decide (k = key)) as [->|Hne].
      * rewrite lookup_delete_eq, (decide_True (P := key ∈ key :: keys)) by (by left). by case_decide.
      * rewrite lookup_delete_ne by done. apply decide_ext. rewrite elem_of_cons. tauto.
Qed.

Lemma at_spec p m s : as_maps s !! p = Some m -> swp (WaitAckMap_at p) (fun m' s' => m' = m /\ s' = s) s.
Proof. intros E. unfold WaitAckMap_at. apply swp_bind, swp_get. eapply swp_lift; [by rewrite E|done]. Qed.

Lemma keys_spec (m : WaitAckMap) k : k ∈ (map_to_list m).*1 <-> is_Some (m !! k).
Proof.
  rewrite list_elem_of_fmap. split.
  - intros ([k' v] & -> & Hin%elem_of_map_to_list). by exists v.
  - intros [v Hv]. exists (k, v). split; [done|]. by apply elem_of_map_to_list.
Qed.

Lemma waiter_maps ws w p : w ∈ ws -> p ∈ maps_of w -> p ∈ mjoin (maps_of <$> ws).
Proof. intros Hw Hp. apply list_elem_of_join. exists (maps_of w). split; [done|]. by apply list_elem_of_fmap_2. Qed.

Lemma waits_acks s w k : waiter_ok s w -> waits_for s w k -> is_Some (w_acks w !! k).
Proof.
  intros (wait & received & E1 & E2 & Hd & Hu & _) (wait' & E3 & [v Hv]). assert (wait' = wait) as -> by (pose proof (eq_trans (eq_sym E1) E3) as Ex; by injection Ex).
  rewrite <- Hu. exists v. by apply lookup_union_Some_l.
Qed.

(** Only the maps and the notifiers of a thread matter to it. *)
Lemma waiter_frame s s' w : (forall p, p ∈ maps_of w -> as_maps s' !! p = as_maps s !! p) ->
  (w_notifier w ∈ as_signalled s -> w_notifier w ∈ as_signalled s') ->
  (waiter_ok s w -> waiter_ok s' w) /\ (forall k, waits_for s' w k <-> waits_for s w k).
Proof.
  intros Hm Hs. assert (E1 := Hm (w_wait w) ltac:(by left)). assert (E2 := Hm (w_received w) ltac:(right; by left)). split.
  - intros (wait & received & H1 & H2 & H3 & H4 & H5). exists wait, received. rewrite E1, E2. split_and!; auto.
  - intros k. unfold waits_for. by rewrite E1.
Qed.

(** ** The steps *)

Lemma register_ok ws s w : acks_ok ws s -> may_register ws s w ->
  swp (AcknowledgmentStore_registerWaitAcks (w_wait w) (w_received w) (w_notifier w)) (fun _ s' => acks_ok (w :: ws) s') s.
Proof.
  intros [H1 H2 H3 H4] (Hw & Hr & Hnd & Hsig & Hids). unfold AcknowledgmentStore_registerWaitAcks. apply swp_bind.
  eapply swp_mono; [by apply at_spec|]. intros ? s0 (-> & ->). eapply swp_mono; [apply register_loop_spec|].
  intros ? s' (Em & Es & Hk).
  assert (Hfr : forall x, (waiter_ok s x -> waiter_ok s' x) /\ (forall k, waits_for s' x k <-> waits_for s x k)).
  { intros x. apply waiter_frame; [by rewrite Em|by rewrite Es]. }
  assert (Hww : forall k, waits_for s w k <-> is_Some (w_acks w !! k)).
  { intros k. unfold waits_for. rewrite Hw. split; [by intros (? & [= <-] & ?)|by exists (w_acks w)]. }
  constructor.
  - intros x [->|Hx]%elem_of_cons; [|by apply Hfr, H1]. apply Hfr. exists (w_acks w), ∅. split_and!; [done|done| | |].
    + apply map_disjoint_empty_r.
    + by rewrite map_union_empty.
    + by intros ->.
  - intros k e. rewrite Hk. setoid_rewrite elem_of_cons.
    destruct (as_storeMap s !! k) as [e'|] eqn:Ek.
    + pose proof (proj1 (H2 k e') Ek) as (x & Hx & -> & Hxw).
      assert (Hno : w_acks w !! k = None) by (apply (Hids x); [done|by apply (waits_acks s); [apply H1|]]). split.
      * intros [= <-]. exists x. split_and!; [by right|done|by apply Hfr].
      * intros (y & [->|Hy] & -> & Hyw%Hfr); [apply Hww in Hyw as [? ?]; congruence|]. f_equal. f_equal.
        apply (H4 x y k Hx Hy); (apply (waits_acks s); [by apply H1|done]).
    + split.
      * case_decide as Hd; [|done]. rewrite keys_spec in Hd. intros [= <-]. exists w. split_and!; [by left|done|by apply Hfr, Hww].
      * intros (y & [->|Hy] & -> & Hyw%Hfr); [rewrite decide_True; [done|by apply keys_spec, Hww]|].
        assert (as_storeMap s !! k = Some (entry_of y)) by (apply H2; by exists y). congruence.
  - done.
  - intros x y k. rewrite !elem_of_cons. intros [->|Hx] [->|Hy] Hxk Hyk; [done| | |by apply (H4 x y k)].
    + specialize (Hids y k Hy Hyk). destruct Hxk. congruence.
    + specialize (Hids x k Hx Hxk). destruct Hyk. congruence.
Qed.

Lemma unregister_ok ws ws' s w : acks_ok ws s -> ws ≡ₚ w :: ws' ->
  swp (AcknowledgmentStore_unregisterWaitAcks (w_wait w)) (fun _ s' => acks_ok ws' s' /\
    as_maps s' = as_maps s /\ forall k, waits_for s w k -> as_storeMap s' !! k = None) s.
Proof.
  intros [H1 H2 H3 H4] Hp. assert (Hw : w ∈ ws) by (rewrite Hp; by left).
  destruct (H1 w Hw) as (wait & received & E1 & E2 & _). unfold AcknowledgmentStore_unregisterWaitAcks. apply swp_bind.
  eapply swp_mono; [by apply at_spec|]. intros ? s0 (-> & ->).
  assert (Hww : forall k, waits_for s w k <-> is_Some (wait !! k)).
  { intros k. unfold waits_for. rewrite E1. split; [by intros (? & [= <-] & ?)|by exists wait]. }
  eapply swp_mono; [apply unregister_loop_spec; [apply NoDup_fst_map_to_list|]|].
  { intros k Hk%keys_spec. exists (entry_of w). apply H2. exists w. by rewrite Hww. }
  intros ? s' (Em & Es & Hk).
  assert (Hfr : forall x, (waiter_ok s x -> waiter_ok s' x) /\ (forall k, waits_for s' x k <-> waits_for s x k)).
  { intros x. apply waiter_frame; [by rewrite Em|by rewrite Es]. }
  assert (Hnd : NoDup ws).
  { clear -H3. induction ws as [|x ws IH]; [constructor|]. cbn in H3. apply NoDup_cons in H3 as [Hx H3]. apply NoDup_cons in H3 as [_ H3].
    constructor; [|by apply IH]. intros Hin. apply Hx. right. apply (waiter_maps ws x); [done|by left]. }
  assert (Hnw : w ∉ ws') by (rewrite Hp in Hnd; by apply NoDup_cons in Hnd as [? _]).
  split_and!; [constructor|done|].
  - intros x Hx. apply Hfr, H1. rewrite Hp. by right.
  - intros k e. rewrite Hk. destruct (decide (k ∈ (map_to_list wait).*1)) as [Hin|Hin]; rewrite keys_spec in Hin.
    + split; [done|]. intros (x & Hx & -> & Hxw%Hfr). destruct Hnw. rewrite (H4 w x k); [done|done|rewrite Hp; by right| |];
        (apply (waits_acks s); [apply H1|]); [done|by apply Hww|rewrite Hp; by right|done].
    + rewrite H2. split; intros (x & Hx & -> & Hxw); exists x.
      * split_and!; [|done|by apply Hfr]. rewrite Hp in Hx. apply elem_of_cons in Hx as [->|Hx]; [|done]. by rewrite Hww in Hxw.
      * split_and!; [rewrite Hp; by right|done|by apply Hfr].
  - assert (Hj : mjoin (maps_of <$> ws) ≡ₚ mjoin (maps_of <$> w :: ws')) by (by rewrite Hp). rewrite Hj in H3. cbn in H3.
    apply NoDup_cons in H3 as [_ H3]. by apply NoDup_cons in H3 as [_ H3].
  - intros x y k Hx Hy. apply H4; rewrite Hp; by right.
  - intros k Hkw%Hww. rewrite Hk, decide_True; [done|]. by apply keys_spec.
Qed.

Lemma maps_inj ws x y p : NoDup (mjoin (maps_of <$> ws)) -> x ∈ ws -> y ∈ ws -> p ∈ maps_of x -> p ∈ maps_of y -> x = y.
Proof.
  induction ws as [|z ws IH]; intros Hn; [by intros ?%not_elem_of_nil|]. rewrite fmap_cons in Hn. cbn [mjoin list_join] in Hn.
  apply NoDup_app in Hn as (_ & Hd & Hn). intros [->|Hx]%elem_of_cons [->|Hy]%elem_of_cons Hpx Hpy; [done| | |by apply IH].
  - destruct (Hd p Hpx). by apply (waiter_maps ws y).
  - destruct (Hd p Hpy). by apply (waiter_maps ws x).
Qed.
Lemma maps_ne ws w : NoDup (mjoin (maps_of <$> ws)) -> w ∈ ws -> w_wait w <> w_received w.
Proof.
  induction ws as [|z ws IH]; intros Hn; [by intros ?%not_elem_of_nil|]. rewrite fmap_cons in Hn. cbn [mjoin list_join] in Hn.
  apply NoDup_app in Hn as (Hz & _ & Hn). intros [->|Hw]%elem_of_cons; [|by apply IH]. unfold maps_of in Hz.
  apply NoDup_cons in Hz as [Hz _]. intros E. apply Hz. rewrite E. by left.
Qed.

(** Steps that change neither the store nor a map or a signal of a registered thread. *)
Lemma acks_frame ws s s' : as_storeMap s' = as_storeMap s ->
  (forall p, p ∈ mjoin (maps_of <$> ws) -> as_maps s' !! p = as_maps s !! p) ->
  (forall w, w ∈ ws -> w_notifier w ∈ as_signalled s -> w_notifier w ∈ as_signalled s') ->
  acks_ok ws s -> acks_ok ws s'.
Proof.
  intros Es Em Hs [H1 H2 H3 H4].
  assert (Hfr : forall x, x ∈ ws -> (waiter_ok s x -> waiter_ok s' x) /\ (forall k, waits_for s' x k <-> waits_for s x k)).
  { intros x Hx. apply waiter_frame; [|by apply Hs]. intros p Hp. by apply Em, (waiter_maps ws x). }
  constructor; [|intros k e|done|done].
  - intros x Hx. by apply Hfr, H1.
  - rewrite Es, H2. split; intros (x & Hx & -> & Hw); (exists x; split_and!; [done|done|by apply Hfr]).
Qed.

(** The acks of the threads when the ack [k] has come for the thread [w]. *)
Lemma moved_ok ws s s' w k v wait received : acks_ok ws s -> w ∈ ws ->
  as_maps s !! w_wait w = Some wait -> as_maps s !! w_received w = Some received ->
  wait ##ₘ received -> wait ∪ received = w_acks w -> wait !! k = Some v ->
  as_storeMap s' = delete k (as_storeMap s) ->
  as_maps s' = <[w_wait w := delete k wait]> (<[w_received w := <[k := v]> received]> (as_maps s)) ->
  as_signalled s ⊆ as_signalled s' -> (delete k wait = ∅ -> w_notifier w ∈ as_signalled s') ->
  acks_ok ws s'.
Proof.
  intros [H1 H2 H3 H4] Hw E1 E2 Hd Hu Hk Est Em Hsub Hsig.
  pose proof (maps_ne ws w H3 Hw) as Hne.
  assert (Hr : received !! k = None) by (by apply (map_disjoint_Some_l wait received k v)).
  assert (F1 : as_maps s' !! w_wait w = Some (delete k wait)) by (by rewrite Em, lookup_insert_eq).
  assert (F2 : as_maps s' !! w_received w = Some (<[k := v]> received)) by (by rewrite Em, lookup_insert_ne, lookup_insert_eq).
  assert (Hfr : forall x, x ∈ ws -> x <> w -> (waiter_ok s x -> waiter_ok s' x) /\ (forall j, waits_for s' x j <-> waits_for s x j)).
  { intros x Hx Hxw. apply waiter_frame; [|by intros; apply Hsub]. intros p Hp.
    assert (Hpw : p ∉ maps_of w) by (intros Hpw; by apply Hxw, (maps_inj ws x w p)).
    rewrite Em, !lookup_insert_ne; [done|intros <-; apply Hpw; right; by left|intros <-; apply Hpw; by left]. }
  assert (Hww : forall j, waits_for s' w j <-> waits_for s w j /\ j <> k).
  { intros j. unfold waits_for. rewrite F1, E1. split.
    - intros (? & [= <-] & Hj). apply lookup_delete_is_Some in Hj as [Hj1 Hj2]. split; [by exists wait|done].
    - intros ((? & [= <-] & Hj) & Hjk). exists (delete k wait). split; [done|]. by apply lookup_delete_is_Some. }
  assert (Hkw : waits_for s w k) by (exists wait; split; [done|by exists v]).
  constructor; [|intros j e|done|done].
  - intros x Hx. destruct (decide (x = w)) as [->|Hxw]; [|by apply Hfr, H1].
    exists (delete k wait), (<[k := v]> received). split_and!; [done|done| | |by intros ? _; apply Hsig].
    + apply map_disjoint_insert_r_2; [by apply lookup_delete_eq|by apply map_disjoint_delete_l].
    + rewrite <- Hu, <- (insert_union_r (delete k wait) received k v) by apply lookup_delete_eq.
      rewrite insert_union_l, insert_delete_eq. by rewrite insert_id.
  - rewrite Est. destruct (decide (j = k)) as [->|Hjk].
    + rewrite lookup_delete_eq. split; [done|]. intros (x & Hx & -> & Hxk). destruct (decide (x = w)) as [->|Hxw].
      * by apply Hww in Hxk as [_ ?].
      * apply Hfr in Hxk; [|done..]. destruct Hxw. apply (H4 x w k Hx Hw); (apply (waits_acks s); [by apply H1|done]).
    + rewrite lookup_delete_ne, H2 by done. split; intros (x & Hx & -> & Hxj); exists x; (split_and!; [done|done|]);
        (destruct (decide (x = w)) as [->|Hxw]; [|by apply Hfr]).
      * by apply Hww.
      * by apply Hww in Hxj as [? _].
Qed.

Lemma received_ok ws s k : acks_ok ws s ->
  swp (AcknowledgmentStore_receivedAck k) (fun r s' => acks_ok ws s' /\ as_storeMap s' !! k = None /\
    r = bool_decide (is_Some (as_storeMap s !! k)) /\
    forall w, w ∈ ws -> waits_for s w k -> exists received, as_maps s' !! w_received w = Some received /\ received !! k = w_acks w !! k) s.
Proof.
  intros H. pose proof H as [H1 H2 H3 H4]. unfold AcknowledgmentStore_receivedAck. apply swp_bind, swp_get.
  destruct (as_storeMap s !! k) as [e|] eqn:Ek.
  2:{ apply swp_ret. split_and!; [done|done|by rewrite bool_decide_false by (by intros [? ?])|]. intros w Hw Hwk.
      assert (as_storeMap s !! k = Some (entry_of w)) by (apply H2; by exists w). congruence. }
  destruct (proj1 (H2 k e) Ek) as (w & Hw & -> & wait & E1 & v & Hk). cbn [entry_of ase_waitMap ase_receivedMap ase_notifier].
  destruct (H1 w Hw) as (wait' & received & E1' & E2 & Hd & Hu & _). assert (wait' = wait) as -> by congruence. clear E1'.
  pose proof (maps_ne ws w H3 Hw) as Hne.
  assert (Hr : received !! k = None) by (by apply (map_disjoint_Some_l wait received k v)).
  apply swp_bind. eapply swp_mono; [by apply at_spec|]. intros ? s0 (-> & ->). rewrite Hk.
  unfold WaitAckMap_insert, WaitAckMap_erase. do 3 apply swp_bind. eapply swp_mono; [by apply at_spec|]. intros ? s0 (-> & ->).
  rewrite Hr. apply swp_mod. do 2 apply swp_bind.
  eapply swp_mono; [apply at_spec; cbn [set_map as_maps]; by rewrite lookup_insert_ne|]. intros ? s0 (-> & ->). apply swp_mod.
  apply swp_bind. eapply swp_mono; [apply at_spec; cbn [set_map as_maps]; by rewrite lookup_insert_eq|]. intros ? s0 (-> & ->). apply swp_bind.
  assert (Hlast : forall s' sig, as_signalled s ⊆ sig -> (delete k wait = ∅ -> w_notifier w ∈ sig) ->
    s' = mkAckState (delete k (as_storeMap s)) (<[w_wait w := delete k wait]> (<[w_received w := <[k := v]> received]> (as_maps s))) sig ->
    acks_ok ws s' /\ as_storeMap s' !! k = None /\ true = bool_decide (is_Some (Some (entry_of w))) /\
    forall x, x ∈ ws -> waits_for s x k -> exists received, as_maps s' !! w_received x = Some received /\ received !! k = w_acks x !! k).
  { intros s' sig Hsub Hsig ->. split_and!.
    - by apply (moved_ok ws s _ w k v wait received).
    - apply lookup_delete_eq.
    - by rewrite bool_decide_true.
    - intros x Hx Hxk. assert (x = w) as ->.
      { apply (H4 x w k Hx Hw); (apply (waits_acks s); [by apply H1|]); [done|]. exists wait. split; [done|by eexists]. }
      exists (<[k := v]> received). cbn [as_maps]. rewrite lookup_insert_ne, lookup_insert_eq by done. split; [done|].
      rewrite lookup_insert_eq, <- Hu. symmetry. by apply lookup_union_Some_l. }
  destruct (bool_decide_reflect (delete k wait = ∅)) as [He|He]; [apply swp_mod|apply swp_ret]; apply swp_ret, swp_bind; unfold AckStoreMap_erase; apply swp_mod, swp_ret;
    (eapply Hlast; [| |done]); cbn [set_map set_signalled as_signalled]; [set_solver|set_solver|done|done].
Qed.

Lemma astep_ok c c' : acks_ok (fst c) (snd c) -> astep c c' -> acks_ok (fst c') (snd c').
Proof.
  intros H Hs. destruct Hs as [ws s p m Hp|ws s s' w Hm E|ws ws' s s' w Hp E|ws s n Hn|ws s s' k r E]; cbn [fst snd] in *.
  - eapply acks_frame; [| | |exact H]; [done| |done]. intros q Hq. cbn [set_map as_maps]. rewrite lookup_insert_ne; [done|by intros ->].
  - pose proof (register_ok ws s w H Hm) as Hr. unfold swp in Hr. by rewrite E in Hr.
  - pose proof (unregister_ok ws ws' s w H Hp) as Hr. unfold swp in Hr. rewrite E in Hr. apply Hr.
  - eapply acks_frame; [| | |exact H]; [done|done|]. intros w Hw Hsig. cbn [as_signalled]. apply elem_of_difference. split; [done|].
    intros E%elem_of_singleton. apply Hn. rewrite <- E. by apply list_elem_of_fmap_2.
  - pose proof (received_ok ws s k H) as Hr. unfold swp in Hr. rewrite E in Hr. apply Hr.
Qed.

(** C22: waiting for acks is safe, and loses none.  However threads register and take back
    acks with different IDs, and acks arrive: every registered ack of a thread is either
    still expected or received, never both, with the data that the thread gave it; the store
    has exactly the acks that are still expected, with pointers to the maps of their threads,
    so it never points to a map of a thread that is gone; taking back does not fault; the
    arrival of an ack succeeds, and says whether someone expected it; and when all acks
    of a thread are there, it was signalled, so that it does not sleep in vain. *)
Theorem ack_store_safe (ws : list Waiter) (s : AckState) :
  rtc astep ([], mkAckState ∅ ∅ ∅) (ws, s) ->
  (forall w, w ∈ ws -> waiter_ok s w) /\
  (forall k e, as_storeMap s !! k = Some e <-> exists w, w ∈ ws /\ e = entry_of w /\ waits_for s w k) /\
  (forall w, w ∈ ws -> exists s', AcknowledgmentStore_unregisterWaitAcks (w_wait w) s = Done (tt, s') /\
    as_maps s' = as_maps s /\ forall k, waits_for s w k -> as_storeMap s' !! k = None) /\
  (forall k, exists s', AcknowledgmentStore_receivedAck k s = Done (bool_decide (is_Some (as_storeMap s !! k)), s') /\
    forall w, w ∈ ws -> waits_for s w k -> exists received, as_maps s' !! w_received w = Some received /\ received !! k = w_acks w !! k) /\
  (forall w, w ∈ ws -> exists sleep, waitForAckCompletion_check (w_wait w) s = Done (sleep, s) /\
    waitForAckCompletion_result (w_wait w) s = Done (negb sleep, s) /\
    (sleep = false -> w_acks w <> ∅ -> w_notifier w ∈ as_signalled s)).
Proof.
  intros Hr. assert (H : acks_ok ws s).
  { change (acks_ok (fst (ws, s)) (snd (ws, s))). revert Hr. generalize (ws, s). intros c Hr.
    remember ([] : list Waiter, mkAckState ∅ ∅ ∅) as c0 eqn:E0. assert (H0 : acks_ok (fst c0) (snd c0)).
    { subst c0. constructor; cbn.
      - by intros w ?%not_elem_of_nil.
      - intros k e. rewrite lookup_empty. split; [done|]. by intros (w & ?%not_elem_of_nil & _).
      - constructor.
      - by intros w w' k ?%not_elem_of_nil. }
    clear E0. induction Hr as [|c1 c2 c3 H12 H23 IH]; [done|]. by apply IH, (astep_ok c1). }
  split_and!; [apply H|apply H| | |].
  - intros w Hw. destruct (elem_of_Permutation ws w) as [Hp _]. destruct (Hp Hw) as [ws' Hp'].
    destruct (proj1 (swp_run _ _ _) (unregister_ok ws ws' s w H Hp')) as ([] & s' & E & _ & Hm). by exists s'.
  - intros k. destruct (proj1 (swp_run _ _ _) (received_ok ws s k H)) as (r & s' & E & _ & _ & -> & Hm). by exists s'.
  - intros w Hw. destruct (ao_waiters ws s H w Hw) as (wait & received & E1 & _ & _ & _ & Hsig). exists (bool_decide (wait <> ∅)).
    unfold waitForAckCompletion_check, waitForAckCompletion_result, WaitAckMap_at, mbind, ST_bind, st_lift. cbn [st_get]. rewrite E1. cbn.
    split; [done|]. split; [by destruct (bool_decide_reflect (wait <> ∅)), (bool_decide_reflect (wait = ∅))|].
    intros Hs%bool_decide_eq_false. apply Hsig. by destruct (decide (wait = ∅)).
Qed.

(** Two threads with the same ack ID crash.  When a thread registers an ID that
    another one is waiting for, its entry is dropped without notice; once the other one has taken
    its acks back, the entry is gone, and taking back one's own follows a null pointer. *)
Theorem duplicate_ack_id (s : AckState) (w1 w2 : Waiter) (k : mem) :
  may_register [] s w1 -> (forall j, as_storeMap s !! j = None) ->
  as_maps s !! w_wait w2 = Some (w_acks w2) ->
  is_Some (w_acks w1 !! k) -> is_Some (w_acks w2 !! k) ->
  exists s1 s2 s3,
    AcknowledgmentStore_registerWaitAcks (w_wait w1) (w_received w1) (w_notifier w1) s = Done (tt, s1) /\
    AcknowledgmentStore_registerWaitAcks (w_wait w2) (w_received w2) (w_notifier w2) s1 = Done (tt, s2) /\
    as_storeMap s2 !! k = Some (entry_of w1) /\
    AcknowledgmentStore_unregisterWaitAcks (w_wait w1) s2 = Done (tt, s3) /\
    AcknowledgmentStore_unregisterWaitAcks (w_wait w2) s3 = Fault.
Proof.
  intros (E1 & _) He E2 K1 K2.
  assert (Hreg : forall w t, as_maps t !! w_wait w = Some (w_acks w) -> exists t',
    AcknowledgmentStore_registerWaitAcks (w_wait w) (w_received w) (w_notifier w) t = Done (tt, t') /\ as_maps t' = as_maps t /\
    forall j, as_storeMap t' !! j = match as_storeMap t !! j with Some e => Some e
      | None => if decide (j ∈ (map_to_list (w_acks w)).*1) then Some (entry_of w) else None end).
  { intros w t Ew. enough (H : swp (AcknowledgmentStore_registerWaitAcks (w_wait w) (w_received w) (w_notifier w))
      (fun _ t' => as_maps t' = as_maps t /\ forall j, as_storeMap t' !! j = match as_storeMap t !! j with Some e => Some e
      | None => if decide (j ∈ (map_to_list (w_acks w)).*1) then Some (entry_of w) else None end) t)
      by (apply swp_run in H as ([] & t' & E & Hm & Hj); by exists t').
    apply swp_bind. eapply swp_mono; [by apply at_spec|]. intros ? ? (-> & ->). eapply swp_mono; [apply register_loop_spec|].
    intros ? t' (Em & _ & Hj). by split. }
  destruct (Hreg w1 s E1) as (s1 & R1 & M1 & S1). destruct (Hreg w2 s1) as (s2 & R2 & M2 & S2); [by rewrite M1|].
  assert (Hk2 : forall j, is_Some (w_acks w1 !! j) -> as_storeMap s2 !! j = Some (entry_of w1)).
  { intros j Hj. rewrite S2, S1, He, decide_True; [done|]. by apply keys_spec. }
  assert (H3 : swp (AcknowledgmentStore_unregisterWaitAcks (w_wait w1)) (fun _ s3 => as_maps s3 = as_maps s /\ as_storeMap s3 !! k = None) s2).
  { apply swp_bind. eapply swp_mono; [apply at_spec; by rewrite M2, M1|]. intros ? ? (-> & ->).
    eapply swp_mono; [apply unregister_loop_spec; [apply NoDup_fst_map_to_list|]|].
    - intros j Hj%keys_spec. eexists. by apply Hk2.
    - intros ? s3 (Em & _ & Hs). split; [congruence|]. rewrite Hs, decide_True; [done|by apply keys_spec]. }
  apply swp_run in H3 as ([] & s3 & R3 & M3 & N3). exists s1, s2, s3. split_and!; [done|done|by apply Hk2|done|].
  unfold AcknowledgmentStore_unregisterWaitAcks, WaitAckMap_at, mbind, ST_bind, st_lift. cbn [st_get]. rewrite M3, E2. cbn [of_option].
  assert (Hin : k ∈ (map_to_list (w_acks w2)).*1) by (by apply keys_spec). clear -N3 Hin. revert s3 N3.
  induction (map_to_list (w_acks w2)).*1 as [|j l IH]; intros s3 N3; [by apply not_elem_of_nil in Hin|].
  cbn [unregister_loop]. unfold mbind, ST_bind, st_lift, AckStoreMap_erase. cbn [st_get st_mod].
  destruct (as_storeMap s3 !! j) as [e|] eqn:Ej; cbn [of_option]; [|done].
  apply elem_of_cons in Hin as [->|Hin]; [congruence|]. apply (IH Hin). cbn [set_storeMap as_storeMap].
  apply lookup_delete_None. by right.
Qed.

(** ** Examples *)

Module SmallAcks.
Definition ack (b : Z) : mem := [65; b].
Definition waiter1 : Waiter := mkWaiter 10 11 5 {[ack 66 := 1; ack 67 := 2]}.
Definition waiter2 : Waiter := mkWaiter 20 21 6 {[ack 66 := 7]}.
Definition maps : AckState :=
  mkAckState ∅ (<[10 := w_acks waiter1]> (<[11 := ∅]> (<[20 := w_acks waiter2]> ∅))) ∅.
End SmallAcks.

Lemma duplicate_ack_id_witness :
  exists s3, AcknowledgmentStore_unregisterWaitAcks 20 s3 = Fault.
Proof.
  destruct (duplicate_ack_id SmallAcks.maps SmallAcks.waiter1 SmallAcks.waiter2 (SmallAcks.ack 66)) as (s1 & s2 & s3 & _ & _ & _ & _ & E).
  - split_and!; [done|done|by apply (bool_decide_unpack _); vm_compute|by apply (bool_decide_unpack _); vm_compute|].
    by intros w k ?%not_elem_of_nil.
  - intros j. apply lookup_empty.
  - done.
  - by eexists.
  - by eexists.
  - by exists s3.
Defined.

Lemma ack_store_safe_witness :
  exists ws s, rtc astep ([], mkAckState ∅ ∅ ∅) (ws, s) /\ waiter_ok s SmallAcks.waiter1 /\
    as_storeMap s !! SmallAcks.ack 67 = Some (entry_of SmallAcks.waiter1).
Proof.
  pose (s0 := mkAckState ∅ ∅ ∅). pose (s1 := set_map 10 (w_acks SmallAcks.waiter1) s0). pose (s2 := set_map 11 ∅ s1).
  pose (s3 := match AcknowledgmentStore_registerWaitAcks 10 11 5 s2 with Done (_, s) => s | Fault => s2 end).
  pose (s4 := match AcknowledgmentStore_receivedAck (SmallAcks.ack 66) s3 with Done (_, s) => s | Fault => s3 end).
  assert (Hr : rtc astep ([], s0) ([SmallAcks.waiter1], s4)).
  { eapply rtc_l; [apply (A_maps [] s0 10 (w_acks SmallAcks.waiter1)); by intros ?%not_elem_of_nil|].
    eapply rtc_l; [apply (A_maps [] s1 11 ∅); by intros ?%not_elem_of_nil|].
    eapply rtc_l; [apply (A_register [] s2 s3 SmallAcks.waiter1); [|by vm_compute]|].
    { split_and!; [by vm_compute|by vm_compute|by apply (bool_decide_unpack _); vm_compute|by apply (bool_decide_unpack _); vm_compute|].
      by intros w k ?%not_elem_of_nil. }
    eapply rtc_l; [by apply (A_received _ s3 s4 (SmallAcks.ack 66) true); vm_compute|]. apply rtc_refl. }
  exists [SmallAcks.waiter1], s4. split; [exact Hr|]. destruct (ack_store_safe [SmallAcks.waiter1] s4 Hr) as (H1 & _).
  split; [apply H1; by left|by vm_compute].
Defined.
