(* ===== verification/AckManager.v ===== *)
(** * The manager of reliable acknowledgements

    [components/AckManager.h/.c]: a queue of acks to metadata servers, sent by a thread of
    its own.  While a message is on its way the mutex of the queue is released, and other
    threads append to the queue ([AckManager_addAckToQueue]); nobody else removes from it.
    The condition variable, log messages and the age of an entry are left out. *)

From stdpp Require Import list.
From S2P Require Import Prelude StateMonad Serialization SerializationLists NetMessage Responses.
From S2P Require Import CommKit MessagingTk MessagingTkProps.

Definition ACKMANAGER_MSGBUF_LEN : Z := 4096.

Record AckQueueEntry := mkAck { aq_metaNodeID : Z; aq_ackID : mem }.
Record AckManager := mkAckManager { ackMsgBuf : mem; ackQueue : list AckQueueEntry }.

Definition set_msgBuf (b : mem) (this : AckManager) : AckManager := mkAckManager b (ackQueue this).
Definition set_queue (q : list AckQueueEntry) (this : AckManager) : AckManager := mkAckManager (ackMsgBuf this) q.

Definition AckManager_init (vmalloc : mem) : AckManager := mkAckManager vmalloc [].
Definition AckManager_uninit (this : AckManager) : AckManager := set_queue [] this.

(** The strings of the entry are copies. *)
Definition AckManager_addAckToQueue (metaNodeID : Z) (ackID : mem) (this : AckManager) : AckManager :=
  set_queue (ackQueue this ++ [mkAck metaNodeID ackID]) this.
Definition AckManager_getAckQueueSize (this : AckManager) : Z := Z.of_nat (length (ackQueue this)).

(** From the place [iter] of the queue on; the entries that are dropped are freed. *)
Definition __AckManager_removeQueueEntriesByNode (nodeID : Z) (iter : nat) (q : list AckQueueEntry)
    : list AckQueueEntry :=
  take iter q ++
    (fix remove (l : list AckQueueEntry) : list AckQueueEntry :=
       match l with
       | [] => []
       | currentAck :: l => if nodeID =? aq_metaNodeID currentAck then remove l else currentAck :: remove l
       end) (drop iter q).

(** ** The surroundings

    [acks_added]: what other threads append while the mutex is released. *)
Class AckEnv (W : Type) := {
  ack_rpc : RPCEnv W;
  acks_added : W -> list AckQueueEntry * W;
  Thread_getSelfTerminate : W -> bool * W }.
#[export] Existing Instance ack_rpc.

(** A run of the thread, with what it holds, and what it sent with the results, the
    newest first. *)
Record AckRun (W : Type) := mkAckRun {
  ar_world : W; ar_this : AckManager; ar_held : Held; ar_sends : list (mem * Z) }.
Arguments mkAckRun {W}.
Arguments ar_world {W}.
Arguments ar_this {W}.
Arguments ar_held {W}.
Arguments ar_sends {W}.

(** What became of an entry: its node is not known, its message does not fit into the
    buffer, it was sent, or both attempts failed; and the later entries of its node that
    were removed with it.  The code keeps no such record. *)
Inductive AckResult := AckNoNode | AckTooLong | AckSent | AckFailed.
#[export] Instance AckResult_eq_dec : EqDecision AckResult.
Proof. solve_decision. Defined.
Record AckDone := mkAckDone { ad_ack : AckQueueEntry; ad_result : AckResult; ad_dropped : list AckQueueEntry }.

Section Manager.
Context {W : Type} `{!AckEnv W} (currentUserID : Z).
Notation AR := (ST (AckRun W)).

Definition env {A} (f : W -> A * W) : AR A := fun s =>
  let '(a, w) := f (ar_world s) in Done (a, mkAckRun w (ar_this s) (ar_held s) (ar_sends s)).
Definition env_ (f : W -> W) : AR unit :=
  st_mod (fun s => mkAckRun (f (ar_world s)) (ar_this s) (ar_held s) (ar_sends s)).
Definition upd_this (f : AckManager -> AckManager) : AR unit :=
  st_mod (fun s => mkAckRun (ar_world s) (f (ar_this s)) (ar_held s) (ar_sends s)).
Definition upd_held (f : Held -> option Held) : AR unit := fun s =>
  match f (ar_held s) with
  | Some h => Done (tt, mkAckRun (ar_world s) (ar_this s) h (ar_sends s))
  | None => Fault
  end.
Definition record_send (bytes : mem) (res : Z) : AR unit :=
  st_mod (fun s => mkAckRun (ar_world s) (ar_this s) (ar_held s) ((bytes, res) :: ar_sends s)).

(** What the other threads did meanwhile. *)
Definition relock : AR unit :=
  added ← env acks_added;
  upd_this (fun this => set_queue (ackQueue this ++ added) this).

(** One attempt, without the mutex: whether all was sent. *)
Definition send_ack (node msgLen : Z) : AR bool :=
  sock ← env (NodeConnPool_acquireStreamSocketEx node true);
  sent ←
    match sock with
    | None => mret false
    | Some sock =>
        _ ← upd_held (hold_conn (node, sock));
        s ← st_get;
        bytes ← st_lift (read_block (ackMsgBuf (ar_this s)) 0 msgLen);
        sendRes ← env (CommKit.Socket_send sock bytes);
        _ ← record_send bytes sendRes;
        _ ← upd_held (drop_conn (node, sock));
        let ok := sendRes =? msgLen in
        _ ← env_ ((if ok then NodeConnPool_releaseStreamSocket else NodeConnPool_invalidateStreamSocket)
                    node sock);
        mret ok
    end;
  _ ← relock;
  mret sent.

Definition maxNumCommRetries : nat := 1.

(** [removeAllNextByNode] *)
Fixpoint send_loop (tries : nat) (node msgLen : Z) : AR bool :=
  match tries with
  | O => mret true
  | S tries => sent ← send_ack node msgLen; if sent : bool then mret false else send_loop tries node msgLen
  end.

(** The entry [currentAck] is at the head of the queue. *)
Definition process_ack (currentAck : AckQueueEntry) : AR AckDone :=
  node ← env (NodeStoreEx_referenceNode (aq_metaNodeID currentAck));
  match node with
  | None => mret (mkAckDone currentAck AckNoNode [])
  | Some node =>
      _ ← upd_held (hold_node node);
      '(msgLen, msg) ← st_lift (NetMessage_getMsgLength SimpleStringMsg_Ops
                                  (NetMessage_init currentUserID NETMSGTYPE_Ack) (aq_ackID currentAck));
      s ← st_get;
      '(serialRes, _, buf) ← st_lift (NetMessage_serialize SimpleStringMsg_Ops msg (aq_ackID currentAck)
                                        (ackMsgBuf (ar_this s)) 0 ACKMANAGER_MSGBUF_LEN);
      _ ← upd_this (set_msgBuf buf);
      '(result, dropped) ←
        (if negb serialRes then mret (AckTooLong, []) else
         removeAllNextByNode ← send_loop (S maxNumCommRetries) node (u32 msgLen);
         if removeAllNextByNode : bool then
           s ← st_get;
           let q := ackQueue (ar_this s) in
           _ ← upd_this (set_queue (__AckManager_removeQueueEntriesByNode (aq_metaNodeID currentAck) 1 q));
           mret (AckFailed, filter (fun e => aq_metaNodeID e = aq_metaNodeID currentAck) (drop 1 q))
         else mret (AckSent, []));
      _ ← upd_held (drop_node node);
      _ ← env_ (Node_put node);
      mret (mkAckDone currentAck result dropped)
  end.

(** The iterator is at the head of the queue in every turn; [None]: it still goes on. *)
Fixpoint process_loop (turns : nat) : AR (option (list AckDone)) :=
  match turns with
  | O => mret None
  | S turns =>
      s ← st_get;
      match ackQueue (ar_this s) with
      | [] => mret (Some [])
      | currentAck :: _ =>
          selfTerminate ← env Thread_getSelfTerminate;
          if selfTerminate : bool then mret (Some []) else
          d ← process_ack currentAck;
          _ ← upd_this (fun this => set_queue (drop 1 (ackQueue this)) this);
          log ← process_loop turns;
          mret (cons d <$> log)
      end
  end.

Definition __AckManager_processAckQueue := process_loop.

(** *** The pass over the queue *)

(** What is on the wire for an entry. *)
Definition ack_wire (e : AckQueueEntry) : mem :=
  enc_header (45 + mlen (aq_ackID e)) (NetMessage_init currentUserID NETMSGTYPE_Ack) ++ enc_str (aq_ackID e).
Definition ack_ok (e : AckQueueEntry) : Prop := mlen (aq_ackID e) + 45 < 2 ^ 32.

End Manager.

(** What the code relies on: finitely many acks are added while the thread works (at
    most [ack_pending] from now on), all of a sane length. *)
Class AckEnvLaws (W : Type) `{!AckEnv W} := {
  ack_pending : W -> nat;
  acks_added_ok w : Forall ack_ok (fst (acks_added w)) /\
    (length (fst (acks_added w)) + ack_pending (snd (acks_added w)) <= ack_pending w)%nat;
  pending_stop w : (ack_pending (snd (Thread_getSelfTerminate w)) <= ack_pending w)%nat;
  pending_reference i w : (ack_pending (snd (NodeStoreEx_referenceNode i w)) <= ack_pending w)%nat;
  pending_acquire i b w : (ack_pending (snd (NodeConnPool_acquireStreamSocketEx i b w)) <= ack_pending w)%nat;
  pending_send k b w : (ack_pending (snd (CommKit.Socket_send k b w)) <= ack_pending w)%nat;
  pending_release i k w : (ack_pending (NodeConnPool_releaseStreamSocket i k w) <= ack_pending w)%nat;
  pending_invalidate i k w : (ack_pending (NodeConnPool_invalidateStreamSocket i k w) <= ack_pending w)%nat;
  pending_put i w : (ack_pending (Node_put i w) <= ack_pending w)%nat }.

(** What was sent completely, the newest first. *)
Definition delivered (sends : list (mem * Z)) : list mem :=
  fst <$> filter (fun x => snd x = mlen (fst x)) sends.

Section Pass.
Context {W : Type} `{!AckEnv W} `{L : !AckEnvLaws W} (uid : Z).
Implicit Types s : AckRun W.

Definition q_of s : list AckQueueEntry := ackQueue (ar_this s).
Definition buf_ok s : Prop := mlen (ackMsgBuf (ar_this s)) = ACKMANAGER_MSGBUF_LEN.

(** [s'] follows [s]: only [added] came to the queue, [new] was sent. *)
Record follows s s' (added : list AckQueueEntry) (new : list (mem * Z)) : Prop := mkFollows {
  fo_queue : q_of s' = q_of s ++ added;
  fo_ok : Forall ack_ok added;
  fo_pending : (length added + ack_pending (ar_world s') <= ack_pending (ar_world s))%nat;
  fo_sends : ar_sends s' = new ++ ar_sends s;
  fo_held : ar_held s' = ar_held s;
  fo_buf : ackMsgBuf (ar_this s') = ackMsgBuf (ar_this s) }.

Lemma env_spec {A} (f : W -> A * W) (Q : A -> AckRun W -> Prop) s :
  (forall a w, f (ar_world s) = (a, w) -> Q a (mkAckRun w (ar_this s) (ar_held s) (ar_sends s))) -> swp (env f) Q s.
Proof. intros H. unfold swp, env. destruct (f (ar_world s)) as [a w] eqn:E. by apply H. Qed.

Lemma held_spec (f : Held -> option Held) h (Q : unit -> AckRun W -> Prop) s :
  f (ar_held s) = Some h -> Q tt (mkAckRun (ar_world s) (ar_this s) h (ar_sends s)) -> swp (upd_held f) Q s.
Proof. intros E H. unfold swp, upd_held. by rewrite E. Qed.

Lemma ack_wire_length e : mlen (ack_wire uid e) = 45 + mlen (aq_ackID e).
Proof. unfold ack_wire. rewrite mlen_app, mlen_enc_header, Serialization.mlen_enc_str. lia. Qed.

Lemma follows_refl s : follows s s [] [].
Proof. split; rewrite ?app_nil_r; simpl; done || lia. Qed.
Lemma follows_trans s1 s2 s3 a b n1 n2 : follows s1 s2 a n1 -> follows s2 s3 b n2 -> follows s1 s3 (a ++ b) (n2 ++ n1).
Proof.
  intros [] []. split; try congruence.
  - rewrite fo_queue1, fo_queue0. by rewrite app_assoc.
  - by apply Forall_app.
  - rewrite length_app. lia.
  - rewrite fo_sends1, fo_sends0. by rewrite app_assoc.
Qed.
Lemma follows_world s w h : (ack_pending w <= ack_pending (ar_world s))%nat -> h = ar_held s ->
  follows s (mkAckRun w (ar_this s) h (ar_sends s)) [] [].
Proof. intros Hw ->. split; unfold q_of; cbn; rewrite ?app_nil_r; done || lia. Qed.

Lemma relock_ok s : swp relock (fun _ s' => exists added, follows s s' added []) s.
Proof.
  unfold relock. sstep. apply env_spec. intros added w E. sstep.
  pose proof (acks_added_ok (ar_world s)) as Ha. rewrite E in Ha. destruct Ha as [Ha1 Ha2]. exists added. by split.
Qed.
#[local] Opaque relock.

(** An attempt: with a result, the whole message or nothing of it is delivered. *)
Lemma send_ack_ok node e s : h_conn (ar_held s) = None -> buf_ok s -> 45 + mlen (aq_ackID e) <= ACKMANAGER_MSGBUF_LEN ->
  slice (ackMsgBuf (ar_this s)) 0 (45 + mlen (aq_ackID e)) = ack_wire uid e ->
  swp (send_ack node (45 + mlen (aq_ackID e))) (fun b s' => exists added new,
    follows s s' added new /\ delivered new = if b then [ack_wire uid e] else []) s.
Proof.
  intros Hc Hb Hl Hw. unfold send_ack. pose proof (mlen_nonneg (aq_ackID e)).
  pose proof (ack_wire_length e) as Hwl.
  assert (Hend : forall s1 (b : bool) new, follows s s1 [] new -> delivered new = (if b then [ack_wire uid e] else []) ->
    swp relock (fun _ s2 => exists added new,
      follows s s2 added new /\ delivered new = if b then [ack_wire uid e] else []) s1).
  { intros s1 b new Hf Hd. eapply swp_mono; [apply relock_ok|]. intros _ s2 [added Hf2].
    exists added, new. split; [|done]. apply (follows_trans _ _ _ [] added new [] Hf Hf2). }
  sstep. apply env_spec. intros sock w E. pose proof (pending_acquire node true (ar_world s)) as P. rewrite E in P. cbn in P.
  destruct sock as [k|]; [|sstep; apply (Hend _ false []); [by apply follows_world|done]].
  sstep. eapply held_spec; [cbn; unfold hold_conn; by rewrite Hc|]. sstep.
  eapply swp_lift.
  { cbn. apply read_block_Done; [lia..|]. unfold buf_ok in Hb. lia. }
  cbn in Hw |- *. rewrite Hw. clear E. sstep. apply env_spec. cbn. intros res w2 E.
  pose proof (pending_send k (ack_wire uid e) w) as P2. rewrite E in P2. cbn in P2. unfold record_send. sstep.
  eapply held_spec; [unfold drop_conn; cbn; by rewrite bool_decide_true|]. sstep.
  apply (Hend _ _ [(ack_wire uid e, res)]).
  - split; unfold q_of; cbn; rewrite ?app_nil_r; try done.
    + destruct (res =? _); [pose proof (pending_release node k w2)|pose proof (pending_invalidate node k w2)]; lia.
    + destruct s as [? ? [] ?]; cbn in *. by subst.
  - unfold delivered. rewrite filter_cons. cbn. destruct (Z.eqb_spec res (45 + mlen (aq_ackID e))) as [->|Hn].
    + by rewrite decide_True.
    + rewrite decide_False; [done|]. congruence.
Qed.

Lemma delivered_app a b : delivered (a ++ b) = delivered a ++ delivered b.
Proof. unfold delivered. by rewrite filter_app, fmap_app. Qed.

Lemma send_loop_ok tries node e s : h_conn (ar_held s) = None -> buf_ok s -> 45 + mlen (aq_ackID e) <= ACKMANAGER_MSGBUF_LEN ->
  slice (ackMsgBuf (ar_this s)) 0 (45 + mlen (aq_ackID e)) = ack_wire uid e ->
  swp (send_loop tries node (45 + mlen (aq_ackID e))) (fun failed s' => exists added new,
    follows s s' added new /\ delivered new = if failed then [] else [ack_wire uid e]) s.
Proof.
  revert s. induction tries as [|tries IH]; intros s Hc Hb Hl Hw; cbn [send_loop].
  { exists [], []. split; [apply follows_refl|done]. }
  apply swp_bind. eapply swp_mono; [by apply send_ack_ok|]. intros [] s1 (a & n & Hf & Hd); [by exists a, n|].
  pose proof Hf as [_ _ _ _ Hh Hb1]. eapply swp_mono.
  { apply IH; unfold buf_ok; rewrite ?Hh, ?Hb1; done. }
  intros failed s2 (a2 & n2 & Hf2 & Hd2). exists (a ++ a2), (n2 ++ n). split; [by eapply follows_trans|].
  rewrite delivered_app, Hd2, Hd. by rewrite app_nil_r.
Qed.

Lemma remove_filter id q : __AckManager_removeQueueEntriesByNode id 1 q =
  take 1 q ++ filter (fun e => aq_metaNodeID e <> id) (drop 1 q).
Proof.
  unfold __AckManager_removeQueueEntriesByNode. f_equal. induction (drop 1 q) as [|e l IH]; [done|].
  rewrite filter_cons. destruct (Z.eqb_spec id (aq_metaNodeID e)) as [->|Hn].
  - by rewrite decide_False by auto.
  - rewrite decide_True by congruence. by rewrite IH.
Qed.

(** Serializing into the buffer of the manager. *)
Lemma serialize_ack e s : ack_ok e -> buf_ok s ->
  let h := NetMessage_init uid NETMSGTYPE_Ack in
  let total := 45 + mlen (aq_ackID e) in
  NetMessage_getMsgLength SimpleStringMsg_Ops h (aq_ackID e) = Done (total, header_set_length h total) /\
  NetMessage_serialize SimpleStringMsg_Ops (header_set_length h total) (aq_ackID e) (ackMsgBuf (ar_this s)) 0
    ACKMANAGER_MSGBUF_LEN =
    if ACKMANAGER_MSGBUF_LEN <? total then Done (false, header_set_length h total, ackMsgBuf (ar_this s))
    else Done (true, header_set_length h total, put (ackMsgBuf (ar_this s)) 0 (ack_wire uid e)).
Proof.
  intros He Hb h total. unfold ack_ok in He. unfold buf_ok in Hb. pose proof (mlen_nonneg (aq_ackID e)).
  pose proof (simplestring_writes h (aq_ackID e) ltac:(lia)) as Hw.
  pose proof (getMsgLength_run SimpleStringMsg_Ops h _ _ eq_refl ltac:(rewrite Serialization.mlen_enc_str; lia)) as E1.
  pose proof (serialize_run SimpleStringMsg_Ops h _ _ (ackMsgBuf (ar_this s)) 0 ACKMANAGER_MSGBUF_LEN eq_refl
    ltac:(rewrite Serialization.mlen_enc_str; lia) ltac:(lia) ltac:(done) ltac:(lia)) as E2.
  rewrite Serialization.mlen_enc_str in E1, E2.
  replace (40 + (mlen (aq_ackID e) + 5)) with total in E1, E2 by (unfold total; lia).
  split; [exact E1|]. unfold NetMessage_serialize in E2 |- *. rewrite E1 in E2.
  assert (E3 : NetMessage_getMsgLength SimpleStringMsg_Ops (header_set_length h total) (aq_ackID e) =
    Done (total, header_set_length h total)).
  { unfold NetMessage_getMsgLength. cbn [msgLength header_set_length].
    destruct (Z.eqb_spec total 0); [unfold total in *; lia|done]. }
  rewrite E3. exact E2.
Qed.

Definition same_node (e : AckQueueEntry) (e' : AckQueueEntry) : Prop := aq_metaNodeID e' = aq_metaNodeID e.
#[export] Instance same_node_dec : RelDecision same_node.
Proof. intros e e'. unfold same_node. apply _. Defined.

(** What is taken from the queue with the head, of those that follow it. *)
Definition removed (e : AckQueueEntry) (r : AckResult) (l : list AckQueueEntry) : list AckQueueEntry :=
  if decide (r = AckFailed) then filter (same_node e) l else [].
Definition kept (e : AckQueueEntry) (r : AckResult) (l : list AckQueueEntry) : list AckQueueEntry :=
  if decide (r = AckFailed) then filter (fun e' => ~ same_node e e') l else l.

Record processed s s' e (rest added : list AckQueueEntry) (new : list (mem * Z)) (d : AckDone) : Prop := mkProcessed {
  pr_done : d = mkAckDone e (ad_result d) (removed e (ad_result d) (rest ++ added));
  pr_queue : q_of s' = e :: kept e (ad_result d) (rest ++ added);
  pr_ok : Forall ack_ok added;
  pr_pending : (length added + ack_pending (ar_world s') <= ack_pending (ar_world s))%nat;
  pr_sends : ar_sends s' = new ++ ar_sends s;
  pr_delivered : delivered new = if decide (ad_result d = AckSent) then [ack_wire uid e] else [];
  pr_held : ar_held s' = ar_held s;
  pr_buf : buf_ok s' }.

#[local] Opaque send_loop.

Lemma process_ack_ok e rest s : q_of s = e :: rest -> ack_ok e -> buf_ok s ->
  h_conn (ar_held s) = None -> h_node (ar_held s) = None ->
  swp (process_ack uid e) (fun d s' => exists added new, processed s s' e rest added new d) s.
Proof.
  intros Hq He Hb Hc Hn. unfold process_ack. apply swp_bind, env_spec. intros node w E.
  pose proof (pending_reference (aq_metaNodeID e) (ar_world s)) as P. rewrite E in P. cbn in P. clear E.
  destruct node as [node|].
  2: { sstep. exists [], []. unfold q_of in Hq. split; unfold q_of, removed, kept; cbn; rewrite ?app_nil_r; done || lia. }
  apply swp_bind. eapply held_spec; [unfold hold_node; cbn; by rewrite Hn|].
  destruct (serialize_ack e s He Hb) as [E1 E2].
  apply swp_bind. eapply swp_lift; [exact E1|]. sstep.
  destruct (Z.ltb_spec ACKMANAGER_MSGBUF_LEN (45 + mlen (aq_ackID e))) as [Hl|Hl] in E2;
    (eapply swp_lift; [exact E2|]); sstep.
  { eapply held_spec; [unfold drop_node; cbn; by rewrite bool_decide_true|]. sstep.
    pose proof (pending_put node w). exists [], [].
    unfold q_of in Hq. split; unfold q_of, removed, kept, buf_ok; cbn; rewrite ?app_nil_r; try done || lia.
    destruct s as [? ? [] ?]; cbn in *. by subst. }
  eapply swp_mono.
  { cbn. rewrite u32_id by (pose proof (mlen_nonneg (aq_ackID e)); unfold ack_ok in He; unfold in_u; lia).
    apply send_loop_ok; cbn; [done| |done|].
    - unfold buf_ok in *. cbn. rewrite mlen_put; [done|lia|rewrite ack_wire_length; lia].
    - rewrite <- ack_wire_length. apply slice_put; [lia|]. rewrite ack_wire_length. unfold buf_ok in Hb. lia. }
  intros failed s1 (added & new & [F1 F2 F3 F4 F5 F6] & Hd).
  unfold q_of in *. cbn in F1, F3, F4, F5, F6. rewrite Hq in F1.
  assert (Hb1 : mlen (ackMsgBuf (ar_this s1)) = ACKMANAGER_MSGBUF_LEN).
  { rewrite F6. unfold buf_ok in Hb. rewrite mlen_put; [done|lia|rewrite ack_wire_length; lia]. }
  pose proof (pending_put node (ar_world s1)).
  destruct failed; sstep; (eapply held_spec; [unfold drop_node; cbn; rewrite F5; cbn; by rewrite bool_decide_true|]);
    sstep; exists added, new.
  - split; unfold q_of, removed, kept, buf_ok; cbn; rewrite ?decide_True by done; try done.
    + rewrite F1. done.
    + rewrite remove_filter, F1. done.
    + lia.
    + destruct s as [? ? [] ?]; cbn in *. by subst.
  - split; unfold q_of, removed, kept, buf_ok; cbn; try done.
    + lia.
    + destruct s as [? ? [] ?]; cbn in *. by subst.
Qed.

(** *** The pass *)

Definition handled (log : list AckDone) : list AckQueueEntry := log ≫= fun d => ad_ack d :: ad_dropped d.

Definition done_ok (d : AckDone) : Prop :=
  Forall (same_node (ad_ack d)) (ad_dropped d) /\ (ad_result d <> AckFailed -> ad_dropped d = []).

Definition sent_acks (log : list AckDone) : list mem :=
  ack_wire uid ∘ ad_ack <$> filter (fun d => ad_result d = AckSent) log.

Record passed s s' (log : list AckDone) (added left : list AckQueueEntry) (new : list (mem * Z)) : Prop := mkPassed {
  pa_all : handled log ++ left ≡ₚ q_of s ++ added;
  pa_order : (ad_ack <$> log) ++ left `sublist_of` q_of s ++ added;
  pa_left : q_of s' = left;
  pa_sends : ar_sends s' = new ++ ar_sends s;
  pa_delivered : delivered new = reverse (sent_acks log);
  pa_held : ar_held s' = ar_held s;
  pa_done : Forall done_ok log;
  pa_stop : left = [] \/ exists w, Thread_getSelfTerminate w = (true, ar_world s') }.

Lemma removed_kept e r l : removed e r l ++ kept e r l ≡ₚ l.
Proof.
  unfold removed, kept. case_decide; [|done]. induction l as [|x l IH]; [done|]. rewrite !filter_cons.
  destruct (decide (same_node e x)) as [Hs|Hs].
  - rewrite decide_False by auto. simpl. by rewrite IH.
  - rewrite decide_True by done. rewrite <- Permutation_middle. by rewrite IH.
Qed.
Lemma kept_sub e r l : kept e r l `sublist_of` l.
Proof. unfold kept. case_decide; [apply sublist_filter|done]. Qed.
Lemma removed_done e r l : done_ok (mkAckDone e r (removed e r l)).
Proof.
  unfold done_ok, removed. cbn. case_decide; [|by split; [constructor|]]. split; [|done].
  apply Forall_forall. intros x Hx%list_elem_of_filter. by destruct Hx.
Qed.
Lemma kept_ok e r l : Forall ack_ok l -> Forall ack_ok (kept e r l).
Proof.
  unfold kept. intros Hl. case_decide; [|done]. rewrite Forall_forall in Hl |- *.
  intros x Hx%list_elem_of_filter. naive_solver.
Qed.

Lemma process_loop_ok turns s : Forall ack_ok (q_of s) -> buf_ok s ->
  h_conn (ar_held s) = None -> h_node (ar_held s) = None ->
  (length (q_of s) + ack_pending (ar_world s) < turns)%nat ->
  swp (process_loop uid turns) (fun r s' => exists log added left new, r = Some log /\ passed s s' log added left new) s.
Proof.
  revert s. induction turns as [|turns IH]; intros s Hq Hb Hc Hn Ht; [lia|]. cbn [process_loop].
  apply swp_bind, swp_get. fold (q_of s). destruct (q_of s) as [|e rest] eqn:Eq.
  { apply swp_ret. exists [], [], [], []. split; [done|]. split; rewrite ?app_nil_r; try done; [by rewrite Eq..|by left]. }
  apply swp_bind, env_spec. intros stop w E. pose proof (pending_stop (ar_world s)) as P. rewrite E in P. cbn in P.
  destruct stop.
  { apply swp_ret. exists [], [], (e :: rest), []. split; [done|].
    split; rewrite ?app_nil_r; try done; [by rewrite Eq..|by right; eexists]. }
  apply Forall_cons in Hq as [He Hr]. apply swp_bind.
  eapply swp_mono; [by apply (process_ack_ok e rest)|]. intros d s1 (added & new & [D1 D2 D3 D4 D5 D6 D7 D8]).
  cbn in D4, D5, D7. apply swp_bind, swp_mod, swp_bind. eapply swp_mono; [apply IH|].
  all: unfold q_of, buf_ok in *; cbn; rewrite ?D2, ?D7; cbn; try done.
  - apply kept_ok, Forall_app. done.
  - pose proof (sublist_length _ _ (kept_sub e (ad_result d) (rest ++ added))) as Hl. rewrite length_app in Hl.
    cbn in Ht, D4. rewrite drop_0. lia.
  - intros r s2 (log & added2 & left & new2 & -> & [A1 A2 A3 A4 A5 A6 A7 A8]). cbn in A4, A5, A6.
    unfold q_of in A1, A2. cbn in A1, A2. rewrite ?drop_0 in A1, A2.
    rewrite D1. set (r := ad_result d) in *. set (l := rest ++ added) in *.
    exists (mkAckDone e r (removed e r l) :: log), (added ++ added2), left, (new2 ++ new).
    split; [done|]. assert (Eq' : q_of s = e :: rest) by done. split; rewrite ?Eq'.
    + cbn [handled mbind list_bind]. cbn. fold (handled log). rewrite <- app_assoc, A1.
      rewrite !app_assoc. fold l. by rewrite removed_kept.
    + cbn. constructor. etrans; [exact A2|]. rewrite app_assoc. apply sublist_app; [apply kept_sub|done].
    + done.
    + rewrite A4, D5. by rewrite app_assoc.
    + rewrite delivered_app, A5, D6. unfold sent_acks. rewrite filter_cons. cbn [ad_result].
      case_decide; [by rewrite fmap_cons, reverse_cons|by rewrite app_nil_r].
    + done.
    + constructor; [apply removed_done|done].
    + done.
Qed.
End Pass.

(** C24: a pass over the queue ends, when finitely many acks are added meanwhile, and gives back
    every connection and node reference.  Every entry that was in the queue or was added is
    either still there -- only when the thread was asked to end -- or was handled exactly
    once: the messages that went out completely are those of the entries logged as sent,
    once each, in the order of the queue, and an entry is dropped without an attempt only
    when both attempts for an earlier entry of its node failed. *)
Theorem ack_pass {W : Type} `{!AckEnv W} `{!AckEnvLaws W} (uid : Z) (turns : nat) (s : AckRun W) :
  Forall ack_ok (ackQueue (ar_this s)) -> mlen (ackMsgBuf (ar_this s)) = ACKMANAGER_MSGBUF_LEN ->
  h_conn (ar_held s) = None -> h_node (ar_held s) = None ->
  (length (ackQueue (ar_this s)) + ack_pending (ar_world s) < turns)%nat ->
  exists log s' added left new,
    __AckManager_processAckQueue uid turns s = Done (Some log, s') /\
    handled log ++ left ≡ₚ ackQueue (ar_this s) ++ added /\
    (ad_ack <$> log) ++ left `sublist_of` ackQueue (ar_this s) ++ added /\
    Forall done_ok log /\
    ackQueue (ar_this s') = left /\
    (left = [] \/ exists w, Thread_getSelfTerminate w = (true, ar_world s')) /\
    ar_held s' = ar_held s /\
    ar_sends s' = new ++ ar_sends s /\ delivered new = reverse (sent_acks uid log).
Proof.
  intros Hq Hb Hc Hn Ht.
  destruct (proj1 (swp_run _ _ _) (process_loop_ok uid turns s Hq Hb Hc Hn Ht))
    as (r & s' & E & log & added & left & new & -> & []).
  by exists log, s', added, left, new.
Qed.

(** ** A small world

    That of [SmallRPC]; nobody adds acks. *)

Module SmallQueue.
Definition env : AckEnv SmallRPC.World := {|
  ack_rpc := SmallRPC.env false;
  acks_added w := ([], w);
  Thread_getSelfTerminate w := (false, w) |}.

Definition laws : AckEnvLaws (AckEnv0 := env) SmallRPC.World.
Proof. by refine {| ack_pending := fun _ => 0%nat |}. Defined.

Definition ack (node b : Z) : AckQueueEntry := mkAck node [b].
(** The first two attempts fail. *)
Definition start : AckRun SmallRPC.World :=
  mkAckRun (SmallRPC.mkW [None; None; Some []] [] []) (mkAckManager (replicate 4096 0) [ack 11 65; ack 11 66; ack 12 67])
    nothing [].
End SmallQueue.

Example small_acks :
  option_map fst (match __AckManager_processAckQueue (AckEnv0 := SmallQueue.env) 0 4 SmallQueue.start with
                  | Done r => Some r | Fault => None end) =
  Some (Some [mkAckDone (SmallQueue.ack 11 65) AckFailed [SmallQueue.ack 11 66];
              mkAckDone (SmallQueue.ack 12 67) AckSent []]).
Proof. by vm_compute. Qed.

Lemma ack_pass_witness : exists log s',
  __AckManager_processAckQueue (AckEnv0 := SmallQueue.env) 0 4 SmallQueue.start = Done (Some log, s') /\
  delivered (ar_sends s') = [ack_wire 0 (SmallQueue.ack 12 67)].
Proof.
  destruct (ack_pass (AckEnv0 := SmallQueue.env) (AckEnvLaws0 := SmallQueue.laws) 0 4 SmallQueue.start)
    as (log & s' & added & left & new & E & _ & _ & _ & _ & _ & _ & Es & Ed).
  - apply (bool_decide_unpack _). by vm_compute.
  - by vm_compute.
  - done.
  - done.
  - cbn. lia.
  - exists log, s'. split; [exact E|]. rewrite Es, app_nil_r, Ed.
    vm_compute in E. injection E as <- _. by vm_compute.
Defined.
