(* ===== verification/InternodeSyncer.v ===== *)
(** * The syncer of the client

    [components/InternodeSyncer.h/.c] with [common/toolkit/NodesTk.c]: target mappings,
    target states and buddy groups from the management node, the registration of the
    client, and the queues of files to be closed and of locks to be given up later, after
    a communication error.

    The syncer is a thread of its own.  While a call for an entry of a queue is under way
    the mutex of the queue is released, and other threads append; nobody else removes.
    What belongs to other components -- the stores, the local node, the network -- is in
    the world [W].  Log messages, condition variables and the age of an entry are left
    out. *)

From stdpp Require Import list gmap.
From S2P Require Import Prelude StateMonad Serialization SerializationLists EntryInfo NetMessage Messages Responses.
From S2P Require Import RBTree NodeConnPool NodeStore TargetMapper TargetStateStore MirrorBuddyGroup MirrorBuddyGroupMapper.
From S2P Require Import StorageErrors CommKit MessagingTk MessagingTkProps Remoting RemotingProps.

Definition NETMSGTYPE_GetTargetMappings : Z := 1025.
Definition NETMSGTYPE_RegisterNode : Z := 1039.
Definition NETMSGTYPE_GetStatesAndBuddyGroups : Z := 1053.

(** ** Data *)

Record DelayedCloseEntry := mkDelayedClose {
  dc_entryInfo : EntryInfo mem; dc_fileHandleID : KString; dc_accessFlags : Z;
  dc_needsAppendLockCleanup : bool; dc_maxUsedTargetIndex : Z; dc_event : option FileEvent }.
Record DelayedEntryUnlockEntry := mkDelayedEntry {
  de_entryInfo : EntryInfo mem; de_fileHandleID : KString; de_clientFD : Z }.
Record DelayedRangeUnlockEntry := mkDelayedRange {
  dr_entryInfo : EntryInfo mem; dr_fileHandleID : KString; dr_ownerPID : Z }.

Record InternodeSyncer := mkSyncer {
  mgmtInitDone : bool; nodeRegistered : bool; forceTargetStatesUpdate : bool;
  lastSuccessfulTargetStatesUpdateT : timespec; targetOfflineTimeoutMS : Z;
  delayedCloseQueue : list DelayedCloseEntry;
  delayedEntryUnlockQueue : list DelayedEntryUnlockEntry;
  delayedRangeUnlockQueue : list DelayedRangeUnlockEntry }.

(** [targetOfflineTimeoutSecs]: the setting; the product has 32 bits. *)
Definition InternodeSyncer_init (now : timespec) (targetOfflineTimeoutSecs : Z) : InternodeSyncer :=
  mkSyncer false false false now (u32 (targetOfflineTimeoutSecs * 1000)) [] [] [].

Section Setters.
Context (this : InternodeSyncer).
Definition with_flags (initDone registered force : bool) : InternodeSyncer :=
  mkSyncer initDone registered force (lastSuccessfulTargetStatesUpdateT this) (targetOfflineTimeoutMS this)
    (delayedCloseQueue this) (delayedEntryUnlockQueue this) (delayedRangeUnlockQueue this).
Definition with_updateT (t : timespec) : InternodeSyncer :=
  mkSyncer (mgmtInitDone this) (nodeRegistered this) (forceTargetStatesUpdate this) t (targetOfflineTimeoutMS this)
    (delayedCloseQueue this) (delayedEntryUnlockQueue this) (delayedRangeUnlockQueue this).
Definition with_queues (c : list DelayedCloseEntry) (e : list DelayedEntryUnlockEntry)
    (r : list DelayedRangeUnlockEntry) : InternodeSyncer :=
  mkSyncer (mgmtInitDone this) (nodeRegistered this) (forceTargetStatesUpdate this)
    (lastSuccessfulTargetStatesUpdateT this) (targetOfflineTimeoutMS this) c e r.

Definition InternodeSyncer_setForceTargetStatesUpdate : InternodeSyncer :=
  with_flags (mgmtInitDone this) (nodeRegistered this) true.
Definition InternodeSyncer_getAndResetForceTargetStatesUpdate : bool * InternodeSyncer :=
  (forceTargetStatesUpdate this, with_flags (mgmtInitDone this) (nodeRegistered this) false).
Definition __InternodeSyncer_signalMgmtInitDone : InternodeSyncer :=
  with_flags true (nodeRegistered this) (forceTargetStatesUpdate this).

(** ** The queues

    The copies hold a file handle of their own; a NULL pointer in [ioInfo] is not checked. *)

Definition InternodeSyncer_delayedCloseAdd (entryInfo : EntryInfo mem) (ioInfo : RemotingIOInfo)
    (event : option FileEvent) : outcome InternodeSyncer :=
  id ← kstring (fileHandleID ioInfo);
  index ← of_option (maxUsedTargetIndex ioInfo);
  Done (with_queues (delayedCloseQueue this ++
          [mkDelayedClose entryInfo (KAlloc id) (accessFlags ioInfo) (needsAppendLockCleanup ioInfo) index event])
        (delayedEntryUnlockQueue this) (delayedRangeUnlockQueue this)).
Definition InternodeSyncer_delayedEntryUnlockAdd (entryInfo : EntryInfo mem) (ioInfo : RemotingIOInfo)
    (clientFD : Z) : outcome InternodeSyncer :=
  id ← kstring (fileHandleID ioInfo);
  Done (with_queues (delayedCloseQueue this)
          (delayedEntryUnlockQueue this ++ [mkDelayedEntry entryInfo (KAlloc id) clientFD])
          (delayedRangeUnlockQueue this)).
Definition InternodeSyncer_delayedRangeUnlockAdd (entryInfo : EntryInfo mem) (ioInfo : RemotingIOInfo)
    (ownerPID : Z) : outcome InternodeSyncer :=
  id ← kstring (fileHandleID ioInfo);
  Done (with_queues (delayedCloseQueue this) (delayedEntryUnlockQueue this)
          (delayedRangeUnlockQueue this ++ [mkDelayedRange entryInfo (KAlloc id) ownerPID])).

Definition InternodeSyncer_getDelayedCloseQueueSize : Z := Z.of_nat (length (delayedCloseQueue this)).
Definition InternodeSyncer_getDelayedEntryUnlockQueueSize : Z := Z.of_nat (length (delayedEntryUnlockQueue this)).
Definition InternodeSyncer_getDelayedRangeUnlockQueueSize : Z := Z.of_nat (length (delayedRangeUnlockQueue this)).
End Setters.

(** The arguments of the calls refer to the entry; [out] is the struct of the caller, of
    which some fields are not set. *)
Definition __InternodeSyncer_delayedClosePrepareRemoting (e : DelayedCloseEntry) (out : RemotingIOInfo)
    : EntryInfo mem * RemotingIOInfo :=
  (dc_entryInfo e, mkIOInfo (dc_fileHandleID e) None (pathInfo out) (dc_accessFlags e)
     (dc_needsAppendLockCleanup e) (Some (dc_maxUsedTargetIndex e)) None 0 0).
Definition __InternodeSyncer_delayedEntryUnlockPrepareRemoting (e : DelayedEntryUnlockEntry) (out : RemotingIOInfo)
    : EntryInfo mem * RemotingIOInfo :=
  (de_entryInfo e, mkIOInfo (de_fileHandleID e) None (pathInfo out) 0 (needsAppendLockCleanup out) None None 0 0).
Definition __InternodeSyncer_delayedRangeUnlockPrepareRemoting (e : DelayedRangeUnlockEntry) (out : RemotingIOInfo)
    : EntryInfo mem * RemotingIOInfo :=
  (dr_entryInfo e, mkIOInfo (dr_fileHandleID e) None (pathInfo out) 0 (needsAppendLockCleanup out) None None 0 0).

Definition __InternodeSyncer_delayedCloseFreeEntry (e : DelayedCloseEntry) : outcome unit :=
  _ ← kfree_string (dc_fileHandleID e); Done tt.
Definition __InternodeSyncer_delayedEntryUnlockFreeEntry (e : DelayedEntryUnlockEntry) : outcome unit :=
  _ ← kfree_string (de_fileHandleID e); Done tt.
Definition __InternodeSyncer_delayedRangeUnlockFreeEntry (e : DelayedRangeUnlockEntry) : outcome unit :=
  _ ← kfree_string (dr_fileHandleID e); Done tt.

(** [InternodeSyncer_uninit]: every entry is freed. *)
Fixpoint free_each {E} (free : E -> outcome unit) (l : list E) : outcome unit :=
  match l with [] => Done tt | e :: l => _ ← free e; free_each free l end.
Definition InternodeSyncer_uninit (this : InternodeSyncer) : outcome InternodeSyncer :=
  _ ← free_each __InternodeSyncer_delayedCloseFreeEntry (delayedCloseQueue this);
  _ ← free_each __InternodeSyncer_delayedEntryUnlockFreeEntry (delayedEntryUnlockQueue this);
  _ ← free_each __InternodeSyncer_delayedRangeUnlockFreeEntry (delayedRangeUnlockQueue this);
  Done (with_queues this [] [] []).

(** ** The surroundings

    [stores]: the states of the targets and the buddy groups by node type, and how they
    are replaced; [local_numID]: the numeric ID of this client.  The last three: what
    other threads append to the queues while the mutex is released. *)
Class SyncerEnv (W : Type) := {
  syncer_remoting : RemotingEnv W;
  syncer_selfTerminate : W -> bool * W;
  ktime_get_ts : W -> timespec * W;
  mgmtNodes_referenceFirstNode : W -> option Z * W;
  stores : Z -> W -> TargetStateStore * MapperState;
  set_stores : Z -> TargetStateStore * MapperState -> W -> W;
  group_alloc : W -> (nat -> bool * bool) * W;
  target_mapper : W -> TargetMapper;
  set_target_mapper : TargetMapper -> W -> W;
  local_numID : W -> Z;
  set_local_numID : Z -> W -> W;
  close_added : W -> list DelayedCloseEntry * W;
  entry_unlock_added : W -> list DelayedEntryUnlockEntry * W;
  range_unlock_added : W -> list DelayedRangeUnlockEntry * W }.
#[export] Existing Instance syncer_remoting.

Record SyncRun (W : Type) := mkSyncRun { sr_world : W; sr_this : InternodeSyncer }.
Arguments mkSyncRun {W}.
Arguments sr_world {W}.
Arguments sr_this {W}.

Section Syncer.
Context {W : Type} `{!SyncerEnv W}.
Context `{KT : KernelRBTree TargetMapping tmTargetID} `{KS : KernelRBTree TargetStateInfo targetID}.
Context `{KG : KernelRBTree GroupNode gnGroupID}.
Context (app : App) (fuel : nat).

Notation SR := (ST (SyncRun W)).

Definition sr_env {A} (f : W -> A * W) : SR A := fun s =>
  let '(a, w) := f (sr_world s) in Done (a, mkSyncRun w (sr_this s)).
Definition sr_env_ (f : W -> W) : SR unit := st_mod (fun s => mkSyncRun (f (sr_world s)) (sr_this s)).
Definition upd_this (f : InternodeSyncer -> InternodeSyncer) : SR unit :=
  st_mod (fun s => mkSyncRun (sr_world s) (f (sr_this s))).

(** A call over the network, with nothing in its hands at first. *)
Definition call_start (w : W) : RPC W :=
  mkRPC w (RequestResponseArgs_prepare None (NetMessage_init 0 0) 0) nothing [].
Definition remote {A} (m : R W (option A)) : SR (option A) := fun s =>
  match m (call_start (sr_world s)) with
  | (Some r, t) => Done (r, mkSyncRun (rworld t) (sr_this s))
  | (None, _) => Fault
  end.

(** ** Downloads

    A request to [node]; [handle] reads the answer.  [Some None]: no success. *)
Definition nodes_request {P Q A} (ops : NetMessageOps P Q) (payload : P) (node type respMsgType : Z)
    (handle : Received -> outcome A) : R W (option (option A)) :=
  frame (
    _ ← upd_args (fun _ => RequestResponseArgs_prepare (Some node) (NetMessage_init (currentUserID app) type) respMsgType);
    commRes ← MessagingTk_requestResponseWithRRArgs ops payload fuel;
    match commRes with
    | None => mret None
    | Some commRes =>
        if negb (commRes =? FhgfsOpsErr_SUCCESS) then mret (Some None) else
        args ← get_args;
        msg ← lift (of_option (rr_outRespMsg args));
        resp ← lift (of_option (fst msg));
        res ← lift (handle resp);
        _ ← RequestResponseArgs_freeRespBuffers;
        mret (Some (Some res))
    end).

Definition NodesTk_downloadTargetMappings (sourceNode : Z) : R W (option (option (list TargetMapping))) :=
  nodes_request SimpleMsg_Ops tt sourceNode NETMSGTYPE_GetTargetMappings NETMSGTYPE_GetTargetMappingsResp
    (fun resp => match resp with GetTargetMappingsRespMsg mappings => Done mappings | _ => Fault end).

Definition NodesTk_downloadStatesAndBuddyGroups (sourceNode nodeType : Z)
    : R W (option (option (list BuddyGroupMapping * list TargetStateMapping))) :=
  nodes_request SimpleIntMsg_Ops nodeType sourceNode NETMSGTYPE_GetStatesAndBuddyGroups
    NETMSGTYPE_GetStatesAndBuddyGroupsResp
    (fun resp => match resp with GetStatesAndBuddyGroupsRespMsg groups states => Done (groups, states) | _ => Fault end).

Definition __InternodeSyncer_downloadAndSyncTargetMappings : SR (option unit) :=
  mgmtNode ← sr_env mgmtNodes_referenceFirstNode;
  match mgmtNode with
  | None => mret (Some tt)
  | Some node =>
      downloadRes ← remote (NodesTk_downloadTargetMappings node);
      match downloadRes with
      | None => mret None
      | Some res =>
          _ ← match res with
              | Some mappings => sr_env_ (fun w => set_target_mapper (TargetMapper_syncTargets (target_mapper w) mappings) w)
              | None => mret tt
              end;
          _ ← sr_env_ (Node_put node);
          mret (Some tt)
      end
  end.

(** The states the targets get when nothing could be downloaded. *)
Definition stale_state (this : InternodeSyncer) (now : timespec) : Z :=
  if negb (targetOfflineTimeoutMS this =? 0) &&
     (targetOfflineTimeoutMS this <? Time_elapsedSinceMS now (lastSuccessfulTargetStatesUpdateT this))
  then TargetReachabilityState_OFFLINE else TargetReachabilityState_POFFLINE.

(** The result, void in the code: whether the download succeeded, and the time it ended,
    if it was tried. *)
Definition __InternodeSyncer_updateTargetStatesAndBuddyGroups (connMaxInternodeNum nodeType : Z)
    : SR (option (option (bool * timespec))) :=
  if negb ((nodeType =? NODETYPE_Storage) || (nodeType =? NODETYPE_Meta)) then mret (Some None) else
  mgmtdNode ← sr_env mgmtNodes_referenceFirstNode;
  match mgmtdNode with
  | None => mret (Some None)
  | Some node =>
      downloadRes ← remote (NodesTk_downloadStatesAndBuddyGroups node nodeType);
      match downloadRes with
      | None => mret None
      | Some res =>
          done ←
            match res with
            | Some (groups, states) =>
                alloc ← sr_env group_alloc;
                s ← st_get;
                let '(stateStore, mapper) := stores nodeType (sr_world s) in
                synced ← st_lift (TargetStateStore_syncStatesAndGroupsFromLists connMaxInternodeNum alloc
                                    stateStore mapper states groups);
                _ ← sr_env_ (set_stores nodeType synced);
                now ← sr_env ktime_get_ts;
                _ ← upd_this (fun this => with_updateT this now);
                mret (true, now)
            | None =>
                now ← sr_env ktime_get_ts;
                s ← st_get;
                let '(stateStore, mapper) := stores nodeType (sr_world s) in
                _ ← sr_env_ (set_stores nodeType
                       ((TargetStateStore_setAllStates stateStore (stale_state (sr_this s) now)).2, mapper));
                mret (false, now)
            end;
          _ ← sr_env_ (Node_put node);
          mret (Some (Some done))
      end
  end.

(** [_InternodeSyncer_requestLoop] updates the two kinds one after the other. *)
Definition update_states (connMaxInternodeNum : Z)
    : SR (option (option (bool * timespec) * option (bool * timespec))) :=
  meta ← __InternodeSyncer_updateTargetStatesAndBuddyGroups connMaxInternodeNum NODETYPE_Meta;
  match meta with
  | None => mret None
  | Some meta =>
      storage ← __InternodeSyncer_updateTargetStatesAndBuddyGroups connMaxInternodeNum NODETYPE_Storage;
      mret (pair meta <$> storage)
  end.

(** ** Registration *)

(** [nics] and [portUDP]: of the local node. *)
Definition __InternodeSyncer_registerNode (nics : list NicAddress) (portUDP : Z) : SR (option bool) :=
  mgmtNode ← sr_env mgmtNodes_referenceFirstNode;
  match mgmtNode with
  | None => mret (Some false)
  | Some node =>
      s ← st_get;
      let req := RegisterNodeMsg 0 0 (localNodeID app) nics NODETYPE_Client (local_numID (sr_world s)) 0 false portUDP 0 in
      requestRes ← remote (nodes_request (request_ops req) req node NETMSGTYPE_RegisterNode NETMSGTYPE_RegisterNodeResp
        (fun resp => match resp with RegisterNodeRespMsg nodeNumID => Done nodeNumID | _ => Fault end));
      match requestRes with
      | None => mret None
      | Some res =>
          _ ← match res with
              | Some numID =>
                  if numID =? 0 then mret tt else
                  _ ← sr_env_ (set_local_numID numID);
                  upd_this (fun this => with_flags this (mgmtInitDone this) true (forceTargetStatesUpdate this))
              | None => mret tt
              end;
          _ ← sr_env_ (Node_put node);
          s ← st_get;
          mret (Some (nodeRegistered (sr_this s)))
      end
  end.

Definition __InternodeSyncer_unregisterNode : SR (option bool) :=
  mgmtNode ← sr_env mgmtNodes_referenceFirstNode;
  match mgmtNode with
  | None => mret (Some false)
  | Some node =>
      s ← st_get;
      let req := Messages.RemoveNodeMsgEx NODETYPE_Client (local_numID (sr_world s)) [] in
      requestRes ← remote (nodes_request (request_ops req) req node NETMSGTYPE_RemoveNode NETMSGTYPE_RemoveNodeResp
        (fun resp => match resp with SimpleIntMsg _ => Done tt | _ => Fault end));
      match requestRes with
      | None => mret None
      | Some res => _ ← sr_env_ (Node_put node); mret (Some (match res with Some _ => true | None => false end))
      end
  end.

(** ** The work on the queues

    The three differ in their entries only: the queue, what other threads append, the
    call for an entry, and how it is freed. *)

Record DelayedOps (E : Type) := mkDelayedOps {
  dq_queue : InternodeSyncer -> list E;
  dq_set : list E -> InternodeSyncer -> InternodeSyncer;
  dq_added : W -> list E * W;
  dq_comm : E -> R W (option Z);
  dq_free : E -> outcome unit }.
Arguments dq_queue {E}.
Arguments dq_set {E}.
Arguments dq_added {E}.
Arguments dq_comm {E}.
Arguments dq_free {E}.

(** [iter]: the number of entries before the iterator.  The result, void in the code: the
    entries for which a call was made, with the results. *)
Fixpoint delayed_loop {E} (d : DelayedOps E) (turns iter : nat) : SR (option (list (E * Z))) :=
  match turns with
  | O => mret None
  | S turns =>
      s ← st_get;
      match dq_queue d (sr_this s) !! iter with
      | None => mret (Some [])
      | Some current =>
          selfTerminate ← sr_env syncer_selfTerminate;
          if selfTerminate : bool then mret (Some []) else
          res ← remote (dq_comm d current);
          added ← sr_env (dq_added d);
          _ ← upd_this (fun this => dq_set d (dq_queue d this ++ added) this);
          match res with
          | None => mret None
          | Some res =>
              log ←
                (if res =? FhgfsOpsErr_COMMUNICATION then delayed_loop d turns (S iter)
                 else
                   _ ← st_lift (dq_free d current);
                   _ ← upd_this (fun this => dq_set d (delete iter (dq_queue d this)) this);
                   delayed_loop d turns iter);
              mret (cons (current, res) <$> log)
          end
      end
  end.

Section Comm.
Context (uninit : RemotingIOInfo).

Definition delayed_close : DelayedOps DelayedCloseEntry := {|
  dq_queue := delayedCloseQueue;
  dq_set q this := with_queues this q (delayedEntryUnlockQueue this) (delayedRangeUnlockQueue this);
  dq_added := close_added;
  dq_comm e :=
    let '(entryInfo, ioInfo) := __InternodeSyncer_delayedClosePrepareRemoting e uninit in
    FhgfsOpsRemoting_closefileEx app fuel entryInfo ioInfo false (dc_event e);
  dq_free := __InternodeSyncer_delayedCloseFreeEntry |}.

Definition delayed_entry_unlock : DelayedOps DelayedEntryUnlockEntry := {|
  dq_queue := delayedEntryUnlockQueue;
  dq_set q this := with_queues this (delayedCloseQueue this) q (delayedRangeUnlockQueue this);
  dq_added := entry_unlock_added;
  dq_comm e :=
    let '(entryInfo, ioInfo) := __InternodeSyncer_delayedEntryUnlockPrepareRemoting e uninit in
    id ← lift (kstring (fileHandleID ioInfo));
    FhgfsOpsRemoting_flockEntryEx app fuel entryInfo None id (de_clientFD e) 0 ENTRYLOCKTYPE_CANCEL false;
  dq_free := __InternodeSyncer_delayedEntryUnlockFreeEntry |}.

Definition delayed_range_unlock : DelayedOps DelayedRangeUnlockEntry := {|
  dq_queue := delayedRangeUnlockQueue;
  dq_set q this := with_queues this (delayedCloseQueue this) (delayedEntryUnlockQueue this) q;
  dq_added := range_unlock_added;
  dq_comm e :=
    let '(entryInfo, ioInfo) := __InternodeSyncer_delayedRangeUnlockPrepareRemoting e uninit in
    id ← lift (kstring (fileHandleID ioInfo));
    FhgfsOpsRemoting_flockRangeEx app fuel entryInfo None id (dr_ownerPID e) ENTRYLOCKTYPE_CANCEL 0 (2 ^ 64 - 1) false;
  dq_free := __InternodeSyncer_delayedRangeUnlockFreeEntry |}.

Definition __InternodeSyncer_delayedCloseComm (turns : nat) := delayed_loop delayed_close turns 0.
Definition __InternodeSyncer_delayedEntryUnlockComm (turns : nat) := delayed_loop delayed_entry_unlock turns 0.
Definition __InternodeSyncer_delayedRangeUnlockComm (turns : nat) := delayed_loop delayed_range_unlock turns 0.
End Comm.
End Syncer.
Arguments dq_queue {W E}.
Arguments dq_set {W E}.
Arguments dq_added {W E}.
Arguments dq_comm {W E}.
Arguments dq_free {W E}.

(** ** A pass over a queue *)

Definition retried {E} (log : list (E * Z)) : list E :=
  fst <$> filter (fun x => snd x = FhgfsOpsErr_COMMUNICATION) log.

(** The call ends in undefined behaviour, or never. *)
Definition call_fails {W A} (m : R W (option A)) (w : W) : Prop :=
  match fst (m (call_start w)) with Some (Some _) => False | _ => True end.

(** What the code relies on: at most [pending] entries are added by other threads from
    now on, and all entries can be freed. *)
Class DelayedLaws {W : Type} `{!SyncerEnv W} {E} (d : DelayedOps (W := W) E) (pending : W -> nat) : Prop := {
  dq_get_set q t : dq_queue d (dq_set d q t) = q;
  dq_set_get t : dq_set d (dq_queue d t) t = t;
  dq_set_set q q' t : dq_set d q (dq_set d q' t) = dq_set d q t;
  pending_added w : (length (fst (dq_added d w)) + pending (snd (dq_added d w)) <= pending w)%nat;
  pending_terminate w : (pending (snd (syncer_selfTerminate w)) <= pending w)%nat;
  pending_comm e w r t : dq_comm d e (call_start w) = (Some (Some r), t) -> (pending (rworld t) <= pending w)%nat;
  added_free w : Forall (fun e => dq_free d e = Done tt) (fst (dq_added d w)) }.

Section Pass.
Context {W : Type} `{!SyncerEnv W} {E : Type} (d : DelayedOps (W := W) E) (pending : W -> nat) `{!DelayedLaws d pending}.
Implicit Types s : SyncRun W.

Lemma sr_env_run {A} (f : W -> A * W) s : sr_env f s = Done (fst (f (sr_world s)), mkSyncRun (snd (f (sr_world s))) (sr_this s)).
Proof. unfold sr_env. by destruct (f (sr_world s)). Qed.

Definition pass_post s (kept rest : list E) (r : outcome (option (list (E * Z)) * SyncRun W)) : Prop :=
  match r with
  | Done (Some log, s') => exists added left,
      log.*1 ++ left = rest ++ added /\
      sr_this s' = dq_set d (kept ++ retried log ++ left) (sr_this s) /\
      (left = [] \/ exists w, syncer_selfTerminate w = (true, sr_world s'))
  | _ => exists e w, call_fails (dq_comm d e) w
  end.

Lemma delayed_loop_ok turns s kept rest : dq_queue d (sr_this s) = kept ++ rest ->
  Forall (fun e => dq_free d e = Done tt) rest -> (length rest + pending (sr_world s) < turns)%nat ->
  pass_post s kept rest (delayed_loop d turns (length kept) s).
Proof.
  revert s kept rest. induction turns as [|turns IH]; intros s kept rest Hq Hf Ht; [lia|]. cbn [delayed_loop].
  unfold mbind, ST_bind, st_get at 1. rewrite Hq. destruct rest as [|e rest].
  { rewrite lookup_ge_None_2 by (rewrite length_app; cbn; lia). exists [], []. split_and!; [done| |by left].
    unfold retried. cbn. by rewrite <- Hq, dq_set_get. }
  rewrite list_lookup_middle by done. rewrite sr_env_run. pose proof (pending_terminate (sr_world s)) as P.
  destruct (syncer_selfTerminate (sr_world s)) as [stop w] eqn:Es. cbn in P. cbn [fst snd]. destruct stop.
  { exists [], (e :: rest). split_and!; [by rewrite app_nil_r| |by right; eexists].
    unfold retried. cbn. by rewrite <- Hq, dq_set_get. }
  unfold remote at 1. cbn [sr_world sr_this]. destruct (dq_comm d e (call_start w)) as [r t] eqn:Ec.
  destruct r as [r|]; [|by exists e, w; unfold call_fails; rewrite Ec].
  rewrite sr_env_run. cbn [sr_world sr_this]. unfold upd_this at 1, st_mod at 1. cbn [sr_world sr_this].
  destruct r as [res|]; [|by exists e, w; unfold call_fails; rewrite Ec].
  pose proof (pending_comm e w res t Ec) as P2. pose proof (pending_added (rworld t)) as P3. pose proof (added_free (rworld t)) as Hfa.
  destruct (dq_added d (rworld t)) as [added w3]. cbn [fst snd] in *.
  apply Forall_cons in Hf as [Hfe Hfr]. cbn [length] in Ht. rewrite Hq.
  assert (Hstep : forall s1 kept1, sr_this s1 = dq_set d (kept1 ++ rest ++ added) (sr_this s) -> sr_world s1 = w3 ->
    kept1 = (if res =? FhgfsOpsErr_COMMUNICATION then kept ++ [e] else kept) ->
    pass_post s kept (e :: rest)
      (match delayed_loop d turns (length kept1) s1 with
              | Done (a, s') => Done (cons (e, res) <$> a, s') | Fault => Fault end)).
  { intros s1 kept1 H1 Hw Hk. pose proof (IH s1 kept1 (rest ++ added) ltac:(by rewrite H1, dq_get_set)
      ltac:(by apply Forall_app) ltac:(rewrite length_app, Hw; lia)) as Hp.
    unfold pass_post in Hp |- *. destruct (delayed_loop d turns (length kept1) s1) as [[[log|] s2]|]; [|done..].
    destruct Hp as (added2 & left & E1 & E2 & E3). cbn -[retried]. exists (added ++ added2), left.
    split_and!; [by rewrite E1, <- app_assoc| |done].
    rewrite E2, H1, dq_set_set, Hk. unfold retried. rewrite filter_cons. cbn [snd].
    destruct (Z.eqb_spec res FhgfsOpsErr_COMMUNICATION) as [->|Hne].
    - rewrite decide_True by done. by rewrite <- app_assoc.
    - by rewrite decide_False by done. }
  destruct (Z.eqb_spec res FhgfsOpsErr_COMMUNICATION) as [->|Hne].
  - replace (S (length kept)) with (length (kept ++ [e])) by (rewrite length_app; cbn; lia).
    apply Hstep; cbn; [|done..]. by rewrite <- !app_assoc.
  - unfold st_lift. rewrite Hfe. unfold upd_this, st_mod. cbn [sr_world sr_this].
    apply Hstep; cbn; [|done..]. rewrite dq_get_set, dq_set_set. f_equal.
    rewrite <- app_assoc. cbn. by rewrite delete_middle.
Qed.
End Pass.

(** C25: the work on one of the queues of the syncer, [delayed_close], [delayed_entry_unlock] or
    [delayed_range_unlock].  It comes to an end when finitely many entries are added
    meanwhile, unless a call does not.  A call is made once for every entry, those that
    are added included, in the order of the queue, up to the entry at which the thread is
    asked to end; entries leave the queue exactly when the result is not a communication
    error, the others stay in their order; nothing else of the syncer changes. *)
Theorem delayed_pass {W : Type} `{!SyncerEnv W} {E : Type} (d : DelayedOps (W := W) E) (pending : W -> nat)
    `{!DelayedLaws d pending} (turns : nat) (s : SyncRun W) :
  Forall (fun e => dq_free d e = Done tt) (dq_queue d (sr_this s)) ->
  (length (dq_queue d (sr_this s)) + pending (sr_world s) < turns)%nat ->
  match delayed_loop d turns 0 s with
  | Done (Some log, s') => exists added left,
      log.*1 ++ left = dq_queue d (sr_this s) ++ added /\
      sr_this s' = dq_set d (retried log ++ left) (sr_this s) /\
      (left = [] \/ exists w, syncer_selfTerminate w = (true, sr_world s'))
  | _ => exists e w, call_fails (dq_comm d e) w
  end.
Proof. intros Hf Ht. by apply (delayed_loop_ok d pending turns s [] (dq_queue d (sr_this s))). Qed.

(** What is done later is what failed: after a close or an unlock was put off, the call
    that the syncer makes for the entry it appended is the original one, with the same
    file handle, flags, owner and event, except that it is not repeated by itself; and
    the entry can be freed. *)
Theorem deferred_calls_same {W : Type} `{!SyncerEnv W} (app : App) (fuel : nat) (uninit : RemotingIOInfo)
    (this this' : InternodeSyncer) (entryInfo : EntryInfo mem) (ioInfo : RemotingIOInfo) :
  (forall event, InternodeSyncer_delayedCloseAdd this entryInfo ioInfo event = Done this' ->
   exists e, this' = dq_set (delayed_close app fuel uninit) (delayedCloseQueue this ++ [e]) this /\
     dq_free (delayed_close app fuel uninit) e = Done tt /\
     forall s : RPC W, dq_comm (delayed_close app fuel uninit) e s =
       FhgfsOpsRemoting_closefileEx app fuel entryInfo ioInfo false event s) /\
  (forall clientFD, InternodeSyncer_delayedEntryUnlockAdd this entryInfo ioInfo clientFD = Done this' ->
   exists e, this' = dq_set (delayed_entry_unlock app fuel uninit) (delayedEntryUnlockQueue this ++ [e]) this /\
     dq_free (delayed_entry_unlock app fuel uninit) e = Done tt /\
     forall s : RPC W, dq_comm (delayed_entry_unlock app fuel uninit) e s =
       (id ← lift (kstring (fileHandleID ioInfo));
        FhgfsOpsRemoting_flockEntryEx app fuel entryInfo None id clientFD 0 ENTRYLOCKTYPE_CANCEL false) s) /\
  (forall ownerPID, InternodeSyncer_delayedRangeUnlockAdd this entryInfo ioInfo ownerPID = Done this' ->
   exists e, this' = dq_set (delayed_range_unlock app fuel uninit) (delayedRangeUnlockQueue this ++ [e]) this /\
     dq_free (delayed_range_unlock app fuel uninit) e = Done tt /\
     forall s : RPC W, dq_comm (delayed_range_unlock app fuel uninit) e s =
       (id ← lift (kstring (fileHandleID ioInfo));
        FhgfsOpsRemoting_flockRangeEx app fuel entryInfo None id ownerPID ENTRYLOCKTYPE_CANCEL 0 (2 ^ 64 - 1) false) s).
Proof.
  split_and!; intros x.
  - unfold InternodeSyncer_delayedCloseAdd. destruct (fileHandleID ioInfo) as [|id|] eqn:Ei; [done| |done].
    destruct (maxUsedTargetIndex ioInfo) as [i|] eqn:Em; [|done]. cbn. intros [= <-]. eexists. split_and!; [done..|].
    intros s. cbn. unfold FhgfsOpsRemoting_closefileEx. cbn. by rewrite Ei, Em.
  - unfold InternodeSyncer_delayedEntryUnlockAdd. destruct (fileHandleID ioInfo) as [|id|] eqn:Ei; [done| |done].
    cbn. intros [= <-]. by eexists.
  - unfold InternodeSyncer_delayedRangeUnlockAdd. destruct (fileHandleID ioInfo) as [|id|] eqn:Ei; [done| |done].
    cbn. intros [= <-]. by eexists.
Qed.

(** ** Target states *)

(** What is stored is what is read, and releasing a node does not change it. *)
Class StoreLaws (W : Type) `{!SyncerEnv W} : Prop := {
  stores_set t x w : stores t (set_stores t x w) = x;
  stores_put t n w : stores t (Node_put n w) = stores t w }.

Section States.
Context {W : Type} `{!SyncerEnv W} `{!StoreLaws W}.
Context `{KT : KernelRBTree TargetMapping tmTargetID} `{KS : KernelRBTree TargetStateInfo targetID}.
Context `{KG : KernelRBTree GroupNode gnGroupID}.
Context (app : App) (fuel : nat) (connMaxInternodeNum : Z).

Lemma update_result nodeType (s s' : SyncRun W) ok now :
  __InternodeSyncer_updateTargetStatesAndBuddyGroups app fuel connMaxInternodeNum nodeType s = Done (Some (Some (ok, now)), s') ->
  if ok : bool then sr_this s' = with_updateT (sr_this s) now
  else sr_this s' = sr_this s /\
       Forall (fun i => reachabilityState (state i) = stale_state (sr_this s) now)
         (inorder (states (fst (stores nodeType (sr_world s'))))).
Proof.
  unfold __InternodeSyncer_updateTargetStatesAndBuddyGroups. destruct (negb _); [done|].
  unfold mbind, ST_bind. rewrite sr_env_run. destruct (fst (mgmtNodes_referenceFirstNode (sr_world s))) as [node|]; [|done].
  unfold remote. cbn [sr_world sr_this].
  destruct (NodesTk_downloadStatesAndBuddyGroups app fuel node nodeType (call_start _)) as [[[[[groups sts]|]|]|] t]; try done.
  - rewrite sr_env_run. unfold st_get. cbn [sr_world sr_this].
    destruct (stores nodeType _) as [st mp]. unfold st_lift.
    destruct (TargetStateStore_syncStatesAndGroupsFromLists _ _ _ _ _ _) as [synced|]; [|done].
    unfold sr_env_, st_mod. cbn [sr_world sr_this]. rewrite sr_env_run. cbn. by intros [= <- <- <-].
  - rewrite sr_env_run. unfold st_get. cbn [sr_world sr_this].
    destruct (stores nodeType _) as [st mp]. unfold sr_env_, st_mod. cbn -[stale_state TargetStateStore_setAllStates].
    intros [= <- <- <-]. cbn -[stale_state TargetStateStore_setAllStates]. split; [done|].
    rewrite stores_put, stores_set. cbn -[stale_state]. rewrite inorder_update. apply Forall_fmap, Forall_true.
    intros i. cbn -[stale_state]. by rewrite set_reachability_state.
Qed.
End States.

(** C38: the time of the last success is shared by metadata nodes and storage targets, of which
    the loop updates the metadata nodes first.  So when the download for the metadata nodes
    succeeds and that for the storage targets fails, the storage targets become at most
    "probably offline" -- not "offline", however long ago their last success was.  *)
Theorem meta_update_hides_storage {W : Type} `{!SyncerEnv W} `{!StoreLaws W}
    `{KS : KernelRBTree TargetStateInfo targetID} `{KG : KernelRBTree GroupNode gnGroupID}
    (app : App) (fuel : nat) (connMaxInternodeNum : Z) (s s' : SyncRun W) (now1 now2 : timespec) :
  update_states app fuel connMaxInternodeNum s = Done (Some (Some (true, now1), Some (false, now2)), s') ->
  Time_elapsedSinceMS now2 now1 <= targetOfflineTimeoutMS (sr_this s) ->
  Forall (fun i => reachabilityState (state i) = TargetReachabilityState_POFFLINE)
    (inorder (states (fst (stores NODETYPE_Storage (sr_world s'))))) /\
  lastSuccessfulTargetStatesUpdateT (sr_this s') = now1.
Proof.
  unfold update_states. unfold mbind at 1, ST_bind at 1.
  destruct (__InternodeSyncer_updateTargetStatesAndBuddyGroups _ _ _ NODETYPE_Meta s) as [[[meta|] s1]|] eqn:E1; [|done..].
  unfold mbind, ST_bind.
  destruct (__InternodeSyncer_updateTargetStatesAndBuddyGroups _ _ _ NODETYPE_Storage s1) as [[[st|] s2]|] eqn:E2; [|done..].
  cbn. intros [= -> -> ->] Ht. apply update_result in E1. apply update_result in E2 as [E2 Hf]. rewrite E2, E1.
  split; [|done]. eapply Forall_impl; [exact Hf|]. cbn. intros i ->. unfold stale_state. rewrite E1. cbn.
  destruct (Z.ltb_spec (targetOfflineTimeoutMS (sr_this s)) (Time_elapsedSinceMS now2 now1)); [lia|].
  by rewrite andb_false_r.
Qed.

(** ** A small world

    That of [SmallRemote] together with the stores and what other threads want to add. *)

Module SmallSync.
Record Extra := mkExtra {
  ex_stores : Z -> TargetStateStore * MapperState; ex_mapper : TargetMapper; ex_numID : Z;
  ex_added : list DelayedCloseEntry }.
Definition World : Type := SmallRPC.World * Extra.

Definition up {A} (f : SmallRPC.World -> A * SmallRPC.World) (w : World) : A * World :=
  let '(a, v) := f (fst w) in (a, (v, snd w)).
Definition up_ (f : SmallRPC.World -> SmallRPC.World) (w : World) : World := (f (fst w), snd w).

Definition C : CommEnv SmallRPC.World := SmallRPC.comm false.
Definition comm : CommEnv World := {|
  fatal_signal_pending := up (@fatal_signal_pending _ C);
  Node_getIsActive n := up (@Node_getIsActive _ C n);
  mempool_alloc b := up (@mempool_alloc _ C b);
  storageBuddyGroups := up (@storageBuddyGroups _ C);
  targetStates := up (@targetStates _ C);
  NodeStoreEx_referenceNodeByTargetID i := up (@NodeStoreEx_referenceNodeByTargetID _ C i);
  Node_put n := up_ (@Node_put _ C n);
  NodeConnPool_acquireStreamSocketEx n b := up (@NodeConnPool_acquireStreamSocketEx _ C n b);
  NodeConnPool_releaseStreamSocket n k := up_ (@NodeConnPool_releaseStreamSocket _ C n k);
  NodeConnPool_invalidateStreamSocket n k := up_ (@NodeConnPool_invalidateStreamSocket _ C n k);
  CommKit.Socket_send k b := up (@CommKit.Socket_send _ C k b);
  Socket_recvT k n := up (@Socket_recvT _ C k n);
  SocketTk_poll l n := up (@SocketTk_poll _ C l n);
  App_getConnRetriesEnabled := up (@App_getConnRetriesEnabled _ C);
  Thread_sleep n := up_ (@Thread_sleep _ C n) |}.

Definition P : RPCEnv SmallRPC.World := SmallRPC.env false.
Definition rpc : RPCEnv World := {|
  rpc_comm := comm;
  mirrorBuddies := up (@mirrorBuddies _ P);
  nodeStates := up (@nodeStates _ P);
  MessagingTk.NodeStoreEx_referenceNode i := up (@MessagingTk.NodeStoreEx_referenceNode _ P i);
  NoAllocBufferStore_getBufSize := up (@NoAllocBufferStore_getBufSize _ P);
  NoAllocBufferStore_waitForBuf := up (@NoAllocBufferStore_waitForBuf _ P);
  NoAllocBufferStore_addBuf b := up_ (@NoAllocBufferStore_addBuf _ P b);
  os_kmalloc n := up (@os_kmalloc _ P n);
  kfree b := up_ (@kfree _ P b);
  decode_choices := up (@decode_choices _ P);
  MessagingTk.MirrorBuddyGroupMapper_acquireSequenceNumber i :=
    up (@MessagingTk.MirrorBuddyGroupMapper_acquireSequenceNumber _ P i);
  MessagingTk.MirrorBuddyGroup_releaseSequenceNumber g h :=
    up_ (@MessagingTk.MirrorBuddyGroup_releaseSequenceNumber _ P g h);
  MessagingTk.MirrorBuddyGroup_setSeqNoBase g n := up_ (@MessagingTk.MirrorBuddyGroup_setSeqNoBase _ P g n) |}.

Definition remoting : RemotingEnv World := {|
  remoting_rpc := rpc;
  Remoting.NodeStoreEx_referenceRootNode w := (Some (7, mkOwner 11 false), w);
  Remoting.InternodeSyncer_delayedCloseAdd _ _ _ w := w;
  Remoting.InternodeSyncer_delayedEntryUnlockAdd _ _ _ w := w;
  Remoting.InternodeSyncer_delayedRangeUnlockAdd _ _ _ w := w;
  AcknowledgmentStore_registerWaitAcks _ w := w;
  AcknowledgmentStore_waitForAckCompletion _ _ w := (false, w);
  AcknowledgmentStore_unregisterWaitAcks _ w := w;
  receivedAcks_length _ w := (0, w);
  signal_pending w := (true, w);
  RWLock_readLock _ w := w;
  RWLock_readUnlock _ w := w;
  App_lockAckCounter_incAndRead w := (17, w);
  kasprintf_ok w := (true, w);
  uninit_featureFlags w := (0, w) |}.

Definition set_ex_stores (t : Z) (x : TargetStateStore * MapperState) (e : Extra) : Extra :=
  mkExtra (fun t' => if t' =? t then x else ex_stores e t') (ex_mapper e) (ex_numID e) (ex_added e).
(** [others]: other threads are there. *)
Definition env (others : bool) : SyncerEnv World := {|
  syncer_remoting := remoting;
  syncer_selfTerminate w := (false, w);
  ktime_get_ts w := (mkTime 5000 0, w);
  mgmtNodes_referenceFirstNode w := (Some 1, w);
  stores t w := ex_stores (snd w) t;
  set_stores t x w := (fst w, set_ex_stores t x (snd w));
  group_alloc w := (fun _ => (true, true), w);
  target_mapper w := ex_mapper (snd w);
  set_target_mapper m w := (fst w, mkExtra (ex_stores (snd w)) m (ex_numID (snd w)) (ex_added (snd w)));
  local_numID w := ex_numID (snd w);
  set_local_numID n w := (fst w, mkExtra (ex_stores (snd w)) (ex_mapper (snd w)) n (ex_added (snd w)));
  close_added w := (if others then ex_added (snd w) else [], (fst w, mkExtra (ex_stores (snd w)) (ex_mapper (snd w)) (ex_numID (snd w)) []));
  entry_unlock_added w := ([], w);
  range_unlock_added w := ([], w) |}.

Lemma store_laws others : StoreLaws (SyncerEnv0 := env others) World.
Proof. split; [|done]. intros t x w. cbn. by rewrite Z.eqb_refl. Qed.

Definition target (s : Z) : TargetStateStore := mkStore (Node Leaf (mkTSI 11 (mkCTS s 0)) Leaf).
Definition start (answers : list (option mem)) (added : list DelayedCloseEntry) : World :=
  (SmallRPC.mkW answers [] [],
   mkExtra (fun _ => (target 0, MirrorBuddyGroupMapper_init ∅)) TargetMapper_init 3 added).

Definition uninit : RemotingIOInfo := mkIOInfo KNull None None 0 true None None 0 0.
Definition close (h : Z) : DelayedCloseEntry := mkDelayedClose SmallRemote.entry (KAlloc [h]) 1 false 0 None.
Definition answer (res : Z) : mem := SmallRemote.answer NETMSGTYPE_CloseFileResp (le_split 4 res).
End SmallSync.

Definition small_syncer (q : list DelayedCloseEntry) : InternodeSyncer :=
  with_queues (InternodeSyncer_init (mkTime 0 0) 900) q [] [].
Definition small_close (others : bool) : DelayedOps DelayedCloseEntry :=
  delayed_close (SyncerEnv0 := SmallSync.env others) SmallRemote.app 5 SmallSync.uninit.
Definition small_queue : SyncRun SmallSync.World :=
  mkSyncRun (SmallSync.start [None; None; Some (SmallSync.answer 0)] [SmallSync.close 51])
    (small_syncer [SmallSync.close 49; SmallSync.close 50]).
Definition small_pass (others : bool) : outcome (option (list (DelayedCloseEntry * Z)) * SyncRun SmallSync.World) :=
  delayed_loop (SyncerEnv0 := SmallSync.env others) (small_close others) 4 0 small_queue.

(** The first close fails; the second is done, and the one that was added fails again. *)
Example small_pass_added :
  match small_pass true with
  | Done (Some log, s) => (snd <$> log, dc_fileHandleID <$> delayedCloseQueue (sr_this s)) | _ => ([], []) end =
  ([FhgfsOpsErr_COMMUNICATION; FhgfsOpsErr_SUCCESS; FhgfsOpsErr_COMMUNICATION], [KAlloc [49]; KAlloc [51]]).
Proof. by vm_compute. Qed.

Lemma small_delayed_laws :
  DelayedLaws (SyncerEnv0 := SmallSync.env false) (small_close false) (fun _ => 0%nat).
Proof. split; try done. by intros []. Qed.

Definition pass_queue (r : outcome (option (list (DelayedCloseEntry * Z)) * SyncRun SmallSync.World))
    : option (list DelayedCloseEntry) :=
  match r with Done (Some log, _) => Some (retried log) | _ => None end.

Lemma delayed_pass_witness : exists log s',
  delayed_loop (SyncerEnv0 := SmallSync.env false) (small_close false) 4 0 small_queue = Done (Some log, s') /\
  sr_this s' = dq_set (small_close false) [SmallSync.close 49] (small_syncer [SmallSync.close 49; SmallSync.close 50]).
Proof.
  assert (El : pass_queue (delayed_loop (SyncerEnv0 := SmallSync.env false) (small_close false) 4 0 small_queue) =
    Some [SmallSync.close 49]) by (by vm_compute).
  pose proof (delayed_pass (SyncerEnv0 := SmallSync.env false) (small_close false) (fun _ => 0%nat)
    (DelayedLaws0 := small_delayed_laws) 4 small_queue ltac:(by repeat constructor) ltac:(cbn; lia)) as H.
  destruct (delayed_loop _ _ _ _) as [[[log|] s']|]; [|discriminate El|discriminate El].
  exists log, s'. split; [exact eq_refl|]. destruct H as (added & left & _ & E2 & [->|(w & Hw)]); [|discriminate Hw].
  injection El as El. rewrite E2, El. exact eq_refl.
Defined.

Lemma deferred_calls_same_witness :
  let E := SmallSync.env false in
  let ioInfo := mkIOInfo (KAlloc [49]) None None 2 true (Some 3) None 0 0 in
  exists e, InternodeSyncer_delayedCloseAdd (small_syncer []) SmallRemote.entry ioInfo None = Done (small_syncer [e]) /\
    forall s : RPC SmallSync.World, dq_comm (delayed_close SmallRemote.app 5 SmallSync.uninit) e s =
      FhgfsOpsRemoting_closefileEx SmallRemote.app 5 SmallRemote.entry ioInfo false None s.
Proof.
  intros E ioInfo.
  destruct (proj1 (deferred_calls_same SmallRemote.app 5 SmallSync.uninit (small_syncer [])
    (small_syncer [mkDelayedClose SmallRemote.entry (KAlloc [49]) 2 true 3 None]) SmallRemote.entry ioInfo) None eq_refl)
    as (e & He & _ & Hs).
  exists e. split; [|exact Hs]. injection He as <-. done.
Defined.

(** ** A round of the loop: the states of the metadata nodes arrive, then nothing *)

Definition small_start : SyncRun SmallSync.World :=
  mkSyncRun (SmallSync.start [Some (SmallRemote.answer NETMSGTYPE_GetStatesAndBuddyGroupsResp
                                      (le_split 4 0 ++ le_split 4 0))] []) (small_syncer []).
Notation small_round :=
  (update_states (SyncerEnv0 := SmallSync.env false) (KS := chain_kernel TargetStateInfo targetID)
    (KG := chain_kernel GroupNode gnGroupID) SmallRemote.app 5 8 small_start) (only parsing).
Definition round_result (r : outcome (option (option (bool * timespec) * option (bool * timespec)) * SyncRun SmallSync.World))
    : option (option (bool * timespec) * option (bool * timespec)) :=
  match r with Done (r, _) => r | Fault => None end.

Lemma meta_update_hides_storage_witness : exists s' now,
  small_round = Done (Some (Some (true, now), Some (false, now)), s') /\
  stale_state (small_syncer []) now = TargetReachabilityState_OFFLINE /\
  Forall (fun i => reachabilityState (state i) = TargetReachabilityState_POFFLINE)
    (inorder (states (fst (stores (SyncerEnv := SmallSync.env false) NODETYPE_Storage (sr_world s'))))).
Proof.
  assert (Ht : Time_elapsedSinceMS (mkTime 5000 0) (mkTime 5000 0) <= targetOfflineTimeoutMS (sr_this small_start))
    by (by vm_compute).
  assert (Hs : stale_state (small_syncer []) (mkTime 5000 0) = TargetReachabilityState_OFFLINE) by (by vm_compute).
  assert (El : round_result small_round = Some (Some (true, mkTime 5000 0), Some (false, mkTime 5000 0)))
    by (by vm_compute).
  pose proof (fun s' E => proj1 (meta_update_hides_storage (SyncerEnv0 := SmallSync.env false)
    (StoreLaws0 := SmallSync.store_laws false) (KS := chain_kernel TargetStateInfo targetID)
    (KG := chain_kernel GroupNode gnGroupID) SmallRemote.app 5 8 small_start s' _ _ E Ht)) as H.
  destruct (update_states _ _ _ _) as [[r s']|]; [|discriminate El]. cbn [round_result] in El.
  exists s', (mkTime 5000 0). split; [by rewrite El|]. split; [exact Hs|]. apply H. by rewrite El.
Defined.
