(* ===== verification/DatagramListener.v ===== *)
(** * The listener for datagrams

    [components/DatagramListener.h/.c] with what the messages do that it lets through
    ([processIncoming] of [HeartbeatMsgEx], [HeartbeatRequestMsgEx], [MapTargetsMsgEx],
    [RemoveNodeMsgEx], [LockGrantedMsgEx], [RefreshTargetStatesMsgEx],
    [SetMirrorBuddyGroupMsgEx]), [common/net/msghelpers/MsgHelperAck.h] and the test of
    [common/toolkit/NetFilter.h].

    The state is what these functions of the client share: the node stores, the target
    mapper, the buddy groups, the store of expected acks, the queue of the ack manager,
    and the flag of the syncer.  Log messages and the results of sending, which are only
    logged, are left out. *)

From Stdlib Require Import String Ascii.
From stdpp Require Import gmap.
From S2P Require Import Prelude StateMonad Serialization SerializationLists EntryInfo NetMessage Messages Responses.
From S2P Require Import RBTree NodeConnPool NodeStore TargetMapper MirrorBuddyGroup MirrorBuddyGroupMapper AckStore.
From S2P Require Import MessagingTk AckManager InternodeSyncer.
Open Scope Z_scope.

Definition DGRAMMGR_RECVBUF_SIZE : Z := 65536.
Definition DGRAMMGR_SENDBUF_SIZE : Z := DGRAMMGR_RECVBUF_SIZE.
Definition INADDR_LOOPBACK : Z := 0x7f000001.
Definition ETIMEDOUT : Z := 110.

(** The other byte order, of 32 and of 16 bits. *)
Definition ntohl (x : Z) : Z := le_combine (rev (le_split 4 x)).
Definition htons (x : Z) : Z := le_combine (rev (le_split 2 x)).

(** ** Filters

    An entry is a network address, shifted by the number of bits. *)

Record NetFilterEntry := mkFilter { netAddressShifted : Z; shiftBitsNum : Z }.

Definition NetFilter_isContained (filterArray : list NetFilterEntry) (ipAddr : Z) : bool :=
  let ipHostOrder := ntohl ipAddr in
  if ipHostOrder =? INADDR_LOOPBACK then true
  else existsb (fun f => netAddressShifted f =? Z.shiftr ipHostOrder (shiftBitsNum f)) filterArray.
Definition NetFilter_isAllowed (filterArray : list NetFilterEntry) (ipAddr : Z) : bool :=
  match filterArray with [] => true | _ => NetFilter_isContained filterArray ipAddr end.

(** ** The client

    Stores and buddy groups by node type.  Addresses are pairs of an IP address and a port,
    in network byte order; [cl_sent]: the datagrams that were sent, the newest first. *)

Definition sockaddr : Type := Z * Z.

Record Client := mkClient {
  cl_nodes : Z -> NodeStoreEx; cl_groups : Z -> MapperState; cl_targetMapper : TargetMapper;
  cl_ackStore : AckState; cl_ackManager : AckManager; cl_syncer : InternodeSyncer;
  cl_localNode : NodeObject; cl_recvBuf : mem; cl_sendBuf : mem; cl_sent : list (sockaddr * mem) }.

Record ClientConfig := mkConfig {
  cf_currentUserID : Z; cf_connMaxInternodeNum : Z; cf_connFallbackExpirationSecs : Z;
  cf_connMaxAttempts : Z; cf_connClientPortUDP : Z; cf_filter : list NetFilterEntry }.

Section Setters.
Context (c : Client).
Definition set_cl_nodes (t : Z) (s : NodeStoreEx) : Client :=
  mkClient (fun t' => if t' =? t then s else cl_nodes c t') (cl_groups c) (cl_targetMapper c) (cl_ackStore c)
    (cl_ackManager c) (cl_syncer c) (cl_localNode c) (cl_recvBuf c) (cl_sendBuf c) (cl_sent c).
Definition set_cl_groups (t : Z) (g : MapperState) : Client :=
  mkClient (cl_nodes c) (fun t' => if t' =? t then g else cl_groups c t') (cl_targetMapper c) (cl_ackStore c)
    (cl_ackManager c) (cl_syncer c) (cl_localNode c) (cl_recvBuf c) (cl_sendBuf c) (cl_sent c).
Definition set_cl_targetMapper (m : TargetMapper) : Client :=
  mkClient (cl_nodes c) (cl_groups c) m (cl_ackStore c) (cl_ackManager c) (cl_syncer c) (cl_localNode c)
    (cl_recvBuf c) (cl_sendBuf c) (cl_sent c).
Definition set_cl_ackStore (s : AckState) : Client :=
  mkClient (cl_nodes c) (cl_groups c) (cl_targetMapper c) s (cl_ackManager c) (cl_syncer c) (cl_localNode c)
    (cl_recvBuf c) (cl_sendBuf c) (cl_sent c).
Definition set_cl_ackManager (a : AckManager) : Client :=
  mkClient (cl_nodes c) (cl_groups c) (cl_targetMapper c) (cl_ackStore c) a (cl_syncer c) (cl_localNode c)
    (cl_recvBuf c) (cl_sendBuf c) (cl_sent c).
Definition set_cl_syncer (s : InternodeSyncer) : Client :=
  mkClient (cl_nodes c) (cl_groups c) (cl_targetMapper c) (cl_ackStore c) (cl_ackManager c) s (cl_localNode c)
    (cl_recvBuf c) (cl_sendBuf c) (cl_sent c).
Definition set_cl_recvBuf (b : mem) : Client :=
  mkClient (cl_nodes c) (cl_groups c) (cl_targetMapper c) (cl_ackStore c) (cl_ackManager c) (cl_syncer c)
    (cl_localNode c) b (cl_sendBuf c) (cl_sent c).
Definition set_cl_sendBuf (b : mem) : Client :=
  mkClient (cl_nodes c) (cl_groups c) (cl_targetMapper c) (cl_ackStore c) (cl_ackManager c) (cl_syncer c)
    (cl_localNode c) (cl_recvBuf c) b (cl_sent c).
Definition add_cl_sent (to : sockaddr) (b : mem) : Client :=
  mkClient (cl_nodes c) (cl_groups c) (cl_targetMapper c) (cl_ackStore c) (cl_ackManager c) (cl_syncer c)
    (cl_localNode c) (cl_recvBuf c) (cl_sendBuf c) ((to, b) :: cl_sent c).
End Setters.

Notation CS := (ST Client).

(** Steps of a node store, and of the store of acks. *)
Definition on_nodes {A} (t : Z) (m : NST A) : CS A := fun c =>
  match m (cl_nodes c t) with Done (a, s) => Done (a, set_cl_nodes c t s) | Fault => Fault end.
Definition on_acks {A} (m : ST AckState A) : CS A := fun c =>
  match m (cl_ackStore c) with Done (a, s) => Done (a, set_cl_ackStore c s) | Fault => Fault end.

Definition string_of_bytes (l : mem) : string :=
  string_of_list_ascii ((fun b => ascii_of_N (Z.to_N b)) <$> l).
Definition bytes_of_string (s : string) : mem := (fun a => Z.of_N (N_of_ascii a)) <$> list_ascii_of_string s.

Section Listener.
Context `{K : KernelRBTree (Z * Z) fst} `{KT : KernelRBTree TargetMapping tmTargetID}.
Context `{KG : KernelRBTree GroupNode gnGroupID}.
Context (cfg : ClientConfig).

(** ** Sending *)

Definition DatagramListener_sendto (buf : mem) (to : sockaddr) : CS unit := st_mod (fun c => add_cl_sent c to buf).
Definition DatagramListener_sendtoIP (buf : mem) (ipAddr port : Z) : CS unit :=
  DatagramListener_sendto buf (ipAddr, htons port).

(** To all addresses of the node that the filter lets through. *)
Fixpoint send_to_nics (buf : mem) (port : Z) (nics : list NicAddress) : CS unit :=
  match nics with
  | [] => mret tt
  | nicAddr :: nics =>
      _ ← (if negb (nicType nicAddr =? NICADDRTYPE_STANDARD) then mret tt
           else if negb (NetFilter_isAllowed (cf_filter cfg) (ipAddr nicAddr)) then mret tt
           else DatagramListener_sendtoIP buf (ipAddr nicAddr) port);
      send_to_nics buf port nics
  end.
Definition DatagramListener_sendBufToNode (node : NodeObject) (buf : mem) : CS unit :=
  send_to_nics buf (nd_portUDP node) (Node_getNicList node).

(** The answer of a message: serialized into the buffer and sent, if it fits. *)
Definition respond {P Q} (ops : NetMessageOps P Q) (payload : P) (type : Z) (fromAddr : sockaddr) : CS unit :=
  '(respLen, msg) ← st_lift (NetMessage_getMsgLength ops (NetMessage_init (cf_currentUserID cfg) type) payload);
  c ← st_get;
  '(serializeRes, _, buf) ← st_lift (NetMessage_serialize ops msg payload (cl_sendBuf c) 0 DGRAMMGR_SENDBUF_SIZE);
  _ ← st_mod (fun c => set_cl_sendBuf c buf);
  if negb serializeRes then mret tt else
  bytes ← st_lift (read_block buf 0 (u32 respLen));
  DatagramListener_sendto bytes fromAddr.

(** [ackID]: a string in the received message. *)
Definition MsgHelperAck_respondToAckRequest (ackID : Z * Z) (fromAddr : sockaddr) : CS bool :=
  c ← st_get;
  id ← st_lift (cstring (cl_recvBuf c) (snd ackID));
  match id with
  | [] => mret false
  | _ => _ ← respond SimpleStringMsg_Ops id NETMSGTYPE_Ack fromAddr; mret true
  end.

(** ** The messages *)

Definition __HeartbeatMsgEx_processIncomingRoot (nodeType rootNumID : Z) (rootIsBuddyMirrored : bool) : CS unit :=
  let rootOwner := if rootIsBuddyMirrored then NodeOrGroup_fromGroup rootNumID else NodeOrGroup_fromNode rootNumID in
  if negb (nodeType =? NODETYPE_Meta) || (rootNumID =? 0) then mret tt else
  _ ← on_nodes NODETYPE_Meta (NodeStoreEx_setRootOwner rootOwner false); mret tt.

(** [Node_construct], at a free address. *)
Definition construct_node (nd : NodeObject) : NST Z :=
  s ← st_get;
  let p := fresh (dom (ns_nodes s)) in
  _ ← put_node p nd;
  mret p.

Definition heartbeat_store (nodeType : Z) : bool :=
  (nodeType =? NODETYPE_Meta) || (nodeType =? NODETYPE_Storage) || (nodeType =? NODETYPE_Mgmt).

(** [nicList] is initialised behind the two checks; the end of the function, to which
    they jump, goes through it to free its elements. *)
Definition __HeartbeatMsgEx_processIncoming (now : timespec) (nodeType : Z) (nodeID ackID : Z * Z)
    (nodeNumID rootNumID : Z) (rootIsBuddyMirrored : bool) (portUDP portTCP : Z) (rawNicList : RawList)
    (fromAddr : sockaddr) : CS bool :=
  nicList ←
    (if (nodeNumID =? 0) || negb (heartbeat_store nodeType) then mret None else
     c ← st_get;
     nics ← st_lift (Serialization_deserializeNicList (cl_recvBuf c) rawNicList []);
     id ← st_lift (cstring (cl_recvBuf c) (snd nodeID));
     let node := Node_setNodeType nodeType
       (Node_init (cf_connMaxInternodeNum cfg) (cf_connFallbackExpirationSecs cfg) (cf_connMaxAttempts cfg)
          now (string_of_bytes id) nodeNumID portUDP portTCP nics) in
     let localNicCaps := NIC_supportedCapabilities (Node_getNicList (cl_localNode c)) in
     node ← on_nodes nodeType (construct_node (set_localNicCaps localNicCaps node));
     _ ← on_nodes nodeType (NodeStoreEx_addOrUpdateNode now node);
     _ ← __HeartbeatMsgEx_processIncomingRoot nodeType rootNumID rootIsBuddyMirrored;
     mret (Some nics));
  _ ← MsgHelperAck_respondToAckRequest ackID fromAddr;
  _ ← st_lift (of_option nicList);
  mret true.

(** The ID of the local node, and its interfaces. *)
Definition __HeartbeatRequestMsgEx_processIncoming (fromAddr : sockaddr) : CS bool :=
  c ← st_get;
  let localNode := cl_localNode c in
  let hbMsg := Messages.HeartbeatMsgEx 0 0 NODETYPE_Client (bytes_of_string (nd_id localNode)) [] (nd_numID localNode)
                 0 false (cf_connClientPortUDP cfg) 0 (Node_getNicList localNode) in
  _ ← respond (request_ops hbMsg) hbMsg NETMSGTYPE_Heartbeat fromAddr;
  mret true.

Fixpoint map_targets (nodeID : Z) (poolMappings : list TargetPoolMapping) (m : TargetMapper) : TargetMapper :=
  match poolMappings with
  | [] => m
  | mapping :: l => map_targets nodeID l (TargetMapper_mapTarget m (tpmTargetID mapping) nodeID).2
  end.
Definition __MapTargetsMsgEx_processIncoming (poolMappings : list TargetPoolMapping) (nodeID : Z) (ackID : Z * Z)
    (fromAddr : sockaddr) : CS bool :=
  _ ← st_mod (fun c => set_cl_targetMapper c (map_targets nodeID poolMappings (cl_targetMapper c)));
  _ ← MsgHelperAck_respondToAckRequest ackID fromAddr;
  mret true.

Definition __RefreshTargetStatesMsgEx_processIncoming (ackID : Z * Z) (fromAddr : sockaddr) : CS bool :=
  _ ← st_mod (fun c => set_cl_syncer c (InternodeSyncer_setForceTargetStatesUpdate (cl_syncer c)));
  _ ← MsgHelperAck_respondToAckRequest ackID fromAddr;
  mret true.

Definition __RemoveNodeMsgEx_processIncoming (nodeType nodeID : Z) (ackID : Z * Z) (fromAddr : sockaddr) : CS bool :=
  _ ← (if (nodeType =? NODETYPE_Meta) || (nodeType =? NODETYPE_Storage)
       then _ ← on_nodes nodeType (NodeStoreEx_deleteNode nodeID); mret tt
       else mret tt);
  acked ← MsgHelperAck_respondToAckRequest ackID fromAddr;
  _ ← (if acked : bool then mret tt else respond SimpleIntMsg_Ops 0 NETMSGTYPE_RemoveNodeResp fromAddr);
  mret true.

(** [alloc]: outcomes of allocations. *)
Definition __SetMirrorBuddyGroupMsgEx_processIncoming (alloc : bool * bool)
    (nodeType primaryTargetID secondaryTargetID buddyGroupID : Z) (allowUpdate : bool) (ackID : Z * Z)
    (fromAddr : sockaddr) : CS bool :=
  if negb ((nodeType =? NODETYPE_Storage) || (nodeType =? NODETYPE_Meta)) then mret false else
  c ← st_get;
  let targetMapper := if nodeType =? NODETYPE_Storage then Some (cl_targetMapper c) else None in
  '(_, groups) ← st_lift (MirrorBuddyGroupMapper_addGroup (cf_connMaxInternodeNum cfg) alloc targetMapper
                            (cl_groups c nodeType) buddyGroupID primaryTargetID secondaryTargetID allowUpdate);
  _ ← st_mod (fun c => set_cl_groups c nodeType groups);
  _ ← MsgHelperAck_respondToAckRequest ackID fromAddr;
  mret true.

(** Only when somebody waits for the lock is the grant answered, by a datagram and
    reliably. *)
Definition __LockGrantedMsgEx_processIncoming (lockAckID ackID : Z * Z) (granterNodeID : Z) (fromAddr : sockaddr)
    : CS bool :=
  c ← st_get;
  lockID ← st_lift (cstring (cl_recvBuf c) (snd lockAckID));
  gotLockWaiter ← on_acks (AcknowledgmentStore_receivedAck lockID);
  _ ← (if gotLockWaiter : bool then
         _ ← MsgHelperAck_respondToAckRequest ackID fromAddr;
         id ← st_lift (cstring (cl_recvBuf c) (snd ackID));
         st_mod (fun c => set_cl_ackManager c (AckManager_addAckToQueue granterNodeID id (cl_ackManager c)))
       else mret tt);
  mret true.

(** ** The loop *)

(** The [processIncoming] of the messages the listener lets through; that of the others,
    and of a simple ack, does nothing. *)
Definition _DatagramListener_handleIncomingMsg (now : timespec) (alloc : bool * bool) (fromAddr : sockaddr)
    (type : Z) (msg : Received) : CS unit :=
  _ ← match msg with
      | SimpleMsg => if type =? NETMSGTYPE_HeartbeatRequest then __HeartbeatRequestMsgEx_processIncoming fromAddr else mret false
      | HeartbeatMsgEx _ _ nodeType nodeID ackID nodeNumID rootNumID mirrored portUDP portTCP nics =>
          __HeartbeatMsgEx_processIncoming now nodeType nodeID ackID nodeNumID rootNumID mirrored portUDP portTCP nics fromAddr
      | MapTargetsMsgEx poolMappings nodeID ackID => __MapTargetsMsgEx_processIncoming poolMappings nodeID ackID fromAddr
      | RemoveNodeMsgEx nodeType nodeID ackID => __RemoveNodeMsgEx_processIncoming nodeType nodeID ackID fromAddr
      | LockGrantedMsgEx lockAckID ackID granter => __LockGrantedMsgEx_processIncoming lockAckID ackID granter fromAddr
      | RefreshTargetStatesMsgEx ackID => __RefreshTargetStatesMsgEx_processIncoming ackID fromAddr
      | SetMirrorBuddyGroupMsgEx nodeType primary secondary group allowUpdate ackID =>
          __SetMirrorBuddyGroupMsgEx_processIncoming alloc nodeType primary secondary group allowUpdate ackID fromAddr
      | _ => mret false
      end;
  mret tt.

Definition __DatagramListener_isDGramFromLocalhost (localNode : NodeObject) (fromAddr : sockaddr) : bool :=
  if negb (snd fromAddr =? htons (cf_connClientPortUDP cfg)) then false
  else if existsb (fun n => ipAddr n =? fst fromAddr) (Node_getNicList localNode) then true
  else ntohl INADDR_LOOPBACK =? fst fromAddr.

(** What a receive gives: an error code (or 0), or the bytes with where they came from;
    with the choices of the surroundings meanwhile. *)
Record Incoming := mkIncoming {
  in_result : Z + mem; in_from : sockaddr; in_now : timespec; in_decode : DecodeEnv; in_alloc : bool * bool }.

(** One turn of the loop; [false]: the loop ends. *)
Definition listen_step (i : Incoming) : CS bool :=
  match in_result i with
  | inl recvRes => mret (negb (recvRes <? 0) || (recvRes =? - ETIMEDOUT))
  | inr [] => mret true
  | inr bytes =>
      c ← st_get;
      buf ← st_lift (write_block (cl_recvBuf c) 0 bytes);
      _ ← st_mod (fun c => set_cl_recvBuf c buf);
      if __DatagramListener_isDGramFromLocalhost (cl_localNode c) (in_from i) then mret true else
      '(msg, h) ← st_lift (decode buf (mlen bytes) (in_decode i));
      if (msgType h =? NETMSGTYPE_Invalid) || negb (msgLength h =? mlen bytes) || negb (msgSequence h =? 0) ||
         negb (msgSequenceDone h =? 0)
      then mret true
      else
        msg ← st_lift (of_option msg);
        _ ← _DatagramListener_handleIncomingMsg (in_now i) (in_alloc i) (in_from i) (msgType h) msg;
        mret true
  end.

Fixpoint __DatagramListener_listenLoop (l : list Incoming) : CS unit :=
  match l with
  | [] => mret tt
  | i :: l => continue ← listen_step i; if continue : bool then __DatagramListener_listenLoop l else mret tt
  end.
End Listener.
