(* ===== verification/DatagramListenerProps.v ===== *)
(** * The listener for datagrams: safety

    A client whose stores are well formed stays so, whatever is received -- apart from
    the messages whose decoding or handling is at fault ([listener_safe]); a heartbeat that
    is at fault; what the grant of a lock does. *)

From Stdlib Require Import String Ascii.
From stdpp Require Import functions gmap.
From S2P Require Import Prelude StateMonad Serialization SerializationLists EntryInfo NetMessage Messages Responses.
From S2P Require Import RBTree NodeConnPool NodeStore NodeStoreInv NodeStoreProps TargetMapper MirrorBuddyGroup.
From S2P Require Import MirrorBuddyGroupMapper AckStore MessagingTk RemotingInv AckManager InternodeSyncer DatagramListener.
Open Scope Z_scope.

(** ** Adding a buddy group keeps the mapper well formed *)

Lemma construct_group_some cfg alloc m g : construct_group cfg alloc m = Some g ->
  MirrorBuddyGroup.groupID g = SerializationLists.groupID m /\ refs g = 1.
Proof.
  unfold construct_group, MirrorBuddyGroup_constructFromTargetIDs. intros E.
  repeat (destruct (_ : bool) in E; [done|]). by simplify_eq.
Qed.

Lemma addGroup_wf `{K : KernelRBTree GroupNode gnGroupID} `{KT : KernelRBTree TargetMapping tmTargetID}
    cfg alloc tm st id p s allowUpdate : mapper_wf st ->
  exists r st', MirrorBuddyGroupMapper_addGroup cfg alloc tm st id p s allowUpdate = Done (r, st') /\ mapper_wf st'.
Proof.
  intros Hw. pose proof Hw as [Hs Hok]. unfold MirrorBuddyGroupMapper_addGroup.
  repeat (match goal with |- context [if ?b then _ else _] => destruct b end; [by eexists _, st|]).
  destruct (getBuddyGroupID_at st p Hw) as (v1 & -> & _). destruct (getBuddyGroupID_at st s Hw) as (v2 & -> & _).
  cbn [mbind outcome_bind]. destruct (_ || _); [by eexists _, st|].
  destruct (construct_group cfg alloc (mkBGM id p s)) as [g|] eqn:Eg; [|by eexists _, st].
  apply construct_group_some in Eg as [Eid Er]. cbn [SerializationLists.groupID] in Eid.
  set (q := fresh (dom (heap st))). pose proof (rb_link_spec gnGroupID (mirrorBuddyGroups st) (mkGN id q) Hs) as HL.
  assert (Hheap : forall n, n ∈ inorder (mirrorBuddyGroups st) -> node_ok (<[q := (g, ∅)]> (heap st)) n).
  { intros n Hn. apply node_ok_ne; [|by apply (fresh_not_node _ _ _ Hok Hn)].
    destruct Hok as [Hf _]. rewrite Forall_forall in Hf. by apply Hf. }
  unfold rb_insert. destruct (rb_link gnGroupID (mirrorBuddyGroups st) (mkGN id q)) as [t'|]; eexists _, _; (split; [done|]).
  2:{ split; [done|]. split; [by apply Forall_forall|apply Hok]. }
  destruct HL as (Hs' & Hp & _). split; [unfold rb_sorted; cbn; by rewrite rb_insert_color_inorder|]. cbn [heap mirrorBuddyGroups].
  rewrite rb_insert_color_inorder. apply (nodes_ok_perm _ (mkGN id q :: inorder (mirrorBuddyGroups st))); [by rewrite Hp|]. split.
  - apply Forall_cons. split; [exists g, ∅; split_and!; [by rewrite lookup_insert_eq|done|lia]|by apply Forall_forall].
  - rewrite fmap_cons. apply NoDup_cons. split; [|apply Hok]. intros (n & E & Hn)%list_elem_of_fmap.
    by apply (fresh_not_node _ _ _ Hok Hn).
Qed.

(** ** Strings in the receive buffer *)

Definition readable (m : mem) (p : Z) : Prop := exists s, cstring m p = Done s.

Lemma cstring_bound m p s : cstring m p = Done s -> mlen s <= mlen m.
Proof.
  unfold cstring, read_block. intros E. destruct (strlen m p) as [n|]; [|done]. cbn in E. destruct (in_range m p n) eqn:Er; [|done].
  injection E as <-. apply in_range_true in Er. unfold slice. unfold mlen at 1. rewrite length_take, length_drop. unfold mlen in *. lia.
Qed.

Lemma str_in_readable m s : str_in m s -> readable m (snd s).
Proof.
  intros (Hs1 & (Hp & Hn & Hm) & Hz). unfold readable, cstring, strlen. rewrite (proj2 (Z.leb_le 0 _)) by lia. unfold read8 in Hz.
  destruct (Z.leb_spec 0 (s.2 + s.1)); [|done]. destruct (m !! Z.to_nat (s.2 + s.1)) as [b|] eqn:Eb; [|done]. injection Hz as ->.
  destruct (strlen_list_bound (drop (Z.to_nat s.2) m) (Z.to_nat s.1)) as (k & Ek & Hk).
  { rewrite lookup_drop. by rewrite <- Z2Nat.inj_add by lia. }
  exists (slice m s.2 k). rewrite Ek. apply read_block_Done; lia.
Qed.

(** ** Answers *)

Definition with_out (c : Client) (buf : mem) (sent : list (sockaddr * mem)) : Client :=
  mkClient (cl_nodes c) (cl_groups c) (cl_targetMapper c) (cl_ackStore c) (cl_ackManager c) (cl_syncer c)
    (cl_localNode c) (cl_recvBuf c) buf sent.

(** Nothing else changes, and at most this datagram is sent. *)
Definition answered (from : sockaddr) (data : mem) (c c' : Client) : Prop :=
  exists buf, mlen buf = DGRAMMGR_SENDBUF_SIZE /\
    (c' = with_out c buf (cl_sent c) \/ c' = with_out c buf ((from, data) :: cl_sent c)).
Definition fits_out (data : mem) : bool := mlen data <=? DGRAMMGR_SENDBUF_SIZE.

Section Listener.
Context `{K : KernelRBTree (Z * Z) fst} `{KT : KernelRBTree TargetMapping tmTargetID}.
Context `{KG : KernelRBTree GroupNode gnGroupID}.
Context (cfg : ClientConfig).

Lemma respond_spec {P Q} (ops : NetMessageOps P Q) payload type from enc c :
  PayloadWrites ops (NetMessage_init (cf_currentUserID cfg) type) payload enc -> mlen enc + 40 < 2 ^ 32 ->
  mlen (cl_sendBuf c) = DGRAMMGR_SENDBUF_SIZE ->
  let data := enc_header (40 + mlen enc) (NetMessage_init (cf_currentUserID cfg) type) ++ enc in
  swp (respond cfg ops payload type from) (fun _ c' => exists buf, mlen buf = DGRAMMGR_SENDBUF_SIZE /\
    c' = with_out c buf (if fits_out data then (from, data) :: cl_sent c else cl_sent c)) c.
Proof.
  intros Hw Hl Hb data. set (h := NetMessage_init (cf_currentUserID cfg) type) in *. pose proof (mlen_nonneg enc).
  assert (Hd : mlen data = 40 + mlen enc) by (unfold data; by rewrite mlen_app, mlen_enc_header).
  pose proof (getMsgLength_run ops h payload enc eq_refl ltac:(lia)) as E1.
  pose proof (serialize_run ops h payload enc (cl_sendBuf c) 0 DGRAMMGR_SENDBUF_SIZE eq_refl
    ltac:(lia) ltac:(lia) ltac:(done) ltac:(lia)) as E2. cbv zeta in E2.
  assert (E3 : NetMessage_getMsgLength ops (header_set_length h (40 + mlen enc)) payload =
    Done (40 + mlen enc, header_set_length h (40 + mlen enc))).
  { unfold NetMessage_getMsgLength. cbn [msgLength header_set_length]. by destruct (Z.eqb_spec (40 + mlen enc) 0); [lia|]. }
  unfold respond. fold h. sstep. eapply swp_lift; [exact E1|]. sstep.
  assert (E4 : NetMessage_serialize ops (header_set_length h (40 + mlen enc)) payload (cl_sendBuf c) 0 DGRAMMGR_SENDBUF_SIZE =
    NetMessage_serialize ops h payload (cl_sendBuf c) 0 DGRAMMGR_SENDBUF_SIZE).
  { unfold NetMessage_serialize. by rewrite E1, E3. }
  rewrite <- E4 in E2. unfold fits_out. fold data in E2 |- *. rewrite Hd.
  destruct (Z.ltb_spec DGRAMMGR_SENDBUF_SIZE (40 + mlen enc)); (eapply swp_lift; [exact E2|]); sstep; cbn [negb]; sstep.
  - rewrite (proj2 (Z.leb_gt _ _)) by lia. by exists (cl_sendBuf c).
  - rewrite (proj2 (Z.leb_le _ _)) by lia. rewrite u32_id by (unfold in_u; lia).
    assert (Hp : mlen (put (cl_sendBuf c) 0 data) = DGRAMMGR_SENDBUF_SIZE) by (rewrite mlen_put; lia).
    eapply swp_lift; [apply read_block_Done; lia|]. unfold DatagramListener_sendto. apply swp_mod.
    exists (put (cl_sendBuf c) 0 data). split; [done|]. rewrite <- Hd, slice_put by lia. by destruct c.
Qed.

(** Answering a request for an ack: a datagram with the string, if there is one. *)
Definition ack_datagram (id : mem) : mem :=
  enc_header (45 + mlen id) (NetMessage_init (cf_currentUserID cfg) NETMSGTYPE_Ack) ++ Serialization.enc_str id.

Lemma ack_request_spec ackID from c id : cstring (cl_recvBuf c) (snd ackID) = Done id ->
  mlen (cl_recvBuf c) = DGRAMMGR_RECVBUF_SIZE -> mlen (cl_sendBuf c) = DGRAMMGR_SENDBUF_SIZE ->
  swp (MsgHelperAck_respondToAckRequest cfg ackID from) (fun acked c' => acked = bool_decide (id <> []) /\
    exists buf, mlen buf = DGRAMMGR_SENDBUF_SIZE /\
    c' = with_out c buf (if acked && fits_out (ack_datagram id) then (from, ack_datagram id) :: cl_sent c else cl_sent c)) c.
Proof.
  intros E Hr Hb. unfold MsgHelperAck_respondToAckRequest. sstep. eapply swp_lift; [exact E|].
  apply cstring_bound in E. unfold DGRAMMGR_RECVBUF_SIZE in *. pose proof (mlen_nonneg id).
  destruct id as [|b id']; [apply swp_ret; split; [done|]; exists (cl_sendBuf c); split; [done|by destruct c]|].
  remember (b :: id') as id eqn:Eid. apply swp_bind.
  eapply swp_mono; [apply (respond_spec SimpleStringMsg_Ops id NETMSGTYPE_Ack from (Serialization.enc_str id));
    [apply simplestring_writes; lia|rewrite Serialization.mlen_enc_str; lia|done]|].
  intros ? c' (buf & Hbuf & ->). apply swp_ret. rewrite Serialization.mlen_enc_str, (bool_decide_true (id <> [])) by (by subst).
  split; [done|]. exists buf. split; [done|]. unfold ack_datagram. by replace (40 + (mlen id + 5)) with (45 + mlen id) by lia.
Qed.

(** ** Clients that are well formed

    [ext]: by node type, who else holds references to its nodes; [ws]: the threads that wait for acks. *)

Definition local_heartbeat (localNode : NodeObject) : Request :=
  Messages.HeartbeatMsgEx 0 0 NODETYPE_Client (bytes_of_string (nd_id localNode)) [] (nd_numID localNode)
    0 false (cf_connClientPortUDP cfg) 0 (Node_getNicList localNode).

(** A node whose heartbeat is no longer than a message can be. *)
Definition short_node (nd : NodeObject) : Prop :=
  mlen (bytes_of_string (nd_id nd)) < 2 ^ 16 /\ Forall nic_wf (Node_getNicList nd) /\
  Z.of_nat (length (Node_getNicList nd)) < 2 ^ 16.

Lemma heartbeat_writes nd : short_node nd -> exists enc, mlen enc + 40 < 2 ^ 32 /\
  PayloadWrites (request_ops (local_heartbeat nd)) (NetMessage_init (cf_currentUserID cfg) NETMSGTYPE_Heartbeat) (local_heartbeat nd) enc.
Proof.
  intros (Hs & Hn & Hl).
  assert (Hnics : Writes (Serialization_serializeNicList (Node_getNicList nd)) (enc_list enc_nic (Node_getNicList nd))).
  { unfold Serialization_serializeNicList, enc_list. rewrite u32_id, Nat2Z.id, firstn_all by lia.
    apply writes_seq; [apply _|]. apply writes_each. intros a Ha. apply writes_nic. rewrite Forall_forall in Hn. auto. }
  eexists. split; cycle 1.
  - intros len. unfold local_heartbeat. cbn [request_ops serializePayload request_serializePayload]. unfold HeartbeatMsgEx_serializePayload.
    apply writes_seq; [apply _|]. apply writes_seq; [apply _|]. apply writes_seq; [apply writes_int|].
    apply writes_seq; [apply writes_strlen; lia|]. apply writes_seq; [apply writes_strlen_align4; done|].
    do 5 (apply writes_seq; [apply _|]). exact Hnics.
  - pose proof (mlen_enc_nics _ Hn) as Hnl. unfold enc_list. rewrite !mlen_app, Hnl, mlen_enc_str, !mlen_le8, !mlen_le4, !mlen_le2.
    change (mlen (enc_str_align4 [])) with 8. change (mlen [0]) with 1. lia.
Qed.

Record client_ok (ext : Z -> Z -> Z) (ws : list Waiter) (c : Client) : Prop := mkClientOk {
  co_nodes : forall t, heartbeat_store t = true -> store_ok (ext t) (cl_nodes c t) /\ numbered (cl_nodes c t);
  co_groups : forall t, t = NODETYPE_Meta \/ t = NODETYPE_Storage -> mapper_wf (cl_groups c t);
  co_targets : rb_sorted tmTargetID (_entries (cl_targetMapper c));
  co_acks : acks_ok ws (cl_ackStore c);
  co_recv : msg_wf (cl_recvBuf c) /\ mlen (cl_recvBuf c) = DGRAMMGR_RECVBUF_SIZE;
  co_send : mlen (cl_sendBuf c) = DGRAMMGR_SENDBUF_SIZE;
  co_local : short_node (cl_localNode c) }.

Context (ext : Z -> Z -> Z) (ws : list Waiter).
Notation ok := (client_ok ext ws).

Lemma with_out_ok c buf sent : ok c -> mlen buf = DGRAMMGR_SENDBUF_SIZE -> ok (with_out c buf sent).
Proof. by intros []; constructor. Qed.
Lemma set_targets_ok c m : ok c -> rb_sorted tmTargetID (_entries m) -> ok (set_cl_targetMapper c m).
Proof. by intros []; constructor. Qed.
Lemma set_acks_ok c s : ok c -> acks_ok ws s -> ok (set_cl_ackStore c s).
Proof. by intros []; constructor. Qed.
Lemma set_ackManager_ok c a : ok c -> ok (set_cl_ackManager c a).
Proof. by intros []; constructor. Qed.
Lemma set_syncer_ok c s : ok c -> ok (set_cl_syncer c s).
Proof. by intros []; constructor. Qed.
Lemma set_recv_ok c m : ok c -> msg_wf m -> mlen m = DGRAMMGR_RECVBUF_SIZE -> ok (set_cl_recvBuf c m).
Proof. by intros []; constructor. Qed.
Lemma set_groups_ok c t g : ok c -> mapper_wf g -> ok (set_cl_groups c t g).
Proof. intros [] Hg; constructor; try done. intros t' Ht. cbn. destruct (_ =? _); auto. Qed.
Lemma set_nodes_ok c t s : ok c -> store_ok (ext t) s -> numbered s -> ok (set_cl_nodes c t s).
Proof. intros [] Hs Hn; constructor; try done. intros t' Ht. cbn. destruct (Z.eqb_spec t' t) as [->|]; auto. Qed.
Lemma set_nodes_twice c t s1 s2 :
  (forall t', cl_nodes (set_cl_nodes (set_cl_nodes c t s1) t s2) t' = cl_nodes (set_cl_nodes c t s2) t') ->
  ok (set_cl_nodes c t s2) -> ok (set_cl_nodes (set_cl_nodes c t s1) t s2).
Proof. intros E [H ? ? ? ? ? ?]; constructor; try done. intros t'. rewrite E. apply H. Qed.

Lemma swp_on_nodes {A} t (m : NST A) Q c :
  swp m (fun a s => Q a (set_cl_nodes c t s)) (cl_nodes c t) -> swp (on_nodes t m) Q c.
Proof. unfold swp, on_nodes. by destruct (m (cl_nodes c t)) as [[a s]|]. Qed.

Lemma ack_request_ok ackID from c (Q : bool -> Client -> Prop) : readable (cl_recvBuf c) (snd ackID) -> ok c ->
  (forall acked c', ok c' -> cl_recvBuf c' = cl_recvBuf c -> Q acked c') ->
  swp (MsgHelperAck_respondToAckRequest cfg ackID from) Q c.
Proof.
  intros [id E] H HQ. eapply swp_mono; [apply ack_request_spec; [done|apply H..]|]. intros acked c' (_ & buf & Hb & ->).
  apply HQ; [by apply with_out_ok|done].
Qed.

(** A new node goes to its store, and the listener keeps no reference. *)
Lemma new_node_ok now nd t c (Q : Client -> Prop) : ok c -> heartbeat_store t = true ->
  nd_references nd = 1 -> 0 <= nd_numID nd < 2 ^ 32 ->
  (forall c', ok c' -> cl_recvBuf c' = cl_recvBuf c -> Q c') ->
  swp (on_nodes t (construct_node nd)) (fun node => swp (on_nodes t (NodeStoreEx_addOrUpdateNode now node)) (fun _ => Q)) c.
Proof.
  intros H Ht Hr Hid HQ. destruct (co_nodes _ _ _ H t Ht) as [Hs Hn]. apply swp_on_nodes.
  unfold construct_node, put_node. sstep. apply swp_ret. set (s := cl_nodes c t) in *. set (p := fresh (dom (ns_nodes s))).
  assert (Ep : ns_nodes s !! p = None) by apply not_elem_of_dom, is_fresh.
  pose proof (construct_ok (ext t) s p nd Hs Ep Hr) as Hs1. set (s1 := set_nodes (<[p := nd]> (ns_nodes s)) s) in *.
  assert (Hn1 : numbered s1).
  { intros q x. unfold s1. destruct s as [h tr n a o' o ty]. cbn [set_nodes ns_nodes] in *.
    destruct (decide (p = q)) as [<-|Hq]; [rewrite lookup_insert_eq; by intros [= <-]|rewrite lookup_insert_ne by done; apply (Hn q)]. }
  sstep. apply swp_on_nodes. cbn [set_cl_nodes cl_nodes]. rewrite Z.eqb_refl.
  eapply swp_mono; [apply (addOrUpdate_ok now (<[p := 1]> (ext t)) p nd s1 Hs1)|].
  - unfold base.insert, fn_insert. rewrite decide_True by done. lia.
  - unfold s1. destruct s. cbn. by rewrite lookup_insert_eq.
  - done.
  - intros ? s2 (Hs2 & Hk & _). apply HQ; [|done]. apply set_nodes_twice.
    { intros t'. cbn. by destruct (t' =? t). }
    apply set_nodes_ok; [done| |by eapply numbered_kept]. eapply ok_pointwise; [|exact Hs2]. intros q.
    unfold base.insert, fn_insert. destruct (decide (p = q)) as [<-|]; [|done].
    by rewrite decide_True, (ok_free _ _ Hs p Ep).
Qed.

(** ** The handlers *)

(** What a message must have besides being decoded: of a heartbeat and of a grant the strings
    are not checked by the decoder. *)
Definition handled (m : mem) (q : Received) : Prop :=
  match q with
  | HeartbeatMsgEx _ _ nodeType nodeID ackID nodeNumID _ _ _ _ nics =>
      readable m (snd nodeID) /\ readable m (snd ackID) /\ 0 < nodeNumID < 2 ^ 32 /\ heartbeat_store nodeType = true /\
      exists l, Serialization_deserializeNicList m nics [] = Done l
  | LockGrantedMsgEx lockAckID ackID _ => readable m (snd lockAckID) /\ readable m (snd ackID)
  | _ => received_in m q
  end.

Lemma map_targets_sorted nodeID l m : rb_sorted tmTargetID (_entries m) ->
  rb_sorted tmTargetID (_entries (map_targets nodeID l m)).
Proof.
  revert m. induction l as [|x l IH]; intros m Hm; cbn [map_targets]; [done|]. apply IH.
  unfold TargetMapper_mapTarget. pose proof (rb_insertOrReplace_map tmTargetID (_entries m) (mkTM (tpmTargetID x) nodeID) Hm) as [H _].
  by destruct (rb_insertOrReplace _ _ _).
Qed.

Lemma ack_then_ok ackID from c : readable (cl_recvBuf c) (snd ackID) -> ok c ->
  swp (_ ← MsgHelperAck_respondToAckRequest cfg ackID from; mret true) (fun _ => ok) c.
Proof. intros Hr H. apply swp_bind. apply ack_request_ok; [done..|]. intros ? c' H' _. by apply swp_ret. Qed.

Lemma heartbeat_request_ok from c : ok c -> swp (__HeartbeatRequestMsgEx_processIncoming cfg from) (fun _ => ok) c.
Proof.
  intros H. unfold __HeartbeatRequestMsgEx_processIncoming. apply swp_bind, swp_get, swp_bind. destruct (heartbeat_writes _ (co_local _ _ _ H)) as (enc & Hl & Hw).
  eapply swp_mono; [eapply (respond_spec _ _ _ _ enc); [exact Hw|done|apply H]|]. intros ? c' (buf & Hb & ->).
  apply swp_ret. by apply with_out_ok.
Qed.

Lemma heartbeat_ok now nodeType nodeID ackID nodeNumID rootNumID mirrored portUDP portTCP nics from c :
  ok c -> handled (cl_recvBuf c) (HeartbeatMsgEx 0 0 nodeType nodeID ackID nodeNumID rootNumID mirrored portUDP portTCP nics) ->
  swp (__HeartbeatMsgEx_processIncoming cfg now nodeType nodeID ackID nodeNumID rootNumID mirrored portUDP portTCP nics from)
    (fun _ => ok) c.
Proof.
  intros H ((id & Eid) & Hack & Hnum & Ht & l & El). unfold __HeartbeatMsgEx_processIncoming. rewrite Ht.
  rewrite (proj2 (Z.eqb_neq nodeNumID 0)) by lia. cbn [orb negb]. sstep. eapply swp_lift; [exact El|]. sstep.
  eapply swp_lift; [exact Eid|]. cbn beta.
  apply swp_bind.
  eapply swp_mono; [apply (new_node_ok now _ _ c (fun c' => ok c' /\ cl_recvBuf c' = cl_recvBuf c)); [done|done|done|cbn; lia|by split]|].
  intros node c1 HN. apply swp_bind. eapply swp_mono; [exact HN|]. intros ? c2 (H2 & Hb). cbn beta.
  assert (Hroot : swp (__HeartbeatMsgEx_processIncomingRoot nodeType rootNumID mirrored)
    (fun _ c' => ok c' /\ cl_recvBuf c' = cl_recvBuf c) c2).
  { unfold __HeartbeatMsgEx_processIncomingRoot. destruct (_ || _); [by apply swp_ret|]. apply swp_bind, swp_on_nodes.
    set (owner := if mirrored then _ else _). destruct (co_nodes _ _ _ H2 NODETYPE_Meta eq_refl) as [Hs Hn].
    pose proof (perform_ok (ext NODETYPE_Meta) _ (C_setRoot owner false) Hs Hn I) as Hp. cbn [perform refs_after ext_add] in Hp.
    unfold swp, mbind, ST_bind in Hp |- *. destruct (NodeStoreEx_setRootOwner owner false _) as [[r s']|]; [|done].
    destruct Hp as [Hs' Hk]. split; [|done]. apply set_nodes_ok; [done|done|by eapply numbered_kept]. }
  apply swp_bind. eapply swp_mono; [exact Hroot|]. intros ? c3 (H3 & Hb3). apply swp_ret. cbn beta.
  apply swp_bind, ack_request_ok; [by rewrite Hb3|done|]. intros ? c4 H4 _. apply swp_bind. by eapply swp_lift.
Qed.

Lemma lock_granted_ok lockAckID ackID granter from c : ok c -> handled (cl_recvBuf c) (LockGrantedMsgEx lockAckID ackID granter) ->
  swp (__LockGrantedMsgEx_processIncoming cfg lockAckID ackID granter from) (fun _ => ok) c.
Proof.
  intros H ((lockID & El) & Hack). unfold __LockGrantedMsgEx_processIncoming. apply swp_bind, swp_get, swp_bind.
  eapply swp_lift; [exact El|]. apply swp_bind. unfold swp at 1, on_acks.
  pose proof (received_ok ws (cl_ackStore c) lockID (co_acks _ _ _ H)) as Hr. unfold swp at 1 in Hr.
  destruct (AcknowledgmentStore_receivedAck lockID (cl_ackStore c)) as [[got s']|]; [|done]. destruct Hr as (Hs & _).
  apply swp_bind. assert (H1 : ok (set_cl_ackStore c s')) by by apply set_acks_ok.
  destruct got; [|by do 2 apply swp_ret]. apply swp_bind, ack_request_ok; [done..|]. intros ? c' H' Eb. apply swp_bind.
  destruct Hack as [id Eid]. eapply swp_lift; [exact Eid|]. apply swp_mod. cbn beta. apply swp_ret. by apply set_ackManager_ok.
Qed.

Lemma remove_node_ok nodeType nodeID ackID from c : ok c -> str_in (cl_recvBuf c) ackID ->
  swp (__RemoveNodeMsgEx_processIncoming cfg nodeType nodeID ackID from) (fun _ => ok) c.
Proof.
  intros H Ha. unfold __RemoveNodeMsgEx_processIncoming. apply swp_bind.
  apply (swp_mono _ (fun _ c' => ok c' /\ cl_recvBuf c' = cl_recvBuf c)).
  - destruct (_ || _) eqn:Et; [|by apply swp_ret]. apply swp_bind, swp_on_nodes.
    assert (Ht : heartbeat_store nodeType = true) by (unfold heartbeat_store; by rewrite Et).
    destruct (co_nodes _ _ _ H nodeType Ht) as [Hs Hn].
    eapply swp_mono; [by apply (erase_ok (ext nodeType))|]. intros ? s' (Hs' & Hk & _).
    apply swp_ret. split; [|done]. apply set_nodes_ok; [done|done|by eapply numbered_kept].
  - intros ? c1 (H1 & Hb). apply swp_bind, ack_request_ok; [rewrite Hb; by apply str_in_readable|done|]. intros acked c2 H2 _.
    apply swp_bind. destruct acked; [by do 2 apply swp_ret|].
    eapply swp_mono; [apply (respond_spec _ _ _ _ (le_split 4 (u32 0))); [apply _|done|apply H2]|]. intros ? c3 (buf & Hbuf & ->).
    apply swp_ret. by apply with_out_ok.
Qed.

Lemma set_group_ok alloc nodeType primary secondary group allowUpdate ackID from c : ok c -> str_in (cl_recvBuf c) ackID ->
  swp (__SetMirrorBuddyGroupMsgEx_processIncoming cfg alloc nodeType primary secondary group allowUpdate ackID from) (fun _ => ok) c.
Proof.
  intros H Ha. unfold __SetMirrorBuddyGroupMsgEx_processIncoming. destruct (negb _) eqn:Et; [by apply swp_ret|].
  apply negb_false_iff, orb_true_iff in Et. rewrite !Z.eqb_eq in Et. apply swp_bind, swp_get, swp_bind.
  edestruct (addGroup_wf (cf_connMaxInternodeNum cfg) alloc (if nodeType =? NODETYPE_Storage then Some (cl_targetMapper c) else None)
    (cl_groups c nodeType) group primary secondary allowUpdate) as (r & g & E & Hg); [apply H; tauto|].
  eapply swp_lift; [exact E|]. cbn beta iota. apply swp_bind, swp_mod. apply ack_then_ok; [by apply str_in_readable|by apply set_groups_ok].
Qed.

Lemma handle_ok now alloc from type q c : ok c -> handled (cl_recvBuf c) q ->
  swp (_DatagramListener_handleIncomingMsg cfg now alloc from type q) (fun _ => ok) c.
Proof.
  intros H Hq. unfold _DatagramListener_handleIncomingMsg. apply swp_bind.
  apply (swp_mono _ (fun _ => ok)); [|intros ? c' H'; by apply swp_ret].
  destruct q; cbn [handled received_in] in Hq; try by apply swp_ret.
  - destruct (type =? _); [by apply heartbeat_request_ok|by apply swp_ret].
  - by apply heartbeat_ok.
  - unfold __MapTargetsMsgEx_processIncoming. apply swp_bind, swp_mod.
    apply ack_then_ok; [by apply str_in_readable|]. apply set_targets_ok; [done|]. apply map_targets_sorted, H.
  - unfold __RefreshTargetStatesMsgEx_processIncoming. apply swp_bind, swp_mod.
    apply ack_then_ok; [by apply str_in_readable|by apply set_syncer_ok].
  - by apply remove_node_ok.
  - by apply set_group_ok.
  - by apply lock_granted_ok.
Qed.

(** ** The loop *)

(** The buffer once the datagram is there. *)
Definition received (c : Client) (bytes : mem) : mem := put (cl_recvBuf c) 0 bytes.

(** The bytes of a datagram, no longer than the buffer. *)
Definition datagram (i : Incoming) : Prop :=
  match in_result i with inl _ => True | inr bytes => Forall is_byte bytes /\ mlen bytes <= DGRAMMGR_RECVBUF_SIZE end.

(** Decoding is defined, and gives a message that can be handled, if any. *)
Definition harmless (c : Client) (i : Incoming) : Prop :=
  match in_result i with
  | inl _ => True
  | inr bytes => exists q h, decode (received c bytes) (mlen bytes) (in_decode i) = Done (q, h) /\
      forall msg, q = Some msg -> handled (received c bytes) msg
  end.

Lemma listen_step_ok c i : ok c -> datagram i -> harmless c i -> swp (listen_step cfg i) (fun _ => ok) c.
Proof.
  unfold datagram, harmless, listen_step. intros H Hd Hh. destruct (in_result i) as [res|bytes]; [by apply swp_ret|].
  destruct bytes as [|b bytes']; [by apply swp_ret|]. remember (b :: bytes') as bytes eqn:Eb. clear Eb.
  destruct Hd as [Hb Hl], Hh as (q & h & Ed & Hq), (co_recv _ _ _ H) as [Hw Hr]. pose proof (mlen_nonneg bytes).
  apply swp_bind, swp_get, swp_bind. eapply swp_lift; [apply write_block_Done; lia|]. fold (received c bytes). apply swp_bind, swp_mod.
  assert (H1 : ok (set_cl_recvBuf c (received c bytes))).
  { unfold received. apply set_recv_ok; [done|apply put_msg_wf; (done || lia)|rewrite mlen_put by lia; done]. }
  destruct (__DatagramListener_isDGramFromLocalhost _ _ _); [by apply swp_ret|]. apply swp_bind. eapply swp_lift; [exact Ed|]. cbn beta iota.
  destruct (Z.eqb_spec (msgType h) NETMSGTYPE_Invalid) as [E|E]; [by apply swp_ret|]. destruct (_ || _); [by apply swp_ret|].
  destruct q as [q|]; [|by apply decoded_none in Ed]. apply swp_bind. eapply swp_lift; [done|]. apply swp_bind.
  eapply swp_mono; [apply handle_ok; [done|by apply Hq]|]. intros ? c' H'. by apply swp_ret.
Qed.

(** All datagrams of a run are harmless to the client that receives them. *)
Fixpoint all_harmless (c : Client) (l : list Incoming) : Prop :=
  match l with
  | [] => True
  | i :: l => datagram i /\ harmless c i /\ forall c', listen_step cfg i c = Done (true, c') -> all_harmless c' l
  end.

Lemma listen_loop_ok l c : ok c -> all_harmless c l -> swp (__DatagramListener_listenLoop cfg l) (fun _ => ok) c.
Proof.
  revert c. induction l as [|i l IH]; intros c H Hl; cbn [__DatagramListener_listenLoop]; [by apply swp_ret|].
  destruct Hl as (Hd & Hh & Hl). apply swp_bind. pose proof (listen_step_ok c i H Hd Hh) as Hs. unfold swp in Hs. unfold swp at 1.
  destruct (listen_step cfg i c) as [[continue c']|]; [|done]. destruct continue; [by apply IH; [|apply Hl]|by apply swp_ret].
Qed.

(** Messages without an aligned string are harmless; so is what is no message. *)
Lemma align4_free_harmless c i bytes : ok c -> datagram i -> in_result i = inr bytes ->
  align4_free (header_at (received c bytes) 0) = true -> (forall p, word (received c bytes) p 4 <> 2 ^ 32 - 1) -> harmless c i.
Proof.
  unfold datagram, harmless. intros H Hd Ei Ha Hff. rewrite Ei in Hd |- *. destruct Hd as [Hb Hl], (co_recv _ _ _ H) as [Hw Hr]. pose proof (mlen_nonneg bytes).
  unfold decode. set (d := in_decode i).
  destruct (createFromBuf_run (de_uid d) (de_raw d) (de_ok1 d) (de_ok2 d) (received c bytes) 0 (mlen bytes) (de_uninit d)) as [H1 H2].
  { unfold received. apply put_msg_wf; (done || lia). }
  { unfold ctx_wf, received. cbn [ddata dlength]. rewrite mlen_put by lia. lia. }
  destruct (bool_decide_reflect (header_valid (received c bytes) 0 (mlen bytes))) as [Hv|Hv].
  2:{ rewrite (H1 Hv). by eexists _, _. }
  specialize (H2 Hv). destruct (factory_table _ _ _ _) as [ops|]; [|rewrite H2; by eexists _, _].
  destruct (H2 Ha Hff) as (r & h' & E & Hr'). exists r, h'. split; [exact E|]. intros msg ->.
  destruct Hr' as (-> & Hin & _). pose proof (decode_types (received c bytes) (mlen bytes) d msg _ E) as Ht.
  destruct msg; try exact Hin; exfalso; apply list_elem_of_singleton in Ht; unfold align4_free in Ha; by rewrite Ht in Ha.
Qed.

(** ** What a message does *)

(** The datagram gets through to the handler, as this message. *)
Definition delivers (c : Client) (i : Incoming) (bytes : mem) (msg : Received) (type : Z) : Prop :=
  in_result i = inr bytes /\ 0 < mlen bytes /\ datagram i /\
  __DatagramListener_isDGramFromLocalhost cfg (cl_localNode c) (in_from i) = false /\
  exists h, decode (received c bytes) (mlen bytes) (in_decode i) = Done (Some msg, h) /\ msgType h = type /\
    type <> NETMSGTYPE_Invalid /\ msgLength h = mlen bytes /\ msgSequence h = 0 /\ msgSequenceDone h = 0.

Lemma step_delivers c i bytes msg type : mlen (cl_recvBuf c) = DGRAMMGR_RECVBUF_SIZE -> delivers c i bytes msg type ->
  listen_step cfg i c = (_ ← _DatagramListener_handleIncomingMsg cfg (in_now i) (in_alloc i) (in_from i) type msg; mret true)
    (set_cl_recvBuf c (received c bytes)).
Proof.
  intros Hr (Ei & H0 & Hd & Hlo & h & Ed & <- & Ht & El & E1 & E2). unfold datagram in Hd. rewrite Ei in Hd. destruct Hd as [_ Hl].
  unfold listen_step. rewrite Ei. destruct bytes as [|b bytes']; [done|]. remember (b :: bytes') as bytes eqn:Eb. clear Eb.
  unfold st_get, st_lift, st_mod, mbind, ST_bind. rewrite write_block_Done by lia. fold (received c bytes). rewrite Hlo, Ed.
  rewrite (proj2 (Z.eqb_neq _ _)) by done. by rewrite El, E1, E2, !Z.eqb_refl.
Qed.
End Listener.

(** C21: the listener survives its input.  The client's stores are well formed, other
    threads hold references to nodes and wait for acks.  A datagram whose message has no aligned string is harmless,
    whatever it says, when the receive buffer it is stored in has no four bytes of value [2^32 - 1] (such a string length
    defeats the check of the lengths); so is a heartbeat or a grant whose strings are terminated and, for the heartbeat, whose
    node has an ID and a known type.  When the listener receives any number of harmless datagrams, it never
    faults, and afterwards the node stores, the target mapper, the buddy groups and the store of acks are well formed, with the references
    and threads they had: the listener keeps no reference to a node it adds. *)
Theorem listener_safe `{K : KernelRBTree (Z * Z) fst} `{KT : KernelRBTree TargetMapping tmTargetID}
    `{KG : KernelRBTree GroupNode gnGroupID} (cfg : ClientConfig) (ext : Z -> Z -> Z) (ws : list Waiter) (c : Client) :
  client_ok ext ws c ->
  (forall i bytes, datagram i -> in_result i = inr bytes -> align4_free (header_at (received c bytes) 0) = true ->
     (forall p, word (received c bytes) p 4 <> 2 ^ 32 - 1) -> harmless c i) /\
  (forall l, all_harmless cfg c l -> exists c', __DatagramListener_listenLoop cfg l c = Done (tt, c') /\ client_ok ext ws c').
Proof.
  intros H. split.
  - intros i bytes Hd Ei Ha Hff. by apply (align4_free_harmless ext ws c i bytes).
  - intros l Hl. destruct (proj1 (swp_run _ _ _) (listen_loop_ok cfg ext ws l c H Hl)) as ([] & c' & E & H'). by exists c'.
Qed.

(** C23: the grant of a lock is answered once.  When the grant that arrives is for a lock that a
    thread waits for, that thread finds the ack among the received ones, nobody is registered for it any more, and the
    sender's ack is sent back at once and queued for sending reliably, behind the others.  When nobody waits for it, as after a
    repeated grant, the client changes in nothing but the buffer of the listener, so the grant is not confirmed. *)
Theorem lock_grant_once `{K : KernelRBTree (Z * Z) fst} `{KT : KernelRBTree TargetMapping tmTargetID}
    `{KG : KernelRBTree GroupNode gnGroupID} (cfg : ClientConfig) (ext : Z -> Z -> Z) (ws : list Waiter) (c : Client)
    (i : Incoming) (bytes : mem) (lockAckID ackID : Z * Z) (granter : Z) (lock ack : mem) :
  client_ok ext ws c -> delivers cfg c i bytes (LockGrantedMsgEx lockAckID ackID granter) NETMSGTYPE_LockGranted ->
  cstring (received c bytes) (snd lockAckID) = Done lock -> cstring (received c bytes) (snd ackID) = Done ack ->
  if decide (is_Some (as_storeMap (cl_ackStore c) !! lock)) then
    exists c', listen_step cfg i c = Done (true, c') /\
      as_storeMap (cl_ackStore c') !! lock = None /\
      (forall w, w ∈ ws -> waits_for (cl_ackStore c) w lock -> exists m,
         as_maps (cl_ackStore c') !! w_received w = Some m /\ m !! lock = w_acks w !! lock) /\
      ackQueue (cl_ackManager c') = ackQueue (cl_ackManager c) ++ [mkAck granter ack] /\
      cl_sent c' = if bool_decide (ack <> []) && fits_out (ack_datagram cfg ack)
                   then (in_from i, ack_datagram cfg ack) :: cl_sent c else cl_sent c
  else listen_step cfg i c = Done (true, set_cl_recvBuf c (received c bytes)).
Proof.
  intros H Hd El Ea. destruct (co_recv _ _ _ H) as [_ Hr].
  assert (Hlen : mlen (received c bytes) = DGRAMMGR_RECVBUF_SIZE).
  { destruct Hd as (Ei & _ & Hd & _). unfold datagram in Hd. rewrite Ei in Hd. pose proof (mlen_nonneg bytes).
    unfold received. rewrite mlen_put; lia. }
  rewrite (step_delivers cfg c i bytes _ _ Hr Hd). set (c0 := set_cl_recvBuf c (received c bytes)).
  unfold _DatagramListener_handleIncomingMsg, __LockGrantedMsgEx_processIncoming.
  pose proof (received_ok ws (cl_ackStore c) lock (co_acks _ _ _ H)) as Hk. unfold swp in Hk.
  unfold st_get, st_lift, on_acks, mbind, ST_bind. cbn beta iota. change (cl_recvBuf c0) with (received c bytes).
  change (cl_ackStore c0) with (cl_ackStore c). rewrite El. cbn beta iota. change (cl_ackStore c0) with (cl_ackStore c).
  destruct (decide (is_Some _)) as [Hs|Hs].
  - destruct (AcknowledgmentStore_receivedAck lock (cl_ackStore c)) as [[got s']|]; [|done].
    destruct Hk as (_ & Hgone & -> & Hw). rewrite (bool_decide_true (is_Some _)) by done. set (c1 := set_cl_ackStore _ s').
    destruct (proj1 (swp_run _ _ _) (ack_request_spec cfg ackID (in_from i) c1 ack Ea Hlen
      (co_send _ _ _ H))) as (acked & c2 & E & -> & buf & _ & ->).
    rewrite E. unfold mret, ST_ret, st_mod. cbn [cl_recvBuf with_out c1 set_cl_ackStore c0 set_cl_recvBuf]. rewrite Ea.
    eexists. split_and!; try done.
  - unfold AcknowledgmentStore_receivedAck, st_get, mbind, ST_bind. destruct (as_storeMap (cl_ackStore c) !! lock); [by destruct Hs; eexists|].
    by destruct c.
Qed.

(** C39: a heartbeat that the client rejects crashes it.  A decoded heartbeat with the ID 0, or of a node type
    that has no store, is not used, but the function then walks a list of addresses that
    it has not initialised. *)
Theorem heartbeat_uninit_list `{K : KernelRBTree (Z * Z) fst} `{KT : KernelRBTree TargetMapping tmTargetID}
    `{KG : KernelRBTree GroupNode gnGroupID} (cfg : ClientConfig) (c : Client) (i : Incoming) (bytes : mem)
    (v nicv nodeType : Z) (nodeID ackID : Z * Z) (nodeNumID rootNumID : Z) (mirrored : bool) (portUDP portTCP : Z) (nics : RawList) :
  mlen (cl_recvBuf c) = DGRAMMGR_RECVBUF_SIZE ->
  delivers cfg c i bytes (HeartbeatMsgEx v nicv nodeType nodeID ackID nodeNumID rootNumID mirrored portUDP portTCP nics) NETMSGTYPE_Heartbeat ->
  nodeNumID = 0 \/ heartbeat_store nodeType = false -> listen_step cfg i c = Fault.
Proof.
  intros Hr Hd Hbad. rewrite (step_delivers cfg c i bytes _ _ Hr Hd).
  assert (Eb : (nodeNumID =? 0) || negb (heartbeat_store nodeType) = true) by (destruct Hbad as [-> | ->]; [done|apply orb_true_r]).
  unfold _DatagramListener_handleIncomingMsg, __HeartbeatMsgEx_processIncoming, mbind, ST_bind, mret, ST_ret. rewrite Eb.
  cbn [of_option st_lift]. by destruct (MsgHelperAck_respondToAckRequest _ _ _ _) as [[]|].
Qed.

(** ** A small client: one storage node, one waiting thread *)

Module SmallClient.
#[export] Instance kernel : KernelRBTree (Z * Z) fst := chain_kernel (Z * Z) fst.
#[export] Instance target_kernel : KernelRBTree TargetMapping tmTargetID := chain_kernel TargetMapping tmTargetID.
#[export] Instance group_kernel : KernelRBTree GroupNode gnGroupID := chain_kernel GroupNode gnGroupID.

Definition cfg : ClientConfig := mkConfig 0 8 600 4 8004 [].
Definition local : NodeObject := Node_init 8 600 4 (mkTime 0 0) "client"%string 0 8004 0 [].
Definition waiter : Waiter := SmallAcks.waiter1.
Definition acks : AckState :=
  match AcknowledgmentStore_registerWaitAcks 10 11 5 (mkAckState ∅ (<[11 := ∅]> (<[10 := w_acks waiter]> ∅)) ∅) with
  | Done (_, s) => s | Fault => mkAckState ∅ ∅ ∅ end.
Definition client : Client :=
  mkClient (NodeStoreEx_init ∅) (fun _ => MirrorBuddyGroupMapper_init ∅) TargetMapper_init acks (AckManager_init [])
    (InternodeSyncer_init (mkTime 0 0) 30) local (replicate 65536 0) (replicate 65536 0) [].

Definition message (type : Z) (payload : mem) : mem := enc_header (40 + mlen payload) (NetMessage_init 0 type) ++ payload.
Definition heartbeat (nodeType nodeNumID : Z) : mem :=
  message NETMSGTYPE_Heartbeat (le_split 8 0 ++ le_split 8 0 ++ le_split 4 nodeType ++ Serialization.enc_str [115; 49] ++
    Serialization.enc_str_align4 [] ++ le_split 4 nodeNumID ++ le_split 4 0 ++ [0] ++ le_split 2 8003 ++ le_split 2 8003 ++ le_split 4 0).
Definition grant : mem :=
  message NETMSGTYPE_LockGranted (Serialization.enc_str_align4 (SmallAcks.ack 66) ++ Serialization.enc_str_align4 [49] ++ le_split 4 3).
Definition datagram_of (bytes : mem) : Incoming :=
  mkIncoming (inr bytes) (1, 2) (mkTime 5 0) (mkDecode 0 (mkRaw 0 0 0) (fun _ => true) (fun _ => true) (NetMessage_init 0 0)) (true, true).
End SmallClient.

#[local] Existing Instance SmallClient.kernel.
#[local] Existing Instance SmallClient.target_kernel.
#[local] Existing Instance SmallClient.group_kernel.

Lemma no_acks_ok maps sig : acks_ok [] (mkAckState ∅ maps sig).
Proof.
  constructor; cbn.
  - by intros w ?%not_elem_of_nil.
  - intros k e. rewrite lookup_empty. split; [done|]. by intros (w & ?%not_elem_of_nil & _).
  - constructor.
  - by intros w w' k ?%not_elem_of_nil.
Qed.

Lemma no_nodes_ok t : store_ok (fun _ => 0) (NodeStoreEx_init ∅ t).
Proof.
  constructor; try done.
  - constructor.
  - by intros e ?%not_elem_of_nil.
Qed.

Lemma small_client_ok : client_ok (fun _ _ => 0) [SmallClient.waiter] SmallClient.client.
Proof.
  constructor.
  - intros t _. split; [apply no_nodes_ok|done].
  - intros t _. apply mapper_init_wf.
  - constructor.
  - set (s := mkAckState ∅ (<[11 := ∅]> (<[10 := w_acks SmallClient.waiter]> ∅)) ∅).
    assert (Hm : may_register [] s SmallClient.waiter).
    { split_and!; [by vm_compute|by vm_compute|by apply (bool_decide_unpack _); vm_compute|by apply (bool_decide_unpack _); vm_compute|].
      by intros w k ?%not_elem_of_nil. }
    pose proof (register_ok [] s SmallClient.waiter (no_acks_ok _ _) Hm) as Hr. cbn [cl_ackStore SmallClient.client].
    unfold SmallClient.acks. fold s. unfold swp in Hr.
    change (AcknowledgmentStore_registerWaitAcks 10 11 5 s) with
      (AcknowledgmentStore_registerWaitAcks (w_wait SmallClient.waiter) (w_received SmallClient.waiter) (w_notifier SmallClient.waiter) s).
    by destruct (AcknowledgmentStore_registerWaitAcks _ _ _ s) as [[[] s']|].
  - split; [split|]; [|by vm_compute..]. change (Forall is_byte (replicate 65536 0)). apply Forall_replicate. unfold is_byte, in_u. lia.
  - by vm_compute.
  - split_and!; [by vm_compute|constructor|by vm_compute].
Qed.

#[local] Notation at_client bytes := (received SmallClient.client bytes).
#[local] Notation decoded bytes := (decode (at_client bytes) (mlen bytes) (in_decode (SmallClient.datagram_of bytes))).

Lemma decoded_heartbeat : decoded (SmallClient.heartbeat 2 7) =
  Done (Some (HeartbeatMsgEx 0 0 2 (2, 64) (0, 71) 7 0 false 8003 8003 (mkRaw 92 0 0)),
        header_set_length (NetMessage_init 0 NETMSGTYPE_Heartbeat) 92).
Proof. vm_compute. reflexivity. Qed.
Lemma decoded_bad_heartbeat : decoded (SmallClient.heartbeat 2 0) =
  Done (Some (HeartbeatMsgEx 0 0 2 (2, 64) (0, 71) 0 0 false 8003 8003 (mkRaw 92 0 0)),
        header_set_length (NetMessage_init 0 NETMSGTYPE_Heartbeat) 92).
Proof. vm_compute. reflexivity. Qed.
Lemma decoded_grant : decoded SmallClient.grant =
  Done (Some (LockGrantedMsgEx (2, 44) (1, 52) 3), header_set_length (NetMessage_init 0 NETMSGTYPE_LockGranted) 60).
Proof. vm_compute. reflexivity. Qed.
Lemma heartbeat_strings : cstring (at_client (SmallClient.heartbeat 2 7)) 64 = Done [115; 49] /\
  cstring (at_client (SmallClient.heartbeat 2 7)) 71 = Done [] /\
  Serialization_deserializeNicList (at_client (SmallClient.heartbeat 2 7)) (mkRaw 92 0 0) [] = Done [].
Proof. split_and!; vm_compute; reflexivity. Qed.
Lemma grant_strings : cstring (at_client SmallClient.grant) 44 = Done (SmallAcks.ack 66) /\
  cstring (at_client SmallClient.grant) 52 = Done [49].
Proof. split; vm_compute; reflexivity. Qed.

Lemma bytes_ok (l : mem) : forallb (fun b => (0 <=? b) && (b <? 256)) l = true -> Forall is_byte l.
Proof.
  intros H. apply Forall_forall. intros b Hb%list_elem_of_In. rewrite forallb_forall in H. apply H in Hb.
  apply andb_true_iff in Hb as [H1%Z.leb_le H2%Z.ltb_lt]. unfold is_byte, in_u. lia.
Qed.

Lemma small_datagram bytes : bytes ∈ [SmallClient.heartbeat 2 7; SmallClient.heartbeat 2 0; SmallClient.grant] ->
  datagram (SmallClient.datagram_of bytes) /\ 0 < mlen bytes.
Proof.
  intros H. repeat (apply elem_of_cons in H as [->|H]); [..|by apply not_elem_of_nil in H];
    (split; [split; [by apply bytes_ok; vm_compute|by vm_compute]|by vm_compute]).
Qed.

Lemma small_harmless : harmless SmallClient.client (SmallClient.datagram_of (SmallClient.heartbeat 2 7)).
Proof.
  destruct heartbeat_strings as (H1 & H2 & H3). unfold harmless. cbn [in_result SmallClient.datagram_of].
  eexists _, _. split; [exact decoded_heartbeat|]. intros msg [= <-].
  split_and!; [exists [115; 49]; exact H1|exists []; exact H2|lia|lia|reflexivity|exists []; exact H3].
Qed.

Lemma listener_safe_witness :
  exists c', __DatagramListener_listenLoop SmallClient.cfg [SmallClient.datagram_of (SmallClient.heartbeat 2 7)] SmallClient.client = Done (tt, c') /\
    client_ok (fun _ _ => 0) [SmallClient.waiter] c'.
Proof.
  apply (listener_safe SmallClient.cfg (fun _ _ => 0) [SmallClient.waiter] SmallClient.client small_client_ok).
  split; [apply small_datagram; by left|]. split; [apply small_harmless|done].
Defined.

Lemma grant_waited : is_Some (as_storeMap (cl_ackStore SmallClient.client) !! SmallAcks.ack 66).
Proof. exists (entry_of SmallClient.waiter). by vm_compute. Qed.

Lemma lock_grant_once_witness :
  exists c', listen_step SmallClient.cfg (SmallClient.datagram_of SmallClient.grant) SmallClient.client = Done (true, c') /\
    ackQueue (cl_ackManager c') = [mkAck 3 [49]].
Proof.
  destruct (small_datagram SmallClient.grant) as [Hd H0]; [do 2 right; by left|].
  assert (Hdel : delivers SmallClient.cfg SmallClient.client (SmallClient.datagram_of SmallClient.grant) SmallClient.grant
    (LockGrantedMsgEx (2, 44) (1, 52) 3) NETMSGTYPE_LockGranted).
  { split; [reflexivity|]. split; [exact H0|]. split; [exact Hd|]. split; [by vm_compute|]. eexists. split; [exact decoded_grant|]. by split_and!. }
  pose proof (lock_grant_once SmallClient.cfg (fun _ _ => 0) [SmallClient.waiter] SmallClient.client (SmallClient.datagram_of SmallClient.grant)
    SmallClient.grant (2, 44) (1, 52) 3 (SmallAcks.ack 66) [49] small_client_ok Hdel (proj1 grant_strings) (proj2 grant_strings)) as H.
  rewrite decide_True in H by exact grant_waited.
  destruct H as (c' & E & _ & _ & Hq & _). exists c'. split; [exact E|exact Hq].
Defined.

Lemma heartbeat_uninit_list_witness :
  listen_step SmallClient.cfg (SmallClient.datagram_of (SmallClient.heartbeat 2 0)) SmallClient.client = Fault.
Proof.
  destruct (small_datagram (SmallClient.heartbeat 2 0)) as [Hd H0]; [right; by left|].
  apply (heartbeat_uninit_list SmallClient.cfg SmallClient.client (SmallClient.datagram_of (SmallClient.heartbeat 2 0))
    (SmallClient.heartbeat 2 0) 0 0 2 (2, 64) (0, 71) 0 0 false 8003 8003 (mkRaw 92 0 0)); [by vm_compute| |by left].
  split; [reflexivity|]. split; [exact H0|]. split; [exact Hd|]. split; [by vm_compute|].
  eexists. split; [exact decoded_bad_heartbeat|]. by split_and!.
Defined.
